(* ===== verification/_CoqProject ===== *)
-Q . S2P
Prelude.v
Time.v
MutexVal.v
PsharedMutex.v
Threads.v
PtrLists.v
Referee.v
RefereeServer.v
RobustMutex.v
RobustReferee.v
RobustProps.v
MutexRefines.v
CStr.v
Argparse.v
ArgHelp.v
Utils.v
CmdLine.v
EnvCache.v
Profile.v
StartupWin32.v
TextMode.v
Effects.v
Errcode.v
Bytes.v
AccessWin32.v
SecDesc.v
FdTable.v
IpcWin32.v
FdWin32.v
ErrorState.v
CopyLoop.v
File.v
FilePosix.v
RemovePosix.v
PosixDemo.v
VolumeWin32.v
FileWin32.v
SpawnWin32.v
ProcessWin32.v
ScanInt.v
ProcessPosix.v
SpawnPosix.v
Socket.v
SocketPosix.v
SocketWin32.v
PsharedLock.v
RefereeExchange.v
RefereeLoop.v
RefereeThread.v
ThreadLocal.v
ThreadPosix.v
CondWin32.v
Alloc.v
ShmPosix.v
ShmWin32.v
IpcPosix.v
DynLib.v
ProfileReport.v
CompletePath.v
SharedTimer.v
Win32Calls.v
ErrorPrint.v
SpawnedChild.v
