(* ===== verification/Prelude.v ===== *)
(** * Verification of mmlib

    mmlib is a portable system library in C: threads and locks that can be
    shared between processes, time, files, processes, sockets, local
    interprocess communication, shared memory, errors and logs, command line
    parsing.  Most parts have a POSIX and a Windows variant.  On Windows,
    process-shared locks are implemented by the library itself, with a 64-bit
    lock value in shared memory and a server process, the lock referee, that
    blocks and wakes the threads and has the locks repaired when a thread
    dies.  That core was modelled first, then the rest of the library.

    ** Parts and files

    Common: [Prelude] (machine integers [wrap_s], [wrap_u], checked signed
    arithmetic, bit fields, error numbers, counting in maps, tactics), [CStr] (C strings,
    [strtoll]), [ScanInt] ([%i]), [Bytes] (integers in memory), [Effects] (the
    state monad of the parts that call the system: [None] is undefined
    behaviour, or fuel exhausted where a definition says so).

    Locks and threads on Windows:
    - [MutexVal]: [mutex-lockval.h], and from [pshared-lock.c] the repair of
      a lock value after the death of threads.
    - [PsharedMutex]: the mutexes of [thread-win32.c].  [mtx_step] is one
      access of one thread to shared memory (or one exchange with the
      referee), [act] interleaves the threads; [mtx_pc] is the point of the C
      function where a thread stands.
    - [Threads]: condition variables, once routines, dispatch to the native
      locks; [CondWin32]: the native condition variables; [ThreadLocal]: the
      heap blocks of the threads and of their local data, [DllMain], creation,
      join and detach ([thr_event] is a step of one of the threads).
    - [PtrLists], [Referee], [RefereeServer], [RefereeLoop]:
      [lock-referee-server.c], from the linked lists on an explicit memory to
      the locks, the clients and their requests, and the main loop with its
      start and end.
    - [PsharedLock]: the client side, [pshared-lock.c]; [RefereeExchange] puts
      a client and the server together; [RefereeThread]: the variant where the
      referee is a thread of the library.
    - [RobustMutex]: all of it together for one mutex: the threads of
      [PsharedMutex] ([mtx_step]), the lock of [Referee], the responses on
      the pipes, the cleanup jobs of [pshared-lock.c], and threads that die at
      any point; [ract] is one step.  [RobustReferee] has its invariant,
      [RobustProps] the theorems; [MutexRefines] relates it to [PsharedMutex],
      which sees the referee as a number of pending wake-ups.
    - [SharedTimer]: the timer of the sleeps, shared by the threads.

    Time: [Time] ([mmtime.h], [time.c], [time-win32.c], [clock-win32.c]; the
    class [ClockHw] is the machine clocks, [ClockLaws] what the sleeps need of
    them).  [ThreadPosix]: [thread-posix.c] and [time-posix.c].

    Errors and memory: [Errcode], [ErrorState], [ErrorPrint] ([error.c],
    [log.c] and the errors of [utils-win32.c]), [Alloc] ([alloc.c]).

    Files: [File] ([file.c]), [FilePosix], [RemovePosix], [PosixDemo]
    ([file-posix.c]), [CopyLoop] (the copy loops of both variants),
    [TextMode], [AccessWin32], [SecDesc], [FdTable] ([utils-win32.c]: text mode,
    access rights, errors and the table of the descriptors), [FdWin32] (reads and
    writes by the kind of a descriptor), [VolumeWin32] (volumes and trash),
    [FileWin32] ([file-win32.c]), [ShmPosix], [ShmWin32] (mappings and shared
    memory), [IpcPosix], [IpcWin32] (local interprocess communication).

    Processes: [ProcessPosix], [SpawnPosix] ([process-posix.c]), [CmdLine],
    [SpawnWin32], [ProcessWin32] ([process-win32.c]: command line, descriptors
    given to the child, list of the children), [StartupWin32]
    ([startup-win32.c]), [SpawnedChild] (the parent and its child together),
    [DynLib] ([dlfcn.c]), [Win32Calls] (the small parts).

    Sockets: [Socket] ([socket.c]), [SocketPosix], [SocketWin32].

    Command line, environment, profiling: [Argparse], [ArgHelp],
    [CompletePath] ([argparse.c]), [Utils] ([utils.c]), [EnvCache]
    ([env-win32.c]), [Profile], [ProfileReport] ([profile.c]).

    Definitions have the names of the C functions.  A loop of a function is a
    definition of its own ([search_loop] for the loop of [search_key_index]);
    a state changed by side effect is passed and returned; [None] is undefined
    behaviour (a bad dereference, a buffer overflow, a signed overflow) unless
    the file says otherwise, and a theorem that gives [Some] excludes it.  The
    system is a class of functions on an abstract state ([W32File], [PosixOs],
    [IpcSockets], ...), and a class of laws states what its documentation
    says; each file that has such a class ends with a module, whose name ends in
    [Demo], that is a small system with these laws, on which the definitions
    are evaluated.

    ** Theorems

    - Mutexes: mutual exclusion and the count of waiters in every interleaving
      of up to 255 threads ([PsharedMutex.inv] is the invariant), what each
      routine does when it runs alone, the robust data that let the referee
      find the mutexes of a dead thread, the repair of the lock value.
      [registration_race_deadlock] is a reachable schedule, found by
      modelling, after which two threads sleep for ever on a free mutex.
    - Deaths of threads: mutual exclusion, the exact repair of the deaths
      reported, and waiters that are never abandoned, in the schedules that
      are [clean], that is without the defects found, each of which has an
      example in [RobustProps]; without deaths, a refinement of [PsharedMutex].
    - Referee: a lock refines a counting semaphore with a fair queue; requests
      act on their lock alone and the death of a thread is reported exactly;
      the main loop runs the handlers in turns and ends when no client is
      left; the array of locks stays sorted; the linked lists implement lists;
      a client and the server together ([woken_wait_times_out]).
    - Threads: wake-ups of condition variables, once routines, no use after
      free and no double free of the structures of the threads, end of the
      timed waits; threads that sleep share one timer.
    - Time: exact arithmetic, bounds on differences, conversions, and sleeps
      that end and last what was asked, proved against [ClockLaws].
    - Errors: the error state keeps what was raised, whatever the log does;
      the lines of the log and the messages stay in their buffers.
    - Files: removal of a tree, copies, creation of parents, text mode that
      does not depend on how reads are cut, permissions, the table of the
      descriptors typed, volumes, reading of directories, mappings tracked.
    - Processes: the descriptors a child inherits, the list of the children
      as a finite map, the search of a program, what a failed spawn reports,
      what a program started gets; the round trips of the escaped command line
      and of the startup arguments, and from [mm_spawn] to the [main] of the
      child ([spawned_child_starts], [spawned_settings]).
    - Sockets and messages: the addresses tried by a client, the parsing of an
      address, time-out options read as they were written, messages received
      as they were sent with their descriptors.
    - Command line: a round trip (the settings written are the settings
      performed), totality, conversion of integers, lookup, validation,
      completion of options and of paths; wrapped text, and the exact
      condition under which the help of an option overflows its buffer.
    - Paths, environment, profiling: [basename] and [dirname], base folders,
      the cache of the environment that refines a finite map; after a
      reset, any sequence of measures and printed tables gives the statistics
      of the log of the iterations, and the table is written without overflow.

    ** Fuel and bounds

    Loops that are not structural take fuel, given by the definitions from the
    data: the length of the array for the binary search, of the argument
    vector for the parser, of the text for the wrapping, of the buffer for the
    writes, the number of nodes for the lists; the theorems show that it is
    enough by giving a result.  Where the length of a loop depends on the
    system (entries of a folder, turns of the referee, depth of a tree) the
    fuel is a parameter and the theorems hold for each one that is large
    enough.  [solo] bounds the accesses of a thread that runs alone.
    [nanosleep_loop] and [timedwait_loop] take a bound that the theorems find
    from the progress of the clock.

    ** What is not modelled

    The calls of the systems themselves are parameters with laws.  Reads and
    writes of the lock value are sequentially consistent.  Where a file does
    not say that an allocation can fail, it does not.  The statistics of
    [Profile] use integers for the mean, exact below 2^53 ns.  Left out:
    constructors and destructors that only call the system
    (initialisation of Winsock, of the well-known SID, of the translations,
    of the path of the temporary files, which nothing reads), the tests, the
    documentation and the build files. *)

From Stdlib Require Export ZArith Ascii String Lia.
From stdpp Require Export base gmap strings numbers option.
From stdpp Require Export list.

#[global] Open Scope Z_scope.

(** ** Machine integers

    A [w]-bit integer is a [Z].  Unsigned arithmetic and conversions wrap;
    signed overflow is undefined behaviour in C, so signed arithmetic is
    checked: [None] is the overflow. *)

Definition wrap_u (w : Z) (z : Z) : Z := z mod 2 ^ w.

Definition wrap_s (w : Z) (z : Z) : Z :=
  (z + 2 ^ (w - 1)) mod 2 ^ w - 2 ^ (w - 1).

Definition in_s (w : Z) (z : Z) : Prop := - 2 ^ (w - 1) <= z < 2 ^ (w - 1).

Definition in_u (w : Z) (z : Z) : Prop := 0 <= z < 2 ^ w.

#[export] Instance in_s_dec w z : Decision (in_s w z).
Proof. unfold in_s; apply _. Defined.

#[export] Instance in_u_dec w z : Decision (in_u w z).
Proof. unfold in_u; apply _. Defined.

Abbreviation s64 := (wrap_s 64).
Abbreviation s32 := (wrap_s 32).
Abbreviation u32 := (wrap_u 32).
Abbreviation u64 := (wrap_u 64).

Definition INT_MAX : Z := 2147483647.
Definition INT_MIN : Z := -2147483648.
Definition UINT_MAX : Z := 4294967295.
Definition INT64_MAX : Z := 9223372036854775807.
Definition INT64_MIN : Z := -9223372036854775808.
Definition UINT64_MAX : Z := 18446744073709551615.

(** Error numbers of the Windows C runtime that the modelled code returns. *)
Definition ENOENT : Z := 2.
Definition ENOMEM : Z := 12.
Definition EBUSY : Z := 16.
Definition EINVAL : Z := 22.
Definition ENOTRECOVERABLE : Z := 127.
Definition EOWNERDEAD : Z := 133.
Definition ETIMEDOUT : Z := 138.

(** Checked signed arithmetic at width 64. *)
Definition chk64 (z : Z) : option Z := if decide (in_s 64 z) then Some z else None.
Definition add64 (a b : Z) : option Z := chk64 (a + b).
Definition sub64 (a b : Z) : option Z := chk64 (a - b).
Definition mul64 (a b : Z) : option Z := chk64 (a * b).

Lemma in_s_64 z : in_s 64 z <-> INT64_MIN <= z <= INT64_MAX.
Proof. unfold in_s, INT64_MIN, INT64_MAX. lia. Qed.

Lemma chk64_Some z : INT64_MIN <= z <= INT64_MAX -> chk64 z = Some z.
Proof.
  intros H. unfold chk64. rewrite decide_True; [done|]. by apply in_s_64.
Qed.

Lemma chk64_inv z y : chk64 z = Some y -> y = z /\ INT64_MIN <= z <= INT64_MAX.
Proof.
  unfold chk64. case_decide as Hd; [|done]. intros [= <-].
  split; [done|]. by apply in_s_64.
Qed.

Lemma chk64_is_Some z y : chk64 z = Some y <-> y = z /\ INT64_MIN <= z <= INT64_MAX.
Proof.
  split; [apply chk64_inv|]. intros [-> H]. by apply chk64_Some.
Qed.

Lemma wrap_s_small w z : 0 < w -> in_s w z -> wrap_s w z = z.
Proof.
  intros Hw [H1 H2]. unfold wrap_s.
  assert (2 ^ w = 2 * 2 ^ (w - 1)) as Hp.
  { rewrite <- Z.pow_succ_r by lia. f_equal. lia. }
  rewrite Z.mod_small; lia.
Qed.

Lemma wrap_s_range w z : 0 < w -> in_s w (wrap_s w z).
Proof.
  intros Hw. unfold in_s, wrap_s.
  assert (2 ^ w = 2 * 2 ^ (w - 1)) as Hp.
  { rewrite <- Z.pow_succ_r by lia. f_equal. lia. }
  pose proof (Z.mod_pos_bound (z + 2 ^ (w - 1)) (2 ^ w)). lia.
Qed.

(** Wrapping changes a value by a multiple of [2 ^ w]. *)
Lemma wrap_s_eqm w z : 0 < w -> exists k, wrap_s w z = z + k * 2 ^ w.
Proof.
  intros Hw. unfold wrap_s.
  exists (- ((z + 2 ^ (w - 1)) / 2 ^ w)).
  pose proof (Z.div_mod (z + 2 ^ (w - 1)) (2 ^ w)). lia.
Qed.

Lemma wrap_s_mod w n z : 0 <= n <= w -> 0 < w -> wrap_s w z mod 2 ^ n = z mod 2 ^ n.
Proof.
  intros Hn Hw. destruct (wrap_s_eqm w z Hw) as [k ->].
  replace (2 ^ w) with (2 ^ (w - n) * 2 ^ n)
    by (rewrite <- Z.pow_add_r by lia; f_equal; lia).
  rewrite Z.mul_assoc. by rewrite Z.mod_add by lia.
Qed.

Lemma wrap_u_small w z : in_u w z -> wrap_u w z = z.
Proof. intros H. unfold wrap_u. by apply Z.mod_small. Qed.

Lemma wrap_u_range w z : 0 <= w -> in_u w (wrap_u w z).
Proof. intros Hw. unfold in_u, wrap_u. apply Z.mod_pos_bound. lia. Qed.

(** ** Bit fields *)

(** Masking with a run of ones extracts the field in place. *)
Lemma land_field v a n :
  0 <= a -> 0 <= n ->
  Z.land v (Z.shiftl (Z.ones n) a) = ((v / 2 ^ a) mod 2 ^ n) * 2 ^ a.
Proof.
  intros Ha Hn. rewrite <- Z.shiftl_mul_pow2, <- Z.shiftr_div_pow2 by lia.
  rewrite <- Z.land_ones by lia.
  apply Z.bits_inj'. intros i Hi.
  rewrite Z.land_spec, !Z.shiftl_spec by lia.
  destruct (decide (i < a)).
  - rewrite !(Z.testbit_neg_r _ (i - a)) by lia. by rewrite andb_false_r.
  - rewrite Z.land_spec, Z.shiftr_spec by lia. do 2 f_equal. lia.
Qed.

(** Clearing the high bits of a value keeps it modulo the remaining ones. *)
Lemma land_low v n : 0 <= n -> Z.land v (2 ^ n - 1) = v mod 2 ^ n.
Proof.
  intros Hn. rewrite <- Z.land_ones by lia. f_equal.
  rewrite Z.ones_equiv. lia.
Qed.

(** Disjoint bit fields: or is addition. *)
Lemma lor_add_shift a b n :
  0 <= n -> 0 <= a < 2 ^ n -> Z.lor a (Z.shiftl b n) = a + b * 2 ^ n.
Proof.
  intros Hn Ha. rewrite <- Z.shiftl_mul_pow2 by lia.
  symmetry. apply Z.add_nocarry_lor.
  apply Z.bits_inj'. intros i Hi.
  rewrite Z.land_spec, Z.shiftl_spec, Z.bits_0 by lia.
  destruct (decide (i < n)).
  - rewrite (Z.testbit_neg_r _ (i - n)) by lia. by rewrite andb_false_r.
  - rewrite <- (Z.mod_small a (2 ^ n)) by lia.
    by rewrite Z.mod_pow2_bits_high by lia.
Qed.

(** Clearing a field given by the low [n] bits. *)
Lemma land_lnot_low v n : 0 <= n -> Z.land v (Z.lnot (2 ^ n - 1)) = v - v mod 2 ^ n.
Proof.
  intros Hn. rewrite <- Z.ldiff_land.
  replace (2 ^ n - 1) with (Z.ones n) by (rewrite Z.ones_equiv; lia).
  rewrite Z.ldiff_ones_r by lia.
  rewrite Z.shiftl_mul_pow2, Z.shiftr_div_pow2 by lia.
  pose proof (Z.div_mod v (2 ^ n)). lia.
Qed.

(** Clearing the bits of a mask is subtracting them. *)
Lemma land_lnot v m : Z.land v (Z.lnot m) = v - Z.land v m.
Proof.
  assert (Z.ldiff (Z.land v m) v = 0 /\ Z.ldiff v (Z.land v m) = Z.ldiff v m) as [H0 H1].
  { split; apply Z.bits_inj'; intros i Hi;
      rewrite !Z.ldiff_spec, Z.land_spec, ?Z.bits_0;
      destruct (Z.testbit v i), (Z.testbit m i); reflexivity. }
  rewrite Z.sub_nocarry_ldiff by done. by rewrite H1, Z.ldiff_land.
Qed.

(** ** Counting the entries of a map *)

Section Count.
Context {A : Type} (p : A -> bool).

Definition count_if (m : gmap Z A) : Z := Z.of_nat (size (filter (fun x : Z * A => p (snd x) = true) m)).

Lemma count_if_new m t a : m !! t = None -> count_if (<[t := a]> m) = count_if m + Z.b2z (p a).
Proof.
  intros Hm. unfold count_if. destruct (p a) eqn:E; simpl Z.b2z.
  - rewrite map_filter_insert_True by done. rewrite map_size_insert_None; [lia|].
    apply map_lookup_filter_None. by left.
  - rewrite map_filter_insert_False by (simpl; congruence). rewrite delete_id by done. lia.
Qed.

Lemma count_if_insert m t a a' :
  m !! t = Some a -> count_if (<[t := a']> m) = count_if m - Z.b2z (p a) + Z.b2z (p a').
Proof.
  intros Hm. rewrite <- insert_delete_eq. rewrite <- (insert_delete_id m t a Hm) at 2.
  rewrite !count_if_new by apply lookup_delete_eq. lia.
Qed.

Lemma count_if_bound m t a :
  m !! t = Some a -> Z.b2z (p a) <= count_if m <= Z.of_nat (size m) - Z.b2z (negb (p a)).
Proof.
  intros Hm. rewrite <- (insert_delete_id m t a Hm), count_if_new by apply lookup_delete_eq.
  rewrite map_size_insert_None by apply lookup_delete_eq.
  pose proof (map_size_filter (fun x : Z * A => p (snd x) = true) (delete t m)).
  unfold count_if. destruct (p a); simpl Z.b2z; lia.
Qed.

Lemma count_if_pos m t a : m !! t = Some a -> p a = true -> 0 < count_if m.
Proof. intros Hm Hp. pose proof (count_if_bound m t a Hm). rewrite Hp in H. cbn in H. lia. Qed.
End Count.

Lemma size_list_to_map_le {A : Type} (l : list (Z * A)) : (size (list_to_map l : gmap Z A) <= length l)%nat.
Proof.
  induction l as [|[k a] l IH]; cbn; [by rewrite map_size_empty|].
  rewrite map_size_insert. case_match; unfold id in *; lia.
Qed.

Create HintDb mmlib.

(** ** Tactics *)

(** Turn every boolean integer test of the context into its proposition. *)
Ltac zbool :=
  repeat match goal with
  | H : (_ =? _)%Z = true |- _ => apply Z.eqb_eq in H
  | H : (_ =? _)%Z = false |- _ => apply Z.eqb_neq in H
  | H : (_ <? _)%Z = true |- _ => apply Z.ltb_lt in H
  | H : (_ <? _)%Z = false |- _ => apply Z.ltb_ge in H
  | H : (_ <=? _)%Z = true |- _ => apply Z.leb_le in H
  | H : (_ <=? _)%Z = false |- _ => apply Z.leb_gt in H
  | H : (_ =? _)%nat = true |- _ => apply Nat.eqb_eq in H
  | H : (_ =? _)%nat = false |- _ => apply Nat.eqb_neq in H
  | H : (_ <? _)%nat = true |- _ => apply Nat.ltb_lt in H
  | H : (_ <? _)%nat = false |- _ => apply Nat.ltb_ge in H
  | H : (_ <=? _)%nat = true |- _ => apply Nat.leb_le in H
  | H : (_ <=? _)%nat = false |- _ => apply Nat.leb_gt in H
  | H : (_ && _)%bool = true |- _ => apply andb_true_iff in H; destruct H
  | H : (_ && _)%bool = false |- _ => apply andb_false_iff in H
  | H : (_ || _)%bool = false |- _ => apply orb_false_iff in H; destruct H
  | H : (_ || _)%bool = true |- _ => apply orb_true_iff in H
  | H : negb _ = true |- _ => apply negb_true_iff in H
  | H : negb _ = false |- _ => apply negb_false_iff in H
  end.

(** Case analysis on the first [if] or [match] of the goal whose scrutinee is
    an integer test, with the test turned into a proposition. *)
Ltac case_test :=
  match goal with
  | |- context [if ?b then _ else _] =>
      match type of b with
      | bool => let E := fresh "Hb" in destruct b eqn:E; zbool
      end
  end.

(** Quotient and remainder facts for [lia]. *)
Ltac zquot :=
  Z.quot_rem_to_equations; lia.

(** Case analysis on every [decide] of the goal. *)
Ltac split_decide :=
  repeat match goal with
  | |- context [decide ?P] => destruct (decide P)
  end.
