(* ===== verification/Time.v ===== *)
(** * Time arithmetic and clocks

    Models [mmtime.h] (timestamp helpers), [time.c] (relative sleeps),
    [time-win32.c] ([mm_nanosleep] and the clock dispatch) and the clock
    conversions of [clock-win32.c]. *)

From S2P Require Import Prelude.

Definition NS_IN_SEC : Z := 1000000000.
Definition US_IN_SEC : Z := 1000000.
Definition MS_IN_SEC : Z := 1000.

(** [struct mm_timespec]: [time_t] and [long] are 64-bit signed. *)
Record mm_timespec := mk_ts { tv_sec : Z; tv_nsec : Z }.

#[export] Instance mm_timespec_eq_dec : EqDecision mm_timespec.
Proof. solve_decision. Defined.

(** The documented validity of the nanosecond field. *)
Definition normalized (ts : mm_timespec) : Prop := 0 <= tv_nsec ts < NS_IN_SEC.

(** The instant a timestamp denotes, as a mathematical integer. *)
Definition ns_of (ts : mm_timespec) : Z := tv_sec ts * NS_IN_SEC + tv_nsec ts.

(** ** Differences *)

Definition mm_timediff_ns (ts orig : mm_timespec) : option Z :=
  dsec ← sub64 (tv_sec ts) (tv_sec orig);
  dt ← mul64 dsec NS_IN_SEC;
  dnsec ← sub64 (tv_nsec ts) (tv_nsec orig);
  add64 dt dnsec.

Definition mm_timediff_us (ts orig : mm_timespec) : option Z :=
  dsec ← sub64 (tv_sec ts) (tv_sec orig);
  dt ← mul64 dsec US_IN_SEC;
  dnsec ← sub64 (tv_nsec ts) (tv_nsec orig);
  add64 dt (Z.quot dnsec (Z.quot NS_IN_SEC US_IN_SEC)).

Definition mm_timediff_ms (ts orig : mm_timespec) : option Z :=
  dsec ← sub64 (tv_sec ts) (tv_sec orig);
  dt ← mul64 dsec MS_IN_SEC;
  dnsec ← sub64 (tv_nsec ts) (tv_nsec orig);
  add64 dt (Z.quot dnsec (Z.quot NS_IN_SEC MS_IN_SEC)).

(** ** Offsets *)

(** The carry that ends the three [mm_timeadd_*] functions. *)
Definition timeadd_carry (ts : mm_timespec) : option mm_timespec :=
  if NS_IN_SEC <=? tv_nsec ts then
    nsec ← sub64 (tv_nsec ts) NS_IN_SEC;
    sec ← add64 (tv_sec ts) 1;
    Some (mk_ts sec nsec)
  else if tv_nsec ts <? 0 then
    nsec ← add64 (tv_nsec ts) NS_IN_SEC;
    sec ← sub64 (tv_sec ts) 1;
    Some (mk_ts sec nsec)
  else Some ts.

Definition mm_timeadd_ns (ts : mm_timespec) (dt : Z) : option mm_timespec :=
  sec ← add64 (tv_sec ts) (Z.quot dt NS_IN_SEC);
  nsec ← add64 (tv_nsec ts) (Z.rem dt NS_IN_SEC);
  timeadd_carry (mk_ts sec nsec).

Definition mm_timeadd_us (ts : mm_timespec) (dt : Z) : option mm_timespec :=
  sec ← add64 (tv_sec ts) (Z.quot dt US_IN_SEC);
  off ← mul64 (Z.rem dt US_IN_SEC) (Z.quot NS_IN_SEC US_IN_SEC);
  nsec ← add64 (tv_nsec ts) off;
  timeadd_carry (mk_ts sec nsec).

Definition mm_timeadd_ms (ts : mm_timespec) (dt : Z) : option mm_timespec :=
  sec ← add64 (tv_sec ts) (Z.quot dt MS_IN_SEC);
  off ← mul64 (Z.rem dt MS_IN_SEC) (Z.quot NS_IN_SEC MS_IN_SEC);
  nsec ← add64 (tv_nsec ts) off;
  timeadd_carry (mk_ts sec nsec).

(** ** FILETIME conversions ([utils-win32.h])

    A FILETIME is the unsigned 64-bit count of 100 ns ticks since 1601. *)

Definition FT_EPOCH : Z := Z.shiftl 27111902 32 + 3577643008.
Definition FT_TICKS_IN_SEC : Z := 10000000.

Definition filetime_to_timespec (ft : Z) : mm_timespec :=
  let quad := u64 (ft - FT_EPOCH) in
  mk_ts (quad / FT_TICKS_IN_SEC) ((quad mod FT_TICKS_IN_SEC) * 100).

Definition timespec_to_filetime (ts : mm_timespec) : option Z :=
  quad ← mul64 (tv_sec ts) FT_TICKS_IN_SEC;
  Some (u64 (u64 (u64 quad + Z.quot (tv_nsec ts) 100) + FT_EPOCH)).

(** ** Windows clocks ([clock-win32.c], [time-win32.c]) *)

Definition PICOSEC_IN_SEC : Z := 1000000000000.
Definition MHZ_IN_HZ : Z := 1000000.

(** The values computed once by the constructor [init_clocks_win32]. *)
Record clock_config := mk_clock_config {
  cpu_cycle_freq : Z;
  cpu_cycle_tick_psec : Z;
  qpc_tick_freq : Z;
  nsec_in_qpc_tick : Z;
  monotonic_use_tsc : bool
}.

(** [MaxMhz] is a 32-bit [ULONG] and [MHZ_IN_HZ] an [int]: the product is
    computed at 32 bits, then stored in an [int64_t]. *)
Definition determine_cpu_cycle_rate (MaxMhz : Z) : Z * Z :=
  let freq := u32 (MaxMhz * MHZ_IN_HZ) in
  (freq, Z.quot PICOSEC_IN_SEC freq).

Definition RDTSCP_EDX_MASK : Z := Z.shiftl 1 27.
Definition INVARIANT_TSC_EDX_MASK : Z := Z.shiftl 1 8.

(** The two arguments are the EDX registers that [cpuid] returns for
    CPUID_LEAF_EXTENDED and CPUID_LEAF_TSC. *)
Definition init_monotonic_clock (edx_extended edx_tsc : Z) : bool :=
  let rdtscp_supported := negb (Z.land edx_extended RDTSCP_EDX_MASK =? 0) in
  let is_tsc_invariant := negb (Z.land edx_tsc INVARIANT_TSC_EDX_MASK =? 0) in
  is_tsc_invariant && rdtscp_supported.

Definition convert_cpu_cycle_to_ts (cfg : clock_config) (cpu_cycle : Z)
    : option mm_timespec :=
  let sec := Z.quot cpu_cycle (cpu_cycle_freq cfg) in
  whole ← mul64 sec (cpu_cycle_freq cfg);
  rest ← sub64 cpu_cycle whole;
  psec ← mul64 rest (cpu_cycle_tick_psec cfg);
  Some (mk_ts sec (Z.quot psec 1000)).

Definition gettimespec_qpc (cfg : clock_config) (count : Z) : option mm_timespec :=
  let sec := Z.quot count (qpc_tick_freq cfg) in
  whole ← mul64 sec (qpc_tick_freq cfg);
  rest ← sub64 count whole;
  nsec ← mul64 rest (nsec_in_qpc_tick cfg);
  Some (mk_ts sec nsec).

Definition getres_tsc (cfg : clock_config) : mm_timespec :=
  let nsec := Z.quot (cpu_cycle_tick_psec cfg) 1000 in
  mk_ts 0 (if nsec =? 0 then 1 else nsec).

Definition getres_qpc (cfg : clock_config) : mm_timespec :=
  mk_ts 0 (nsec_in_qpc_tick cfg).

Definition MM_CLK_REALTIME : Z := 0.
Definition MM_CLK_MONOTONIC : Z := 1.
Definition MM_CLK_CPU_PROCESS : Z := 2.
Definition MM_CLK_CPU_THREAD : Z := 3.
Definition MM_CLK_MONOTONIC_RAW : Z := 4.
Definition EINVAL : Z := 22.

(** What the operating system provides: counters read from its state, and a
    waitable timer armed with a due time (negative: relative, in units of
    100 ns) that returns once it has expired. *)
Class ClockHw (S : Type) := {
  rdtscp : S -> Z;
  QueryPerformanceCounter : S -> Z;
  GetSystemTimePreciseAsFileTime : S -> Z;
  QueryThreadCycleTime : S -> Z;
  QueryProcessCycleTime : S -> Z;
  wait_timer : Z -> S -> S
}.

(** Why a clock operation stops: the error raised, or a signed overflow. *)
Inductive clock_result (A : Type) :=
| ClkOk (a : A)
| ClkErr (errnum : Z)
| ClkOverflow.
Arguments ClkOk {A} _.
Arguments ClkErr {A} _.
Arguments ClkOverflow {A}.

Definition clk_of_option {A} (o : option A) : clock_result A :=
  match o with Some a => ClkOk a | None => ClkOverflow end.

Section Clocks.
Context {S : Type} {hw : ClockHw S} (cfg : clock_config).

Definition gettimespec_tsc (s : S) : option mm_timespec :=
  convert_cpu_cycle_to_ts cfg (s64 (rdtscp s)).

Definition gettimespec_monotonic_w32 (s : S) : option mm_timespec :=
  if monotonic_use_tsc cfg then gettimespec_tsc s
  else gettimespec_qpc cfg (QueryPerformanceCounter s).

Definition getres_monotonic_w32 : mm_timespec :=
  if monotonic_use_tsc cfg then getres_tsc cfg else getres_qpc cfg.

Definition gettimespec_wallclock_w32 (s : S) : mm_timespec :=
  filetime_to_timespec (GetSystemTimePreciseAsFileTime s).

Definition getres_wallclock_w32 : mm_timespec := mk_ts 0 100.

Definition gettimespec_thread_w32 (s : S) : option mm_timespec :=
  convert_cpu_cycle_to_ts cfg (s64 (QueryThreadCycleTime s)).

Definition gettimespec_process_w32 (s : S) : option mm_timespec :=
  convert_cpu_cycle_to_ts cfg (s64 (QueryProcessCycleTime s)).

Definition mm_gettime (clock_id : Z) (s : S) : clock_result mm_timespec :=
  if clock_id =? MM_CLK_REALTIME then ClkOk (gettimespec_wallclock_w32 s)
  else if (clock_id =? MM_CLK_MONOTONIC) || (clock_id =? MM_CLK_MONOTONIC_RAW)
  then clk_of_option (gettimespec_monotonic_w32 s)
  else if clock_id =? MM_CLK_CPU_THREAD
  then clk_of_option (gettimespec_thread_w32 s)
  else if clock_id =? MM_CLK_CPU_PROCESS
  then clk_of_option (gettimespec_process_w32 s)
  else ClkErr EINVAL.

Definition mm_getres (clock_id : Z) : clock_result mm_timespec :=
  if clock_id =? MM_CLK_REALTIME then ClkOk getres_wallclock_w32
  else if (clock_id =? MM_CLK_MONOTONIC) || (clock_id =? MM_CLK_MONOTONIC_RAW)
  then ClkOk getres_monotonic_w32
  else if clock_id =? MM_CLK_CPU_THREAD then ClkOk (getres_tsc cfg)
  else if clock_id =? MM_CLK_CPU_PROCESS then ClkOk (getres_tsc cfg)
  else ClkErr EINVAL.

(** The due time is rounded up to a whole number of 100 ns units. *)
Definition relative_microsleep (delta_ns : Z) (s : S) : option S :=
  rounded ← add64 delta_ns 99;
  Some (wait_timer (- Z.quot rounded 100) s).

Fixpoint nanosleep_loop (fuel : nat) (clock_id : Z) (target : mm_timespec)
    (s : S) : option (clock_result S) :=
  match fuel with
  | O => None
  | Datatypes.S f =>
      match mm_gettime clock_id s with
      | ClkErr e => Some (ClkErr e)
      | ClkOverflow => Some ClkOverflow
      | ClkOk now =>
          match mm_timediff_ns target now with
          | None => Some ClkOverflow
          | Some delta_ns =>
              if delta_ns <=? 0 then Some (ClkOk s)
              else match relative_microsleep delta_ns s with
                   | None => Some ClkOverflow
                   | Some s' => nanosleep_loop f clock_id target s'
                   end
          end
      end
  end.

Definition mm_nanosleep (fuel : nat) (clock_id : Z) (target : mm_timespec)
    (s : S) : option (clock_result S) :=
  if negb (clock_id =? MM_CLK_REALTIME)
     && negb (clock_id =? MM_CLK_MONOTONIC)
     && negb (clock_id =? MM_CLK_MONOTONIC_RAW)
  then Some (ClkErr EINVAL)
  else nanosleep_loop fuel clock_id target s.

(** The three relative sleeps of [time.c]: the deadline is computed on the
    monotonic clock, then slept on. *)
Definition relative_sleep (add : mm_timespec -> Z -> option mm_timespec)
    (fuel : nat) (duration : Z) (s : S) : option (clock_result S) :=
  match mm_gettime MM_CLK_MONOTONIC s with
  | ClkErr e => Some (ClkErr e)
  | ClkOverflow => Some ClkOverflow
  | ClkOk now =>
      match add now duration with
      | None => Some ClkOverflow
      | Some ts => mm_nanosleep fuel MM_CLK_MONOTONIC ts s
      end
  end.

Definition mm_relative_sleep_ns := relative_sleep mm_timeadd_ns.
Definition mm_relative_sleep_us := relative_sleep mm_timeadd_us.
Definition mm_relative_sleep_ms := relative_sleep mm_timeadd_ms.
End Clocks.

(** ** Lemmas *)

Ltac time_consts :=
  unfold normalized, ns_of, NS_IN_SEC, US_IN_SEC, MS_IN_SEC,
    INT64_MIN, INT64_MAX, in_s in *; simpl in *.

Lemma timeadd_carry_spec sec nsec :
  - NS_IN_SEC < nsec < 2 * NS_IN_SEC - 1 ->
  INT64_MIN < sec < INT64_MAX ->
  exists ts, timeadd_carry (mk_ts sec nsec) = Some ts
    /\ normalized ts /\ ns_of ts = sec * NS_IN_SEC + nsec.
Proof.
  intros Hn Hs. unfold timeadd_carry, add64, sub64. simpl.
  case_test; [|case_test].
  - rewrite !chk64_Some by (time_consts; lia). simpl.
    eexists; split; [done|]. time_consts. lia.
  - rewrite !chk64_Some by (time_consts; lia). simpl.
    eexists; split; [done|]. time_consts. lia.
  - eexists; split; [done|]. time_consts. lia.
Qed.

(** The three adders are the same computation at three scales: [unit] is the
    number of nanoseconds of one step of the offset. *)
Lemma timeadd_scaled ts dt per unit :
  0 < per -> per * unit = NS_IN_SEC ->
  normalized ts ->
  INT64_MIN < tv_sec ts + Z.quot dt per < INT64_MAX ->
  exists ts',
    (sec ← add64 (tv_sec ts) (Z.quot dt per);
     off ← mul64 (Z.rem dt per) unit;
     nsec ← add64 (tv_nsec ts) off;
     timeadd_carry (mk_ts sec nsec)) = Some ts'
    /\ normalized ts' /\ ns_of ts' = ns_of ts + dt * unit.
Proof.
  intros Hper Hunit Hn Hs.
  assert (Hr : - per < Z.rem dt per < per) by zquot.
  assert (Hdt : dt = per * Z.quot dt per + Z.rem dt per) by (apply Z.quot_rem'; lia).
  assert (Hu : 0 < unit) by (unfold NS_IN_SEC in *; nia).
  assert (Hoff : - NS_IN_SEC < Z.rem dt per * unit < NS_IN_SEC)
    by (rewrite <- Hunit; nia).
  unfold add64 at 1, mul64. rewrite chk64_Some by (time_consts; lia).
  simpl. rewrite chk64_Some by (time_consts; lia). simpl.
  unfold add64 at 1. rewrite chk64_Some by (time_consts; lia). simpl.
  assert (- NS_IN_SEC < tv_nsec ts + Z.rem dt per * unit < 2 * NS_IN_SEC - 1)
    by (time_consts; lia).
  destruct (timeadd_carry_spec (tv_sec ts + Z.quot dt per)
              (tv_nsec ts + Z.rem dt per * unit)) as (ts' & E & Hn' & Hv);
    [done..|].
  exists ts'. split; [done|]. split; [done|]. rewrite Hv.
  unfold ns_of. rewrite <- Hunit. nia.
Qed.

(** Realistic timestamps: normalized, within 272 years of the origin. *)
Definition sane (ts : mm_timespec) : Prop :=
  normalized ts /\ 0 <= tv_sec ts < 2 ^ 33.

Lemma mm_timediff_ns_exact ts orig :
  normalized ts -> normalized orig ->
  -9000000000 <= tv_sec ts - tv_sec orig <= 9000000000 ->
  mm_timediff_ns ts orig = Some (ns_of ts - ns_of orig).
Proof.
  intros H1 H2 H. unfold mm_timediff_ns, sub64, mul64, add64.
  rewrite chk64_Some by (time_consts; lia). simpl.
  rewrite chk64_Some by (time_consts; lia). simpl.
  rewrite chk64_Some by (time_consts; lia). simpl.
  rewrite chk64_Some by (time_consts; lia).
  f_equal. time_consts. lia.
Qed.

(** ** Properties of the arithmetic *)

Lemma mm_timeadd_exact_helper ts dt :
  normalized ts ->
  (INT64_MIN < tv_sec ts + Z.quot dt NS_IN_SEC < INT64_MAX ->
   exists ts', mm_timeadd_ns ts dt = Some ts'
     /\ normalized ts' /\ ns_of ts' = ns_of ts + dt)
  /\ (INT64_MIN < tv_sec ts + Z.quot dt US_IN_SEC < INT64_MAX ->
      exists ts', mm_timeadd_us ts dt = Some ts'
        /\ normalized ts' /\ ns_of ts' = ns_of ts + dt * 1000)
  /\ (INT64_MIN < tv_sec ts + Z.quot dt MS_IN_SEC < INT64_MAX ->
      exists ts', mm_timeadd_ms ts dt = Some ts'
        /\ normalized ts' /\ ns_of ts' = ns_of ts + dt * 1000000).
Proof.
  intros Hn. split; [|split]; intros Hs.
  - destruct (timeadd_scaled ts dt NS_IN_SEC 1) as (ts' & E & Hn' & Hv);
      [done..|].
    exists ts'. split; [|by rewrite Hv, Z.mul_1_r].
    rewrite <- E. unfold mm_timeadd_ns, mul64. rewrite Z.mul_1_r.
    destruct (add64 (tv_sec ts) _); [|done]. simpl.
    rewrite chk64_Some; [done|]. unfold NS_IN_SEC, INT64_MIN, INT64_MAX. zquot.
  - by apply (timeadd_scaled ts dt US_IN_SEC 1000).
  - by apply (timeadd_scaled ts dt MS_IN_SEC 1000000).
Qed.

(** Adding an offset in nanoseconds, microseconds or milliseconds to a
    normalized timestamp gives a normalized timestamp that denotes exactly
    the shifted instant, whatever the sign of the offset, as long as the
    seconds fit in [time_t]. *)
Theorem mm_timeadd_exact ts dt :
  normalized ts ->
  (INT64_MIN < tv_sec ts + Z.quot dt NS_IN_SEC < INT64_MAX ->
   exists ts', mm_timeadd_ns ts dt = Some ts'
     /\ normalized ts' /\ ns_of ts' = ns_of ts + dt)
  /\ (INT64_MIN < tv_sec ts + Z.quot dt US_IN_SEC < INT64_MAX ->
      exists ts', mm_timeadd_us ts dt = Some ts'
        /\ normalized ts' /\ ns_of ts' = ns_of ts + dt * 1000)
  /\ (INT64_MIN < tv_sec ts + Z.quot dt MS_IN_SEC < INT64_MAX ->
      exists ts', mm_timeadd_ms ts dt = Some ts'
        /\ normalized ts' /\ ns_of ts' = ns_of ts + dt * 1000000).
Proof. apply mm_timeadd_exact_helper. Qed.

Lemma mm_timeadd_exact_witness :
  mm_timeadd_ns (mk_ts 5 200000000) (-700000000) = Some (mk_ts 4 500000000)
  /\ exists ts', mm_timeadd_ms (mk_ts 5 200000000) 900 = Some ts'
       /\ normalized ts' /\ ns_of ts' = 6100000000.
Proof.
  split; [vm_compute; reflexivity|].
  apply (proj2 (proj2 (mm_timeadd_exact (mk_ts 5 200000000) 900
    ltac:(vm_compute; split; congruence)))).
  vm_compute; split; congruence.
Defined.

(** The difference of two normalized timestamps less than 285 years apart
    is exact in nanoseconds, and the microsecond and millisecond differences
    are off by less than one unit, in both directions. *)
Theorem mm_timediff_precision ts orig :
  normalized ts -> normalized orig ->
  -9000000000 <= tv_sec ts - tv_sec orig <= 9000000000 ->
  exists ns us ms,
    mm_timediff_ns ts orig = Some ns
    /\ mm_timediff_us ts orig = Some us
    /\ mm_timediff_ms ts orig = Some ms
    /\ ns = ns_of ts - ns_of orig
    /\ Z.abs (us * 1000 - ns) < 1000
    /\ Z.abs (ms * 1000000 - ns) < 1000000.
Proof.
  intros H1 H2 H.
  eexists _, _, _. split; [by apply mm_timediff_ns_exact|].
  unfold mm_timediff_us, mm_timediff_ms, sub64, mul64, add64.
  change (Z.quot NS_IN_SEC US_IN_SEC) with 1000.
  change (Z.quot NS_IN_SEC MS_IN_SEC) with 1000000.
  set (d := tv_nsec ts - tv_nsec orig).
  assert (Hd : - NS_IN_SEC < d < NS_IN_SEC) by (time_consts; lia).
  assert (-1000000 < Z.quot d 1000 < 1000000) by (time_consts; zquot).
  assert (-1000 < Z.quot d 1000000 < 1000) by (time_consts; zquot).
  repeat (rewrite chk64_Some by (time_consts; lia); simpl).
  split; [reflexivity|]. split; [reflexivity|]. split; [reflexivity|].
  time_consts. split; zquot.
Qed.

Lemma mm_timediff_precision_witness :
  exists ns us ms,
    mm_timediff_ns (mk_ts 10 5) (mk_ts 11 999999999) = Some ns
    /\ mm_timediff_us (mk_ts 10 5) (mk_ts 11 999999999) = Some us
    /\ mm_timediff_ms (mk_ts 10 5) (mk_ts 11 999999999) = Some ms
    /\ ns = -1999999994
    /\ Z.abs (us * 1000 - ns) < 1000
    /\ Z.abs (ms * 1000000 - ns) < 1000000.
Proof.
  apply (mm_timediff_precision (mk_ts 10 5) (mk_ts 11 999999999));
    vm_compute; repeat split; congruence.
Defined.

(** A file time at or after the Unix epoch survives the conversion to a
    timestamp and back, and the timestamp is normalized. *)
Theorem filetime_roundtrip ft :
  FT_EPOCH <= ft < 2 ^ 63 ->
  normalized (filetime_to_timespec ft)
  /\ timespec_to_filetime (filetime_to_timespec ft) = Some ft.
Proof.
  intros H. assert (HE : FT_EPOCH = 116444736000000000) by reflexivity.
  unfold filetime_to_timespec.
  rewrite (wrap_u_small 64 (ft - FT_EPOCH)) by (unfold in_u; lia).
  set (q := ft - FT_EPOCH). assert (0 <= q < 2 ^ 63) by lia.
  unfold FT_TICKS_IN_SEC. pose proof (Z.div_mod q 10000000 ltac:(lia)).
  pose proof (Z.mod_pos_bound q 10000000 ltac:(lia)).
  split; [time_consts; lia|].
  unfold timespec_to_filetime, mul64, FT_TICKS_IN_SEC. simpl tv_sec. simpl tv_nsec.
  rewrite chk64_Some by (unfold INT64_MIN, INT64_MAX; lia). simpl.
  rewrite Z.quot_mul by lia.
  rewrite (wrap_u_small 64 (q / 10000000 * 10000000)) by (unfold in_u; lia).
  rewrite (wrap_u_small 64 (q / 10000000 * 10000000 + q mod 10000000))
    by (unfold in_u; lia).
  rewrite (wrap_u_small 64 (_ + FT_EPOCH)) by (unfold in_u; lia). f_equal. lia.
Qed.

Lemma filetime_roundtrip_witness :
  normalized (filetime_to_timespec 132223104123456789)
  /\ timespec_to_filetime (filetime_to_timespec 132223104123456789)
     = Some 132223104123456789.
Proof.
  apply filetime_roundtrip. vm_compute. split; congruence.
Defined.

(** ** Properties of the clocks *)

(** With the frequency measured from a processor of at most 4294 MHz, the
    cycle counter converts to a normalized timestamp whose seconds are the
    whole seconds elapsed and whose nanoseconds never run ahead of the
    cycles counted. *)
Theorem convert_cpu_cycle_normalized cfg MaxMhz cycles :
  0 < MaxMhz <= 4294 ->
  (cpu_cycle_freq cfg, cpu_cycle_tick_psec cfg) = determine_cpu_cycle_rate MaxMhz ->
  0 <= cycles <= INT64_MAX ->
  exists ts, convert_cpu_cycle_to_ts cfg cycles = Some ts
    /\ normalized ts
    /\ tv_sec ts = cycles / (MaxMhz * MHZ_IN_HZ)
    /\ tv_nsec ts * (MaxMhz * MHZ_IN_HZ)
       <= (cycles mod (MaxMhz * MHZ_IN_HZ)) * NS_IN_SEC.
Proof.
  intros Hm Hcfg Hc. unfold determine_cpu_cycle_rate in Hcfg.
  assert (0 < MaxMhz * MHZ_IN_HZ < 2 ^ 32) by (unfold MHZ_IN_HZ; lia).
  rewrite (wrap_u_small 32) in Hcfg by (unfold in_u; lia).
  injection Hcfg as Hf Ht.
  unfold convert_cpu_cycle_to_ts. rewrite Hf, Ht.
  set (f := MaxMhz * MHZ_IN_HZ) in *.
  rewrite !Z.quot_div_nonneg by (unfold PICOSEC_IN_SEC; lia).
  set (p := PICOSEC_IN_SEC / f).
  assert (Hp : 0 <= p * f <= PICOSEC_IN_SEC)
    by (unfold p, PICOSEC_IN_SEC; pose proof (Z.div_mod 1000000000000 f);
        pose proof (Z.mod_pos_bound 1000000000000 f);
        pose proof (Z.div_pos 1000000000000 f); nia).
  assert (0 <= p <= 1000000) by (split; [apply Z.div_pos; unfold PICOSEC_IN_SEC; lia|];
    unfold PICOSEC_IN_SEC, f, MHZ_IN_HZ in *; nia).
  pose proof (Z.div_mod cycles f ltac:(lia)) as Hdm.
  pose proof (Z.mod_pos_bound cycles f ltac:(lia)) as Hmb.
  pose proof (Z.div_pos cycles f ltac:(lia) ltac:(lia)).
  unfold INT64_MAX in *.
  unfold mul64, sub64. rewrite chk64_Some by (unfold INT64_MIN, INT64_MAX; nia). simpl.
  rewrite chk64_Some by (unfold INT64_MIN, INT64_MAX; nia). simpl.
  replace (cycles - cycles / f * f) with (cycles mod f) by lia.
  assert (Hrest : 0 <= cycles mod f * p < PICOSEC_IN_SEC) by (unfold PICOSEC_IN_SEC in *; nia).
  rewrite chk64_Some
    by (unfold INT64_MIN, INT64_MAX, PICOSEC_IN_SEC in *; lia). simpl.
  rewrite Z.quot_div_nonneg by lia.
  pose proof (Z.div_mod (cycles mod f * p) 1000 ltac:(lia)).
  pose proof (Z.mod_pos_bound (cycles mod f * p) 1000 ltac:(lia)).
  eexists; split; [reflexivity|].
  unfold normalized, NS_IN_SEC, PICOSEC_IN_SEC in *. simpl.
  split; [lia|]. split; [done|]. nia.
Qed.

Lemma convert_cpu_cycle_normalized_witness :
  exists ts,
    convert_cpu_cycle_to_ts
      (mk_clock_config 3000000000 333 10000000 100 true) 7000000001 = Some ts
    /\ normalized ts /\ tv_sec ts = 7000000001 / 3000000000
    /\ tv_nsec ts * 3000000000 <= (7000000001 mod 3000000000) * NS_IN_SEC.
Proof.
  apply (convert_cpu_cycle_normalized
    (mk_clock_config 3000000000 333 10000000 100 true) 3000 7000000001);
    vm_compute; repeat split; congruence.
Defined.

(** A processor advertised at 4.3 GHz or more overflows the 32-bit product:
    the measured rate is about 5 MHz. *)
Lemma determine_cpu_cycle_rate_wraps :
  determine_cpu_cycle_rate 4300 = (5032704, 198700).
Proof. vm_compute. reflexivity. Qed.

(** ** Sleeping until a deadline *)

(** What a sleep needs of a clock, up to a horizon in nanoseconds: readings
    succeed and are sane, and an expired timer has moved the clock forward
    (by any amount: the loop copes with timers that fire early). *)
Class ClockLaws (S : Type) {hw : ClockHw S} (cfg : clock_config)
    (clk horizon : Z) := {
  clk_up : S -> Prop;
  clk_read : forall s, clk_up s ->
    exists now, mm_gettime cfg clk s = ClkOk now /\ sane now;
  clk_wait : forall s now n, clk_up s ->
    mm_gettime cfg clk s = ClkOk now -> 0 < n ->
    ns_of now + 100 * n <= horizon + 200 ->
    clk_up (wait_timer (- n) s)
    /\ forall now', mm_gettime cfg clk (wait_timer (- n) s) = ClkOk now' ->
                    ns_of now < ns_of now'
}.

Lemma sane_diff ts orig :
  sane ts -> sane orig -> mm_timediff_ns ts orig = Some (ns_of ts - ns_of orig).
Proof.
  intros [H1 ?] [H2 ?]. apply mm_timediff_ns_exact; [done..|]. lia.
Qed.

Lemma sane_ns ts : sane ts -> 0 <= ns_of ts < 2 ^ 33 * NS_IN_SEC.
Proof. intros [H1 H2]. time_consts. lia. Qed.

Section Sleep.
Context {S : Type} {hw : ClockHw S} {cfg : clock_config} {clk horizon : Z}.
Context {laws : ClockLaws S cfg clk horizon}.

Lemma nanosleep_loop_reaches fuel target s now :
  sane target -> ns_of target <= horizon -> clk_up s ->
  mm_gettime cfg clk s = ClkOk now ->
  ns_of target - ns_of now < Z.of_nat fuel -> (0 < fuel)%nat ->
  exists s' now', nanosleep_loop cfg fuel clk target s = Some (ClkOk s')
    /\ clk_up s' /\ mm_gettime cfg clk s' = ClkOk now'
    /\ ns_of target <= ns_of now'.
Proof.
  intros Ht Hh. revert s now.
  induction fuel as [|f IH]; intros s now Hup Hnow Hf Hpos; [lia|].
  destruct (clk_read s Hup) as (now0 & E0 & Hs).
  rewrite Hnow in E0. injection E0 as <-.
  cbn [nanosleep_loop]. rewrite Hnow, (sane_diff _ _ Ht Hs).
  pose proof (sane_ns _ Ht). pose proof (sane_ns _ Hs).
  case_test.
  { exists s, now. split; [done|]. split; [done|]. split; [done|]. lia. }
  unfold relative_microsleep, add64.
  rewrite chk64_Some by (time_consts; lia). simpl.
  set (n := Z.quot (ns_of target - ns_of now + 99) 100).
  assert (0 < n) by (unfold n; zquot).
  destruct (clk_wait s now n Hup Hnow) as [Hup' Hprog]; [lia|unfold n; zquot|].
  destruct (clk_read _ Hup') as (now' & Hnow' & Hs').
  specialize (Hprog _ Hnow').
  destruct f as [|f'].
  { lia. }
  apply (IH _ now' Hup' Hnow'); lia.
Qed.
End Sleep.

(** Each relative sleep returns 0 (it terminates, no overflow, no error)
    and only once the monotonic clock has advanced by at least the requested
    duration, for any clock whose timers make it progress, even when they
    expire early. *)
Theorem mm_relative_sleep_elapsed (S : Type) (hw : ClockHw S) cfg horizon
    (laws : ClockLaws S cfg MM_CLK_MONOTONIC horizon)
    add unit s now d fuel :
  In (add, unit)
     [(mm_relative_sleep_ns cfg, 1); (mm_relative_sleep_us cfg, 1000);
      (mm_relative_sleep_ms cfg, 1000000)] ->
  clk_up s -> mm_gettime cfg MM_CLK_MONOTONIC s = ClkOk now ->
  0 <= d -> ns_of now + d * unit <= horizon -> horizon < 2 ^ 33 * NS_IN_SEC ->
  d * unit < Z.of_nat fuel ->
  exists s' now', add fuel d s = Some (ClkOk s')
    /\ mm_gettime cfg MM_CLK_MONOTONIC s' = ClkOk now'
    /\ ns_of now + d * unit <= ns_of now'.
Proof.
  intros Hin Hup Hnow Hd Hh Hhor Hf.
  destruct (clk_read s Hup) as (now0 & E0 & Hs).
  rewrite Hnow in E0. injection E0 as <-.
  pose proof (sane_ns _ Hs) as Hns. destruct Hs as [Hn Hsec].
  assert (Hu : 1 <= unit <= 1000000).
  { destruct Hin as [[= _ <-]|[[= _ <-]|[[= _ <-]|[]]]]; lia. }
  assert (Hadd : exists adder, add = relative_sleep cfg adder
    /\ exists ts, adder now d = Some ts /\ normalized ts
         /\ ns_of ts = ns_of now + d * unit).
  { assert (d <= 2 ^ 33 * NS_IN_SEC) by nia.
    destruct (mm_timeadd_exact_helper now d Hn) as (A1 & A2 & A3).
    destruct Hin as [[= <- <-]|[[= <- <-]|[[= <- <-]|[]]]]; eexists;
      (split; [reflexivity|]).
    - rewrite Z.mul_1_r in *. apply A1. time_consts. zquot.
    - apply A2. time_consts. zquot.
    - apply A3. time_consts. zquot. }
  destruct Hadd as (adder & -> & ts & Ets & Hnts & Hval).
  assert (Hsane : sane ts).
  { split; [done|]. time_consts. lia. }
  unfold relative_sleep. rewrite Hnow, Ets. simpl.
  destruct (nanosleep_loop_reaches fuel ts s now Hsane) as (s' & now' & E & _ & E' & Hge);
    [lia|done|done|lia|lia|].
  exists s', now'. unfold mm_nanosleep. simpl. rewrite E. split; [done|]. split; [done|]. lia.
Qed.

(** A clock counting its own cycles at 1 GHz, whose timers fire on time. *)
#[local] Instance exact_hw : ClockHw Z := {
  rdtscp s := s;
  QueryPerformanceCounter s := s / 100;
  GetSystemTimePreciseAsFileTime s := FT_EPOCH + s / 100;
  QueryThreadCycleTime s := s;
  QueryProcessCycleTime s := s;
  wait_timer ft s := s + 100 * - ft
}.

Definition exact_cfg : clock_config :=
  mk_clock_config 1000000000 1000 10000000 100 true.

Lemma exact_gettime s :
  0 <= s < 2 ^ 62 ->
  mm_gettime exact_cfg MM_CLK_MONOTONIC s
  = ClkOk (mk_ts (s / 1000000000) (s mod 1000000000)).
Proof.
  intros Hs. unfold mm_gettime. simpl. unfold gettimespec_monotonic_w32. simpl.
  unfold gettimespec_tsc, convert_cpu_cycle_to_ts. simpl.
  rewrite wrap_s_small by (unfold in_s; lia).
  rewrite Z.quot_div_nonneg by lia.
  pose proof (Z.div_mod s 1000000000 ltac:(lia)).
  pose proof (Z.mod_pos_bound s 1000000000 ltac:(lia)).
  unfold mul64, sub64.
  rewrite chk64_Some by (time_consts; lia). simpl.
  rewrite chk64_Some by (time_consts; lia). simpl.
  rewrite chk64_Some by (time_consts; lia). simpl.
  f_equal. f_equal.
  replace (s - s / 1000000000 * 1000000000) with (s mod 1000000000) by lia.
  rewrite Z.quot_div_nonneg by lia.
  rewrite Z.div_mul by lia. done.
Qed.

#[local] Instance exact_laws : ClockLaws Z exact_cfg MM_CLK_MONOTONIC (2 ^ 60).
Proof.
  refine {| clk_up := fun s => 0 <= s < 2 ^ 61 |}.
  - intros s Hs. eexists. split; [apply exact_gettime; lia|].
    pose proof (Z.mod_pos_bound s 1000000000 ltac:(lia)).
    pose proof (Z.div_mod s 1000000000 ltac:(lia)).
    unfold sane. time_consts. lia.
  - intros s now n Hs Hnow Hn Hh.
    rewrite exact_gettime in Hnow by lia. injection Hnow as <-.
    pose proof (Z.mod_pos_bound s 1000000000 ltac:(lia)).
    pose proof (Z.div_mod s 1000000000 ltac:(lia)).
    time_consts. split; [lia|]. intros now'.
    rewrite exact_gettime by lia. intros [= <-]. simpl.
    set (s' := s + _).
    pose proof (Z.mod_pos_bound s' 1000000000 ltac:(lia)).
    pose proof (Z.div_mod s' 1000000000 ltac:(lia)). lia.
Defined.

Lemma mm_relative_sleep_elapsed_witness :
  exists s' now', mm_relative_sleep_us exact_cfg 100001 100 5000000000
                  = Some (ClkOk s')
    /\ mm_gettime exact_cfg MM_CLK_MONOTONIC s' = ClkOk now'
    /\ ns_of (mk_ts 5 0) + 100 * 1000 <= ns_of now'.
Proof.
  apply (mm_relative_sleep_elapsed Z exact_hw exact_cfg (2 ^ 60) exact_laws
           (mm_relative_sleep_us exact_cfg) 1000 5000000000 (mk_ts 5 0)).
  - right; left; reflexivity.
  - split; reflexivity || discriminate.
  - vm_compute; reflexivity.
  - discriminate.
  - vm_compute; discriminate.
  - reflexivity.
  - reflexivity.
Defined.
