(* ===== verification/MutexVal.v ===== *)
(** * The lock value of process-shared mutexes

    Models [mutex-lockval.h] (the 64-bit value shared by every user of a
    mutex) and the part of [pshared-lock.c] that repairs it after the death
    of threads ([get_lockval_change], [cleanup_mutex_lock]). *)

From S2P Require Import Prelude.

Definition MTX_OWNER_TID_MASK : Z := 0x00000000FFFFFFFF.
Definition MTX_WAITER_TID_MASK : Z := 0xFFFFFE0000000000.
Definition MTX_WAITER_TID_SHIFTLEN : Z := 41.
Definition MTX_NEED_RECOVER_MASK : Z := 0x0000010000000000.
Definition MTX_NWAITER_MASK : Z := 0x000000FF00000000.
Definition MTX_NWAITER_SHIFTLEN : Z := 32.
Definition MTX_UNRECOVERABLE_MASK : Z :=
  Z.lor MTX_NEED_RECOVER_MASK MTX_OWNER_TID_MASK.

(** A lock value is an [int64_t]: a [Z] in the signed 64-bit range. *)
Definition is_mtx_waited (lockval : Z) : bool :=
  negb (Z.land lockval MTX_NWAITER_MASK =? 0).

Definition is_mtx_locked (lockval : Z) : bool :=
  negb (Z.land lockval MTX_OWNER_TID_MASK =? 0).

Definition is_mtx_waiterlist_full (lockval : Z) : bool :=
  Z.land lockval MTX_NWAITER_MASK =? MTX_NWAITER_MASK.

Definition mtx_lockval (owner_tid waiter_tid nwaiter : Z) : Z :=
  s64 (Z.lor (Z.lor (Z.land owner_tid MTX_OWNER_TID_MASK)
                    (Z.shiftl nwaiter MTX_NWAITER_SHIFTLEN))
             (Z.shiftl waiter_tid MTX_WAITER_TID_SHIFTLEN)).

Definition is_thread_mtx_owner (lockval tid : Z) : bool :=
  mtx_lockval tid 0 0 =? Z.land lockval MTX_OWNER_TID_MASK.

Definition is_thread_mtx_waiterlist_owner (lockval tid : Z) : bool :=
  mtx_lockval 0 tid 0 =? s64 (Z.land lockval MTX_WAITER_TID_MASK).

Definition is_mtx_ownerdead (lockval : Z) : bool :=
  negb (Z.land lockval MTX_NEED_RECOVER_MASK =? 0).

Definition is_mtx_unrecoverable (lockval : Z) : bool :=
  Z.land lockval MTX_UNRECOVERABLE_MASK =? MTX_UNRECOVERABLE_MASK.

Definition mtx_num_waiter (lockval : Z) : Z :=
  s32 (Z.shiftr (Z.land lockval MTX_NWAITER_MASK) MTX_NWAITER_SHIFTLEN).

(** ** Undoing the effect of dead threads *)

Record dead_thread := mk_dead { dead_is_waiter : bool; dead_tid : Z }.

Definition get_lockval_change (lockval : Z) (is_waiter : bool) (tid : Z) : Z :=
  if is_thread_mtx_owner lockval tid then
    s64 (MTX_NEED_RECOVER_MASK - mtx_lockval tid 0 0)
  else if is_thread_mtx_waiterlist_owner lockval tid then
    s64 (- mtx_lockval 0 tid 1)
  else if is_waiter then
    s64 (- mtx_lockval 0 0 1)
  else 0.

(** The acknowledgement prepared for the lock referee. *)
Record cleanup_ack := mk_ack { ack_key : Z; ack_num_wakeup : Z }.

Definition cleanup_change (lockval : Z) (deadlist : list dead_thread) : Z :=
  fold_left
    (fun cleanup_val d =>
       s64 (cleanup_val
            + get_lockval_change lockval (dead_is_waiter d) (dead_tid d)))
    deadlist 0.

(** The lock value after the cleanup, the emptied dead list and the
    acknowledgement.  The load and the atomic addition are merged: the
    referee lets one thread at a time run the cleanup of a lock. *)
Definition cleanup_mutex_lock (key lockval : Z) (deadlist : list dead_thread)
    : Z * list dead_thread * cleanup_ack :=
  let lockval' := s64 (lockval + cleanup_change lockval deadlist) in
  let num_wakeup :=
    if is_mtx_waited lockval' && negb (is_mtx_locked lockval') then 1 else 0 in
  (lockval', [], mk_ack key num_wakeup).

(** ** Abstract view: the four fields of a lock value *)

Record lock_fields := mk_fields {
  f_owner : Z;     (* thread id of the owner, 0 if free: 32 bits *)
  f_nwaiter : Z;   (* registered waiters: 8 bits *)
  f_recover : Z;   (* 1 if the previous owner died: 1 bit *)
  f_wtid : Z       (* thread updating the waiter count: 23 bits *)
}.

Definition fields_ok (f : lock_fields) : Prop :=
  0 <= f_owner f < 2 ^ 32 /\ 0 <= f_nwaiter f < 256
  /\ 0 <= f_recover f < 2 /\ 0 <= f_wtid f < 2 ^ 23.

Definition encode (f : lock_fields) : Z :=
  s64 (f_owner f + f_nwaiter f * 2 ^ 32 + f_recover f * 2 ^ 40 + f_wtid f * 2 ^ 41).

Definition owner_of (v : Z) : Z := v mod 2 ^ 32.
Definition nwaiter_of (v : Z) : Z := (v / 2 ^ 32) mod 256.
Definition recover_of (v : Z) : Z := (v / 2 ^ 40) mod 2.
Definition wtid_of (v : Z) : Z := (v / 2 ^ 41) mod 2 ^ 23.

Definition decode (v : Z) : lock_fields :=
  mk_fields (owner_of v) (nwaiter_of v) (recover_of v) (wtid_of v).

(** ** Lemmas *)

Lemma decode_ok v : fields_ok (decode v).
Proof.
  unfold fields_ok, decode, owner_of, nwaiter_of, recover_of, wtid_of; simpl.
  repeat split; apply Z.mod_pos_bound; lia.
Qed.

(** The sum of the fields modulo [2 ^ 64] determines them. *)
Lemma fields_of_sum o n r w k :
  fields_ok (mk_fields o n r w) ->
  decode (o + n * 2 ^ 32 + r * 2 ^ 40 + w * 2 ^ 41 + k * 2 ^ 64)
  = mk_fields o n r w.
Proof.
  unfold fields_ok, decode, owner_of, nwaiter_of, recover_of, wtid_of; simpl.
  intros (Ho & Hn & Hr & Hw). f_equal; Z.div_mod_to_equations; lia.
Qed.

Lemma decode_encode f : fields_ok f -> decode (encode f) = f.
Proof.
  intros H. destruct f as [o n r w]. unfold encode; cbn [f_owner f_nwaiter f_recover f_wtid].
  destruct (wrap_s_eqm 64 (o + n * 2 ^ 32 + r * 2 ^ 40 + w * 2 ^ 41)) as [k ->]; [lia|].
  by apply fields_of_sum.
Qed.

Lemma sum_of_fields v :
  exists k, v = owner_of v + nwaiter_of v * 2 ^ 32 + recover_of v * 2 ^ 40
                + wtid_of v * 2 ^ 41 + k * 2 ^ 64.
Proof.
  exists (v / 2 ^ 64).
  unfold owner_of, nwaiter_of, recover_of, wtid_of. Z.div_mod_to_equations. lia.
Qed.

Lemma encode_decode v : in_s 64 v -> encode (decode v) = v.
Proof.
  intros H. unfold encode, decode; cbn [f_owner f_nwaiter f_recover f_wtid].
  destruct (sum_of_fields v) as [k Hk].
  destruct (wrap_s_eqm 64 (owner_of v + nwaiter_of v * 2 ^ 32 + recover_of v * 2 ^ 40
                + wtid_of v * 2 ^ 41)) as [k' Hk']; [lia|].
  pose proof (wrap_s_range 64 (owner_of v + nwaiter_of v * 2 ^ 32 + recover_of v * 2 ^ 40
                + wtid_of v * 2 ^ 41) ltac:(lia)) as Hr.
  unfold in_s in *. lia.
Qed.

(** Fields of a wrapped sum. *)
Lemma decode_s64 z : decode (s64 z) = decode z.
Proof.
  destruct (sum_of_fields z) as [k Hk]. destruct (wrap_s_eqm 64 z) as [k' ->]; [lia|].
  pose proof (decode_ok z) as Hok. unfold decode at 1 in Hok. unfold decode at 2.
  rewrite Hk at 1.
  match goal with |- decode ?x = _ =>
    replace x with (owner_of z + nwaiter_of z * 2 ^ 32 + recover_of z * 2 ^ 40
      + wtid_of z * 2 ^ 41 + (k + k') * 2 ^ 64) by lia end.
  by apply fields_of_sum.
Qed.

Lemma land_owner v : Z.land v MTX_OWNER_TID_MASK = owner_of v.
Proof. apply (land_low v 32). lia. Qed.

Lemma land_nwaiter v : Z.land v MTX_NWAITER_MASK = nwaiter_of v * 2 ^ 32.
Proof. apply (land_field v 32 8); lia. Qed.

Lemma land_recover v : Z.land v MTX_NEED_RECOVER_MASK = recover_of v * 2 ^ 40.
Proof. apply (land_field v 40 1); lia. Qed.

Lemma land_wtid v : Z.land v MTX_WAITER_TID_MASK = wtid_of v * 2 ^ 41.
Proof. apply (land_field v 41 23); lia. Qed.

Lemma is_mtx_waited_spec v : is_mtx_waited v = negb (nwaiter_of v =? 0).
Proof.
  unfold is_mtx_waited. rewrite land_nwaiter.
  destruct (decide (nwaiter_of v = 0)) as [->|Hn]; [done|].
  f_equal. transitivity false; [apply Z.eqb_neq; lia|symmetry; by apply Z.eqb_neq].
Qed.

Lemma is_mtx_locked_spec v : is_mtx_locked v = negb (owner_of v =? 0).
Proof. unfold is_mtx_locked. by rewrite land_owner. Qed.

Lemma is_mtx_waiterlist_full_spec v : is_mtx_waiterlist_full v = (nwaiter_of v =? 255).
Proof.
  unfold is_mtx_waiterlist_full. rewrite land_nwaiter. unfold MTX_NWAITER_MASK.
  destruct (decide (nwaiter_of v = 255)) as [->|Hn]; [done|].
  transitivity false; [apply Z.eqb_neq; lia|symmetry; by apply Z.eqb_neq].
Qed.

Lemma is_mtx_ownerdead_spec v : is_mtx_ownerdead v = (recover_of v =? 1).
Proof.
  unfold is_mtx_ownerdead. rewrite land_recover.
  assert (recover_of v = 0 \/ recover_of v = 1) as [->| ->]; [|done..].
  unfold recover_of. pose proof (Z.mod_pos_bound (v / 2 ^ 40) 2). lia.
Qed.

Lemma is_mtx_unrecoverable_spec v :
  is_mtx_unrecoverable v = (recover_of v =? 1) && (owner_of v =? 2 ^ 32 - 1).
Proof.
  unfold is_mtx_unrecoverable.
  assert (E : Z.land v MTX_UNRECOVERABLE_MASK = owner_of v + recover_of v * 2 ^ 40).
  { unfold MTX_UNRECOVERABLE_MASK.
    rewrite Z.land_lor_distr_r, land_owner, land_recover, Z.lor_comm.
    rewrite <- (Z.shiftl_mul_pow2 _ 40) by lia. rewrite lor_add_shift;
      [by rewrite Z.shiftl_mul_pow2 by lia|lia|].
    unfold owner_of. pose proof (Z.mod_pos_bound v (2 ^ 32)). lia. }
  rewrite E. change MTX_UNRECOVERABLE_MASK with (2 ^ 32 - 1 + 1 * 2 ^ 40).
  pose proof (decode_ok v) as (Ho & _ & Hr & _); simpl in *.
  assert (recover_of v = 0 \/ recover_of v = 1) as [->| ->] by lia; simpl.
  - apply Z.eqb_neq. lia.
  - destruct (Z.eqb_spec (owner_of v) (2 ^ 32 - 1)) as [->|]; [done|].
    apply Z.eqb_neq. lia.
Qed.

Lemma mtx_num_waiter_spec v : mtx_num_waiter v = nwaiter_of v.
Proof.
  unfold mtx_num_waiter. rewrite land_nwaiter.
  rewrite Z.shiftr_div_pow2 by (unfold MTX_NWAITER_SHIFTLEN; lia).
  unfold MTX_NWAITER_SHIFTLEN. rewrite Z.div_mul by lia.
  apply wrap_s_small; [lia|].
  pose proof (decode_ok v) as (_ & Hn & _). simpl in *. unfold in_s. lia.
Qed.

(** Any thread id fits the owner field, only its low 23 bits fit the other. *)
Lemma mtx_lockval_sum o w n :
  0 <= o < 2 ^ 32 -> 0 <= n < 256 -> 0 <= w ->
  mtx_lockval o w n = s64 (o + n * 2 ^ 32 + w * 2 ^ 41).
Proof.
  intros Ho Hn Hw. unfold mtx_lockval. rewrite land_owner.
  unfold owner_of. rewrite Z.mod_small by lia.
  unfold MTX_NWAITER_SHIFTLEN, MTX_WAITER_TID_SHIFTLEN.
  rewrite (lor_add_shift o n 32) by lia.
  rewrite (lor_add_shift _ w 41) by lia. done.
Qed.

Lemma mtx_lockval_decode o w n :
  0 <= o < 2 ^ 32 -> 0 <= n < 256 -> 0 <= w ->
  decode (mtx_lockval o w n) = mk_fields o n 0 (w mod 2 ^ 23).
Proof.
  intros Ho Hn Hw. rewrite mtx_lockval_sum, decode_s64 by done.
  rewrite <- (fields_of_sum o n 0 (w mod 2 ^ 23) (w / 2 ^ 23)).
  - f_equal. pose proof (Z.div_mod w (2 ^ 23)). lia.
  - pose proof (Z.mod_pos_bound w (2 ^ 23)).
    unfold fields_ok; simpl in *. lia.
Qed.

Lemma mtx_lockval_owner tid : 0 <= tid < 2 ^ 32 -> mtx_lockval tid 0 0 = tid.
Proof.
  intros H. rewrite mtx_lockval_sum by lia. rewrite wrap_s_small; [lia|lia|].
  unfold in_s. lia.
Qed.

Lemma mtx_lockval_nwaiter : mtx_lockval 0 0 1 = 2 ^ 32.
Proof. reflexivity. Qed.

Lemma is_thread_mtx_owner_spec v tid :
  0 <= tid < 2 ^ 32 -> is_thread_mtx_owner v tid = (owner_of v =? tid).
Proof.
  intros H. unfold is_thread_mtx_owner. rewrite land_owner, mtx_lockval_owner by done.
  apply Z.eqb_sym.
Qed.

Lemma is_thread_mtx_waiterlist_owner_spec v tid :
  0 <= tid < 2 ^ 32 ->
  is_thread_mtx_waiterlist_owner v tid = (wtid_of v =? tid mod 2 ^ 23).
Proof.
  intros H. unfold is_thread_mtx_waiterlist_owner.
  rewrite land_wtid, mtx_lockval_sum by lia.
  pose proof (decode_ok v) as (_ & _ & _ & Hw); simpl in Hw.
  assert (Hd : forall x, 0 <= x -> wtid_of (s64 (0 + 0 * 2 ^ 32 + x * 2 ^ 41)) = x mod 2 ^ 23).
  { intros x Hx. pose proof (mtx_lockval_decode 0 x 0 ltac:(lia) ltac:(lia) Hx) as E.
    rewrite mtx_lockval_sum in E by lia. apply (f_equal f_wtid) in E. done. }
  destruct (Z.eqb_spec (wtid_of v) (tid mod 2 ^ 23)) as [E|Hne].
  - apply Z.eqb_eq. rewrite E.
    replace (0 + 0 * 2 ^ 32 + tid * 2 ^ 41)
      with (tid mod 2 ^ 23 * 2 ^ 41 + (tid / 2 ^ 23) * 2 ^ 64)
      by (pose proof (Z.div_mod tid (2 ^ 23)); lia).
    unfold wrap_s.
    replace (tid mod 2 ^ 23 * 2 ^ 41 + tid / 2 ^ 23 * 2 ^ 64 + 2 ^ (64 - 1))
      with (tid mod 2 ^ 23 * 2 ^ 41 + 2 ^ (64 - 1) + tid / 2 ^ 23 * 2 ^ 64) by lia.
    by rewrite Z.mod_add by lia.
  - apply Z.eqb_neq. intros E. apply Hne.
    apply (f_equal wtid_of) in E. rewrite Hd in E by lia. rewrite E.
    replace (wtid_of v * 2 ^ 41) with (0 + 0 * 2 ^ 32 + wtid_of v * 2 ^ 41) by lia.
    rewrite Hd by lia. by rewrite Z.mod_small by lia.
Qed.

(** ** Arithmetic on lock values *)

Lemma s64_add_l a b : s64 (s64 a + b) = s64 (a + b).
Proof.
  destruct (wrap_s_eqm 64 a) as [k ->]; [lia|]. unfold wrap_s.
  replace (a + k * 2 ^ 64 + b + 2 ^ (64 - 1)) with (a + b + 2 ^ (64 - 1) + k * 2 ^ 64) by lia.
  by rewrite Z.mod_add by lia.
Qed.

Lemma s64_add_r a b : s64 (a + s64 b) = s64 (a + b).
Proof. rewrite (Z.add_comm a (s64 b)), s64_add_l. f_equal. lia. Qed.

Lemma s64_sub_r a b : s64 (a - s64 b) = s64 (a - b).
Proof.
  destruct (wrap_s_eqm 64 b) as [k ->]; [lia|]. unfold wrap_s.
  replace (a - (b + k * 2 ^ 64) + 2 ^ (64 - 1)) with (a - b + 2 ^ (64 - 1) + (- k) * 2 ^ 64) by lia.
  by rewrite Z.mod_add by lia.
Qed.

(** Adding field-wise differences that stay in range acts field by field. *)
Lemma decode_add v o n r w :
  fields_ok (mk_fields (owner_of v + o) (nwaiter_of v + n) (recover_of v + r) (wtid_of v + w)) ->
  decode (s64 (v + (o + n * 2 ^ 32 + r * 2 ^ 40 + w * 2 ^ 41)))
  = mk_fields (owner_of v + o) (nwaiter_of v + n) (recover_of v + r) (wtid_of v + w).
Proof.
  intros H. rewrite decode_s64. destruct (sum_of_fields v) as [k Hk].
  rewrite <- (fields_of_sum _ _ _ _ k H). f_equal. lia.
Qed.

(** The same when only the waiter thread id may go out of range: it wraps in
    its own field, the highest one. *)
Lemma low_fields_add v o n w :
  0 <= owner_of v + o < 2 ^ 32 -> 0 <= nwaiter_of v + n < 256 ->
  let v' := s64 (v + (o + n * 2 ^ 32 + w * 2 ^ 41)) in
  owner_of v' = owner_of v + o /\ nwaiter_of v' = nwaiter_of v + n
  /\ recover_of v' = recover_of v.
Proof.
  intros Ho Hn v'.
  pose proof (decode_ok v) as (_ & _ & Hr & Hw). cbn in Hr, Hw.
  destruct (sum_of_fields v) as [k Hk].
  assert (E : decode v' = mk_fields (owner_of v + o) (nwaiter_of v + n) (recover_of v)
                            ((wtid_of v + w) mod 2 ^ 23)).
  { unfold v'. rewrite decode_s64.
    rewrite <- (fields_of_sum _ _ _ _ (k + (wtid_of v + w) / 2 ^ 23)).
    - f_equal. pose proof (Z.div_mod (wtid_of v + w) (2 ^ 23)). lia.
    - pose proof (Z.mod_pos_bound (wtid_of v + w) (2 ^ 23)).
      unfold fields_ok; cbn [f_owner f_nwaiter f_recover f_wtid]. lia. }
  unfold decode in E. by injection E.
Qed.

(** What masking the waiter field leaves, as an [int64_t]. *)
Lemma wtid_cleared v :
  s64 (Z.land (Z.lnot MTX_WAITER_TID_MASK) v)
  = owner_of v + nwaiter_of v * 2 ^ 32 + recover_of v * 2 ^ 40.
Proof.
  rewrite Z.land_comm, land_lnot, land_wtid. destruct (sum_of_fields v) as [k Hk].
  pose proof (decode_ok v) as (Ho & Hn & Hr & _). cbn in Ho, Hn, Hr.
  unfold wrap_s.
  replace (v - wtid_of v * 2 ^ 41 + 2 ^ (64 - 1))
    with (owner_of v + nwaiter_of v * 2 ^ 32 + recover_of v * 2 ^ 40 + 2 ^ (64 - 1) + k * 2 ^ 64) by lia.
  rewrite Z.mod_add by lia. rewrite Z.mod_small; lia.
Qed.

Lemma owner_cleared v : owner_of (Z.land v (Z.lnot MTX_OWNER_TID_MASK)) = 0.
Proof.
  rewrite land_lnot, land_owner. unfold owner_of. Z.div_mod_to_equations. lia.
Qed.

(** ** Effect of the repair after deaths *)

(** The change for one dead thread before it is wrapped to 64 bits. *)
Definition raw_change (v : Z) (d : dead_thread) : Z :=
  if owner_of v =? dead_tid d then 2 ^ 40 - dead_tid d
  else if wtid_of v =? dead_tid d then - (2 ^ 32 + dead_tid d * 2 ^ 41)
  else if dead_is_waiter d then - 2 ^ 32
  else 0.

(** A thread id that fits both tid fields of the lock value. *)
Definition tid_ok (tid : Z) : Prop := 0 < tid < 2 ^ 23.

Lemma get_lockval_change_raw v d :
  tid_ok (dead_tid d) ->
  get_lockval_change v (dead_is_waiter d) (dead_tid d) = s64 (raw_change v d).
Proof.
  destruct d as [w t]. unfold tid_ok, get_lockval_change, raw_change; simpl. intros Ht.
  rewrite is_thread_mtx_owner_spec, is_thread_mtx_waiterlist_owner_spec by lia.
  rewrite (Z.mod_small t) by lia.
  destruct (owner_of v =? t); [by rewrite mtx_lockval_owner by lia|].
  destruct (wtid_of v =? t).
  - rewrite mtx_lockval_sum by lia.
    change (- s64 (0 + 1 * 2 ^ 32 + t * 2 ^ 41)) with (0 - s64 (0 + 1 * 2 ^ 32 + t * 2 ^ 41)).
    by rewrite s64_sub_r.
  - destruct w; reflexivity.
Qed.

Lemma cleanup_change_sum v l :
  Forall (fun d => tid_ok (dead_tid d)) l ->
  cleanup_change v l = s64 (foldr (fun d z => raw_change v d + z) 0 l).
Proof.
  intros Hl. unfold cleanup_change.
  assert (G : forall acc,
    fold_left (fun c d => s64 (c + get_lockval_change v (dead_is_waiter d) (dead_tid d))) l (s64 acc)
    = s64 (acc + foldr (fun d z => raw_change v d + z) 0 l)).
  { induction Hl as [|d l Hd Hl IH]; intros acc; simpl; [by rewrite Z.add_0_r|].
    rewrite get_lockval_change_raw by done. rewrite s64_add_l, s64_add_r, IH.
    f_equal. lia. }
  apply (G 0).
Qed.

Definition dead_tids (l : list dead_thread) : list Z := map dead_tid l.

(** The dead threads that were counted as waiters of the mutex. *)
Definition dead_waiters (v : Z) (l : list dead_thread) : list dead_thread :=
  filter (fun d => dead_tid d <> owner_of v /\ (dead_tid d = wtid_of v \/ dead_is_waiter d = true)) l.

Lemma raw_change_sum v l :
  NoDup (dead_tids l) ->
  foldr (fun d z => raw_change v d + z) 0 l
  = (if decide (owner_of v ∈ dead_tids l) then 2 ^ 40 - owner_of v else 0)
    - (if decide (wtid_of v ∈ dead_tids l /\ wtid_of v <> owner_of v) then wtid_of v * 2 ^ 41 else 0)
    - Z.of_nat (length (dead_waiters v l)) * 2 ^ 32.
Proof.
  unfold dead_tids, dead_waiters.
  induction l as [|d l IH]; cbn [map foldr]; intros Hnd.
  - rewrite decide_False by (apply not_elem_of_nil).
    rewrite decide_False by (intros [H _]; by apply not_elem_of_nil in H).
    reflexivity.
  - apply list.NoDup_cons in Hnd as [Hni Hnd]. rewrite (IH Hnd). clear IH.
    rewrite filter_cons. unfold raw_change.
    destruct (Z.eqb_spec (owner_of v) (dead_tid d)) as [Eo|No].
    + rewrite (decide_False (P := owner_of v ∈ map dead_tid l)) by (by rewrite Eo).
      rewrite (decide_True (P := owner_of v ∈ dead_tid d :: _)) by (rewrite Eo; left).
      rewrite (decide_False (P := dead_tid d <> _ /\ _)) by naive_solver.
      split_decide; try lia; exfalso; rewrite ?elem_of_cons in *; intuition congruence.
    + destruct (Z.eqb_spec (wtid_of v) (dead_tid d)) as [Ew|Nw].
      * rewrite (decide_True (P := dead_tid d <> _ /\ _)) by naive_solver.
        cbn [length]. rewrite <- Ew in *.
        split_decide; try lia; exfalso; rewrite ?elem_of_cons in *; intuition congruence.
      * destruct (dead_is_waiter d) eqn:Ed;
          [rewrite (decide_True (P := dead_tid d <> _ /\ _)) by naive_solver
          |rewrite (decide_False (P := dead_tid d <> _ /\ _)) by naive_solver];
          cbn [length]; split_decide; try lia; exfalso; rewrite ?elem_of_cons in *; intuition congruence.
Qed.

(** The fields of a lock value once the dead threads of [l] are removed. *)
Definition repaired (v : Z) (l : list dead_thread) : lock_fields :=
  let owner_dead := bool_decide (owner_of v ∈ dead_tids l) in
  mk_fields (if owner_dead then 0 else owner_of v)
            (nwaiter_of v - Z.of_nat (length (dead_waiters v l)))
            (if owner_dead then 1 else recover_of v)
            (if bool_decide (wtid_of v ∈ dead_tids l /\ wtid_of v <> owner_of v)
             then 0 else wtid_of v).

Lemma cleanup_fields key v l :
  Forall (fun d => tid_ok (dead_tid d)) l ->
  NoDup (dead_tids l) ->
  Z.of_nat (length (dead_waiters v l)) <= nwaiter_of v ->
  (owner_of v ∈ dead_tids l -> recover_of v = 0) ->
  decode (fst (fst (cleanup_mutex_lock key v l))) = repaired v l.
Proof.
  intros Hok Hnd Hn Hr. unfold cleanup_mutex_lock; cbn [fst].
  rewrite cleanup_change_sum by done. rewrite s64_add_r, raw_change_sum by done.
  pose proof (decode_ok v) as (Ho & Hnw & Hrr & Hw). simpl in Ho, Hnw, Hrr, Hw.
  set (od := if decide (owner_of v ∈ dead_tids l) then owner_of v else 0).
  set (rd := if decide (owner_of v ∈ dead_tids l) then 1 else 0).
  set (wd := if decide (wtid_of v ∈ dead_tids l /\ wtid_of v <> owner_of v) then wtid_of v else 0).
  set (N := Z.of_nat (length (dead_waiters v l))) in *.
  match goal with |- context [s64 (v + ?x)] =>
    replace x with (- od + - N * 2 ^ 32 + rd * 2 ^ 40 + - wd * 2 ^ 41)
      by (unfold od, rd, wd; repeat case_decide; lia) end.
  assert (0 <= N) by lia.
  rewrite decode_add.
  - unfold repaired, od, rd, wd.
    rewrite !bool_decide_decide.
    split_decide; f_equal; try lia; rewrite Hr by done; lia.
  - unfold fields_ok, od, rd, wd; simpl.
    split_decide; repeat split; try lia; rewrite Hr by done; lia.
Qed.

(** ** Properties *)

(** The tests and the additions and subtractions of the mutex code act on
    the fields of the lock value: the predicates read their field, the values
    built by [mtx_lockval] can be added and subtracted without disturbing
    another field as long as the owner field is free (resp. held by the
    thread) and the waiter list is not full. *)
Theorem lockval_arithmetic v tid :
  tid_ok tid ->
  let f := decode v in
  (is_mtx_waited v = negb (f_nwaiter f =? 0)
   /\ is_mtx_locked v = negb (f_owner f =? 0)
   /\ is_mtx_waiterlist_full v = (f_nwaiter f =? 255)
   /\ is_mtx_ownerdead v = (f_recover f =? 1)
   /\ is_mtx_unrecoverable v = (f_recover f =? 1) && (f_owner f =? 2 ^ 32 - 1)
   /\ mtx_num_waiter v = f_nwaiter f)
  /\ (is_mtx_locked v = false ->
      decode (s64 (v + mtx_lockval tid 0 0))
      = mk_fields tid (f_nwaiter f) (f_recover f) (f_wtid f))
  /\ (is_thread_mtx_owner v tid = true ->
      decode (s64 (v - mtx_lockval tid 0 0))
      = mk_fields 0 (f_nwaiter f) (f_recover f) (f_wtid f))
  /\ (is_mtx_waiterlist_full v = false ->
      decode (s64 (Z.land v (Z.lnot MTX_WAITER_TID_MASK) + mtx_lockval 0 tid 1))
      = mk_fields (f_owner f) (f_nwaiter f + 1) (f_recover f) tid)
  /\ (is_thread_mtx_waiterlist_owner v tid = true ->
      decode (s64 (v - mtx_lockval 0 tid 0))
      = mk_fields (f_owner f) (f_nwaiter f) (f_recover f) 0).
Proof.
  intros Ht f. unfold tid_ok in Ht.
  pose proof (decode_ok v) as (Ho & Hn & Hr & Hw). cbn in Ho, Hn, Hr, Hw.
  rewrite is_thread_mtx_owner_spec, is_thread_mtx_waiterlist_owner_spec by lia.
  rewrite is_mtx_waited_spec, is_mtx_locked_spec, is_mtx_waiterlist_full_spec,
    is_mtx_ownerdead_spec, is_mtx_unrecoverable_spec, mtx_num_waiter_spec.
  rewrite (Z.mod_small tid) by lia. rewrite mtx_lockval_owner by lia.
  split; [by repeat split|]. subst f; cbn.
  repeat split; intros H; zbool.
  - replace (v + tid) with (v + (tid + 0 * 2 ^ 32 + 0 * 2 ^ 40 + 0 * 2 ^ 41)) by lia.
    rewrite decode_add by (unfold fields_ok; cbn; lia). f_equal; lia.
  - replace (v - tid) with (v + (- tid + 0 * 2 ^ 32 + 0 * 2 ^ 40 + 0 * 2 ^ 41)) by lia.
    rewrite decode_add by (unfold fields_ok; cbn; lia). f_equal; lia.
  - rewrite (mtx_lockval_sum 0 tid 1), s64_add_r by lia.
    rewrite land_lnot, land_wtid.
    replace (v - wtid_of v * 2 ^ 41 + (0 + 1 * 2 ^ 32 + tid * 2 ^ 41))
      with (v + (0 + 1 * 2 ^ 32 + 0 * 2 ^ 40 + (tid - wtid_of v) * 2 ^ 41)) by lia.
    rewrite decode_add by (unfold fields_ok; cbn; lia). f_equal; lia.
  - rewrite (mtx_lockval_sum 0 tid 0), s64_sub_r by lia.
    replace (v - (0 + 0 * 2 ^ 32 + tid * 2 ^ 41))
      with (v + (0 + 0 * 2 ^ 32 + 0 * 2 ^ 40 + (- tid) * 2 ^ 41)) by lia.
    rewrite decode_add by (unfold fields_ok; cbn; lia). f_equal; lia.
Qed.

Lemma lockval_arithmetic_witness :
  decode (s64 (7 + 3 * 2 ^ 32 + 2 ^ 40 - mtx_lockval 7 0 0)) = mk_fields 0 3 1 0.
Proof.
  destruct (lockval_arithmetic (7 + 3 * 2 ^ 32 + 2 ^ 40) 7) as (_ & _ & H & _).
  - unfold tid_ok. lia.
  - apply H. reflexivity.
Defined.



(** ** Where the hypotheses of the repair fail

    The need-recover bit is added: when an owner dies before having called
    [mm_thr_mutex_consistent()] the bit is already set, the addition clears it
    and carries into the waiter thread id. *)
Example second_owner_death_loses_recover_bit :
  decode (fst (fst (cleanup_mutex_lock 1 (5 + 2 ^ 40) [mk_dead false 5])))
  = mk_fields 0 0 0 1.
Proof. reflexivity. Qed.

(** A thread that dies in the middle of [mm_thr_mutex_unlock()] has the mutex
    both as attempted and as locked key; reported twice, its id is subtracted
    twice. *)
Example double_report_corrupts_owner :
  decode (fst (fst (cleanup_mutex_lock 1 5 [mk_dead false 5; mk_dead false 5])))
  = mk_fields (2 ^ 32 - 5) 255 1 0.
Proof. reflexivity. Qed.

(** A thread id of more than 23 bits does not fit the waiter field: two threads
    are confused. *)
Example wide_tids_confused :
  is_thread_mtx_waiterlist_owner (mtx_lockval 0 (2 ^ 23 + 9) 1) 9 = true.
Proof. reflexivity. Qed.
