(* ===== verification/PsharedMutex.v ===== *)
(** * Process-shared mutexes

    The mutex part of [thread-win32.c]: one step per access to the shared lock
    value (or per exchange with the lock referee), interleaved between any
    number of threads.  The referee is seen through its contract for wake-ups:
    it keeps the wake-ups that no waiter consumed yet. *)

From S2P Require Import Prelude MutexVal.

(** ** Data shared with the lock referee for each thread *)

Record robust_data := mk_robust {
  thread_id : Z;
  attempt_key : Z;
  is_waiter : bool;
  num_locked : Z;
  locked_keys : list Z    (* its length is [num_locked_max] *)
}.

Definition set_attempt_key (k : Z) (rd : robust_data) : robust_data :=
  mk_robust (thread_id rd) k (is_waiter rd) (num_locked rd) (locked_keys rd).

Definition set_is_waiter (b : bool) (rd : robust_data) : robust_data :=
  mk_robust (thread_id rd) (attempt_key rd) b (num_locked rd) (locked_keys rd).

Definition start_mtx_operation (mtx_key : Z) (rd : robust_data) : robust_data :=
  set_attempt_key mtx_key rd.

(** [None]: the write into [locked_keys] is out of bounds. *)
Definition finish_mtx_lock (rd : robust_data) (locked : bool) (oldval : Z)
    : option (robust_data * Z) :=
  if locked then
    if decide (0 <= num_locked rd < Z.of_nat (length (locked_keys rd))) then
      Some (mk_robust (thread_id rd) 0 false (num_locked rd + 1)
              (<[Z.to_nat (num_locked rd) := attempt_key rd]> (locked_keys rd)),
            if is_mtx_ownerdead oldval then EOWNERDEAD else 0)
    else None
  else
    Some (mk_robust (thread_id rd) 0 false (num_locked rd) (locked_keys rd), EBUSY).

Definition finish_mtx_unlock (rd : robust_data) : robust_data :=
  mk_robust (thread_id rd) 0 (is_waiter rd) (num_locked rd - 1) (locked_keys rd).

(** ** Atomic accesses to the lock value *)

(** Swapped or not, new value of the object, new value of [expected]. *)
Definition atomic_cmp_exchange (obj expected desired : Z) : bool * Z * Z :=
  let prev_val := obj in
  let has_swapped := expected =? prev_val in
  (has_swapped, if has_swapped then desired else obj, prev_val).

(** Previous value and new value of the object. *)
Definition atomic_fetch_add (obj arg : Z) : Z * Z := (obj, s64 (obj + arg)).
Definition atomic_fetch_sub (obj arg : Z) : Z * Z := (obj, s64 (obj - arg)).

(** The lock value and the wake-ups available at the referee. *)
Record shared := mk_shared { sh_lock : Z; sh_wakes : Z }.

(** Where a thread stands in the mutex routines. *)
Inductive mtx_pc :=
| Returned (ret : Z)                                (* in the client *)
| LockCas (oldval incval : Z) (notified : bool)     (* loop of pshared_mtx_lock *)
| LockWait (incval : Z)                             (* pshared_wait_on_lock *)
| LockReload (incval : Z)                           (* the load after the wait *)
| RegCas (oldval incval : Z)                        (* loop of register_waiter_in_mtx *)
| RegReload (incval : Z)                            (* load after Sleep(1) *)
| RegMark (incval : Z)                              (* before is_waiter = 1 *)
| RegRelease (incval : Z)                           (* atomic_fetch_sub *)
| TryCas (i : Z) (oldval newval : Z)                (* loop of pshared_mtx_trylock *)
| MtxFinish (locked : bool) (oldval : Z)            (* finish_mtx_lock *)
| UnlockLoad                                        (* pshared_mtx_unlock *)
| UnlockSub (unlock_val : Z) (unrecoverable : bool)
| UnlockWake (num_unlock : Z)
| UnlockFinish
| ConsLoad                                          (* pshared_mtx_consistent *)
| ConsSub.

Inductive outcome :=
| Next (sh : shared) (rd : robust_data) (pc : mtx_pc)
| Blocked
| Undefined.

Definition finish_return (sh : shared) (r : option (robust_data * Z)) (ret : Z -> Z) : outcome :=
  match r with
  | Some (rd, v) => Next sh rd (Returned (ret v))
  | None => Undefined
  end.

Section Mutex.
Variable mtx_key : Z.

(** The entry of each routine: what happens before the first shared access. *)
Definition pshared_mtx_lock (rd : robust_data) : robust_data * mtx_pc :=
  (start_mtx_operation mtx_key rd, LockCas 0 (mtx_lockval (thread_id rd) 0 0) false).

Definition pshared_mtx_trylock (rd : robust_data) : robust_data * mtx_pc :=
  (start_mtx_operation mtx_key rd, TryCas 0 0 (mtx_lockval (thread_id rd) 0 0)).

Definition pshared_mtx_unlock (rd : robust_data) : robust_data * mtx_pc := (rd, UnlockLoad).

Definition pshared_mtx_consistent (rd : robust_data) : robust_data * mtx_pc := (rd, ConsLoad).

(** [LockCas], [LockWait], [LockReload]. *)
Definition lock_cas_step (sh : shared) (rd : robust_data)
    (oldval incval : Z) (notified : bool) : outcome :=
  let newval := s64 (oldval + incval) in
  let '(ok, lock', oldval') := atomic_cmp_exchange (sh_lock sh) oldval newval in
  let sh' := mk_shared lock' (sh_wakes sh) in
  if ok then Next sh' rd (MtxFinish true oldval')
  else if is_mtx_unrecoverable oldval' then
    finish_return sh' (finish_mtx_lock rd false oldval') (fun _ => ENOTRECOVERABLE)
  else if negb notified then Next sh' rd (RegCas oldval' incval)
  else Next sh' rd (LockWait incval).

Definition lock_wait_step (sh : shared) (rd : robust_data) (incval : Z) : outcome :=
  if 0 <? sh_wakes sh then
    Next (mk_shared (sh_lock sh) (sh_wakes sh - 1)) rd (LockReload incval)
  else Blocked.

Definition lock_reload_step (sh : shared) (rd : robust_data) (incval : Z) : outcome :=
  Next sh rd (LockCas (Z.land (sh_lock sh) (Z.lnot MTX_OWNER_TID_MASK)) incval true).

(** The steps of [register_waiter_in_mtx], returning into [pshared_mtx_lock]. *)
Definition register_waiter_in_mtx (sh : shared) (rd : robust_data) (oldval incval : Z)
    : outcome :=
  if is_mtx_waiterlist_full oldval then Next sh rd (RegReload incval)
  else
    let newval := s64 (Z.land oldval (Z.lnot MTX_WAITER_TID_MASK)
                       + mtx_lockval 0 (thread_id rd) 1) in
    let '(ok, lock', oldval') := atomic_cmp_exchange (sh_lock sh) oldval newval in
    let sh' := mk_shared lock' (sh_wakes sh) in
    if ok then Next sh' rd (RegMark incval)
    else if is_mtx_unrecoverable oldval' then Next sh' rd (LockCas oldval' incval false)
    else Next sh' rd (RegCas oldval' incval).

Definition register_release_step (sh : shared) (rd : robust_data) (incval : Z) : outcome :=
  let '(prev, lock') := atomic_fetch_sub (sh_lock sh) (mtx_lockval 0 (thread_id rd) 0) in
  let oldval := s64 (Z.land (Z.lnot MTX_WAITER_TID_MASK) prev) in
  Next (mk_shared lock' (sh_wakes sh)) rd
    (LockCas (Z.land oldval (Z.lnot MTX_OWNER_TID_MASK))
             (s64 (incval - mtx_lockval 0 0 1)) true).

Definition trylock_step (sh : shared) (rd : robust_data) (i oldval newval : Z) : outcome :=
  if i <? 2 then
    let '(ok, lock', oldval') := atomic_cmp_exchange (sh_lock sh) oldval newval in
    let sh' := mk_shared lock' (sh_wakes sh) in
    if ok then Next sh' rd (MtxFinish true oldval')
    else if is_mtx_unrecoverable oldval' then
      finish_return sh' (finish_mtx_lock rd false oldval') (fun _ => ENOTRECOVERABLE)
    else
      let oldval'' := Z.land oldval' (Z.lnot MTX_OWNER_TID_MASK) in
      Next sh' rd (TryCas (i + 1) oldval'' (s64 (newval + oldval'')))
  else Next sh rd (MtxFinish false oldval).

Definition unlock_load_step (sh : shared) (rd : robust_data) : outcome :=
  let unlock_val := mtx_lockval (thread_id rd) 0 0 in
  let unrecoverable := is_mtx_ownerdead (sh_lock sh) in
  let unlock_val :=
    if unrecoverable then s64 (unlock_val - MTX_OWNER_TID_MASK) else unlock_val in
  Next sh (start_mtx_operation mtx_key rd) (UnlockSub unlock_val unrecoverable).

Definition unlock_sub_step (sh : shared) (rd : robust_data)
    (unlock_val : Z) (unrecoverable : bool) : outcome :=
  let '(oldval, lock') := atomic_fetch_sub (sh_lock sh) unlock_val in
  Next (mk_shared lock' (sh_wakes sh)) rd
    (if is_mtx_waited oldval
     then UnlockWake (if unrecoverable then mtx_num_waiter oldval else 1)
     else UnlockFinish).

Definition consistent_load_step (sh : shared) (rd : robust_data) : outcome :=
  Next sh rd (if is_mtx_ownerdead (sh_lock sh) then ConsSub else Returned EINVAL).

(** One step of a thread in a mutex routine. *)
Definition mtx_step (sh : shared) (rd : robust_data) (pc : mtx_pc) : outcome :=
  match pc with
  | Returned _ => Blocked
  | LockCas oldval incval notified => lock_cas_step sh rd oldval incval notified
  | LockWait incval => lock_wait_step sh rd incval
  | LockReload incval => lock_reload_step sh rd incval
  | RegCas oldval incval => register_waiter_in_mtx sh rd oldval incval
  | RegReload incval => Next sh rd (LockCas (sh_lock sh) incval false)
  | RegMark incval => Next sh (set_is_waiter true rd) (RegRelease incval)
  | RegRelease incval => register_release_step sh rd incval
  | TryCas i oldval newval => trylock_step sh rd i oldval newval
  | MtxFinish locked oldval => finish_return sh (finish_mtx_lock rd locked oldval) (fun v => v)
  | UnlockLoad => unlock_load_step sh rd
  | UnlockSub unlock_val unrecoverable => unlock_sub_step sh rd unlock_val unrecoverable
  | UnlockWake num_unlock =>
      Next (mk_shared (sh_lock sh) (sh_wakes sh + num_unlock)) rd UnlockFinish
  | UnlockFinish => Next sh (finish_mtx_unlock rd) (Returned 0)
  | ConsLoad => consistent_load_step sh rd
  | ConsSub =>
      Next (mk_shared (snd (atomic_fetch_sub (sh_lock sh) MTX_NEED_RECOVER_MASK)) (sh_wakes sh))
        rd (Returned 0)
  end.

(** ** Interleavings *)

Record thread := mk_thread { th_rd : robust_data; th_pc : mtx_pc }.
Record global := mk_global { g_sh : shared; g_thr : gmap Z thread }.

(** The thread has the mutex: from the exchange that takes it to the
    subtraction that releases it. *)
Definition owns (th : thread) : bool :=
  match th_pc th with
  | MtxFinish locked _ => locked
  | Returned _ | UnlockLoad | UnlockSub _ _ | ConsLoad | ConsSub => num_locked (th_rd th) =? 1
  | _ => false
  end.

(** The thread is counted in the waiters of the lock value. *)
Definition registered (th : thread) : bool :=
  match th_pc th with
  | LockCas _ _ notified => notified
  | LockWait _ | LockReload _ | RegMark _ | RegRelease _ => true
  | _ => false
  end.

Inductive action :=
| Exec (tid : Z)
| CallLock (tid : Z)
| CallTrylock (tid : Z)
| CallUnlock (tid : Z)
| CallConsistent (tid : Z).

Definition in_client (th : thread) : bool :=
  match th_pc th with Returned _ => true | _ => false end.

Definition call (g : global) (tid : Z) (guard : thread -> bool)
    (f : robust_data -> robust_data * mtx_pc) : option global :=
  th ← g_thr g !! tid;
  if in_client th && guard th then
    let '(rd, pc) := f (th_rd th) in
    Some (mk_global (g_sh g) (<[tid := mk_thread rd pc]> (g_thr g)))
  else None.

(** A client locks a mutex it does not hold and unlocks one it holds. *)
Definition act (g : global) (a : action) : option global :=
  match a with
  | Exec tid =>
      th ← g_thr g !! tid;
      match mtx_step (g_sh g) (th_rd th) (th_pc th) with
      | Next sh rd pc => Some (mk_global sh (<[tid := mk_thread rd pc]> (g_thr g)))
      | Blocked | Undefined => None
      end
  | CallLock tid => call g tid (fun th => negb (owns th)) pshared_mtx_lock
  | CallTrylock tid => call g tid (fun th => negb (owns th)) pshared_mtx_trylock
  | CallUnlock tid => call g tid owns pshared_mtx_unlock
  | CallConsistent tid => call g tid (fun _ => true) pshared_mtx_consistent
  end.

Inductive g_step (g : global) : global -> Prop :=
| g_act a g' : act g a = Some g' -> g_step g g'.

(** A schedule, executed. *)
Definition run (g : global) (l : list action) : option global :=
  fold_left (fun og a => g' ← og; act g' a) l (Some g).

Definition fresh_thread (tid : Z) (max : nat) : thread :=
  mk_thread (mk_robust tid 0 false 0 (replicate max 0)) (Returned 0).

Definition start (tids : list Z) (max : nat) : global :=
  mk_global (mk_shared 0 0) (list_to_map ((fun t => (t, fresh_thread t max)) <$> tids)).

End Mutex.

(** ** The invariant *)

Definition n_registered (m : gmap Z thread) : Z := count_if registered m.

(** The thread of a [thread_ok] goal is the current one, only its data and
    program counter are left to check. *)
Ltac show_ok := split; [done|]; split; [done|]; hnf; cbn.

Section Invariant.
Variable mtx_key : Z.

(** The robust data of a thread that holds the mutex (or not). *)
Definition rd_ok (held : bool) (rd : robust_data) : Prop :=
  (0 < length (locked_keys rd))%nat /\
  if held then num_locked rd = 1 /\ locked_keys rd !! 0%nat = Some mtx_key
  else num_locked rd = 0.

Definition pc_ok (t : Z) (rd : robust_data) (pc : mtx_pc) : Prop :=
  match pc with
  | Returned _ | ConsLoad => exists held, rd_ok held rd
  | LockCas o i false => rd_ok false rd /\ o = 0 /\ i = t
  | LockCas o i true => rd_ok false rd /\ owner_of o = 0 /\ i = s64 (t - 2 ^ 32)
                        /\ is_waiter rd = true
  | LockWait i | LockReload i =>
      rd_ok false rd /\ i = s64 (t - 2 ^ 32) /\ is_waiter rd = true
  | RegCas o i => rd_ok false rd /\ nwaiter_of o < 255 /\ i = t
  | RegReload _ | ConsSub => False
  | RegMark i => rd_ok false rd /\ i = t
  | RegRelease i => rd_ok false rd /\ i = t /\ is_waiter rd = true
  | TryCas n o nv => rd_ok false rd /\ owner_of o = 0 /\ 0 <= n <= 2
                     /\ (n = 0 -> o = 0) /\ (n < 2 -> nv = s64 (o + t))
  | MtxFinish _ _ => rd_ok false rd
  | UnlockLoad => rd_ok true rd
  | UnlockSub uv un => rd_ok true rd /\ uv = t /\ un = false
  | UnlockWake _ | UnlockFinish => rd_ok true rd
  end
  /\ match pc with
     | Returned _ | UnlockLoad | ConsLoad | ConsSub => True
     | _ => attempt_key rd = mtx_key
     end.

Definition thread_ok (t : Z) (th : thread) : Prop :=
  thread_id (th_rd th) = t /\ 0 < t < 2 ^ 32 - 1 /\ pc_ok t (th_rd th) (th_pc th).

Record inv (g : global) : Prop := {
  inv_size : (size (g_thr g) <= 255)%nat;
  inv_threads : map_Forall thread_ok (g_thr g);
  inv_owner : forall t th, g_thr g !! t = Some th ->
      (owns th = true <-> owner_of (sh_lock (g_sh g)) = t);
  inv_owned : owner_of (sh_lock (g_sh g)) <> 0 ->
      is_Some (g_thr g !! owner_of (sh_lock (g_sh g)));
  inv_nwaiter : nwaiter_of (sh_lock (g_sh g)) = n_registered (g_thr g);
  inv_recover : recover_of (sh_lock (g_sh g)) = 0
}.

(** A thread that is not registered leaves room in the waiter list. *)
Lemma n_registered_bound m t th :
  m !! t = Some th -> registered th = false -> 0 <= n_registered m < Z.of_nat (size m).
Proof. intros Hm Hr. pose proof (count_if_bound registered m t th Hm) as H. rewrite Hr in H. cbn in H. unfold n_registered. lia. Qed.

(** What a step of thread [t] from [th] to [th'] has to guarantee locally. *)
Record local_step (t : Z) (th th' : thread) (v v' : Z) : Prop := {
  ls_ok : thread_ok t th';
  ls_nwaiter : nwaiter_of v'
    = nwaiter_of v - Z.b2z (registered th) + Z.b2z (registered th');
  ls_owner : owner_of v'
    = if owns th' then t else if owns th then 0 else owner_of v;
  ls_acquire : owns th' = true -> owns th = true \/ owner_of v = 0;
  ls_recover : recover_of v' = recover_of v
}.

Lemma inv_local_step g t th th' sh' :
  inv g -> g_thr g !! t = Some th ->
  local_step t th th' (sh_lock (g_sh g)) (sh_lock sh') ->
  inv (mk_global sh' (<[t := th']> (g_thr g))).
Proof.
  intros [Hs Ht Ho Hod Hn Hr] Hth [Lok Ln Lo La Lr].
  assert (Hpos : 0 < t) by apply Lok.
  constructor; cbn [g_thr g_sh].
  - by rewrite map_size_insert_Some by eauto.
  - by apply map_Forall_insert_2.
  - intros t2 th2 H2. rewrite Lo.
    destruct (decide (t2 = t)) as [->|Hne].
    + rewrite lookup_insert_eq in H2. simplify_eq.
      destruct (owns th2) eqn:E; [done|].
      split; [done|]. destruct (owns th) eqn:E'; [lia|].
      intros Hc. apply (Ho t th) in Hc; [congruence|done].
    + rewrite lookup_insert_ne in H2 by done.
      destruct (map_Forall_lookup_1 _ _ _ _ Ht H2) as (_ & Hp2 & _).
      destruct (owns th') eqn:E'.
      * split; [|lia]. intros Hc. apply (Ho _ _ H2) in Hc.
        destruct La as [La|La]; [done| |lia].
        apply (Ho _ _ Hth) in La. lia.
      * destruct (owns th) eqn:E; [|by apply Ho].
        apply (Ho _ _ Hth) in E. rewrite (Ho _ _ H2). lia.
  - rewrite Lo. intros Hnz. destruct (decide (t = owner_of (sh_lock sh'))) as [E|E].
    + rewrite <- Lo, <- E, lookup_insert_eq. eauto.
    + rewrite <- Lo, lookup_insert_ne by done. rewrite Lo in *.
      destruct (owns th'); [done|]. destruct (owns th); [done|]. by apply Hod.
  - by rewrite Ln, Hn, (count_if_insert registered _ _ th).
  - by rewrite Lr.
Qed.
Lemma recovered_live v : recover_of v = 0 -> is_mtx_ownerdead v = false /\ is_mtx_unrecoverable v = false.
Proof. intros H. by rewrite is_mtx_ownerdead_spec, is_mtx_unrecoverable_spec, H. Qed.

Lemma cas_split obj expected desired :
  atomic_cmp_exchange obj expected desired
  = if decide (expected = obj) then (true, desired, obj) else (false, obj, obj).
Proof.
  unfold atomic_cmp_exchange. case_decide as H; zbool;
    [by rewrite (proj2 (Z.eqb_eq _ _) H)|by rewrite (proj2 (Z.eqb_neq _ _) H)].
Qed.

(** Steps that do not touch the lock value. *)
Lemma local_step_same t th th' v :
  thread_ok t th' -> registered th' = registered th -> owns th' = owns th ->
  (owns th = true <-> owner_of v = t) ->
  local_step t th th' v v.
Proof.
  intros Hok Hr Ho Hv. constructor; [done|rewrite Hr; lia| | |done].
  - rewrite Ho. destruct (owns th) eqn:E; [|done]. by apply Hv.
  - rewrite Ho. by left.
Qed.

(** Steps that add field-wise differences to it. *)
Lemma local_step_add t th th' v o n w :
  thread_ok t th' ->
  0 <= nwaiter_of v + n < 256 ->
  n = Z.b2z (registered th') - Z.b2z (registered th) ->
  owner_of v + o = (if owns th' then t else if owns th then 0 else owner_of v) ->
  (owns th' = true -> owns th = true \/ owner_of v = 0) ->
  local_step t th th' v (s64 (v + (o + n * 2 ^ 32 + w * 2 ^ 41))).
Proof.
  intros Hok Hn Hn' Ho Ha.
  assert (0 <= owner_of v + o < 2 ^ 32) as Hb.
  { rewrite Ho. pose proof (decode_ok v) as (Hv & _). cbn in Hv.
    destruct Hok as (_ & Ht & _). repeat case_match; lia. }
  destruct (low_fields_add v o n w Hb Hn) as (E1 & E2 & E3).
  constructor; try done; rewrite ?E1, ?E2; lia.
Qed.

(** The steps of one thread under the invariant. *)
Section Steps.
Context (g : global) (t : Z) (rd : robust_data).
Context (Hinv : inv g).
Let v := sh_lock (g_sh g).

Lemma step_facts pc :
  g_thr g !! t = Some (mk_thread rd pc) ->
  (thread_id rd = t /\ 0 < t < 2 ^ 32 - 1 /\ pc_ok t rd pc)
  /\ recover_of v = 0 /\ is_mtx_ownerdead v = false /\ is_mtx_unrecoverable v = false
  /\ (owns (mk_thread rd pc) = true <-> owner_of v = t)
  /\ (registered (mk_thread rd pc) = false -> 0 <= nwaiter_of v < 255)
  /\ (registered (mk_thread rd pc) = true -> 0 < nwaiter_of v)
  /\ mtx_lockval (thread_id rd) 0 0 = t.
Proof.
  intros Hth. destruct Hinv as [Hs Ht Ho Hod Hn Hr].
  pose proof (map_Forall_lookup_1 _ _ _ _ Ht Hth) as (Hid & Hp & Hok). cbn in *.
  pose proof (recovered_live v Hr) as [? ?].
  split; [done|]. do 3 (split; [done|]). split; [by apply (Ho _ _ Hth)|].
  unfold v. rewrite Hn. split; [|split].
  - intros Hreg. pose proof (n_registered_bound _ _ _ Hth Hreg). lia.
  - intros Hreg. by apply (count_if_pos registered _ _ _ Hth).
  - rewrite Hid. apply mtx_lockval_owner. lia.
Qed.

Lemma lock_cas_ok o i nt sh' rd' pc' :
  g_thr g !! t = Some (mk_thread rd (LockCas o i nt)) ->
  lock_cas_step (g_sh g) rd o i nt = Next sh' rd' pc' ->
  local_step t (mk_thread rd (LockCas o i nt)) (mk_thread rd' pc') v (sh_lock sh').
Proof.
  intros Hth. destruct (step_facts _ Hth) as ((Hid & Ht & Hok & Hat) & Hr & Hd & Hu & Hown & Hroom & Hsome & _).
  unfold lock_cas_step. rewrite cas_split. fold v. cbn in Hown, Hroom, Hsome, Hat.
  case_decide as Hc.
  - intros [= <- <- <-]. subst o. cbn [sh_lock].
    destruct nt; cbn in Hok.
    + destruct Hok as (Hrd & Ho & -> & Hw). rewrite s64_add_r.
      replace (v + (t - 2 ^ 32)) with (v + (t + -1 * 2 ^ 32 + 0 * 2 ^ 41)) by lia.
      pose proof (decode_ok v) as (_ & Hnv & _). cbn in Hnv.
      apply local_step_add; [done|by specialize (Hsome eq_refl); lia|done|cbn; lia|by right].
    + destruct Hok as (Hrd & Ho & ->). rewrite Ho in *.
      replace (s64 (0 + t)) with (s64 (0 + (t + 0 * 2 ^ 32 + 0 * 2 ^ 41))) by (f_equal; lia).
      rewrite <- Ho. apply local_step_add; rewrite ?Ho; [done|cbn; lia|done|done|by right].
  - rewrite Hu. destruct nt; cbn [negb]; intros [= <- <- <-]; cbn in Hok; cbn [sh_lock].
    + apply local_step_same; try done.
      show_ok. tauto.
    + apply local_step_same; try done.
      specialize (Hroom eq_refl). assert (nwaiter_of v < 255) by lia.
      show_ok. tauto.
Qed.

Lemma register_ok o i sh' rd' pc' :
  g_thr g !! t = Some (mk_thread rd (RegCas o i)) ->
  register_waiter_in_mtx (g_sh g) rd o i = Next sh' rd' pc' ->
  local_step t (mk_thread rd (RegCas o i)) (mk_thread rd' pc') v (sh_lock sh').
Proof.
  intros Hth. destruct (step_facts _ Hth) as ((Hid & Ht & Hok & Hat) & Hr & Hd & Hu & Hown & Hroom & Hsome & _).
  unfold register_waiter_in_mtx. rewrite cas_split. fold v. cbn in Hown, Hroom, Hsome, Hok, Hat.
  destruct Hok as (Hrd & Ho & Hi). specialize (Hroom eq_refl).
  rewrite is_mtx_waiterlist_full_spec, (proj2 (Z.eqb_neq _ _)) by lia.
  case_decide as Hc.
  - intros [= <- <- <-]. subst o. cbn [sh_lock].
    rewrite Hid, mtx_lockval_sum, s64_add_r, land_lnot, land_wtid by lia.
    replace (v - wtid_of v * 2 ^ 41 + (0 + 1 * 2 ^ 32 + t * 2 ^ 41))
      with (v + (0 + 1 * 2 ^ 32 + (t - wtid_of v) * 2 ^ 41)) by lia.
    apply local_step_add; cbn; try done; lia.
  - rewrite Hu. intros [= <- <- <-]. apply local_step_same; try done.
    assert (nwaiter_of v < 255) by lia. show_ok. tauto.
Qed.

Lemma register_release_ok i sh' rd' pc' :
  g_thr g !! t = Some (mk_thread rd (RegRelease i)) ->
  register_release_step (g_sh g) rd i = Next sh' rd' pc' ->
  local_step t (mk_thread rd (RegRelease i)) (mk_thread rd' pc') v (sh_lock sh').
Proof.
  intros Hth. destruct (step_facts _ Hth) as ((Hid & Ht & Hok & Hat) & Hr & Hd & Hu & Hown & Hroom & Hsome & _).
  unfold register_release_step, atomic_fetch_sub. cbn in Hok, Hat. intros [= <- <- <-].
  fold v. cbn [sh_lock]. rewrite Hid, (mtx_lockval_sum 0 t 0), s64_sub_r by lia.
  replace (v - (0 + 0 * 2 ^ 32 + t * 2 ^ 41)) with (v + (0 + 0 * 2 ^ 32 + - t * 2 ^ 41)) by lia.
  pose proof (decode_ok v) as (_ & Hnv & _). cbn in Hnv, Hown.
  apply local_step_add; cbn; try done; try lia.
  split; [done|]. split; [done|].
  destruct Hok as (Hrd & -> & Hw). split; [|done].
  split; [done|]. by rewrite owner_cleared.
Qed.

Lemma trylock_ok n o nv sh' rd' pc' :
  g_thr g !! t = Some (mk_thread rd (TryCas n o nv)) ->
  trylock_step (g_sh g) rd n o nv = Next sh' rd' pc' ->
  local_step t (mk_thread rd (TryCas n o nv)) (mk_thread rd' pc') v (sh_lock sh').
Proof.
  intros Hth. destruct (step_facts _ Hth) as ((Hid & Ht & Hok & Hat) & Hr & Hd & Hu & Hown & Hroom & Hsome & _).
  unfold trylock_step. rewrite cas_split. fold v. cbn in Hown, Hok, Hat.
  destruct Hok as (Hrd & Ho & Hn & Hn0 & Hnv).
  destruct (Z.ltb_spec n 2).
  - rewrite (Hnv ltac:(lia)). case_decide as Hc.
    + intros [= <- <- <-]. subst o. cbn [sh_lock].
      replace (v + t) with (v + (t + 0 * 2 ^ 32 + 0 * 2 ^ 41)) by lia.
      pose proof (decode_ok v) as (_ & Hvn & _). cbn in Hvn.
      apply local_step_add; cbn; try done; lia.
    + rewrite Hu. intros [= <- <- <-]. apply local_step_same; try done.
      show_ok. split; [|done]. split; [done|]. split; [apply owner_cleared|].
      split; [lia|]. split; [lia|]. intros Hn1. rewrite Hn0, s64_add_l by lia. f_equal. lia.
  - intros [= <- <- <-]. by apply local_step_same.
Qed.

Lemma unlock_ok pc sh' rd' pc' :
  match pc with UnlockLoad | UnlockSub _ _ | UnlockWake _ | UnlockFinish => True | _ => False end ->
  g_thr g !! t = Some (mk_thread rd pc) ->
  mtx_step mtx_key (g_sh g) rd pc = Next sh' rd' pc' ->
  local_step t (mk_thread rd pc) (mk_thread rd' pc') v (sh_lock sh').
Proof.
  intros Hpc Hth. destruct (step_facts _ Hth) as ((Hid & Ht & Hok & Hat) & Hr & Hd & Hu & Hown & Hroom & Hsome & Hlv).
  destruct pc; try done; cbn in Hok, Hown, Hat; cbn [mtx_step].
  - unfold unlock_load_step. fold v. rewrite Hd, Hlv. intros [= <- <- <-].
    by apply local_step_same.
  - destruct Hok as (Hrd & -> & ->). unfold unlock_sub_step, atomic_fetch_sub.
    fold v. intros [= <- <- <-]. cbn [sh_lock].
    replace (v - t) with (v + (- t + 0 * 2 ^ 32 + 0 * 2 ^ 41)) by lia.
    pose proof (decode_ok v) as (_ & Hvn & _). cbn in Hvn.
    assert (Hnl : num_locked rd = 1) by apply Hrd.
    rewrite Hnl in Hown. pose proof (proj1 Hown eq_refl) as Eo.
    destruct (is_mtx_waited v); apply local_step_add; try done; try (cbn; lia);
      cbn; rewrite Hnl; cbn; lia.
  - intros [= <- <- <-]. by apply local_step_same.
  - intros [= <- <- <-]. apply local_step_same; try done.
    + destruct Hok as (? & Hnl & ?). show_ok. split; [|done]. exists false. split; [done|]. cbn. lia.
    + cbn. destruct Hok as (? & -> & ?). done.
Qed.

(** Every step of a thread preserves the invariant locally. *)
Lemma mtx_step_ok pc sh' rd' pc' :
  g_thr g !! t = Some (mk_thread rd pc) ->
  mtx_step mtx_key (g_sh g) rd pc = Next sh' rd' pc' ->
  local_step t (mk_thread rd pc) (mk_thread rd' pc') v (sh_lock sh').
Proof.
  intros Hth. destruct (step_facts _ Hth) as ((Hid & Ht & Hok & Hat) & Hr & Hd & Hu & Hown & Hroom & Hsome & Hlv).
  destruct pc; try (by apply unlock_ok); cbn [mtx_step]; try done.
  - by apply lock_cas_ok.
  - unfold lock_wait_step. case_test; [|done]. intros [= <- <- <-]. by apply local_step_same.
  - unfold lock_reload_step. fold v. intros [= <- <- <-]. apply local_step_same; try done.
    show_ok. cbn in *. rewrite owner_cleared. tauto.
  - by apply register_ok.
  - intros [= <- <- <-]. apply local_step_same; try done.
    show_ok. cbn in *. tauto.
  - by apply register_release_ok.
  - by apply trylock_ok.
  - cbn in Hok, Hat, Hown. destruct Hok as [Hlen Hnl]. destruct locked; cbn.
    + rewrite decide_True by lia. cbn. intros [= <- <- <-]. rewrite Hnl, Hat.
      apply local_step_same; try done. show_ok. split; [|done]. exists true. split; cbn; [by rewrite length_insert|].
      split; [lia|]. by apply list_lookup_insert_eq.
    + intros [= <- <- <-]. apply local_step_same; try done.
      * show_ok. split; [|done]. by exists false.
      * cbn. by rewrite Hnl.
  - unfold consistent_load_step. fold v. rewrite Hd. intros [= <- <- <-].
    by apply local_step_same.
Qed.

(** In the mutex routines a thread never writes out of its robust data. *)
Lemma mtx_step_defined pc :
  g_thr g !! t = Some (mk_thread rd pc) ->
  mtx_step mtx_key (g_sh g) rd pc <> Undefined.
Proof.
  intros Hth. destruct (step_facts _ Hth) as ((Hid & Ht & Hok & Hat) & Hr & Hd & Hu & Hown & Hroom & Hsome & Hlv).
  destruct pc; cbn [mtx_step]; try done.
  - unfold lock_cas_step. rewrite cas_split. fold v. case_decide; [done|].
    rewrite Hu. by destruct notified.
  - unfold lock_wait_step. by case_test.
  - unfold register_waiter_in_mtx. rewrite cas_split. fold v.
    case_test; [done|]. case_decide; [done|]. by rewrite Hu.
  - unfold trylock_step. rewrite cas_split. fold v. case_test; [|done].
    case_decide; [done|]. by rewrite Hu.
  - destruct Hok as [Hlen Hnl]. destruct locked; cbn; [|done].
    by rewrite decide_True by lia.
Qed.
End Steps.
End Invariant.

(** ** Reachable states *)

Lemma lookup_thread_eta (m : gmap Z thread) t th :
  m !! t = Some th -> m !! t = Some (mk_thread (th_rd th) (th_pc th)).
Proof. by destruct th. Qed.

Lemma call_ok mtx_key g t guard f g' :
  inv mtx_key g ->
  (forall th r, g_thr g !! t = Some th -> guard th = true -> th_pc th = Returned r ->
     local_step mtx_key t th (mk_thread (fst (f (th_rd th))) (snd (f (th_rd th))))
       (sh_lock (g_sh g)) (sh_lock (g_sh g))) ->
  call g t guard f = Some g' -> inv mtx_key g'.
Proof.
  intros Hinv Hf. unfold call.
  destruct (g_thr g !! t) as [th|] eqn:Hth; [|done]. cbn.
  destruct (in_client th) eqn:Hc, (guard th) eqn:Hg; try done. cbn.
  destruct (f (th_rd th)) as [rd pc] eqn:E. intros [= <-].
  apply (inv_local_step mtx_key g t th); [done|done|].
  unfold in_client in Hc. destruct (th_pc th) eqn:Hp; try done.
  specialize (Hf th _ eq_refl Hg Hp). by rewrite E in Hf.
Qed.

Lemma act_ok mtx_key g a g' : inv mtx_key g -> act mtx_key g a = Some g' -> inv mtx_key g'.
Proof.
  intros Hinv. destruct a as [t|t|t|t|t]; cbn [act].
  - destruct (g_thr g !! t) as [[rd pc]|] eqn:Hth; [|done]. cbn.
    destruct (mtx_step mtx_key (g_sh g) rd pc) as [sh' rd' pc'| |] eqn:E; try done.
    intros [= <-]. apply (inv_local_step mtx_key g t (mk_thread rd pc)); [done|done|].
    by eapply mtx_step_ok.
  - apply call_ok; [done|]. intros [rd pc] r Hth Hg [= ->]. cbn in Hg |- *.
    destruct (step_facts mtx_key g t rd Hinv _ Hth) as ((Hid & Ht & Hok & Hat) & Hr & Hd & Hu & Hown & _ & _ & Hlv).
    rewrite Hlv. destruct Hok as [[] Hrd]; [destruct Hrd as (_ & E & _); by rewrite E in Hg|].
    apply local_step_same; [|done| |done]. { show_ok. done. }
    cbn. symmetry. by apply negb_true_iff.
  - apply call_ok; [done|]. intros [rd pc] r Hth Hg [= ->]. cbn in Hg |- *.
    destruct (step_facts mtx_key g t rd Hinv _ Hth) as ((Hid & Ht & Hok & Hat) & Hr & Hd & Hu & Hown & _ & _ & Hlv).
    rewrite Hlv. destruct Hok as [[] Hrd]; [destruct Hrd as (_ & E & _); by rewrite E in Hg|].
    apply local_step_same; [|done| |done].
    { show_ok. split; [|done]. split; [done|]. split; [done|]. split; [lia|].
      split; [done|]. intros _. rewrite wrap_s_small; unfold in_s; lia. }
    cbn. symmetry. by apply negb_true_iff.
  - apply call_ok; [done|]. intros [rd pc] r Hth Hg [= ->]. cbn in Hg |- *.
    destruct (step_facts mtx_key g t rd Hinv _ Hth) as ((Hid & Ht & Hok & Hat) & Hr & Hd & Hu & Hown & _).
    apply local_step_same; try done. show_ok. split; [|done].
    destruct Hok as [[] Hrd]; [done|]. destruct Hrd as [_ Hn]. by rewrite Hn in Hg.
  - apply call_ok; [done|]. intros [rd pc] r Hth Hg [= ->]. cbn in Hg |- *.
    destruct (step_facts mtx_key g t rd Hinv _ Hth) as ((Hid & Ht & Hok & Hat) & Hr & Hd & Hu & Hown & _).
    by apply local_step_same.
Qed.

(** The configurations covered: at most 255 threads with valid ids and room
    for one mutex. *)
Definition good_start (tids : list Z) (max : nat) : Prop :=
  Forall (fun t => 0 < t < 2 ^ 32 - 1) tids /\ (length tids <= 255)%nat /\ (0 < max)%nat.

Lemma start_lookup tids max t th :
  g_thr (start tids max) !! t = Some th -> th = fresh_thread t max /\ t ∈ tids.
Proof.
  unfold start; cbn. intros H. apply elem_of_list_to_map_2, list_elem_of_fmap in H as (t' & [= -> ->] & Hin).
  done.
Qed.

Lemma start_ok mtx_key tids max : good_start tids max -> inv mtx_key (start tids max).
Proof.
  intros (Ht & Hl & Hm).
  assert (Hn : n_registered (g_thr (start tids max)) = 0).
  { unfold n_registered, count_if. rewrite map_empty_filter_2; [done|].
    intros t th Hth%start_lookup. destruct Hth as [-> _]. done. }
  constructor; try done.
  - etrans; [apply size_list_to_map_le|]. by rewrite length_fmap.
  - intros t th Hth%start_lookup. destruct Hth as [-> Hin].
    rewrite Forall_forall in Ht. specialize (Ht t Hin).
    split; [done|]. split; [done|]. split; [|done]. exists false. split; [|done].
    cbn. by rewrite length_replicate.
  - intros t th Hth%start_lookup. destruct Hth as [-> Hin]. cbn.
    rewrite Forall_forall in Ht. specialize (Ht t Hin). split; [done|].
    unfold owner_of. rewrite Z.mod_0_l by lia. lia.
Qed.

Definition reachable (mtx_key : Z) (tids : list Z) (max : nat) (g : global) : Prop :=
  rtc (g_step mtx_key) (start tids max) g.

Lemma reachable_inv mtx_key tids max g :
  good_start tids max -> reachable mtx_key tids max g -> inv mtx_key g.
Proof.
  intros Hs Hr. apply (start_ok mtx_key) in Hs. induction Hr as [|g1 g2 g3 Hst _ IH]; [done|].
  apply IH. destruct Hst. by eapply act_ok.
Qed.

(** A schedule that executes leads to a reachable state. *)
Lemma run_reachable mtx_key tids max l g :
  run mtx_key (start tids max) l = Some g -> reachable mtx_key tids max g.
Proof.
  unfold run, reachable. generalize (start tids max). induction l as [|a l IH]; intros g0; cbn.
  - intros [= ->]. apply rtc_refl.
  - destruct (act mtx_key g0 a) as [g1|] eqn:E.
    + intros H. eapply rtc_l; [by eapply g_act|]. by apply IH.
    + intros H. exfalso. clear -H. induction l; by cbn in H.
Qed.

(** ** Properties of the interleaved mutex *)

(** C1. Mutual exclusion: whatever the interleaving of locks, try-locks,
    unlocks and recoveries of at most 255 threads, at most one thread has the
    mutex, the lock value names it, and no thread writes out of bounds in its
    robust data. *)
Theorem mutex_mutual_exclusion mtx_key tids max g :
  good_start tids max -> reachable mtx_key tids max g ->
  (forall t1 t2 th1 th2,
     g_thr g !! t1 = Some th1 -> g_thr g !! t2 = Some th2 ->
     owns th1 = true -> owns th2 = true -> t1 = t2)
  /\ (forall t th, g_thr g !! t = Some th ->
        owns th = is_thread_mtx_owner (sh_lock (g_sh g)) t)
  /\ (forall t th, g_thr g !! t = Some th ->
        mtx_step mtx_key (g_sh g) (th_rd th) (th_pc th) <> Undefined).
Proof.
  intros Hs Hr. pose proof (reachable_inv _ _ _ _ Hs Hr) as Hinv.
  split; [|split].
  - intros t1 t2 th1 th2 H1 H2 O1 O2.
    apply (inv_owner _ _ Hinv _ _ H1) in O1. apply (inv_owner _ _ Hinv _ _ H2) in O2. congruence.
  - intros t th Hth.
    destruct (map_Forall_lookup_1 _ _ _ _ (inv_threads _ _ Hinv) Hth) as (_ & Hp & _).
    rewrite is_thread_mtx_owner_spec by lia. apply eq_true_iff_eq.
    rewrite Z.eqb_eq. by apply (inv_owner _ _ Hinv).
  - intros t th Hth. by eapply mtx_step_defined, lookup_thread_eta.
Qed.

(** Threads 4 and 8 contend, 4 holds the mutex and 8 sleeps. *)
Definition contended : list action :=
  [CallLock 4; CallLock 8; Exec 4; Exec 8; Exec 4; Exec 8; Exec 8; Exec 8; Exec 8].

Lemma mutex_mutual_exclusion_witness :
  exists g, run 1 (start [4; 8] 2) contended = Some g
    /\ option_map owns (g_thr g !! 4) = Some true
    /\ forall t th, g_thr g !! t = Some th ->
         owns th = is_thread_mtx_owner (sh_lock (g_sh g)) t.
Proof.
  eexists. split; [vm_compute; reflexivity|]. split; [vm_compute; reflexivity|].
  eapply (mutex_mutual_exclusion 1 [4; 8] 2).
  - split; [repeat constructor; lia|]. split; cbn; lia.
  - apply (run_reachable 1 [4; 8] 2 contended). vm_compute. reflexivity.
Defined.

(** C6. Waiter accounting: the waiter count of the lock value is the number of
    threads that registered and did not get the mutex yet; hence an unlock
    asks the referee for a wake-up exactly when such a thread exists. *)
Theorem mutex_waiters_counted mtx_key tids max g :
  good_start tids max -> reachable mtx_key tids max g ->
  mtx_num_waiter (sh_lock (g_sh g)) = n_registered (g_thr g)
  /\ forall t rd uv un,
      g_thr g !! t = Some (mk_thread rd (UnlockSub uv un)) ->
      exists sh',
        mtx_step mtx_key (g_sh g) rd (UnlockSub uv un)
        = Next sh' rd (if decide (0 < n_registered (g_thr g)) then UnlockWake 1 else UnlockFinish)
        /\ owner_of (sh_lock sh') = 0.
Proof.
  intros Hs Hr. pose proof (reachable_inv _ _ _ _ Hs Hr) as Hinv.
  pose proof (inv_nwaiter _ _ Hinv) as Hn.
  split; [by rewrite mtx_num_waiter_spec|].
  intros t rd uv un Hth.
  destruct (step_facts mtx_key g t rd Hinv _ Hth) as ((Hid & Ht & Hok & Hat) & _ & _ & _ & Hown & _).
  destruct Hok as (Hrd & -> & ->). eexists. split.
  - cbn. unfold unlock_sub_step, atomic_fetch_sub. do 2 f_equal.
    rewrite is_mtx_waited_spec, Hn. unfold n_registered, count_if.
    case_decide as Hc; case_test; try done; lia.
  - cbn. destruct Hrd as (_ & Hnl & _). cbn in Hown. rewrite Hnl in Hown.
    pose proof (proj1 Hown eq_refl) as Eo.
    replace (sh_lock (g_sh g) - t) with (sh_lock (g_sh g) + (- t + 0 * 2 ^ 32 + 0 * 2 ^ 41)) by lia.
    pose proof (decode_ok (sh_lock (g_sh g))) as (_ & Hvn & _). cbn in Hvn.
    destruct (low_fields_add (sh_lock (g_sh g)) (- t) 0 0) as (-> & _); lia.
Qed.

Lemma mutex_waiters_counted_witness :
  exists g, run 1 (start [4; 8] 2) (contended ++ [CallUnlock 4; Exec 4]) = Some g
    /\ n_registered (g_thr g) = 1
    /\ mtx_num_waiter (sh_lock (g_sh g)) = n_registered (g_thr g).
Proof.
  eexists. split; [vm_compute; reflexivity|]. split; [vm_compute; reflexivity|].
  eapply (mutex_waiters_counted 1 [4; 8] 2).
  - split; [repeat constructor; lia|]. split; cbn; lia.
  - apply (run_reachable 1 [4; 8] 2 (contended ++ [CallUnlock 4; Exec 4])).
    vm_compute. reflexivity.
Defined.

(** What a thread contributes to the lock value can be found in its robust
    data, so that the referee can undo it if the thread dies: the key of an
    owned mutex is the attempted key or one of the locked keys, the key of a
    mutex it waits for is the attempted key with the waiter mark set, save
    between the registration and the mark, where the thread holds the waiter
    field of the lock value unless another registration replaced it. *)
Theorem robust_data_covers mtx_key tids max g t th :
  good_start tids max -> reachable mtx_key tids max g ->
  g_thr g !! t = Some th ->
  (owns th = true ->
     attempt_key (th_rd th) = mtx_key
     \/ mtx_key ∈ take (Z.to_nat (num_locked (th_rd th))) (locked_keys (th_rd th)))
  /\ (registered th = true ->
      attempt_key (th_rd th) = mtx_key
      /\ (is_waiter (th_rd th) = true \/ exists incval, th_pc th = RegMark incval)).
Proof.
  intros Hs Hr Hth. pose proof (reachable_inv _ _ _ _ Hs Hr) as Hinv.
  destruct (map_Forall_lookup_1 _ _ _ _ (inv_threads _ _ Hinv) Hth) as (_ & _ & Hok & Hat).
  assert (Hin : forall rd, rd_ok mtx_key true rd -> mtx_key ∈ take (Z.to_nat (num_locked rd)) (locked_keys rd)).
  { intros rd (_ & -> & Hk). apply list_elem_of_lookup_2 with 0%nat.
    by rewrite lookup_take_lt by lia. }
  destruct th as [rd pc]; cbn in *. split.
  - intros Ho. destruct pc; try done; auto; cbn in Ho; right; apply Hin; cbn in Hok; try tauto.
    all: destruct Hok as [[] Hok]; [done|]; destruct Hok as [_ E]; by rewrite E in Ho.
  - intros Hreg. destruct pc; try done; cbn in Hreg, Hok; try (destruct notified; [|done]);
      split; try done; try (left; tauto). right. eauto.
Qed.

Lemma robust_data_covers_witness :
  exists g th, run 1 (start [4; 8] 2) contended = Some g
    /\ g_thr g !! 8 = Some th /\ registered th = true
    /\ (registered th = true ->
        attempt_key (th_rd th) = 1
        /\ (is_waiter (th_rd th) = true \/ exists incval, th_pc th = RegMark incval)).
Proof.
  eexists _, _. split; [vm_compute; reflexivity|]. split; [vm_compute; reflexivity|].
  split; [vm_compute; reflexivity|].
  eapply (robust_data_covers 1 [4; 8] 2 _ 8).
  - split; [repeat constructor; lia|]. split; cbn; lia.
  - apply (run_reachable 1 [4; 8] 2 contended). vm_compute. reflexivity.
  - vm_compute. reflexivity.
Defined.

(** ** Limits of the waiter list and of the waiter field *)

(** Two threads that register while the other one is between its registration
    and its release leave a residue in the waiter field. *)
Definition race_schedule : list action :=
  [CallLock 4; Exec 4; Exec 4; CallLock 8; Exec 8; CallLock 12; Exec 12;
   CallUnlock 4; Exec 4; Exec 4; Exec 4;
   Exec 8; Exec 8; Exec 8; Exec 12; Exec 12; Exec 12;
   Exec 8; Exec 12; Exec 8; Exec 12].


(** With 256 waiters the bound of 255 threads is not a convenience: a thread
    that finds the waiter list full retries with the owner still in its
    expected value, and takes a mutex that is held. *)
Definition register_and_sleep (t : Z) : list action :=
  CallLock t :: replicate 5 (Exec t).

Definition crowd : list Z := (fun i => 8 + 4 * Z.of_nat i) <$> seq 0 255.

Definition full_list_schedule : list action :=
  [CallLock 4; Exec 4; Exec 4] ++ mjoin (register_and_sleep <$> crowd)
  ++ register_and_sleep 2000.

Example full_waiter_list_two_owners :
  match run 1 (start (4 :: 2000 :: crowd) 2) full_list_schedule with
  | Some g => (owns <$> g_thr g !! 4, owns <$> g_thr g !! 2000, owner_of (sh_lock (g_sh g)))
  | None => (None, None, 0)
  end = (Some true, Some true, 2004).
Proof. vm_compute. reflexivity. Qed.

(** The keys of the held mutexes are a stack: unlocking another mutex than the
    last locked one leaves the wrong key in the robust data. *)
Example unlock_pops_last_key :
  let rd := mk_robust 4 0 false 2 [10; 20] in
  let rd' := finish_mtx_unlock (start_mtx_operation 10 rd) in
  take (Z.to_nat (num_locked rd')) (locked_keys rd') = [10].
Proof. reflexivity. Qed.

(** One more lock than the referee made room for writes out of bounds. *)
Example too_many_locks :
  finish_mtx_lock (mk_robust 4 30 false 2 [10; 20]) true 0 = None.
Proof. reflexivity. Qed.

(** ** A thread alone in the mutex routines *)

Fixpoint solo (mtx_key : Z) (fuel : nat) (sh : shared) (rd : robust_data) (pc : mtx_pc)
    : option (shared * robust_data * Z) :=
  match pc with
  | Returned ret => Some (sh, rd, ret)
  | _ =>
      match fuel with
      | O => None
      | S f =>
          match mtx_step mtx_key sh rd pc with
          | Next sh' rd' pc' => solo mtx_key f sh' rd' pc'
          | Blocked | Undefined => None
          end
      end
  end.

Lemma solo_S mtx_key f sh rd pc :
  match pc with Returned _ => false | _ => true end = true ->
  solo mtx_key (S f) sh rd pc
  = match mtx_step mtx_key sh rd pc with
    | Next sh' rd' pc' => solo mtx_key f sh' rd' pc'
    | Blocked | Undefined => None
    end.
Proof. by destruct pc. Qed.

(** The robust data after a successful lock. *)
Definition locked_rd (mtx_key : Z) (rd : robust_data) : robust_data :=
  mk_robust (thread_id rd) 0 false (num_locked rd + 1)
    (<[Z.to_nat (num_locked rd) := mtx_key]> (locked_keys rd)).

Lemma solo_finish mtx_key fuel sh rd o :
  0 <= num_locked rd < Z.of_nat (length (locked_keys rd)) ->
  solo mtx_key (S fuel) sh (start_mtx_operation mtx_key rd) (MtxFinish true o)
  = Some (sh, locked_rd mtx_key rd, if is_mtx_ownerdead o then EOWNERDEAD else 0).
Proof.
  intros H. cbn. rewrite decide_True by done. by destruct fuel.
Qed.

(** Taking the mutex by the exchange in [pshared_mtx_lock] or
    [pshared_mtx_trylock] keeps all but the owner. *)
Lemma acquire_fields v t n :
  0 < t < 2 ^ 32 -> owner_of v = 0 -> 0 <= nwaiter_of v + n < 256 ->
  let v' := s64 (v + s64 (t + n * 2 ^ 32)) in
  owner_of v' = t /\ nwaiter_of v' = nwaiter_of v + n /\ recover_of v' = recover_of v.
Proof.
  intros Ht Ho Hn v'. unfold v'. rewrite s64_add_r.
  replace (v + (t + n * 2 ^ 32)) with (v + (t + n * 2 ^ 32 + 0 * 2 ^ 41)) by lia.
  destruct (low_fields_add v t n 0) as (-> & -> & ->); [lia|lia|]. split; [lia|done].
Qed.

Section Solo.
Context (mtx_key : Z) (sh : shared) (rd : robust_data).
Let v := sh_lock sh.
Let t := thread_id rd.
Context (Ht : 0 < t < 2 ^ 32 - 1).
Context (Hroom : 0 <= num_locked rd < Z.of_nat (length (locked_keys rd))).

Lemma free_not_unrecoverable : owner_of v = 0 -> is_mtx_unrecoverable v = false.
Proof. intros H. rewrite is_mtx_unrecoverable_spec, H. by rewrite andb_false_r. Qed.

(** Registering as waiter of a free mutex and taking it. *)
Lemma solo_register :
  owner_of v = 0 -> nwaiter_of v < 255 ->
  exists sh',
    solo mtx_key 5 sh (start_mtx_operation mtx_key rd) (RegCas v t)
    = Some (sh', locked_rd mtx_key rd, if is_mtx_ownerdead v then EOWNERDEAD else 0)
    /\ sh_wakes sh' = sh_wakes sh
    /\ owner_of (sh_lock sh') = t /\ nwaiter_of (sh_lock sh') = nwaiter_of v
    /\ recover_of (sh_lock sh') = recover_of v.
Proof.
  intros Ho Hn. pose proof (decode_ok v) as (_ & Hnv & Hrv & _). cbn in Hnv, Hrv.
  set (v1 := s64 (v + (0 + 1 * 2 ^ 32 + (t - wtid_of v) * 2 ^ 41))).
  destruct (low_fields_add v 0 1 (t - wtid_of v) ltac:(lia) ltac:(lia)) as (O1 & N1 & R1).
  set (v2 := nwaiter_of v * 2 ^ 32 + 2 ^ 32 + recover_of v * 2 ^ 40).
  assert (E2 : s64 (v1 - mtx_lockval 0 t 0) = v2).
  { unfold v1. rewrite (mtx_lockval_sum 0 t 0), s64_sub_r by (unfold t in *; lia).
    replace (s64 (v + _) - _) with (s64 (v + (0 + 1 * 2 ^ 32 + (t - wtid_of v) * 2 ^ 41)) + (- (t * 2 ^ 41))) by lia.
    rewrite s64_add_l. destruct (sum_of_fields v) as [k Hk].
    replace (v + _ + _) with (v2 + k * 2 ^ 64) by (unfold v2; lia).
    unfold wrap_s. replace (v2 + k * 2 ^ 64 + 2 ^ (64 - 1)) with (v2 + 2 ^ (64 - 1) + k * 2 ^ 64) by lia.
    rewrite Z.mod_add by lia. rewrite Z.mod_small; unfold v2; lia. }
  assert (F2 : decode v2 = mk_fields 0 (nwaiter_of v + 1) (recover_of v) 0).
  { rewrite <- (fields_of_sum 0 (nwaiter_of v + 1) (recover_of v) 0 0).
    - f_equal. unfold v2. lia.
    - unfold fields_ok; cbn. lia. }
  pose proof F2 as F2'. unfold decode in F2'. injection F2' as Eo2 En2 Er2 Ew2.
  assert (E3 : Z.land (s64 (Z.land (Z.lnot MTX_WAITER_TID_MASK) v1)) (Z.lnot MTX_OWNER_TID_MASK) = v2).
  { rewrite wtid_cleared. fold v1 in O1, N1, R1. rewrite O1, N1, R1, land_lnot, land_owner.
    replace (owner_of v + 0 + (nwaiter_of v + 1) * 2 ^ 32 + recover_of v * 2 ^ 40) with v2 by (unfold v2; lia).
    rewrite Eo2. lia. }
  cbn [solo mtx_step]. unfold register_waiter_in_mtx.
  rewrite is_mtx_waiterlist_full_spec, (proj2 (Z.eqb_neq _ _)) by lia.
  rewrite cas_split. fold v. rewrite decide_True by done.
  cbn [solo mtx_step]. unfold register_release_step, atomic_fetch_sub.
  cbn [sh_lock sh_wakes thread_id set_is_waiter start_mtx_operation set_attempt_key]. fold t.
  assert (E1 : s64 (Z.land v (Z.lnot MTX_WAITER_TID_MASK) + mtx_lockval 0 t 1) = v1).
  { rewrite mtx_lockval_sum, s64_add_r, land_lnot, land_wtid by (unfold t in *; lia).
    unfold v1. f_equal. lia. }
  rewrite E1, E2, E3.
  cbn [solo mtx_step]. unfold lock_cas_step. rewrite cas_split. cbn [sh_lock sh_wakes].
  rewrite decide_True by done. cbn [solo].
  change (mtx_lockval 0 0 1) with (2 ^ 32).
  destruct (acquire_fields v2 t (-1) ltac:(lia) Eo2 ltac:(lia)) as (A1 & A2 & A3).
  replace (t + -1 * 2 ^ 32) with (t - 2 ^ 32) in A1, A2, A3 by lia.
  exists (mk_shared (s64 (v2 + s64 (t - 2 ^ 32))) (sh_wakes sh)). cbn [sh_lock sh_wakes].
  split; [|split; [done|split; [exact A1|split; [rewrite A2; lia|by rewrite A3]]]].
  cbn. rewrite decide_True by done. rewrite !is_mtx_ownerdead_spec, Er2. reflexivity.
Qed.
End Solo.

(** A thread alone with a free mutex gets it in at most six shared
    accesses, whatever the number of sleeping waiters and the residue in the
    waiter field: the owner becomes the calling thread, the waiter count and
    the need-recover bit are kept, the key is pushed on the locked keys, and
    the result is [EOWNERDEAD] exactly if the previous owner died.  Try-lock
    gives the same result. *)
Theorem free_mutex_is_taken mtx_key sh rd :
  let v := sh_lock sh in
  let t := thread_id rd in
  0 < t < 2 ^ 32 - 1 ->
  is_mtx_locked v = false -> is_mtx_waiterlist_full v = false ->
  0 <= num_locked rd < Z.of_nat (length (locked_keys rd)) ->
  forall routine, routine = pshared_mtx_lock mtx_key \/ routine = pshared_mtx_trylock mtx_key ->
  exists sh',
    solo mtx_key 6 sh (fst (routine rd)) (snd (routine rd))
    = Some (sh', locked_rd mtx_key rd, if is_mtx_ownerdead v then EOWNERDEAD else 0)
    /\ sh_wakes sh' = sh_wakes sh
    /\ owner_of (sh_lock sh') = t
    /\ mtx_num_waiter (sh_lock sh') = mtx_num_waiter v
    /\ is_mtx_ownerdead (sh_lock sh') = is_mtx_ownerdead v.
Proof.
  intros v t Ht Hl Hf Hroom routine Hr.
  rewrite is_mtx_locked_spec in Hl. rewrite is_mtx_waiterlist_full_spec in Hf.
  pose proof (decode_ok v) as (_ & Hnv & Hrv & _). cbn in Hnv, Hrv. zbool.
  assert (Hu := free_not_unrecoverable sh Hl). fold v in Hu.
  assert (Hlv : mtx_lockval t 0 0 = t) by (apply mtx_lockval_owner; lia).
  setoid_rewrite mtx_num_waiter_spec. setoid_rewrite is_mtx_ownerdead_spec.
  destruct (acquire_fields v t 0 ltac:(lia) Hl ltac:(lia)) as (A1 & A2 & A3).
  replace (s64 (v + s64 (t + 0 * 2 ^ 32))) with (s64 (v + t)) in A1, A2, A3
    by (rewrite s64_add_r; f_equal; lia).
  destruct Hr as [-> | ->].
  - unfold pshared_mtx_lock. cbn [fst snd]. rewrite solo_S by done.
    cbn [mtx_step thread_id]. unfold lock_cas_step.
    fold t. rewrite Hlv, cas_split. fold v.
    destruct (decide (0 = v)) as [E|E].
    + rewrite solo_finish, is_mtx_ownerdead_spec by done.
      replace (s64 (v + t)) with (s64 (0 + t)) in A1, A2, A3 by (f_equal; lia).
      exists (mk_shared (s64 (0 + t)) (sh_wakes sh)). split; [reflexivity|].
      split; [reflexivity|]. split; [exact A1|]. split; [cbn; lia|by cbn; rewrite A3].
    + rewrite Hu. cbn [negb].
      destruct (solo_register mtx_key (mk_shared v (sh_wakes sh)) rd Ht Hroom Hl ltac:(cbn; lia))
        as (sh' & E' & W & O & N & R).
      rewrite is_mtx_ownerdead_spec in E'. exists sh'. split; [exact E'|].
      split; [exact W|]. split; [exact O|]. split; [exact N|]. by rewrite R.
  - unfold pshared_mtx_trylock. cbn [fst snd]. rewrite solo_S by done.
    cbn [mtx_step thread_id]. unfold trylock_step.
    fold t. rewrite Hlv, cas_split. fold v. change (0 <? 2) with true. cbv iota.
    destruct (decide (0 = v)) as [E|E].
    + replace (s64 (v + t)) with t in A1, A2, A3.
      2:{ rewrite wrap_s_small; unfold in_s; lia. }
      rewrite solo_finish, is_mtx_ownerdead_spec by done.
      exists (mk_shared t (sh_wakes sh)). split; [reflexivity|].
      split; [reflexivity|]. split; [exact A1|]. split; [cbn; lia|by cbn; rewrite A3].
    + rewrite Hu, solo_S by done. cbn [mtx_step]. unfold trylock_step.
      rewrite cas_split. cbn [sh_lock sh_wakes].
      rewrite land_lnot, land_owner, Hl, Z.sub_0_r. rewrite decide_True by done.
      change (0 + 1 <? 2) with true. cbv iota.
      rewrite (Z.add_comm t v), solo_finish, is_mtx_ownerdead_spec by done.
      exists (mk_shared (s64 (v + t)) (sh_wakes sh)). split; [reflexivity|].
      split; [reflexivity|]. split; [exact A1|]. split; [cbn; lia|by cbn; rewrite A3].
Qed.

(** Two waiters sleep on a mutex whose owner died. *)
Lemma free_mutex_is_taken_witness :
  exists sh',
    solo 7 6 (mk_shared (2 * 2 ^ 32 + 2 ^ 40) 0)
      (start_mtx_operation 7 (mk_robust 4 0 false 0 [0; 0])) (LockCas 0 4 false)
    = Some (sh', mk_robust 4 0 false 1 [7; 0], EOWNERDEAD)
    /\ owner_of (sh_lock sh') = 4.
Proof.
  destruct (free_mutex_is_taken 7 (mk_shared (2 * 2 ^ 32 + 2 ^ 40) 0)
              (mk_robust 4 0 false 0 [0; 0])) with (routine := pshared_mtx_lock 7)
    as (sh' & E & _ & O & _).
  - cbn. lia.
  - reflexivity.
  - reflexivity.
  - cbn. lia.
  - by left.
  - exists sh'. split; [exact E|exact O].
Defined.

(** The robust data after a lock that did not succeed. *)
Definition released_rd (rd : robust_data) : robust_data :=
  mk_robust (thread_id rd) 0 false (num_locked rd) (locked_keys rd).

(** A mutex that cannot be taken is left alone: try-lock returns [EBUSY] on
    a held mutex, lock and try-lock return [ENOTRECOVERABLE] on a mutex marked
    unusable; the lock value is unchanged and the robust data keep no trace of
    the attempt. *)
Theorem unavailable_mutex_refused mtx_key sh rd :
  let v := sh_lock sh in
  is_mtx_locked v = true ->
  (is_mtx_unrecoverable v = false ->
     solo mtx_key 4 sh (fst (pshared_mtx_trylock mtx_key rd)) (snd (pshared_mtx_trylock mtx_key rd))
     = Some (sh, released_rd rd, EBUSY))
  /\ (is_mtx_unrecoverable v = true ->
      forall routine, routine = pshared_mtx_lock mtx_key \/ routine = pshared_mtx_trylock mtx_key ->
      solo mtx_key 1 sh (fst (routine rd)) (snd (routine rd))
      = Some (sh, released_rd rd, ENOTRECOVERABLE)).
Proof.
  intros v Hl. rewrite is_mtx_locked_spec in Hl. zbool.
  assert (Hz : 0 <> v) by (intros E; apply Hl; by rewrite <- E).
  assert (Esh : mk_shared v (sh_wakes sh) = sh) by by destruct sh.
  split.
  - intros Hu. unfold pshared_mtx_trylock. cbn [fst snd].
    rewrite solo_S by done. cbn [mtx_step]. unfold trylock_step. rewrite cas_split. fold v.
    change (0 <? 2) with true. cbv iota. rewrite decide_False by done. rewrite Hu, Esh.
    rewrite solo_S by done. cbn [mtx_step]. unfold trylock_step. rewrite cas_split. fold v.
    change (0 + 1 <? 2) with true. cbv iota.
    rewrite decide_False by (rewrite land_lnot, land_owner; lia). rewrite Hu, Esh.
    rewrite solo_S by done. cbn [mtx_step]. unfold trylock_step.
    change (0 + 1 + 1 <? 2) with false. cbv iota.
    rewrite solo_S by done. reflexivity.
  - intros Hu routine [-> | ->]; cbn [fst snd pshared_mtx_lock pshared_mtx_trylock];
      rewrite solo_S by done; cbn [mtx_step].
    + unfold lock_cas_step. rewrite cas_split. fold v. rewrite decide_False by done.
      by rewrite Hu, Esh.
    + unfold trylock_step. rewrite cas_split. fold v. change (0 <? 2) with true. cbv iota.
      rewrite decide_False by done. by rewrite Hu, Esh.
Qed.

Lemma unavailable_mutex_refused_witness :
  solo 7 4 (mk_shared (8 + 2 ^ 32) 0) (mk_robust 4 7 false 0 [0; 0]) (TryCas 0 0 4)
  = Some (mk_shared (8 + 2 ^ 32) 0, mk_robust 4 0 false 0 [0; 0], EBUSY).
Proof.
  apply (unavailable_mutex_refused 7 (mk_shared (8 + 2 ^ 32) 0) (mk_robust 4 0 false 0 [0; 0])).
  - reflexivity.
  - reflexivity.
Defined.

Lemma unlock_alone mtx_key sh rd :
  let v := sh_lock sh in
  let t := thread_id rd in
  0 < t < 2 ^ 32 - 1 ->
  is_thread_mtx_owner v t = true ->
  exists sh',
    solo mtx_key 4 sh (fst (pshared_mtx_unlock rd)) (snd (pshared_mtx_unlock rd))
    = Some (sh', finish_mtx_unlock (start_mtx_operation mtx_key rd), 0)
    /\ mtx_num_waiter (sh_lock sh') = mtx_num_waiter v
    /\ is_mtx_ownerdead (sh_lock sh') = is_mtx_ownerdead v
    /\ if is_mtx_ownerdead v
       then is_mtx_unrecoverable (sh_lock sh') = true
            /\ sh_wakes sh' = sh_wakes sh + mtx_num_waiter v
       else is_mtx_locked (sh_lock sh') = false
            /\ sh_wakes sh' = sh_wakes sh + (if is_mtx_waited v then 1 else 0).
Proof.
  intros v t Ht Ho. rewrite is_thread_mtx_owner_spec in Ho by lia. zbool.
  pose proof (decode_ok v) as (_ & Hnv & Hrv & Hwv). cbn in Hnv, Hrv, Hwv.
  assert (Hlv : mtx_lockval t 0 0 = t) by (apply mtx_lockval_owner; lia).
  setoid_rewrite is_mtx_unrecoverable_spec. setoid_rewrite is_mtx_locked_spec.
  setoid_rewrite mtx_num_waiter_spec. setoid_rewrite is_mtx_waited_spec.
  setoid_rewrite is_mtx_ownerdead_spec.
  set (o := if recover_of v =? 1 then 2 ^ 32 - 1 - t else - t).
  assert (0 <= owner_of v + o < 2 ^ 32) as Hb by (unfold o; case_match; lia).
  destruct (low_fields_add v o 0 0 Hb ltac:(lia)) as (A1 & A2 & A3).
  set (v' := s64 (v + (o + 0 * 2 ^ 32 + 0 * 2 ^ 41))) in *.
  exists (mk_shared v' (sh_wakes sh
    + if nwaiter_of v =? 0 then 0 else if recover_of v =? 1 then nwaiter_of v else 1)).
  cbn [sh_lock sh_wakes]. rewrite A1, A2, A3.
  split; [|split; [lia|split; [done|]]].
  - cbn [fst snd pshared_mtx_unlock]. rewrite solo_S by done. cbn [mtx_step].
    unfold unlock_load_step. fold t. rewrite Hlv. fold v. rewrite is_mtx_ownerdead_spec.
    rewrite solo_S by done. cbn [mtx_step]. unfold unlock_sub_step, atomic_fetch_sub.
    fold v. rewrite is_mtx_waited_spec, mtx_num_waiter_spec.
    assert (Ev : s64 (v - (if recover_of v =? 1 then s64 (t - MTX_OWNER_TID_MASK) else t)) = v').
    { unfold v', o. destruct (recover_of v =? 1).
      - rewrite s64_sub_r. f_equal. unfold MTX_OWNER_TID_MASK. lia.
      - f_equal. lia. }
    rewrite Ev. destruct (nwaiter_of v =? 0); cbn [negb].
    + rewrite solo_S by done. cbn. by rewrite Z.add_0_r.
    + rewrite solo_S by done. cbn [mtx_step]. rewrite solo_S by done. reflexivity.
  - unfold o. destruct (Z.eqb_spec (recover_of v) 1); cbn [andb].
    + split; [apply Z.eqb_eq; lia|]. case_test; lia.
    + split; [apply negb_false_iff, Z.eqb_eq; lia|]. by destruct (nwaiter_of v =? 0).
Qed.

Lemma consistent_alone mtx_key sh rd :
  let v := sh_lock sh in
  exists sh' ret,
    solo mtx_key 2 sh (fst (pshared_mtx_consistent rd)) (snd (pshared_mtx_consistent rd))
    = Some (sh', rd, ret)
    /\ sh_wakes sh' = sh_wakes sh
    /\ if is_mtx_ownerdead v
       then ret = 0 /\ decode (sh_lock sh') = mk_fields (owner_of v) (nwaiter_of v) 0 (wtid_of v)
       else ret = EINVAL /\ sh' = sh.
Proof.
  intros v. pose proof (decode_ok v) as (Hov & Hnv & Hrv & Hwv). cbn in Hov, Hnv, Hrv, Hwv.
  assert (Esh : mk_shared v (sh_wakes sh) = sh) by by destruct sh.
  setoid_rewrite is_mtx_ownerdead_spec.
  cbn [fst snd pshared_mtx_consistent]. rewrite solo_S by done. cbn [mtx_step].
  unfold consistent_load_step. fold v. rewrite is_mtx_ownerdead_spec.
  destruct (Z.eqb_spec (recover_of v) 1) as [E|E].
  - rewrite solo_S by done. cbn [mtx_step]. eexists _, _.
    split; [reflexivity|]. split; [reflexivity|]. split; [reflexivity|].
    cbn [sh_lock]. unfold atomic_fetch_sub. cbn [snd]. fold v.
    replace (v - MTX_NEED_RECOVER_MASK)
      with (v + (0 + 0 * 2 ^ 32 + -1 * 2 ^ 40 + 0 * 2 ^ 41))
      by (unfold MTX_NEED_RECOVER_MASK; lia).
    rewrite decode_add; [rewrite E; f_equal; lia|].
    unfold fields_ok; cbn [f_owner f_nwaiter f_recover f_wtid]. lia.
  - exists sh, EINVAL. done.
Qed.

(** C16. Unlocking by the owner: the owner field is freed, the waiters are kept
    and one is woken if there is any.  If the previous owner died and the state
    was not made consistent, the mutex becomes unusable and all the waiters are
    woken.  [pshared_mtx_consistent] clears the need-recover bit and nothing
    else, or fails with [EINVAL] if it is not set. *)
Theorem unlock_and_recover mtx_key sh rd :
  let v := sh_lock sh in
  let t := thread_id rd in
  0 < t < 2 ^ 32 - 1 ->
  is_thread_mtx_owner v t = true ->
  (exists sh',
     solo mtx_key 4 sh (fst (pshared_mtx_unlock rd)) (snd (pshared_mtx_unlock rd))
     = Some (sh', finish_mtx_unlock (start_mtx_operation mtx_key rd), 0)
     /\ mtx_num_waiter (sh_lock sh') = mtx_num_waiter v
     /\ is_mtx_ownerdead (sh_lock sh') = is_mtx_ownerdead v
     /\ if is_mtx_ownerdead v
        then is_mtx_unrecoverable (sh_lock sh') = true
             /\ sh_wakes sh' = sh_wakes sh + mtx_num_waiter v
        else is_mtx_locked (sh_lock sh') = false
             /\ sh_wakes sh' = sh_wakes sh + (if is_mtx_waited v then 1 else 0))
  /\ (exists sh' ret,
        solo mtx_key 2 sh (fst (pshared_mtx_consistent rd)) (snd (pshared_mtx_consistent rd))
        = Some (sh', rd, ret)
        /\ sh_wakes sh' = sh_wakes sh
        /\ if is_mtx_ownerdead v
           then ret = 0 /\ decode (sh_lock sh')
                           = mk_fields (owner_of v) (nwaiter_of v) 0 (wtid_of v)
           else ret = EINVAL /\ sh' = sh).
Proof.
  intros v t Ht Ho. split; [by apply unlock_alone|by apply consistent_alone].
Qed.

Lemma unlock_and_recover_witness :
  exists sh',
    solo 7 4 (mk_shared (4 + 3 * 2 ^ 32 + 2 ^ 40) 0) (mk_robust 4 0 false 1 [7; 0]) UnlockLoad
    = Some (sh', mk_robust 4 0 false 0 [7; 0], 0)
    /\ is_mtx_unrecoverable (sh_lock sh') = true /\ sh_wakes sh' = 3.
Proof.
  destruct (unlock_and_recover 7 (mk_shared (4 + 3 * 2 ^ 32 + 2 ^ 40) 0)
              (mk_robust 4 0 false 1 [7; 0])) as [(sh' & E & _ & _ & H) _].
  - cbn. lia.
  - reflexivity.
  - exists sh'. split; [exact E|exact H].
Defined.
