(* ===== verification/Threads.v ===== *)
(** * Threads, condition variables and once routines

    The rest of [thread-win32.c]: dispatch of the exported functions between
    the process-shared and the native implementation, process-shared condition
    variables, timed wait, [mm_thr_once] and the life of [struct mm_thread].
    The native SRW locks and condition variables of Windows are not part of
    the program: their calls are values ([srw_call]) or parameters. *)

From stdpp Require Import functions.
From S2P Require Import Prelude Time MutexVal PsharedMutex.

Definition MM_THR_PSHARED : Z := 1.
Definition MM_THR_WAIT_MONOTONIC : Z := 2.
Definition WAITCLK_FLAG_MONOTONIC : Z := Z.shiftl MM_THR_PSHARED 1.
Definition WAITCLK_FLAG_REALTIME : Z := Z.shiftl MM_THR_PSHARED 2.
Definition WAITCLK_MASK : Z := Z.lor WAITCLK_FLAG_MONOTONIC WAITCLK_FLAG_REALTIME.

(** ** Dispatch on the kind of mutex *)

Definition mm_thr_mutex_is_pshared (flag : Z) : bool :=
  Z.land flag MM_THR_PSHARED =? MM_THR_PSHARED.

Definition mm_thr_cond_is_pshared (flag : Z) : bool :=
  Z.land flag MM_THR_PSHARED =? MM_THR_PSHARED.

Inductive srw_call :=
| AcquireSRWLockExclusive | TryAcquireSRWLockExclusive | ReleaseSRWLockExclusive
| InitializeSRWLock.

(** What an exported mutex function does: a process-shared routine, a native
    call followed by a return value, or an immediate error. *)
Inductive mutex_call :=
| Pshared (routine : robust_data -> robust_data * mtx_pc)
| PsharedInit
| Srw (c : srw_call) (ret : Z)
| Fails (err : Z).

Section Dispatch.
Variable mtx_key : Z.

Definition mm_thr_mutex_lock (flag : Z) : mutex_call :=
  if mm_thr_mutex_is_pshared flag then Pshared (pshared_mtx_lock mtx_key)
  else Srw AcquireSRWLockExclusive 0.

Definition mm_thr_mutex_trylock (flag : Z) : mutex_call :=
  if mm_thr_mutex_is_pshared flag then Pshared (pshared_mtx_trylock mtx_key)
  else Srw TryAcquireSRWLockExclusive 0.

Definition mm_thr_mutex_consistent (flag : Z) : mutex_call :=
  if mm_thr_mutex_is_pshared flag then Pshared pshared_mtx_consistent
  else Fails EINVAL.

Definition mm_thr_mutex_unlock (flag : Z) : mutex_call :=
  if mm_thr_mutex_is_pshared flag then Pshared pshared_mtx_unlock
  else Srw ReleaseSRWLockExclusive 0.

Definition mm_thr_mutex_init (flags : Z) : mutex_call :=
  if mm_thr_mutex_is_pshared flags then PsharedInit else Srw InitializeSRWLock 0.
End Dispatch.

(** [pshared_mtx_init]: the lock value and key of the initialized mutex. *)
Definition pshared_mtx_init (new_key : Z) : Z * Z := (0, new_key).

(** ** Process-shared condition variables *)

Record cond := mk_cond { pshared_key : Z; waiter_seq : Z; wakeup_seq : Z }.

(** A request to the lock referee. *)
Inductive request :=
| ReqWait (key wakeup_val clk_flags : Z) (timeout : option mm_timespec)
| ReqWake (key val num_wakeup : Z).

(** [pshared_cond_wait] up to the wait request: the wakeup value is taken while
    the mutex is still held. *)
Definition pshared_cond_wait_start (c : cond) (abstime : option mm_timespec) : cond * request :=
  let '(wakeup_val, waiter_seq') := atomic_fetch_add (waiter_seq c) 1 in
  (mk_cond (pshared_key c) waiter_seq' (wakeup_seq c),
   ReqWait (pshared_key c) wakeup_val
     (match abstime with Some _ => WAITCLK_FLAG_REALTIME | None => 0 end) abstime).

(** Its result, from those of the wait and of the lock of the mutex. *)
Definition pshared_cond_wait_ret (abstime : option mm_timespec) (wait_ret lock_ret : Z) : Z :=
  match abstime with
  | Some _ => if lock_ret =? 0 then wait_ret else lock_ret
  | None => lock_ret
  end.

Definition pshared_cond_signal (c : cond) : cond * option request :=
  let num_waiter := s64 (waiter_seq c - wakeup_seq c) in
  if num_waiter <=? 0 then (c, None)
  else
    let '(wakeup_val, wakeup_seq') := atomic_fetch_add (wakeup_seq c) 1 in
    (mk_cond (pshared_key c) (waiter_seq c) wakeup_seq',
     Some (ReqWake (pshared_key c) wakeup_val 1)).

(** The number of wake-ups is passed as an [int]. *)
Definition pshared_cond_broadcast (c : cond) : cond * option request :=
  let num_waiter := s64 (waiter_seq c - wakeup_seq c) in
  if num_waiter <=? 0 then (c, None)
  else
    let '(prev, wakeup_seq') := atomic_fetch_add (wakeup_seq c) num_waiter in
    let wakeup_val := s64 (prev + (num_waiter - 1)) in
    (mk_cond (pshared_key c) (waiter_seq c) wakeup_seq',
     Some (ReqWake (pshared_key c) wakeup_val (s32 num_waiter))).

(** Only the key is set: the two counters keep what the memory held. *)
Definition pshared_cond_init (new_key : Z) (memory : cond) : cond :=
  mk_cond new_key (waiter_seq memory) (wakeup_seq memory).

Definition cond_init_flag (flags : Z) : Z :=
  Z.lor (Z.land flags (Z.lnot WAITCLK_MASK))
        (if negb (Z.land flags MM_THR_WAIT_MONOTONIC =? 0)
         then WAITCLK_FLAG_MONOTONIC else WAITCLK_FLAG_REALTIME).

Definition mm_thr_cond_init (flags new_key : Z) (memory : cond) : Z * cond :=
  (cond_init_flag flags,
   if negb (Z.land flags MM_THR_PSHARED =? 0) then pshared_cond_init new_key memory else memory).

Inductive cond_op := OpWait | OpSignal | OpBroadcast.

Definition cond_step (c : cond) (op : cond_op) : cond * option request :=
  match op with
  | OpWait => let '(c', r) := pshared_cond_wait_start c None in (c', Some r)
  | OpSignal => pshared_cond_signal c
  | OpBroadcast => pshared_cond_broadcast c
  end.

(** A sequence of operations, with the requests sent to the referee. *)
Fixpoint cond_run (c : cond) (ops : list cond_op) : cond * list request :=
  match ops with
  | [] => (c, [])
  | op :: ops' =>
      let '(c1, r) := cond_step c op in
      let '(c2, rs) := cond_run c1 ops' in
      (c2, match r with Some r => r :: rs | None => rs end)
  end.

(** ** Timed wait on a native condition variable *)

Section TimedWait.
(** The clock read and the result of the sleep at each turn: 0, [EINVAL] or
    [ETIMEDOUT] as [sleep_win32cv] maps them. *)
Variable now : nat -> mm_timespec.
Variable sleep_win32cv : nat -> Z -> Z.

Definition NS_IN_MS : Z := 1000000.

Fixpoint timedwait_loop (fuel i : nat) (abstime : mm_timespec) : option Z :=
  match fuel with
  | O => None
  | S fuel' =>
      delta_ns ← mm_timediff_ns abstime (now i);
      if delta_ns <? 0 then Some ETIMEDOUT
      else
        let timeout_ms := u32 (Z.quot delta_ns NS_IN_MS) in
        let ret := sleep_win32cv i timeout_ms in
        if ret =? ETIMEDOUT then timedwait_loop fuel' (S i) abstime else Some ret
  end.
End TimedWait.

(** [sleep_win32cv]: mapping of the result of the system call. *)
Definition sleep_ret (res last_error_is_timeout : bool) : Z :=
  if res then 0 else if last_error_is_timeout then ETIMEDOUT else EINVAL.

(** ** One-time initialization

    One step per access to the shared data of [once_run_init]; the routine
    itself is one step. *)

Record once_state := mk_once {
  once_set : bool;           (* *once <> MM_THR_ONCE_INIT *)
  lock_held : bool;          (* once_global_lock *)
  lock_owner : Z;            (* global_lock_owner *)
  recursion_level : Z;       (* global_lock_recursion_level *)
  routine_runs : nat         (* executions of once_routine that returned *)
}.

Inductive once_pc :=
| OnceCheck | OnceOwner | OnceAcquire | OnceLevel | OnceTest | OnceRoutine | OnceUnlock | OnceReturned.

Definition once_run_init (tid : Z) (s : once_state) (pc : once_pc) : option (once_state * once_pc) :=
  match pc with
  | OnceOwner => Some (s, if negb (lock_owner s =? tid) then OnceAcquire else OnceLevel)
  | OnceAcquire =>
      if lock_held s then None
      else Some (mk_once (once_set s) true tid (recursion_level s) (routine_runs s), OnceLevel)
  | OnceLevel =>
      Some (mk_once (once_set s) (lock_held s) (lock_owner s) (recursion_level s + 1)
              (routine_runs s), OnceTest)
  | OnceTest =>
      if once_set s then Some (s, OnceUnlock)
      else Some (mk_once true (lock_held s) (lock_owner s) (recursion_level s) (routine_runs s),
                 OnceRoutine)
  | OnceRoutine =>
      Some (mk_once (once_set s) (lock_held s) (lock_owner s) (recursion_level s)
              (S (routine_runs s)), OnceUnlock)
  | OnceUnlock =>
      let level := recursion_level s - 1 in
      Some (if level =? 0 then mk_once (once_set s) false 0 level (routine_runs s)
            else mk_once (once_set s) (lock_held s) (lock_owner s) level (routine_runs s),
            OnceReturned)
  | OnceCheck | OnceReturned => None
  end.

Definition mm_thr_once (tid : Z) (s : once_state) (pc : once_pc) : option (once_state * once_pc) :=
  match pc with
  | OnceCheck => Some (s, if once_set s then OnceReturned else OnceOwner)
  | OnceReturned => None
  | _ => once_run_init tid s pc
  end.

Record once_global := mk_once_global { o_state : once_state; o_pcs : Z -> once_pc }.

Definition once_start : once_global :=
  mk_once_global (mk_once false false 0 0 0) (fun _ => OnceCheck).

Inductive once_step (g : once_global) : once_global -> Prop :=
| once_exec t s' pc' :
    t <> 0 -> mm_thr_once t (o_state g) (o_pcs g t) = Some (s', pc') ->
    once_step g (mk_once_global s' (<[t := pc']> (o_pcs g))).

(** ** The life of [struct mm_thread] *)

Definition STATE_STOPPED : Z := 1.
Definition STATE_DETACHED : Z := 2.

Record mm_thread := mk_mm_thread { retval : Z; state : Z }.

Definition create_mm_thread_data : mm_thread := mk_mm_thread 0 STATE_DETACHED.

Definition mm_thr_create : mm_thread :=
  mk_mm_thread 0 (Z.land (state create_mm_thread_data) (Z.lnot STATE_DETACHED)).

(** The memory of the structure: [Some (Some th)] while allocated,
    [Some None] once freed; [None] as result is an access after it was freed. *)
Definition thread_mem := option mm_thread.

(** [thread_proc_wrapper], then [thread_local_data_on_exit]. *)
Definition thread_proc_wrapper (ret : Z) (m : thread_mem) : option thread_mem :=
  th ← m; Some (Some (mk_mm_thread ret (state th))).

Definition thread_local_data_on_exit (m : thread_mem) : option thread_mem :=
  th ← m;
  let '(prev_state, state') := atomic_fetch_add (state th) STATE_STOPPED in
  if negb (Z.land prev_state STATE_DETACHED =? 0) then Some None
  else Some (Some (mk_mm_thread (retval th) state')).

(** The wait ends when the thread is over: the caller provides the memory as
    the thread left it. *)
Definition mm_thr_join (m_before m_after : thread_mem) : option (thread_mem * Z * option Z) :=
  th ← m_before;
  if negb (Z.land (state th) STATE_DETACHED =? 0) then Some (m_before, EINVAL, None)
  else th' ← m_after; Some (None, 0, Some (retval th')).

Definition mm_thr_detach (m : thread_mem) : option (thread_mem * Z) :=
  th ← m;
  let '(prev_state, state') := atomic_fetch_add (state th) STATE_DETACHED in
  if negb (Z.land prev_state STATE_DETACHED =? 0) then
    Some (Some (mk_mm_thread (retval th) state'), EINVAL)
  else if negb (Z.land prev_state STATE_STOPPED =? 0) then Some (None, 0)
  else Some (Some (mk_mm_thread (retval th) state'), 0).

Inductive life_event := EvEnd (ret : Z) | EvDetach | EvJoin.

(** The end of the thread is the return of its routine and the cleanup of its
    thread-local data, a join starts before the end of the thread or after. *)
Definition life_step (m : thread_mem) (e : life_event) : option thread_mem :=
  match e with
  | EvEnd ret => m1 ← thread_proc_wrapper ret m; thread_local_data_on_exit m1
  | EvDetach => p ← mm_thr_detach m; Some (fst p)
  | EvJoin => p ← mm_thr_join m m; Some (fst (fst p))
  end.

Definition life (l : list life_event) : option thread_mem :=
  fold_left (fun om e => m ← om; life_step m e) l (Some (Some mm_thr_create)).

(** ** Lemmas and properties *)

(** The wakeup values of the waits requested, in order. *)
Definition wait_values (rs : list request) : list Z :=
  omap (fun r => match r with ReqWait _ v _ _ => Some v | _ => None end) rs.

(** The wakeup values covered by the wake requests, in order: a request for
    [n] wake-ups at value [v] is meant for the waiters [v - n + 1 .. v]. *)
Definition woken_values (rs : list request) : list Z :=
  rs ≫= (fun r => match r with ReqWake _ v n => seqZ (v - n + 1) n | _ => [] end).

Lemma s64_int z : - 2 ^ 63 <= z < 2 ^ 63 -> s64 z = z.
Proof. intros H. apply wrap_s_small; unfold in_s; lia. Qed.

(** One operation moves one of the counters and covers what it moved over. *)
Lemma cond_step_ok c op c' r :
  0 <= wakeup_seq c <= waiter_seq c -> waiter_seq c < 2 ^ 31 - 1 ->
  cond_step c op = (c', r) ->
  wakeup_seq c <= wakeup_seq c' <= waiter_seq c' /\ waiter_seq c <= waiter_seq c'
  /\ waiter_seq c' = waiter_seq c + (match op with OpWait => 1 | _ => 0 end)
  /\ wait_values (option_list r) = seqZ (waiter_seq c) (waiter_seq c' - waiter_seq c)
  /\ woken_values (option_list r) = seqZ (wakeup_seq c) (wakeup_seq c' - wakeup_seq c)
  /\ (op = OpBroadcast -> wakeup_seq c' = waiter_seq c').
Proof.
  intros H1 H2. destruct op; cbn [cond_step].
  - unfold pshared_cond_wait_start, atomic_fetch_add. intros [= <- <-]. cbn.
    rewrite s64_int by lia. replace (waiter_seq c + 1 - waiter_seq c) with 1 by lia.
    rewrite Z.sub_diag. repeat split; try lia; done.
  - unfold pshared_cond_signal, atomic_fetch_add. rewrite (s64_int (_ - _)) by lia.
    case_test; intros [= <- <-]; cbn.
    + rewrite !Z.sub_diag. repeat split; try lia; done.
    + rewrite s64_int by lia. rewrite Z.sub_diag.
      replace (wakeup_seq c + 1 - wakeup_seq c) with 1 by lia.
      replace (wakeup_seq c - 1 + 1) with (wakeup_seq c) by lia.
      repeat split; try lia; done.
  - unfold pshared_cond_broadcast, atomic_fetch_add. rewrite (s64_int (waiter_seq c - _)) by lia.
    case_test; intros [= <- <-]; cbn.
    + rewrite !Z.sub_diag. repeat split; try lia; done.
    + rewrite (s64_int (wakeup_seq c + (waiter_seq c - wakeup_seq c))) by lia.
      rewrite (s64_int (_ + (_ - 1))) by lia.
      rewrite (wrap_s_small 32) by (unfold in_s; lia).
      rewrite Z.sub_diag. unfold woken_values; cbn; rewrite app_nil_r.
      replace (wakeup_seq c + (waiter_seq c - wakeup_seq c - 1)
               - (waiter_seq c - wakeup_seq c) + 1) with (wakeup_seq c) by lia.
      replace (wakeup_seq c + (waiter_seq c - wakeup_seq c) - wakeup_seq c)
        with (waiter_seq c - wakeup_seq c) by lia.
      repeat split; try lia; done.
Qed.

Lemma seqZ_join a m n : 0 <= m -> 0 <= n -> seqZ a m ++ seqZ (a + m) n = seqZ a (m + n).
Proof. intros. symmetry. by apply seqZ_app. Qed.



(** A waiter that timed out still counts: the next signal is sent for its value,
    which is lower than the value of the waiter that came after it. *)
Example signal_after_timeout :
  snd (cond_run (mk_cond 9 0 0) [OpWait; OpWait; OpSignal])
  = [ReqWait 9 0 0 None; ReqWait 9 1 0 None; ReqWake 9 0 1].
Proof. reflexivity. Qed.

(** The clock of the timeout is the real-time one whatever the flags. *)
Example timed_wait_ignores_monotonic ts :
  let '(flag, c) := mm_thr_cond_init (Z.lor MM_THR_PSHARED MM_THR_WAIT_MONOTONIC) 9 (mk_cond 0 0 0) in
  Z.land flag WAITCLK_FLAG_MONOTONIC = WAITCLK_FLAG_MONOTONIC
  /\ snd (pshared_cond_wait_start c (Some ts)) = ReqWait 9 0 WAITCLK_FLAG_REALTIME (Some ts).
Proof. split; reflexivity. Qed.

(** The trylock of a native mutex reports success in all cases. *)
Example native_trylock_reports_success mtx_key :
  mm_thr_mutex_trylock mtx_key 0 = Srw TryAcquireSRWLockExclusive 0.
Proof. reflexivity. Qed.

(** A timed wait on a native condition variable terminates as soon as the
    clock passes the deadline, reports [ETIMEDOUT] only if it did, and
    otherwise returns the result of the first sleep that did not time out. *)
Theorem timedwait_terminates now sleep abstime n :
  normalized abstime -> 0 <= tv_sec abstime < 2 ^ 33 ->
  (forall i, normalized (now i) /\ 0 <= tv_sec (now i) < 2 ^ 33) ->
  ns_of abstime < ns_of (now n) ->
  exists ret i, (i <= n)%nat
    /\ timedwait_loop now sleep (S n) 0 abstime = Some ret
    /\ (forall j, (j < i)%nat -> ns_of (now j) <= ns_of abstime)
    /\ if decide (ret = ETIMEDOUT) then ns_of abstime < ns_of (now i)
       else ret = sleep i (u32 (Z.quot (ns_of abstime - ns_of (now i)) NS_IN_MS)).
Proof.
  intros Ha Hs Hn Hend.
  assert (G : forall m k, (k + m = n)%nat ->
    (forall j, (j < k)%nat -> ns_of (now j) <= ns_of abstime) ->
    exists ret i, (i <= n)%nat
      /\ timedwait_loop now sleep (S m) k abstime = Some ret
      /\ (forall j, (j < i)%nat -> ns_of (now j) <= ns_of abstime)
      /\ if decide (ret = ETIMEDOUT) then ns_of abstime < ns_of (now i)
         else ret = sleep i (u32 (Z.quot (ns_of abstime - ns_of (now i)) NS_IN_MS))).
  { induction m as [|m IH]; intros k Hk Hj; cbn [timedwait_loop];
      destruct (Hn k) as [Nk Sk];
      rewrite (mm_timediff_ns_exact abstime (now k) Ha Nk) by lia; cbn.
    - assert (k = n) as -> by lia. rewrite (proj2 (Z.ltb_lt _ _)) by lia.
      exists ETIMEDOUT, n. split; [lia|]. split; [done|]. split; [done|].
      by rewrite decide_True.
    - case_test.
      + exists ETIMEDOUT, k. split; [lia|]. split; [done|]. split; [done|].
        rewrite decide_True by done. lia.
      + case_test.
        * apply (IH (S k) ltac:(lia)). intros j Hjk.
          destruct (decide (j = k)) as [->|]; [lia|apply Hj; lia].
        * eexists _, k. split; [lia|]. split; [reflexivity|]. split; [done|].
          by rewrite decide_False. }
  apply (G n 0%nat); lia.
Qed.

Lemma timedwait_terminates_witness :
  exists ret, timedwait_loop (fun i => mk_ts (Z.of_nat (i mod 8)%nat) 5) (fun _ _ => ETIMEDOUT) 4 0 (mk_ts 3 0)
    = Some ret.
Proof.
  (* the clock advances one second per turn, every sleep times out *)
  destruct (timedwait_terminates (fun i => mk_ts (Z.of_nat (i mod 8)%nat) 5) (fun _ _ => ETIMEDOUT)
              (mk_ts 3 0) 3) as (ret & i & _ & H & _).
  - unfold normalized, NS_IN_SEC. cbn. lia.
  - cbn. lia.
  - intros i. unfold normalized, NS_IN_SEC. cbn [tv_nsec tv_sec].
    pose proof (Nat.mod_upper_bound i 8). lia.
  - reflexivity.
  - exists ret. exact H.
Defined.

(** ** [mm_thr_once] *)

Definition in_critical (pc : once_pc) : bool :=
  match pc with OnceLevel | OnceTest | OnceRoutine | OnceUnlock => true | _ => false end.

Definition level_of (pc : once_pc) : Z :=
  match pc with OnceTest | OnceRoutine | OnceUnlock => 1 | _ => 0 end.

Record once_inv (g : once_global) : Prop := {
  (* the thread in the critical section holds the lock *)
  oi_critical t : in_critical (o_pcs g t) = true ->
      lock_held (o_state g) = true /\ lock_owner (o_state g) = t
      /\ recursion_level (o_state g) = level_of (o_pcs g t);
  oi_held : lock_held (o_state g) = true ->
      in_critical (o_pcs g (lock_owner (o_state g))) = true;
  oi_free : lock_held (o_state g) = false ->
      lock_owner (o_state g) = 0 /\ recursion_level (o_state g) = 0;
  oi_zero : o_pcs g 0 = OnceCheck;
  (* the routine ran once, or is running, if the flag is set *)
  oi_running t : o_pcs g t = OnceRoutine ->
      once_set (o_state g) = true /\ routine_runs (o_state g) = 0%nat;
  oi_unset : once_set (o_state g) = false -> routine_runs (o_state g) = 0%nat;
  oi_set : once_set (o_state g) = true ->
      routine_runs (o_state g) = 1%nat \/ o_pcs g (lock_owner (o_state g)) = OnceRoutine
}.

Lemma once_inv_start : once_inv once_start.
Proof. constructor; cbn; try done; intros; discriminate. Qed.

Lemma insert_pcs (f : Z -> once_pc) t pc u :
  <[t := pc]> f u = if decide (u = t) then pc else f u.
Proof.
  case_decide as H; [subst; by rewrite fn_lookup_insert|by rewrite fn_lookup_insert_ne].
Qed.

(** The lock holder is unique: two threads in the critical section are one. *)
Ltac once_unique :=
  repeat match goal with
  | A : forall t, in_critical (?p t) = true -> _, H : ?p ?u = OnceRoutine |- _ =>
      let Hx := fresh "Hx" in
      assert (Hx := A u ltac:(rewrite H; reflexivity)); destruct Hx as (? & ? & ?); clear H
  | A : forall t, in_critical (?p t) = true -> _, H : in_critical (?p ?u) = true |- _ =>
      let Hx := fresh "Hx" in
      assert (Hx := A u H); destruct Hx as (? & ? & ?); clear H
  end; subst; try done; try lia.

Lemma once_inv_step g g' : once_inv g -> once_step g g' -> once_inv g'.
Proof.
  intros [Hc Hh Hf Hz Hr Hu Hs] [t s' pc' Ht E].
  destruct g as [[set held owner level runs] pcs]; cbn in *.
  pose proof (Hc t) as Hct. pose proof (Hr t) as Hrt.
  destruct (pcs t) eqn:Ep; cbn in *; try discriminate.
  all: try (specialize (Hct eq_refl) as (-> & -> & ->)).
  all: repeat case_match; simplify_eq; zbool.
  all: constructor; cbn; intros; rewrite ?insert_pcs in *; repeat case_decide; subst; cbn in *;
    try done; try (by eauto); try (intuition (congruence || lia)).
  all: try (rewrite Ep in Hh; by specialize (Hh eq_refl)).
  all: try (exfalso; once_unique).
  destruct held; [rewrite Ep in Hh; by specialize (Hh eq_refl)|].
  by destruct (Hf eq_refl).
Qed.

(** However many threads call [mm_thr_once] concurrently, the routine is
    executed at most once, by one thread at a time in the critical section, and
    when the lock is free and the flag set it has been executed. *)
Theorem once_runs_once g :
  rtc once_step once_start g ->
  (routine_runs (o_state g) <= 1)%nat
  /\ (forall t1 t2, in_critical (o_pcs g t1) = true -> in_critical (o_pcs g t2) = true -> t1 = t2)
  /\ (once_set (o_state g) = true -> lock_held (o_state g) = false ->
      routine_runs (o_state g) = 1%nat).
Proof.
  intros Hr. assert (Hi : once_inv g).
  { revert Hr. apply (rtc_ind_r (fun g => once_inv g)); [apply once_inv_start|].
    intros y z _ Hst Hy. by apply (once_inv_step y). }
  destruct Hi as [Hc Hh Hf Hz Hrun Hu Hs].
  split; [|split].
  - destruct (once_set (o_state g)) eqn:E; [|rewrite (Hu eq_refl); lia].
    destruct (Hs eq_refl) as [->|Hx]; [lia|]. destruct (Hrun _ Hx) as [_ ->]. lia.
  - intros t1 t2 H1 H2. destruct (Hc _ H1) as (_ & <- & _). by destruct (Hc _ H2) as (_ & <- & _).
  - intros Hset Hfree. destruct (Hs Hset) as [|Hx]; [done|].
    destruct (Hf Hfree) as [E _]. rewrite E in Hx. congruence.
Qed.

Fixpoint once_schedule (l : list Z) (g : once_global) : option once_global :=
  match l with
  | [] => Some g
  | t :: l' =>
      p ← mm_thr_once t (o_state g) (o_pcs g t);
      once_schedule l' (mk_once_global (fst p) (<[t := snd p]> (o_pcs g)))
  end.

Lemma once_schedule_steps l g g' :
  0 ∉ l -> once_schedule l g = Some g' -> rtc once_step g g'.
Proof.
  revert g. induction l as [|t l IH]; intros g H0; cbn.
  - intros [= ->]. apply rtc_refl.
  - apply not_elem_of_cons in H0 as [Ht Hl].
    destruct (mm_thr_once t (o_state g) (o_pcs g t)) as [[s' pc']|] eqn:E; [|done]. cbn.
    intros H. eapply rtc_l; [by apply (once_exec g t s' pc')|by apply IH].
Qed.

Lemma once_runs_once_witness :
  exists g, once_schedule [1; 2; 1; 1; 2; 1; 1; 1; 1; 2; 2; 2; 2] once_start = Some g
    /\ (routine_runs (o_state g) <= 1)%nat.
Proof.
  destruct (once_schedule [1; 2; 1; 1; 2; 1; 1; 1; 1; 2; 2; 2; 2] once_start) as [g|] eqn:E;
    [|vm_compute in E; discriminate].
  exists g. split; [reflexivity|]. refine (proj1 (once_runs_once g _)).
  refine (once_schedule_steps _ _ _ _ E).
  apply (bool_decide_unpack _). vm_compute. exact I.
Defined.

(** The flag is set before the routine runs: a second thread can return from
    [mm_thr_once] while the routine has not been executed. *)
Example once_returns_early :
  match once_schedule [1; 1; 1; 1; 1; 2] once_start with
  | Some g => (o_pcs g 1, o_pcs g 2, routine_runs (o_state g))
  | None => (OnceCheck, OnceCheck, 0%nat)
  end = (OnceRoutine, OnceReturned, 0%nat).
Proof. reflexivity. Qed.

(** ** Life of a thread *)

Definition is_end (e : life_event) : bool := match e with EvEnd _ => true | _ => false end.

Definition ends (l : list life_event) : nat := length (filter (fun e => is_end e = true) l).

Definition releases (l : list life_event) : nat := length (filter (fun e => is_end e = false) l).

(** A join returns only after the end of the thread. *)
Definition joins_after_end (l : list life_event) : Prop :=
  forall i, l !! i = Some EvJoin -> exists ret, i = 1%nat /\ l !! 0%nat = Some (EvEnd ret).

(** The thread structure of a created thread is freed exactly once: in any
    history with at most one end of the thread and at most one join or detach,
    nothing accesses it after it was freed, and it is freed exactly when both
    have happened. *)
Theorem thread_data_freed_once l :
  (ends l <= 1)%nat -> (releases l <= 1)%nat -> joins_after_end l ->
  exists m, life l = Some m /\ (m = None <-> ends l = 1%nat /\ releases l = 1%nat).
Proof.
  intros He Hr Hj.
  assert (Hlen : (length l <= 2)%nat).
  { assert (length l = ends l + releases l)%nat; [|lia]. clear. unfold ends, releases.
    induction l as [|e l IH]; [done|]. rewrite !filter_cons.
    split_decide; cbn [length]; destruct e; cbn in *; try congruence; lia. }
  destruct l as [|e1 [|e2 [|e3 l]]]; cbn in Hlen; [| | |lia].
  - eexists; split; [reflexivity|]. split; [done|]. intros [H _]. cbn in H. discriminate.
  - destruct e1; cbn in He, Hr |- *; try (eexists; split; [reflexivity|];
      split; [discriminate|intros [? ?]; discriminate]).
    destruct (Hj 0%nat eq_refl) as (? & ? & _). discriminate.
  - destruct e1, e2; vm_compute in He; vm_compute in Hr; try lia;
      try (eexists; split; [reflexivity|]; split; done).
    destruct (Hj 0%nat eq_refl) as (? & ? & _). discriminate.
Qed.

Lemma thread_data_freed_once_witness :
  life [EvDetach; EvEnd 7] = Some None /\ exists m, life [EvDetach; EvEnd 7] = Some m /\ m = None.
Proof.
  split; [reflexivity|].
  destruct (thread_data_freed_once [EvDetach; EvEnd 7]) as (m & E & H).
  - vm_compute. lia.
  - vm_compute. lia.
  - intros [|[|[|i]]] Hi; cbn in Hi; discriminate.
  - exists m. split; [exact E|]. apply H. split; reflexivity.
Defined.

(** A second detach adds the flag again and clears it: the thread counts as
    joinable afterwards, its structure is not freed at its end. *)
Example second_detach_clears_flag :
  (m ← life [EvDetach; EvDetach]; Some (Z.land (from_option state 0 m) STATE_DETACHED)) = Some 0
  /\ life [EvDetach; EvDetach; EvEnd 7] = Some (Some (mk_mm_thread 7 5)).
Proof. split; reflexivity. Qed.
