(* ===== verification/PtrLists.v ===== *)
(** * The linked lists of the lock referee

    The waiter queues ([append_to_queue], [drop_from_queue]) and the timeout
    lists ([insert_list_node_after], [detach_list_node]) of
    [lock-referee-server.c], on an explicit memory of nodes.  An address is a
    [Z]; [None] is the null pointer as a field and a dereference of a pointer
    that is null or outside the memory as a result. *)

From Stdlib Require Import Sorted.
From S2P Require Import Prelude Time.

Record queue_node := mk_node { prev : option Z; next : option Z }.

#[export] Instance queue_node_eq_dec : EqDecision queue_node.
Proof. solve_decision. Defined.

Abbreviation heap := (gmap Z queue_node).

Record queue := mk_queue { first : option Z; last : option Z }.

Definition set_next (h : heap) (p : Z) (n : option Z) : option heap :=
  nd ← h !! p; Some (<[p := mk_node (prev nd) n]> h).

Definition set_prev (h : heap) (p : Z) (n : option Z) : option heap :=
  nd ← h !! p; Some (<[p := mk_node n (next nd)]> h).

Definition append_to_queue (h : heap) (q : queue) (node : Z) : option (heap * queue) :=
  let last0 := last q in
  '(h1, first1) ←
    match first q with
    | None => Some (h, Some node)
    | Some f => l ← last0; h1 ← set_next h l (Some node); Some (h1, Some f)
    end;
  _ ← h1 !! node;
  Some (<[node := mk_node last0 None]> h1, mk_queue first1 (Some node)).

Definition drop_from_queue (h : heap) (q : queue) (node : Z) : option (heap * queue) :=
  nd ← h !! node;
  let prev0 := prev nd in
  let next0 := next nd in
  '(h1, first1) ←
    match prev0 with
    | Some p => h1 ← set_next h p next0; Some (h1, first q)
    | None => Some (h, next0)
    end;
  '(h2, last1) ←
    match next0 with
    | Some n => h2 ← set_prev h1 n prev0; Some (h2, last q)
    | None => Some (h1, prev0)
    end;
  Some (h2, mk_queue first1 last1).

Definition insert_list_node_after (h : heap) (node_to_insert after : Z) : option heap :=
  a ← h !! after;
  _ ← h !! node_to_insert;
  let h1 := <[node_to_insert := mk_node (Some after) (next a)]> h in
  a1 ← h1 !! after;
  h2 ← match next a1 with
       | Some n => set_prev h1 n (Some node_to_insert)
       | None => Some h1
       end;
  set_next h2 after (Some node_to_insert).

Definition detach_list_node (h : heap) (node : Z) : option heap :=
  nd ← h !! node;
  h1 ← match next nd with
       | Some n => h1 ← set_prev h n (prev nd); set_next h1 node None
       | None => Some h
       end;
  nd1 ← h1 !! node;
  match prev nd1 with
  | Some p => h2 ← set_next h1 p (next nd1); set_prev h2 node None
  | None => Some h1
  end.

(** ** Representation *)

Definition hd_or (l : list Z) (d : option Z) : option Z :=
  match l with [] => d | x :: _ => Some x end.

Fixpoint last_or (l : list Z) (d : option Z) : option Z :=
  match l with [] => d | x :: l' => last_or l' (Some x) end.

(** The nodes [l] are chained in this order, between [p] and [n]. *)
Fixpoint linked (h : heap) (p : option Z) (l : list Z) (n : option Z) : Prop :=
  match l with
  | [] => True
  | x :: l' => h !! x = Some (mk_node p (hd_or l' n)) /\ linked h (Some x) l' n
  end.

Definition queue_repr (h : heap) (q : queue) (l : list Z) : Prop :=
  NoDup l /\ linked h None l None /\ first q = hd_or l None /\ last q = last_or l None.

Lemma last_or_app l1 l2 d : last_or (l1 ++ l2) d = last_or l2 (last_or l1 d).
Proof. revert d. induction l1 as [|x l1 IH]; intros d; cbn; [done|apply IH]. Qed.

Lemma hd_or_app l1 l2 d : hd_or (l1 ++ l2) d = hd_or l1 (hd_or l2 d).
Proof. by destruct l1. Qed.

Lemma last_or_snoc l x d : last_or (l ++ [x]) d = Some x.
Proof. by rewrite last_or_app. Qed.

Lemma linked_app h p l1 l2 n :
  linked h p (l1 ++ l2) n <-> linked h p l1 (hd_or l2 n) /\ linked h (last_or l1 p) l2 n.
Proof.
  revert p. induction l1 as [|x l1 IH]; intros p; cbn; [naive_solver|].
  rewrite IH, hd_or_app. naive_solver.
Qed.

Lemma linked_frame h p l n x nd : x ∉ l -> linked h p l n -> linked (<[x := nd]> h) p l n.
Proof.
  revert p. induction l as [|y l IH]; intros p Hx; cbn; [done|].
  intros [H1 H2]. apply not_elem_of_cons in Hx as [Hxy Hx].
  rewrite lookup_insert_ne by done. auto.
Qed.

(** Changing the ends of a chain. *)
Lemma linked_set_next h p l x n n' :
  NoDup (l ++ [x]) -> linked h p (l ++ [x]) n ->
  set_next h x n' = Some (<[x := mk_node (last_or l p) n']> h)
  /\ linked (<[x := mk_node (last_or l p) n']> h) p (l ++ [x]) n'.
Proof.
  intros Hnd. rewrite !linked_app. cbn. intros (Hl & Hx & _).
  apply NoDup_app in Hnd as (_ & Hd & _).
  assert (x ∉ l) by (intros Hin; apply (Hd x Hin); by left).
  split; [unfold set_next; by rewrite Hx|].
  rewrite lookup_insert_eq. split; [by apply linked_frame|done].
Qed.

Lemma linked_set_prev h p p' x l n :
  x ∉ l -> linked h p (x :: l) n ->
  set_prev h x p' = Some (<[x := mk_node p' (hd_or l n)]> h)
  /\ linked (<[x := mk_node p' (hd_or l n)]> h) p' (x :: l) n.
Proof.
  intros Hx. cbn. intros [H1 H2]. split; [unfold set_prev; by rewrite H1|].
  rewrite lookup_insert_eq. split; [done|]. by apply linked_frame.
Qed.

Lemma nodup_snoc_inv (l : list Z) x : NoDup (l ++ [x]) -> NoDup l /\ x ∉ l.
Proof.
  intros H. apply NoDup_app in H as (H1 & H2 & _). split; [done|].
  intros Hin. apply (H2 x Hin). by left.
Qed.

(** ** The waiter queue *)

Lemma append_to_queue_repr h q l node :
  queue_repr h q l -> node ∉ l -> is_Some (h !! node) ->
  exists h' q', append_to_queue h q node = Some (h', q')
    /\ queue_repr h' q' (l ++ [node]) /\ dom h' = dom h.
Proof.
  intros (Hnd & Hl & Hf & Hlast) Hn [nd Hnode]. unfold append_to_queue. rewrite Hf, Hlast.
  destruct l as [|z l' _] using rev_ind.
  - cbn. rewrite Hnode. cbn. eexists _, _. split; [reflexivity|].
    split; [|by apply dom_insert_lookup_L; eauto].
    split; [by apply NoDup_singleton|]. cbn. by rewrite lookup_insert_eq.
  - assert (exists f, hd_or (l' ++ [z]) None = Some f) as [f Ef] by (destruct l'; cbn; eauto).
    rewrite Ef, last_or_snoc. cbn [mbind option_bind].
    destruct (linked_set_next h None l' z None (Some node) Hnd Hl) as [-> Hl'].
    cbn [mbind option_bind].
    assert (z <> node) by (intros ->; apply Hn, elem_of_app; right; left).
    rewrite lookup_insert_ne by done. rewrite Hnode. cbn [mbind option_bind].
    eexists _, _. split; [reflexivity|]. split.
    + split; [|split; [|split]].
      * apply NoDup_app. split; [done|]. split; [|apply NoDup_singleton].
        intros y Hy Hy'. apply list_elem_of_singleton in Hy'. by subst.
      * rewrite linked_app. cbn [hd_or]. split; [by apply linked_frame|].
        rewrite last_or_snoc. cbn. by rewrite lookup_insert_eq.
      * cbn [first]. rewrite (hd_or_app _ [node]). destruct l'; cbn in *; congruence.
      * cbn. by rewrite last_or_snoc.
    + apply linked_app in Hl as (_ & Hz & _).
      rewrite !dom_insert_lookup_L; [done|eauto|rewrite lookup_insert_ne by done; eauto].
Qed.

(** Unlinking the next pointer of what precedes a chain. *)
Lemma relink_before h l1 x n n' (q : queue) :
  NoDup l1 -> x ∉ l1 -> linked h None l1 n -> first q = hd_or (l1 ++ [x]) None ->
  exists h' f',
    match last_or l1 None with
    | Some p => h1 ← set_next h p n'; Some (h1, first q)
    | None => Some (h, n')
    end = Some (h', f')
    /\ linked h' None l1 n' /\ f' = hd_or l1 n' /\ dom h' = dom h
    /\ forall y, y ∉ l1 -> h' !! y = h !! y.
Proof.
  intros Hnd Hx Hl Hf. destruct l1 as [|z l' _] using rev_ind; [cbn; eauto 10|].
  rewrite last_or_snoc.
  destruct (linked_set_next h None l' z n n' Hnd Hl) as [-> Hl']. cbn.
  eexists _, _. split; [reflexivity|]. split; [done|]. split; [|split].
  - rewrite Hf. by destruct l'.
  - apply linked_app in Hl as (_ & Hz & _). apply dom_insert_lookup_L. eauto.
  - intros y Hy. apply lookup_insert_ne. intros ->. apply Hy, elem_of_app. right. left.
Qed.

(** And the previous pointer of what follows it. *)
Lemma relink_after h l2 x p (q : queue) :
  NoDup l2 -> linked h (Some x) l2 None -> last q = last_or l2 (Some x) ->
  exists h' z',
    match hd_or l2 None with
    | Some n => h2 ← set_prev h n p; Some (h2, last q)
    | None => Some (h, p)
    end = Some (h', z')
    /\ linked h' p l2 None /\ z' = last_or l2 p /\ dom h' = dom h
    /\ forall y, y ∉ l2 -> h' !! y = h !! y.
Proof.
  intros Hnd Hl Hlast. destruct l2 as [|z l']; [cbn; eauto 10|].
  apply list.NoDup_cons in Hnd as [Hz Hnd]. cbn [hd_or].
  destruct (linked_set_prev h (Some x) p z l' None Hz Hl) as [-> Hl']. cbn [mbind option_bind].
  eexists _, _. split; [reflexivity|]. split; [done|]. split; [by rewrite Hlast|]. split.
  - destruct Hl as [Hzz _]. apply dom_insert_lookup_L. eauto.
  - intros y Hy. apply lookup_insert_ne. intros ->. apply Hy. left.
Qed.

Lemma linked_ext h h' p l n :
  (forall y, y ∈ l -> h' !! y = h !! y) -> linked h p l n -> linked h' p l n.
Proof.
  revert p. induction l as [|x l IH]; intros p He; cbn; [done|].
  intros [H1 H2]. rewrite He by left. split; [done|]. apply IH; [|done].
  intros y Hy. apply He. by right.
Qed.

Lemma drop_from_queue_repr h q l1 node l2 :
  queue_repr h q (l1 ++ node :: l2) ->
  exists h' q', drop_from_queue h q node = Some (h', q')
    /\ queue_repr h' q' (l1 ++ l2) /\ dom h' = dom h.
Proof.
  intros (Hnd & Hl & Hf & Hlast). unfold drop_from_queue.
  apply linked_app in Hl as [Hl1 [Hn Hl2]]. rewrite Hn. cbn [mbind option_bind prev next].
  apply NoDup_app in Hnd as (Hnd1 & Hd & Hnd2). apply list.NoDup_cons in Hnd2 as [Hn2 Hnd2].
  assert (Hn1 : node ∉ l1) by (intros H; apply (Hd node H); left).
  rewrite last_or_app in Hlast.
  destruct (relink_before h l1 node (Some node) (hd_or l2 None) q Hnd1 Hn1 Hl1)
    as (h1 & f1 & -> & L1 & -> & D1 & F1); [rewrite Hf; by destruct l1|].
  cbn [mbind option_bind].
  assert (Hl2' : linked h1 (Some node) l2 None).
  { apply (linked_ext h); [|done]. intros y Hy. apply F1. intros Hy1.
    apply (Hd y Hy1). by right. }
  destruct (relink_after h1 l2 node (last_or l1 None) q Hnd2 Hl2' Hlast)
    as (h2 & z2 & -> & L2 & -> & D2 & F2).
  cbn [mbind option_bind]. eexists _, _. split; [reflexivity|]. split; [|congruence].
  split; [|split; [|split]].
  - apply NoDup_app. split; [done|]. split; [|done]. intros y Hy Hy2.
    apply (Hd y Hy). by right.
  - rewrite linked_app. split; [|done]. apply (linked_ext h1); [|done].
    intros y Hy. apply F2. intros Hy2. apply (Hd y Hy). by right.
  - cbn. by rewrite hd_or_app.
  - cbn. by rewrite last_or_app.
Qed.

(** C20. The waiter queue of a lock is a first-in first-out queue with removal
    anywhere: appending a node outside the queue puts it last, dropping a node
    of the queue removes it and keeps the order of the others; neither
    dereferences a null or foreign pointer. *)
Theorem queue_operations h q l node :
  queue_repr h q l ->
  (node ∉ l -> is_Some (h !! node) ->
   exists h' q', append_to_queue h q node = Some (h', q')
     /\ queue_repr h' q' (l ++ [node]) /\ dom h' = dom h)
  /\ (forall l1 l2, l = l1 ++ node :: l2 ->
      exists h' q', drop_from_queue h q node = Some (h', q')
        /\ queue_repr h' q' (l1 ++ l2) /\ dom h' = dom h).
Proof.
  intros Hq. split; [by apply append_to_queue_repr|].
  intros l1 l2 ->. by apply drop_from_queue_repr.
Qed.

(** Nodes 1, 2, 3 queued, the middle one dropped. *)
Definition three_nodes : heap :=
  {[ 1 := mk_node None (Some 2); 2 := mk_node (Some 1) (Some 3); 3 := mk_node (Some 2) None ]}.

Lemma queue_operations_witness :
  exists h' q', drop_from_queue three_nodes (mk_queue (Some 1) (Some 3)) 2 = Some (h', q')
    /\ queue_repr h' q' [1; 3] /\ dom h' = dom three_nodes.
Proof.
  apply (queue_operations three_nodes (mk_queue (Some 1) (Some 3)) [1; 2; 3] 2) with (l1 := [1]) (l2 := [3]).
  - split; [|repeat split; reflexivity]. apply (bool_decide_unpack _). vm_compute. exact I.
  - reflexivity.
Defined.

(** ** The timeout lists

    A list is chained from a head node that is never removed. *)

Lemma insert_after_repr h l1 a l2 node :
  NoDup (l1 ++ a :: l2) -> linked h None (l1 ++ a :: l2) None ->
  node ∉ l1 ++ a :: l2 -> is_Some (h !! node) ->
  exists h', insert_list_node_after h node a = Some h'
    /\ linked h' None (l1 ++ a :: node :: l2) None.
Proof.
  intros Hnd Hl Hn [nd Hnode]. unfold insert_list_node_after.
  apply linked_app in Hl as [Hl1 [Ha Hl2]]. rewrite Ha, Hnode. cbn [mbind option_bind next].
  apply NoDup_app in Hnd as (Hnd1 & Hd & Hnd2). apply list.NoDup_cons in Hnd2 as [Ha2 Hnd2].
  rewrite not_elem_of_app, not_elem_of_cons in Hn. destruct Hn as (Hn1 & Hna & Hn2).
  rewrite lookup_insert_ne, Ha by done. cbn [mbind option_bind next].
  set (h1 := <[node := mk_node (Some a) (hd_or l2 None)]> h).
  assert (exists h2, match hd_or l2 None with
                     | Some n => set_prev h1 n (Some node) | None => Some h1 end = Some h2
          /\ linked h2 (Some node) l2 None /\ forall y, y ∉ l2 -> h2 !! y = h1 !! y)
    as (h2 & -> & L2 & F2).
  { destruct l2 as [|z l2]; [cbn; eauto|]. cbn [hd_or].
    apply list.NoDup_cons in Hnd2 as [Hz Hnd2].
    destruct (linked_set_prev h1 (Some a) (Some node) z l2 None Hz) as [E L].
    { unfold h1. by apply linked_frame. }
    eexists. split; [exact E|]. split; [done|].
    intros y Hy. apply lookup_insert_ne. intros ->. apply Hy. left. }
  cbn [mbind option_bind]. unfold set_next. rewrite F2 by done. unfold h1.
  rewrite lookup_insert_ne, Ha by done. cbn [mbind option_bind prev].
  eexists. split; [reflexivity|].
  rewrite linked_app. cbn [linked hd_or]. split; [|split; [|split]].
  - apply linked_frame; [by intros H; apply (Hd a H); left|].
    apply (linked_ext h); [|done]. intros y Hy. rewrite F2; [|intros H; apply (Hd y Hy); by right].
    unfold h1. apply lookup_insert_ne. by intros ->.
  - by rewrite lookup_insert_eq.
  - rewrite lookup_insert_ne by done. rewrite F2 by done. unfold h1. by rewrite lookup_insert_eq.
  - by apply linked_frame.
Qed.

(** Removal as written clears the next pointer of the node before it is copied
    to the predecessor: what followed the node is cut off. *)
Lemma detach_truncates h l1 p node l2 :
  NoDup (l1 ++ p :: node :: l2) -> linked h None (l1 ++ p :: node :: l2) None ->
  exists h', detach_list_node h node = Some h'
    /\ linked h' None (l1 ++ [p]) None.
Proof.
  intros Hnd Hl. unfold detach_list_node.
  assert (Hl' := Hl). rewrite linked_app in Hl'. cbn in Hl'. destruct Hl' as (Hl1 & Hp & Hn & Hl2).
  apply NoDup_app in Hnd as (Hnd1 & Hd & Hnd2).
  apply list.NoDup_cons in Hnd2 as [Hp2 Hnd2]. apply list.NoDup_cons in Hnd2 as [Hn2 Hnd2].
  apply not_elem_of_cons in Hp2 as [Hpn Hp2].
  rewrite Hn. cbn [mbind option_bind next prev].
  assert (exists h1, match hd_or l2 None with
     | Some n => h1 ← set_prev h n (Some p); set_next h1 node None | None => Some h end = Some h1
     /\ h1 !! node = Some (mk_node (Some p) None)
     /\ forall y, y <> node -> y ∉ l2 -> h1 !! y = h !! y) as (h1 & -> & E1 & F1).
  { destruct l2 as [|z l2]; [cbn; eauto|]. cbn [hd_or].
    destruct Hl2 as [Hz _]. unfold set_prev. rewrite Hz. cbn [mbind option_bind].
    apply not_elem_of_cons in Hn2 as [Hnz Hn2]. unfold set_next.
    rewrite lookup_insert_ne, Hn by done. cbn [mbind option_bind prev].
    eexists. split; [reflexivity|]. rewrite lookup_insert_eq. split; [done|].
    intros y Hy Hy2. apply not_elem_of_cons in Hy2 as [Hyz Hy2].
    by rewrite !lookup_insert_ne by done. }
  cbn [mbind option_bind]. rewrite E1. cbn [mbind option_bind prev next].
  unfold set_next. rewrite F1, Hp by done. cbn [mbind option_bind prev].
  unfold set_prev. rewrite lookup_insert_ne, E1 by done. cbn [mbind option_bind].
  eexists. split; [reflexivity|]. rewrite linked_app. cbn. split.
  - assert (p ∉ l1) by (intros H; apply (Hd p H); left).
    assert (node ∉ l1) by (intros H'; apply (Hd node H'); right; left).
    apply linked_frame; [done|]. apply linked_frame; [done|].
    apply (linked_ext h); [|done]. intros y Hy. apply F1; [by intros ->|].
    intros Hy2. apply (Hd y Hy). right. by right.
  - rewrite lookup_insert_ne by done. by rewrite lookup_insert_eq.
Qed.

(** The list built by [timeout_list_add_waiter]. *)
Section Timeouts.
(** The [wait_timeout] of the client a node belongs to. *)
Variable wait_timeout : Z -> mm_timespec.

(** The search of the insertion point; the fuel bounds the list length. *)
Fixpoint timeout_walk (fuel : nat) (h : heap) (timeout : mm_timespec) (node : Z) : option Z :=
  match fuel with
  | O => None
  | S f =>
      nd ← h !! node;
      match next nd with
      | None => Some node
      | Some nx =>
          d ← mm_timediff_ns timeout (wait_timeout nx);
          if d <? 0 then Some node else timeout_walk f h timeout nx
      end
  end.

Definition timeout_list_add_waiter (fuel : nat) (h : heap) (head tc : Z) : option heap :=
  node ← timeout_walk fuel h (wait_timeout tc) head;
  insert_list_node_after h tc node.

Definition earlier (a b : Z) : Prop := ns_of (wait_timeout a) <= ns_of (wait_timeout b).

Context (Hsane : forall x, sane (wait_timeout x)).

Lemma timediff_sane a b : sane a -> sane b -> mm_timediff_ns a b = Some (ns_of a - ns_of b).
Proof. intros [H1 H2] [H3 H4]. apply mm_timediff_ns_exact; [done|done|lia]. Qed.

Lemma timeout_walk_spec h head l tc fuel :
  linked h None (head :: l) None -> (length l < fuel)%nat -> StronglySorted earlier l ->
  exists l1 l2,
    l = l1 ++ l2
    /\ timeout_walk fuel h (wait_timeout tc) head = Some (default head (last_or l1 None))
    /\ Forall (fun x => earlier x tc) l1 /\ Forall (fun x => ns_of (wait_timeout tc) < ns_of (wait_timeout x)) l2.
Proof.
  generalize (@None Z) at 1 as p. revert head fuel.
  induction l as [|x l IH]; intros head fuel p [Hh Hl] Hf Hs.
  - exists [], []. destruct fuel as [|f]; [cbn in Hf; lia|]. cbn. rewrite Hh. done.
  - destruct fuel as [|f]; [cbn in Hf; lia|]. cbn [timeout_walk]. rewrite Hh.
    cbn [mbind option_bind next hd_or]. rewrite timediff_sane by apply Hsane.
    cbn [mbind option_bind]. apply StronglySorted_inv in Hs as [Hs Hx].
    destruct (Z.ltb_spec (ns_of (wait_timeout tc) - ns_of (wait_timeout x)) 0) as [Hlt|Hge].
    + exists [], (x :: l). split; [done|]. split; [done|]. split; [constructor|].
      constructor; [lia|]. eapply Forall_impl; [exact Hx|]. unfold earlier. cbn. intros; lia.
    + destruct (IH x f (Some head) Hl ltac:(cbn in Hf; lia) Hs) as (l1 & l2 & -> & E & F1 & F2).
      exists (x :: l1), l2. split; [done|]. split; [|split; [|done]].
      * rewrite E. f_equal. cbn. destruct l1 as [|y l1] using rev_ind; [done|].
        by rewrite !last_or_snoc.
      * constructor; [unfold earlier; lia|done].
Qed.

Lemma sorted_insert l1 l2 tc :
  StronglySorted earlier (l1 ++ l2) -> Forall (fun x => earlier x tc) l1 ->
  Forall (fun x => ns_of (wait_timeout tc) < ns_of (wait_timeout x)) l2 ->
  StronglySorted earlier (l1 ++ tc :: l2).
Proof.
  induction l1 as [|x l1 IH]; cbn; intros Hs F1 F2.
  - constructor; [done|]. eapply Forall_impl; [exact F2|]. unfold earlier. cbn. intros; lia.
  - apply StronglySorted_inv in Hs as [Hs Hx]. apply Forall_cons in F1 as [Fx F1].
    constructor; [auto|]. apply Forall_app in Hx as [Hx1 Hx2].
    apply Forall_app. split; [done|]. by constructor.
Qed.

(** Inserting a client in a timeout list keeps it sorted: the search
    terminates, the client is placed after those that expire before it or with
    it, the others keep their order, so the first client of the list is always
    the next one to expire. *)
Theorem timeout_insertion_sorted h head l tc fuel :
  NoDup (head :: l) -> linked h None (head :: l) None ->
  tc ∉ head :: l -> is_Some (h !! tc) ->
  (length l < fuel)%nat -> StronglySorted earlier l ->
  exists h' l1 l2,
    timeout_list_add_waiter fuel h head tc = Some h'
    /\ l = l1 ++ l2
    /\ linked h' None (head :: l1 ++ tc :: l2) None
    /\ StronglySorted earlier (l1 ++ tc :: l2).
Proof.
  intros Hnd Hl Hn Hin Hf Hs. unfold timeout_list_add_waiter.
  destruct (timeout_walk_spec h head l tc fuel Hl Hf Hs) as (l1 & l2 & -> & -> & F1 & F2).
  cbn [mbind option_bind].
  assert (exists la, head :: l1 = la ++ [default head (last_or l1 None)]) as [la Ela].
  { destruct l1 as [|y l1 _] using rev_ind; [by exists []|].
    rewrite last_or_snoc. by exists (head :: l1). }
  set (a := default head (last_or l1 None)) in *.
  assert (E1 : head :: l1 ++ l2 = la ++ a :: l2)
    by (change (head :: l1 ++ l2) with ((head :: l1) ++ l2); by rewrite Ela, <- app_assoc).
  rewrite E1 in *.
  destruct (insert_after_repr h la a l2 tc Hnd Hl Hn Hin) as (h' & -> & L).
  exists h', l1, l2. split; [done|]. split; [done|]. split.
  - change (head :: l1 ++ tc :: l2) with ((head :: l1) ++ tc :: l2).
    by rewrite Ela, <- app_assoc.
  - by apply sorted_insert.
Qed.
End Timeouts.

(** Clients 10 and 30 expire after 1 s and 3 s, client 20 after 2 s is added. *)
Lemma timeout_insertion_sorted_witness :
  let times x := mk_ts (Z.max 0 (Z.min (x / 10) 100)) 0 in
  exists h' l1 l2,
    timeout_list_add_waiter times 3
      {[ 1 := mk_node None (Some 10); 10 := mk_node (Some 1) (Some 30);
         30 := mk_node (Some 10) None; 20 := mk_node None None ]} 1 20 = Some h'
    /\ [10; 30] = l1 ++ l2
    /\ linked h' None (1 :: l1 ++ 20 :: l2) None
    /\ StronglySorted (earlier times) (l1 ++ 20 :: l2).
Proof.
  intros times. apply (timeout_insertion_sorted times).
  - intros x. unfold sane, normalized, NS_IN_SEC, times. cbn [tv_nsec tv_sec]. lia.
  - apply (bool_decide_unpack _). vm_compute. exact I.
  - repeat split; reflexivity.
  - apply (bool_decide_unpack _). vm_compute. exact I.
  - eexists. reflexivity.
  - cbn. lia.
  - repeat constructor. vm_compute. discriminate.
Defined.

(** The order of the assignments of [detach_list_node] cuts the list: after
    the removal of node 10, client 30 can no longer be reached. *)
Example detach_loses_the_rest :
  match detach_list_node
          {[ 1 := mk_node None (Some 10); 10 := mk_node (Some 1) (Some 30);
             30 := mk_node (Some 10) None ]} 10 with
  | Some h => option_map next (h !! 1)
  | None => None
  end = Some None.
Proof. reflexivity. Qed.
