(* ===== verification/Referee.v ===== *)
(** * The lock referee: locks and lock array

    The part of [lock-referee-server.c] that keeps the locks: waiters and
    wake-ups of one lock, cleanup jobs, and the array of the watched locks
    sorted by key.  The waiter queue of a lock is the list of clients that
    [PtrLists.queue_repr] relates to the linked queue of the code. *)

From Stdlib Require Import Sorted.
From S2P Require Import Prelude MutexVal.

(** ** Helpers *)

Definition DWORD_MAX : Z := 0xFFFFFFFF.

Definition clamp_i64_to_dword (i64val : Z) : Z :=
  if DWORD_MAX <? i64val then DWORD_MAX else if i64val <? 0 then 0 else i64val.

(** [last_value] is the static counter, [low] the low part of the current
    FILETIME; the shift into the sign bit is taken as wrapping. *)
Definition gen_pshared_key (last_value low : Z) : Z * Z :=
  (u32 (last_value + 1), Z.lor (s64 (Z.shiftl last_value 32)) low).

Definition ROUND_UP (x y : Z) : Z := ((x + y - 1) / y) * y.

(** [sizeof(struct robust_data)] and [sizeof(int64_t)] on 64-bit Windows. *)
Definition sizeof_robust_data : Z := 32.
Definition sizeof_key : Z := 8.

Definition get_robust_data_size (pagesize num_keys : Z) : Z :=
  let num_keys := if num_keys <=? 0 then 1 else num_keys in
  ROUND_UP (sizeof_robust_data + num_keys * sizeof_key) pagesize.

(** [keylocked_max] of [thread_client_add_robust_data]. *)
Definition keylocked_max (data_len : Z) : Z := (data_len - sizeof_robust_data) / sizeof_key.

(** ** One lock *)

Record cleanup_job := mk_job { in_progress : bool; deadlist : list dead_thread }.

Record lock := mk_lock {
  lk_key : Z;
  max_wakeup_val : Z;
  nwaiter : Z;
  waiters_queue : list Z;
  job : option cleanup_job
}.

Definition lock_init (key : Z) : lock := mk_lock key 0 0 [] None.

Definition set_job (j : option cleanup_job) (lk : lock) : lock :=
  mk_lock (lk_key lk) (max_wakeup_val lk) (nwaiter lk) (waiters_queue lk) j.

Section Waiters.
(** The [wakeup_val] of a client. *)
Variable wakeup_val : Z -> Z.

(** [false]: the client is to be woken at once. *)
Definition lock_add_waiter (lk : lock) (tc : Z) : lock * bool :=
  let nwaiter' := nwaiter lk + 1 in
  if (nwaiter' <=? 0) && (wakeup_val tc <=? max_wakeup_val lk) then
    (mk_lock (lk_key lk) (max_wakeup_val lk) nwaiter' (waiters_queue lk) (job lk), false)
  else
    (mk_lock (lk_key lk) (max_wakeup_val lk) nwaiter' (waiters_queue lk ++ [tc]) (job lk), true).

(** The scan of the queue: clients left, clients to wake. *)
Fixpoint wake_scan (q : list Z) (num val : Z) : list Z * list Z :=
  match q with
  | [] => ([], [])
  | tc :: q' =>
      if num =? 0 then (q, [])
      else if val <? wakeup_val tc then
        let '(rest, woken) := wake_scan q' num val in (tc :: rest, woken)
      else
        let '(rest, woken) := wake_scan q' (num - 1) val in (rest, tc :: woken)
  end.

Definition lock_wake_waiters (lk : lock) (num val : Z) : lock * list Z :=
  let '(rest, woken) := wake_scan (waiters_queue lk) num val in
  (mk_lock (lk_key lk) (Z.max (max_wakeup_val lk) val) (nwaiter lk - num) rest (job lk), woken).
End Waiters.

Definition lock_drop_waiter (lk : lock) (tc : Z) : lock :=
  mk_lock (lk_key lk) (max_wakeup_val lk) (nwaiter lk - 1)
    (filter (fun x => x <> tc) (waiters_queue lk)) (job lk).

(** ** Cleanup jobs *)

(** Dead threads that fit the page of the job. *)
Definition MM_PAGESZ : Z := 4096.
Definition deadlist_max : Z := (MM_PAGESZ - 8) / 8.

Definition lock_create_cleanup_job (lk : lock) : lock := set_job (Some (mk_job false [])) lk.

Definition lock_destroy_cleanup_job (lk : lock) : lock := set_job None lk.

(** The second result is the client asked to run the job. *)
Definition lock_start_or_remove_cleanup_job (lk : lock) : lock * option Z :=
  match job lk with
  | None => (lk, None)
  | Some j =>
      if in_progress j then (lk, None)
      else if (length (deadlist j) =? 0)%nat then (lock_destroy_cleanup_job lk, None)
      else match waiters_queue lk with
           | tc :: _ => (set_job (Some (mk_job true (deadlist j))) lk, Some tc)
           | [] => (lk, None)
           end
  end.

(** [None]: there is no job, the null pointer is dereferenced. *)
Definition lock_report_cleanup_job_done (lk : lock) : option lock :=
  j ← job lk; Some (set_job (Some (mk_job false (deadlist j))) lk).

(** [create_ok]: the mapping of a new job could be created; [None]: the dead
    list overflows its page. *)
Definition lock_report_dead (create_ok : bool) (lk : lock) (is_waiter : bool) (tid : Z)
    : option lock :=
  let lk1 := match job lk with
             | Some _ => lk
             | None => if create_ok then lock_create_cleanup_job lk else lk
             end in
  match job lk1 with
  | None => Some lk1
  | Some j =>
      if Z.of_nat (length (deadlist j)) <? deadlist_max then
        Some (set_job (Some (mk_job (in_progress j) (deadlist j ++ [mk_dead is_waiter tid]))) lk1)
      else None
  end.

Definition lock_is_unused (lk : lock) : bool :=
  (nwaiter lk =? 0)
  && match waiters_queue lk with [] => true | _ => false end
  && match job lk with None => true | _ => false end.

(** ** The array of locks *)

Definition LOCK_LIST_INITIAL_LEN : Z := 128.
Definition KEY_NOTFOUND_FLAG : Z := 0x80000000.

(** [sorted_array] lists the used entries. *)
Record lock_array := mk_array { num_max : Z; sorted_array : list lock }.

Definition num_used (arr : lock_array) : Z := Z.of_nat (length (sorted_array arr)).

Definition lock_array_init : lock_array := mk_array LOCK_LIST_INITIAL_LEN [].

Fixpoint search_loop (fuel : nat) (locks : list lock) (key l h : Z) : option Z :=
  match fuel with
  | O => None
  | S f =>
      if l <=? h then
        let m := Z.quot (l + h) 2 in
        lk ← locks !! Z.to_nat m;
        if key =? lk_key lk then Some m
        else if key <? lk_key lk then search_loop f locks key l (m - 1)
        else search_loop f locks key (m + 1) h
      else Some (s32 (Z.lor l KEY_NOTFOUND_FLAG))
  end.

Definition search_key_index (locks : list lock) (len key : Z) : option Z :=
  search_loop (S (length locks)) locks key 0 (len - 1).

(** The two tests of the flag, on the [int] converted to [unsigned]. *)
Definition index_not_found (index : Z) : bool :=
  negb (Z.land (u32 index) KEY_NOTFOUND_FLAG =? 0).

Definition index_position (index : Z) : Z :=
  s32 (Z.land (u32 index) (u32 (Z.lnot KEY_NOTFOUND_FLAG))).

(** [None]: a write past the end of the array; no index: not found.  The
    reallocation is taken as successful. *)
Definition lock_array_get_lock (arr : lock_array) (key : Z) (create : bool)
    : option (lock_array * option Z) :=
  index ← search_key_index (sorted_array arr) (num_used arr) key;
  if index_not_found index then
    if negb create then Some (arr, None)
    else
      let index := index_position index in
      let num_max' := if num_max arr <? num_used arr + 1 then num_max arr * 2 else num_max arr in
      let len := num_used arr + 1 - index in
      (* memmove fills the entries index + 1 to index + len *)
      if index + len <? num_max' then
        Some (mk_array num_max'
                (take (Z.to_nat index) (sorted_array arr) ++ lock_init key
                 :: drop (Z.to_nat index) (sorted_array arr)), Some index)
      else None
  else Some (arr, Some index).

(** The compaction loop; structural on the entries left to inspect. *)
Fixpoint drop_unused_loop (n : nat) (locks : list lock) (src dst : nat) : list lock * nat :=
  match n with
  | O => (locks, dst)
  | S n' =>
      match locks !! src with
      | None => (locks, dst)
      | Some lk =>
          if lock_is_unused lk then drop_unused_loop n' locks (S src) dst
          else if (src =? dst)%nat then drop_unused_loop n' locks (S src) (S dst)
          else drop_unused_loop n' (<[dst := lk]> locks) (S src) (S dst)
      end
  end.

Definition lock_array_drop_unused (arr : lock_array) : lock_array :=
  let n := length (sorted_array arr) in
  let '(locks, dst) := drop_unused_loop n (sorted_array arr) 0 0 in
  mk_array (num_max arr) (take dst locks).

(** The clients asked to run a cleanup job, in the order of the array. *)
Definition lock_array_update_cleanup_jobs (arr : lock_array) : lock_array * list Z :=
  (mk_array (num_max arr) (fst ∘ lock_start_or_remove_cleanup_job <$> sorted_array arr),
   omap (snd ∘ lock_start_or_remove_cleanup_job) (sorted_array arr)).

(** ** Keys and sizes *)

(** Numeric helpers: keys generated from different counter values differ
    whatever the clock, the wait time is clamped to a DWORD and kept when it
    fits, and the mapping made for [n] keys is a whole number of pages with room
    for at least [n] of them. *)
Theorem referee_numbers :
  (forall v1 v2 low1 low2,
     in_u 32 v1 -> in_u 32 v2 -> in_u 32 low1 -> in_u 32 low2 ->
     snd (gen_pshared_key v1 low1) = snd (gen_pshared_key v2 low2) -> v1 = v2 /\ low1 = low2)
  /\ (forall z, 0 <= clamp_i64_to_dword z <= DWORD_MAX
                /\ (0 <= z <= DWORD_MAX -> clamp_i64_to_dword z = z))
  /\ (forall pagesize n, 0 < pagesize ->
        (exists k, get_robust_data_size pagesize n = k * pagesize)
        /\ Z.max n 1 <= keylocked_max (get_robust_data_size pagesize n)
        /\ get_robust_data_size pagesize n
           < sizeof_robust_data + Z.max n 1 * sizeof_key + pagesize).
Proof.
  split; [|split].
  - intros v1 v2 low1 low2 H1 H2 H3 H4. cbn [gen_pshared_key snd].
    unfold in_u in *.
    assert (E : forall v low, 0 <= v < 2 ^ 32 -> 0 <= low < 2 ^ 32 ->
      Z.lor (s64 (Z.shiftl v 32)) low
      = low + (if v <? 2 ^ 31 then v else v - 2 ^ 32) * 2 ^ 32).
    { intros v low Hv Hlow. rewrite Z.lor_comm, <- lor_add_shift by lia. f_equal.
      rewrite !Z.shiftl_mul_pow2 by lia. unfold wrap_s.
      destruct (Z.ltb_spec v (2 ^ 31)).
      - rewrite Z.mod_small; lia.
      - replace (v * 2 ^ 32 + 2 ^ (64 - 1)) with (v * 2 ^ 32 - 2 ^ 63 + 1 * 2 ^ 64) by lia.
        rewrite Z.mod_add, Z.mod_small; lia. }
    rewrite !E by done. repeat case_test; lia.
  - intros z. unfold clamp_i64_to_dword, DWORD_MAX. repeat case_test; lia.
  - intros pagesize n Hp. unfold get_robust_data_size, ROUND_UP, keylocked_max, sizeof_robust_data, sizeof_key.
    assert (E : (if n <=? 0 then 1 else n) = Z.max n 1) by (case_test; lia). rewrite E.
    set (len := 32 + Z.max n 1 * 8).
    pose proof (Z.div_mod (len + pagesize - 1) pagesize ltac:(lia)).
    pose proof (Z.mod_pos_bound (len + pagesize - 1) pagesize ltac:(lia)).
    split; [by eexists|]. split; [|lia].
    apply Z.div_le_lower_bound; lia.
Qed.

(** ** The search *)

Definition by_key (a b : lock) : Prop := lk_key a < lk_key b.

Definition arr_ok (arr : lock_array) : Prop :=
  StronglySorted by_key (sorted_array arr) /\ num_used arr <= num_max arr
  /\ 2 <= num_max arr < 2 ^ 30.

(** [i] is the place of [key] in the locks: those before are smaller, those
    from there on are not. *)
Definition place (locks : list lock) (key : Z) (i : nat) : Prop :=
  (i <= length locks)%nat
  /\ (forall j lk, locks !! j = Some lk -> (j < i)%nat -> lk_key lk < key)
  /\ (forall j lk, locks !! j = Some lk -> (i <= j)%nat -> key <= lk_key lk).

Lemma sorted_lookup locks i j a b :
  StronglySorted by_key locks -> locks !! i = Some a -> locks !! j = Some b ->
  (i < j)%nat -> lk_key a < lk_key b.
Proof.
  intros Hs. revert i j. induction Hs as [|x l Hs IH Hx]; intros i j Ha Hb Hij; [done|].
  destruct j as [|j]; [lia|]. destruct i as [|i]; cbn in *.
  - injection Ha as ->. rewrite Forall_forall in Hx. apply Hx. by eapply list_elem_of_lookup_2.
  - apply (IH i j); [done|done|lia].
Qed.

Lemma not_found_flag l : 0 <= l < 2 ^ 31 ->
  index_not_found (s32 (Z.lor l KEY_NOTFOUND_FLAG)) = true
  /\ index_position (s32 (Z.lor l KEY_NOTFOUND_FLAG)) = l.
Proof.
  intros Hl. assert (E : Z.lor l KEY_NOTFOUND_FLAG = l + 1 * 2 ^ 31).
  { change KEY_NOTFOUND_FLAG with (Z.shiftl 1 31). apply lor_add_shift; lia. }
  rewrite E.
  assert (E2 : u32 (s32 (l + 1 * 2 ^ 31)) = l + 1 * 2 ^ 31).
  { unfold wrap_u, wrap_s. rewrite Zminus_mod_idemp_l.
    replace (l + 1 * 2 ^ 31 + 2 ^ (32 - 1) - 2 ^ (32 - 1)) with (l + 1 * 2 ^ 31) by lia.
    apply Z.mod_small. lia. }
  unfold index_not_found, index_position. rewrite E2. split.
  - change KEY_NOTFOUND_FLAG with (Z.shiftl (Z.ones 1) 31). rewrite land_field by lia.
    rewrite Z.div_add, (Z.div_small l) by lia. done.
  - change (u32 (Z.lnot KEY_NOTFOUND_FLAG)) with (2 ^ 31 - 1). rewrite land_low by lia.
    rewrite Z.mod_add, Z.mod_small by lia. apply wrap_s_small; unfold in_s; lia.
Qed.

Lemma found_flag l : 0 <= l < 2 ^ 31 -> index_not_found l = false.
Proof.
  intros Hl. unfold index_not_found, wrap_u. rewrite Z.mod_small by lia.
  change KEY_NOTFOUND_FLAG with (Z.shiftl (Z.ones 1) 31). rewrite land_field by lia.
  rewrite (Z.div_small l) by lia. done.
Qed.

Lemma search_loop_spec fuel locks key l h :
  StronglySorted by_key locks -> Z.of_nat (length locks) < 2 ^ 30 ->
  0 <= l <= h + 1 -> h < Z.of_nat (length locks) -> h + 1 - l < Z.of_nat fuel ->
  (forall j lk, locks !! j = Some lk -> Z.of_nat j < l -> lk_key lk < key) ->
  (forall j lk, locks !! j = Some lk -> h < Z.of_nat j -> key < lk_key lk) ->
  exists i, place locks key i
    /\ search_loop fuel locks key l h
       = Some (match locks !! i with
               | Some lk => if lk_key lk =? key then Z.of_nat i
                            else s32 (Z.lor (Z.of_nat i) KEY_NOTFOUND_FLAG)
               | None => s32 (Z.lor (Z.of_nat i) KEY_NOTFOUND_FLAG)
               end).
Proof.
  intros Hs Hlen. revert l h. induction fuel as [|f IH]; intros l h Hl Hh Hf Hlo Hhi; [lia|].
  cbn [search_loop]. destruct (Z.leb_spec l h) as [Hle|Hgt].
  - set (m := Z.quot (l + h) 2). assert (Hm : l <= m <= h) by (unfold m; zquot).
    destruct (locks !! Z.to_nat m) as [lk|] eqn:E; cbn [mbind option_bind].
    2:{ apply lookup_ge_None in E. lia. }
    case_test; [|case_test].
    + exists (Z.to_nat m). split.
      * split; [apply lookup_lt_Some in E; lia|]. split.
        -- intros j lk' Hj Hjm. rewrite Hb. by apply (sorted_lookup locks j (Z.to_nat m)).
        -- intros j lk' Hj Hjm. destruct (decide (j = Z.to_nat m)) as [->|Hne]; [simplify_eq; lia|].
           assert (lk_key lk < lk_key lk') by (apply (sorted_lookup locks (Z.to_nat m) j); [done..|lia]). lia.
      * rewrite E. rewrite (proj2 (Z.eqb_eq _ _)) by done. f_equal. lia.
    + apply IH; [lia|lia|lia|done|]. intros j lk' Hj Hjm.
      destruct (decide (j = Z.to_nat m)) as [->|Hne]; [simplify_eq; lia|].
      assert (lk_key lk < lk_key lk') by (apply (sorted_lookup locks (Z.to_nat m) j); [done..|lia]). lia.
    + apply IH; [lia|lia|lia| |done]. intros j lk' Hj Hjm.
      destruct (decide (j = Z.to_nat m)) as [->|Hne]; [simplify_eq; lia|].
      assert (lk_key lk' < lk_key lk) by (apply (sorted_lookup locks j (Z.to_nat m)); [done..|lia]). lia.
  - exists (Z.to_nat l). split.
    + split; [lia|]. split; intros j lk Hj Hjl; [apply (Hlo j lk Hj)|apply Z.lt_le_incl, (Hhi j lk Hj)]; lia.
    + rewrite Z2Nat.id by lia. destruct (locks !! Z.to_nat l) as [lk|] eqn:E; [|done].
      assert (key < lk_key lk) by (apply (Hhi _ lk E); lia).
      by rewrite (proj2 (Z.eqb_neq _ _)) by lia.
Qed.

Lemma search_key_index_spec arr key :
  arr_ok arr ->
  exists i, place (sorted_array arr) key i
    /\ search_key_index (sorted_array arr) (num_used arr) key
       = Some (match sorted_array arr !! i with
               | Some lk => if lk_key lk =? key then Z.of_nat i
                            else s32 (Z.lor (Z.of_nat i) KEY_NOTFOUND_FLAG)
               | None => s32 (Z.lor (Z.of_nat i) KEY_NOTFOUND_FLAG)
               end).
Proof.
  intros (Hs & Hn & Hmax). unfold search_key_index, num_used in *.
  apply search_loop_spec; try lia; [done|].
  intros j lk Hj Hl. apply lookup_lt_Some in Hj. lia.
Qed.

Lemma sorted_keys_inj locks a b :
  StronglySorted by_key locks -> a ∈ locks -> b ∈ locks -> lk_key a = lk_key b -> a = b.
Proof.
  intros Hs (i & Hi)%list_elem_of_lookup_1 (j & Hj)%list_elem_of_lookup_1 Hk.
  destruct (Nat.lt_trichotomy i j) as [H|[->|H]]; [|congruence|].
  - pose proof (sorted_lookup _ _ _ _ _ Hs Hi Hj H). lia.
  - pose proof (sorted_lookup _ _ _ _ _ Hs Hj Hi H). lia.
Qed.

Lemma place_insert_sorted locks key i :
  StronglySorted by_key locks -> place locks key i ->
  (forall lk, lk ∈ locks -> lk_key lk <> key) ->
  StronglySorted by_key (take i locks ++ lock_init key :: drop i locks).
Proof.
  intros Hs (Hle & Hlo & Hhi) Hne.
  rewrite <- (take_drop i locks) in Hs.
  assert (F1 : Forall (fun x => lk_key x < key) (take i locks)).
  { apply Forall_lookup. intros j lk Hj. apply lookup_take_Some in Hj as [Hj Hji].
    by apply (Hlo j). }
  assert (F2 : Forall (fun x => key < lk_key x) (drop i locks)).
  { apply Forall_lookup. intros j lk Hj. rewrite lookup_drop in Hj.
    assert (key <= lk_key lk) by (apply (Hhi _ _ Hj); lia).
    assert (lk_key lk <> key) by (apply Hne; by eapply list_elem_of_lookup_2). lia. }
  revert Hs F1 F2. generalize (take i locks) (drop i locks). intros l1 l2 Hs F1 F2.
  induction l1 as [|x l1 IH]; cbn in *.
  - by constructor.
  - apply StronglySorted_inv in Hs as [Hs Hx]. apply Forall_cons in F1 as [Fx F1].
    constructor; [by apply IH|]. apply Forall_app in Hx as [Hx1 Hx2].
    apply Forall_app. split; [done|]. by constructor.
Qed.

(** C13. Looking up a lock by key: the binary search terminates; an existing
    lock is found and the array unchanged; without [create] a missing key gives
    no lock; with it a fresh lock is inserted at its place, the array stays
    sorted, every other lock is kept and the capacity is doubled when needed.
    The insertion stays in the array unless it fills it exactly, where the move
    of the entries writes one past the end. *)
Theorem lock_array_get_lock_correct arr key create :
  arr_ok arr ->
  (forall lk, lk ∈ sorted_array arr -> lk_key lk = key ->
     exists i, lock_array_get_lock arr key create = Some (arr, Some i)
       /\ sorted_array arr !! Z.to_nat i = Some lk)
  /\ ((forall lk, lk ∈ sorted_array arr -> lk_key lk <> key) ->
      if create then
        if decide (num_used arr + 1 = num_max arr) then
          lock_array_get_lock arr key create = None
        else
          exists arr' i l1 l2, lock_array_get_lock arr key create = Some (arr', Some i)
            /\ sorted_array arr = l1 ++ l2 /\ sorted_array arr' = l1 ++ lock_init key :: l2
            /\ sorted_array arr' !! Z.to_nat i = Some (lock_init key)
            /\ StronglySorted by_key (sorted_array arr')
            /\ num_max arr <= num_max arr' /\ num_used arr' <= num_max arr'
      else lock_array_get_lock arr key create = Some (arr, None)).
Proof.
  intros Hok. destruct (search_key_index_spec arr key Hok) as (i & Hp & E).
  destruct Hok as (Hs & Hn & Hmax). assert (Hp' := Hp). destruct Hp' as (Hle & Hlo & Hhi).
  unfold num_used in *. unfold lock_array_get_lock, num_used. rewrite E. cbn [mbind option_bind].
  destruct (not_found_flag (Z.of_nat i)) as [Hnf Hpos]; [lia|].
  assert (Hf : index_not_found (Z.of_nat i) = false) by (apply found_flag; lia).
  split.
  - intros lk Hin Hk. apply list_elem_of_lookup_1 in Hin as [j Hj].
    assert (i <= j)%nat by (destruct (decide (j < i)%nat) as [Hlt|]; [specialize (Hlo j lk Hj Hlt)|]; lia).
    assert (i < length (sorted_array arr))%nat as [lk' Hi]%lookup_lt_is_Some
      by (apply lookup_lt_Some in Hj; lia).
    assert (key <= lk_key lk') by (apply (Hhi i); [done|lia]).
    destruct (decide (i = j)) as [->|Hne].
    2:{ pose proof (sorted_lookup _ _ _ _ _ Hs Hi Hj ltac:(lia)). lia. }
    rewrite Hj, (proj2 (Z.eqb_eq _ _)), Hf by done. eexists. split; [done|]. by rewrite Nat2Z.id.
  - intros Hne.
    assert (Ei : match sorted_array arr !! i with
                 | Some lk => if lk_key lk =? key then Z.of_nat i
                              else s32 (Z.lor (Z.of_nat i) KEY_NOTFOUND_FLAG)
                 | None => s32 (Z.lor (Z.of_nat i) KEY_NOTFOUND_FLAG)
                 end = s32 (Z.lor (Z.of_nat i) KEY_NOTFOUND_FLAG)).
    { destruct (sorted_array arr !! i) as [lk|] eqn:Hi; [|done].
      rewrite (proj2 (Z.eqb_neq _ _)); [done|]. apply Hne. by eapply list_elem_of_lookup_2. }
    rewrite Ei, Hnf, Hpos. destruct create; cbn [negb]; [|done].
    replace (Z.of_nat i + (Z.of_nat (length (sorted_array arr)) + 1 - Z.of_nat i))
      with (Z.of_nat (length (sorted_array arr)) + 1) by lia.
    case_decide as Hd.
    + rewrite (proj2 (Z.ltb_ge (num_max arr) _)) by lia.
      by rewrite (proj2 (Z.ltb_ge _ (num_max arr))) by lia.
    + rewrite (proj2 (Z.ltb_lt (Z.of_nat (length (sorted_array arr)) + 1) _)) by (case_test; lia).
      eexists _, _, (take i (sorted_array arr)), (drop i (sorted_array arr)).
      split; [reflexivity|]. cbn [sorted_array num_max]. rewrite Nat2Z.id.
      split; [by rewrite take_drop|]. split; [done|]. split.
      { rewrite lookup_app_r by (rewrite length_take; lia).
        rewrite length_take. replace (i - i `min` length (sorted_array arr))%nat with 0%nat by lia. done. }
      split; [by apply place_insert_sorted|]. split; [case_test; lia|].
      rewrite length_app, length_take. cbn [length]. rewrite length_drop. case_test; lia.
Qed.

Definition three_locks : lock_array :=
  mk_array 128 [lock_init 10; mk_lock 20 1 2 [7; 8] None; lock_init 30].

Lemma lock_array_get_lock_correct_witness :
  exists arr' i l1 l2, lock_array_get_lock three_locks 25 true = Some (arr', Some i)
    /\ sorted_array three_locks = l1 ++ l2 /\ sorted_array arr' = l1 ++ lock_init 25 :: l2
    /\ sorted_array arr' !! Z.to_nat i = Some (lock_init 25)
    /\ StronglySorted by_key (sorted_array arr')
    /\ num_max three_locks <= num_max arr' /\ num_used arr' <= num_max arr'.
Proof.
  destruct (lock_array_get_lock_correct three_locks 25 true) as [_ H].
  - split; [repeat constructor|]. split; [vm_compute; discriminate|].
    split; [vm_compute; discriminate|reflexivity].
  - apply H. intros lk Hin. cbn in Hin.
    repeat (apply elem_of_cons in Hin as [->|Hin]; [cbn; lia|]). by apply elem_of_nil in Hin.
Defined.

(** The 128th lock of a new server overflows the array. *)
Example insertion_overflows_at_128 :
  lock_array_get_lock (mk_array 128 ((fun i => lock_init (Z.of_nat i)) <$> seq 0 127)) 1000 true
  = None.
Proof. vm_compute. reflexivity. Qed.

(** ** Garbage collection *)

Lemma drop_unused_loop_spec n locks src dst :
  (dst <= src)%nat -> (src + n = length locks)%nat ->
  let '(locks', dst') := drop_unused_loop n locks src dst in
  length locks' = length locks
  /\ take dst' locks'
     = take dst locks ++ filter (fun lk => lock_is_unused lk = false) (drop src locks).
Proof.
  revert locks src dst. induction n as [|n IH]; intros locks src dst Hd Hn; cbn.
  - rewrite (drop_ge locks src) by lia. by rewrite app_nil_r.
  - destruct (lookup_lt_is_Some_2 locks src ltac:(lia)) as [lk Hlk]. rewrite Hlk.
    rewrite (drop_S locks lk src Hlk), filter_cons.
    destruct (lock_is_unused lk) eqn:Hu.
    + rewrite decide_False by done. apply IH; lia.
    + rewrite decide_True by done. case_test.
      * subst. specialize (IH locks (S dst) (S dst)). destruct (drop_unused_loop n locks (S dst) (S dst)).
        destruct IH as [L E]; [lia|lia|]. split; [done|]. rewrite E.
        by rewrite (take_S_r locks dst lk Hlk), <- app_assoc.
      * specialize (IH (<[dst := lk]> locks) (S src) (S dst)).
        destruct (drop_unused_loop n (<[dst := lk]> locks) (S src) (S dst)).
        rewrite length_insert in IH. destruct IH as [L E]; [lia|lia|]. split; [done|]. rewrite E.
        rewrite (take_S_r _ dst lk), take_insert_ge by (first [lia|apply list_lookup_insert_eq; lia]).
        rewrite drop_insert_lt by lia. by rewrite <- app_assoc.
Qed.

(** C39. Garbage collection keeps exactly the locks in use, in order: a lock goes
    away only if no wake-up is owed or stored, no client waits and no cleanup
    job is left; the array stays sorted and within its capacity. *)
Theorem drop_unused_keeps_used arr :
  arr_ok arr ->
  sorted_array (lock_array_drop_unused arr)
  = filter (fun lk => nwaiter lk <> 0 \/ waiters_queue lk <> [] \/ job lk <> None) (sorted_array arr)
  /\ arr_ok (lock_array_drop_unused arr).
Proof.
  intros (Hs & Hn & Hm). unfold num_used in *.
  assert (E : sorted_array (lock_array_drop_unused arr)
    = filter (fun lk => lock_is_unused lk = false) (sorted_array arr)).
  { unfold lock_array_drop_unused.
    pose proof (drop_unused_loop_spec (length (sorted_array arr)) (sorted_array arr) 0 0) as H.
    destruct (drop_unused_loop _ _ _ _). destruct H as [_ ->]; [done|lia|]. done. }
  split.
  - rewrite E. apply list_filter_iff. intros lk. unfold lock_is_unused.
    destruct (Z.eqb_spec (nwaiter lk) 0), (waiters_queue lk), (job lk); cbn; naive_solver.
  - assert (Hmax : num_max (lock_array_drop_unused arr) = num_max arr)
      by (unfold lock_array_drop_unused; by destruct (drop_unused_loop _ _ _ _)).
    split; [|unfold num_used; rewrite Hmax, E].
    + rewrite E. clear -Hs. induction Hs as [|x l Hs IH Hx]; [constructor|].
      rewrite filter_cons. case_decide; [|done]. constructor; [done|].
      apply Forall_forall. intros y Hy. apply list_elem_of_filter in Hy as [_ Hy].
      rewrite Forall_forall in Hx. by apply Hx.
    + pose proof (length_filter (fun lk => lock_is_unused lk = false) (sorted_array arr)). lia.
Qed.

Lemma drop_unused_keeps_used_witness :
  sorted_array (lock_array_drop_unused three_locks) = [mk_lock 20 1 2 [7; 8] None].
Proof.
  destruct (drop_unused_keeps_used three_locks) as [-> _].
  - split; [repeat constructor|]. split; [vm_compute; discriminate|].
    split; [vm_compute; discriminate|reflexivity].
  - reflexivity.
Defined.

(** ** Wake-ups

    The contract of a lock towards mutexes, whose waits and wakes all have the
    value 1: a counting semaphore with a first-in first-out queue. *)

Inductive sem_op := SemWait (tc : Z) | SemWake (num : Z).

Record sem := mk_sem { sem_queue : list Z; sem_tokens : Z }.

Definition sem_step (s : sem) (op : sem_op) : sem * list Z :=
  match op with
  | SemWait tc =>
      if 0 <? sem_tokens s then (mk_sem (sem_queue s) (sem_tokens s - 1), [tc])
      else (mk_sem (sem_queue s ++ [tc]) (sem_tokens s), [])
  | SemWake num =>
      let woken := take (Z.to_nat num) (sem_queue s) in
      (mk_sem (drop (Z.to_nat num) (sem_queue s))
              (sem_tokens s + num - Z.of_nat (length woken)), woken)
  end.

(** The lock operations behind a wait and a wake request, and the clients woken. *)
Definition lock_step (wakeup_val : Z -> Z) (lk : lock) (op : sem_op) : lock * list Z :=
  match op with
  | SemWait tc =>
      let '(lk', is_waiting) := lock_add_waiter wakeup_val lk tc in
      (lk', if is_waiting then [] else [tc])
  | SemWake num => lock_wake_waiters wakeup_val lk num 1
  end.

Fixpoint run_ops {S : Type} (step : S -> sem_op -> S * list Z) (s : S) (ops : list sem_op)
    : S * list Z :=
  match ops with
  | [] => (s, [])
  | op :: ops' =>
      let '(s1, w1) := step s op in
      let '(s2, w2) := run_ops step s1 ops' in (s2, w1 ++ w2)
  end.

Definition sem_rel (lk : lock) (s : sem) : Prop :=
  waiters_queue lk = sem_queue s
  /\ nwaiter lk = Z.of_nat (length (sem_queue s)) - sem_tokens s
  /\ 0 <= sem_tokens s
  /\ (0 < sem_tokens s -> sem_queue s = [] /\ 1 <= max_wakeup_val lk).

Lemma wake_scan_ones wv q num val :
  (forall tc, wv tc <= val) -> 0 <= num ->
  wake_scan wv q num val = (drop (Z.to_nat num) q, take (Z.to_nat num) q).
Proof.
  intros Hv. revert num. induction q as [|tc q IH]; intros num Hn; cbn.
  - by rewrite drop_nil, take_nil.
  - case_test; [by subst|]. rewrite (proj2 (Z.ltb_ge _ _)) by apply Hv.
    rewrite IH by lia.
    replace (Z.to_nat num) with (S (Z.to_nat (num - 1))) by lia. done.
Qed.

Lemma lock_step_refines wv lk s op :
  (forall tc, wv tc = 1) -> match op with SemWake num => 0 <= num | _ => True end ->
  sem_rel lk s ->
  snd (lock_step wv lk op) = snd (sem_step s op)
  /\ sem_rel (fst (lock_step wv lk op)) (fst (sem_step s op)).
Proof.
  intros Hv Hop (Hq & Hn & Ht & Hpos). destruct op as [tc|num]; cbn [lock_step sem_step].
  - unfold lock_add_waiter. rewrite Hv, Hn.
    destruct (Z.ltb_spec 0 (sem_tokens s)) as [Hlt|Hge].
    + destruct (Hpos Hlt) as [Eq Hmax]. rewrite Eq. cbn [length].
      rewrite (proj2 (Z.leb_le _ 0)), (proj2 (Z.leb_le 1 _)) by lia. cbn.
      split; [done|]. split; [cbn; congruence|]. cbn [nwaiter sem_queue sem_tokens length max_wakeup_val].
      split; [lia|]. split; [lia|done].
    + assert (sem_tokens s = 0) as E0 by lia. rewrite E0 in *.
      rewrite (proj2 (Z.leb_gt _ 0)) by lia. cbn [andb snd fst].
      split; [done|]. split; [by cbn; rewrite Hq|]. cbn. rewrite length_app. cbn. lia.
  - unfold lock_wake_waiters. rewrite Hq, wake_scan_ones by (intros; rewrite ?Hv; lia).
    cbn [fst snd]. split; [done|]. split; [done|]. cbn.
    rewrite Hn, length_drop, length_take. split; [lia|]. split; [lia|].
    intros Hlt. split; [|lia]. apply drop_ge.
    destruct (decide (0 < sem_tokens s)) as [Hp|]; [destruct (Hpos Hp) as [-> _]; cbn; lia|lia].
Qed.

Definition arrivals (ops : list sem_op) : list Z :=
  omap (fun op => match op with SemWait tc => Some tc | _ => None end) ops.

Definition n_wakes (ops : list sem_op) : Z :=
  foldr (fun op n => match op with SemWake num => num + n | _ => n end) 0 ops.

Definition sem_ok (s : sem) : Prop :=
  0 <= sem_tokens s /\ (0 < sem_tokens s -> sem_queue s = []).

Lemma sem_step_conserves s op :
  sem_ok s -> match op with SemWake num => 0 <= num | _ => True end ->
  let '(s', woken) := sem_step s op in
  sem_ok s'
  /\ woken ++ sem_queue s' = sem_queue s ++ arrivals [op]
  /\ sem_tokens s' + Z.of_nat (length woken) = sem_tokens s + n_wakes [op].
Proof.
  intros [Ht Hp] Hop. destruct op as [tc|num]; cbn.
  - case_test; cbn.
    + rewrite (Hp Hb). split; [split; cbn; [lia|done]|]. split; [done|lia].
    + split; [split; cbn; lia|]. split; [done|lia].
  - rewrite app_nil_r, take_drop, length_take.
    split; [split; cbn|split; [done|]].
    + destruct (decide (0 < sem_tokens s)) as [H|H]; [rewrite (Hp H); cbn|]; lia.
    + intros H. apply drop_ge.
      destruct (decide (0 < sem_tokens s)) as [H'|H']; [rewrite (Hp H'); cbn|]; lia.
    + lia.
Qed.

Lemma run_refines wv ops lk s :
  (forall tc, wv tc = 1) ->
  Forall (fun op => match op with SemWake num => 0 <= num | _ => True end) ops ->
  sem_rel lk s ->
  let '(lk', woken) := run_ops (lock_step wv) lk ops in
  let '(s', woken') := run_ops sem_step s ops in
  woken = woken' /\ sem_rel lk' s' /\ sem_ok s'
  /\ woken ++ sem_queue s' = sem_queue s ++ arrivals ops
  /\ sem_tokens s' + Z.of_nat (length woken) = sem_tokens s + n_wakes ops.
Proof.
  intros Hv. revert lk s. induction ops as [|op ops IH]; intros lk s Hops Hrel; cbn [run_ops].
  - split; [done|]. split; [done|]. assert (sem_ok s) by (destruct Hrel as (_ & _ & ? & H); split; [done|apply H]).
    split; [done|]. cbn. rewrite app_nil_r. split; [done|lia].
  - apply Forall_cons in Hops as [Hop Hops].
    assert (Hok : sem_ok s) by (destruct Hrel as (_ & _ & ? & H); split; [done|apply H]).
    destruct (lock_step_refines wv lk s op Hv Hop Hrel) as [E R].
    pose proof (sem_step_conserves s op Hok Hop) as C.
    destruct (lock_step wv lk op) as [lk1 w1], (sem_step s op) as [s1 w1']. cbn in E, R. subst w1'.
    destruct C as (Ok1 & C1 & C2). specialize (IH lk1 s1 Hops R).
    destruct (run_ops (lock_step wv) lk1 ops) as [lk2 w2], (run_ops sem_step s1 ops) as [s2 w2'].
    destruct IH as (<- & R2 & Ok2 & D1 & D2).
    split; [done|]. split; [done|]. split; [done|]. split.
    + rewrite <- app_assoc, D1, app_assoc, C1, <- app_assoc. f_equal.
      unfold arrivals. change (op :: ops) with ([op] ++ ops). by rewrite omap_app.
    + rewrite length_app. unfold n_wakes in *. destruct op; cbn in *; lia.
Qed.

(** C8. The referee is a counting semaphore for the waits and wakes of mutexes,
    all of value 1: whatever their order, also when a wake-up arrives before the
    wait it is meant for, the clients are woken in the order of their arrival,
    none is lost or woken twice, and their number is the minimum of the waits
    and of the wake-ups requested. *)
Theorem lock_is_semaphore wv key ops :
  (forall tc, wv tc = 1) ->
  Forall (fun op => match op with SemWake num => 0 <= num | _ => True end) ops ->
  let '(lk, woken) := run_ops (lock_step wv) (lock_init key) ops in
  woken ++ waiters_queue lk = arrivals ops
  /\ Z.of_nat (length woken) = Z.min (Z.of_nat (length (arrivals ops))) (n_wakes ops)
  /\ nwaiter lk = Z.of_nat (length (arrivals ops)) - n_wakes ops
  /\ woken = snd (run_ops sem_step (mk_sem [] 0) ops).
Proof.
  intros Hv Hops.
  assert (R : sem_rel (lock_init key) (mk_sem [] 0)) by (split; [done|split; [done|split; [done|cbn; lia]]]).
  pose proof (run_refines wv ops _ _ Hv Hops R) as H.
  destruct (run_ops (lock_step wv) (lock_init key) ops) as [lk w].
  destruct (run_ops sem_step (mk_sem [] 0) ops) as [s w'].
  destruct H as (<- & (Hq & Hn & Ht & Hp) & _ & D1 & D2). cbn in D1, D2.
  rewrite Hq. split; [done|]. rewrite <- D1, length_app.
  split; [|split; [rewrite Hn; lia|done]].
  destruct (decide (0 < sem_tokens s)) as [H|H]; [destruct (Hp H) as [E _]; rewrite E; cbn|]; lia.
Qed.

Lemma lock_is_semaphore_witness :
  let '(lk, woken) := run_ops (lock_step (fun _ => 1)) (lock_init 9)
                        [SemWake 1; SemWait 4; SemWait 8; SemWait 12; SemWake 2] in
  woken = [4; 8; 12] /\ Z.of_nat (length woken) = 3.
Proof.
  pose proof (lock_is_semaphore (fun _ => 1) 9
    [SemWake 1; SemWait 4; SemWait 8; SemWait 12; SemWake 2] ltac:(reflexivity)
    ltac:(repeat constructor; discriminate)) as H.
  vm_compute in H |- *. destruct H as (_ & E & _). split; [reflexivity|exact E].
Defined.

(** Condition variables use increasing values.  When the requests of two waits
    arrive in the other order, the wake-up stored for the first waiter is not
    seen when it arrives: both sleep although a signal was sent for one. *)
Example reordered_waits_lose_a_signal :
  let wv tc := if tc =? 4 then 0 else 1 in
  let lk1 := fst (lock_add_waiter wv (lock_init 9) 8) in
  let '(lk2, woken) := lock_wake_waiters wv lk1 1 0 in
  woken = [] /\ snd (lock_add_waiter wv lk2 4) = true
  /\ waiters_queue (fst (lock_add_waiter wv lk2 4)) = [8; 4].
Proof. repeat split; reflexivity. Qed.
