(* ===== verification/RefereeServer.v ===== *)
(** * The lock referee: clients and requests

    The part of [lock-referee-server.c] that handles the connected threads:
    requests, completions, wake-ups, timeouts and the death of a thread.  The
    server state holds the lock array of [Referee], the memory of the timeout
    lists of [PtrLists] and the log of the responses queued on the pipes.
    [None] is undefined behaviour: a null dereference, an access to a freed
    client or out of an array. *)

From Stdlib Require Import Sorted.
From S2P Require Import Prelude Time MutexVal PsharedMutex PtrLists Referee Threads.

Inductive response :=
| RespWake | RespWait (timedout : Z) | RespInitlock (key : Z) | RespGetrobust (num_locked_max : Z)
| RespCleanup | RespError.

Inductive message :=
| MsgWake (num_wakeup key val : Z)
| MsgWait (key val clk_flags : Z) (timeout : mm_timespec)
| MsgInitlock (system_time_low : Z)
| MsgGetrobust (num_keys : Z)
| MsgCleanupDone (key num_wakeup : Z)
| MsgInvalid.

Record thread_client := mk_client {
  cl_wakeup_val : Z;
  waiting_lock_key : Z;
  cl_wait_timeout : mm_timespec;
  num_pending_request : Z;
  being_destroyed : bool;
  cl_robust_data : option robust_data
}.

Record server := mk_server {
  watched_locks : lock_array;
  clients : gmap Z thread_client;
  timeout_heap : heap;
  written : list (Z * response);
  num_thread_client : Z;
  quit : bool;
  last_value : Z
}.

(** Addresses of the heads of the two timeout lists. *)
Definition realtime_timeout_list : Z := -1.
Definition monotonic_timeout_list : Z := -2.

Definition set_locks (arr : lock_array) (sv : server) : server :=
  mk_server arr (clients sv) (timeout_heap sv) (written sv) (num_thread_client sv) (quit sv) (last_value sv).

Definition set_clients (m : gmap Z thread_client) (sv : server) : server :=
  mk_server (watched_locks sv) m (timeout_heap sv) (written sv) (num_thread_client sv) (quit sv) (last_value sv).

Definition set_heap (h : heap) (sv : server) : server :=
  mk_server (watched_locks sv) (clients sv) h (written sv) (num_thread_client sv) (quit sv) (last_value sv).

Definition log_write (tc : Z) (r : response) (sv : server) : server :=
  mk_server (watched_locks sv) (clients sv) (timeout_heap sv) (written sv ++ [(tc, r)])
    (num_thread_client sv) (quit sv) (last_value sv).

Definition lockref_server_update_thread_count (adjustment : Z) (sv : server) : server :=
  let n := num_thread_client sv + adjustment in
  mk_server (watched_locks sv) (clients sv) (timeout_heap sv) (written sv) n (n =? 0) (last_value sv).

Definition update_client (tc : Z) (f : thread_client -> thread_client) (sv : server) : option server :=
  cl ← clients sv !! tc; Some (set_clients (<[tc := f cl]> (clients sv)) sv).

Definition set_wakeup_val (v : Z) (c : thread_client) : thread_client :=
  mk_client v (waiting_lock_key c) (cl_wait_timeout c) (num_pending_request c) (being_destroyed c) (cl_robust_data c).
Definition set_waiting_lock_key (k : Z) (c : thread_client) : thread_client :=
  mk_client (cl_wakeup_val c) k (cl_wait_timeout c) (num_pending_request c) (being_destroyed c) (cl_robust_data c).
Definition set_wait_timeout (t : mm_timespec) (c : thread_client) : thread_client :=
  mk_client (cl_wakeup_val c) (waiting_lock_key c) t (num_pending_request c) (being_destroyed c) (cl_robust_data c).
Definition add_pending (n : Z) (c : thread_client) : thread_client :=
  mk_client (cl_wakeup_val c) (waiting_lock_key c) (cl_wait_timeout c) (num_pending_request c + n) (being_destroyed c) (cl_robust_data c).
Definition set_being_destroyed (c : thread_client) : thread_client :=
  mk_client (cl_wakeup_val c) (waiting_lock_key c) (cl_wait_timeout c) (num_pending_request c) true (cl_robust_data c).
Definition set_robust_data (rd : option robust_data) (c : thread_client) : thread_client :=
  mk_client (cl_wakeup_val c) (waiting_lock_key c) (cl_wait_timeout c) (num_pending_request c) (being_destroyed c) rd.

(** [lockref_server_get_lock] followed by a use of the lock: a null result is
    dereferenced. *)
Definition with_lock {A : Type} (key : Z) (create : bool) (f : lock -> option (lock * A)) (sv : server)
    : option (server * A) :=
  '(arr, oi) ← lock_array_get_lock (watched_locks sv) key create;
  i ← oi;
  lk ← sorted_array arr !! Z.to_nat i;
  '(lk', a) ← f lk;
  Some (set_locks (mk_array (num_max arr) (<[Z.to_nat i := lk']> (sorted_array arr))) sv, a).

Definition client_wakeup_val (sv : server) (tc : Z) : Z :=
  from_option cl_wakeup_val 0 (clients sv !! tc).

Definition client_timeout (sv : server) (tc : Z) : mm_timespec :=
  from_option cl_wait_timeout (mk_ts 0 0) (clients sv !! tc).

Section Server.
(** Whether a read or a write can be queued on the pipe of a client, and
    whether file mappings can be created. *)
Variable io_ok : Z -> bool.
Variable mapping_ok : bool.

(** ** Death of a client *)

Definition report_dead (key : Z) (is_waiter : bool) (tid : Z) (sv : server) : option server :=
  '(sv', _) ← with_lock key true
    (fun lk => lk' ← lock_report_dead mapping_ok lk is_waiter tid; Some (lk', tt)) sv;
  Some sv'.

Fixpoint report_locked (keys : list Z) (tid : Z) (sv : server) : option server :=
  match keys with
  | [] => Some sv
  | key :: keys' => sv1 ← report_dead key false tid sv; report_locked keys' tid sv1
  end.

Definition thread_client_cleanup_robust_data (rdata : option robust_data) (sv : server)
    : option server :=
  match rdata with
  | None => Some sv
  | Some rd =>
      if decide (num_locked rd <= Z.of_nat (length (locked_keys rd))) then
        sv1 ← report_locked (take (Z.to_nat (num_locked rd)) (locked_keys rd)) (thread_id rd) sv;
        if negb (attempt_key rd =? 0) then report_dead (attempt_key rd) (is_waiter rd) (thread_id rd) sv1
        else Some sv1
      else None
  end.

Definition thread_client_destroy (tc : Z) (sv : server) : option server :=
  sv0 ← update_client tc set_being_destroyed sv;
  cl ← clients sv0 !! tc;
  if negb (num_pending_request cl =? 0) then Some sv0
  else
    sv1 ← (if negb (waiting_lock_key cl =? 0) then
             '(s, _) ← with_lock (waiting_lock_key cl) false
                         (fun lk => Some (lock_drop_waiter lk tc, tt)) sv0;
             h ← detach_list_node (timeout_heap s) tc;
             Some (set_heap h s)
           else Some sv0);
    sv2 ← thread_client_cleanup_robust_data (cl_robust_data cl) sv1;
    Some (lockref_server_update_thread_count (-1) (set_clients (delete tc (clients sv2)) sv2)).

(** ** Input and output on the pipe of a client *)

Definition thread_client_queue_read (tc : Z) (sv : server) : option server :=
  cl ← clients sv !! tc;
  if being_destroyed cl then Some sv
  else if io_ok tc then update_client tc (add_pending 1) sv
  else thread_client_destroy tc sv.

Definition thread_client_queue_write (tc : Z) (r : response) (sv : server) : option server :=
  cl ← clients sv !! tc;
  if being_destroyed cl then Some sv
  else if io_ok tc then sv1 ← update_client tc (add_pending 1) sv; Some (log_write tc r sv1)
  else thread_client_destroy tc sv.

Definition thread_client_wakeup (tc : Z) (timedout : bool) (sv : server) : option server :=
  h ← detach_list_node (timeout_heap sv) tc;
  sv1 ← update_client tc (set_waiting_lock_key 0) (set_heap h sv);
  thread_client_queue_write tc (RespWait (if timedout then 0 else 1)) sv1.

Fixpoint wakeup_all (l : list Z) (sv : server) : option server :=
  match l with
  | [] => Some sv
  | tc :: l' => sv1 ← thread_client_wakeup tc false sv; wakeup_all l' sv1
  end.

Definition thread_client_process_timeout (tc : Z) (sv : server) : option server :=
  cl ← clients sv !! tc;
  '(sv1, _) ← with_lock (waiting_lock_key cl) false (fun lk => Some (lock_drop_waiter lk tc, tt)) sv;
  thread_client_wakeup tc true sv1.

Definition thread_client_do_cleanup_job (tc : Z) (sv : server) : option server :=
  if mapping_ok then thread_client_queue_write tc RespCleanup sv else Some sv.

(** ** Requests *)

Definition wake_lock (key num val : Z) (create : bool) (prepare : lock -> option lock) (sv : server)
    : option server :=
  '(sv1, woken) ← with_lock key create
    (fun lk => lk1 ← prepare lk; Some (lock_wake_waiters (client_wakeup_val sv) lk1 num val)) sv;
  wakeup_all woken sv1.

Definition thread_client_handle_req_wake (tc num key val : Z) (sv : server) : option server :=
  sv1 ← wake_lock key num val true Some sv;
  thread_client_queue_write tc RespWake sv1.

Definition lockref_server_get_timeout_list (clk_flags : Z) : option Z :=
  let f := Z.land clk_flags WAITCLK_MASK in
  if f =? 0 then None
  else if f =? WAITCLK_FLAG_MONOTONIC then Some monotonic_timeout_list
  else if f =? WAITCLK_FLAG_REALTIME then Some realtime_timeout_list
  else None.

Definition thread_client_handle_req_wait (tc key val clk_flags : Z) (timeout : mm_timespec) (sv : server)
    : option server :=
  sv1 ← update_client tc (set_wakeup_val val) sv;
  '(sv2, is_waiting) ← with_lock key true
    (fun lk => Some (lock_add_waiter (client_wakeup_val sv1) lk tc)) sv1;
  if negb is_waiting then thread_client_wakeup tc false sv2
  else
    match lockref_server_get_timeout_list clk_flags with
    | None => Some sv2
    | Some head =>
        sv3 ← update_client tc (set_wait_timeout timeout) sv2;
        h ← timeout_list_add_waiter (client_timeout sv3) (S (size (timeout_heap sv3))) (timeout_heap sv3) head tc;
        Some (set_heap h sv3)
    end.

Definition thread_client_handle_req_initlock (tc low : Z) (sv : server) : option server :=
  let '(last', key) := gen_pshared_key (last_value sv) low in
  thread_client_queue_write tc (RespInitlock key)
    (mk_server (watched_locks sv) (clients sv) (timeout_heap sv) (written sv) (num_thread_client sv)
       (quit sv) last').

(** The fresh mapping is zeroed; its page size is a constant of the system. *)
Definition thread_client_add_robust_data (tc num_keys : Z) (sv : server) : option (server * Z) :=
  let n := keylocked_max (get_robust_data_size MM_PAGESZ num_keys) in
  sv1 ← update_client tc
    (set_robust_data (Some (mk_robust 0 0 false 0 (replicate (Z.to_nat n) 0)))) sv;
  Some (sv1, n).

Definition thread_client_handle_req_getrobust (tc num_keys : Z) (sv : server) : option server :=
  if mapping_ok then
    '(sv1, n) ← thread_client_add_robust_data tc num_keys sv;
    thread_client_queue_write tc (RespGetrobust n) sv1
  else thread_client_queue_write tc RespError sv.

Definition thread_client_handle_req_cleanup_done (key num : Z) (sv : server) : option server :=
  wake_lock key num 1 false lock_report_cleanup_job_done sv.

Definition handle_request (tc : Z) (m : message) (sv : server) : option server :=
  match m with
  | MsgWake num key val => thread_client_handle_req_wake tc num key val sv
  | MsgWait key val clk timeout => thread_client_handle_req_wait tc key val clk timeout sv
  | MsgInitlock low => thread_client_handle_req_initlock tc low sv
  | MsgGetrobust n => thread_client_handle_req_getrobust tc n sv
  | MsgCleanupDone key num => thread_client_handle_req_cleanup_done key num sv
  | MsgInvalid => thread_client_queue_write tc RespError sv
  end.

(** [msg] is [None] if the read failed or was too short. *)
Definition read_completed (tc : Z) (msg : option message) (sv : server) : option server :=
  sv1 ← update_client tc (add_pending (-1)) sv;
  cl ← clients sv1 !! tc;
  match msg with
  | Some m =>
      if being_destroyed cl then thread_client_destroy tc sv1
      else sv2 ← handle_request tc m sv1; thread_client_queue_read tc sv2
  | None => thread_client_destroy tc sv1
  end.

Definition write_completed (tc : Z) (ok : bool) (sv : server) : option server :=
  sv1 ← update_client tc (add_pending (-1)) sv;
  cl ← clients sv1 !! tc;
  if negb ok || being_destroyed cl then thread_client_destroy tc sv1 else Some sv1.

(** ** Main loop *)

Definition thread_client_create (tc : Z) (sv : server) : server :=
  lockref_server_update_thread_count 1
    (set_heap (<[tc := mk_node None None]> (timeout_heap sv))
      (set_clients (<[tc := mk_client 0 0 (mk_ts 0 0) 0 false None]> (clients sv)) sv)).

Definition lockref_server_handle_new_connection (tc : Z) (sv : server) : option server :=
  thread_client_queue_read tc (thread_client_create tc sv).

Fixpoint do_cleanup_jobs (l : list Z) (sv : server) : option server :=
  match l with
  | [] => Some sv
  | tc :: l' => sv1 ← thread_client_do_cleanup_job tc sv; do_cleanup_jobs l' sv1
  end.

Definition lockref_server_garbage_collection (sv : server) : option server :=
  let '(arr, todo) := lock_array_update_cleanup_jobs (lock_array_drop_unused (watched_locks sv)) in
  do_cleanup_jobs todo (set_locks arr sv).

(** The expired clients of a timeout list; [None] as node ends the walk. *)
Fixpoint update_timeouts (fuel : nat) (now : mm_timespec) (node : option Z) (sv : server)
    : option (server * Z) :=
  match fuel with
  | O => None
  | S f =>
      match node with
      | None => Some (sv, INT64_MAX)
      | Some tc =>
          diff_ns ← mm_timediff_ns (client_timeout sv tc) now;
          if 0 <=? diff_ns then Some (sv, diff_ns)
          else
            nd ← timeout_heap sv !! tc;
            sv1 ← thread_client_process_timeout tc sv;
            update_timeouts f now (next nd) sv1
      end
  end.

Definition update_timeout_list (now : mm_timespec) (head : Z) (sv : server) : option (server * Z) :=
  hd ← timeout_heap sv !! head;
  update_timeouts (S (size (timeout_heap sv))) now (next hd) sv.

Definition lockref_server_update_next_timeout_ns (now_real now_mono : mm_timespec) (sv : server)
    : option (server * Z) :=
  '(sv1, d1) ← update_timeout_list now_real realtime_timeout_list sv;
  '(sv2, d2) ← update_timeout_list now_mono monotonic_timeout_list sv1;
  Some (sv2, Z.min (Z.min INT64_MAX d1) d2).

Definition NSEC_IN_MSEC : Z := 1000000.

(** What the server reacts to; [EvLoop] is the start of a turn of the main
    loop, up to the wait, with the two clocks read. *)
Inductive server_event :=
| EvConnect (tc : Z)
| EvRead (tc : Z) (msg : option message)
| EvWritten (tc : Z) (ok : bool)
| EvCollect
| EvLoop (now_real now_mono : mm_timespec).

Definition server_step (e : server_event) (sv : server) : option server :=
  match e with
  | EvConnect tc => lockref_server_handle_new_connection tc sv
  | EvRead tc msg => read_completed tc msg sv
  | EvWritten tc ok => write_completed tc ok sv
  | EvCollect => lockref_server_garbage_collection sv
  | EvLoop r m => '(sv1, _) ← lockref_server_update_next_timeout_ns r m sv; Some sv1
  end.

(** The time passed to the wait of the main loop. *)
Definition wait_ms (timeout_ns : Z) : Z := clamp_i64_to_dword (Z.quot timeout_ns NSEC_IN_MSEC).

Definition server_start : server :=
  mk_server lock_array_init ∅
    {[ realtime_timeout_list := mk_node None None; monotonic_timeout_list := mk_node None None ]}
    [] 0 false 0.

Definition server_run (l : list server_event) : option server :=
  fold_left (fun o e => sv ← o; server_step e sv) l (Some server_start).
End Server.

(** ** The lock array as a map

    Clients of the array see a finite map from keys to locks. *)

Definition lock_map (arr : lock_array) : gmap Z lock :=
  list_to_map ((fun lk => (lk_key lk, lk)) <$> sorted_array arr).

Lemma sorted_by_key_iff l : StronglySorted by_key l <-> StronglySorted Z.lt (lk_key <$> l).
Proof.
  induction l as [|x l IH]; cbn; [split; constructor|].
  split; intros H; apply StronglySorted_inv in H as [H1 H2]; constructor; try by apply IH.
  - apply Forall_fmap. exact H2.
  - apply (proj1 (Forall_fmap _ _ _)) in H2. exact H2.
Qed.

Lemma sorted_keys_nodup l : StronglySorted by_key l -> NoDup (lk_key <$> l).
Proof.
  intros H%sorted_by_key_iff. revert H. generalize (lk_key <$> l). intros ks H.
  induction H as [|x ks Hs IH Hx]; constructor; [|done].
  intros Hin. rewrite Forall_forall in Hx. specialize (Hx x Hin). lia.
Qed.

Lemma lock_map_lookup arr k lk :
  StronglySorted by_key (sorted_array arr) ->
  lock_map arr !! k = Some lk <-> lk ∈ sorted_array arr /\ lk_key lk = k.
Proof.
  intros Hs. unfold lock_map. rewrite <- elem_of_list_to_map.
  - rewrite list_elem_of_fmap. naive_solver.
  - rewrite <- list_fmap_compose. by apply sorted_keys_nodup.
Qed.

(** The lock a request for [key] works on: the watched one or a fresh one. *)
Definition lock_for (arr : lock_array) (key : Z) : lock := default (lock_init key) (lock_map arr !! key).

Lemma update_lock_sorted l i lk lk' :
  StronglySorted by_key l -> l !! i = Some lk -> lk_key lk' = lk_key lk ->
  StronglySorted by_key (<[i := lk']> l).
Proof.
  intros Hs Hi Hk. apply sorted_by_key_iff. rewrite list_fmap_insert, Hk.
  rewrite list_insert_id; [by apply sorted_by_key_iff|]. by rewrite list_lookup_fmap, Hi.
Qed.

Lemma update_lock_map n n' l i lk lk' :
  StronglySorted by_key l -> l !! i = Some lk -> lk_key lk' = lk_key lk ->
  lock_map (mk_array n (<[i := lk']> l)) = <[lk_key lk := lk']> (lock_map (mk_array n' l)).
Proof.
  intros Hs Hi Hk. apply map_eq. intros k. apply option_eq. intros x.
  assert (Hs' := update_lock_sorted l i lk lk' Hs Hi Hk).
  rewrite lock_map_lookup by done. cbn [sorted_array].
  assert (Hlen := lookup_lt_Some _ _ _ Hi).
  rewrite lookup_insert_Some, lock_map_lookup by done. cbn [sorted_array].
  rewrite !list_elem_of_lookup. split.
  - intros [(j & Hj) <-]. destruct (decide (j = i)) as [->|Hne].
    + rewrite list_lookup_insert_eq in Hj by done. injection Hj as <-. by left.
    + rewrite list_lookup_insert_ne in Hj by done. right. split; [|eauto].
      intros E. apply Hne. destruct (Nat.lt_trichotomy j i) as [H|[H|H]]; [|done|].
      * pose proof (sorted_lookup l j i x lk Hs Hj Hi H). lia.
      * pose proof (sorted_lookup l i j lk x Hs Hi Hj H). lia.
  - intros [[<- <-]|[Hne ((j & Hj) & <-)]].
    + split; [|done]. exists i. by rewrite list_lookup_insert_eq.
    + split; [|done]. exists j. rewrite list_lookup_insert_ne; [done|]. intros ->. congruence.
Qed.

(** The array can take [n] more locks without filling up. *)
Definition has_room (arr : lock_array) (n : Z) : Prop := num_used arr + n < num_max arr.

Lemma with_lock_create {A} key (f : lock -> option (lock * A)) sv lk' a :
  arr_ok (watched_locks sv) -> has_room (watched_locks sv) 1 ->
  f (lock_for (watched_locks sv) key) = Some (lk', a) -> lk_key lk' = key ->
  exists arr',
    with_lock key true f sv = Some (set_locks arr' sv, a)
    /\ arr_ok arr' /\ lock_map arr' = <[key := lk']> (lock_map (watched_locks sv))
    /\ num_max arr' = num_max (watched_locks sv)
    /\ num_used arr' <= num_used (watched_locks sv) + 1.
Proof.
  set (arr := watched_locks sv). intros Hok Hroom Hf Hk. unfold with_lock. fold arr.
  unfold has_room in Hroom.
  destruct (lock_array_get_lock_correct arr key true Hok) as [Hfound Hnew].
  destruct (lock_map arr !! key) as [lk|] eqn:Hm.
  - assert (Hlk := Hm). apply lock_map_lookup in Hlk as [Hin Hkey]; [|apply Hok].
    destruct (Hfound lk Hin Hkey) as (i & -> & Hi). cbn [mbind option_bind]. rewrite Hi.
    cbn [mbind option_bind]. unfold lock_for in Hf. rewrite Hm in Hf. cbn in Hf. rewrite Hf.
    cbn [mbind option_bind]. eexists. split; [reflexivity|].
    destruct Hok as (Hs & Hn & Hmax). unfold num_used in *. cbn [sorted_array num_max].
    rewrite length_insert. split; [|split; [|lia]].
    + split; [apply (update_lock_sorted _ _ lk); [done|done|congruence]|].
      unfold num_used; cbn. rewrite length_insert. done.
    + rewrite (update_lock_map _ (num_max arr) _ _ lk) by (done || congruence).
      rewrite Hkey. by destruct arr.
  - assert (Hne : forall lk, lk ∈ sorted_array arr -> lk_key lk <> key).
    { intros lk Hin Hkey. enough (lock_map arr !! key = Some lk) by congruence.
      by apply lock_map_lookup; [apply Hok|]. }
    specialize (Hnew Hne). cbv iota in Hnew. rewrite decide_False in Hnew by lia.
    destruct Hnew as (arr1 & i & l1 & l2 & E & El & El1 & Ei & Hs1 & Hmax1 & Hused1).
    rewrite E. cbn [mbind option_bind]. rewrite Ei. cbn [mbind option_bind].
    unfold lock_for in Hf. rewrite Hm in Hf. cbn in Hf. rewrite Hf. cbn [mbind option_bind].
    eexists. split; [reflexivity|].
    destruct Hok as (Hs & Hn & Hmax). unfold num_used in *. cbn [sorted_array num_max].
    assert (Hlen : length (sorted_array arr1) = S (length (sorted_array arr)))
      by (rewrite El, El1, !length_app; cbn; lia).
    assert (Emax : num_max arr1 = num_max arr).
    { clear -E Hroom. unfold lock_array_get_lock, num_used in E.
      destruct (search_key_index _ _ _) as [r|]; [|done]. cbn in E.
      destruct (index_not_found r); [|by injection E as <- _].
      rewrite (proj2 (Z.ltb_ge (num_max arr) _)) in E by lia.
      repeat case_match; simplify_eq; done. }
    split; [|split; [|rewrite length_insert; lia]].
    + split; [by apply (update_lock_sorted _ _ (lock_init key))|].
      unfold num_used; cbn. rewrite length_insert. split; [done|]. lia.
    + rewrite (update_lock_map _ (num_max arr1) _ _ (lock_init key)) by done.
      apply map_eq. intros k. cbn [lk_key lock_init].
      destruct (decide (k = key)) as [->|Hkne]; [by rewrite !lookup_insert_eq|].
      rewrite !lookup_insert_ne by done. apply option_eq. intros x.
      rewrite !lock_map_lookup by done. cbn [sorted_array].
      rewrite El, El1, !elem_of_app, elem_of_cons. naive_solver.
Qed.

Lemma lock_for_key arr key : StronglySorted by_key (sorted_array arr) -> lk_key (lock_for arr key) = key.
Proof.
  intros Hs. unfold lock_for. destruct (lock_map arr !! key) as [lk|] eqn:E; [|done].
  by apply lock_map_lookup in E as [_ E].
Qed.

Lemma lock_for_insert arr arr' key lk k :
  lock_map arr' = <[key := lk]> (lock_map arr) ->
  lock_for arr' k = if decide (k = key) then lk else lock_for arr k.
Proof.
  intros E. unfold lock_for. rewrite E. case_decide; [subst; by rewrite lookup_insert_eq|].
  by rewrite lookup_insert_ne.
Qed.

(** ** Reports of dead threads *)

Definition deadlist_at (sv : server) (k : Z) : list dead_thread :=
  from_option deadlist [] (job (lock_for (watched_locks sv) k)).

Definition same_but_locks (sv sv' : server) : Prop := sv' = set_locks (watched_locks sv') sv.

Lemma report_dead_ok key w tid sv :
  arr_ok (watched_locks sv) -> has_room (watched_locks sv) 1 ->
  Z.of_nat (length (deadlist_at sv key)) < deadlist_max ->
  exists sv', report_dead true key w tid sv = Some sv'
    /\ (forall k, deadlist_at sv' k = deadlist_at sv k ++ if decide (k = key) then [mk_dead w tid] else [])
    /\ (forall k, waiters_queue (lock_for (watched_locks sv') k) = waiters_queue (lock_for (watched_locks sv) k)
               /\ nwaiter (lock_for (watched_locks sv') k) = nwaiter (lock_for (watched_locks sv) k))
    /\ same_but_locks sv sv' /\ arr_ok (watched_locks sv')
    /\ (forall n, has_room (watched_locks sv) (n + 1) -> has_room (watched_locks sv') n).
Proof.
  intros Hok Hroom Hlen. unfold report_dead.
  set (lk := lock_for (watched_locks sv) key).
  assert (exists lk', lock_report_dead true lk w tid = Some lk' /\ lk_key lk' = key
     /\ from_option deadlist [] (job lk') = deadlist_at sv key ++ [mk_dead w tid]
     /\ waiters_queue lk' = waiters_queue lk /\ nwaiter lk' = nwaiter lk)
    as (lk' & E & Hk & Hd & Hq & Hn).
  { unfold lock_report_dead, deadlist_at in *. fold lk in Hlen |- *.
    assert (Hk : lk_key lk = key) by (apply lock_for_key, Hok).
    destruct (job lk) as [j|] eqn:Ej; cbn in Hlen |- *.
    - rewrite Ej, (proj2 (Z.ltb_lt _ _)) by done. eexists. split; [reflexivity|]. done.
    - rewrite (proj2 (Z.ltb_lt _ _)) by done. eexists. split; [reflexivity|]. done. }
  edestruct (with_lock_create key
    (fun lk => lk' ← lock_report_dead true lk w tid; Some (lk', tt)) sv lk' tt)
    as (arr' & -> & Hok' & Hm & Hmax & Hused); [done|done|by fold lk; rewrite E|done|].
  cbn [mbind option_bind]. eexists. split; [reflexivity|]. unfold deadlist_at.
  cbn [watched_locks set_locks]. split; [|split; [|split; [done|split; [done|]]]].
  - intros k. rewrite (lock_for_insert _ _ _ _ k Hm). case_decide; subst; [done|by rewrite app_nil_r].
  - intros k. rewrite (lock_for_insert _ _ _ _ k Hm). by case_decide; subst.
  - unfold has_room. intros n. lia.
Qed.

Definition count_key (k : Z) (keys : list Z) : nat := length (filter (fun x => x = k) keys).

Lemma report_locked_ok keys tid sv :
  arr_ok (watched_locks sv) -> has_room (watched_locks sv) (Z.of_nat (length keys) + 1) ->
  (forall k, Z.of_nat (length (deadlist_at sv k)) + Z.of_nat (length keys) < deadlist_max) ->
  exists sv', report_locked true keys tid sv = Some sv'
    /\ (forall k, deadlist_at sv' k = deadlist_at sv k ++ replicate (count_key k keys) (mk_dead false tid))
    /\ (forall k, waiters_queue (lock_for (watched_locks sv') k) = waiters_queue (lock_for (watched_locks sv) k)
               /\ nwaiter (lock_for (watched_locks sv') k) = nwaiter (lock_for (watched_locks sv) k))
    /\ same_but_locks sv sv' /\ arr_ok (watched_locks sv') /\ has_room (watched_locks sv') 1.
Proof.
  revert sv. induction keys as [|key keys IH]; intros sv Hok Hroom Hlen; cbn [report_locked length] in *.
  - eexists. split; [reflexivity|]. cbn. split; [intros k; by rewrite app_nil_r|].
    split; [done|]. split; [by destruct sv|]. done.
  - destruct (report_dead_ok key false tid sv) as (sv1 & -> & D1 & Q1 & S1 & Ok1 & R1); [done|..].
    { unfold has_room in *. lia. } { specialize (Hlen key). lia. }
    cbn [mbind option_bind].
    destruct (IH sv1) as (sv2 & -> & D2 & Q2 & S2 & Ok2 & R2); [done|..].
    { apply R1. unfold has_room in *. lia. }
    { intros k. rewrite D1, length_app. specialize (Hlen k). case_decide; cbn; lia. }
    eexists. split; [reflexivity|]. split; [|split; [|split; [|done]]].
    + intros k. rewrite D2, D1, <- app_assoc. f_equal. unfold count_key. rewrite filter_cons.
      case_decide; subst; [by rewrite decide_True|].
      rewrite decide_False by congruence. done.
    + intros k. destruct (Q2 k) as [-> ->]. apply Q1.
    + unfold same_but_locks in *. rewrite S2, S1. done.
Qed.




(** ** Wait and wake requests *)

(** A server whose clients are all served: connected, none in a timeout list,
    every queued client is known. *)
Record serving (sv : server) : Prop := {
  sv_arr : arr_ok (watched_locks sv);
  sv_room : has_room (watched_locks sv) 1;
  sv_clients : map_Forall (fun tc cl => being_destroyed cl = false
      /\ timeout_heap sv !! tc = Some (mk_node None None)) (clients sv);
  sv_queued : forall k x, x ∈ waiters_queue (lock_for (watched_locks sv) k) -> is_Some (clients sv !! x)
}.

(** What a sequence of wake-ups leaves alone. *)
Definition clients_alike (m m' : gmap Z thread_client) : Prop :=
  dom m' = dom m
  /\ forall tc cl', m' !! tc = Some cl' -> exists cl, m !! tc = Some cl
       /\ being_destroyed cl' = being_destroyed cl /\ cl_wakeup_val cl' = cl_wakeup_val cl.

Lemma clients_alike_refl m : clients_alike m m.
Proof. split; [done|]. eauto. Qed.

Lemma clients_alike_trans m1 m2 m3 : clients_alike m1 m2 -> clients_alike m2 m3 -> clients_alike m1 m3.
Proof.
  intros [D1 H1] [D2 H2]. split; [congruence|]. intros tc cl3 H3.
  destruct (H2 _ _ H3) as (cl2 & E2 & -> & ->). destruct (H1 _ _ E2) as (cl1 & ? & -> & ->). eauto.
Qed.

Lemma clients_alike_insert m tc cl cl' :
  m !! tc = Some cl -> being_destroyed cl' = being_destroyed cl -> cl_wakeup_val cl' = cl_wakeup_val cl ->
  clients_alike m (<[tc := cl']> m).
Proof.
  intros Hm Hb Hw. split; [apply dom_insert_lookup_L; eauto|].
  intros tc2 c2 H2. destruct (decide (tc2 = tc)) as [->|].
  - rewrite lookup_insert_eq in H2. simplify_eq. eauto.
  - rewrite lookup_insert_ne in H2 by done. eauto.
Qed.

Lemma queue_write_ok io_ok tc r sv cl :
  io_ok tc = true -> clients sv !! tc = Some cl -> being_destroyed cl = false ->
  exists m, thread_client_queue_write io_ok true tc r sv = Some (log_write tc r (set_clients m sv))
    /\ clients_alike (clients sv) m.
Proof.
  intros Hio Hcl Hd. unfold thread_client_queue_write, update_client. rewrite Hcl. cbn.
  rewrite Hd, Hio. cbn. eexists. split; [reflexivity|]. by apply (clients_alike_insert _ _ cl).
Qed.

Lemma wakeup_ok io_ok tc sv cl :
  io_ok tc = true -> clients sv !! tc = Some cl -> being_destroyed cl = false ->
  timeout_heap sv !! tc = Some (mk_node None None) ->
  exists m, thread_client_wakeup io_ok true tc false sv
      = Some (log_write tc (RespWait 1) (set_clients m sv))
    /\ clients_alike (clients sv) m.
Proof.
  intros Hio Hcl Hd Hh. unfold thread_client_wakeup, detach_list_node. rewrite Hh.
  cbn [mbind option_bind next prev]. rewrite Hh. cbn [mbind option_bind prev].
  unfold update_client. cbn [clients set_heap]. rewrite Hcl. cbn [mbind option_bind].
  set (cl1 := set_waiting_lock_key 0 cl).
  destruct (queue_write_ok io_ok tc (RespWait 1)
    (set_clients (<[tc := cl1]> (clients sv)) (set_heap (timeout_heap sv) sv)) cl1)
    as (m & E & A); [done|cbn; by rewrite lookup_insert_eq|done|].
  rewrite E. exists m. split; [by destruct sv|].
  eapply clients_alike_trans; [|exact A]. cbn. by apply (clients_alike_insert _ _ cl).
Qed.

Lemma wakeup_all_ok io_ok l sv :
  (forall tc, io_ok tc = true) ->
  (forall tc, tc ∈ l -> is_Some (clients sv !! tc)) ->
  map_Forall (fun tc cl => being_destroyed cl = false
      /\ timeout_heap sv !! tc = Some (mk_node None None)) (clients sv) ->
  exists sv', wakeup_all io_ok true l sv = Some sv'
    /\ watched_locks sv' = watched_locks sv
    /\ written sv' = written sv ++ ((fun tc => (tc, RespWait 1)) <$> l)
    /\ clients_alike (clients sv) (clients sv').
Proof.
  intros Hio. revert sv. induction l as [|tc l IH]; intros sv Hl Hm; cbn [wakeup_all].
  - eexists. split; [reflexivity|]. split; [done|]. split; [by rewrite app_nil_r|]. apply clients_alike_refl.
  - destruct (Hl tc) as [cl Hcl]; [left|].
    destruct (map_Forall_lookup_1 _ _ _ _ Hm Hcl) as [Hd Hh].
    destruct (wakeup_ok io_ok tc sv cl (Hio tc) Hcl Hd Hh) as (m & -> & A). cbn [mbind option_bind].
    destruct (IH (log_write tc (RespWait 1) (set_clients m sv))) as (sv' & -> & W & R & A').
    + intros x Hx. cbn. apply elem_of_dom. destruct A as [-> _]. apply elem_of_dom. apply Hl. by right.
    + intros x cx Hx. cbn in Hx |- *. destruct A as [_ A]. destruct (A _ _ Hx) as (cl0 & Hcl0 & -> & _).
      apply (map_Forall_lookup_1 _ _ _ _ Hm Hcl0).
    + exists sv'. split; [done|]. split; [done|]. split; [rewrite R; cbn; by rewrite <- app_assoc|].
      by eapply clients_alike_trans.
Qed.

Lemma wake_scan_subset wv q num val x : x ∈ snd (wake_scan wv q num val) -> x ∈ q.
Proof.
  revert num. induction q as [|tc q IH]; intros num; cbn; [done|].
  case_test; cbn; [intros H; by apply elem_of_nil in H|]. case_test.
  - specialize (IH num). destruct (wake_scan wv q num val). cbn in *. intros H. right. by apply IH.
  - specialize (IH (num - 1)). destruct (wake_scan wv q (num - 1) val). cbn in *.
    intros [->|H]%elem_of_cons; [left|right; by apply IH].
Qed.

Lemma wake_request_served io_ok tc sv num key val :
  (forall x, io_ok x = true) -> serving sv -> is_Some (clients sv !! tc) ->
  let '(lk', woken) := lock_wake_waiters (client_wakeup_val sv) (lock_for (watched_locks sv) key) num val in
  exists sv', handle_request io_ok true tc (MsgWake num key val) sv = Some sv'
    /\ lock_map (watched_locks sv') = <[key := lk']> (lock_map (watched_locks sv))
    /\ written sv' = written sv ++ ((fun x => (x, RespWait 1)) <$> woken) ++ [(tc, RespWake)]
    /\ clients_alike (clients sv) (clients sv').
Proof.
  intros Hio [Harr Hroom Hcl Hq] [cl Htc].
  destruct (map_Forall_lookup_1 _ _ _ _ Hcl Htc) as [Hd Hh].
  unfold lock_wake_waiters.
  destruct (wake_scan (client_wakeup_val sv) (waiters_queue (lock_for (watched_locks sv) key)) num val)
    as [rest woken] eqn:E.
  cbn [handle_request]. unfold thread_client_handle_req_wake, wake_lock.
  edestruct (with_lock_create key
    (fun lk => lk1 ← Some lk; Some (lock_wake_waiters (client_wakeup_val sv) lk1 num val)) sv)
    as (arr' & -> & Hok' & Hm & _); [done|done| | |].
  { cbn [mbind option_bind]. unfold lock_wake_waiters. rewrite E. reflexivity. }
  { apply lock_for_key, Harr. }
  cbn [mbind option_bind].
  destruct (wakeup_all_ok io_ok woken (set_locks arr' sv)) as (sv1 & -> & W1 & R1 & A1); [done| |done|].
  { intros x Hx. apply (Hq key). change woken with (snd (rest, woken)) in Hx. rewrite <- E in Hx.
    by apply wake_scan_subset in Hx. }
  cbn [mbind option_bind]. cbn in A1.
  assert (exists cl1, clients sv1 !! tc = Some cl1) as [cl1 Hcl1].
  { apply elem_of_dom. destruct A1 as [-> _]. apply elem_of_dom. eauto. }
  destruct (queue_write_ok io_ok tc RespWake sv1 cl1) as (m & -> & A2); [done|done| |].
  { destruct A1 as [_ A1]. destruct (A1 _ _ Hcl1) as (cl0 & H0 & -> & _). congruence. }
  eexists. split; [reflexivity|]. cbn. rewrite W1, R1. cbn. split; [done|]. split; [by rewrite <- app_assoc|].
  by eapply clients_alike_trans.
Qed.

Lemma wait_request_served io_ok tc sv key val timeout :
  (forall x, io_ok x = true) -> serving sv -> is_Some (clients sv !! tc) ->
  let wv x := if decide (x = tc) then val else client_wakeup_val sv x in
  let '(lk', waiting) := lock_add_waiter wv (lock_for (watched_locks sv) key) tc in
  exists sv', handle_request io_ok true tc (MsgWait key val 0 timeout) sv = Some sv'
    /\ lock_map (watched_locks sv') = <[key := lk']> (lock_map (watched_locks sv))
    /\ written sv' = written sv ++ (if waiting then [] else [(tc, RespWait 1)])
    /\ (exists cl, clients sv !! tc = Some cl /\ clients_alike (<[tc := set_wakeup_val val cl]> (clients sv)) (clients sv'))
    /\ timeout_heap sv' = timeout_heap sv /\ arr_ok (watched_locks sv')
    /\ (forall n, has_room (watched_locks sv) (n + 1) -> has_room (watched_locks sv') n).
Proof.
  intros Hio [Harr Hroom Hcl Hq] [cl Htc] wv.
  destruct (map_Forall_lookup_1 _ _ _ _ Hcl Htc) as [Hd Hh].
  destruct (lock_add_waiter wv (lock_for (watched_locks sv) key) tc) as [lk' waiting] eqn:E.
  cbn [handle_request]. unfold thread_client_handle_req_wait, update_client. rewrite Htc.
  cbn [mbind option_bind]. set (sv1 := set_clients (<[tc := set_wakeup_val val cl]> (clients sv)) sv).
  assert (Ewv : forall x, client_wakeup_val sv1 x = wv x).
  { intros x. unfold client_wakeup_val, wv. cbn. case_decide; subst; [by rewrite lookup_insert_eq|].
    by rewrite lookup_insert_ne. }
  assert (E' : lock_add_waiter (client_wakeup_val sv1) (lock_for (watched_locks sv1) key) tc = (lk', waiting)).
  { unfold lock_add_waiter in *. rewrite Ewv. exact E. }
  assert (Hk : lk_key lk' = key).
  { rewrite <- (lock_for_key (watched_locks sv) key) by apply Harr.
    clear -E. unfold lock_add_waiter in E. case_match; by simplify_eq. }
  edestruct (with_lock_create key
    (fun lk => Some (lock_add_waiter (client_wakeup_val sv1) lk tc)) sv1)
    as (arr' & -> & Hok' & Hm & Hmax & Hused); [done|done|by rewrite E'|done|].
  cbn [mbind option_bind]. destruct waiting; cbn [negb].
  - change (lockref_server_get_timeout_list 0) with (@None Z). cbv iota.
    eexists. split; [reflexivity|]. cbn. rewrite app_nil_r. split_and!; try done; [|intros n; unfold has_room in *; cbn in *; lia].
    exists cl. split; [done|]. apply clients_alike_refl.
  - destruct (wakeup_ok io_ok tc (set_locks arr' sv1) (set_wakeup_val val cl)) as (m & -> & Ha);
      [done|cbn; by rewrite lookup_insert_eq|done|done|].
    eexists. split; [reflexivity|]. cbn. split_and!; try done; [|intros n; unfold has_room in *; cbn in *; lia]. by exists cl.
Qed.

(** C9. The requests act on the lock of their key alone and as the lock does: a
    wake request wakes the clients the lock selects, in order, and is
    acknowledged; an untimed wait request is answered at once if a wake-up was
    stored, otherwise the client is queued and nothing is sent.  A client that
    is woken normally gets the value 1 in the field that means that the wait
    timed out. *)
Theorem requests_served io_ok tc sv :
  (forall x, io_ok x = true) -> serving sv -> is_Some (clients sv !! tc) ->
  (forall num key val,
     let '(lk', woken) := lock_wake_waiters (client_wakeup_val sv) (lock_for (watched_locks sv) key) num val in
     exists sv', handle_request io_ok true tc (MsgWake num key val) sv = Some sv'
       /\ lock_map (watched_locks sv') = <[key := lk']> (lock_map (watched_locks sv))
       /\ written sv' = written sv ++ ((fun x => (x, RespWait 1)) <$> woken) ++ [(tc, RespWake)])
  /\ (forall key val timeout,
     let wv x := if decide (x = tc) then val else client_wakeup_val sv x in
     let '(lk', waiting) := lock_add_waiter wv (lock_for (watched_locks sv) key) tc in
     exists sv', handle_request io_ok true tc (MsgWait key val 0 timeout) sv = Some sv'
       /\ lock_map (watched_locks sv') = <[key := lk']> (lock_map (watched_locks sv))
       /\ written sv' = written sv ++ (if waiting then [] else [(tc, RespWait 1)])).
Proof.
  intros Hio Hs Htc. split; intros.
  - pose proof (wake_request_served io_ok tc sv num key val Hio Hs Htc) as H. destruct (lock_wake_waiters _ _ _ _) as [lk' woken].
    destruct H as (sv' & H1 & H2 & H3 & _). by exists sv'.
  - pose proof (wait_request_served io_ok tc sv key val timeout Hio Hs Htc) as H. cbv zeta in H. fold wv in H. destruct (lock_add_waiter _ _ _) as [lk' waiting].
    destruct H as (sv' & H1 & H2 & H3 & _). by exists sv'.
Qed.

Definition two_clients : server :=
  mk_server (mk_array 128 [mk_lock 9 0 1 [4] None])
    {[ 4 := mk_client 1 0 (mk_ts 0 0) 1 false None; 8 := mk_client 0 0 (mk_ts 0 0) 0 false None ]}
    {[ 4 := mk_node None None; 8 := mk_node None None ]} [] 2 false 0.

(** Client 4 waits for lock 9, client 8 wakes it. *)
Lemma requests_served_witness :
  exists sv', handle_request (fun _ => true) true 8 (MsgWake 1 9 1) two_clients = Some sv'
    /\ written sv' = [(4, RespWait 1); (8, RespWake)].
Proof.
  destruct (requests_served (fun _ => true) 8 two_clients) as [H _].
  - reflexivity.
  - split.
    + split; [repeat constructor|]. split; [vm_compute; discriminate|].
      split; [vm_compute; discriminate|reflexivity].
    + reflexivity.
    + apply (bool_decide_unpack _). vm_compute. exact I.
    + intros k x. unfold lock_for, lock_map. cbn.
      destruct (decide (k = 9)) as [->|Hk].
      * rewrite lookup_insert_eq. cbn. intros Hx. apply list_elem_of_singleton in Hx as ->.
        eexists. reflexivity.
      * rewrite lookup_insert_ne, lookup_empty by done. cbn. intros Hx. by apply elem_of_nil in Hx.
  - eexists. reflexivity.
  - destruct (H 1 9 1) as (sv' & E & _ & W). exists sv'. split; [exact E|exact W].
Defined.

(** ** What the server does not survive *)

(** The key a client waits for is never recorded: when a timed wait expires,
    the lock is looked up with key 0, is not found, and is dereferenced. *)
Example expired_wait_crashes :
  let prefix := [EvConnect 4; EvRead 4 (Some (MsgWait 9 1 WAITCLK_FLAG_REALTIME (mk_ts 10 0)))] in
  is_Some (server_run (fun _ => true) true (prefix ++ [EvLoop (mk_ts 9 0) (mk_ts 1 0)]))
  /\ server_run (fun _ => true) true (prefix ++ [EvLoop (mk_ts 11 0) (mk_ts 1 0)]) = None.
Proof. split; [by vm_compute; eauto|reflexivity]. Qed.

(** A response that cannot be written frees the client before the next read is
    queued on it. *)
Lemma failed_write_uses_freed_client tc sv :
  clients sv !! tc = Some (mk_client 0 0 (mk_ts 0 0) 1 false None) ->
  read_completed (fun _ => false) true tc (Some MsgInvalid) sv = None.
Proof.
  intros H. unfold read_completed, update_client. rewrite H.
  cbn [mbind option_bind clients set_clients]. rewrite lookup_insert_eq.
  cbn [mbind option_bind being_destroyed add_pending]. cbn [handle_request].
  unfold thread_client_queue_write. cbn [clients set_clients]. rewrite lookup_insert_eq.
  cbn [mbind option_bind being_destroyed add_pending].
  unfold thread_client_destroy, update_client. cbn [clients set_clients]. rewrite lookup_insert_eq.
  cbn [mbind option_bind clients set_clients]. rewrite lookup_insert_eq.
  cbn. change (1 + -1 =? 0) with true. cbn. unfold thread_client_queue_read; cbn.
  by rewrite lookup_delete_eq.
Qed.
