(* ===== verification/RobustMutex.v ===== *)
(** * Process-shared mutexes, the referee and the death of threads

    The threads of [PsharedMutex] with the lock of the referee ([Referee]) in the place of its contract, the responses on
    their pipes, and threads that die at any point: the server notices the death, reports it in the job of the lock, gives
    the job to a thread that waits, and that thread repairs the lock value ([MutexVal]).  One step is one access to the
    memory shared by the threads, or one request handled by the server.  [None] is a step that cannot be taken: a thread
    that sleeps, or undefined behaviour, such as a response to a client already freed. *)

From S2P Require Import Prelude MutexVal PsharedMutex Referee RefereeServer.

(** ** State *)

(** The server has not noticed the death yet; it has; the lock value has been repaired. *)
Inductive life := Live | Died | Noticed | Repaired.

#[export] Instance life_eq_dec : EqDecision life.
Proof. solve_decision. Defined.

(** Where a thread stands: in the code of [PsharedMutex], where [LockWait] is before the request, or in
    [pshared_wait_on_lock] and the cleanup job it may be given. *)
Inductive wait_pc :=
| Run (pc : mtx_pc)
| Waiting (incval : Z)                     (* TransactNamedPipe *)
| JobMap (incval : Z)                      (* cleanup_mutex_lock: MapViewOfFile *)
| JobLoaded (incval lockval : Z)           (* the load of the lock value *)
| JobScanned (incval cleanup_val : Z)      (* the loop on the dead threads *)
| JobAdded (incval lockval : Z)            (* the addition *)
| JobAck (incval num_wakeup : Z).          (* num_dead is 0, the acknowledgement is not sent *)

(** The data of a dead thread stay where they were; [rt_mail]: the responses written and not read. *)
Record rthread := mk_rt { rt_rd : robust_data; rt_pc : wait_pc; rt_life : life; rt_mail : list response }.

Record rstate := mk_rs { rs_v : Z; rs_lk : lock; rs_thr : gmap Z rthread }.

Definition set_life (l : life) (th : rthread) : rthread := mk_rt (rt_rd th) (rt_pc th) l (rt_mail th).
Definition set_pc (pc : wait_pc) (th : rthread) : rthread := mk_rt (rt_rd th) pc (rt_life th) (rt_mail th).
Definition add_mail (r : response) (th : rthread) : rthread := mk_rt (rt_rd th) (rt_pc th) (rt_life th) (rt_mail th ++ [r]).

(** The value sent with the waits on a mutex. *)
Definition mutex_wakeup_val (tc : Z) : Z := 1.

Section Robust.
Variable mtx_key : Z.

(** ** The server *)

(** The client of a thread that died has no reader any more, or is freed. *)
Fixpoint deliver (r : response) (l : list Z) (T : gmap Z rthread) : option (gmap Z rthread) :=
  match l with
  | [] => Some T
  | t :: l' =>
      th ← T !! t;
      if decide (rt_life th = Live) then deliver r l' (<[t := add_mail r th]> T) else None
  end.

Definition woken_response : response := RespWait 1.

(** The part of [thread_client_cleanup_robust_data] for this mutex. *)
Definition report_key (is_waiter : bool) (tid key : Z) (lk : lock) : option lock :=
  if decide (key = mtx_key) then lock_report_dead true lk is_waiter tid else Some lk.

Fixpoint report_keys (keys : list Z) (tid : Z) (lk : lock) : option lock :=
  match keys with
  | [] => Some lk
  | key :: keys' => lk1 ← report_key false tid key lk; report_keys keys' tid lk1
  end.

Definition report_robust_data (rd : robust_data) (lk : lock) : option lock :=
  lk1 ← report_keys (take (Z.to_nat (num_locked rd)) (locked_keys rd)) (thread_id rd) lk;
  if negb (attempt_key rd =? 0) then report_key (is_waiter rd) (thread_id rd) (attempt_key rd) lk1 else Some lk1.

(** The waiting key of a client is never set: nothing is removed from the queue. *)
Definition disconnect (t : Z) (s : rstate) : option rstate :=
  th ← rs_thr s !! t;
  if decide (rt_life th = Died) then
    lk ← report_robust_data (rt_rd th) (rs_lk s);
    Some (mk_rs (rs_v s) lk (<[t := set_life Noticed th]> (rs_thr s)))
  else None.

Definition collect (s : rstate) : option rstate :=
  let lk := if lock_is_unused (rs_lk s) then lock_init mtx_key else rs_lk s in
  let '(lk', todo) := lock_start_or_remove_cleanup_job lk in
  T ← deliver RespCleanup (option_list todo) (rs_thr s);
  Some (mk_rs (rs_v s) lk' T).

(** A wake request, or the one of an acknowledgement. *)
Definition wake (num : Z) (lk : lock) (T : gmap Z rthread) : option (lock * gmap Z rthread) :=
  let '(lk', woken) := lock_wake_waiters mutex_wakeup_val lk num 1 in
  T' ← deliver woken_response woken T; Some (lk', T').

(** ** The threads *)

Definition put (s : rstate) (t : Z) (th : rthread) : rstate := mk_rs (rs_v s) (rs_lk s) (<[t := th]> (rs_thr s)).

Definition set_deadlist (l : list dead_thread) (lk : lock) : lock :=
  set_job ((fun j => mk_job (in_progress j) l) <$> job lk) lk.

(** What the repair undoes; nothing reads it, it says which deaths a lock value still bears. *)
Definition repair_done (th : rthread) : rthread := if decide (rt_life th = Noticed) then set_life Repaired th else th.

Definition exec_wait (s : rstate) (t : Z) (th : rthread) (incval : Z) : option rstate :=
  let '(lk, is_waiting) := lock_add_waiter mutex_wakeup_val (rs_lk s) t in
  let th' := set_pc (Waiting incval) th in
  Some (mk_rs (rs_v s) lk (<[t := if is_waiting then th' else add_mail woken_response th']> (rs_thr s))).

Definition exec_wake (s : rstate) (t : Z) (th : rthread) (num : Z) : option rstate :=
  '(lk, T) ← wake num (rs_lk s) (<[t := set_pc (Run UnlockFinish) th]> (rs_thr s));
  Some (mk_rs (rs_v s) lk T).

Definition exec_read (s : rstate) (t : Z) (th : rthread) (incval : Z) : option rstate :=
  match rt_mail th with
  | RespWait _ :: mail => Some (put s t (mk_rt (rt_rd th) (Run (LockReload incval)) (rt_life th) mail))
  | RespCleanup :: mail => Some (put s t (mk_rt (rt_rd th) (JobMap incval) (rt_life th) mail))
  | _ => None
  end.

Definition exec_add (s : rstate) (t : Z) (th : rthread) (incval cleanup_val : Z) : option rstate :=
  let v := s64 (rs_v s + cleanup_val) in
  Some (mk_rs v (rs_lk s) (repair_done <$> <[t := set_pc (JobAdded incval v) th]> (rs_thr s))).

Definition exec_ack (s : rstate) (t : Z) (th : rthread) (incval num : Z) : option rstate :=
  lk1 ← lock_report_cleanup_job_done (rs_lk s);
  '(lk, T) ← wake num lk1 (<[t := set_pc (Waiting incval) th]> (rs_thr s));
  Some (mk_rs (rs_v s) lk T).

Definition exec (s : rstate) (t : Z) (th : rthread) : option rstate :=
  match rt_pc th with
  | Run (LockWait incval) => exec_wait s t th incval
  | Run (UnlockWake num) => exec_wake s t th num
  | Run pc =>
      match mtx_step mtx_key (mk_shared (rs_v s) 0) (rt_rd th) pc with
      | Next sh rd pc' => Some (mk_rs (sh_lock sh) (rs_lk s) (<[t := mk_rt rd (Run pc') (rt_life th) (rt_mail th)]> (rs_thr s)))
      | Blocked | Undefined => None
      end
  | Waiting incval => exec_read s t th incval
  | JobMap incval => Some (put s t (set_pc (JobLoaded incval (rs_v s)) th))
  | JobLoaded incval lockval =>
      j ← job (rs_lk s); Some (put s t (set_pc (JobScanned incval (cleanup_change lockval (deadlist j))) th))
  | JobScanned incval cleanup_val => exec_add s t th incval cleanup_val
  | JobAdded incval lockval =>
      let num := if is_mtx_waited lockval && negb (is_mtx_locked lockval) then 1 else 0 in
      Some (mk_rs (rs_v s) (set_deadlist [] (rs_lk s)) (<[t := set_pc (JobAck incval num) th]> (rs_thr s)))
  | JobAck incval num => exec_ack s t th incval num
  end.

(** ** Actions *)

Inductive raction :=
| RExec (tid : Z)
| RLock (tid : Z)
| RTrylock (tid : Z)
| RUnlock (tid : Z)
| RConsistent (tid : Z)
| RDie (tid : Z)
| RDisconnect (tid : Z)
| RCollect.

Definition holding (rd : robust_data) : bool := num_locked rd =? 1.

Definition rcall (s : rstate) (t : Z) (th : rthread) (guard : bool) (f : robust_data -> robust_data * mtx_pc) : option rstate :=
  match rt_pc th with
  | Run (Returned _) =>
      if guard then let '(rd, pc) := f (rt_rd th) in Some (put s t (mk_rt rd (Run pc) (rt_life th) (rt_mail th))) else None
  | _ => None
  end.

Definition with_live (s : rstate) (t : Z) (f : rthread -> option rstate) : option rstate :=
  th ← rs_thr s !! t; if decide (rt_life th = Live) then f th else None.

(** A client locks a mutex it does not hold, unlocks or makes consistent one it holds. *)
Definition ract (s : rstate) (a : raction) : option rstate :=
  match a with
  | RExec t => with_live s t (exec s t)
  | RLock t => with_live s t (fun th => rcall s t th (negb (holding (rt_rd th))) (pshared_mtx_lock mtx_key))
  | RTrylock t => with_live s t (fun th => rcall s t th (negb (holding (rt_rd th))) (pshared_mtx_trylock mtx_key))
  | RUnlock t => with_live s t (fun th => rcall s t th (holding (rt_rd th)) pshared_mtx_unlock)
  | RConsistent t => with_live s t (fun th => rcall s t th (holding (rt_rd th)) pshared_mtx_consistent)
  | RDie t => with_live s t (fun th => Some (put s t (set_life Died th)))
  | RDisconnect t => disconnect t s
  | RCollect => collect s
  end.

Definition rrun (s : rstate) (l : list raction) : option rstate := fold_left (fun o a => s' ← o; ract s' a) l (Some s).

Definition rstart (tids : list Z) (max : nat) : rstate :=
  mk_rs 0 (lock_init mtx_key)
    (list_to_map ((fun t => (t, mk_rt (mk_robust t 0 false 0 (replicate max 0)) (Run (Returned 0)) Live [])) <$> tids)).

(** ** Schedules that avoid the known defects *)

(** In the memory of the job, from the load of the lock value to the reset of the list. *)
Definition in_job (th : rthread) : bool :=
  match rt_pc th with JobLoaded _ _ | JobScanned _ _ | JobAdded _ _ => true | _ => false end.

(** The thread has a cleanup job to do or to acknowledge. *)
Definition busy (th : rthread) : bool :=
  match rt_pc th with
  | JobMap _ | JobLoaded _ _ | JobScanned _ _ | JobAdded _ _ | JobAck _ _ => true
  | _ => match rt_mail th with RespCleanup :: _ => true | _ => false end
  end.

(** A thread does not die between the start of an unlock and its subtraction, in the queue of the referee, with a cleanup
    job, nor with a mutex whose previous owner died. *)
Definition clean_death (s : rstate) (t : Z) (th : rthread) : bool :=
  bool_decide (t ∉ waiters_queue (rs_lk s)) && negb (busy th)
  && (match rt_pc th with Run (UnlockSub _ _) => false | _ => true end)
  && negb (is_thread_mtx_owner (rs_v s) t && is_mtx_ownerdead (rs_v s)).

(** A thread does not register while another one has the waiter field. *)
Definition clean_exec (s : rstate) (th : rthread) : bool :=
  match rt_pc th with
  | Run (RegCas oldval _) => negb (oldval =? rs_v s) || (Z.land (rs_v s) MTX_WAITER_TID_MASK =? 0)
  | _ => true
  end.

Definition clean (s : rstate) (a : raction) : bool :=
  match a with
  | RExec t => match rs_thr s !! t with Some th => clean_exec s th | None => true end
  | RDie t => match rs_thr s !! t with Some th => clean_death s t th | None => true end
  | RUnlock t => negb (is_mtx_ownerdead (rs_v s))
  | RDisconnect t => forallb (fun p => negb (in_job (snd p))) (map_to_list (rs_thr s))
  | RLock _ | RTrylock _ | RConsistent _ | RCollect => true
  end.

Inductive clean_step (s : rstate) : rstate -> Prop :=
| clean_act a s' : clean s a = true -> ract s a = Some s' -> clean_step s s'.

Definition clean_reachable (tids : list Z) (max : nat) (s : rstate) : Prop := rtc clean_step (rstart tids max) s.

(** The longest prefix of a schedule that is clean is the whole of it. *)
Definition clean_run (s : rstate) (l : list raction) : option rstate :=
  fold_left (fun o a => s' ← o; if clean s' a then ract s' a else None) l (Some s).

End Robust.

(** ** What a thread bears on the lock value *)

Definition repaired_life (th : rthread) : bool := match rt_life th with Repaired => true | _ => false end.

Definition holds (th : rthread) : bool :=
  negb (repaired_life th) && match rt_pc th with Run pc => owns (mk_thread (rt_rd th) pc) | _ => false end.

Definition counted (th : rthread) : bool :=
  negb (repaired_life th) && match rt_pc th with Run pc => registered (mk_thread (rt_rd th) pc) | _ => true end.

Definition marking (th : rthread) : bool :=
  negb (repaired_life th) && match rt_pc th with Run (RegMark _) | Run (RegRelease _) => true | _ => false end.

Section Invariant.
Context {mtx_key : Z}.

(** The robust data of a thread: with the mutex in its list, attempting it, marked as waiter. *)
Definition shape (held att wait : bool) (rd : robust_data) : Prop :=
  (0 < length (locked_keys rd))%nat
  /\ (if held then num_locked rd = 1 /\ locked_keys rd !! 0%nat = Some mtx_key else num_locked rd = 0)
  /\ attempt_key rd = (if att then mtx_key else 0) /\ is_waiter rd = wait.

Definition slept (t i : Z) (rd : robust_data) : Prop := shape false true true rd /\ i = s64 (t - 2 ^ 32).

(** [r]: the need-recover bit. *)
Definition run_ok (r t : Z) (rd : robust_data) (pc : mtx_pc) : Prop :=
  match pc with
  | Returned _ => exists held, shape held false false rd
  | LockCas o i false => shape false true false rd /\ o = 0 /\ i = t
  | LockCas o i true => slept t i rd /\ owner_of o = 0
  | LockWait i | LockReload i => slept t i rd
  | RegCas o i => shape false true false rd /\ nwaiter_of o < 255 /\ i = t
  | RegReload _ => False
  | RegMark i => shape false true false rd /\ i = t
  | RegRelease i => shape false true true rd /\ i = t
  | TryCas n o nv => shape false true false rd /\ owner_of o = 0 /\ 0 <= n <= 2 /\ (n = 0 -> o = 0) /\ (n < 2 -> nv = s64 (o + t))
  | MtxFinish true o => (exists wait, shape false true wait rd) /\ recover_of o = r
  | MtxFinish false _ => shape false true false rd
  | UnlockLoad => shape true false false rd /\ r = 0
  | UnlockSub uv un => shape true true false rd /\ uv = t /\ un = false /\ r = 0
  | UnlockWake n => shape true true false rd /\ n = 1
  | UnlockFinish => shape true true false rd
  | ConsLoad => shape true false false rd
  | ConsSub => shape true false false rd /\ r = 1
  end.

Definition wait_ok (r t : Z) (rd : robust_data) (pc : wait_pc) : Prop :=
  match pc with
  | Run pc => run_ok r t rd pc
  | Waiting i | JobMap i | JobLoaded i _ | JobScanned i _ | JobAdded i _ => slept t i rd
  | JobAck i n => slept t i rd /\ (n = 0 \/ n = 1)
  end.

(** A dead thread was not in the windows that [clean_death] excludes. *)
Definition dead_ok (r : Z) (th : rthread) : Prop :=
  match rt_pc th with Run (UnlockSub _ _) => False | _ => True end /\ (holds th = true -> r = 0).

Definition thr_ok (r t : Z) (th : rthread) : Prop :=
  thread_id (rt_rd th) = t /\ tid_ok t
  /\ match rt_life th with
     | Live => wait_ok r t (rt_rd th) (rt_pc th)
     | Died | Noticed => wait_ok r t (rt_rd th) (rt_pc th) /\ dead_ok r th
     | Repaired => True
     end.

(** The lock value says what the threads that are not repaired bear on it. *)
Record core (v : Z) (T : gmap Z rthread) : Prop := {
  c_size : (size T <= 255)%nat;
  c_ok : map_Forall (thr_ok (recover_of v)) T;
  c_owner : forall t th, T !! t = Some th -> (holds th = true <-> owner_of v = t);
  c_owned : owner_of v <> 0 -> is_Some (T !! owner_of v);
  c_wtid : forall t th, T !! t = Some th -> (marking th = true <-> wtid_of v = t);
  c_marked : wtid_of v <> 0 -> is_Some (T !! wtid_of v);
  c_n : nwaiter_of v = count_if counted T
}.

Lemma thr_ok_other r r' t th : holds th = false -> thr_ok r t th -> thr_ok r' t th.
Proof.
  unfold holds, repaired_life, thr_ok, dead_ok. intros Hh (Hid & Ht & Hl). split; [done|]. split; [done|].
  assert (G : rt_life th <> Repaired -> wait_ok r t (rt_rd th) (rt_pc th) -> wait_ok r' t (rt_rd th) (rt_pc th)).
  { intros Hr. unfold wait_ok. destruct (rt_life th); try done; cbn [negb andb] in Hh.
    all: destruct (rt_pc th) as [[]| | | | | |]; try done; cbn in Hh |- *; try (destruct locked; done).
    all: intros ((_ & [E _] & _) & _); by rewrite E in Hh. }
  destruct (rt_life th) eqn:E; auto; destruct Hl as [H1 H2]; split; auto; split; try tauto; intros H3; unfold holds, repaired_life in *; rewrite E in *; congruence.
Qed.

(** One field of the lock value that names a thread. *)
Section Field.
Context (T : gmap Z rthread) (f : rthread -> bool) (x x' t : Z) (th th' : rthread).
Context (Hpos : map_Forall (fun t2 _ => 0 < t2) T).
Context (Hf : forall t2 th2, T !! t2 = Some th2 -> (f th2 = true <-> x = t2)).
Context (Hx : x <> 0 -> is_Some (T !! x)).
Context (Ht : T !! t = Some th).
Context (Hx' : x' = if f th' then t else if f th then 0 else x).
Context (Ha : f th' = true -> f th = true \/ x = 0).

Lemma field_upd t2 th2 : <[t := th']> T !! t2 = Some th2 -> (f th2 = true <-> x' = t2).
Proof.
  intros H2. assert (Hp := map_Forall_lookup_1 _ _ _ _ Hpos Ht). cbn in Hp. rewrite Hx'.
  destruct (decide (t2 = t)) as [->|Hne].
  - rewrite lookup_insert_eq in H2. injection H2 as <-. destruct (f th') eqn:E; [done|].
    split; [done|]. destruct (f th) eqn:E'; [lia|]. intros Hc. apply (Hf _ _ Ht) in Hc. congruence.
  - rewrite lookup_insert_ne in H2 by done. assert (Hp2 := map_Forall_lookup_1 _ _ _ _ Hpos H2). cbn in Hp2.
    destruct (f th') eqn:E'.
    + split; [|lia]. intros Hc. apply (Hf _ _ H2) in Hc.
      destruct (Ha eq_refl) as [H|H]; [apply (Hf _ _ Ht) in H|]; lia.
    + destruct (f th) eqn:E; [|by apply Hf]. apply (Hf _ _ Ht) in E. rewrite (Hf _ _ H2). lia.
Qed.

Lemma field_upd_some : x' <> 0 -> is_Some (<[t := th']> T !! x').
Proof.
  intros Hnz. destruct (decide (t = x')) as [E|E]; [rewrite E, lookup_insert_eq; eauto|].
  rewrite lookup_insert_ne by done. rewrite Hx' in *. destruct (f th'); [done|]. destruct (f th); [done|]. by apply Hx.
Qed.
End Field.

(** What the step of a thread has to guarantee. *)
Record upd (t : Z) (th th' : rthread) (v v' : Z) : Prop := {
  u_ok : thr_ok (recover_of v') t th';
  u_n : nwaiter_of v' = nwaiter_of v - Z.b2z (counted th) + Z.b2z (counted th');
  u_owner : owner_of v' = if holds th' then t else if holds th then 0 else owner_of v;
  u_acquire : holds th' = true -> holds th = true \/ owner_of v = 0;
  u_wtid : wtid_of v' = if marking th' then t else if marking th then 0 else wtid_of v;
  u_mark : marking th' = true -> marking th = true \/ wtid_of v = 0;
  u_recover : recover_of v' = recover_of v \/ holds th = true
}.

Lemma core_pos v T : core v T -> map_Forall (fun t2 _ => 0 < t2) T.
Proof. intros Hc t2 th2 H2. destruct (map_Forall_lookup_1 _ _ _ _ (c_ok _ _ Hc) H2) as (_ & [? _] & _). done. Qed.

Lemma core_upd v T t th th' v' : core v T -> T !! t = Some th -> upd t th th' v v' -> core v' (<[t := th']> T).
Proof.
  intros Hc Ht [Uok Un Uo Ua Uw Um Ur]. pose proof (core_pos _ _ Hc) as Hpos.
  destruct Hc as [Hs Hok Ho Hod Hw Hwd Hn]. constructor.
  - by rewrite map_size_insert_Some by eauto.
  - apply map_Forall_lookup_2. intros t2 th2 H2. destruct (decide (t2 = t)) as [->|Hne].
    { rewrite lookup_insert_eq in H2. by injection H2 as <-. }
    rewrite lookup_insert_ne in H2 by done. assert (Hok2 := map_Forall_lookup_1 _ _ _ _ Hok H2). cbn in Hok2.
    destruct Ur as [Ur|Ur]; [by rewrite Ur|].
    apply (thr_ok_other (recover_of v)); [|done]. apply not_true_iff_false. intros Hh.
    apply (Ho _ _ H2) in Hh. apply (Ho _ _ Ht) in Ur. congruence.
  - intros t2 th2. by apply (field_upd T holds (owner_of v) _ t th).
  - by apply (field_upd_some T holds (owner_of v) _ t th).
  - intros t2 th2. by apply (field_upd T marking (wtid_of v) _ t th).
  - by apply (field_upd_some T marking (wtid_of v) _ t th).
  - by rewrite Un, Hn, (count_if_insert counted T t th).
Qed.

(** Steps that do not touch the lock value. *)
Lemma upd_same t th th' v :
  thr_ok (recover_of v) t th' -> counted th' = counted th -> holds th' = holds th -> marking th' = marking th ->
  (holds th = true <-> owner_of v = t) -> (marking th = true <-> wtid_of v = t) -> upd t th th' v v.
Proof.
  intros Hok Hr Ho Hm Hv Hw. constructor; [done|rewrite Hr; lia| | | | |by left].
  - rewrite Ho. destruct (holds th) eqn:E; [|done]. by apply Hv.
  - rewrite Ho. by left.
  - rewrite Hm. destruct (marking th) eqn:E; [|done]. by apply Hw.
  - rewrite Hm. by left.
Qed.

(** Steps that add field-wise differences to it. *)
Lemma upd_add t th th' v o n r w :
  thr_ok (recover_of v + r) t th' ->
  0 <= nwaiter_of v + n < 256 -> n = Z.b2z (counted th') - Z.b2z (counted th) ->
  owner_of v + o = (if holds th' then t else if holds th then 0 else owner_of v) ->
  (holds th' = true -> holds th = true \/ owner_of v = 0) ->
  wtid_of v + w = (if marking th' then t else if marking th then 0 else wtid_of v) ->
  (marking th' = true -> marking th = true \/ wtid_of v = 0) ->
  0 <= recover_of v + r < 2 -> r = 0 \/ holds th = true ->
  upd t th th' v (s64 (v + (o + n * 2 ^ 32 + r * 2 ^ 40 + w * 2 ^ 41))).
Proof.
  intros Hok Hn Hn' Ho Ha Hw Hm Hr Hr'. pose proof (decode_ok v) as (Hvo & _ & _ & Hvw). cbn in Hvo, Hvw.
  assert (Ht : 0 < t < 2 ^ 23) by apply Hok.
  assert (E := decode_add v o n r w).
  assert (F : fields_ok (mk_fields (owner_of v + o) (nwaiter_of v + n) (recover_of v + r) (wtid_of v + w))).
  { split; cbn; [rewrite Ho; repeat case_match; lia|]. split; [lia|]. split; [lia|]. repeat case_match; lia. }
  specialize (E F). unfold decode in E. injection E as E1 E2 E3 E4.
  constructor; rewrite ?E1, ?E2, ?E3, ?E4; try done; try lia. destruct Hr' as [->|]; [left; lia|by right].
Qed.

(** ** The steps of a thread in the code of the mutex *)

Ltac shown := split; [done|]; split; [done|]; cbn [rt_life rt_rd rt_pc wait_ok run_ok].

Section Steps.
Context (v : Z) (T : gmap Z rthread) (t : Z) (rd : robust_data) (mail : list response).
Context (Hcore : core v T) (Hkey : mtx_key <> 0).

Abbreviation th_at pc := (mk_rt rd (Run pc) Live mail).

Lemma owner_tid : owner_of v <> 0 -> tid_ok (owner_of v).
Proof. intros H. destruct (c_owned _ _ Hcore H) as [th Hth]. by destruct (map_Forall_lookup_1 _ _ _ _ (c_ok _ _ Hcore) Hth) as (_ & ? & _). Qed.

Lemma core_recoverable : is_mtx_unrecoverable v = false.
Proof.
  rewrite is_mtx_unrecoverable_spec. destruct (Z.eqb_spec (owner_of v) (2 ^ 32 - 1)) as [E|]; [|by rewrite andb_false_r].
  pose proof owner_tid as H. rewrite E in H. destruct H; [done|]. lia.
Qed.

Lemma rstep_facts pc :
  T !! t = Some (th_at pc) ->
  (thread_id rd = t /\ 0 < t < 2 ^ 23 /\ run_ok (recover_of v) t rd pc)
  /\ is_mtx_unrecoverable v = false
  /\ (owns (mk_thread rd pc) = true <-> owner_of v = t)
  /\ (marking (th_at pc) = true <-> wtid_of v = t)
  /\ (registered (mk_thread rd pc) = false -> nwaiter_of v < 255)
  /\ (registered (mk_thread rd pc) = true -> 0 < nwaiter_of v)
  /\ mtx_lockval (thread_id rd) 0 0 = t
  /\ 0 <= nwaiter_of v < 256 /\ 0 <= recover_of v < 2.
Proof.
  intros Hth. pose proof (map_Forall_lookup_1 _ _ _ _ (c_ok _ _ Hcore) Hth) as (Hid & Hp & Hok). cbn in Hid, Hok.
  pose proof (c_n _ _ Hcore) as Hn. pose proof (c_size _ _ Hcore) as Hs.
  split; [done|]. split; [apply core_recoverable|]. split; [apply (c_owner _ _ Hcore _ _ Hth)|].
  split; [apply (c_wtid _ _ Hcore _ _ Hth)|]. pose proof (count_if_bound counted T t _ Hth) as Hb.
  pose proof (decode_ok v) as (_ & Hvn & Hvr & _). cbn in Hvn, Hvr. unfold tid_ok in Hp.
  split; [|split; [|split; [rewrite Hid; apply mtx_lockval_owner; lia|done]]].
  - intros E. change (registered (mk_thread rd pc)) with (counted (th_at pc)) in E. rewrite E in Hb. cbn in Hb. lia.
  - intros E. change (registered (mk_thread rd pc)) with (counted (th_at pc)) in E. rewrite E in Hb. cbn in Hb. lia.
Qed.

Ltac facts Hth := destruct (rstep_facts _ Hth) as ((Hid & Ht & Hok) & Hu & Hown & Hmark & Hroom & Hsome & Hlv & Hn & Hr); cbn in Hok, Hown, Hmark, Hroom, Hsome.

Lemma not_marked : false = true <-> wtid_of v = t -> wtid_of v <> t.
Proof. intros [_ H] E. by apply H in E. Qed.

Lemma lock_cas_upd o i nt w sh' rd' pc' :
  T !! t = Some (th_at (LockCas o i nt)) -> lock_cas_step (mk_shared v w) rd o i nt = Next sh' rd' pc' ->
  upd t (th_at (LockCas o i nt)) (mk_rt rd' (Run pc') Live mail) v (sh_lock sh').
Proof.
  intros Hth. facts Hth. unfold lock_cas_step. rewrite cas_split. cbn [sh_lock]. case_decide as Hc.
  - intros [= <- <- <-]. subst o. cbn [sh_lock]. destruct nt; cbn in Hok.
    + destruct Hok as ((Hrd & ->) & Ho). specialize (Hsome eq_refl). rewrite s64_add_r.
      replace (v + (t - 2 ^ 32)) with (v + (t + -1 * 2 ^ 32 + 0 * 2 ^ 40 + 0 * 2 ^ 41)) by lia.
      apply upd_add; cbn; try done; try lia.
      shown. split; [by exists true|lia].
    + destruct Hok as (Hrd & Ho & ->). specialize (Hroom eq_refl).
      replace (s64 (v + t)) with (s64 (v + (t + 0 * 2 ^ 32 + 0 * 2 ^ 40 + 0 * 2 ^ 41))) by (f_equal; lia).
      assert (owner_of v = 0) by (by rewrite Ho).
      apply upd_add; cbn; try done; try lia.
      shown. split; [by exists false|lia].
  - rewrite Hu. destruct nt; cbn [negb]; intros [= <- <- <-]; cbn [sh_lock]; apply upd_same; try done.
    + shown. tauto.
    + specialize (Hroom eq_refl). shown. cbn. tauto.
Qed.

Lemma register_upd o i w sh' rd' pc' :
  T !! t = Some (th_at (RegCas o i)) -> (o = v -> wtid_of v = 0) ->
  register_waiter_in_mtx (mk_shared v w) rd o i = Next sh' rd' pc' ->
  upd t (th_at (RegCas o i)) (mk_rt rd' (Run pc') Live mail) v (sh_lock sh')
  /\ (sh_lock sh' = v \/ pc' = RegMark i).
Proof.
  intros Hth Hclean. facts Hth. destruct Hok as (Hrd & Ho & Hi). specialize (Hroom eq_refl).
  unfold register_waiter_in_mtx. rewrite is_mtx_waiterlist_full_spec, (proj2 (Z.eqb_neq _ _)) by lia.
  rewrite cas_split. cbn [sh_lock]. case_decide as Hc.
  - intros [= <- <- <-]. subst o. cbn [sh_lock]. specialize (Hclean eq_refl). split; [|by right].
    rewrite Hid, mtx_lockval_sum, s64_add_r, land_lnot, land_wtid, Hclean by lia.
    replace (v - 0 * 2 ^ 41 + (0 + 1 * 2 ^ 32 + t * 2 ^ 41)) with (v + (0 + 1 * 2 ^ 32 + 0 * 2 ^ 40 + t * 2 ^ 41)) by lia.
    apply upd_add; cbn; try done; try lia.
  - rewrite Hu. intros [= <- <- <-]. cbn [sh_lock]. split; [|by left]. by apply upd_same.
Qed.

(** Two values with the same fields are equal. *)
Lemma decode_inj a b : in_s 64 a -> in_s 64 b -> decode a = decode b -> a = b.
Proof. intros Ha Hb E. by rewrite <- (encode_decode a Ha), <- (encode_decode b Hb), E. Qed.

Lemma register_release_upd i w sh' rd' pc' :
  T !! t = Some (th_at (RegRelease i)) -> register_release_step (mk_shared v w) rd i = Next sh' rd' pc' ->
  upd t (th_at (RegRelease i)) (mk_rt rd' (Run pc') Live mail) v (sh_lock sh')
  /\ exists o j, pc' = LockCas o j true /\ (owner_of v = 0 -> o = sh_lock sh').
Proof.
  intros Hth. facts Hth. unfold register_release_step, atomic_fetch_sub. cbn [sh_lock]. intros [= <- <- <-]. cbn [sh_lock].
  destruct Hok as (Hrd & ->). pose proof (proj1 Hmark eq_refl) as Hw. specialize (Hsome eq_refl).
  rewrite Hid, (mtx_lockval_sum 0 t 0), s64_sub_r by lia.
  replace (v - (0 + 0 * 2 ^ 32 + t * 2 ^ 41)) with (v + (0 + 0 * 2 ^ 32 + 0 * 2 ^ 40 + - t * 2 ^ 41)) by lia.
  assert (U : upd t (th_at (RegRelease t)) (th_at (LockCas (Z.land (s64 (Z.land (Z.lnot MTX_WAITER_TID_MASK) v)) (Z.lnot MTX_OWNER_TID_MASK)) (s64 (t - mtx_lockval 0 0 1)) true)) v
    (s64 (v + (0 + 0 * 2 ^ 32 + 0 * 2 ^ 40 + - t * 2 ^ 41)))).
  { apply upd_add; cbn; try done; try lia. shown. split; [done|apply owner_cleared]. }
  split; [exact U|]. eexists _, _. split; [reflexivity|]. intros E0.
  rewrite wtid_cleared, E0, land_lnot, land_owner. pose proof (decode_ok v) as (_ & Hvn & Hvr & _). cbn in Hvn, Hvr.
  assert (F := fields_of_sum 0 (nwaiter_of v) (recover_of v) 0 0 ltac:(unfold fields_ok; cbn; lia)).
  rewrite !Z.mul_0_l, !Z.add_0_r in F. unfold decode in F. injection F as F1 F2 F3 F4.
  rewrite F1, Z.sub_0_r. apply decode_inj; [unfold in_s; lia|by apply wrap_s_range|].
  unfold decode. rewrite F1, F2, F3, F4. f_equal; symmetry.
  - rewrite (u_owner _ _ _ _ _ U). cbn. done.
  - rewrite (u_n _ _ _ _ _ U). cbn. lia.
  - destruct (u_recover _ _ _ _ _ U) as [->|]; done.
  - rewrite (u_wtid _ _ _ _ _ U). done.
Qed.

Lemma trylock_upd n o nv w sh' rd' pc' :
  T !! t = Some (th_at (TryCas n o nv)) -> trylock_step (mk_shared v w) rd n o nv = Next sh' rd' pc' ->
  upd t (th_at (TryCas n o nv)) (mk_rt rd' (Run pc') Live mail) v (sh_lock sh').
Proof.
  intros Hth. facts Hth. destruct Hok as (Hrd & Ho & Hn2 & Hn0 & Hnv). unfold trylock_step. rewrite cas_split. cbn [sh_lock].
  destruct (Z.ltb_spec n 2).
  - rewrite (Hnv ltac:(lia)). case_decide as Hc.
    + intros [= <- <- <-]. subst o. cbn [sh_lock].
      replace (v + t) with (v + (t + 0 * 2 ^ 32 + 0 * 2 ^ 40 + 0 * 2 ^ 41)) by lia.
      apply upd_add; cbn; try done; try lia. shown. split; [by exists false|lia].
    + rewrite Hu. intros [= <- <- <-]. apply upd_same; try done.
      shown. cbn. split; [done|]. split; [apply owner_cleared|]. split; [lia|]. split; [lia|].
      intros Hn1. rewrite Hn0, s64_add_l by lia. f_equal. lia.
  - intros [= <- <- <-]. apply upd_same; try done.
Qed.

Lemma unlock_upd pc w sh' rd' pc' :
  match pc with UnlockLoad | UnlockSub _ _ | UnlockFinish => True | _ => False end ->
  T !! t = Some (th_at pc) -> mtx_step mtx_key (mk_shared v w) rd pc = Next sh' rd' pc' ->
  upd t (th_at pc) (mk_rt rd' (Run pc') Live mail) v (sh_lock sh').
Proof.
  intros Hpc Hth. facts Hth. destruct pc; try done; cbn in Hok, Hown; cbn [mtx_step].
  - unfold unlock_load_step. destruct Hok as ((Hl & Hnl & Hatt & Hw) & Er). cbn [sh_lock].
    rewrite is_mtx_ownerdead_spec, Er, Hlv. cbn [Z.eqb]. intros [= <- <- <-].
    apply upd_same; try done.
  - destruct Hok as (Hrd & -> & -> & Er). unfold unlock_sub_step, atomic_fetch_sub. cbn [sh_lock].
    intros [= <- <- <-]. cbn [sh_lock]. assert (Hnl : num_locked rd = 1) by apply Hrd.
    replace (v - t) with (v + (- t + 0 * 2 ^ 32 + 0 * 2 ^ 40 + 0 * 2 ^ 41)) by lia.
    rewrite Hnl in Hown. pose proof (proj1 Hown eq_refl) as Eo. pose proof (not_marked Hmark).
    destruct (is_mtx_waited v); apply upd_add; try done; try (cbn; rewrite ?Hnl; cbn; lia).
  - intros [= <- <- <-]. cbn [sh_lock]. destruct Hok as (Hl & [Hnl Hk] & Hatt & Hw). apply upd_same; try done.
    + shown. exists false. split; [done|]. split; [cbn; lia|]. done.
    + cbn. by rewrite Hnl.
Qed.

Lemma finish_upd locked o w sh' rd' pc' :
  T !! t = Some (th_at (MtxFinish locked o)) -> mtx_step mtx_key (mk_shared v w) rd (MtxFinish locked o) = Next sh' rd' pc' ->
  upd t (th_at (MtxFinish locked o)) (mk_rt rd' (Run pc') Live mail) v (sh_lock sh').
Proof.
  intros Hth. facts Hth. cbn [mtx_step]. destruct locked; cbn [finish_mtx_lock finish_return] in *.
  - destruct Hok as ((wt & Hl & Hnl & Hatt & Hw) & Er). rewrite decide_True by lia. intros [= <- <- <-]. cbn [sh_lock].
    rewrite Hnl, Hatt. apply upd_same; try done. shown. exists true. cbn. split; cbn; [by rewrite length_insert|].
    split; [split; [lia|by apply list_lookup_insert_eq]|done].
  - intros [= <- <- <-]. cbn [sh_lock]. destruct Hok as (Hl & Hnl & Hatt & Hw). apply upd_same; try done.
    + shown. by exists false.
    + cbn. by rewrite Hnl.
Qed.

Lemma consistent_upd pc w sh' rd' pc' :
  match pc with ConsLoad | ConsSub => True | _ => False end ->
  T !! t = Some (th_at pc) -> mtx_step mtx_key (mk_shared v w) rd pc = Next sh' rd' pc' ->
  upd t (th_at pc) (mk_rt rd' (Run pc') Live mail) v (sh_lock sh').
Proof.
  intros Hpc Hth. facts Hth. destruct pc; try done; cbn in Hok, Hown; cbn [mtx_step].
  - unfold consistent_load_step. cbn [sh_lock]. rewrite is_mtx_ownerdead_spec.
    destruct (Z.eqb_spec (recover_of v) 1); intros [= <- <- <-]; apply upd_same; try done.
    shown. by exists true.
  - intros [= <- <- <-]. cbn [sh_lock snd atomic_fetch_sub]. destruct Hok as (Hrd & Er).
    assert (Hnl : num_locked rd = 1) by apply Hrd. rewrite Hnl in Hown. pose proof (proj1 Hown eq_refl) as Eo.
    pose proof (not_marked Hmark). unfold MTX_NEED_RECOVER_MASK.
    replace (v - 0x0000010000000000) with (v + (0 + 0 * 2 ^ 32 + -1 * 2 ^ 40 + 0 * 2 ^ 41)) by lia.
    apply upd_add; try done; try (cbn; rewrite ?Hnl; cbn; lia). shown. by exists true.
Qed.

(** A step in the code of the mutex, the exchanges with the referee apart. *)
Lemma run_step_upd pc w sh' rd' pc' :
  match pc with
  | LockWait _ | UnlockWake _ => False
  | RegCas o _ => o = v -> wtid_of v = 0
  | _ => True
  end ->
  T !! t = Some (th_at pc) -> mtx_step mtx_key (mk_shared v w) rd pc = Next sh' rd' pc' ->
  upd t (th_at pc) (mk_rt rd' (Run pc') Live mail) v (sh_lock sh').
Proof.
  intros Hpc Hth. destruct pc; try (by apply (unlock_upd _ w)); try (by apply (finish_upd _ _ w)); try (by apply (consistent_upd _ w));
    cbn [mtx_step]; try done.
  - by apply lock_cas_upd.
  - facts Hth. unfold lock_reload_step. intros [= <- <- <-]. apply upd_same; try done. shown. by rewrite owner_cleared.
  - intros H. by apply (register_upd _ _ _ _ _ _ Hth Hpc) in H as [H _].
  - facts Hth. done.
  - facts Hth. intros [= <- <- <-]. destruct Hok as ((Hl & Hnl & Hatt & Hw) & Hi). apply upd_same; try done.
  - intros H. by apply (register_release_upd _ _ _ _ _ Hth) in H as [H _].
  - by apply trylock_upd.
Qed.

(** In the code of the mutex a thread always has a step, and none is out of bounds. *)
Lemma run_step_defined pc w :
  T !! t = Some (th_at pc) ->
  match pc with Returned _ => True | LockWait _ | UnlockWake _ => True | _ => exists sh' rd' pc', mtx_step mtx_key (mk_shared v w) rd pc = Next sh' rd' pc' end.
Proof.
  intros Hth. facts Hth. destruct pc; cbn [mtx_step]; try done; try (by eexists _, _, _).
  - unfold lock_cas_step. rewrite cas_split. cbn [sh_lock]. case_decide; [by eexists _, _, _|]. rewrite Hu. destruct notified; by eexists _, _, _.
  - unfold register_waiter_in_mtx. rewrite cas_split. cbn [sh_lock]. case_test; [by eexists _, _, _|].
    case_decide; [by eexists _, _, _|]. rewrite Hu. by eexists _, _, _.
  - unfold trylock_step. rewrite cas_split. cbn [sh_lock]. case_test; [|by eexists _, _, _].
    case_decide; [by eexists _, _, _|]. rewrite Hu. by eexists _, _, _.
  - destruct locked; cbn; [|by eexists _, _, _]. destruct Hok as ((wt & Hl & Hnl & _) & _). rewrite decide_True by lia. by eexists _, _, _.
Qed.
End Steps.
End Invariant.
