(* ===== verification/RobustReferee.v ===== *)
(** * The referee, the cleanup jobs and the deaths: the invariant

    On [RobustMutex]: what the report of a dead thread contains and what its repair adds to the lock value; the invariant of
    the queue and of the responses ([queue_ok]), of the job ([job_ok]) and of the wake-ups ([awaited]), and that every step of
    a clean schedule preserves it ([ract_inv]). *)

From S2P Require Import Prelude MutexVal PsharedMutex Referee RefereeServer RobustMutex.

Section Invariant.
Context {mtx_key : Z}.

Abbreviation shape := (@shape mtx_key).
Abbreviation slept := (@slept mtx_key).
Abbreviation wait_ok := (@wait_ok mtx_key).
Abbreviation thr_ok := (@thr_ok mtx_key).
Abbreviation core := (@core mtx_key).
Abbreviation upd := (@upd mtx_key).

(** ** Deaths, their report and their repair *)



Lemma life_upd v T t th l :
  core v T -> T !! t = Some th -> rt_life th <> Repaired -> l <> Repaired -> thr_ok (recover_of v) t (set_life l th) ->
  upd t th (set_life l th) v v.
Proof.
  intros Hc Hth Hl Hl' Hok. apply upd_same; [done| | | |by apply (c_owner _ _ Hc)|by apply (c_wtid _ _ Hc)];
    unfold counted, holds, marking, repaired_life; cbn; by destruct (rt_life th), l.
Qed.

(** The entries of a dead thread in the job of the mutex. *)
Definition entries (th : rthread) : list dead_thread :=
  let rd := rt_rd th in
  ((fun _ => mk_dead false (thread_id rd)) <$> filter (fun k => k = mtx_key) (take (Z.to_nat (num_locked rd)) (locked_keys rd)))
  ++ (if negb (attempt_key rd =? 0) && bool_decide (attempt_key rd = mtx_key) then [mk_dead (is_waiter rd) (thread_id rd)] else []).

Lemma entries_shape th held att wait :
  mtx_key <> 0 -> shape held att wait (rt_rd th) ->
  entries th = (if held then [mk_dead false (thread_id (rt_rd th))] else [])
               ++ (if att then [mk_dead wait (thread_id (rt_rd th))] else []).
Proof.
  intros Hk (Hl & Hn & Ha & Hw). unfold entries. f_equal.
  - destruct held; [|by rewrite Hn]. destruct Hn as [-> H0].
    destruct (locked_keys (rt_rd th)) as [|k ks]; [done|]. injection H0 as ->. change (Z.to_nat 1) with 1%nat. cbn [take]. rewrite filter_cons, decide_True by done. by destruct ks.
  - rewrite Ha, Hw. destruct att; [|done]. by rewrite (proj2 (Z.eqb_neq _ _)), bool_decide_eq_true_2.
Qed.

Definition deadlist_of (lk : lock) : list dead_thread := from_option deadlist [] (job lk).
Definition in_prog (lk : lock) : bool := from_option in_progress false (job lk).

(** The lock after a report. *)
Definition reported (l : list dead_thread) (lk : lock) : lock :=
  match l with [] => lk | _ => set_job (Some (mk_job (in_prog lk) (deadlist_of lk ++ l))) lk end.

Lemma reported_app l1 l2 lk : reported l2 (reported l1 lk) = reported (l1 ++ l2) lk.
Proof.
  destruct l1 as [|d1 l1], l2 as [|d2 l2]; cbn [reported app]; try done; [by rewrite app_nil_r|].
  unfold set_job, in_prog, deadlist_of. cbn. by rewrite <- app_assoc.
Qed.

Lemma lock_report_dead_one lk w t :
  Z.of_nat (length (deadlist_of lk)) < deadlist_max -> lock_report_dead true lk w t = Some (reported [mk_dead w t] lk).
Proof.
  unfold lock_report_dead, reported, deadlist_of, in_prog. intros H.
  destruct (job lk) as [j|] eqn:E; [cbn [from_option] in *; rewrite E; by rewrite (proj2 (Z.ltb_lt _ _) H)|done].
Qed.

Lemma report_robust_data_entries th lk :
  Z.of_nat (length (deadlist_of lk) + length (entries th)) <= deadlist_max ->
  report_robust_data mtx_key (rt_rd th) lk = Some (reported (entries th) lk).
Proof.
  unfold entries, report_robust_data. cbv zeta. set (tid := thread_id (rt_rd th)).
  generalize (take (Z.to_nat (num_locked (rt_rd th))) (locked_keys (rt_rd th))). intros keys.
  set (l2 := if negb _ && _ then _ else _). rewrite length_app. intros Hlen.
  assert (E : forall lk, Z.of_nat (length (deadlist_of lk) + length (filter (fun k => k = mtx_key) keys)) <= deadlist_max ->
    report_keys mtx_key keys tid lk = Some (reported ((fun _ => mk_dead false tid) <$> filter (fun k => k = mtx_key) keys) lk)).
  { clear. induction keys as [|k keys IH]; intros lk Hl; [done|]. cbn [report_keys]. rewrite filter_cons in *. unfold report_key.
    case_decide as Hk; cbn [length] in Hl.
    - rewrite lock_report_dead_one by lia. cbn [mbind option_bind]. rewrite IH.
      + cbn [fmap list_fmap]. by rewrite reported_app.
      + cbn. rewrite length_app. cbn. lia.
    - cbn [mbind option_bind]. by apply IH. }
  rewrite length_fmap in Hlen. rewrite E by lia. cbn [mbind option_bind]. rewrite <- reported_app.
  unfold l2 in *. unfold report_key. destruct (negb (attempt_key (rt_rd th) =? 0)); cbn [andb] in *; [|done].
  case_decide; [rewrite bool_decide_eq_true_2 in * by done|by rewrite bool_decide_eq_false_2 by done].
  cbn [length] in Hlen. apply lock_report_dead_one.
  assert (Hd : forall l, length (deadlist_of (reported l lk)) = (length (deadlist_of lk) + length l)%nat).
  { intros []; [cbn; lia|]. cbn. by rewrite length_app. }
  rewrite Hd, length_fmap. lia.
Qed.

(** What the repair of a thread adds to the lock value. *)
Definition delta (t : Z) (th : rthread) : Z :=
  (if holds th then 2 ^ 40 - t else 0) - (if counted th then 2 ^ 32 else 0) - (if marking th then t * 2 ^ 41 else 0).

Definition change_sum (v : Z) (l : list dead_thread) : Z := foldr (fun d z => raw_change v d + z) 0 l.

Lemma change_sum_app v l1 l2 : change_sum v (l1 ++ l2) = change_sum v l1 + change_sum v l2.
Proof. induction l1 as [|d l1 IH]; cbn; [done|]. unfold change_sum in *. lia. Qed.

(** The entries of a dead thread, with a lock value that names it when it bears on it, undo it. *)
Lemma entries_delta r v t th :
  mtx_key <> 0 -> thr_ok r t th -> rt_life th = Noticed ->
  (holds th = true <-> owner_of v = t) -> (marking th = true <-> wtid_of v = t) ->
  change_sum v (entries th) = delta t th /\ (length (entries th) <= 2)%nat /\ Forall (fun d => dead_tid d = t) (entries th).
Proof.
  intros Hk (Hid & Ht & Hok) Hlife Hh Hm. rewrite Hlife in Hok. destruct Hok as [Hw [Hpc _]].
  assert (G : forall held att wait, shape held att wait (rt_rd th) ->
    (length (entries th) <= 2)%nat /\ Forall (fun d => dead_tid d = t) (entries th)).
  { intros held att wait Hs. rewrite (entries_shape _ _ _ _ Hk Hs), Hid. destruct held, att; cbn; (split; [lia|repeat constructor]). }
  assert (C : forall held att wait, shape held att wait (rt_rd th) ->
    (let x := fun w => if holds th then 2 ^ 40 - t else if marking th then - (2 ^ 32 + t * 2 ^ 41) else if (w : bool) then - 2 ^ 32 else 0 in
     (if held then x false else 0) + (if att then x wait else 0) = delta t th) ->
    change_sum v (entries th) = delta t th /\ (length (entries th) <= 2)%nat /\ Forall (fun d => dead_tid d = t) (entries th)).
  { intros held att wait Hs Hx. split; [|by eapply G]. rewrite <- Hx, (entries_shape _ _ _ _ Hk Hs), Hid.
    assert (E : forall w, raw_change v (mk_dead w t)
      = if holds th then 2 ^ 40 - t else if marking th then - (2 ^ 32 + t * 2 ^ 41) else if w then - 2 ^ 32 else 0).
    { intros w. unfold raw_change. cbn [dead_tid dead_is_waiter].
      destruct (holds th), (marking th); [rewrite (proj2 (Z.eqb_eq _ _)) by tauto; done..| |];
        (rewrite (proj2 (Z.eqb_neq _ _)) by (intros E; apply Hh in E; done)).
      - by rewrite (proj2 (Z.eqb_eq _ _)) by tauto.
      - by rewrite (proj2 (Z.eqb_neq _ _)) by (intros E; apply Hm in E; done). }
    unfold change_sum. destruct held, att; cbn [app foldr]; rewrite ?E; lia. }
  unfold delta, holds, counted, marking, repaired_life in *. rewrite Hlife in *. cbn [negb andb] in *.
  destruct (rt_pc th) as [[]| | | | | |]; cbn [wait_ok run_ok] in Hw; try done.
  all: try (destruct notified); try (destruct locked).
  all: repeat match goal with
       | H : _ /\ _ |- _ => destruct H
       | H : exists _, _ |- _ => destruct H
       | H : slept _ _ _ |- _ => destruct H
       end.
  all: try match goal with H : shape ?a ?b ?c _ |- _ => apply (C a b c H); cbn; destruct H as (_ & Hnl & _) end.
  all: try (rewrite Hnl; cbn; lia); try lia.
  all: try (destruct x; [destruct Hnl as [-> _]|rewrite Hnl]; cbn; lia).
  all: destruct Hnl as [-> _]; cbn; lia.
Qed.

Lemma core_ext v v' T : decode v = decode v' -> core v T -> core v' T.
Proof.
  unfold decode. intros E [H1 H2 H3 H4 H5 H6 H7]. injection E as E1 E2 E3 E4.
  rewrite E1, E2, E3, E4 in *. by constructor.
Qed.

Lemma repair_upd v T t th :
  core v T -> T !! t = Some th -> rt_life th = Noticed -> upd t th (set_life Repaired th) v (s64 (v + delta t th)).
Proof.
  intros Hc Hth Hl. destruct (map_Forall_lookup_1 _ _ _ _ (c_ok _ _ Hc) Hth) as (Hid & Ht & Hok).
  rewrite Hl in Hok. destruct Hok as [_ [_ Hr]]. pose proof (c_owner _ _ Hc _ _ Hth) as Ho. pose proof (c_wtid _ _ Hc _ _ Hth) as Hw.
  pose proof (count_if_bound counted T t th Hth) as Hb. rewrite <- (c_n _ _ Hc) in Hb.
  pose proof (decode_ok v) as (Hvo & Hvn & Hvr & Hvw). cbn in Hvo, Hvn, Hvr, Hvw.
  replace (delta t th) with ((if holds th then - t else 0) + (if counted th then -1 else 0) * 2 ^ 32
    + (if holds th then 1 else 0) * 2 ^ 40 + (if marking th then - t else 0) * 2 ^ 41)
    by (unfold delta; destruct (holds th), (counted th), (marking th); lia).
  assert (Fh : holds (set_life Repaired th) = false) by reflexivity. assert (Fc : counted (set_life Repaired th) = false) by reflexivity.
  assert (Fm : marking (set_life Repaired th) = false) by reflexivity.
  apply upd_add; rewrite ?Fh, ?Fc, ?Fm; try done.
  - destruct (counted th); cbn in Hb |- *; lia.
  - destruct (counted th); cbn; lia.
  - destruct (holds th); [rewrite (proj1 Ho eq_refl)|]; lia.
  - destruct (marking th); [rewrite (proj1 Hw eq_refl)|]; lia.
  - destruct (holds th); [rewrite Hr by done|]; lia.
  - destruct (holds th); [by right|by left].
Qed.

Definition total (T : gmap Z rthread) (ts : list Z) : Z := foldr (fun t z => from_option (delta t) 0 (T !! t) + z) 0 ts.

Lemma total_ext T T' ts : (forall t, t ∈ ts -> T' !! t = T !! t) -> total T' ts = total T ts.
Proof.
  induction ts as [|t ts IH]; intros H; [done|]. cbn. rewrite (H t) by left. f_equal. apply IH. intros t2 H2. apply H. by right.
Qed.

Lemma repair_recover v T t th :
  core v T -> T !! t = Some th -> rt_life th = Noticed -> recover_of (s64 (v + delta t th)) = if holds th then 1 else recover_of v.
Proof.
  intros Hc Hth Hl. assert (U := repair_upd _ _ _ _ Hc Hth Hl). destruct (map_Forall_lookup_1 _ _ _ _ (c_ok _ _ Hc) Hth) as (_ & [Ht1 Ht2] & Hok).
  rewrite Hl in Hok. destruct Hok as [_ [_ Hr]]. destruct (holds th) eqn:Hh; [|by destruct (u_recover _ _ _ _ _ U); [|congruence]].
  assert (Ho : owner_of v = t) by (by apply (c_owner _ _ Hc _ _ Hth)). specialize (Hr eq_refl).
  pose proof (count_if_bound counted T t th Hth) as Hb. rewrite <- (c_n _ _ Hc) in Hb. pose proof (c_wtid _ _ Hc _ _ Hth) as Hw.
  pose proof (decode_ok v) as (Hvo & Hvn & Hvr & Hvw). cbn in Hvo, Hvn, Hvr, Hvw.
  assert (E := decode_add v (- t) (if counted th then -1 else 0) 1 (if marking th then - t else 0)).
  replace (delta t th) with (- t + (if counted th then -1 else 0) * 2 ^ 32 + 1 * 2 ^ 40 + (if marking th then - t else 0) * 2 ^ 41)
    by (unfold delta; rewrite Hh; destruct (counted th), (marking th); lia).
  assert (F : fields_ok (mk_fields (owner_of v + - t) (nwaiter_of v + (if counted th then -1 else 0)) (recover_of v + 1) (wtid_of v + (if marking th then - t else 0)))).
  { split; cbn [f_owner f_nwaiter f_recover f_wtid]; [lia|]. split; [destruct (counted th); cbn in Hb; lia|].
    split; [lia|]. destruct (marking th); [rewrite (proj1 Hw eq_refl)|]; lia. }
  specialize (E F). unfold decode in E. injection E as _ _ E _. lia.
Qed.

(** The repairs of a job, one after the other. *)
Lemma repair_all ts v T :
  core v T -> NoDup ts -> (forall t, t ∈ ts -> exists th, T !! t = Some th /\ rt_life th = Noticed) ->
  exists T', core (s64 (v + total T ts)) T'
    /\ (forall k, T' !! k = if decide (k ∈ ts) then set_life Repaired <$> T !! k else T !! k)
    /\ recover_of (s64 (v + total T ts)) = if decide (owner_of v ∈ ts) then 1 else recover_of v.
Proof.
  revert v T. induction ts as [|t ts IH]; intros v T Hc Hnd Hts.
  - exists T. assert (E : decode v = decode (s64 (v + total T []))) by (cbn; by rewrite decode_s64, Z.add_0_r).
    split; [by apply (core_ext v)|]. split; [intros k; by rewrite decide_False by apply not_elem_of_nil|].
    rewrite decide_False by apply not_elem_of_nil. unfold decode in E. injection E as _ _ E _. cbn [total foldr]. congruence.
  - apply list.NoDup_cons in Hnd as [Hni Hnd]. destruct (Hts t ltac:(left)) as (th & Hth & Hl).
    assert (U := repair_upd _ _ _ _ Hc Hth Hl). assert (Hc1 := core_upd _ _ _ _ _ _ Hc Hth U).
    destruct (IH _ _ Hc1 Hnd) as (T' & Hc' & HT' & HR).
    { intros t2 H2. destruct (Hts t2 ltac:(by right)) as (th2 & ? & ?). exists th2. split; [|done].
      rewrite lookup_insert_ne; [done|]. by intros <-. }
    rewrite (total_ext T) in Hc', HR by (intros t2 H2; apply lookup_insert_ne; by intros <-).
    rewrite s64_add_l, <- Z.add_assoc in Hc', HR. cbn [total foldr]. rewrite Hth. cbn [from_option]. fold (total T ts).
    exists T'. split; [done|]. split.
    + intros k. rewrite HT'. destruct (decide (k = t)) as [->|Hne].
      * rewrite decide_False by done. rewrite decide_True by left. by rewrite lookup_insert_eq, Hth.
      * rewrite lookup_insert_ne by done. apply decide_ext. rewrite elem_of_cons. naive_solver.
    + rewrite HR, (repair_recover _ _ _ _ Hc Hth Hl), (u_owner _ _ _ _ _ U). change (holds (set_life Repaired th)) with false. cbn iota.
      assert (Hz : 0 ∉ ts). { intros Hin. destruct (Hts 0 ltac:(by right)) as (th2 & E & _). pose proof (map_Forall_lookup_1 _ _ _ _ (core_pos _ _ Hc) E). cbn in *. lia. }
      pose proof (c_owner _ _ Hc _ _ Hth) as Ho. destruct (holds th).
      * rewrite decide_False by done. rewrite (proj1 Ho eq_refl). by rewrite decide_True by left.
      * apply decide_ext. rewrite elem_of_cons. split; [by right|]. intros [E|]; [|done]. by apply Ho in E.
Qed.

(** ** The invariant of the referee, of the job, and of the wake-ups *)

Definition mail_ok (inq : Prop) (th : rthread) : Prop :=
  match rt_pc th with
  | Run _ => ~ inq /\ rt_mail th = []
  | Waiting _ =>
      inq /\ (rt_mail th = [] \/ rt_mail th = [RespCleanup])
      \/ ~ inq /\ (rt_mail th = [woken_response] \/ rt_mail th = [RespCleanup; woken_response])
  | _ => inq /\ rt_mail th = [] \/ ~ inq /\ rt_mail th = [woken_response]
  end
  /\ (rt_life th <> Live -> ~ inq /\ busy th = false).

(** The job in progress is with one thread. *)
Record busy_ok (prog : bool) (T : gmap Z rthread) : Prop := {
  b_prog : forall t th, T !! t = Some th -> busy th = true -> prog = true;
  b_one : forall t1 t2 th1 th2, T !! t1 = Some th1 -> T !! t2 = Some th2 -> busy th1 = true -> busy th2 = true -> t1 = t2;
  b_some : prog = true -> exists t th, T !! t = Some th /\ busy th = true
}.

Record queue_ok (lk : lock) (T : gmap Z rthread) : Prop := {
  q_key : lk_key lk = mtx_key;
  q_nodup : NoDup (waiters_queue lk);
  q_in : forall t, t ∈ waiters_queue lk -> exists th, T !! t = Some th /\ rt_life th = Live;
  q_mail : forall t th, T !! t = Some th -> mail_ok (t ∈ waiters_queue lk) th;
  q_busy : busy_ok (in_prog lk) T;
  q_owed : nwaiter lk <= Z.of_nat (length (waiters_queue lk));
  q_stored : nwaiter lk < Z.of_nat (length (waiters_queue lk)) -> waiters_queue lk = [] /\ 1 <= max_wakeup_val lk
}.

Definition added (th : rthread) : bool := match rt_pc th with JobAdded _ _ => true | _ => false end.

(** [ts]: the dead threads reported and not repaired. *)
Record job_ok (lk : lock) (T : gmap Z rthread) (ts : list Z) : Prop := {
  j_nodup : NoDup ts;
  j_in : forall t, t ∈ ts <-> exists th, T !! t = Some th /\ rt_life th = Noticed;
  j_dead : (exists t th, T !! t = Some th /\ added th = true)
           \/ deadlist_of lk = mjoin ((fun t => from_option entries [] (T !! t)) <$> ts);
  j_pc : forall t th, T !! t = Some th ->
    match rt_pc th with
    | JobLoaded _ v0 => forall t2 th2, T !! t2 = Some th2 -> rt_life th2 = Noticed ->
        (holds th2 = true <-> owner_of v0 = t2) /\ (marking th2 = true <-> wtid_of v0 = t2)
    | JobScanned _ cv => cv = s64 (total T ts)
    | JobAdded _ _ => ts = []
    | _ => True
    end
}.

Definition live_waiter (th : rthread) : bool := match rt_life th with Live => counted th | _ => false end.

(** The thread will take the mutex if it stays free, or wake another thread, or has to be repaired. *)
Definition hopeful (v : Z) (th : rthread) : bool :=
  let mailed := match rt_mail th with [] => false | _ => true end in
  match rt_life th with
  | Live =>
      match rt_pc th with
      | Run (UnlockWake _) | Run (RegMark _) | Run (RegRelease _) | Run (LockReload _) => true
      | Run (LockCas o _ true) => o =? v
      | Run _ => false
      | JobMap _ | JobLoaded _ _ | JobScanned _ _ => true
      | JobAdded _ lockval => is_mtx_waited lockval && negb (is_mtx_locked lockval) || mailed
      | JobAck _ n => (0 <? n) || mailed
      | Waiting _ => mailed
      end
  | Died | Noticed => match entries th with [] => false | _ => true end
  | Repaired => false
  end.

(** A wake-up stored at the referee, or a thread that will act. *)
Definition responsible (v : Z) (lk : lock) (T : gmap Z rthread) : Prop :=
  nwaiter lk < Z.of_nat (length (waiters_queue lk)) \/ exists t th, T !! t = Some th /\ hopeful v th = true.

Definition awaited (v : Z) (lk : lock) (T : gmap Z rthread) : Prop :=
  owner_of v = 0 -> (exists t th, T !! t = Some th /\ live_waiter th = true) -> responsible v lk T.

Record rinv (s : rstate) : Prop := {
  i_core : core (rs_v s) (rs_thr s);
  i_queue : queue_ok (rs_lk s) (rs_thr s);
  i_job : exists ts, job_ok (rs_lk s) (rs_thr s) ts;
  i_awaited : awaited (rs_v s) (rs_lk s) (rs_thr s)
}.

(** *** The update of one thread, the lock of the referee unchanged *)

Lemma busy_put p T t th th' : busy_ok p T -> T !! t = Some th -> busy th' = busy th -> busy_ok p (<[t := th']> T).
Proof.
  intros [H5 H6 H7] Hth Hb.
  assert (L : forall t2 th2, <[t := th']> T !! t2 = Some th2 -> exists th3, T !! t2 = Some th3 /\ busy th3 = busy th2).
  { intros t2 th2 H. destruct (decide (t2 = t)) as [->|Hne].
    - rewrite lookup_insert_eq in H. injection H as <-. eauto.
    - rewrite lookup_insert_ne in H by done. eauto. }
  constructor.
  - intros t2 th2 (th3 & Hth3 & E)%L Hb2. apply (H5 t2 th3); [done|congruence].
  - intros t1 t2 th1 th2 (th3 & Hth3 & E3)%L (th4 & Hth4 & E4)%L B1 B2. apply (H6 t1 t2 th3 th4); congruence.
  - intros Hp. destruct (H7 Hp) as (t2 & th2 & Hth2 & B2). destruct (decide (t2 = t)) as [->|Hne].
    + exists t, th'. rewrite lookup_insert_eq. split; [done|]. congruence.
    + exists t2, th2. by rewrite lookup_insert_ne.
Qed.

Lemma queue_put lk T t th th' :
  queue_ok lk T -> T !! t = Some th -> mail_ok (t ∈ waiters_queue lk) th' -> busy th' = busy th -> queue_ok lk (<[t := th']> T).
Proof.
  intros [H1 H2 H3 H4 H5 H8 H9] Hth Hm Hb. constructor; try done.
  - intros t2 Hq. destruct (decide (t2 = t)) as [->|Hne].
    + exists th'. rewrite lookup_insert_eq. split; [done|]. destruct (decide (rt_life th' = Live)) as [|Hl]; [done|].
      by destruct (proj2 Hm Hl) as [? _].
    + rewrite lookup_insert_ne by done. by apply H3.
  - intros t2 th2 H. destruct (decide (t2 = t)) as [->|Hne].
    + rewrite lookup_insert_eq in H. by injection H as <-.
    + rewrite lookup_insert_ne in H by done. by apply H4.
  - by apply (busy_put _ _ _ th).
Qed.

Lemma noticed_insert (T : gmap Z rthread) t th th' t2 :
  T !! t = Some th -> rt_life th <> Noticed -> rt_life th' <> Noticed ->
  (exists th2, <[t := th']> T !! t2 = Some th2 /\ rt_life th2 = Noticed) <-> (exists th2, T !! t2 = Some th2 /\ rt_life th2 = Noticed).
Proof.
  intros Hth Hl Hl'. destruct (decide (t2 = t)) as [->|Hne].
  - rewrite lookup_insert_eq, Hth. split; intros (? & [= <-] & ?); done.
  - by rewrite lookup_insert_ne.
Qed.

Lemma job_put lk T ts t th th' :
  job_ok lk T ts -> T !! t = Some th -> rt_life th <> Noticed -> rt_life th' <> Noticed -> added th = added th' ->
  match rt_pc th' with
  | JobLoaded _ v0 => forall t2 th2, T !! t2 = Some th2 -> rt_life th2 = Noticed ->
      (holds th2 = true <-> owner_of v0 = t2) /\ (marking th2 = true <-> wtid_of v0 = t2)
  | JobScanned _ cv => cv = s64 (total T ts)
  | JobAdded _ _ => ts = []
  | _ => True
  end -> job_ok lk (<[t := th']> T) ts.
Proof.
  intros [H1 H2 H3 H4] Hth Hl Hl' Ha Hpc.
  assert (N : forall t2, t2 ∈ ts -> t2 <> t) by (intros t2 (th2 & E & E2)%H2 ->; congruence).
  assert (Htot : total (<[t := th']> T) ts = total T ts).
  { apply total_ext. intros t2 Hin. apply lookup_insert_ne. intros ->. by apply (N t2 Hin). }
  assert (Hno : forall t2 th2, <[t := th']> T !! t2 = Some th2 -> rt_life th2 = Noticed -> T !! t2 = Some th2).
  { intros t2 th2 E El. destruct (decide (t2 = t)) as [->|Hne].
    - rewrite lookup_insert_eq in E. by injection E as <-.
    - by rewrite lookup_insert_ne in E. }
  constructor; [done| | |].
  - intros t2. rewrite H2. symmetry. by apply (noticed_insert T t th th').
  - destruct H3 as [(t2 & th2 & E & E2)|E].
    + left. destruct (decide (t2 = t)) as [->|Hne].
      * exists t, th'. rewrite lookup_insert_eq. split; [done|]. congruence.
      * exists t2, th2. by rewrite lookup_insert_ne.
    + right. rewrite E. f_equal. apply list_fmap_ext. intros i t2 Hi%list_elem_of_lookup_2. rewrite lookup_insert_ne; [done|].
      intros ->. by apply (N t2).
  - intros t2 th2 E. destruct (decide (t2 = t)) as [->|Hne].
    + rewrite lookup_insert_eq in E. injection E as <-. destruct (rt_pc th'); try done; [|by rewrite Htot].
      intros t2 th2 E El. by apply Hpc; [apply Hno|].
    + rewrite lookup_insert_ne in E by done. specialize (H4 _ _ E). destruct (rt_pc th2); try done; [|by rewrite Htot].
      intros t3 th3 E3 El. by apply H4; [apply Hno|].
Qed.

Lemma awaited_put v v' lk T t th th' :
  awaited v lk T -> T !! t = Some th -> core v' (<[t := th']> T) ->
  (owner_of v' = 0 -> hopeful v' th' = true \/ nwaiter_of v' = 0
     \/ v' = v /\ (live_waiter th' = true -> live_waiter th = true) /\ (hopeful v th = true -> hopeful v th' = true)) ->
  awaited v' lk (<[t := th']> T).
Proof.
  intros Ha Hth Hc Hx Ho (t2 & th2 & Hth2 & Hlw).
  destruct (Hx Ho) as [H|[H|(-> & H1 & H2)]].
  - right. exists t, th'. by rewrite lookup_insert_eq.
  - exfalso. assert (counted th2 = true) as Hcn by (unfold live_waiter in Hlw; by destruct (rt_life th2)).
    pose proof (count_if_pos counted _ _ _ Hth2 Hcn) as Hp. rewrite <- (c_n _ _ Hc) in Hp. lia.
  - destruct Ha as [Ha|(t3 & th3 & Hth3 & Hh)]; [done| |by left|].
    + destruct (decide (t2 = t)) as [->|Hne].
      * rewrite lookup_insert_eq in Hth2. injection Hth2 as <-. eauto.
      * rewrite lookup_insert_ne in Hth2 by done. eauto.
    + right. destruct (decide (t3 = t)) as [->|Hne].
      * exists t, th'. rewrite lookup_insert_eq. split; [done|]. apply H2. congruence.
      * exists t3, th3. by rewrite lookup_insert_ne.
Qed.

(** *** The queue *)

Lemma queue_lk_ext lk lk' T :
  lk_key lk' = lk_key lk -> waiters_queue lk' = waiters_queue lk -> nwaiter lk' = nwaiter lk ->
  (nwaiter lk < Z.of_nat (length (waiters_queue lk)) -> max_wakeup_val lk <= max_wakeup_val lk') ->
  in_prog lk' = in_prog lk -> queue_ok lk T -> queue_ok lk' T.
Proof.
  intros E1 E2 E3 E4 E5 [H1 H2 H3 H4 H5 H8 H9]. constructor; rewrite ?E1, ?E2, ?E3, ?E5; try done.
  intros H. specialize (E4 H). destruct (H9 H). split; [done|lia].
Qed.

Definition woken_lock (lk : lock) (num : Z) : lock :=
  mk_lock (lk_key lk) (Z.max (max_wakeup_val lk) 1) (nwaiter lk - num) (drop (Z.to_nat num) (waiters_queue lk)) (job lk).

(** The queue once its first thread is woken. *)
Lemma queue_woken lk T t q th :
  queue_ok lk T -> waiters_queue lk = t :: q -> T !! t = Some th -> queue_ok (woken_lock lk 1) (<[t := add_mail woken_response th]> T).
Proof.
  intros [H1 H2 H3 H4 H5 H8 H9] Eq Hth. rewrite Eq in *. apply list.NoDup_cons in H2 as [Hni H2].
  destruct (H3 t ltac:(left)) as (? & E & Hl). rewrite Hth in E. injection E as <-.
  assert (Hm := H4 t th Hth).
  assert (Hb : busy (add_mail woken_response th) = busy th).
  { destruct Hm as [Hm _]. unfold busy, add_mail. cbn. destruct (rt_pc th); cbn in Hm; try done; [destruct Hm as [_ ->]; done|].
    destruct Hm as [[_ [-> | ->]]|[_ [-> | ->]]]; done. }
  unfold woken_lock. rewrite Eq. change (drop (Z.to_nat 1) (t :: q)) with q.
  constructor; cbn [lk_key waiters_queue nwaiter max_wakeup_val]; try done.
  - intros t2 Hq. rewrite lookup_insert_ne by (by intros <-). apply H3. by right.
  - intros t2 th2 E. destruct (decide (t2 = t)) as [->|Hne].
    + rewrite lookup_insert_eq in E. injection E as <-. destruct Hm as [Hm1 Hm2]. split; [|by cbn; rewrite Hl].
      unfold add_mail. cbn [rt_pc rt_mail]. assert (Ht : t ∈ t :: q) by left.
      destruct (rt_pc th); destruct Hm1 as [Hm1|Hm1] || (by destruct Hm1); destruct Hm1 as [? Hm1]; try done;
        repeat (destruct Hm1 as [->|Hm1]; [by right; split; [|auto]|]); rewrite Hm1; right; (split; [done|]); auto.
    + rewrite lookup_insert_ne in E by done. destruct (H4 _ _ E) as [M1 M2].
      assert (Hin : t2 ∈ t :: q <-> t2 ∈ q) by (rewrite elem_of_cons; naive_solver).
      split; [|by rewrite <- Hin]. destruct (rt_pc th2); by rewrite <- Hin.
  - by apply (busy_put _ _ _ th).
  - cbn in H8. lia.
  - intros H. cbn [length] in H9. destruct H9 as [? _]; [lia|done].
Qed.

(** Wake-ups with nobody in the queue are stored. *)
Lemma queue_stored lk T num :
  queue_ok lk T -> num = 0 \/ waiters_queue lk = [] /\ 0 < num -> queue_ok (woken_lock lk num) T.
Proof.
  intros Hq Hn. assert (Ed : drop (Z.to_nat num) (waiters_queue lk) = waiters_queue lk) by (destruct Hn as [->|[-> _]]; [apply drop_0|apply drop_nil]).
  unfold woken_lock. rewrite Ed. destruct Hq as [H1 H2 H3 H4 H5 H8 H9]. constructor; try done; cbn; [lia|].
  intros H. destruct Hn as [->|[E Hn]]; [destruct H9; [lia|split; [done|lia]]|split; [done|lia]].
Qed.

Lemma queue_append lk T t th i :
  queue_ok lk T -> T !! t = Some th -> rt_life th = Live -> rt_pc th = Run (LockWait i) ->
  0 < nwaiter lk + 1 \/ max_wakeup_val lk < 1 ->
  queue_ok (mk_lock (lk_key lk) (max_wakeup_val lk) (nwaiter lk + 1) (waiters_queue lk ++ [t]) (job lk)) (<[t := set_pc (Waiting i) th]> T).
Proof.
  intros Hq Hth Hl Hpc Hn. destruct (q_mail _ _ Hq _ _ Hth) as [Hm _]. rewrite Hpc in Hm. destruct Hm as [Hni Hm].
  assert (Hb : busy (set_pc (Waiting i) th) = busy th) by (unfold busy; cbn; by rewrite Hpc, Hm).
  destruct Hq as [H1 H2 H3 H4 H5 H8 H9].
  assert (Hs : ~ nwaiter lk < Z.of_nat (length (waiters_queue lk))).
  { intros H. destruct (H9 H) as [E E2]. rewrite E in H. cbn in H. lia. }
  constructor; cbn [lk_key waiters_queue nwaiter max_wakeup_val]; try done.
  - apply list.NoDup_app. split; [done|]. split; [|by repeat constructor; apply not_elem_of_nil].
    intros t2 Hin ->%list_elem_of_singleton. done.
  - intros t2 [Hin | ->%list_elem_of_singleton]%elem_of_app.
    + rewrite lookup_insert_ne; [by apply H3|by intros <-].
    + rewrite lookup_insert_eq. by eexists.
  - intros t2 th2 E. destruct (decide (t2 = t)) as [->|Hne].
    + rewrite lookup_insert_eq in E. injection E as <-. split; [|by cbn; rewrite Hl]. left. cbn. split; [|by left].
      apply elem_of_app. right. by apply list_elem_of_singleton.
    + rewrite lookup_insert_ne in E by done. destruct (H4 _ _ E) as [M1 M2].
      assert (Hin : t2 ∈ waiters_queue lk ++ [t] <-> t2 ∈ waiters_queue lk) by (rewrite elem_of_app, list_elem_of_singleton; tauto).
      split; [|by rewrite Hin]. destruct (rt_pc th2); by rewrite Hin.
  - by apply (busy_put _ _ _ th).
  - rewrite length_app. cbn. lia.
  - rewrite length_app. cbn. lia.
Qed.

Lemma queue_waits lk T t th i :
  queue_ok lk T -> T !! t = Some th -> rt_life th = Live -> rt_pc th = Run (LockWait i) ->
  let '(lk', is_waiting) := lock_add_waiter mutex_wakeup_val lk t in
  queue_ok lk' (<[t := if is_waiting then set_pc (Waiting i) th else add_mail woken_response (set_pc (Waiting i) th)]> T)
  /\ job lk' = job lk /\ nwaiter lk' = nwaiter lk + 1
  /\ waiters_queue lk' = waiters_queue lk ++ (if is_waiting then [t] else [])
  /\ (is_waiting = true -> ~ nwaiter lk < Z.of_nat (length (waiters_queue lk))).
Proof.
  intros Hq Hth Hl Hpc. destruct (q_mail _ _ Hq _ _ Hth) as [Hm _]. rewrite Hpc in Hm. destruct Hm as [Hni Hm].
  unfold lock_add_waiter, mutex_wakeup_val. destruct (_ && _) eqn:Hn; zbool; cbn [job nwaiter waiters_queue].
  - rewrite app_nil_r. split; [|done].
    assert (Hq' : queue_ok lk (<[t := add_mail woken_response (set_pc (Waiting i) th)]> T)).
    { apply (queue_put _ _ _ _ _ Hq Hth); unfold mail_ok, busy, add_mail, set_pc; cbn; rewrite Hm, ?Hl, ?Hpc; [|done]. split; [by right; auto|done]. }
    destruct Hq' as [H1 H2 H3 H4 H5 H8 H9]. constructor; try done; cbn [nwaiter waiters_queue max_wakeup_val]; [lia|].
    intros _. apply H9. lia.
  - split; [apply queue_append with (i := i); try done; lia|]. split; [done|]. split; [done|]. split; [done|]. intros _ H.
    destruct (q_stored _ _ Hq H) as [E E2]. rewrite E in H. cbn in H. lia.
Qed.

(** *** Steps in the code of the mutex *)

Section Preserved.
Context (Hkey : mtx_key <> 0).

Lemma run_thread s t th pc :
  rinv s -> rs_thr s !! t = Some th -> rt_pc th = Run pc -> t ∉ waiters_queue (rs_lk s) /\ rt_mail th = [].
Proof. intros Hi Hth Hpc. pose proof (q_mail _ _ (i_queue _ Hi) _ _ Hth) as [Hm _]. by rewrite Hpc in Hm. Qed.

Lemma run_step_hope v T t rd mail pc w sh rd' pc' :
  core v T -> T !! t = Some (mk_rt rd (Run pc) Live mail) ->
  match pc with
  | LockWait _ | UnlockWake _ => False
  | RegCas o _ => o = v -> wtid_of v = 0
  | _ => True
  end ->
  mtx_step mtx_key (mk_shared v w) rd pc = Next sh rd' pc' ->
  let th := mk_rt rd (Run pc) Live mail in let th' := mk_rt rd' (Run pc') Live mail in let v' := sh_lock sh in
  owner_of v' = 0 -> hopeful v' th' = true \/ nwaiter_of v' = 0
     \/ v' = v /\ (live_waiter th' = true -> live_waiter th = true) /\ (hopeful v th = true -> hopeful v th' = true).
Proof.
  intros Hc Hth Hpc Hst th th' v' Ho.
  assert (U := run_step_upd _ _ _ _ _ Hc _ _ _ _ _ Hpc Hth Hst). fold th th' v' in U.
  destruct (rstep_facts _ _ _ _ _ Hc _ Hth) as ((Hid & Ht & Hok) & Hu & Hown & Hmark & _).
  assert (Hh : holds th' = false). { apply not_true_iff_false. intros E. pose proof (u_owner _ _ _ _ _ U) as Eo. rewrite E in Eo. lia. }
  unfold th, th', v' in *. clear th th' v'. destruct pc; cbn [mtx_step] in Hst; try done.
  - unfold lock_cas_step in Hst. rewrite cas_split in Hst. cbn [sh_lock] in Hst. case_decide as Hd; [by injection Hst as <- <- <-|].
    rewrite Hu in Hst. right. right. destruct notified; injection Hst as <- <- <-; (split; [done|]); (split; [done|]); [|done].
    cbn. by rewrite (proj2 (Z.eqb_neq _ _)).
  - left. injection Hst as <- <- <-. cbn in *. apply Z.eqb_eq. rewrite land_lnot, land_owner. lia.
  - apply (register_upd _ _ _ _ _ Hc _ _ _ _ _ _ Hth Hpc) in Hst as Hr. destruct Hr as [_ [E|E]].
    + right. right. split; [done|]. unfold register_waiter_in_mtx in Hst. rewrite cas_split in Hst. cbn [sh_lock] in Hst.
      revert Hst. case_test; [cbn in Hok; rewrite is_mtx_waiterlist_full_spec in Hb; zbool; lia|].
      case_decide; [|by rewrite Hu; intros [= <- <- <-]]. intros [= <- <- <-]. exfalso.
      pose proof (u_n _ _ _ _ _ U) as En. cbn in En, E. rewrite E in En. lia.
    + left. by rewrite E.
  - left. by injection Hst as <- <- <-.
  - destruct (register_release_upd _ _ _ _ _ Hc _ _ _ _ _ Hth Hst) as (_ & o & j & -> & E). left. cbn.
    apply Z.eqb_eq, E. pose proof (u_owner _ _ _ _ _ U) as Eo. cbn in Eo. congruence.
  - unfold trylock_step in Hst. rewrite cas_split in Hst. cbn [sh_lock] in Hst. revert Hst.
    case_test; [case_decide; [by intros [= <- <- <-]|rewrite Hu]|]; intros [= <- <- <-]; right; right; done.
  - right. right. destruct locked; cbn in Hst.
    + case_decide; [|done]. by injection Hst as <- <- <-.
    + by injection Hst as <- <- <-.
  - right. right. by injection Hst as <- <- <-.
  - unfold unlock_sub_step in Hst. destruct Hok as (Hs & -> & -> & Er). injection Hst as <- <- <-.
    pose proof (u_n _ _ _ _ _ U) as En. revert En. rewrite is_mtx_waited_spec.
    destruct (Z.eqb_spec (nwaiter_of v) 0) as [E|E]; cbn [negb]; intros En; [|by left].
    right. left. rewrite En, E. done.
  - right. right. by injection Hst as <- <- <-.
  - right. right. unfold consistent_load_step in Hst. injection Hst as <- <- <-. by destruct (is_mtx_ownerdead _).
  - injection Hst as <- <- <-. destruct Hok as [(_ & [E _] & _) _]. cbn in Hh. by rewrite E in Hh.
Qed.

Lemma run_step_inv s t rd mail pc w sh rd' pc' :
  rinv s -> rs_thr s !! t = Some (mk_rt rd (Run pc) Live mail) ->
  match pc with
  | LockWait _ | UnlockWake _ => False
  | RegCas o _ => o = rs_v s -> wtid_of (rs_v s) = 0
  | _ => True
  end ->
  mtx_step mtx_key (mk_shared (rs_v s) w) rd pc = Next sh rd' pc' ->
  rinv (mk_rs (sh_lock sh) (rs_lk s) (<[t := mk_rt rd' (Run pc') Live mail]> (rs_thr s))).
Proof.
  intros Hi Hth Hpc Hst. destruct (run_thread _ _ _ _ Hi Hth eq_refl) as [Hq Hm]. cbn in Hm. subst mail.
  destruct Hi as [Hc Hqu [ts Hj] Ha].
  assert (Hc' := core_upd _ _ _ _ _ _ Hc Hth (run_step_upd _ _ _ _ _ Hc _ _ _ _ _ Hpc Hth Hst)).
  constructor; cbn [rs_v rs_lk rs_thr]; [done| | |].
  - by apply (queue_put _ _ _ _ _ Hqu Hth).
  - exists ts. by apply (job_put _ _ _ _ _ _ Hj Hth).
  - apply (awaited_put _ _ _ _ _ _ _ Ha Hth Hc'). by apply (run_step_hope _ _ _ _ _ _ _ _ _ _ Hc Hth Hpc Hst).
Qed.

(** A step of a thread that leaves the lock value and the lock of the referee. *)
Lemma put_inv s t th th' :
  rinv s -> rs_thr s !! t = Some th -> rt_life th <> Noticed -> rt_life th' <> Noticed ->
  upd t th th' (rs_v s) (rs_v s) -> mail_ok (t ∈ waiters_queue (rs_lk s)) th' -> busy th' = busy th ->
  added th = added th' ->
  match rt_pc th' with
  | JobLoaded _ v0 => forall t2 th2, rs_thr s !! t2 = Some th2 -> rt_life th2 = Noticed ->
      (holds th2 = true <-> owner_of v0 = t2) /\ (marking th2 = true <-> wtid_of v0 = t2)
  | JobScanned _ cv => forall ts, job_ok (rs_lk s) (rs_thr s) ts -> cv = s64 (total (rs_thr s) ts)
  | JobAdded _ _ => False
  | _ => True
  end ->
  (live_waiter th' = true -> live_waiter th = true) -> (hopeful (rs_v s) th = true -> hopeful (rs_v s) th' = true) ->
  rinv (put s t th').
Proof.
  intros [Hc Hqu [ts Hj] Ha] Hth Hl Hl' Hup Hm Hb Had Hpc Hlw Hh. assert (Hc' := core_upd _ _ _ _ _ _ Hc Hth Hup).
  constructor; cbn [put rs_v rs_lk rs_thr]; [done| | |].
  - by apply (queue_put _ _ _ _ _ Hqu Hth).
  - exists ts. apply (job_put _ _ _ _ _ _ Hj Hth); try done. destruct (rt_pc th'); try done. by apply Hpc.
  - apply (awaited_put _ _ _ _ _ _ _ Ha Hth Hc'). intros _. right. by right.
Qed.

Lemma call_inv s t th guard f s' :
  rinv s -> rs_thr s !! t = Some th -> rt_life th = Live ->
  rcall s t th guard f = Some s' ->
  (forall r mail, guard = true -> th = mk_rt (rt_rd th) (Run (Returned r)) Live mail -> shape (holding (rt_rd th)) false false (rt_rd th) ->
     thread_id (rt_rd th) = t -> tid_ok t ->
     let th' := mk_rt (fst (f (rt_rd th))) (Run (snd (f (rt_rd th)))) Live mail in
     thr_ok (recover_of (rs_v s)) t th' /\ holds th' = holds th /\ counted th' = false /\ marking th' = false) ->
  rinv s'.
Proof.
  intros Hi Hth Hl Hcall Hf. destruct th as [rd pc l mail]. cbn in Hl. subst l. unfold rcall in Hcall. cbn [rt_pc rt_rd rt_life rt_mail] in *.
  destruct pc as [[]| | | | | |]; try done. destruct guard eqn:Hg; [|done].
  destruct (rstep_facts _ _ _ _ _ (i_core _ Hi) _ Hth) as ((Hid & Ht & Hok) & _ & Hown & Hmark & _).
  destruct Hok as [h Hs]. assert (Hh : h = holding rd).
  { destruct Hs as (_ & Hs & _). unfold holding. destruct h; [by destruct Hs as [-> _]|by rewrite Hs]. }
  rewrite Hh in Hs.
  destruct (Hf ret mail eq_refl eq_refl Hs Hid ltac:(split; lia)) as (F1 & F2 & F3 & F4).
  destruct (f rd) as [rd' pc']. injection Hcall as <-. cbn [fst snd] in *.
  destruct (run_thread _ _ _ _ Hi Hth eq_refl) as [Hq Hm]. cbn in Hm. subst mail.
  apply (put_inv s t (mk_rt rd (Run (Returned ret)) Live [])); try done.
  - by apply upd_same.
  - unfold live_waiter. cbn [rt_life]. by rewrite F3.
Qed.

Lemma disconnect_job lk lk' T ts t th :
  job_ok lk T ts -> T !! t = Some th -> t ∉ ts -> rt_life th = Died -> (forall t th, T !! t = Some th -> in_job th = false) ->
  deadlist_of lk' = deadlist_of lk ++ entries th -> job_ok lk' (<[t := set_life Noticed th]> T) (ts ++ [t]).
Proof.
  intros [H1 H2 H3 H4] Hth Hni Hl Hnj Hd.
  assert (Hna : ~ exists t th, T !! t = Some th /\ added th = true).
  { intros (t2 & th2 & E & E2). specialize (Hnj _ _ E). unfold in_job, added in *. by destruct (rt_pc th2). }
  constructor.
  - apply list.NoDup_app. split; [done|]. split; [|by repeat constructor; apply not_elem_of_nil].
    intros t2 Hin ->%list_elem_of_singleton. done.
  - intros t2. rewrite elem_of_app, list_elem_of_singleton, H2. destruct (decide (t2 = t)) as [->|Hne].
    + rewrite lookup_insert_eq. split; [intros _; by eexists|intros _; by right].
    + rewrite lookup_insert_ne by done. naive_solver.
  - right. destruct H3 as [H3|H3]; [done|]. rewrite Hd, H3, fmap_app, join_app. f_equal.
    + f_equal. apply list_fmap_ext. intros i t2 Hi%list_elem_of_lookup_2. rewrite lookup_insert_ne; [done|]. by intros ->.
    + cbn. rewrite lookup_insert_eq. cbn. by rewrite app_nil_r.
  - intros t2 th2 E. assert (Hj : in_job th2 = false).
    { destruct (decide (t2 = t)) as [->|Hne]; [rewrite lookup_insert_eq in E; injection E as <-; apply (Hnj t th Hth)|].
      rewrite lookup_insert_ne in E by done. by apply (Hnj t2). }
    unfold in_job in Hj. by destruct (rt_pc th2).
Qed.

Lemma lock_called s t th s' :
  rinv s -> rs_thr s !! t = Some th -> rt_life th = Live ->
  rcall s t th (negb (holding (rt_rd th))) (pshared_mtx_lock mtx_key) = Some s' -> rinv s'.
Proof.
  intros Hi Hth Hl Hcall. apply (call_inv s t th _ _ s' Hi Hth Hl Hcall). intros r mail Hg -> Hs Hid Ht. cbn [rt_rd] in *.
  apply negb_true_iff in Hg. rewrite Hg in Hs. destruct Hs as (H1 & H2 & H3 & H4).
  split; [|split; [symmetry; exact Hg|done]].
  split; [done|]. split; [done|]. cbn. rewrite Hid, mtx_lockval_owner by (destruct Ht; lia). done.
Qed.

Lemma trylock_called s t th s' :
  rinv s -> rs_thr s !! t = Some th -> rt_life th = Live ->
  rcall s t th (negb (holding (rt_rd th))) (pshared_mtx_trylock mtx_key) = Some s' -> rinv s'.
Proof.
  intros Hi Hth Hl Hcall. apply (call_inv s t th _ _ s' Hi Hth Hl Hcall). intros r mail Hg -> Hs Hid Ht. cbn [rt_rd] in *.
  apply negb_true_iff in Hg. rewrite Hg in Hs. destruct Hs as (H1 & H2 & H3 & H4).
  split; [|split; [symmetry; exact Hg|done]]. destruct Ht as [Ht0 Ht1].
  split; [done|]. split; [done|]. cbn. rewrite Hid, mtx_lockval_owner by lia. split; [done|]. split; [done|].
  split; [lia|]. split; [done|]. intros _. rewrite wrap_s_small; unfold in_s; lia.
Qed.

Lemma unlock_called s t th s' :
  rinv s -> recover_of (rs_v s) = 0 -> rs_thr s !! t = Some th -> rt_life th = Live ->
  rcall s t th (holding (rt_rd th)) pshared_mtx_unlock = Some s' -> rinv s'.
Proof.
  intros Hi Hr Hth Hl Hcall. apply (call_inv s t th _ _ s' Hi Hth Hl Hcall). intros r mail Hg -> Hs Hid Ht. cbn [rt_rd] in *.
  rewrite Hg in Hs. split; [|split; [done|done]]. by split.
Qed.

Lemma consistent_called s t th s' :
  rinv s -> rs_thr s !! t = Some th -> rt_life th = Live ->
  rcall s t th (holding (rt_rd th)) pshared_mtx_consistent = Some s' -> rinv s'.
Proof.
  intros Hi Hth Hl Hcall. apply (call_inv s t th _ _ s' Hi Hth Hl Hcall). intros r mail Hg -> Hs Hid Ht. cbn [rt_rd] in *.
  rewrite Hg in Hs. split; [|split; [done|done]]. by split.
Qed.

(** *** Deaths *)

(** A thread that attempts the mutex is in the report of its death. *)
Lemma hopeful_entries r v t th :
  thr_ok r t th -> rt_life th = Live -> hopeful v th = true ->
  match entries th with [] => false | _ => true end = true.
Proof.
  intros (_ & _ & Hok) Hl Hh. rewrite Hl in Hok.
  assert (exists h w, shape h true w (rt_rd th)) as (h & w & Hs).
  { unfold hopeful in Hh. rewrite Hl in Hh. destruct (rt_pc th) as [[]| | | | | |]; cbn [wait_ok run_ok] in Hok; try done;
      try (destruct notified; try done); repeat match goal with
       | H : _ /\ _ |- _ => destruct H
       | H : slept _ _ _ |- _ => destruct H
       end; eauto. }
  rewrite (entries_shape th h true w) by done. by destruct h.
Qed.

Lemma die_inv s t th :
  rinv s -> rs_thr s !! t = Some th -> rt_life th = Live -> clean_death s t th = true -> rinv (put s t (set_life Died th)).
Proof.
  intros Hi Hth Hl Hcl. unfold clean_death in Hcl. rewrite !andb_true_iff, bool_decide_eq_true, !negb_true_iff in Hcl.
  destruct Hcl as (((Hq & Hb) & Hpc) & Hr).
  assert (Hok := map_Forall_lookup_1 _ _ _ _ (c_ok _ _ (i_core _ Hi)) Hth). cbn in Hok.
  assert (Hown := c_owner _ _ (i_core _ Hi) _ _ Hth).
  apply (put_inv s t th); try done; try (by rewrite Hl).
  - apply (life_upd _ (rs_thr s)); [by apply i_core|done|by rewrite Hl|done|]. destruct Hok as (Hid & Ht & Hok). rewrite Hl in Hok.
    split; [done|]. split; [done|]. cbn. split; [done|]. split; [cbn; by destruct (rt_pc th) as [[]| | | | | |]|].
    intros Hh. assert (E : owner_of (rs_v s) = t) by (apply Hown; unfold holds, repaired_life in *; by rewrite Hl).
    rewrite is_thread_mtx_owner_spec, (proj2 (Z.eqb_eq _ _) E), is_mtx_ownerdead_spec in Hr by (destruct Ht; lia). cbn in Hr. zbool.
    pose proof (decode_ok (rs_v s)) as (_ & _ & Hvr & _). cbn in Hvr. lia.
  - pose proof (q_mail _ _ (i_queue _ Hi) _ _ Hth) as [Hm _]. split; [exact Hm|]. intros _. by split.
  - unfold busy in Hb. cbn. by destruct (rt_pc th).
  - intros Hh. apply (hopeful_entries _ _ _ _ Hok Hl Hh).
Qed.

Lemma not_in_job s t : clean s (RDisconnect t) = true -> forall t2 th2, rs_thr s !! t2 = Some th2 -> in_job th2 = false.
Proof.
  intros H t2 th2 H2. cbn in H. rewrite forallb_forall in H. apply negb_true_iff, (H (t2, th2)).
  apply list_elem_of_In. by apply elem_of_map_to_list.
Qed.

Lemma busy_in_job th : in_job th = true -> busy th = true.
Proof. unfold in_job, busy. by destruct (rt_pc th). Qed.

Lemma job_length v lk T ts :
  core v T -> job_ok lk T ts -> (forall t th, T !! t = Some th -> added th = false) ->
  (length (deadlist_of lk) <= 2 * length ts)%nat.
Proof.
  intros Hc [H1 H2 H3 H4] Hna. destruct H3 as [(t & th & E & E2)| ->]; [by rewrite (Hna _ _ E) in E2|].
  assert (G : forall t, t ∈ ts -> exists th, T !! t = Some th /\ rt_life th = Noticed) by (intros t; apply H2).
  clear -G Hc Hkey. set (f := fun t => from_option entries [] (T !! t)). induction ts as [|t ts IH]; [cbn; lia|].
  change (mjoin (f <$> t :: ts)) with (f t ++ mjoin (f <$> ts)). rewrite length_app. unfold f at 1. cbn [length].
  destruct (G t ltac:(left)) as (th & Hth & Hl). rewrite Hth. cbn [from_option].
  destruct (entries_delta _ v _ _ Hkey (map_Forall_lookup_1 _ _ _ _ (c_ok _ _ Hc) Hth) Hl) as (_ & Hlen & _);
    [by apply (c_owner _ _ Hc)|by apply (c_wtid _ _ Hc)|].
  specialize (IH ltac:(intros t2 H2; apply G; by right)). lia.
Qed.

Lemma noticed_size (T : gmap Z rthread) ts :
  NoDup ts -> (forall t, t ∈ ts -> is_Some (T !! t)) -> (length ts <= size T)%nat.
Proof.
  intros Hnd H. rewrite <- size_dom, <- (size_list_to_set (C := gset Z) ts Hnd). apply subseteq_size. intros t Ht.
  apply elem_of_dom, H. by apply elem_of_list_to_set in Ht.
Qed.

Lemma died_noticed r t th : thr_ok r t th -> rt_life th = Died -> thr_ok r t (set_life Noticed th).
Proof.
  intros (H1 & H2 & H3) Hl. rewrite Hl in H3. split; [done|]. split; [done|]. destruct H3 as [H3 [H4 H5]]. split; [done|].
  split; [done|]. intros Hh. apply H5. unfold holds, repaired_life in *. by rewrite Hl.
Qed.

(** The report fits the page of the job. *)
Lemma disconnect_eq s t th :
  rinv s -> clean s (RDisconnect t) = true -> rs_thr s !! t = Some th -> rt_life th = Died ->
  disconnect mtx_key t s = Some (mk_rs (rs_v s) (reported (entries th) (rs_lk s)) (<[t := set_life Noticed th]> (rs_thr s))).
Proof.
  intros [Hc Hqu [ts Hj] Ha] Hcl Hth Hl. pose proof (not_in_job s t Hcl) as Hnj.
  assert (Hok := map_Forall_lookup_1 _ _ _ _ (c_ok _ _ Hc) Hth). cbn in Hok.
  assert (Hok' := died_noticed _ _ _ Hok Hl).
  assert (Hup := life_upd _ _ _ _ Noticed Hc Hth ltac:(by rewrite Hl) ltac:(done) Hok').
  assert (Hc' := core_upd _ _ _ _ _ _ Hc Hth Hup).
  assert (Hna : forall t th, rs_thr s !! t = Some th -> added th = false).
  { intros t2 th2 H2. specialize (Hnj _ _ H2). unfold in_job, added in *. by destruct (rt_pc th2). }
  assert (Hni : t ∉ ts) by (intros (th2 & E & E2)%(j_in _ _ _ Hj); congruence).
  unfold disconnect. rewrite Hth. cbn [mbind option_bind]. rewrite decide_True by done. rewrite report_robust_data_entries; [done|].
  pose proof (job_length _ _ _ _ Hc Hj Hna) as H1.
  destruct (entries_delta _ (rs_v s) t (set_life Noticed th) Hkey Hok' eq_refl) as (_ & H2 & _);
    [by apply (c_owner _ _ Hc' t); rewrite lookup_insert_eq|by apply (c_wtid _ _ Hc' t); rewrite lookup_insert_eq|].
  change (entries (set_life Noticed th)) with (entries th) in H2.
  assert (H3 : (length (t :: ts) <= size (rs_thr s))%nat).
  { apply noticed_size; [by constructor; [|apply (j_nodup _ _ _ Hj)]|]. intros t2 [->|H3]%elem_of_cons; [eauto|].
    apply (j_in _ _ _ Hj) in H3 as (th2 & -> & _). eauto. }
  pose proof (c_size _ _ Hc). cbn in H3. unfold deadlist_max, MM_PAGESZ. change ((4096 - 8) / 8) with 511. lia.
Qed.

Lemma disconnect_inv s t s' :
  rinv s -> clean s (RDisconnect t) = true -> disconnect mtx_key t s = Some s' -> rinv s'.
Proof.
  intros Hi Hcl Hd. destruct (rs_thr s !! t) as [th|] eqn:Hth; [|by unfold disconnect in Hd; rewrite Hth in Hd].
  destruct (decide (rt_life th = Died)) as [Hl|Hl].
  2:{ unfold disconnect in Hd. rewrite Hth in Hd. cbn [mbind option_bind] in Hd. by rewrite decide_False in Hd. }
  rewrite (disconnect_eq s t th Hi Hcl Hth Hl) in Hd. injection Hd as <-.
  pose proof (not_in_job s t Hcl) as Hnj. destruct Hi as [Hc Hqu [ts Hj] Ha].
  assert (Hok := map_Forall_lookup_1 _ _ _ _ (c_ok _ _ Hc) Hth). cbn in Hok.
  assert (Hup := life_upd _ _ _ _ Noticed Hc Hth ltac:(by rewrite Hl) ltac:(done) (died_noticed _ _ _ Hok Hl)).
  assert (Hc' := core_upd _ _ _ _ _ _ Hc Hth Hup).
  assert (Hni : t ∉ ts) by (intros (th2 & E & E2)%(j_in _ _ _ Hj); congruence).
  assert (R : forall l, let lk' := reported l (rs_lk s) in
    lk_key lk' = lk_key (rs_lk s) /\ waiters_queue lk' = waiters_queue (rs_lk s) /\ nwaiter lk' = nwaiter (rs_lk s)
    /\ max_wakeup_val lk' = max_wakeup_val (rs_lk s) /\ in_prog lk' = in_prog (rs_lk s) /\ deadlist_of lk' = deadlist_of (rs_lk s) ++ l).
  { intros []; cbn; split_and!; try done. by rewrite app_nil_r. }
  destruct (R (entries th)) as (R1 & R2 & R3 & R4 & R5 & R6).
  assert (Hqu' : queue_ok (rs_lk s) (<[t := set_life Noticed th]> (rs_thr s))).
  { apply (queue_put _ _ _ _ _ Hqu Hth); [|by destruct th]. destruct (q_mail _ _ Hqu _ _ Hth) as [M1 M2]. split; [exact M1|].
    intros _. apply M2. by rewrite Hl. }
  constructor; cbn [rs_v rs_lk rs_thr]; [done| | |].
  - apply (queue_lk_ext (rs_lk s)); try done. lia.
  - exists (ts ++ [t]). by apply (disconnect_job _ _ _ _ _ _ Hj).
  - intros Ho Hw.
    destruct (awaited_put _ _ _ _ _ _ _ Ha Hth Hc') as [H|H]; [|done|exact Hw|left; by rewrite R2, R3|by right].
    intros _. right. right. split; [done|]. split; [done|]. unfold hopeful. by rewrite Hl.
Qed.

(** *** Wake-ups *)

Lemma mail_upd v T t th r :
  core v T -> T !! t = Some th -> rt_life th = Live -> upd t th (add_mail r th) v v.
Proof.
  intros Hc Hth Hl. apply upd_same; try done; [|by apply (c_owner _ _ Hc)|by apply (c_wtid _ _ Hc)].
  exact (map_Forall_lookup_1 _ _ _ _ (c_ok _ _ Hc) Hth).
Qed.

Lemma wake_eq num lk T :
  0 <= num -> wake num lk T = (T' ← deliver woken_response (take (Z.to_nat num) (waiters_queue lk)) T; Some (woken_lock lk num, T')).
Proof. intros H. unfold wake, lock_wake_waiters. by rewrite wake_scan_ones. Qed.

Lemma job_lk_ext lk lk' T ts : job lk' = job lk -> job_ok lk T ts -> job_ok lk' T ts.
Proof. intros E [H1 H2 H3 H4]. constructor; try done. unfold deadlist_of in *. by rewrite E. Qed.

(** A wake-up leaves the invariants, and somebody to act. *)
Lemma wake_ok num lk T ts v :
  num = 0 \/ num = 1 -> core v T -> queue_ok lk T -> job_ok lk T ts ->
  exists T', wake num lk T = Some (woken_lock lk num, T') /\ core v T' /\ queue_ok (woken_lock lk num) T' /\ job_ok (woken_lock lk num) T' ts
    /\ (num = 1 -> responsible v (woken_lock lk num) T') /\ (num = 0 -> T' = T).
Proof.
  intros Hnum Hc Hq Hj. rewrite wake_eq by lia.
  destruct Hnum as [->| ->].
  - exists T. change (take (Z.to_nat 0) (waiters_queue lk)) with (@nil Z). cbn [deliver mbind option_bind].
    split; [done|]. split; [done|]. split; [apply queue_stored; [done|by left]|]. split; [by apply (job_lk_ext lk)|done].
  - change (Z.to_nat 1) with 1%nat. destruct (waiters_queue lk) as [|t q] eqn:Eq.
    + exists T. cbn [take deliver mbind option_bind]. split; [done|]. split; [done|].
      split; [apply queue_stored; [done|by right]|]. split; [by apply (job_lk_ext lk)|]. split; [|done]. intros _. left.
      unfold woken_lock. cbn. rewrite Eq. pose proof (q_owed _ _ Hq) as H. rewrite Eq in H. cbn in *. lia.
    + destruct (q_in _ _ Hq t) as (th & Hth & Hl); [rewrite Eq; left|].
      exists (<[t := add_mail woken_response th]> T). cbn [take deliver]. rewrite take_0, Hth. cbn [mbind option_bind deliver].
      rewrite decide_True by done. cbn [mbind option_bind]. split; [done|].
      split; [by apply (core_upd _ _ _ _ _ _ Hc Hth), mail_upd with T|]. split; [by apply queue_woken with q|].
      split; [|split; [|done]].
      * apply (job_lk_ext lk); [done|]. apply (job_put _ _ _ _ _ _ Hj Hth); try done; [by rewrite Hl|by cbn; rewrite Hl|].
        apply (j_pc _ _ _ Hj _ _ Hth).
      * intros _. right. exists t, (add_mail woken_response th). rewrite lookup_insert_eq. split; [done|].
        pose proof (q_mail _ _ Hq _ _ Hth) as [Hm _]. unfold hopeful, add_mail. cbn [rt_mail rt_life rt_pc]. rewrite Hl.
        assert (Hne : match rt_mail th ++ [woken_response] with [] => false | _ => true end = true) by (by destruct (rt_mail th)).
        cbv zeta. rewrite Hne. rewrite Eq in Hm. destruct (rt_pc th); rewrite ?orb_true_r; try done. by destruct Hm as [[] _]; left.
Qed.

(** *** The exchanges with the referee *)

Lemma live_ok v T t th : core v T -> T !! t = Some th -> rt_life th = Live ->
  thread_id (rt_rd th) = t /\ tid_ok t /\ wait_ok (recover_of v) t (rt_rd th) (rt_pc th).
Proof. intros Hc Hth Hl. destruct (map_Forall_lookup_1 _ _ _ _ (c_ok _ _ Hc) Hth) as (H1 & H2 & H3). by rewrite Hl in H3. Qed.

(** A live thread that goes on sleeping, or wakes up. *)
Lemma slept_upd v T t th pc mail :
  core v T -> T !! t = Some th -> rt_life th = Live ->
  match rt_pc th with Run (LockWait _) | Waiting _ | JobMap _ | JobLoaded _ _ | JobScanned _ _ | JobAdded _ _ | JobAck _ _ => True | _ => False end ->
  match pc with Run (LockReload _) | Waiting _ | JobMap _ | JobLoaded _ _ | JobScanned _ _ | JobAdded _ _ | JobAck _ _ => True | _ => False end ->
  wait_ok (recover_of v) t (rt_rd th) pc -> upd t th (mk_rt (rt_rd th) pc Live mail) v v.
Proof.
  intros Hc Hth Hl H1 H2 Hok. destruct (live_ok _ _ _ _ Hc Hth Hl) as (Hid & Ht & _).
  apply upd_same; [by split| | | |by apply (c_owner _ _ Hc)|by apply (c_wtid _ _ Hc)];
    unfold counted, holds, marking, repaired_life; rewrite Hl; cbn;
    by destruct (rt_pc th) as [[]| | | | | |], pc as [[]| | | | | |].
Qed.



Lemma exec_wait_inv s t th i s' :
  rinv s -> rs_thr s !! t = Some th -> rt_life th = Live -> rt_pc th = Run (LockWait i) -> exec_wait s t th i = Some s' -> rinv s'.
Proof.
  intros [Hc Hqu [ts Hj] Ha] Hth Hl Hpc. destruct (live_ok _ _ _ _ Hc Hth Hl) as (Hid & Ht & Hok). rewrite Hpc in Hok.
  pose proof (queue_waits _ _ _ _ _ Hqu Hth Hl Hpc) as Hw. unfold exec_wait.
  destruct (lock_add_waiter _ _ _) as [lk' w]. destruct Hw as (Hq' & Ej & En & Eq & Htok). intros [= <-].
  set (th' := if w then _ else _) in *. destruct th as [rd pc life mail]. cbn in Hl, Hpc. subst life pc.
  assert (Hth' : exists mail', th' = mk_rt rd (Waiting i) Live mail' /\ (w = false -> mail' <> [])).
  { unfold th', add_mail, set_pc. destruct w; cbn; eexists; (split; [reflexivity|]); [done|]. by destruct mail. }
  clearbody th'. destruct Hth' as (mail' & -> & Hm).
  assert (Hc' : core (rs_v s) (<[t := mk_rt rd (Waiting i) Live mail']> (rs_thr s))).
  { apply (core_upd _ _ _ _ _ _ Hc Hth). by apply (slept_upd _ _ _ _ _ _ Hc Hth eq_refl). }
  constructor; cbn [rs_v rs_lk rs_thr]; [done|done| |].
  - exists ts. apply (job_lk_ext (rs_lk s)); [done|]. by apply (job_put _ _ _ _ _ _ Hj Hth).
  - destruct w.
    + intros Ho Hw. assert (A := awaited_put _ _ _ _ _ _ _ Ha Hth Hc').
      destruct (A ltac:(intros _; right; by right) Ho Hw) as [H|H]; [by destruct (Htok eq_refl)|by right].
    + intros _ _. right. exists t. eexists. rewrite lookup_insert_eq. split; [reflexivity|]. cbn. specialize (Hm eq_refl). by destruct mail'.
Qed.

(** A thread sends a wake request and goes on. *)
Lemma wake_inv v lk T ts num s' :
  num = 0 \/ num = 1 -> core v T -> queue_ok lk T -> job_ok lk T ts -> (num = 0 -> awaited v lk T) ->
  ('(lk', T') ← wake num lk T; Some (mk_rs v lk' T')) = Some s' -> rinv s'.
Proof.
  intros Hn Hc Hq Hj Ha. destruct (wake_ok num lk T ts v Hn Hc Hq Hj) as (T' & -> & Hc' & Hq' & Hj' & Hr & H0).
  cbn [mbind option_bind]. intros [= <-]. constructor; cbn [rs_v rs_lk rs_thr]; [done|done|by exists ts|].
  destruct Hn as [-> | ->]; [|intros _ _; by apply Hr]. rewrite (H0 eq_refl) in *. intros Ho Hw.
  destruct (Ha eq_refl Ho Hw) as [H|H]; [left|by right]. unfold woken_lock. change (Z.to_nat 0) with 0%nat. rewrite drop_0. cbn [nwaiter waiters_queue]. lia.
Qed.

Lemma exec_wake_inv s t th n s' :
  rinv s -> rs_thr s !! t = Some th -> rt_life th = Live -> rt_pc th = Run (UnlockWake n) -> exec_wake s t th n = Some s' -> rinv s'.
Proof.
  intros Hi Hth Hl Hpc. destruct (run_thread _ _ _ _ Hi Hth Hpc) as [Hq Hm].
  destruct Hi as [Hc Hqu [ts Hj] Ha]. destruct (live_ok _ _ _ _ Hc Hth Hl) as (Hid & Ht & Hok). rewrite Hpc in Hok. destruct Hok as [Hs ->].
  assert (Hown := c_owner _ _ Hc _ _ Hth). assert (Hmk := c_wtid _ _ Hc _ _ Hth).
  destruct th as [rd pc life mail]. cbn in Hl, Hpc, Hm. subst life pc mail.
  apply (wake_inv _ _ _ ts); [by right| | | |done].
  - apply (core_upd _ _ _ _ _ _ Hc Hth). by apply upd_same.
  - by apply (queue_put _ _ _ _ _ Hqu Hth).
  - by apply (job_put _ _ _ _ _ _ Hj Hth).
Qed.

Lemma exec_read_inv s t th i s' :
  rinv s -> rs_thr s !! t = Some th -> rt_life th = Live -> rt_pc th = Waiting i -> exec_read s t th i = Some s' -> rinv s'.
Proof.
  intros Hi Hth Hl Hpc. destruct (q_mail _ _ (i_queue _ Hi) _ _ Hth) as [Hm _]. rewrite Hpc in Hm.
  destruct (live_ok _ _ _ _ (i_core _ Hi) Hth Hl) as (Hid & Ht & Hok). rewrite Hpc in Hok.
  destruct th as [rd pc life mail]. cbn in Hl, Hpc, Hm, Hok. subst life pc.
  assert (Hup : forall pc' mail', match pc' with Run (LockReload _) | JobMap _ => True | _ => False end -> wait_ok (recover_of (rs_v s)) t rd pc' ->
    upd t (mk_rt rd (Waiting i) Live mail) (mk_rt rd pc' Live mail') (rs_v s) (rs_v s)).
  { intros pc' mail' Hp Ho. apply (slept_upd _ _ _ _ _ _ (i_core _ Hi) Hth eq_refl); [done| |done]. by destruct pc' as [[]| | | | | |]. }
  unfold exec_read. cbn [rt_mail rt_rd rt_life].
  destruct Hm as [(Hq & [-> | ->])|(Hq & [-> | ->])]; cbn; try done; intros [= <-]; apply (put_inv s t _ _ Hi Hth); try done;
    try (by apply Hup); (split; [cbn; auto|done]).
Qed.

Lemma job_put_inv s t th pc :
  rinv s -> rs_thr s !! t = Some th -> rt_life th = Live ->
  match rt_pc th, pc with JobMap i, JobLoaded j _ | JobLoaded i _, JobScanned j _ => i = j | _, _ => False end ->
  match pc with
  | JobLoaded _ v0 => v0 = rs_v s
  | JobScanned _ cv => forall ts, job_ok (rs_lk s) (rs_thr s) ts -> cv = s64 (total (rs_thr s) ts)
  | _ => True
  end -> rinv (put s t (set_pc pc th)).
Proof.
  intros Hi Hth Hl Hpc Hx. destruct (q_mail _ _ (i_queue _ Hi) _ _ Hth) as [Hm _].
  destruct (live_ok _ _ _ _ (i_core _ Hi) Hth Hl) as (Hid & Ht & Hok).
  destruct th as [rd pc0 life mail]. cbn in Hl, Hpc, Hm, Hok. subst life.
  apply (put_inv s t _ _ Hi Hth); try done; try (by destruct pc0, pc).
  - apply (slept_upd _ _ _ _ _ _ (i_core _ Hi) Hth eq_refl); cbn; destruct pc0, pc; try done; by subst.
  - destruct pc0, pc; try done; try exact Hx. cbn. subst. intros t2 th2 H2 _. split; [by apply (c_owner _ _ (i_core _ Hi))|by apply (c_wtid _ _ (i_core _ Hi))].
Qed.

Lemma queue_repaired lk T (ts : list Z) :
  queue_ok lk T -> (forall t, t ∈ ts -> exists th, T !! t = Some th /\ rt_life th = Noticed) ->
  forall T', (forall k, T' !! k = if decide (k ∈ ts) then set_life Repaired <$> T !! k else T !! k) -> queue_ok lk T'.
Proof.
  intros [H1 H2 H3 H4 [B1 B2 B3] H8 H9] Hts T' HT'.
  assert (L : forall k th', T' !! k = Some th' -> exists th, T !! k = Some th /\ busy th = busy th'
    /\ (mail_ok (k ∈ waiters_queue lk) th -> mail_ok (k ∈ waiters_queue lk) th')).
  { intros k th'. rewrite HT'. case_decide as D; [|by eauto]. destruct (Hts k D) as (th & E & E2). rewrite E. intros [= <-].
    exists th. split; [done|]. split; [by destruct th|]. intros [M1 M2]. split; [exact M1|]. intros _. apply M2. by rewrite E2. }
  constructor; try done.
  - intros t Hq. destruct (H3 t Hq) as (th & E & El). exists th. split; [|done]. rewrite HT', decide_False; [done|].
    intros D. destruct (Hts t D) as (th2 & E2 & E3). congruence.
  - intros t th (th2 & E & _ & M)%L. by apply M, H4.
  - constructor.
    + intros t th (th2 & E & E2 & _)%L Hb. apply (B1 t th2); congruence.
    + intros t1 t2 th1 th2 (th3 & E3 & F3 & _)%L (th4 & E4 & F4 & _)%L Hb1 Hb2. apply (B2 t1 t2 th3 th4); congruence.
    + intros Hp. destruct (B3 Hp) as (t & th & E & Hb). destruct (decide (t ∈ ts)) as [D|D].
      * exists t, (set_life Repaired th). rewrite HT', decide_True, E by done. split; [done|]. by destruct th.
      * exists t, th. by rewrite HT', decide_False.
Qed.

Lemma scanned_unique lk T :
  queue_ok lk T -> forall t k th th2, T !! t = Some th -> busy th = true ->
  match rt_pc th2 with JobScanned _ _ => k <> t | _ => False end ->
  ~ exists th3, T !! k = Some th3 /\ rt_pc th3 = rt_pc th2.
Proof.
  intros Hq t k th th2 Hth Hb Hpc (th3 & E & E2).
  assert (busy th3 = true) by (unfold busy; rewrite E2; by destruct (rt_pc th2)).
  assert (k = t) by (by apply (b_one _ _ (q_busy _ _ Hq) k t th3 th)). by destruct (rt_pc th2).
Qed.

(** *** The cleanup job *)

Lemma busy_prog s t th : rinv s -> rs_thr s !! t = Some th -> busy th = true -> exists j, job (rs_lk s) = Some j /\ in_progress j = true.
Proof.
  intros Hi Hth Hb. pose proof (b_prog _ _ (q_busy _ _ (i_queue _ Hi)) _ _ Hth Hb) as H. unfold in_prog in H.
  destruct (job (rs_lk s)) as [j|]; [by exists j|done].
Qed.

(** The scan computes what the repairs of the deaths reported add. *)
Lemma scan_total s t th v0 i ts :
  rinv s -> job_ok (rs_lk s) (rs_thr s) ts -> rs_thr s !! t = Some th -> rt_pc th = JobLoaded i v0 ->
  cleanup_change v0 (deadlist_of (rs_lk s)) = s64 (total (rs_thr s) ts).
Proof.
  intros Hi Hj Hth Hpc. assert (Hb : busy th = true) by (unfold busy; by rewrite Hpc).
  assert (Hd : deadlist_of (rs_lk s) = mjoin ((fun t => from_option entries [] (rs_thr s !! t)) <$> ts)).
  { destruct (j_dead _ _ _ Hj) as [(t2 & th2 & H2 & Ha)|]; [|done].
    assert (Hb2 : busy th2 = true) by (unfold added, busy in *; by destruct (rt_pc th2)).
    assert (t2 = t) as -> by (by apply (b_one _ _ (q_busy _ _ (i_queue _ Hi)) _ _ th2 th)).
    rewrite Hth in H2. injection H2 as <-. unfold added in Ha. by rewrite Hpc in Ha. }
  assert (Hv : forall t2 th2, rs_thr s !! t2 = Some th2 -> rt_life th2 = Noticed ->
    (holds th2 = true <-> owner_of v0 = t2) /\ (marking th2 = true <-> wtid_of v0 = t2)).
  { pose proof (j_pc _ _ _ Hj _ _ Hth) as H. by rewrite Hpc in H. }
  rewrite Hd. assert (Hts : forall t2, t2 ∈ ts -> exists th2, rs_thr s !! t2 = Some th2 /\ rt_life th2 = Noticed) by (intros t2; apply (j_in _ _ _ Hj)).
  assert (G : Forall (fun d => tid_ok (dead_tid d)) (mjoin ((fun t => from_option entries [] (rs_thr s !! t)) <$> ts))
    /\ change_sum v0 (mjoin ((fun t => from_option entries [] (rs_thr s !! t)) <$> ts)) = total (rs_thr s) ts).
  { clear Hd Hj. induction ts as [|t2 ts IH]; [by split|]. destruct IH as [IH1 IH2]; [intros t3 H3; apply Hts; by right|].
    destruct (Hts t2 ltac:(left)) as (th2 & H2 & Hl2). destruct (Hv _ _ H2 Hl2) as [V1 V2].
    assert (Hok2 := map_Forall_lookup_1 _ _ _ _ (c_ok _ _ (i_core _ Hi)) H2).
    destruct (entries_delta _ v0 _ _ Hkey Hok2 Hl2 V1 V2) as (E1 & _ & E3).
    rewrite fmap_cons. change (mjoin (?a :: ?l)) with (a ++ mjoin l). rewrite H2. cbn [from_option]. split.
    - apply Forall_app. split; [|done]. eapply Forall_impl; [exact E3|]. intros d ->. apply Hok2.
    - rewrite change_sum_app, E1, IH2. cbn [total foldr]. by rewrite H2. }
  destruct G as [G1 G2]. rewrite cleanup_change_sum by done. f_equal. exact G2.
Qed.

(** The addition of the job repairs exactly the deaths reported. *)
Lemma add_repairs s t rd i cv mail ts :
  rinv s -> job_ok (rs_lk s) (rs_thr s) ts -> rs_thr s !! t = Some (mk_rt rd (JobScanned i cv) Live mail) ->
  let v' := s64 (rs_v s + cv) in
  let T1 := <[t := mk_rt rd (JobAdded i v') Live mail]> (rs_thr s) in
  let T' := repair_done <$> T1 in
  core (rs_v s) T1 /\ core v' T'
  /\ (forall k, k ∈ ts <-> exists th, T1 !! k = Some th /\ rt_life th = Noticed)
  /\ (forall k, T' !! k = if decide (k ∈ ts) then set_life Repaired <$> T1 !! k else T1 !! k)
  /\ recover_of v' = if decide (owner_of (rs_v s) ∈ ts) then 1 else recover_of (rs_v s).
Proof.
  intros Hi Hj Hth v' T1 T'. assert (Hc := i_core _ Hi).
  destruct (live_ok _ _ _ _ Hc Hth eq_refl) as (Hid & Ht & Hok).
  assert (Hcv : cv = s64 (total (rs_thr s) ts)) by apply (j_pc _ _ _ Hj _ _ Hth).
  assert (Ev : v' = s64 (rs_v s + total (rs_thr s) ts)) by (unfold v'; by rewrite Hcv, s64_add_r).
  assert (Hc1 : core (rs_v s) T1).
  { apply (core_upd _ _ _ _ _ _ Hc Hth). by apply (slept_upd _ _ _ _ _ _ Hc Hth eq_refl). }
  assert (Hni : t ∉ ts) by (intros (th2 & E & E2)%(j_in _ _ _ Hj); rewrite Hth in E; by injection E as <-).
  assert (N : forall t2, t2 ∈ ts <-> exists th2, T1 !! t2 = Some th2 /\ rt_life th2 = Noticed).
  { intros t2. rewrite (j_in _ _ _ Hj). symmetry. by apply (noticed_insert _ t (mk_rt rd (JobScanned i cv) Live mail)). }
  destruct (repair_all ts _ _ Hc1 (j_nodup _ _ _ Hj)) as (T2 & Hc' & HT' & HR); [intros t2; apply N|].
  rewrite (total_ext (rs_thr s)) in Hc', HR by (intros t2 H2; apply lookup_insert_ne; by intros <-). rewrite <- Ev in Hc', HR.
  assert (ET : T2 = T').
  { apply map_eq. intros k. unfold T'. rewrite lookup_fmap, HT'. change (<[t:=_]> (rs_thr s) !! k) with (T1 !! k). destruct (T1 !! k) as [th2|] eqn:E; [|by destruct (decide (k ∈ ts))].
    cbn. unfold repair_done. destruct (decide (k ∈ ts)) as [D|D].
    - apply N in D as (th3 & E2 & E3). assert (Some th3 = Some th2) as [= ->] by (rewrite <- E2; exact E). by rewrite decide_True.
    - rewrite decide_False; [done|]. intros E2. apply D, N. by exists th2. }
  rewrite <- ET. by split_and!.
Qed.

Lemma exec_add_inv s t th i cv s' :
  rinv s -> rs_thr s !! t = Some th -> rt_life th = Live -> rt_pc th = JobScanned i cv -> exec_add s t th i cv = Some s' -> rinv s'.
Proof.
  intros Hi Hth Hl Hpc [= <-]. destruct (i_job _ Hi) as [ts Hj]. assert (Hqu := i_queue _ Hi).
  destruct th as [rd pc life mail]. cbn in Hl, Hpc. subst life pc. unfold set_pc; cbn [rt_rd rt_pc rt_life rt_mail].
  destruct (q_mail _ _ Hqu _ _ Hth) as [Hm _]. cbn in Hm.
  destruct (add_repairs _ _ _ _ _ _ _ Hi Hj Hth) as (_ & Hc' & N & HT' & _). cbv zeta in *.
  set (v' := s64 (rs_v s + cv)) in *. set (th' := mk_rt rd (JobAdded i v') Live mail) in *.
  set (T' := repair_done <$> <[t := th']> (rs_thr s)) in *.
  assert (Hni : t ∉ ts) by (intros (th2 & E & E2)%(j_in _ _ _ Hj); rewrite Hth in E; by injection E as <-).
  assert (HT : T' !! t = Some th') by (by rewrite HT', decide_False, lookup_insert_eq).
  assert (Hno : forall k th2, T' !! k = Some th2 -> rt_life th2 <> Noticed).
  { intros k th2. rewrite HT'. case_decide as D.
    - destruct (<[t := th']> (rs_thr s) !! k); [|done]. by intros [= <-].
    - intros E2 E3. apply D, N. eauto. }
  constructor; cbn [rs_v rs_lk rs_thr]; [done| | |].
  - apply (queue_repaired _ _ ts (queue_put _ _ _ _ th' Hqu Hth ltac:(by split) ltac:(done))); [intros t2; apply N|done].
  - exists []. constructor.
    + apply base.NoDup_nil_2.
    + intros k. split; [by intros ?%not_elem_of_nil|]. intros (th2 & E & E2). by destruct (Hno _ _ E).
    + left. by exists t, th'.
    + intros k th2 E. destruct (rt_pc th2) eqn:E2; try done.
      * intros t2 th3 E3 El. by destruct (Hno _ _ E3).
      * exfalso. rewrite HT' in E. destruct (decide (k = t)) as [->|Hne].
        { rewrite decide_False, lookup_insert_eq in E by done. by injection E as <-. }
        rewrite lookup_insert_ne in E by done. apply (scanned_unique _ _ Hqu t k _ th2 Hth); [done|by rewrite E2|].
        case_decide; [|by exists th2]. destruct (rs_thr s !! k) as [th3|]; [|done]. injection E as <-. exists th3. by split.
  - intros Ho _. right. exists t, th'. split; [done|].
    change (hopeful v' th') with (is_mtx_waited v' && negb (is_mtx_locked v') || match mail with [] => false | _ => true end).
    pose proof (count_if_pos counted T' t th' HT eq_refl) as Hp. rewrite <- (c_n _ _ Hc') in Hp.
    rewrite is_mtx_waited_spec, is_mtx_locked_spec, negb_involutive, (proj2 (Z.eqb_eq _ 0) Ho), (proj2 (Z.eqb_neq _ _)); [done|].
    intros E. by rewrite E in Hp.
Qed.

Lemma only_busy lk T t th k th2 :
  queue_ok lk T -> T !! t = Some th -> busy th = true -> T !! k = Some th2 -> busy th2 = true -> k = t.
Proof. intros Hq H1 H2 H3 H4. by apply (b_one _ _ (q_busy _ _ Hq) k t th2 th). Qed.

(** The thread that has the job goes on, the others have no job. *)
Lemma busy_others lk T ts t th lk' th' :
  queue_ok lk T -> job_ok lk T ts -> T !! t = Some th -> busy th = true -> rt_life th = Live -> rt_life th' = Live ->
  match rt_pc th' with Waiting _ | JobAck _ _ => True | _ => False end ->
  (added th = true -> deadlist_of lk' = [] /\ ts = []) -> (added th = false -> deadlist_of lk' = deadlist_of lk) ->
  job_ok lk' (<[t := th']> T) ts.
Proof.
  intros Hq [H1 H2 H3 H4] Hth Hb Hl Hl' Hpc Ha Hna.
  assert (Hni : t ∉ ts) by (intros (th2 & E & E2)%H2; rewrite Hth in E; injection E as <-; by rewrite Hl in E2).
  constructor; [done| | |].
  - intros t2. rewrite H2. symmetry. apply (noticed_insert T t th th'); [done|by rewrite Hl|by rewrite Hl'].
  - right. destruct (added th) eqn:E.
    + destruct (Ha eq_refl) as [-> ->]. done.
    + rewrite (Hna eq_refl). destruct H3 as [(t2 & th2 & E2 & E3)|E2].
      * exfalso. assert (t2 = t) as -> by (apply (only_busy _ _ t th t2 th2 Hq); try done; unfold added, busy in *; by destruct (rt_pc th2)).
        congruence.
      * rewrite E2. f_equal. apply list_fmap_ext. intros i t2 Hi%list_elem_of_lookup_2. rewrite lookup_insert_ne; [done|]. by intros ->.
  - intros t2 th2 E. destruct (decide (t2 = t)) as [->|Hne].
    + rewrite lookup_insert_eq in E. injection E as <-. by destruct (rt_pc th').
    + rewrite lookup_insert_ne in E by done.
      assert (Hb2 : busy th2 = false).
      { apply not_true_iff_false. intros Hb2. apply Hne. by apply (only_busy _ _ t th t2 th2 Hq). }
      unfold busy in Hb2. by destruct (rt_pc th2).
Qed.

Lemma exec_clear_inv s t th i lv s' :
  rinv s -> rs_thr s !! t = Some th -> rt_life th = Live -> rt_pc th = JobAdded i lv -> exec mtx_key s t th = Some s' -> rinv s'.
Proof.
  intros Hi Hth Hl Hpc. unfold exec. rewrite Hpc. intros [= <-].
  set (num := if is_mtx_waited lv && negb (is_mtx_locked lv) then 1 else 0).
  assert (Hb : busy th = true) by (unfold busy; by rewrite Hpc).
  destruct (busy_prog _ _ _ Hi Hth Hb) as (j & Ej & Ep).
  destruct Hi as [Hc Hqu [ts Hj] Ha]. destruct (live_ok _ _ _ _ Hc Hth Hl) as (Hid & Ht & Hok). rewrite Hpc in Hok.
  destruct (q_mail _ _ Hqu _ _ Hth) as [Hm _]. rewrite Hpc in Hm.
  pose proof (j_pc _ _ _ Hj _ _ Hth) as Hts. rewrite Hpc in Hts.
  destruct th as [rd pc life mail]. cbn in Hl, Hpc, Hm, Hok. subst life pc. unfold set_pc; cbn [rt_rd rt_pc rt_life rt_mail].
  assert (Hn : num = 0 \/ num = 1) by (unfold num; destruct (_ && _); auto).
  assert (Hc' : core (rs_v s) (<[t := mk_rt rd (JobAck i num) Live mail]> (rs_thr s))).
  { apply (core_upd _ _ _ _ _ _ Hc Hth). by apply (slept_upd _ _ _ _ _ _ Hc Hth eq_refl). }
  constructor; cbn [rs_v rs_lk rs_thr]; [done| | |].
  - apply (queue_lk_ext (rs_lk s)); try done; [|by apply (queue_put _ _ _ _ _ Hqu Hth); [split|]].
    unfold in_prog, set_deadlist. cbn. by rewrite Ej.
  - exists ts. apply (busy_others _ _ _ _ _ _ _ Hqu Hj Hth); try done. intros _. split; [|done].
    unfold deadlist_of, set_deadlist. cbn. by rewrite Ej.
  - apply (awaited_put _ _ _ _ _ _ _ Ha Hth Hc'). intros _. right. right. split; [done|]. split; [done|].
    cbn. unfold num. destruct (_ && _); [done|]. done.
Qed.

Lemma exec_ack_inv s t th i num s' :
  rinv s -> rs_thr s !! t = Some th -> rt_life th = Live -> rt_pc th = JobAck i num -> exec_ack s t th i num = Some s' -> rinv s'.
Proof.
  intros Hi Hth Hl Hpc. assert (Hb : busy th = true) by (unfold busy; by rewrite Hpc).
  destruct (busy_prog _ _ _ Hi Hth Hb) as (j & Ej & Ep). unfold exec_ack, lock_report_cleanup_job_done. rewrite Ej. cbn [mbind option_bind].
  destruct Hi as [Hc Hqu [ts Hj] Ha]. destruct (live_ok _ _ _ _ Hc Hth Hl) as (Hid & Ht & Hok). rewrite Hpc in Hok. destruct Hok as [Hs Hn].
  destruct (q_mail _ _ Hqu _ _ Hth) as [Hm _]. rewrite Hpc in Hm.
  destruct th as [rd pc life mail]. cbn in Hl, Hpc, Hm. subst life pc. unfold set_pc; cbn [rt_rd rt_pc rt_life rt_mail].
  assert (Hc' : core (rs_v s) (<[t := mk_rt rd (Waiting i) Live mail]> (rs_thr s))).
  { apply (core_upd _ _ _ _ _ _ Hc Hth). by apply (slept_upd _ _ _ _ _ _ Hc Hth eq_refl). }
  apply (wake_inv _ _ _ ts num); [done|done| | |].
  - assert (Hoth : forall k th2, <[t := mk_rt rd (Waiting i) Live mail]> (rs_thr s) !! k = Some th2 -> busy th2 = false).
    { intros k th2 E. destruct (decide (k = t)) as [->|Hne].
      - rewrite lookup_insert_eq in E. injection E as <-. by destruct Hm as [[_ ->]|[_ ->]].
      - rewrite lookup_insert_ne in E by done. apply not_true_iff_false. intros Hb2. apply Hne. by apply (only_busy _ _ t _ k th2 Hqu Hth). }
    destruct Hqu as [H1 H2 H3 H4 H5 H8 H9]. constructor; try done.
    + intros k Hk. destruct (H3 k Hk) as (th2 & E & E2). destruct (decide (k = t)) as [->|Hne].
      * rewrite lookup_insert_eq. by eexists.
      * exists th2. by rewrite lookup_insert_ne.
    + intros k th2 E. destruct (decide (k = t)) as [->|Hne].
      * rewrite lookup_insert_eq in E. injection E as <-. split; [|done]. cbn. destruct Hm as [[? ->]|[? ->]]; auto.
      * rewrite lookup_insert_ne in E by done. by apply H4.
    + constructor; [intros k th2 E E2; by rewrite (Hoth _ _ E) in E2|intros ??????? E2; by erewrite Hoth in E2|done].
  - apply (busy_others _ _ _ _ _ _ _ Hqu Hj Hth); try done. intros _. unfold deadlist_of. by rewrite Ej.
  - intros ->. intros Ho Hw. assert (A := awaited_put _ _ _ _ _ _ _ Ha Hth Hc').
    destruct (A ltac:(intros _; right; by right) Ho Hw) as [H|H]; [by left|by right].
Qed.

(** *** Every step of a clean schedule *)

Lemma exec_inv s t th s' :
  rinv s -> rs_thr s !! t = Some th -> rt_life th = Live -> clean_exec s th = true -> exec mtx_key s t th = Some s' -> rinv s'.
Proof.
  intros Hi Hth Hl Hcl Hex. assert (Hex' := Hex). unfold exec in Hex.
  destruct (rt_pc th) as [pc|i|i|i v0|i cv|i lv|i n] eqn:Hpc.
  - destruct th as [rd pc' life mail]. cbn in Hl, Hpc. subst life pc'. cbn [rt_rd rt_life rt_mail] in Hex.
    assert (G : forall sh rd' pc', match pc with LockWait _ | UnlockWake _ => False | _ => True end ->
      mtx_step mtx_key (mk_shared (rs_v s) 0) rd pc = Next sh rd' pc' ->
      rinv (mk_rs (sh_lock sh) (rs_lk s) (<[t := mk_rt rd' (Run pc') Live mail]> (rs_thr s)))).
    { intros sh rd' pc' Hp Hst. apply (run_step_inv _ _ _ _ _ _ _ _ _ Hi Hth) with (2 := Hst). destruct pc; try done.
      cbn in Hcl. intros ->. rewrite Z.eqb_refl in Hcl. cbn in Hcl. rewrite land_wtid in Hcl. zbool. lia. }
    destruct pc; try exact (exec_wait_inv _ _ _ _ _ Hi Hth eq_refl eq_refl Hex); try exact (exec_wake_inv _ _ _ _ _ Hi Hth eq_refl eq_refl Hex);
      (destruct (mtx_step _ _ _ _) as [sh rd' pc'| |] eqn:Hst; [|done|done]; injection Hex as <-; by apply G).
  - exact (exec_read_inv _ _ _ _ _ Hi Hth Hl Hpc Hex).
  - injection Hex as <-. apply (job_put_inv s t th); try done. by rewrite Hpc.
  - assert (Hb : busy th = true) by (unfold busy; by rewrite Hpc).
    destruct (busy_prog _ _ _ Hi Hth Hb) as (j & Ej & _). rewrite Ej in Hex. injection Hex as <-.
    apply (job_put_inv s t th); try done; [by rewrite Hpc|]. intros ts Hj.
    rewrite <- (scan_total _ _ _ _ _ _ Hi Hj Hth Hpc). unfold deadlist_of. by rewrite Ej.
  - exact (exec_add_inv _ _ _ _ _ _ Hi Hth Hl Hpc Hex).
  - exact (exec_clear_inv _ _ _ _ _ _ Hi Hth Hl Hpc Hex').
  - exact (exec_ack_inv _ _ _ _ _ _ Hi Hth Hl Hpc Hex).
Qed.

(** Garbage collection: a lock dropped and created again is the same lock. *)
Lemma queue_unused lk T : queue_ok lk T -> lock_is_unused lk = true -> queue_ok (lock_init mtx_key) T.
Proof.
  intros Hq Hu. unfold lock_is_unused in Hu. destruct (waiters_queue lk) eqn:Eq, (job lk) eqn:Ej; rewrite ?andb_false_r in Hu; try done.
  apply (queue_lk_ext lk); try done; rewrite ?Eq; cbn; try (symmetry; exact (q_key _ _ Hq)); zbool; try done.
  - lia.
  - unfold in_prog. by rewrite Ej.
Qed.

(** The job is given to the first thread of the queue. *)
Lemma queue_job_started lk T t q th j :
  queue_ok lk T -> waiters_queue lk = t :: q -> T !! t = Some th -> job lk = Some j -> in_progress j = false ->
  queue_ok (set_job (Some (mk_job true (deadlist j))) lk) (<[t := add_mail RespCleanup th]> T)
  /\ rt_life th = Live /\ rt_mail th = [] /\ exists i, rt_pc th = Waiting i.
Proof.
  intros [H1 H2 H3 H4 [B1 B2 B3] H8 H9] Eq Hth Ej Ep.
  assert (Hb : forall k th2, T !! k = Some th2 -> busy th2 = false).
  { intros k th2 E. apply not_true_iff_false. intros Hb. specialize (B1 _ _ E Hb). unfold in_prog in B1. rewrite Ej in B1. cbn in B1. congruence. }
  assert (Hin : t ∈ waiters_queue lk) by (rewrite Eq; left).
  destruct (H3 t Hin) as (? & E & Hl). rewrite Hth in E. injection E as <-.
  assert (Hw : rt_mail th = [] /\ exists i, rt_pc th = Waiting i).
  { pose proof (Hb _ _ Hth) as Hbt. destruct (H4 _ _ Hth) as [Hm _]. unfold busy in Hbt.
    destruct (rt_pc th); try done; [by destruct Hm|]. destruct Hm as [[_ [Hm|Hm]]|[Hm _]]; [by eauto|by rewrite Hm in Hbt|done]. }
  destruct Hw as (Hm & i & Hpc). split; [|by eauto]. constructor; try done.
  - intros k Hk. destruct (decide (k = t)) as [->|Hne].
    + exists (add_mail RespCleanup th). by rewrite lookup_insert_eq.
    + rewrite lookup_insert_ne by done. by apply H3.
  - intros k th2 E. destruct (decide (k = t)) as [->|Hne].
    + rewrite lookup_insert_eq in E. injection E as <-. split; [|by cbn; rewrite Hl]. cbn. rewrite Hpc, Hm. left. auto.
    + rewrite lookup_insert_ne in E by done. by apply H4.
  - assert (L : forall k th2, <[t := add_mail RespCleanup th]> T !! k = Some th2 -> busy th2 = true -> k = t).
    { intros k th2 E E2. destruct (decide (k = t)) as [|Hne]; [done|]. rewrite lookup_insert_ne in E by done. by rewrite (Hb _ _ E) in E2. }
    constructor; [done| |].
    + intros t1 t2 th1 th2 E1 E2 F1 F2. by rewrite (L _ _ E1 F1), (L _ _ E2 F2).
    + intros _. exists t, (add_mail RespCleanup th). rewrite lookup_insert_eq. split; [done|].
      unfold busy, add_mail. cbn. by rewrite Hpc, Hm.
Qed.

Lemma collect_inv s s' : rinv s -> collect mtx_key s = Some s' -> rinv s'.
Proof.
  intros [Hc Hqu [ts Hj] Ha]. unfold collect.
  set (lk := if lock_is_unused (rs_lk s) then lock_init mtx_key else rs_lk s).
  assert (P : queue_ok lk (rs_thr s) /\ job lk = job (rs_lk s) /\ awaited (rs_v s) lk (rs_thr s)).
  { unfold lk. destruct (lock_is_unused (rs_lk s)) eqn:Hu; [|done]. split; [by apply queue_unused with (rs_lk s)|].
    unfold lock_is_unused in Hu. destruct (waiters_queue (rs_lk s)) eqn:Eq, (job (rs_lk s)) eqn:Ej; rewrite ?andb_false_r in Hu; try done.
    split; [done|]. intros Ho Hw. destruct (Ha Ho Hw) as [H|H]; [|by right]. rewrite Eq in H. zbool. cbn in H. lia. }
  clearbody lk. destruct P as (Hql & Ejl & Hal). assert (Hjl := job_lk_ext _ _ _ _ Ejl Hj).
  unfold lock_start_or_remove_cleanup_job. destruct (job lk) as [j|] eqn:Ej.
  2:{ intros [= <-]. constructor; try done. by exists ts. }
  destruct (in_progress j) eqn:Ep. { intros [= <-]. constructor; try done. by exists ts. }
  case_test.
  - intros [= <-]. destruct (deadlist j) eqn:Ed; [|done]. constructor; cbn [rs_v rs_lk rs_thr]; try done.
    + apply (queue_lk_ext lk); try done. unfold in_prog. rewrite Ej. by cbn.
    + exists ts. destruct Hjl as [J1 J2 J3 J4]. constructor; try done. destruct J3 as [J3|J3]; [by left|right].
      rewrite <- J3. unfold deadlist_of. rewrite Ej. cbn. done.
  - destruct (waiters_queue lk) as [|t q] eqn:Eq; cbn [option_list deliver mbind option_bind].
    { intros [= <-]. constructor; try done. by exists ts. }
    change (option_list (Some t)) with [t]. cbn [deliver].
    destruct (rs_thr s !! t) as [th|] eqn:Hth; cbn [mbind option_bind]. 2:{ done. } case_decide as Hl; cbn [mbind option_bind]; [|done].
    intros [= <-]. destruct (queue_job_started _ _ _ _ _ _ Hql Eq Hth Ej Ep) as (Hql' & _ & Hm & i & Hpc).
    assert (Hc' := core_upd _ _ _ _ _ _ Hc Hth (mail_upd _ _ _ _ RespCleanup Hc Hth Hl)).
    constructor; cbn [rs_v rs_lk rs_thr]; [done|done| |].
    + exists ts. assert (Hj' : job_ok lk (<[t := add_mail RespCleanup th]> (rs_thr s)) ts).
      { apply (job_put _ _ _ _ _ _ Hjl Hth); try done; [by rewrite Hl|by cbn; rewrite Hl|]. cbn. by rewrite Hpc. }
      destruct Hj' as [J1 J2 J3 J4]. constructor; try done. unfold deadlist_of in *. by rewrite Ej in J3.
    + intros Ho Hw. assert (A := awaited_put _ _ _ _ _ _ _ Hal Hth Hc').
      destruct A as [H|H]; [|done|exact Hw|by left|by right].
      intros _. left. unfold hopeful, add_mail. cbn. by rewrite Hl, Hpc, Hm.
Qed.

Lemma ract_inv s a s' : rinv s -> clean s a = true -> ract mtx_key s a = Some s' -> rinv s'.
Proof.
  intros Hi Hcl. destruct a as [t|t|t|t|t|t|t|]; cbn [ract]; unfold with_live;
    try (destruct (rs_thr s !! t) as [th|] eqn:Hth; [|done]; cbn [mbind option_bind]; case_decide as Hl; [|done]).
  - apply exec_inv; try done. cbn in Hcl. by rewrite Hth in Hcl.
  - by apply lock_called.
  - by apply trylock_called.
  - apply unlock_called; try done. cbn in Hcl. rewrite is_mtx_ownerdead_spec in Hcl. zbool.
    pose proof (decode_ok (rs_v s)) as (_ & _ & Hvr & _). cbn in Hvr. lia.
  - by apply consistent_called.
  - intros [= <-]. apply die_inv; try done. cbn in Hcl. by rewrite Hth in Hcl.
  - by apply disconnect_inv.
  - by apply collect_inv.
Qed.
End Preserved.
End Invariant.
