(* ===== verification/RobustProps.v ===== *)
(** * Process-shared mutexes when threads die: the properties

    What holds in every state that a clean schedule reaches ([RobustMutex.clean]): mutual exclusion and the meaning of the
    lock value, the repair of the deaths, the waiters that are not abandoned.  Then schedules that are not clean, one for
    each exclusion, where this fails. *)

From S2P Require Import Prelude MutexVal PsharedMutex Referee RefereeServer RobustMutex RobustReferee.

Definition robust_start (mtx_key : Z) (tids : list Z) (max : nat) : Prop :=
  mtx_key <> 0 /\ Forall tid_ok tids /\ (length tids <= 255)%nat /\ (0 < max)%nat.

Section Reachable.
Context (mtx_key : Z) (tids : list Z) (max : nat).
Context (Hstart : robust_start mtx_key tids max).

Abbreviation rinv := (@rinv mtx_key).
Abbreviation entries := (@entries mtx_key).
Abbreviation shape := (@shape mtx_key).
Abbreviation wait_ok := (@wait_ok mtx_key).
Abbreviation thr_ok := (@thr_ok mtx_key).
Abbreviation reached := (clean_reachable mtx_key tids max).

Lemma rstart_lookup t th :
  rs_thr (rstart mtx_key tids max) !! t = Some th ->
  t ∈ tids /\ th = mk_rt (mk_robust t 0 false 0 (replicate max 0)) (Run (Returned 0)) Live [].
Proof.
  cbn. intros H. apply elem_of_list_to_map_2, list_elem_of_fmap in H as (t' & [= -> ->] & Hin). done.
Qed.

Lemma rstart_inv : rinv (rstart mtx_key tids max).
Proof.
  destruct Hstart as (Hk & Ht & Hl & Hm). rewrite Forall_forall in Ht.
  assert (Hz : forall t th, rs_thr (rstart mtx_key tids max) !! t = Some th -> 0 < t < 2 ^ 23) by (intros t th [Hin _]%rstart_lookup; by apply Ht).
  constructor.
  - constructor; try done.
    + etrans; [apply size_list_to_map_le|]. by rewrite length_fmap.
    + intros t th [Hin ->]%rstart_lookup. split; [done|]. split; [by apply Ht|]. exists false. split; [cbn; by rewrite length_replicate|done].
    + intros t th H. specialize (Hz _ _ H). apply rstart_lookup in H as [_ ->]. cbn. split; [done|]. change (owner_of 0) with 0. lia.
    + intros t th H. specialize (Hz _ _ H). apply rstart_lookup in H as [_ ->]. cbn. split; [done|]. change (wtid_of 0) with 0. lia.
    + unfold count_if. rewrite map_empty_filter_2; [done|]. intros t th [_ ->]%rstart_lookup. done.
  - constructor; try done.
    + apply base.NoDup_nil_2.
    + by intros t ?%not_elem_of_nil.
    + intros t th [_ ->]%rstart_lookup. split; [|done]. split; [apply not_elem_of_nil|done].
    + constructor; [intros t th [_ ->]%rstart_lookup; done|intros t1 t2 th1 th2 [_ ->]%rstart_lookup; done|done].
  - exists []. constructor; [apply base.NoDup_nil_2| |by right|intros t th [_ ->]%rstart_lookup; done].
    intros t. split; [by intros ?%not_elem_of_nil|]. intros (th & [_ ->]%rstart_lookup & H). done.
  - intros _ (t & th & [_ ->]%rstart_lookup & H). done.
Qed.

Lemma reached_inv s : reached s -> rinv s.
Proof.
  intros Hr. pose proof rstart_inv as Hi. induction Hr as [|s1 s2 s3 Hst _ IH]; [done|]. apply IH. destruct Hst as [a s2 Hcl Ha].
  apply (ract_inv (proj1 Hstart) _ _ _ Hi Hcl Ha).
Qed.

Lemma clean_run_reached l s : clean_run mtx_key (rstart mtx_key tids max) l = Some s -> reached s.
Proof.
  unfold clean_run, clean_reachable. generalize (rstart mtx_key tids max). induction l as [|a l IH]; intros s0; cbn.
  - intros [= ->]. apply rtc_refl.
  - assert (N : forall l, fold_left (fun o a => s' ← o; if clean s' a then ract mtx_key s' a else None) l None = None) by (intros l0; induction l0; done).
    destruct (clean s0 a) eqn:Ec; [|by rewrite N]. destruct (ract mtx_key s0 a) as [s1|] eqn:E; [|by rewrite N].
    intros H. eapply rtc_l; [by eapply clean_act|]. by apply IH.
Qed.

(** The threads that can only wait: in the client, or asleep. *)
Definition idle (th : rthread) : bool :=
  match rt_pc th with
  | Run (Returned _) => true
  | Waiting _ => match rt_mail th with [] => true | _ => false end
  | _ => false
  end.

(** Another thread has a step, which is not undefined. *)
Lemma exec_defined s t th :
  rinv s -> rs_thr s !! t = Some th -> rt_life th = Live -> idle th = false -> exists s', exec mtx_key s t th = Some s'.
Proof.
  intros Hi Hth Hl Hidle. destruct (i_job _ Hi) as [ts Hj].
  assert (Hw : forall n lk th', 0 <= n -> waiters_queue lk = waiters_queue (rs_lk s) -> rt_life th' = Live ->
    (n = 0 \/ n = 1) -> exists r, wake n lk (<[t := th']> (rs_thr s)) = Some r).
  { intros n lk th' Hn Eq Hl' Hn2. rewrite wake_eq, Eq by done. destruct Hn2 as [-> | ->]; [by eexists|]. change (Z.to_nat 1) with 1%nat.
    destruct (waiters_queue (rs_lk s)) as [|k q] eqn:E; [by eexists|]. cbn [take deliver]. rewrite take_0.
    destruct (q_in _ _ (i_queue _ Hi) k) as (th2 & E2 & El2); [rewrite E; left|].
    destruct (decide (k = t)) as [->|Hne]; [rewrite lookup_insert_eq|rewrite lookup_insert_ne, E2 by done]; cbn [mbind option_bind];
      rewrite decide_True by done; by eexists. }
  destruct (live_ok _ _ _ _ (i_core _ Hi) Hth Hl) as (_ & _ & Hok). unfold exec.
  destruct (rt_pc th) as [pc|i|i|i v0|i cv|i lv|i n] eqn:Hpc; try (by eexists).
  - destruct th as [rd pc' life mail]. cbn in Hl, Hpc, Hidle, Hok. subst life pc'.
    pose proof (run_step_defined _ _ _ _ _ (i_core _ Hi) pc 0 Hth) as Hd.
    destruct pc; try done; try (destruct Hd as (sh & rd' & pc' & E); cbn [rt_rd]; rewrite E; by eexists).
    + unfold exec_wait, lock_add_waiter. cbn zeta. by destruct (_ && _); eexists.
    + unfold exec_wake. destruct Hok as [_ ->]. destruct (Hw 1 (rs_lk s) (set_pc (Run UnlockFinish) (mk_rt rd (Run (UnlockWake 1)) Live mail))) as [[lk T] ->]; try done; [by right|]. by eexists.
  - unfold exec_read. destruct (q_mail _ _ (i_queue _ Hi) _ _ Hth) as [Hm _]. rewrite Hpc in Hm. unfold idle in Hidle. rewrite Hpc in Hidle.
    destruct Hm as [[_ [Hm|Hm]]|[_ [Hm|Hm]]]; rewrite Hm in *; [done|by eexists..].
  - assert (Hb : busy th = true) by (unfold busy; by rewrite Hpc). destruct (busy_prog _ _ _ Hi Hth Hb) as (j & -> & _). by eexists.
  - assert (Hb : busy th = true) by (unfold busy; by rewrite Hpc). destruct (busy_prog _ _ _ Hi Hth Hb) as (j & Ej & _).
    unfold exec_ack, lock_report_cleanup_job_done. rewrite Ej. cbn [mbind option_bind]. destruct Hok as [_ Hn].
    match goal with |- context [wake n ?lk (<[t := ?th']> _)] => destruct (Hw n lk th') as [[lk2 T] ->] end; try done; [lia|]. by eexists.

Qed.

(** *** Mutual exclusion *)

(** C2. Whatever threads die, in the interleavings without the known defects: two threads never have the mutex, also
    counting the dead ones that are not repaired; the lock value names the thread that has it and counts the threads
    that wait; a lock gives EOWNERDEAD exactly while the mutex has not been made consistent after a death; and a
    thread that is neither in the client nor asleep always has a step, so that nothing is written out of bounds and
    no freed client is accessed. *)
Theorem robust_mutual_exclusion s :
  reached s ->
  (forall t1 t2 th1 th2, rs_thr s !! t1 = Some th1 -> rs_thr s !! t2 = Some th2 -> holds th1 = true -> holds th2 = true -> t1 = t2)
  /\ (forall t th, rs_thr s !! t = Some th -> holds th = is_thread_mtx_owner (rs_v s) t)
  /\ (is_mtx_locked (rs_v s) = true -> exists t th, rs_thr s !! t = Some th /\ holds th = true)
  /\ mtx_num_waiter (rs_v s) = count_if counted (rs_thr s)
  /\ (forall t th oldval, rs_thr s !! t = Some th -> rt_life th = Live -> rt_pc th = Run (MtxFinish true oldval) ->
        is_mtx_ownerdead oldval = is_mtx_ownerdead (rs_v s))
  /\ (forall t th, rs_thr s !! t = Some th -> rt_life th = Live -> idle th = false -> is_Some (ract mtx_key s (RExec t))).
Proof.
  intros Hr. assert (Hi := reached_inv _ Hr). assert (Hc := i_core _ Hi).
  split; [|split; [|split; [|split; [|split]]]].
  - intros t1 t2 th1 th2 H1 H2 O1 O2. apply (c_owner _ _ Hc _ _ H1) in O1. apply (c_owner _ _ Hc _ _ H2) in O2. congruence.
  - intros t th Hth. destruct (map_Forall_lookup_1 _ _ _ _ (c_ok _ _ Hc) Hth) as (_ & [? ?] & _).
    rewrite is_thread_mtx_owner_spec by lia. apply eq_true_iff_eq. rewrite Z.eqb_eq. by apply (c_owner _ _ Hc).
  - rewrite is_mtx_locked_spec. intros Hl%negb_true_iff%Z.eqb_neq. destruct (c_owned _ _ Hc Hl) as [th Hth].
    exists (owner_of (rs_v s)), th. split; [done|]. by apply (c_owner _ _ Hc _ _ Hth).
  - rewrite mtx_num_waiter_spec. apply (c_n _ _ Hc).
  - intros t th o Hth Hl Hpc. destruct (live_ok _ _ _ _ Hc Hth Hl) as (_ & _ & Hok). rewrite Hpc in Hok. destruct Hok as [_ Er].
    by rewrite !is_mtx_ownerdead_spec, Er.
  - intros t th Hth Hl Hidle. cbn [ract]. unfold with_live. rewrite Hth. cbn [mbind option_bind]. rewrite decide_True by done.
    destruct (exec_defined _ _ _ Hi Hth Hl Hidle) as [s' ->]. by eexists.
Qed.

(** *** Repair *)

(** The owner of the mutex died and the server has its report. *)
Definition owner_reported (s : rstate) : bool :=
  match rs_thr s !! owner_of (rs_v s) with Some th => bool_decide (rt_life th = Noticed) | None => false end.


(** *** The waiters are not abandoned *)

(** The steps that nobody decides: the code of the library and the server. *)
Definition internal (a : raction) : bool := match a with RExec _ | RDisconnect _ | RCollect => true | _ => false end.

Definition progress (s : rstate) : Prop :=
  exists a s', internal a = true /\ clean s a = true /\ ract mtx_key s a = Some s' /\ s' <> s.

Lemma deliver_pc r l T T' t : deliver r l T = Some T' -> rt_pc <$> T' !! t = rt_pc <$> T !! t.
Proof.
  revert T. induction l as [|k l IH]; intros T; cbn; [by intros [= ->]|].
  destruct (T !! k) as [th|] eqn:E; cbn; [|done]. case_decide; [|done]. intros Hd%IH. rewrite Hd.
  destruct (decide (k = t)) as [->|Hne]; [by rewrite lookup_insert_eq, E|by rewrite lookup_insert_ne].
Qed.

Lemma wake_pc n lk T lk' T' t : wake n lk T = Some (lk', T') -> rt_pc <$> T' !! t = rt_pc <$> T !! t.
Proof.
  unfold wake. destruct (lock_wake_waiters _ _ _ _) as [lk1 woken]. destruct (deliver _ _ _) as [T1|] eqn:E; cbn; [|done].
  intros [= <- <-]. by apply (deliver_pc _ _ _ _ _ E).
Qed.

(** The points from which a step of the thread always leads to another one. *)
Definition moving (pc : wait_pc) : bool :=
  match pc with
  | Run (LockCas _ _ true) | Run (LockWait _) | Run (LockReload _) | Run (RegMark _) | Run (RegRelease _) | Run (UnlockWake _) => true
  | Run _ => false
  | _ => true
  end.

Lemma exec_moves s t th s' : exec mtx_key s t th = Some s' -> moving (rt_pc th) = true -> rt_pc <$> rs_thr s' !! t <> Some (rt_pc th).
Proof.
  unfold exec. destruct (rt_pc th) as [pc|i|i|i v0|i cv|i lv|i n]; intros Hex Hm.
  - destruct pc; try done; cbn [mtx_step] in Hex.
    + destruct notified; [|done]. unfold lock_cas_step in Hex. rewrite cas_split in Hex. case_decide.
      * injection Hex as <-. cbn. by rewrite lookup_insert_eq.
      * destruct (is_mtx_unrecoverable _); cbn in Hex; injection Hex as <-; cbn; by rewrite lookup_insert_eq.
    + unfold exec_wait in Hex. destruct (lock_add_waiter _ _ _) as [lk w]. injection Hex as <-. cbn. rewrite lookup_insert_eq. by destruct w.
    + injection Hex as <-. cbn. by rewrite lookup_insert_eq.
    + injection Hex as <-. cbn. by rewrite lookup_insert_eq.
    + injection Hex as <-. cbn. by rewrite lookup_insert_eq.
    + unfold exec_wake in Hex. destruct (wake _ _ _) as [[lk T]|] eqn:E; [|done]. injection Hex as <-. cbn.
      rewrite (wake_pc _ _ _ _ _ _ E), lookup_insert_eq. done.
  - unfold exec_read in Hex. destruct (rt_mail th) as [|[] mail]; try done; injection Hex as <-; cbn; by rewrite lookup_insert_eq.
  - injection Hex as <-. cbn. by rewrite lookup_insert_eq.
  - destruct (job (rs_lk s)); [|done]. injection Hex as <-. cbn. by rewrite lookup_insert_eq.
  - injection Hex as <-. cbn. rewrite lookup_fmap, lookup_insert_eq. cbn. unfold repair_done. by case_decide.
  - injection Hex as <-. cbn. by rewrite lookup_insert_eq.
  - unfold exec_ack in Hex. destruct (lock_report_cleanup_job_done _) as [lk1|]; [|done]. cbn in Hex.
    destruct (wake _ _ _) as [[lk T]|] eqn:E; [|done]. injection Hex as <-. cbn. rewrite (wake_pc _ _ _ _ _ _ E), lookup_insert_eq. done.
Qed.

Lemma exec_progress s t th :
  rinv s -> rs_thr s !! t = Some th -> rt_life th = Live -> idle th = false -> moving (rt_pc th) = true -> progress s.
Proof.
  intros Hi Hth Hl Hidle Hm. destruct (exec_defined _ _ _ Hi Hth Hl Hidle) as [s' Hs].
  exists (RExec t), s'. split; [done|]. split; [|split].
  - cbn. rewrite Hth. unfold clean_exec. destruct (rt_pc th) as [[]| | | | | |]; done.
  - cbn [ract]. unfold with_live. rewrite Hth. cbn [mbind option_bind]. by rewrite decide_True.
  - intros ->. by apply (exec_moves _ _ _ _ Hs Hm); rewrite Hth.
Qed.

(** A thread that has a job goes on. *)
Lemma busy_progress s t th : rinv s -> rs_thr s !! t = Some th -> busy th = true -> progress s.
Proof.
  intros Hi Hth Hb. pose proof (q_mail _ _ (i_queue _ Hi) _ _ Hth) as [Hm Hl].
  destruct (decide (rt_life th = Live)) as [E|E]; [|by rewrite Hb in Hl; destruct (Hl E)].
  apply (exec_progress s t th Hi Hth E); unfold idle, busy in *; destruct (rt_pc th) as [[]| | | | | |], (rt_mail th); try done; by destruct Hm.
Qed.

(** A death to report or to repair, with a thread asleep that can be given the job. *)
Lemma dead_progress s t th :
  rinv s -> rs_thr s !! t = Some th -> rt_life th = Died \/ rt_life th = Noticed -> entries th <> [] ->
  waiters_queue (rs_lk s) <> [] -> progress s.
Proof.
  intros Hi Hth Hl He Hq. destruct Hl as [Hl|Hl].
  - destruct (clean s (RDisconnect t)) eqn:Hcl.
    + exists (RDisconnect t). eexists. split; [done|]. split; [done|].
      split; [exact (disconnect_eq (proj1 Hstart) _ _ _ Hi Hcl Hth Hl)|].
      intros E. apply (f_equal (fun s => rt_life <$> rs_thr s !! t)) in E. cbn in E. rewrite lookup_insert_eq, Hth in E. cbn in E. congruence.
    + cbn in Hcl. apply not_true_iff_false in Hcl. rewrite forallb_forall in Hcl. destruct (decide (Exists (fun p => in_job (snd p) = true) (map_to_list (rs_thr s)))) as [H|H].
      * apply Exists_exists in H as ([k th2] & Hin & Hj). apply elem_of_map_to_list in Hin.
        apply (busy_progress s k th2 Hi Hin). by apply busy_in_job.
      * exfalso. apply Hcl. intros p Hp%list_elem_of_In. apply negb_true_iff, not_true_iff_false. intros E. apply H, Exists_exists. eauto.
  - destruct (i_job _ Hi) as [ts Hj]. assert (Hin : t ∈ ts) by (apply (j_in _ _ _ Hj); eauto).
    destruct (j_dead _ _ _ Hj) as [(k & th2 & E & Ea)|Ed].
    { apply (busy_progress s k th2 Hi E). unfold added, busy in *. by destruct (rt_pc th2). }
    assert (Hne : deadlist_of (rs_lk s) <> []).
    { rewrite Ed. intros E. apply He. apply list_elem_of_split in Hin as (l1 & l2 & ->).
      rewrite fmap_app, fmap_cons, join_app in E. apply app_nil in E as [_ E].
      change (mjoin (?a :: ?l)) with (a ++ mjoin l) in E. apply app_nil in E as [E _]. by rewrite Hth in E. }
    unfold deadlist_of in Hne. destruct (job (rs_lk s)) as [j|] eqn:Ej; [|done]. cbn in Hne.
    destruct (in_progress j) eqn:Ep.
    { destruct (b_some _ _ (q_busy _ _ (i_queue _ Hi))) as (k & th2 & E & Hb); [unfold in_prog; by rewrite Ej|].
      by apply (busy_progress s k th2). }
    destruct (waiters_queue (rs_lk s)) as [|k q] eqn:Eq; [done|].
    destruct (q_in _ _ (i_queue _ Hi) k) as (th2 & E2 & El2); [rewrite Eq; left|].
    exists RCollect. eexists. split; [done|]. split; [done|]. split.
    + cbn [ract]. unfold collect, lock_is_unused. rewrite Eq, Ej, andb_false_r. cbn zeta iota. unfold lock_start_or_remove_cleanup_job.
      assert (El : (length (deadlist j) =? 0)%nat = false) by (by destruct (deadlist j)). rewrite Ej, Ep, El, Eq.
      change (option_list (Some k)) with [k]. cbn [deliver]. rewrite E2. cbn [mbind option_bind]. rewrite decide_True by done. cbn [mbind option_bind]. reflexivity.
    + intros E. apply (f_equal (fun s => in_progress <$> job (rs_lk s))) in E. cbn in E. rewrite Ej in E. cbn in E. congruence.
Qed.

Lemma holds_entries r t th :
  thr_ok r t th -> rt_life th = Died \/ rt_life th = Noticed -> holds th = true -> entries th <> [].
Proof.
  intros (_ & _ & Hok) Hl Hh.
  assert (Hw : wait_ok r t (rt_rd th) (rt_pc th)) by (destruct Hl as [Hl|Hl]; rewrite Hl in Hok; apply Hok).
  unfold holds in Hh. apply andb_true_iff in Hh as [_ Hh].
  assert (exists h a w, shape h a w (rt_rd th) /\ (h = true \/ a = true)) as (h & a & w & Hs & Ho).
  { destruct (rt_pc th) as [pc| | | | | |]; try done. cbn in Hw. destruct pc; try done; cbn in Hh.
    - destruct Hw as [h Hs]. exists h, false, false. split; [done|left]. destruct h; [done|]. destruct Hs as (_ & E & _). by rewrite E in Hh.
    - destruct locked; [|done]. destruct Hw as [(w & Hs) _]. eauto 6.
    - destruct Hw. eauto 6.
    - destruct Hw. eauto 6.
    - eauto 6.
    - destruct Hw. eauto 6. }
  rewrite (entries_shape th h a w (proj1 Hstart) Hs). destruct Ho as [-> | ->]; [done|by destruct h].
Qed.

End Reachable.

(** ** Schedules *)

Definition exec_n (n : nat) (t : Z) : list raction := replicate n (RExec t).

(** Thread 4 dies with the mutex while thread 8 waits for it; thread 8 is given the job. *)
Definition owner_dies : list raction :=
  [RLock 4] ++ exec_n 2 4 ++ [RLock 8] ++ exec_n 6 8 ++ [RDie 4; RDisconnect 4; RCollect] ++ exec_n 3 8.

Lemma three_start : robust_start 1 [4; 8; 12] 2.
Proof. split; [done|]. split; [repeat constructor; done|]. split; cbn; lia. Qed.

Abbreviation from_start := (rstart 1 [4; 8; 12] 2).

Lemma robust_mutual_exclusion_witness :
  exists s th, clean_run 1 from_start (owner_dies ++ exec_n 6 8) = Some s
    /\ rs_thr s !! 8 = Some th /\ rt_pc th = Run (MtxFinish true 1103806595072)
    /\ is_mtx_ownerdead 1103806595072 = is_mtx_ownerdead (rs_v s) /\ holds th = is_thread_mtx_owner (rs_v s) 8.
Proof.
  destruct (clean_run 1 from_start (owner_dies ++ exec_n 6 8)) as [s|] eqn:E; [|vm_compute in E; discriminate].
  assert (R := clean_run_reached 1 [4; 8; 12] 2 _ _ E).
  pose proof (robust_mutual_exclusion 1 [4; 8; 12] 2 three_start s R) as (_ & H2 & _ & _ & H5 & _).
  destruct (rs_thr s !! 8) as [th|] eqn:Hth; [|vm_compute in E; injection E as <-; vm_compute in Hth; discriminate].
  assert (Hpc : rt_pc th = Run (MtxFinish true 1103806595072) /\ rt_life th = Live)
    by (vm_compute in E; injection E as <-; vm_compute in Hth; injection Hth as <-; split; reflexivity).
  exists s, th. split; [reflexivity|]. split; [exact Hth|]. split; [apply Hpc|].
  split; [exact (H5 8 th _ Hth (proj2 Hpc) (proj1 Hpc))|exact (H2 8 th Hth)].
Defined.



(** *** What the exclusions are for *)

Definition asleep_at (s : rstate) (t : Z) : bool :=
  match rs_thr s !! t with Some th => match rt_pc th, rt_mail th with Waiting _, [] => true | _, _ => false end | None => false end.

(** A thread that wants to register and finds the mutex unrecoverable tries again with the value it has read: it takes the
    mutex, which should be refused for ever, and its id carries into the count of the waiters. *)
Example unrecoverable_mutex_taken :
  let l := owner_dies ++ exec_n 7 8 ++ [RLock 12] ++ exec_n 1 12 ++ [RUnlock 8] ++ exec_n 3 8 in
  exists s s', rrun 1 from_start l = Some s /\ is_mtx_unrecoverable (rs_v s) = true
    /\ rrun 1 s (exec_n 3 12) = Some s' /\ (rt_pc <$> rs_thr s' !! 12) = Some (Run (Returned EOWNERDEAD))
    /\ decode (rs_v s') = mk_fields 11 1 1 0.
Proof. cbv zeta. eexists _, _. split; [vm_compute; reflexivity|]. split; [reflexivity|]. split; [vm_compute; reflexivity|]. split; reflexivity. Qed.

(** A death reported while a thread is in the memory of the job: the list is then reset with it, the owner of the mutex is
    dead, no job is left, and the thread that waits sleeps for ever. *)
Example report_during_job_lost :
  let l := [RLock 4] ++ exec_n 2 4 ++ [RLock 8] ++ exec_n 6 8 ++ [RLock 12] ++ exec_n 5 12 ++ [RDie 12; RDisconnect 12; RCollect]
    ++ exec_n 3 8 ++ [RDie 4; RDisconnect 4] ++ exec_n 3 8 ++ [RCollect] in
  exists s, rrun 1 from_start l = Some s /\ is_thread_mtx_owner (rs_v s) 4 = true /\ job (rs_lk s) = None
    /\ asleep_at s 8 = true /\ waiters_queue (rs_lk s) = [8].
Proof. cbv zeta. eexists. split; [vm_compute; reflexivity|]. repeat split; reflexivity. Qed.

(** A thread that dies with the job leaves it in progress: no other thread is given it, and the mutex keeps its dead owner. *)
Example job_lost_with_its_thread :
  let l := [RLock 4] ++ exec_n 2 4 ++ [RLock 8] ++ exec_n 6 8 ++ [RLock 12] ++ exec_n 6 12 ++ [RDie 4; RDisconnect 4; RCollect]
    ++ exec_n 1 8 ++ [RDie 8; RDisconnect 8] in
  exists s, rrun 1 from_start l = Some s /\ is_thread_mtx_owner (rs_v s) 4 = true /\ asleep_at s 12 = true
    /\ ract 1 s RCollect = Some s.
Proof. cbv zeta. eexists. split; [vm_compute; reflexivity|]. repeat split; vm_compute; reflexivity. Qed.

(** A thread that dies in the queue stays there: the wake-up of the next unlock goes to a client that was freed. *)
Example dead_sleeper_is_woken :
  let l := [RLock 4] ++ exec_n 2 4 ++ [RLock 8] ++ exec_n 6 8 ++ [RDie 8; RDisconnect 8; RUnlock 4] ++ exec_n 2 4 in
  exists s, rrun 1 from_start l = Some s /\ (rt_life <$> rs_thr s !! 8) = Some Noticed /\ waiters_queue (rs_lk s) = [8]
    /\ ract 1 s (RExec 4) = None.
Proof. cbv zeta. eexists. split; [vm_compute; reflexivity|]. repeat split; reflexivity. Qed.

(** An owner that dies while it unlocks is reported twice, and its id subtracted twice. *)
Example death_in_unlock_corrupts :
  let l := [RLock 4] ++ exec_n 2 4 ++ [RLock 8] ++ exec_n 6 8 ++ [RUnlock 4] ++ exec_n 1 4 ++ [RDie 4; RDisconnect 4; RCollect] ++ exec_n 4 8 in
  exists s, rrun 1 from_start l = Some s /\ is_mtx_locked (rs_v s) = true /\ owner_of (rs_v s) = 2 ^ 32 - 4.
Proof. cbv zeta. eexists. split; [vm_compute; reflexivity|]. repeat split; reflexivity. Qed.
