(* ===== verification/MutexRefines.v ===== *)
(** * The mutexes of [PsharedMutex] with the real referee

    [PsharedMutex] sees the referee through its contract: a number of wake-ups that no waiter consumed yet.  Here the
    threads are with the lock of the referee ([RobustMutex]); as long as none dies, what they do is a behaviour of
    [PsharedMutex], so that its theorems hold of the composition. *)

From S2P Require Import Prelude MutexVal PsharedMutex Referee RefereeServer RobustMutex RobustReferee.

(** A thread that sleeps, or that has not read its wake-up, is before its wait. *)
Definition abstract_pc (pc : wait_pc) : mtx_pc :=
  match pc with
  | Run pc => pc
  | Waiting i | JobMap i | JobLoaded i _ | JobScanned i _ | JobAdded i _ | JobAck i _ => LockWait i
  end.

Definition abstract_thread (th : rthread) : thread := mk_thread (rt_rd th) (abstract_pc (rt_pc th)).

Definition mailed (th : rthread) : bool := match rt_mail th with [] => false | _ => true end.

(** The wake-ups stored by the referee and those written and not read. *)
Definition wakes (lk : lock) (T : gmap Z rthread) : Z := Z.of_nat (length (waiters_queue lk)) - nwaiter lk + count_if mailed T.

Definition abstract (s : rstate) : global :=
  mk_global (mk_shared (rs_v s) (wakes (rs_lk s) (rs_thr s))) (abstract_thread <$> rs_thr s).

Definition deathless (a : raction) : bool := match a with RDie _ | RDisconnect _ => false | _ => true end.

Section Refines.
Context {mtx_key : Z}.
Abbreviation queue_ok := (@queue_ok mtx_key).

Definition quiet_pc (pc : wait_pc) : Prop :=
  match pc with Run (UnlockWake n) => 0 <= n | Run _ | Waiting _ => True | _ => False end.

(** Without deaths: no job. *)
Record quiet (lk : lock) (T : gmap Z rthread) : Prop := {
  qt_job : job lk = None;
  qt_thr : forall t th, T !! t = Some th -> rt_life th = Live /\ quiet_pc (rt_pc th);
  qt_queue : queue_ok lk T
}.

Lemma quiet_mail lk T t th :
  quiet lk T -> T !! t = Some th ->
  match rt_pc th with
  | Run _ => t ∉ waiters_queue lk /\ rt_mail th = []
  | Waiting _ => t ∈ waiters_queue lk /\ rt_mail th = [] \/ t ∉ waiters_queue lk /\ rt_mail th = [woken_response]
  | _ => False
  end.
Proof.
  intros [Hj Ht Hq] Hth. destruct (Ht _ _ Hth) as [_ Hp]. destruct (q_mail _ _ Hq _ _ Hth) as [Hm _].
  assert (Hb : busy th = false).
  { apply not_true_iff_false. intros Hb. pose proof (b_prog _ _ (q_busy _ _ Hq) _ _ Hth Hb) as E. unfold in_prog in E. by rewrite Hj in E. }
  unfold busy in Hb. destruct (rt_pc th); try done. destruct Hm as [[? [E|E]]|[? [E|E]]]; rewrite E in Hb; auto; done.
Qed.

Lemma abstract_put v lk T t th th' :
  T !! t = Some th -> mailed th' = mailed th ->
  abstract (mk_rs v lk (<[t := th']> T)) = mk_global (mk_shared v (wakes lk T)) (<[t := abstract_thread th']> (abstract_thread <$> T)).
Proof.
  intros Hth Hm. unfold abstract, wakes. cbn [rs_v rs_lk rs_thr]. rewrite fmap_insert, (count_if_insert mailed T t th _ Hth), Hm. do 2 f_equal. lia.
Qed.

Lemma woken_lock_add lk n : woken_lock (woken_lock lk 1) (Z.of_nat n) = woken_lock lk (Z.of_nat (S n)).
Proof.
  unfold woken_lock. cbn [lk_key max_wakeup_val nwaiter waiters_queue job]. rewrite drop_drop. f_equal; [lia|lia|f_equal; lia].
Qed.

(** Any number of wake-ups: the first threads of the queue have a response each. *)
Lemma deliver_woken n lk T :
  quiet lk T -> exists T', deliver woken_response (take n (waiters_queue lk)) T = Some T' /\ quiet (woken_lock lk (Z.of_nat n)) T'
    /\ abstract_thread <$> T' = abstract_thread <$> T
    /\ count_if mailed T' = count_if mailed T + Z.of_nat (length (take n (waiters_queue lk))).
Proof.
  revert lk T. induction n as [|n IH]; intros lk T Hqt.
  - exists T. split; [done|]. split; [|split; [done|rewrite take_0; cbn [length]; lia]]. destruct Hqt. constructor; [done|done|]. apply queue_stored; [done|by left].
  - destruct (waiters_queue lk) as [|t q] eqn:Eq.
    + exists T. split; [done|]. split; [|split; [done|cbn [take length]; lia]]. destruct Hqt. constructor; [done|done|]. apply queue_stored; [done|right; split; [done|lia]].
    + destruct (q_in _ _ (qt_queue _ _ Hqt) t) as (th & Hth & Hl); [rewrite Eq; left|].
      assert (Hm := quiet_mail _ _ _ _ Hqt Hth). rewrite Eq in Hm.
      assert (Hm0 : rt_mail th = []). { destruct (rt_pc th); try done; [by destruct Hm|]. destruct Hm as [[_ ?]|[[] _]]; [done|left]. }
      assert (Hqt1 : quiet (woken_lock lk 1) (<[t := add_mail woken_response th]> T)).
      { destruct Hqt as [Hj Ht Hq]. constructor; [exact Hj| |exact (queue_woken _ _ _ _ _ Hq Eq Hth)].
        intros t2 th2 E. destruct (decide (t2 = t)) as [->|Hne]; [rewrite lookup_insert_eq in E; injection E as <-; exact (Ht t th Hth)|].
        rewrite lookup_insert_ne in E by done. by apply (Ht t2). }
      destruct (IH _ _ Hqt1) as (T' & E1 & E2 & E3 & E4). rewrite woken_lock_add in E2.
      assert (Eq1 : waiters_queue (woken_lock lk 1) = q) by (unfold woken_lock; by rewrite Eq). rewrite Eq1 in E1, E4.
      exists T'. cbn [take deliver]. rewrite Hth. cbn [mbind option_bind]. rewrite decide_True by done. split; [done|]. split; [done|]. split.
      * rewrite E3, fmap_insert. apply insert_id. by rewrite lookup_fmap, Hth.
      * rewrite E4, (count_if_insert mailed T t th _ Hth). unfold mailed at 2 3, add_mail. cbn [rt_mail]. rewrite Hm0. cbn [app Z.b2z take length]. lia.
Qed.

(** The code of the mutex, but for its exchanges, does not see the wake-ups. *)
Lemma mtx_step_frame v w rd pc :
  match pc with LockWait _ | UnlockWake _ => False | _ => True end ->
  mtx_step mtx_key (mk_shared v w) rd pc
  = match mtx_step mtx_key (mk_shared v 0) rd pc with
    | Next sh rd' pc' => Next (mk_shared (sh_lock sh) w) rd' pc'
    | o => o
    end.
Proof.
  intros Hp. destruct pc; try done; cbn [mtx_step].
  - unfold lock_cas_step. cbn [sh_lock sh_wakes]. destruct (atomic_cmp_exchange _ _ _) as [[[] l] o]; [done|].
    destruct (is_mtx_unrecoverable o); [done|]. by destruct notified.
  - unfold register_waiter_in_mtx. cbn [sh_lock sh_wakes]. destruct (is_mtx_waiterlist_full _); [done|].
    destruct (atomic_cmp_exchange _ _ _) as [[[] l] o]; [done|]. by destruct (is_mtx_unrecoverable o).
  - unfold trylock_step. cbn [sh_lock sh_wakes]. destruct (i <? 2); [|done]. destruct (atomic_cmp_exchange _ _ _) as [[[] l] o]; [done|].
    by destruct (is_mtx_unrecoverable o).
  - unfold finish_return. by destruct (finish_mtx_lock _ _ _) as [[]|].
Qed.

Lemma quiet_step v w rd pc sh rd' pc' : mtx_step mtx_key (mk_shared v w) rd pc = Next sh rd' pc' -> quiet_pc (Run pc').
Proof.
  destruct pc; cbn [mtx_step]; try done.
  - unfold lock_cas_step. destruct (atomic_cmp_exchange _ _ _) as [[[] l] o]; [by intros [= <- <- <-]|].
    destruct (is_mtx_unrecoverable o); [by intros [= <- <- <-]|]. by destruct notified; intros [= <- <- <-].
  - unfold lock_wait_step. by case_match; intros [= <- <- <-].
  - by intros [= <- <- <-].
  - unfold register_waiter_in_mtx. destruct (is_mtx_waiterlist_full _); [by intros [= <- <- <-]|].
    destruct (atomic_cmp_exchange _ _ _) as [[[] l] o]; [by intros [= <- <- <-]|]. by destruct (is_mtx_unrecoverable o); intros [= <- <- <-].
  - by intros [= <- <- <-].
  - by intros [= <- <- <-].
  - by intros [= <- <- <-].
  - unfold trylock_step. destruct (i <? 2); [|by intros [= <- <- <-]]. destruct (atomic_cmp_exchange _ _ _) as [[[] l] o]; [by intros [= <- <- <-]|].
    by destruct (is_mtx_unrecoverable o); intros [= <- <- <-].
  - unfold finish_return. destruct (finish_mtx_lock _ _ _) as [[]|]; [by intros [= <- <- <-]|done].
  - by intros [= <- <- <-].
  - unfold unlock_sub_step. destruct (atomic_fetch_sub _ _) as [o l]. intros [= <- <- <-]. destruct (is_mtx_waited o); [|done]. cbn.
    destruct unrecoverable; [|lia]. rewrite mtx_num_waiter_spec. pose proof (decode_ok o) as (_ & H & _). cbn in H. lia.
  - by intros [= <- <- <-].
  - by intros [= <- <- <-].
  - unfold consistent_load_step. intros [= <- <- <-]. by destruct (is_mtx_ownerdead _).
  - by intros [= <- <- <-].
Qed.

(** ** The simulation *)

(** A step of the composition is none or one of [PsharedMutex]. *)
Definition simulated (s s' : rstate) : Prop :=
  quiet (rs_lk s') (rs_thr s')
  /\ (abstract s' = abstract s \/ exists a, act mtx_key (abstract s) a = Some (abstract s')).

Lemma quiet_put lk T t th th' :
  quiet lk T -> T !! t = Some th -> rt_life th' = Live -> quiet_pc (rt_pc th') -> mail_ok (t ∈ waiters_queue lk) th' -> busy th' = busy th ->
  quiet lk (<[t := th']> T).
Proof.
  intros [Hj Ht Hq] Hth Hl Hp Hm Hb. constructor; [done| |by apply (queue_put _ _ _ _ _ Hq Hth)].
  intros t2 th2 E. destruct (decide (t2 = t)) as [->|Hne]; [rewrite lookup_insert_eq in E; by injection E as <-|].
  rewrite lookup_insert_ne in E by done. by apply (Ht t2).
Qed.

Lemma exec_run_simulated s t rd mail pc sh rd' pc' :
  quiet (rs_lk s) (rs_thr s) -> rs_thr s !! t = Some (mk_rt rd (Run pc) Live mail) ->
  match pc with LockWait _ | UnlockWake _ => False | _ => True end ->
  mtx_step mtx_key (mk_shared (rs_v s) 0) rd pc = Next sh rd' pc' ->
  simulated s (mk_rs (sh_lock sh) (rs_lk s) (<[t := mk_rt rd' (Run pc') Live mail]> (rs_thr s))).
Proof.
  intros Hqt Hth Hp Hst. pose proof (quiet_mail _ _ _ _ Hqt Hth) as [Hni Hm]. cbn in Hni, Hm. subst mail. split.
  - apply (quiet_put _ _ _ _ _ Hqt Hth); try done. by apply (quiet_step _ _ _ _ _ _ _ Hst).
  - right. exists (Exec t). rewrite (abstract_put _ _ _ t (mk_rt rd (Run pc) Live [])) by done.
    cbn [act]. unfold abstract. cbn [g_thr g_sh]. rewrite lookup_fmap, Hth. cbn [fmap option_fmap option_map mbind option_bind abstract_thread th_rd th_pc rt_rd rt_pc abstract_pc].
    by rewrite mtx_step_frame, Hst.
Qed.

Lemma exec_wait_simulated s t th i s' :
  quiet (rs_lk s) (rs_thr s) -> rs_thr s !! t = Some th -> rt_pc th = Run (LockWait i) -> exec_wait s t th i = Some s' -> simulated s s'.
Proof.
  intros Hqt Hth Hpc. pose proof (quiet_mail _ _ _ _ Hqt Hth) as Hm. rewrite Hpc in Hm. destruct Hm as [Hni Hm].
  destruct (qt_thr _ _ Hqt _ _ Hth) as [Hl _]. pose proof (queue_waits _ _ _ _ _ (qt_queue _ _ Hqt) Hth Hl Hpc) as Hw. unfold exec_wait.
  destruct (lock_add_waiter _ _ _) as [lk' w]. destruct Hw as (Hq' & Ej & En & Eq & _). intros [= <-].
  set (th' := if w then _ else _) in *.
  assert (E1 : abstract_thread th' = abstract_thread th) by (unfold th', abstract_thread; destruct w; cbn; by rewrite Hpc).
  assert (E2 : mailed th = false) by (unfold mailed; by rewrite Hm).
  assert (E3 : mailed th' = negb w) by (unfold th', mailed; destruct w; cbn; by rewrite Hm).
  assert (E4 : rt_life th' = Live /\ quiet_pc (rt_pc th')) by (unfold th'; destruct w; cbn; by rewrite Hl).
  clearbody th'. split; cbn [rs_lk rs_thr].
  - destruct Hqt as [Hj Ht _]. constructor; [congruence| |done].
    intros t2 th2 E. destruct (decide (t2 = t)) as [->|Hne]; [rewrite lookup_insert_eq in E; by injection E as <-|].
    rewrite lookup_insert_ne in E by done. by apply (Ht t2).
  - left. unfold abstract, wakes. cbn [rs_v rs_lk rs_thr]. f_equal.
    + f_equal. rewrite (count_if_insert mailed _ _ _ _ Hth), E2, E3, En, Eq, length_app. destruct w; cbn [length negb Z.b2z]; lia.
    + rewrite fmap_insert, E1. apply insert_id. by rewrite lookup_fmap, Hth.
Qed.

Lemma exec_read_simulated s t th i s' :
  quiet (rs_lk s) (rs_thr s) -> rs_thr s !! t = Some th -> rt_pc th = Waiting i -> exec_read s t th i = Some s' -> simulated s s'.
Proof.
  intros Hqt Hth Hpc. pose proof (quiet_mail _ _ _ _ Hqt Hth) as Hm. rewrite Hpc in Hm. destruct (qt_thr _ _ Hqt _ _ Hth) as [Hl _].
  unfold exec_read. destruct Hm as [[_ Hm]|[Hni Hm]]; rewrite Hm; [done|]. intros [= <-].
  destruct th as [rd pc life mail]. cbn in Hl, Hpc, Hm. subst life pc mail. unfold put. cbn [rt_rd rt_life]. split.
  - by apply (quiet_put _ _ _ _ _ Hqt Hth).
  - right. exists (Exec t). cbn [act]. unfold abstract. cbn [g_thr g_sh rs_v rs_lk rs_thr]. rewrite lookup_fmap, Hth, fmap_insert.
    cbn [fmap option_fmap option_map mbind option_bind abstract_thread th_rd th_pc rt_rd rt_pc abstract_pc mtx_step].
    unfold lock_wait_step. cbn [sh_lock sh_wakes].
    pose proof (count_if_pos mailed _ _ _ Hth eq_refl) as Hp. pose proof (q_owed _ _ (qt_queue _ _ Hqt)) as Ho.
    rewrite (proj2 (Z.ltb_lt 0 _)) by (unfold wakes; lia). do 3 f_equal. unfold wakes.
    rewrite (count_if_insert mailed _ _ _ _ Hth). cbn [mailed rt_mail Z.b2z]. lia.
Qed.

Lemma exec_wake_simulated s t th n s' :
  quiet (rs_lk s) (rs_thr s) -> rs_thr s !! t = Some th -> rt_pc th = Run (UnlockWake n) -> exec_wake s t th n = Some s' -> simulated s s'.
Proof.
  intros Hqt Hth Hpc. pose proof (quiet_mail _ _ _ _ Hqt Hth) as Hm. rewrite Hpc in Hm. destruct Hm as [Hni Hm].
  destruct (qt_thr _ _ Hqt _ _ Hth) as [Hl Hn]. rewrite Hpc in Hn. cbn in Hn.
  destruct th as [rd pc life mail]. cbn in Hl, Hpc, Hm. subst life pc mail. unfold exec_wake, set_pc. cbn [rt_rd rt_life rt_mail].
  set (th' := mk_rt rd (Run UnlockFinish) Live []).
  assert (Hqt' : quiet (rs_lk s) (<[t := th']> (rs_thr s))) by (by apply (quiet_put _ _ _ _ _ Hqt Hth)).
  destruct (deliver_woken (Z.to_nat n) _ _ Hqt') as (T' & E1 & E2 & E3 & E4). rewrite Z2Nat.id in E2 by done.
  rewrite wake_eq, E1 by done. cbn [mbind option_bind]. intros [= <-]. split; [done|]. right. exists (Exec t).
  cbn [act]. unfold abstract. cbn [g_thr g_sh rs_v rs_lk rs_thr]. rewrite lookup_fmap, Hth.
  cbn [fmap option_fmap option_map mbind option_bind abstract_thread th_rd th_pc rt_rd rt_pc abstract_pc mtx_step].
  cbn [sh_lock sh_wakes]. do 2 f_equal.
  - f_equal. unfold wakes. rewrite E4, (count_if_insert mailed _ _ _ _ Hth). cbn [mailed rt_mail Z.b2z th'].
    unfold woken_lock. cbn [nwaiter waiters_queue]. rewrite length_drop, length_take. lia.
  - rewrite fmap_insert in E3. exact (eq_sym E3).
Qed.

Lemma exec_simulated s t th s' :
  quiet (rs_lk s) (rs_thr s) -> rs_thr s !! t = Some th -> exec mtx_key s t th = Some s' -> simulated s s'.
Proof.
  intros Hqt Hth. destruct (qt_thr _ _ Hqt _ _ Hth) as [Hl Hp]. unfold exec. destruct (rt_pc th) as [pc| | | | | |] eqn:Hpc; try done.
  - destruct pc; try (by apply exec_wait_simulated); try (by apply exec_wake_simulated);
      (destruct (mtx_step _ _ _ _) as [sh rd' pc'| |] eqn:Hst; [|done|done]; intros [= <-]; destruct th as [rd pc0 life mail]; cbn in Hl, Hpc; subst;
       by apply (exec_run_simulated _ _ _ _ _ _ _ _ Hqt Hth)).
  - by apply exec_read_simulated.
Qed.

Lemma call_simulated s t th guard f g s' a :
  quiet (rs_lk s) (rs_thr s) -> rs_thr s !! t = Some th -> rcall s t th guard f = Some s' ->
  (forall rd, quiet_pc (Run (snd (f rd)))) ->
  (forall r, rt_pc th = Run (Returned r) -> guard = true -> g (abstract_thread th) = true) ->
  (forall gl, act mtx_key gl a = call gl t g f) -> simulated s s'.
Proof.
  intros Hqt Hth Hcall Hf Hg Ha. destruct (qt_thr _ _ Hqt _ _ Hth) as [Hl _]. pose proof (quiet_mail _ _ _ _ Hqt Hth) as Hm.
  destruct th as [rd pc life mail]. cbn in Hl. subst life. unfold rcall in Hcall. cbn [rt_pc rt_rd rt_life rt_mail] in *.
  destruct pc as [[r| | | | | | | | | | | | | | |]| | | | | |]; try done. destruct guard; [|done]. specialize (Hf rd). specialize (Hg r eq_refl eq_refl).
  destruct (f rd) as [rd' pc'] eqn:Ef. injection Hcall as <-. destruct Hm as [Hni ->]. unfold put. split.
  - by apply (quiet_put _ _ _ _ _ Hqt Hth).
  - right. exists a. rewrite Ha, (abstract_put _ _ _ t (mk_rt rd (Run (Returned r)) Live [])) by done.
    unfold call, abstract. cbn [g_thr g_sh]. rewrite lookup_fmap, Hth. cbn [fmap option_fmap option_map mbind option_bind].
    rewrite Hg. cbn [abstract_thread in_client th_pc th_rd rt_rd rt_pc abstract_pc andb]. by rewrite Ef.
Qed.

Lemma collect_simulated s s' : quiet (rs_lk s) (rs_thr s) -> collect mtx_key s = Some s' -> simulated s s'.
Proof.
  intros Hqt. unfold collect. destruct (lock_is_unused (rs_lk s)) eqn:Hu; unfold lock_start_or_remove_cleanup_job.
  - cbn. intros [= <-]. pose proof Hqt as [Hj Ht Hq]. split; [constructor; [done|done|by apply queue_unused with (rs_lk s)]|]. left.
    unfold abstract, wakes. cbn [rs_v rs_lk rs_thr nwaiter waiters_queue lock_init]. unfold lock_is_unused in Hu.
    destruct (waiters_queue (rs_lk s)); [|by rewrite andb_false_r in Hu]. zbool. do 2 f_equal. cbn. lia.
  - rewrite (qt_job _ _ Hqt). cbn. intros [= <-]. split; [done|]. left. by destruct s.
Qed.

Lemma ract_simulated s a s' :
  quiet (rs_lk s) (rs_thr s) -> deathless a = true -> ract mtx_key s a = Some s' -> simulated s s'.
Proof.
  intros Hqt Hd. destruct a as [t|t|t|t|t|t|t|]; try done; cbn [ract]; unfold with_live;
    try (destruct (rs_thr s !! t) as [th|] eqn:Hth; [|done]; cbn [mbind option_bind]; case_decide as Hl; [|done]).
  - by apply exec_simulated.
  - intros H. apply (call_simulated _ _ _ _ _ (fun th => negb (owns th)) _ (CallLock t) Hqt Hth H); try done.
    intros r Hp Hg. unfold owns, abstract_thread. cbn. rewrite Hp. exact Hg.
  - intros H. apply (call_simulated _ _ _ _ _ (fun th => negb (owns th)) _ (CallTrylock t) Hqt Hth H); try done.
    intros r Hp Hg. unfold owns, abstract_thread. cbn. rewrite Hp. exact Hg.
  - intros H. apply (call_simulated _ _ _ _ _ owns _ (CallUnlock t) Hqt Hth H); try done.
    intros r Hp Hg. unfold owns, abstract_thread. cbn. rewrite Hp. exact Hg.
  - intros H. by apply (call_simulated _ _ _ _ _ (fun _ => true) _ (CallConsistent t) Hqt Hth H).
  - by apply collect_simulated.
Qed.

End Refines.

Lemma rstart_quiet mtx_key tids max : @quiet mtx_key (rs_lk (rstart mtx_key tids max)) (rs_thr (rstart mtx_key tids max)).
Proof.
  assert (L : forall t th, rs_thr (rstart mtx_key tids max) !! t = Some th -> th = mk_rt (mk_robust t 0 false 0 (replicate max 0)) (Run (Returned 0)) Live []).
  { intros t th H. cbn in H. by apply elem_of_list_to_map_2, list_elem_of_fmap in H as (t' & [= -> ->] & _). }
  constructor; [done|by intros t th ->%L|]. constructor; try done.
  - apply base.NoDup_nil_2.
  - by intros t ?%not_elem_of_nil.
  - intros t th ->%L. split; [|done]. split; [apply not_elem_of_nil|done].
  - constructor; [by intros t th ->%L|by intros t1 t2 th1 th2 ->%L|done].
Qed.

Lemma rstart_abstract mtx_key tids max : abstract (rstart mtx_key tids max) = start tids max.
Proof.
  unfold abstract, start, rstart, wakes. cbn [rs_v rs_lk rs_thr nwaiter waiters_queue lock_init length]. f_equal.
  - f_equal. unfold count_if. rewrite map_empty_filter_2; [done|]. intros t th H.
    by apply elem_of_list_to_map_2, list_elem_of_fmap in H as (t' & [= -> ->] & _).
  - rewrite <- list_to_map_fmap, <- list_fmap_compose. done.
Qed.

(** C5. As long as no thread dies, the mutexes with the lock of the referee behave as [PsharedMutex] says, which knows
    the referee by its contract only: each schedule of calls, of steps of the threads and of collections by the server
    leads to a state that [PsharedMutex] reaches, with the same lock value and the same threads, and with as many wake-ups as
    are stored by the referee or written to threads that have not read them.  All that is proved there holds here. *)
Theorem referee_refines_wakes mtx_key tids max l s :
  rrun mtx_key (rstart mtx_key tids max) l = Some s -> Forall (fun a => deathless a = true) l ->
  reachable mtx_key tids max (abstract s).
Proof.
  unfold rrun, reachable. rewrite <- (rstart_abstract mtx_key). generalize (rstart_quiet mtx_key tids max). generalize (rstart mtx_key tids max).
  induction l as [|a l IH]; intros s0 Hq; cbn.
  - intros [= ->] _. apply rtc_refl.
  - assert (N : forall l, fold_left (fun o a => s' ← o; ract mtx_key s' a) l None = None) by (intros l0; induction l0; done).
    destruct (ract mtx_key s0 a) as [s1|] eqn:E; [|by rewrite N]. intros H [Hd Hl]%Forall_cons.
    destruct (ract_simulated _ _ _ Hq Hd E) as [Hq1 [Ea|[a' Ea]]].
    + rewrite <- Ea. by apply IH.
    + eapply rtc_l; [exact (g_act _ _ _ _ Ea)|]. by apply IH.
Qed.

(** Thread 8 sleeps in the queue of the referee, then is woken. *)
Definition handover : list raction :=
  [RLock 4; RExec 4; RExec 4; RLock 8] ++ replicate 6 (RExec 8) ++ [RUnlock 4] ++ replicate 4 (RExec 4).

Lemma referee_refines_wakes_witness :
  exists s, rrun 1 (rstart 1 [4; 8] 2) handover = Some s /\ wakes (rs_lk s) (rs_thr s) = 1 /\ reachable 1 [4; 8] 2 (abstract s).
Proof.
  destruct (rrun 1 (rstart 1 [4; 8] 2) handover) as [s|] eqn:E; [|vm_compute in E; discriminate].
  exists s. split; [reflexivity|]. split; [vm_compute in E; injection E as <-; vm_compute; reflexivity|].
  apply (referee_refines_wakes 1 [4; 8] 2 handover s E). repeat constructor.
Defined.
