(* ===== verification/CStr.v ===== *)
(** * C strings and integer parsing

    A C string is the list of its characters before the terminating null
    character; [peek s i] reads [s[i]], the terminator included, and is [None]
    beyond it.  [strtoll] and [strtoull] follow the C standard for base 0. *)

From S2P Require Import Prelude.

Abbreviation cstr := (list ascii).

Definition cs (s : string) : cstr := list_ascii_of_string s.

Definition NUL : ascii := "000"%char.

Definition peek (s : cstr) (i : nat) : option ascii :=
  if decide (i < length s)%nat then s !! i
  else if decide (i = length s) then Some NUL else None.

(** The code of a character. *)
Definition code (c : ascii) : Z := Z.of_N (N_of_ascii c).

Definition in_range (lo hi : ascii) (c : ascii) : bool := (code lo <=? code c) && (code c <=? code hi).

Definition is_lower : ascii -> bool := in_range "a" "z".
Definition is_upper : ascii -> bool := in_range "A" "Z".
Definition is_digit : ascii -> bool := in_range "0" "9".

(** [isspace] and [isalnum] in the C locale. *)
Definition isspace (c : ascii) : bool := (code c =? 32) || ((9 <=? code c) && (code c <=? 13)).
Definition isalnum (c : ascii) : bool := is_lower c || is_upper c || is_digit c.

(** [!strncmp(s, p, strlen(p))]. *)
Fixpoint starts_with (p s : cstr) : bool :=
  match p, s with
  | [], _ => true
  | c :: p', d :: s' => bool_decide (c = d) && starts_with p' s'
  | _ :: _, [] => false
  end.

Lemma starts_with_spec p s : starts_with p s = true <-> exists r, s = p ++ r.
Proof.
  revert s. induction p as [|c p IH]; intros s; cbn; [split; eauto|].
  destruct s as [|d s]; [split; [done|intros [r Hr]; discriminate]|].
  rewrite andb_true_iff, bool_decide_eq_true, IH. split.
  - intros [-> [r ->]]. by exists r.
  - intros [r [= -> ->]]. eauto.
Qed.

(** ** [strtoll] and [strtoull] *)

Definition digit_value (c : ascii) : option Z :=
  if is_digit c then Some (code c - code "0")
  else if is_lower c then Some (code c - code "a" + 10)
  else if is_upper c then Some (code c - code "A" + 10)
  else None.

Definition digit_in (base : Z) (c : ascii) : option Z :=
  d ← digit_value c; if d <? base then Some d else None.

(** Value of the leading digits and what follows them. *)
Fixpoint take_digits (base acc : Z) (s : cstr) : Z * cstr :=
  match s with
  | [] => (acc, [])
  | c :: s' =>
      match digit_in base c with
      | Some d => take_digits base (acc * base + d) s'
      | None => (acc, s)
      end
  end.

Fixpoint skip_spaces (s : cstr) : cstr :=
  match s with
  | c :: s' => if isspace c then skip_spaces s' else s
  | [] => []
  end.

Definition take_sign (s : cstr) : bool * cstr :=
  match s with
  | "-"%char :: s' => (true, s')
  | "+"%char :: s' => (false, s')
  | _ => (false, s)
  end.

Definition is_hex (c : ascii) : bool := match digit_in 16 c with Some _ => true | None => false end.

(** The base announced by the prefix, and the digits. *)
Definition take_prefix (s : cstr) : Z * cstr :=
  match s with
  | "0"%char :: x :: h :: _ =>
      if ((bool_decide (x = "x"%char) || bool_decide (x = "X"%char)) && is_hex h)%bool
      then (16, drop 2 s) else (8, s)
  | "0"%char :: _ => (8, s)
  | _ => (10, s)
  end.

(** The integer at the start of [s], of any size, and the rest of [s]; [None]
    if there is no digit. *)
Definition scan_int (s : cstr) : option (bool * Z * cstr) :=
  let '(neg, s1) := take_sign (skip_spaces s) in
  let '(base, s2) := take_prefix s1 in
  match s2 with
  | c :: _ =>
      match digit_in base c with
      | Some _ => let '(v, rest) := take_digits base 0 s2 in Some (neg, v, rest)
      | None => None
      end
  | [] => None
  end.

(** Value, what [endptr] points to, and whether [errno] is set to [ERANGE]. *)
Definition strtoll (s : cstr) : Z * cstr * bool :=
  match scan_int s with
  | None => (0, s, false)
  | Some (neg, v, rest) =>
      let z := if neg then - v else v in
      if z <? INT64_MIN then (INT64_MIN, rest, true)
      else if INT64_MAX <? z then (INT64_MAX, rest, true)
      else (z, rest, false)
  end.

Definition strtoull (s : cstr) : Z * cstr * bool :=
  match scan_int s with
  | None => (0, s, false)
  | Some (neg, v, rest) =>
      if UINT64_MAX <? v then (UINT64_MAX, rest, true)
      else (if neg then u64 (- v) else v, rest, false)
  end.

(** The integer a whole string stands for. *)
Definition parse_int (s : cstr) : option Z :=
  match scan_int s with
  | Some (neg, v, []) => Some (if neg then - v else v)
  | _ => None
  end.

Example parse_int_examples :
  parse_int (cs "  -0x1F") = Some (-31) /\ parse_int (cs "017") = Some 15
  /\ parse_int (cs "0x") = None /\ parse_int (cs "12a") = None /\ parse_int (cs "+9") = Some 9.
Proof. repeat split; reflexivity. Qed.

Lemma digit_value_nonneg c d : digit_value c = Some d -> 0 <= d.
Proof.
  unfold digit_value, is_digit, is_lower, is_upper, in_range.
  change (code "0"%char) with 48. change (code "9"%char) with 57.
  change (code "a"%char) with 97. change (code "z"%char) with 122.
  change (code "A"%char) with 65. change (code "Z"%char) with 90.
  repeat case_match; intros; simplify_eq; zbool; lia.
Qed.

Lemma take_digits_nonneg base acc s : 0 <= base -> 0 <= acc -> 0 <= fst (take_digits base acc s).
Proof.
  intros Hb. revert acc. induction s as [|c s IH]; intros acc Ha; cbn; [done|].
  destruct (digit_in base c) as [d|] eqn:E; [|done]. apply IH.
  unfold digit_in in E. destruct (digit_value c) as [d'|] eqn:Ed; [|done]. cbn in E.
  apply digit_value_nonneg in Ed. case_match; simplify_eq. nia.
Qed.

Lemma scan_int_nonneg s neg v rest : scan_int s = Some (neg, v, rest) -> 0 <= v.
Proof.
  unfold scan_int. destruct (take_sign (skip_spaces s)) as [ng s1].
  destruct (take_prefix s1) as [base s2] eqn:E.
  assert (0 <= base) by (unfold take_prefix in E; repeat case_match; simplify_eq; lia).
  destruct s2 as [|c s2]; [done|]. destruct (digit_in base c); [|done].
  destruct (take_digits base 0 (c :: s2)) as [w r] eqn:Ed. intros [= <- <- <-].
  change w with (fst (w, r)). rewrite <- Ed. by apply take_digits_nonneg.
Qed.
