(* ===== verification/Argparse.v ===== *)
(** * Command line parsing

    [argparse.c] and the accessors of [mmargparse.h]: recognition and lookup
    of options, conversion of values, processing of short and long options and
    the main loop.  What the code does besides returning a value (calls of the
    callback, values stored, text printed) is a log of events.  [None] is a
    read past the end of a string. *)

From S2P Require Import Prelude CStr.

Definition MM_OPT_NOVAL : Z := 0x00.
Definition MM_OPT_OPTVAL : Z := 0x01.
Definition MM_OPT_NEEDVAL : Z := 0x02.
Definition MM_OPT_REQMASK : Z := 0x03.
Definition MM_OPT_STR : Z := 0x00.
Definition MM_OPT_INT : Z := 0x10.
Definition MM_OPT_LLONG : Z := 0x20.
Definition MM_OPT_UINT : Z := 0x90.
Definition MM_OPT_ULLONG : Z := 0xA0.
Definition MM_OPT_TYPEMASK : Z := 0xF0.
Definition MM_OPT_FILEPATH : Z := 0x100.
Definition MM_OPT_DIRPATH : Z := 0x200.

Definition MM_ARGPARSE_ERROR : Z := -1.
Definition MM_ARGPARSE_STOP : Z := -2.
Definition MM_ARGPARSE_COMPLETE : Z := -3.
Definition MM_ARG_PARSER_NOEXIT : Z := 1.
Definition MM_ARG_PARSER_COMPLETION : Z := 2.
Definition MM_ARG_OPT_COMPLETION : Z := 1.

Definition ERANGE : Z := 34.

Inductive mm_arg_val :=
| ValStr (str : option cstr)
| ValInt (i : Z) | ValLlong (ll : Z) | ValUint (ui : Z) | ValUllong (ull : Z).

(** [opt_ptr] tells whether [val.sptr] is set. *)
Record mm_arg_opt := mk_opt {
  opt_name : option cstr;
  opt_flags : Z;
  opt_defval : option cstr;
  opt_ptr : bool;
  opt_desc : option cstr
}.

Inductive event :=
| EvCallback (opt : mm_arg_opt) (val : mm_arg_val) (state : Z)
| EvSet (opt : mm_arg_opt) (val : mm_arg_val)
| EvHelp
| EvError
| EvCandidate (line : cstr)
| EvCompletePath (arg : option cstr) (type_mask : Z).

Abbreviation log := (list event).

(** The callback may answer according to what happened before. *)
Record mm_arg_parser := mk_parser {
  p_flags : Z;
  optv : list mm_arg_opt;
  p_cb : option (log -> mm_arg_opt -> mm_arg_val -> Z -> Z)
}.

(** ** Option names *)

Definition mm_arg_opt_get_key (opt : mm_arg_opt) : option Z :=
  name ← opt_name opt;
  sep ← peek name 1;
  if bool_decide (sep = "|"%char) || bool_decide (sep = NUL)
  then c ← peek name 0; Some (code c) else Some 0.

(** The inner result is [None] for a null pointer. *)
Definition mm_arg_opt_get_name (opt : mm_arg_opt) : option (option cstr) :=
  name ← opt_name opt;
  sep ← peek name 1;
  if bool_decide (sep = NUL) then Some None
  else Some (Some (drop (if bool_decide (sep = "|"%char) then 2 else 0) name)).

Definition mm_arg_opt_get_type (opt : mm_arg_opt) : Z := Z.land (opt_flags opt) MM_OPT_TYPEMASK.

Definition reqflags (opt : mm_arg_opt) : Z := Z.land (opt_flags opt) MM_OPT_REQMASK.

Fixpoint get_first_token_length (str : cstr) (breakch : ascii) : nat :=
  match str with
  | [] => 0
  | ch :: str' => if bool_decide (ch = breakch) then 0 else S (get_first_token_length str' breakch)
  end.

Definition is_valid_short_opt_key (ch : Z) : bool :=
  ((97 <=? ch) && (ch <=? 122)) || ((65 <=? ch) && (ch <=? 90)).

(** The index where the scan stops, or [None] for an invalid character. *)
Fixpoint scan_long_name (name : cstr) (stop_at_equal : bool) (i : nat) : option nat :=
  match name with
  | [] => Some i
  | ch :: name' =>
      if is_lower ch || is_digit ch || bool_decide (ch = "-"%char)
      then scan_long_name name' stop_at_equal (S i)
      else if bool_decide (ch = "="%char) && stop_at_equal then Some i
      else None
  end.

Definition is_valid_long_opt_name (name : cstr) (stop_at_equal : bool) : bool :=
  match name with
  | ch :: name' =>
      if is_lower ch then
        match scan_long_name name' stop_at_equal 1 with
        | Some i => (2 <=? i)%nat
        | None => false
        end
      else false
  | [] => false
  end.

Definition is_arg_an_option (arg : option cstr) : option bool :=
  match arg with
  | None => Some false
  | Some arg =>
      c0 ← peek arg 0;
      if negb (bool_decide (c0 = "-"%char)) then Some false
      else
        c1 ← peek arg 1;
        if negb (bool_decide (c1 = "-"%char)) && negb (bool_decide (c1 = NUL))
        then Some (is_valid_short_opt_key (code c1))
        else
          c2 ← peek arg 2;
          if negb (bool_decide (c2 = "-"%char)) && negb (bool_decide (c2 = NUL))
          then Some (is_valid_long_opt_name (drop 2 arg) true)
          else Some false
  end.

(** ** Lookup *)

Definition help_opt : mm_arg_opt :=
  mk_opt (Some (cs "h|help")) MM_OPT_NOVAL None false (Some (cs "print this message and exit")).

Definition IGNORE_KEY : Z := 0.

(** [name] is the token of [namelen] characters. *)
Definition match_opt_key_or_name (opt : mm_arg_opt) (key : Z) (name : cstr) : option bool :=
  if negb (key =? IGNORE_KEY) then k ← mm_arg_opt_get_key opt; Some (key =? k)
  else
    n ← mm_arg_opt_get_name opt;
    Some (match n with
          | Some opt_name => starts_with name opt_name && (length opt_name =? length name)%nat
          | None => false
          end).

(** The option found: one of the parser, or the help option added internally. *)
Inductive found := Found (opt : mm_arg_opt) | FoundHelp | NotFound.

Fixpoint find_in (opts : list mm_arg_opt) (key : Z) (name : cstr) : option found :=
  match opts with
  | [] => b ← match_opt_key_or_name help_opt key name; Some (if (b : bool) then FoundHelp else NotFound)
  | opt :: opts' =>
      b ← match_opt_key_or_name opt key name;
      if (b : bool) then Some (Found opt) else find_in opts' key name
  end.

Definition find_opt (parser : mm_arg_parser) (key : Z) (name : cstr) : option found :=
  find_in (optv parser) key name.

(** ** Values *)

Definition cast_ll_to_argval (type llval : Z) : mm_arg_val + Z :=
  if type =? MM_OPT_LLONG then inl (ValLlong llval)
  else if type =? MM_OPT_INT then
    if (llval <? INT_MIN) || (INT_MAX <? llval) then inr ERANGE else inl (ValInt llval)
  else if type =? MM_OPT_UINT then
    if (llval <? 0) || (UINT_MAX <? llval) then inr ERANGE else inl (ValUint llval)
  else inr EINVAL.

Definition check_value_is_positive (str : cstr) : bool :=
  match skip_spaces str with "-"%char :: _ => false | _ => true end.

(** The converted value, or the value of [errno] reported. *)
Definition conv_str_to_argval (opt : mm_arg_opt) (value : option cstr) : mm_arg_val + Z :=
  let type := mm_arg_opt_get_type opt in
  if type =? MM_OPT_STR then inl (ValStr value)
  else
    match value with
    | None | Some [] => inr EINVAL
    | Some value =>
        if type =? MM_OPT_ULLONG then
          if negb (check_value_is_positive value) then inr ERANGE
          else
            let '(ull, endptr, erange) := strtoull value in
            match endptr with
            | _ :: _ => inr EINVAL
            | [] => if (erange : bool) then inr ERANGE else inl (ValUllong ull)
            end
        else
          let '(llval, endptr, erange) := strtoll value in
          match endptr with
          | _ :: _ => inr EINVAL
          | [] => if (erange : bool) then inr ERANGE else cast_ll_to_argval type llval
          end
    end.

Definition is_completing (parser : mm_arg_parser) : bool :=
  negb (Z.land (p_flags parser) MM_ARG_PARSER_COMPLETION =? 0).

(** Return value and events of [mm_arg_opt_set_value]; the types accepted by
    the conversion are all known here. *)
Definition mm_arg_opt_set_value (opt : mm_arg_opt) (val : mm_arg_val) (lg : log) : log * Z :=
  if negb (opt_ptr opt) then (lg, 0)
  else
    let type := mm_arg_opt_get_type opt in
    if (type =? MM_OPT_STR) || (type =? MM_OPT_INT) || (type =? MM_OPT_UINT)
       || (type =? MM_OPT_LLONG) || (type =? MM_OPT_ULLONG)
    then (lg ++ [EvSet opt val], 0)
    else (lg ++ [EvError], -1).

Definition run_callback (parser : mm_arg_parser) (opt : mm_arg_opt) (val : mm_arg_val) (state : Z)
    (lg : log) : log * Z :=
  match p_cb parser with
  | Some cb => (lg ++ [EvCallback opt val state], cb lg opt val state)
  | None => (lg, 0)
  end.

Definition process_opt_value (parser : mm_arg_parser) (f : found) (value : option cstr) (lg : log)
    : log * Z :=
  match f with
  | FoundHelp | NotFound =>
      if is_completing parser then (lg, 0) else (lg ++ [EvHelp], MM_ARGPARSE_STOP)
  | Found opt =>
      if (reqflags opt =? MM_OPT_NOVAL) && bool_decide (is_Some value) then (lg ++ [EvError], MM_ARGPARSE_ERROR)
      else if (reqflags opt =? MM_OPT_NEEDVAL) && negb (bool_decide (is_Some value))
      then (lg ++ [EvError], MM_ARGPARSE_ERROR)
      else
        let value := match value with Some v => Some v | None => opt_defval opt end in
        match conv_str_to_argval opt value with
        | inr _ => (lg ++ [EvError], -1)
        | inl argval =>
            let '(lg1, rv) := run_callback parser opt argval 0 lg in
            if rv <? 0 then (lg1, rv) else mm_arg_opt_set_value opt argval lg1
        end
  end.


(** ** Completion *)

Definition MM_DT_DIR : Z := 16.
Definition MM_DT_REG : Z := 32.

Definition candidate (line : cstr) : event := EvCandidate line.

(** [printf("--%s=\n", lname)] and the like; a candidate is a line. *)
Definition complete_longopt (opt : mm_arg_opt) (name_start : cstr) (lg : log) : option log :=
  lname ← mm_arg_opt_get_name opt;
  Some (match lname with
        | None => lg
        | Some lname =>
            if negb (starts_with name_start lname) then lg
            else if reqflags opt =? MM_OPT_NOVAL then lg ++ [candidate (cs "--" ++ lname)]
            else if reqflags opt =? MM_OPT_NEEDVAL then lg ++ [candidate (cs "--" ++ lname ++ cs "=")]
            else if reqflags opt =? MM_OPT_OPTVAL
            then lg ++ [candidate (cs "--" ++ lname ++ cs "="); candidate (cs "--" ++ lname)]
            else lg
        end).

Fixpoint complete_each (opts : list mm_arg_opt) (name_start : cstr) (lg : log) : option log :=
  match opts with
  | [] => Some lg
  | opt :: opts' => lg1 ← complete_longopt opt name_start lg; complete_each opts' name_start lg1
  end.

Definition complete_longopts (parser : mm_arg_parser) (arg : cstr) (lg : log) : option (log * Z) :=
  lg1 ← complete_each (optv parser ++ [help_opt]) arg lg;
  Some (lg1, MM_ARGPARSE_COMPLETE).

(** Whether each character of [arg] is the key of an option. *)
Fixpoint known_keys (parser : mm_arg_parser) (arg : cstr) : option bool :=
  match arg with
  | [] => Some true
  | c :: arg' =>
      f ← find_opt parser (code c) [];
      match f with NotFound => Some false | _ => known_keys parser arg' end
  end.

Fixpoint list_keys (opts : list mm_arg_opt) (lg : log) : option log :=
  match opts with
  | [] => Some lg
  | opt :: opts' =>
      key ← mm_arg_opt_get_key opt;
      list_keys opts'
        (if key =? 0 then lg else lg ++ [candidate (cs "-" ++ [ascii_of_N (Z.to_N key)])])
  end.

Definition complete_shortopts (parser : mm_arg_parser) (arg : cstr) (lg : log) : option (log * Z) :=
  known ← known_keys parser arg;
  if negb known then Some (lg, MM_ARGPARSE_COMPLETE)
  else if negb (length arg =? 0)%nat
  then Some (lg ++ [candidate (cs "-" ++ arg)], MM_ARGPARSE_COMPLETE)
  else
    lg1 ← list_keys (optv parser) lg;
    Some (lg1 ++ [candidate (cs "-h")], MM_ARGPARSE_COMPLETE).

Definition opt_of (f : found) : mm_arg_opt := match f with Found opt => opt | _ => help_opt end.

Definition path_mask (opt : mm_arg_opt) : Z :=
  Z.lor (if Z.land (opt_flags opt) MM_OPT_FILEPATH =? 0 then 0 else Z.lor MM_DT_REG MM_DT_DIR)
        (if Z.land (opt_flags opt) MM_OPT_DIRPATH =? 0 then 0 else MM_DT_DIR).

Definition complete_opt_value (parser : mm_arg_parser) (f : found) (arg : option cstr) (lg : log)
    : log * Z :=
  let opt := opt_of f in
  let '(lg1, rv) := run_callback parser opt (ValStr arg) MM_ARG_OPT_COMPLETION lg in
  if negb (rv =? 0) then (lg1, MM_ARGPARSE_COMPLETE)
  else if negb (Z.land (opt_flags opt) (Z.lor MM_OPT_FILEPATH MM_OPT_DIRPATH) =? 0)
  then (lg1 ++ [EvCompletePath arg (path_mask opt)], MM_ARGPARSE_COMPLETE)
  else match arg with
       | Some arg => (lg1 ++ [candidate arg], MM_ARGPARSE_COMPLETE)
       | None => (lg1, MM_ARGPARSE_COMPLETE)
       end.

(** ** Options of the command line *)

(** The loop of [process_short_opt]: [opts] are the keys left, [value] and
    [move_arg_index] its local variables. *)
Fixpoint short_loop (parser : mm_arg_parser) (next_arg : option cstr) (next_is_last : bool)
    (value : option cstr) (move_arg_index : Z) (opts : cstr) (lg : log) : option (log * Z) :=
  match opts with
  | [] => Some (lg, move_arg_index)
  | c :: opts' =>
      f ← find_opt parser (code c) [];
      match f with
      | NotFound => Some (lg ++ [EvError], -1)
      | _ =>
          take ← (if negb (reqflags (opt_of f) =? MM_OPT_NOVAL) && (length opts' =? 0)%nat
                  then is_opt ← is_arg_an_option next_arg; Some (negb is_opt)
                  else Some false);
          let value := if (take : bool) then next_arg else value in
          let move_arg_index := if take then 1 else move_arg_index in
          if take && is_completing parser && next_is_last
          then Some (complete_opt_value parser f value lg)
          else
            let '(lg1, rv) := process_opt_value parser f value lg in
            if rv <? 0 then Some (lg1, rv)
            else short_loop parser next_arg next_is_last value move_arg_index opts' lg1
      end
  end.

Definition process_short_opt (parser : mm_arg_parser) (opts : cstr) (next_arg : option cstr)
    (next_is_last : bool) (lg : log) : option (log * Z) :=
  if is_completing parser && negb (bool_decide (is_Some next_arg))
  then complete_shortopts parser opts lg
  else short_loop parser next_arg next_is_last None 0 opts lg.

Definition process_long_opt (parser : mm_arg_parser) (arg : cstr) (do_complete : bool) (lg : log)
    : option (log * Z) :=
  let namelen := get_first_token_length arg "=" in
  let name := take namelen arg in
  sep ← peek arg namelen;
  let value := if bool_decide (sep = "="%char) then Some (drop (namelen + 1) arg) else None in
  if do_complete && negb (bool_decide (sep = "="%char)) then complete_longopts parser arg lg
  else
    f ← find_opt parser IGNORE_KEY name;
    match f with
    | NotFound =>
        if do_complete then Some (lg, MM_ARGPARSE_COMPLETE) else Some (lg ++ [EvError], MM_ARGPARSE_ERROR)
    | _ =>
        if do_complete then Some (complete_opt_value parser f value lg)
        else
          let '(lg1, rv) := process_opt_value parser f value lg in
          Some (lg1, if rv <? 0 then rv else 0)
    end.

(** ** The parser *)

Definition valid_option (opt : mm_arg_opt) : option bool :=
  match opt_name opt with
  | None | Some [] => Some false
  | Some _ =>
      key ← mm_arg_opt_get_key opt;
      lname ← mm_arg_opt_get_name opt;
      Some (negb ((negb (key =? 0) && negb (is_valid_short_opt_key key))
                  || match lname with Some l => negb (is_valid_long_opt_name l false) | None => false end))
  end.

Fixpoint validate_options (opts : list mm_arg_opt) (lg : log) : option (log * Z) :=
  match opts with
  | [] => Some (lg, 0)
  | opt :: opts' =>
      ok ← valid_option opt;
      if (ok : bool) then validate_options opts' lg else Some (lg ++ [EvError], -1)
  end.

(** A call either returns or ends the process. *)
Inductive outcome := Return (r : Z) | Exit (exitcode : Z).

Definition EXIT_SUCCESS : Z := 0.
Definition EXIT_FAILURE : Z := 1.

Definition early_stop_parsing (parser : mm_arg_parser) (retval : Z) (lg : log) : log * outcome :=
  let '(lg, exitcode) :=
    if retval =? MM_ARGPARSE_ERROR then (lg ++ [EvError], EXIT_FAILURE) else (lg, EXIT_SUCCESS) in
  if negb (Z.land (p_flags parser) MM_ARG_PARSER_NOEXIT =? 0) then (lg, Return retval)
  else (lg, Exit exitcode).

Definition mm_arg_parse_complete (parser : mm_arg_parser) (arg : option cstr) (lg : log)
    : option (log * outcome) :=
  '(lg, v) ← validate_options (optv parser) lg;
  if negb (v =? 0) then Some (early_stop_parsing parser MM_ARGPARSE_ERROR lg)
  else
    match arg with
    | None => Some (lg, Return 0)
    | Some arg =>
        let len := length arg in
        c0 ← peek arg 0;
        '(lg, _) ←
          (if (len <? 1)%nat || bool_decide (c0 = "-"%char)
           then complete_shortopts parser (if (1 <=? len)%nat then drop 1 arg else []) lg
           else Some (lg, 0));
        two ← (if (2 <=? len)%nat && bool_decide (c0 = "-"%char)
               then c1 ← peek arg 1; Some (bool_decide (c1 = "-"%char)) else Some false);
        '(lg, _) ←
          (if (len =? 0)%nat || ((len =? 1)%nat && bool_decide (c0 = "-"%char)) || two
           then complete_longopts parser (if (2 <=? len)%nat then drop 2 arg else []) lg
           else Some (lg, 0));
        Some (lg, Return 0)
    end.

(** The loop of [mm_arg_parse]; the arguments left decrease, [fuel] bounds
    their number. *)
Fixpoint parse_loop (fuel : nat) (parser : mm_arg_parser) (argv : list cstr) (index : nat)
    (lg : log) : option (log * outcome) :=
  match fuel with
  | O => None
  | S fuel =>
      let argc := length argv in
      if negb (index <? argc)%nat
      then Some (lg, Return (Z.of_nat (if (argc <? index)%nat then argc else index)))
      else
        arg ← argv !! index;
        c0 ← peek arg 0;
        if negb (bool_decide (c0 = "-"%char)) then Some (lg, Return (Z.of_nat index))
        else
          c1 ← peek arg 1;
          if is_valid_short_opt_key (code c1) then
            '(lg, r) ← process_short_opt parser (drop 1 arg) (argv !! (index + 1)%nat)
                         (index + 2 =? argc)%nat lg;
            if r <? 0 then Some (early_stop_parsing parser r lg)
            else parse_loop fuel parser argv (index + Z.to_nat r + 1) lg
          else
            let do_complete := (index =? argc - 1)%nat && is_completing parser in
            if bool_decide (c1 = NUL) && do_complete then
              '(lg, o) ← mm_arg_parse_complete parser (Some arg) lg;
              match o with
              | Exit e => Some (lg, Exit e)
              | Return _ => Some (early_stop_parsing parser MM_ARGPARSE_COMPLETE lg)
              end
            else if negb (bool_decide (c1 = "-"%char)) then Some (lg, Return (Z.of_nat index))
            else
              c2 ← peek arg 2;
              if bool_decide (c2 = NUL) && negb do_complete
              then Some (lg, Return (Z.of_nat (index + 1)))
              else
                '(lg, r) ← process_long_opt parser (drop 2 arg) do_complete lg;
                if r <? 0 then Some (early_stop_parsing parser r lg)
                else parse_loop fuel parser argv (index + 1) lg
  end.

Definition mm_arg_parse (parser : mm_arg_parser) (argv : list cstr) : option (log * outcome) :=
  '(lg, v) ← validate_options (optv parser) [];
  if negb (v =? 0) then Some (early_stop_parsing parser MM_ARGPARSE_ERROR lg)
  else parse_loop (S (length argv)) parser argv 1 lg.

Definition mm_arg_optv_parse (opts : list mm_arg_opt) (argv : list cstr) : option (log * outcome) :=
  mm_arg_parse (mk_parser 0 opts None) argv.

(** ** Conversion of values *)

Definition type_range (type : Z) : Z * Z :=
  if type =? MM_OPT_INT then (INT_MIN, INT_MAX)
  else if type =? MM_OPT_UINT then (0, UINT_MAX)
  else if type =? MM_OPT_LLONG then (INT64_MIN, INT64_MAX)
  else (0, UINT64_MAX).

Definition argval_of (type z : Z) : mm_arg_val :=
  if type =? MM_OPT_INT then ValInt z
  else if type =? MM_OPT_UINT then ValUint z
  else if type =? MM_OPT_LLONG then ValLlong z
  else ValUllong z.

Definition integer_types : list Z := [MM_OPT_INT; MM_OPT_UINT; MM_OPT_LLONG; MM_OPT_ULLONG].

Definition in_type (type z : Z) : bool := (fst (type_range type) <=? z) && (z <=? snd (type_range type)).

Lemma strtoll_cases s :
  (scan_int s = None /\ strtoll s = (0, s, false))
  \/ (exists c rest v neg er, scan_int s = Some (neg, v, c :: rest) /\ exists x, strtoll s = (x, c :: rest, er))
  \/ (exists z, parse_int s = Some z
        /\ (strtoll s = (z, [], false) /\ INT64_MIN <= z <= INT64_MAX
            \/ (exists x, strtoll s = (x, [], true)) /\ ~ INT64_MIN <= z <= INT64_MAX)).
Proof.
  unfold strtoll, parse_int. destruct (scan_int s) as [[[neg v] rest]|]; [right|by left].
  destruct rest as [|c rest].
  - right. exists (if neg then - v else v). split; [done|].
    set (z := if neg then _ else _).
    repeat case_test; [right|right|left]; split; eauto; lia.
  - left. exists c, rest, v, neg. repeat case_test; eauto 10.
Qed.

Lemma strtoull_cases s :
  check_value_is_positive s = true ->
  (scan_int s = None /\ strtoull s = (0, s, false))
  \/ (exists c rest v neg er, scan_int s = Some (neg, v, c :: rest) /\ exists x, strtoull s = (x, c :: rest, er))
  \/ (exists z, parse_int s = Some z /\ 0 <= z
        /\ (strtoull s = (z, [], false) /\ z <= UINT64_MAX
            \/ (exists x, strtoull s = (x, [], true)) /\ UINT64_MAX < z)).
Proof.
  intros Hp. unfold strtoull, parse_int.
  destruct (scan_int s) as [[[neg v] rest]|] eqn:Es; [right|by left].
  pose proof (scan_int_nonneg _ _ _ _ Es).
  assert (neg = false) as ->.
  { unfold scan_int in Es. unfold check_value_is_positive in Hp.
    destruct (take_sign (skip_spaces s)) as [ng s1] eqn:Et.
    assert (ng = false) as ->.
    { unfold take_sign in Et. repeat case_match; simplify_eq; done. }
    repeat case_match; simplify_eq; done. }
  destruct rest as [|c rest].
  - right. exists v. split; [done|]. split; [done|].
    case_test; [right|left]; split; eauto; lia.
  - left. exists c, rest, v, false. case_test; eauto 10.
Qed.

(** C33. The conversion of a value for an option of integer type accepts exactly
    the strings that are, entirely, the decimal, octal or hexadecimal notation
    of an integer of the type, and yields this integer; it reports [ERANGE]
    for another integer and [EINVAL] for another string.  A string with a
    minus sign is out of the range of [unsigned long long], even ["-0"]. *)
Theorem conv_str_to_argval_exact (opt : mm_arg_opt) (str : cstr)
    (Htype : mm_arg_opt_get_type opt ∈ integer_types) :
  conv_str_to_argval opt (Some str) =
    let type := mm_arg_opt_get_type opt in
    if (type =? MM_OPT_ULLONG) && negb (bool_decide (str = [])) && negb (check_value_is_positive str)
    then inr ERANGE
    else match parse_int str with
         | None => inr EINVAL
         | Some z => if in_type type z then inl (argval_of type z) else inr ERANGE
         end.
Proof.
  unfold conv_str_to_argval. set (type := mm_arg_opt_get_type opt) in *. cbv zeta.
  assert (type =? MM_OPT_STR = false) as ->.
  { apply Z.eqb_neq. intros E. rewrite E in Htype. unfold integer_types in Htype. set_solver. }
  destruct str as [|c s]; [by rewrite andb_false_r|].
  rewrite bool_decide_false by done. rewrite andb_true_r.
  destruct (type =? MM_OPT_ULLONG) eqn:Eu; cbn [andb].
  - zbool. destruct (check_value_is_positive (c :: s)) eqn:Ep; cbn [negb]; [|done].
    destruct (strtoull_cases (c :: s) Ep) as [[H1 ->]|[(c' & r & v & neg & er & H1 & x & ->)|(z & -> & Hz & Hc)]].
    + unfold parse_int. by rewrite H1.
    + unfold parse_int. by rewrite H1.
    + unfold in_type, type_range, argval_of. rewrite Eu. cbn.
      destruct Hc as [[-> Hc]|[[x ->] Hc]]; repeat case_test; done || lia || (exfalso; lia).
  - destruct (strtoll_cases (c :: s)) as [[H1 ->]|[(c' & r & v & neg & er & H1 & x & ->)|(z & -> & Hc)]].
    + unfold parse_int. by rewrite H1.
    + unfold parse_int. by rewrite H1.
    + assert (fst (type_range type) <= z <= snd (type_range type) -> INT64_MIN <= z <= INT64_MAX) as Hr.
      { unfold type_range. repeat case_test; cbn; unfold INT64_MIN, INT64_MAX, INT_MIN, INT_MAX, UINT_MAX; try lia.
        exfalso. unfold integer_types in Htype. set_solver. }
      destruct Hc as [[-> Hc]|[[x ->] Hc]].
      * unfold cast_ll_to_argval, in_type, argval_of, type_range.
        assert (type = MM_OPT_INT \/ type = MM_OPT_UINT \/ type = MM_OPT_LLONG) as Ht.
        { zbool. unfold integer_types in Htype. set_solver. }
        destruct Ht as [-> | [-> | ->]]; cbn; repeat case_test; done || lia.
      * unfold in_type. destruct (_ && _) eqn:E; [|done]. zbool. exfalso. apply Hc, Hr. lia.
Qed.

Definition opt_n : mm_arg_opt := mk_opt (Some (cs "n|number")) (MM_OPT_NEEDVAL + MM_OPT_INT) None true None.

Lemma conv_str_to_argval_exact_witness :
  conv_str_to_argval opt_n (Some (cs " -0x80000000")) = inl (ValInt (-2147483648))
  /\ conv_str_to_argval opt_n (Some (cs "2147483648")) = inr ERANGE.
Proof.
  split.
  - rewrite (conv_str_to_argval_exact opt_n); [reflexivity|vm_compute; left].
  - rewrite (conv_str_to_argval_exact opt_n); [reflexivity|vm_compute; left].
Defined.

(** ** Names of options *)

(** The forms of an option name: a key, a long name, or both. *)
Inductive named : cstr -> option ascii -> option cstr -> Prop :=
| NamedKey c : named [c] (Some c) None
| NamedBoth c l : named (c :: "|"%char :: l) (Some c) (Some l)
| NamedLong c d l : d <> "|"%char -> d <> NUL -> named (c :: d :: l) None (Some (c :: d :: l)).

Definition long_name_char (c : ascii) : Prop :=
  is_lower c = true \/ is_digit c = true \/ c = "-"%char.

(** A valid long name: a letter, then letters, digits and hyphens, two characters at least. *)
Definition long_name (l : cstr) : Prop :=
  exists c d r, l = c :: d :: r /\ is_lower c = true /\ Forall long_name_char (d :: r).

Definition key_char (c : ascii) : Prop := is_lower c = true \/ is_upper c = true.

Definition no_nul (s : cstr) : Prop := NUL ∉ s.

Lemma peek_head c s : peek (c :: s) 0 = Some c.
Proof. unfold peek. rewrite decide_True by (cbn; lia). done. Qed.

Lemma peek_tail c s i : peek (c :: s) (S i) = peek s i.
Proof. unfold peek. cbn. repeat case_decide; done || lia. Qed.

Lemma peek_nil : peek [] 0 = Some NUL.
Proof. done. Qed.

Create HintDb peek.
#[export] Hint Rewrite peek_head peek_tail peek_nil : peek.

Lemma peek_is_Some s i : (i <= length s)%nat -> exists c, peek s i = Some c.
Proof.
  intros H. unfold peek. case_decide as Hl; [|case_decide; eauto; lia].
  apply lookup_lt_is_Some_2 in Hl as [c Hc]. eauto.
Qed.

Lemma named_cases n :
  n <> [] -> no_nul n -> exists k l, named n k l.
Proof.
  intros Hn Hz. destruct n as [|c [|d r]]; [done|eexists _, _; constructor|].
  destruct (decide (d = "|"%char)) as [-> |Hd]; [eexists _, _; constructor|].
  eexists _, _. apply NamedLong; [done|]. intros ->. apply Hz. set_solver.
Qed.

Lemma named_key opt n k l :
  opt_name opt = Some n -> named n k l ->
  mm_arg_opt_get_key opt = Some (match k with Some c => code c | None => 0 end).
Proof.
  intros Hn Hk. unfold mm_arg_opt_get_key. rewrite Hn. cbn.
  destruct Hk as [c|c l'|c d l' Hd Hz]; autorewrite with peek; cbn.
  - done.
  - done.
  - by rewrite !bool_decide_false.
Qed.

Lemma named_long opt n k l :
  opt_name opt = Some n -> named n k l -> mm_arg_opt_get_name opt = Some l.
Proof.
  intros Hn Hk. unfold mm_arg_opt_get_name. rewrite Hn. cbn.
  destruct Hk as [c|c l'|c d l' Hd Hz]; autorewrite with peek; cbn; [done|done|].
  rewrite !bool_decide_false by done. done.
Qed.

Lemma code_inj c d : code c = code d -> c = d.
Proof.
  unfold code. intros H. apply N2Z.inj in H.
  rewrite <- (ascii_N_embedding c), <- (ascii_N_embedding d). by rewrite H.
Qed.

Lemma code_range c : 0 <= code c < 256.
Proof.
  unfold code. pose proof (N_ascii_bounded c). lia.
Qed.

Lemma valid_short_key c : is_valid_short_opt_key (code c) = true <-> key_char c.
Proof.
  unfold is_valid_short_opt_key, key_char, is_lower, is_upper, in_range.
  change (code "a"%char) with 97. change (code "z"%char) with 122.
  change (code "A"%char) with 65. change (code "Z"%char) with 90.
  rewrite orb_true_iff. done.
Qed.

Lemma key_char_code c : key_char c -> code c <> 0.
Proof.
  rewrite <- valid_short_key. unfold is_valid_short_opt_key. intros H E. rewrite E in H. done.
Qed.

Lemma scan_long_name_spec l i :
  scan_long_name l false i = Some (i + length l)%nat <-> Forall long_name_char l.
Proof.
  revert i. induction l as [|c l IH]; intros i; cbn.
  - rewrite Nat.add_0_r. by rewrite Forall_nil.
  - rewrite Forall_cons, andb_false_r.
    replace (i + S (length l))%nat with (S i + length l)%nat by lia.
    destruct (_ || _) eqn:E.
    + rewrite IH. split; [|tauto]. intros H. split; [|done].
      unfold long_name_char. rewrite !orb_true_iff, bool_decide_eq_true in E. tauto.
    + split; [done|]. intros [H _]. exfalso. rewrite !orb_false_iff, bool_decide_eq_false in E.
      destruct H as [H|[H|H]], E as [[E1 E2] E3]; congruence.
Qed.

Lemma scan_long_name_result l i j : scan_long_name l false i = Some j -> j = (i + length l)%nat.
Proof.
  revert i. induction l as [|c l IH]; intros i; cbn; [intros [= <-]; lia|].
  rewrite andb_false_r. destruct (_ || _); [|done]. intros H. apply IH in H. lia.
Qed.

Lemma valid_long_name l : is_valid_long_opt_name l false = true <-> long_name l.
Proof.
  destruct l as [|c l]; cbn; [split; [done|intros (c & d & r & H & _); done]|].
  split.
  - destruct (is_lower c) eqn:Ec; [|done].
    destruct (scan_long_name l false 1) as [j|] eqn:Ej; [|done].
    intros H. pose proof (scan_long_name_result _ _ _ Ej) as ->.
    apply scan_long_name_spec in Ej. zbool.
    destruct l as [|d r]; [cbn in H; lia|]. eexists c, d, r. done.
  - intros (c' & d & r & [= -> ->] & -> & Hr).
    apply (scan_long_name_spec _ 1) in Hr. rewrite Hr. cbn. done.
Qed.

(** A well-formed option name. *)
Definition option_ok (opt : mm_arg_opt) : Prop :=
  exists n k l, opt_name opt = Some n /\ named n k l
    /\ (forall c, k = Some c -> key_char c) /\ (forall s, l = Some s -> long_name s).

Definition names_terminated (opts : list mm_arg_opt) : Prop :=
  forall opt n, opt ∈ opts -> opt_name opt = Some n -> no_nul n.

Lemma named_inj n k l k' l' : named n k l -> named n k' l' -> k = k' /\ l = l'.
Proof. intros H1 H2. destruct H1; inversion H2; simplify_eq; done. Qed.

Lemma valid_option_spec opt :
  (forall n, opt_name opt = Some n -> no_nul n) ->
  exists b, valid_option opt = Some b /\ (b = true <-> option_ok opt).
Proof.
  intros Hz. unfold valid_option. destruct (opt_name opt) as [n|] eqn:En.
  2: { exists false. split; [done|]. split; [done|]. intros (n & k & l & H & _). congruence. }
  destruct n as [|c r].
  { exists false. split; [done|]. split; [done|]. intros (n & k & l & H & Hk & _).
    rewrite En in H. simplify_eq. inversion Hk. }
  destruct (named_cases (c :: r)) as (k & l & Hk); [done|by apply Hz|].
  rewrite (named_key _ _ _ _ En Hk), (named_long _ _ _ _ En Hk). cbn.
  eexists. split; [done|]. rewrite negb_true_iff, orb_false_iff, andb_false_iff, !negb_false_iff, Z.eqb_eq. split.
  - intros [H1 H2]. exists (c :: r), k, l. split; [done|]. split; [done|]. split.
    + intros x ->. destruct H1 as [H1|H1]; [|by apply valid_short_key].
      exfalso. inversion Hk; simplify_eq.
      * apply (Hz [x] eq_refl). change 0 with (code NUL) in H1. apply code_inj in H1 as ->. set_solver.
      * apply (Hz _ eq_refl). change 0 with (code NUL) in H1. apply code_inj in H1 as ->. set_solver.
    + intros s ->. zbool. by apply valid_long_name.
  - intros (n & k' & l' & H & Hk' & H1 & H2). rewrite En in H. simplify_eq.
    destruct (named_inj _ _ _ _ _ Hk Hk') as [-> ->]. split.
    + destruct k' as [x|]; [right|by left]. apply valid_short_key. by apply H1.
    + destruct l' as [s|]; [|done]. apply negb_false_iff, valid_long_name. by apply H2.
Qed.

Lemma validate_options_cases opts lg :
  names_terminated opts ->
  (Forall option_ok opts /\ validate_options opts lg = Some (lg, 0))
  \/ (~ Forall option_ok opts /\ validate_options opts lg = Some (lg ++ [EvError], -1)).
Proof.
  induction opts as [|opt opts IH]; intros Hz; cbn; [left; split; [by constructor|done]|].
  destruct (valid_option_spec opt) as (b & -> & Hb); [intros n; apply Hz; set_solver|]. cbn.
  destruct b; [|right; split; [|done]; rewrite Forall_cons; intros [H _]; by apply Hb in H].
  destruct IH as [[H ->]|[H ->]]; [intros o n Ho; apply Hz; set_solver|left|right];
    rewrite Forall_cons; split; try done; [split; [by apply Hb|done]|tauto].
Qed.

(** The options of a parser are accepted exactly when each has a name of
    the form [c], [c|long] or [long], with [c] a letter of either case and
    [long] a lower case letter followed by at least one lower case letter,
    digit or hyphen.  Otherwise nothing is parsed: the error is reported, and
    the process exits with [EXIT_FAILURE] unless [MM_ARG_PARSER_NOEXIT]. *)
Theorem validate_options_exact (parser : mm_arg_parser) (argv : list cstr)
    (Hz : names_terminated (optv parser)) :
  (validate_options (optv parser) [] = Some ([], 0) <-> Forall option_ok (optv parser))
  /\ (~ Forall option_ok (optv parser) ->
      mm_arg_parse parser argv =
        Some ([EvError; EvError],
              if Z.land (p_flags parser) MM_ARG_PARSER_NOEXIT =? 0
              then Exit EXIT_FAILURE else Return MM_ARGPARSE_ERROR)).
Proof.
  unfold mm_arg_parse.
  destruct (validate_options_cases (optv parser) [] Hz) as [[H ->]|[H ->]]; cbn.
  - split; tauto.
  - split; [split; [done|tauto]|]. intros _. unfold early_stop_parsing. cbn.
    by destruct (Z.land _ _ =? 0).
Qed.

Lemma validate_options_exact_witness :
  let parser := mk_parser MM_ARG_PARSER_NOEXIT [opt_n; mk_opt (Some (cs "x|X")) 0 None false None] None in
  mm_arg_parse parser [cs "prog"; cs "-n"; cs "3"] = Some ([EvError; EvError], Return MM_ARGPARSE_ERROR).
Proof.
  intros parser.
  assert (names_terminated (optv parser)) as Hz.
  { intros opt n Ho Hn. cbn in Ho. rewrite !elem_of_cons, elem_of_nil in Ho.
    destruct Ho as [-> |[-> |[]]]; cbn in Hn; injection Hn as <-; unfold no_nul; by apply (bool_decide_unpack _). }
  destruct (validate_options_exact parser [cs "prog"; cs "-n"; cs "3"] Hz) as [H1 H2].
  apply H2. rewrite <- H1. vm_compute. discriminate.
Defined.

(** ** Lookup *)

Definition has_key (opt : mm_arg_opt) (c : ascii) : Prop :=
  exists n l, opt_name opt = Some n /\ named n (Some c) l.

Definition has_long (opt : mm_arg_opt) (name : cstr) : Prop :=
  exists n k, opt_name opt = Some n /\ named n k (Some name).

Lemma starts_with_length p s : starts_with p s && (length s =? length p)%nat = true <-> s = p.
Proof.
  rewrite andb_true_iff, starts_with_spec, Nat.eqb_eq. split.
  - intros [[r ->] H]. rewrite length_app in H. destruct r; [by rewrite app_nil_r|cbn in H; lia].
  - intros ->. split; [exists []; by rewrite app_nil_r|done].
Qed.

Lemma match_key opt c :
  option_ok opt -> c <> NUL ->
  exists b, match_opt_key_or_name opt (code c) [] = Some b /\ (b = true <-> has_key opt c).
Proof.
  intros (n & k & l & Hn & Hk & Hc & _) Hz. unfold match_opt_key_or_name.
  assert (code c =? IGNORE_KEY = false) as ->.
  { apply Z.eqb_neq. intros E. change IGNORE_KEY with (code NUL) in E. by apply code_inj in E. }
  rewrite (named_key _ _ _ _ Hn Hk). cbn. eexists. split; [done|].
  rewrite Z.eqb_eq. split.
  - destruct k as [d|]; intros E.
    + apply code_inj in E as ->. by exists n, l.
    + change 0 with (code NUL) in E. by apply code_inj in E.
  - intros (n' & l' & Hn' & Hk'). rewrite Hn in Hn'. simplify_eq.
    by destruct (named_inj _ _ _ _ _ Hk Hk') as [-> ->].
Qed.

Lemma match_name opt name :
  option_ok opt ->
  exists b, match_opt_key_or_name opt IGNORE_KEY name = Some b /\ (b = true <-> has_long opt name).
Proof.
  intros (n & k & l & Hn & Hk & _ & _). unfold match_opt_key_or_name. cbn.
  rewrite (named_long _ _ _ _ Hn Hk). cbn. eexists. split; [done|]. split.
  - destruct l as [l|]; [|done]. intros H%starts_with_length. subst l. by exists n, k.
  - intros (n' & k' & Hn' & Hk'). rewrite Hn in Hn'. simplify_eq.
    destruct (named_inj _ _ _ _ _ Hk Hk') as [-> ->]. by apply starts_with_length.
Qed.

Lemma help_opt_ok : option_ok help_opt.
Proof.
  exists (cs "h|help"), (Some "h"%char), (Some (cs "help")). split; [done|]. split; [constructor|]. split.
  - intros c [= <-]. by left.
  - intros s [= <-]. exists "h"%char, "e"%char, (cs "lp"). split; [done|]. split; [done|].
    repeat constructor; by left.
Qed.

(** What [find_opt] promises, for a criterion [P] on options. *)
Definition finds (opts : list mm_arg_opt) (P : mm_arg_opt -> Prop) (f : found) : Prop :=
  match f with
  | Found opt => exists l1 l2, opts = l1 ++ opt :: l2 /\ P opt /\ Forall (fun o => ~ P o) l1
  | FoundHelp => P help_opt /\ Forall (fun o => ~ P o) opts
  | NotFound => ~ P help_opt /\ Forall (fun o => ~ P o) opts
  end.

Lemma find_in_finds opts key name (P : mm_arg_opt -> Prop) :
  Forall option_ok opts ->
  (forall o, option_ok o -> exists b, match_opt_key_or_name o key name = Some b /\ (b = true <-> P o)) ->
  exists f, find_in opts key name = Some f /\ finds opts P f.
Proof.
  intros Hok Hm. induction Hok as [|o opts Ho Hok IH]; cbn [find_in].
  - destruct (Hm _ help_opt_ok) as (b & -> & Hb). cbn.
    destruct b; eexists; (split; [done|]); cbn; (split; [|constructor]).
    + by apply Hb.
    + intros H. by apply Hb in H.
  - destruct (Hm _ Ho) as (b & -> & Hb). cbn. destruct b.
    + eexists. split; [done|]. exists [], opts. split; [done|]. split; [by apply Hb|constructor].
    + destruct IH as (f & -> & Hf). exists f. split; [done|].
      assert (~ P o) as Hn by (intros H; by apply Hb in H).
      destruct f as [q| |]; cbn in *.
      * destruct Hf as (l1 & l2 & -> & Hq & Hl). exists (o :: l1), l2. by repeat constructor.
      * destruct Hf. repeat constructor; done.
      * destruct Hf. repeat constructor; done.
Qed.

(** Among valid options, the lookup of a key returns the first option with
    this key, and the lookup of a name the first option with exactly this
    long name (an abbreviation does not match); the help option comes after
    the options of the parser, which can redefine it. *)
Theorem find_opt_first (parser : mm_arg_parser) (c : ascii) (name : cstr)
    (Hok : Forall option_ok (optv parser)) (Hc : c <> NUL) :
  (exists f, find_opt parser (code c) [] = Some f /\ finds (optv parser) (fun o => has_key o c) f)
  /\ (exists f, find_opt parser IGNORE_KEY name = Some f
        /\ finds (optv parser) (fun o => has_long o name) f).
Proof.
  split; apply find_in_finds; try done; intros o Ho; [by apply match_key|by apply match_name].
Qed.

Lemma opt_n_ok : option_ok opt_n.
Proof.
  exists (cs "n|number"), (Some "n"%char), (Some (cs "number")). split; [done|]. split; [constructor|]. split.
  - intros c [= <-]. by left.
  - intros s [= <-]. exists "n"%char, "u"%char, (cs "mber"). split; [done|]. split; [done|].
    repeat constructor; by left.
Qed.

Lemma find_opt_first_witness :
  exists f, find_opt (mk_parser 0 [opt_n] None) (code "h") [] = Some f
    /\ finds [opt_n] (fun o => has_key o "h"%char) f.
Proof.
  apply (find_opt_first (mk_parser 0 [opt_n] None) "h"%char []).
  - repeat constructor. apply opt_n_ok.
  - discriminate.
Defined.

(** ** The parser *)

Lemma find_opt_total parser key name :
  Forall option_ok (optv parser) -> exists f, find_opt parser key name = Some f.
Proof.
  unfold find_opt. intros Hok.
  assert (forall o, option_ok o -> exists b, match_opt_key_or_name o key name = Some b) as Hm.
  { intros o (n & k & l & Hn & Hk & _). unfold match_opt_key_or_name.
    rewrite (named_key _ _ _ _ Hn Hk), (named_long _ _ _ _ Hn Hk). case_test; cbn; eauto. }
  induction Hok as [|o opts Ho Hok IH]; cbn [find_in].
  - destruct (Hm _ help_opt_ok) as (b & ->). cbn. eauto.
  - destruct (Hm _ Ho) as (b & ->). cbn. destruct b; eauto.
Qed.

Definition DASH : cstr := ["-"%char].

Lemma is_arg_an_option_total arg : arg <> Some DASH -> exists b, is_arg_an_option arg = Some b.
Proof.
  intros Hd. destruct arg as [[|c [|d r]]|]; [..|by eexists]; unfold is_arg_an_option; autorewrite with peek; cbn.
  - eauto.
  - case_bool_decide as Hc; cbn; [|eauto]. subst c. done.
  - case_bool_decide as Hc; cbn; [|eauto]. repeat case_bool_decide; cbn; try (by eexists);
      destruct (peek_is_Some r 0) as [x ->]; cbn; try lia; destruct (negb _ && negb _); eauto.
Qed.

Lemma complete_each_total opts arg lg :
  Forall option_ok opts -> exists lg', complete_each opts arg lg = Some lg'.
Proof.
  intros Hok. revert lg. induction Hok as [|o opts (n & k & l & Hn & Hk & _) Hok IH]; intros lg; cbn; [eauto|].
  unfold complete_longopt. rewrite (named_long _ _ _ _ Hn Hk). cbn. apply IH.
Qed.

Lemma complete_longopts_total parser arg lg :
  Forall option_ok (optv parser) -> exists lg', complete_longopts parser arg lg = Some (lg', MM_ARGPARSE_COMPLETE).
Proof.
  intros Hok. unfold complete_longopts.
  destruct (complete_each_total (optv parser ++ [help_opt]) arg lg) as [lg' ->]; [|cbn; eauto].
  apply Forall_app_2; [done|]. repeat constructor. apply help_opt_ok.
Qed.

Lemma complete_shortopts_total parser arg lg :
  Forall option_ok (optv parser) -> exists lg', complete_shortopts parser arg lg = Some (lg', MM_ARGPARSE_COMPLETE).
Proof.
  intros Hok. unfold complete_shortopts.
  assert (exists b, known_keys parser arg = Some b) as [b ->].
  { induction arg as [|c arg IH]; cbn; [eauto|].
    destruct (find_opt_total parser (code c) [] Hok) as [f ->]. cbn. destruct f; eauto. }
  cbn. destruct b; cbn; [|eauto]. destruct (negb _); [eauto|].
  assert (exists lg', list_keys (optv parser) lg = Some lg') as [lg' ->]; [|cbn; eauto].
  revert lg. induction Hok as [|o opts (n & k & l & Hn & Hk & _) Hok IH]; intros lg; cbn; [eauto|].
  rewrite (named_key _ _ _ _ Hn Hk). cbn. apply IH.
Qed.

Lemma complete_opt_value_result parser f arg lg :
  snd (complete_opt_value parser f arg lg) = MM_ARGPARSE_COMPLETE.
Proof.
  unfold complete_opt_value. destruct (run_callback _ _ _ _ _) as [lg1 rv].
  repeat case_match; done.
Qed.

Lemma short_loop_total parser next last value move opts lg :
  Forall option_ok (optv parser) -> next <> Some DASH -> 0 <= move <= 1 ->
  exists lg' r, short_loop parser next last value move opts lg = Some (lg', r) /\ r <= 1.
Proof.
  intros Hok Hn. revert value move lg.
  induction opts as [|c opts IH]; intros value move lg Hm; cbn [short_loop]; [exists lg, move; split; [done|lia]|].
  destruct (find_opt_total parser (code c) [] Hok) as [f ->]. cbn.
  destruct (is_arg_an_option_total next Hn) as [b Hb].
  assert (exists t, (if negb (reqflags (opt_of f) =? MM_OPT_NOVAL) && (length opts =? 0)%nat
                    then is_opt ← is_arg_an_option next; Some (negb is_opt) else Some false) = Some t) as [t Ht].
  { rewrite Hb. cbn. destruct (_ && _); eauto. }
  assert (exists lg' r,
    (take ← (if negb (reqflags (opt_of f) =? MM_OPT_NOVAL) && (length opts =? 0)%nat
             then is_opt ← is_arg_an_option next; Some (negb is_opt) else Some false);
     let value0 := if (take : bool) then next else value in
     let move0 := if take then 1 else move in
     if take && is_completing parser && last
     then Some (complete_opt_value parser f value0 lg)
     else let '(lg1, rv) := process_opt_value parser f value0 lg in
          if rv <? 0 then Some (lg1, rv) else short_loop parser next last value0 move0 opts lg1)
      = Some (lg', r) /\ r <= 1) as Hgoal.
  { rewrite Ht. cbn. destruct (_ && _ && _).
    - destruct (complete_opt_value _ _ _ _) as [lg1 r] eqn:E. exists lg1, r. split; [done|].
      pose proof (complete_opt_value_result parser f (if t then next else value) lg) as H.
      rewrite E in H. cbn in H. subst r. done.
    - destruct (process_opt_value _ _ _ _) as [lg1 rv]. case_test; [exists lg1, rv; split; [done|lia]|].
      apply IH. destruct t; lia. }
  destruct f; [exact Hgoal|exact Hgoal|]. do 2 eexists. split; [done|lia].
Qed.

Lemma process_short_opt_total parser opts next last lg :
  Forall option_ok (optv parser) -> next <> Some DASH ->
  exists lg' r, process_short_opt parser opts next last lg = Some (lg', r) /\ r <= 1.
Proof.
  intros Hok Hn. unfold process_short_opt. destruct (_ && _).
  - destruct (complete_shortopts_total parser opts lg Hok) as [lg' ->].
    do 2 eexists. split; [done|]. by vm_compute.
  - apply short_loop_total; done || lia.
Qed.

Lemma get_first_token_length_le s c : (get_first_token_length s c <= length s)%nat.
Proof. induction s as [|d s IH]; cbn; [lia|]. case_bool_decide; lia. Qed.

Lemma process_long_opt_total parser arg dc lg :
  Forall option_ok (optv parser) ->
  exists lg' r, process_long_opt parser arg dc lg = Some (lg', r) /\ r <= 0.
Proof.
  intros Hok. unfold process_long_opt.
  destruct (peek_is_Some arg (get_first_token_length arg "=")) as [sep ->];
    [apply get_first_token_length_le|]. cbn.
  destruct (dc && negb _).
  { destruct (complete_longopts_total parser arg lg Hok) as [lg' ->]. do 2 eexists. split; [done|]. by vm_compute. }
  destruct (find_opt_total parser IGNORE_KEY (take (get_first_token_length arg "=") arg) Hok) as [f ->]. cbn.
  set (v := if bool_decide _ then _ else _).
  assert (exists lg' r, (if dc then Some (complete_opt_value parser f v lg)
                         else let '(lg1, rv) := process_opt_value parser f v lg in
                              Some (lg1, if rv <? 0 then rv else 0)) = Some (lg', r) /\ r <= 0) as Hgoal.
  { destruct dc.
    - destruct (complete_opt_value _ _ _ _) as [lg1 r] eqn:E. exists lg1, r. split; [done|].
      pose proof (complete_opt_value_result parser f v lg) as H. rewrite E in H. cbn in H. subst r. done.
    - destruct (process_opt_value _ _ _ _) as [lg1 rv]. do 2 eexists. split; [done|]. case_test; lia. }
  destruct f; [exact Hgoal|exact Hgoal|]. destruct dc; do 2 eexists; (split; [done|by vm_compute]).
Qed.

(** An argument the parser takes for an option, or for the end of the options. *)
Definition option_like (arg : cstr) : Prop :=
  exists c r, arg = "-"%char :: c :: r /\ (key_char c \/ c = "-"%char).

Definition short_arg (arg : cstr) : Prop := exists c r, arg = "-"%char :: c :: r /\ key_char c.

(** Where the parser may stop. *)
Definition operands_at (argv : list cstr) (r : nat) : Prop :=
  r = length argv
  \/ (exists i, r = S i /\ argv !! i = Some (cs "--"))
  \/ (exists arg, argv !! r = Some arg /\ ~ option_like arg).

Definition no_exit (parser : mm_arg_parser) : bool :=
  negb (Z.land (p_flags parser) MM_ARG_PARSER_NOEXIT =? 0).

Definition outcome_ok (parser : mm_arg_parser) (argv : list cstr) (o : outcome) : Prop :=
  match o with
  | Return r =>
      (r < 0 /\ no_exit parser = true)
      \/ (exists n, r = Z.of_nat n /\ (n <= length argv)%nat /\ operands_at argv n)
  | Exit e => no_exit parser = false /\ (e = EXIT_SUCCESS \/ e = EXIT_FAILURE)
  end.

Lemma early_stop_ok parser argv r lg :
  r < 0 -> exists lg' o, early_stop_parsing parser r lg = (lg', o) /\ outcome_ok parser argv o.
Proof.
  intros Hr. unfold early_stop_parsing. fold (no_exit parser).
  destruct (r =? MM_ARGPARSE_ERROR); destruct (no_exit parser) eqn:E; do 2 eexists; (split; [done|]); cbn; eauto.
Qed.

#[local] Arguments early_stop_parsing : simpl never.
#[local] Arguments process_long_opt : simpl never.
#[local] Arguments process_short_opt : simpl never.

Lemma mm_arg_parse_complete_dash parser lg :
  Forall option_ok (optv parser) -> names_terminated (optv parser) ->
  exists lg', mm_arg_parse_complete parser (Some DASH) lg = Some (lg', Return 0).
Proof.
  intros Hok Hz. unfold mm_arg_parse_complete.
  destruct (validate_options_cases _ lg Hz) as [[_ ->]|[H _]]; [|done].
  cbn -[complete_shortopts complete_longopts].
  destruct (complete_shortopts_total parser [] lg Hok) as [lg1 ->].
  cbn -[complete_longopts]. change (peek DASH 0) with (Some "-"%char). cbn -[complete_longopts].
  rewrite bool_decide_true by done. cbn -[complete_longopts].
  destruct (complete_longopts_total parser [] lg1 Hok) as [lg2 ->]. cbn. eauto.
Qed.

Lemma stop_at_operand parser argv index arg (lg : log) :
  argv !! index = Some arg -> ~ option_like arg ->
  exists lg' o, Some (lg, Return (Z.of_nat index)) = Some (lg', o) /\ outcome_ok parser argv o.
Proof.
  intros Ha Hn. do 2 eexists. split; [done|]. right. exists index. split; [done|].
  split; [apply lookup_lt_Some in Ha; lia|]. right. right. eauto.
Qed.

Lemma stop_at_end parser argv index (lg : log) :
  (length argv <= index)%nat ->
  exists lg' o, Some (lg, Return (Z.of_nat (if (length argv <? index)%nat then length argv else index)))
    = Some (lg', o) /\ outcome_ok parser argv o.
Proof.
  intros Hl. do 2 eexists. split; [done|]. right.
  exists (if (length argv <? index)%nat then length argv else index). split; [done|].
  destruct (length argv <? index)%nat eqn:E; zbool; (split; [lia|]); left; lia.
Qed.

Definition no_dash_value (argv : list cstr) : Prop :=
  forall i arg, argv !! i = Some arg -> short_arg arg -> argv !! S i <> Some DASH.

Lemma parse_loop_total fuel parser argv index lg :
  Forall option_ok (optv parser) -> names_terminated (optv parser) ->
  Forall no_nul argv -> no_dash_value argv ->
  (length argv < index + fuel)%nat -> (0 < fuel)%nat ->
  exists lg' o, parse_loop fuel parser argv index lg = Some (lg', o) /\ outcome_ok parser argv o.
Proof.
  intros Hok Hz Ha Hd. revert index lg.
  induction fuel as [|fuel IH]; intros index lg Hf Hp; [lia|]. cbn [parse_loop].
  destruct (index <? length argv)%nat eqn:El; cbn [negb]; zbool.
  2: { by apply stop_at_end. }
  destruct (lookup_lt_is_Some_2 argv index El) as [arg Harg]. rewrite Harg. cbn.
  pose proof (proj1 (Forall_lookup _ _) Ha _ _ Harg) as Hnul.
  pose proof (stop_at_operand parser argv index arg lg Harg) as Hstop.
  destruct arg as [|c0 arg]; autorewrite with peek; cbn.
  { apply Hstop. intros (c & r & H & _). done. }
  case_bool_decide as Hc0; cbn.
  2: { apply Hstop. intros (c & r & H & _). congruence. }
  subst c0. destruct arg as [|c1 arg]; autorewrite with peek; cbn.
  { destruct ((index =? length argv - 1)%nat && is_completing parser) eqn:Ec.
    - destruct (mm_arg_parse_complete_dash parser lg Hok Hz) as [lg1 H1]. unfold DASH in H1. rewrite H1. cbn.
      edestruct early_stop_ok as (lg2 & o & -> & Ho); [|eauto]. by vm_compute.
    - apply Hstop. intros (c & r & H & _). done. }
  destruct (is_valid_short_opt_key (code c1)) eqn:Ek.
  { destruct (process_short_opt_total parser (c1 :: arg) (argv !! (index + 1)%nat) (index + 2 =? length argv)%nat lg Hok)
      as (lg1 & r & -> & Hr).
    { rewrite Nat.add_1_r. eapply Hd; [exact Harg|]. exists c1, arg. split; [done|]. by apply valid_short_key. }
    cbn. case_test; [edestruct early_stop_ok as (lg2 & o & -> & Ho); eauto|].
    apply IH; lia. }
  assert (c1 <> NUL) as Hc1 by (intros ->; apply Hnul; set_solver).
  rewrite bool_decide_false by done. cbn. case_bool_decide as Hc; cbn.
  2: { apply Hstop. intros (c & r & H & Hk). simplify_eq.
       destruct Hk as [Hk| ->]; [|done]. apply valid_short_key in Hk. congruence. }
  subst c1. destruct (peek_is_Some arg 0) as [c2 Hc2]; [lia|]. rewrite Hc2. cbn.
  destruct (_ && negb _) eqn:E.
  { do 2 eexists. split; [done|]. right. exists (index + 1)%nat. split; [done|]. split; [lia|].
    right. left. exists index. split; [lia|]. rewrite Harg. f_equal.
    zbool. apply bool_decide_eq_true in H. subst c2.
    destruct arg as [|c2 arg]; [done|]. rewrite peek_head in Hc2. simplify_eq. exfalso. apply Hnul. set_solver. }
  rewrite drop_0.
  destruct (process_long_opt_total parser arg ((index =? length argv - 1)%nat && is_completing parser) lg Hok)
    as (lg1 & r & -> & Hr).
  cbn. case_test; [edestruct early_stop_ok as (lg2 & o & -> & Ho); eauto|].
  apply IH; lia.
Qed.

(** C32. Provided that no short option is followed by the argument ["-"],
    parsing a command line terminates and reads no string past its end.  It
    ends the process only if [MM_ARG_PARSER_NOEXIT] is not set, and returns a
    negative value only if it is; otherwise it returns an index of [argv],
    or its length: the operands begin where [argv] ends, after the first ["--"]
    met, or at an argument that has not the form of an option. *)
Theorem mm_arg_parse_returns (parser : mm_arg_parser) (argv : list cstr)
    (Hz : names_terminated (optv parser)) (Ha : Forall no_nul argv) (Hd : no_dash_value argv) :
  exists lg o, mm_arg_parse parser argv = Some (lg, o) /\ outcome_ok parser argv o.
Proof.
  unfold mm_arg_parse.
  destruct (validate_options_cases (optv parser) [] Hz) as [[Hok ->]|[H ->]]; cbn -[parse_loop].
  - apply parse_loop_total; done || lia.
  - edestruct early_stop_ok as (lg2 & o & -> & Ho); [|eauto]. by vm_compute.
Qed.

Lemma opt_n_terminated : names_terminated [opt_n].
Proof.
  intros opt n Ho Hn. apply list_elem_of_singleton in Ho as ->. cbn in Hn. injection Hn as <-.
  unfold no_nul. by apply (bool_decide_unpack _).
Qed.

Lemma mm_arg_parse_returns_witness :
  let argv := [cs "prog"; cs "-n"; cs "3"; cs "--number=4"; cs "file"; cs "-"] in
  exists lg o, mm_arg_parse (mk_parser 0 [opt_n] None) argv = Some (lg, o)
    /\ outcome_ok (mk_parser 0 [opt_n] None) argv o.
Proof.
  intros argv. apply (mm_arg_parse_returns (mk_parser 0 [opt_n] None) argv).
  - apply opt_n_terminated.
  - unfold no_nul. by apply (bool_decide_unpack _).
  - intros i arg Hi (c & r & -> & Hc). do 6 (destruct i as [|i]; [cbn in Hi; simplify_eq; done|]). done.
Defined.

(** When a short option that can take a value is followed by the argument
    ["-"], as in [-o -], the parser reads past the end of this argument: the
    third character of a string of one character. *)
Theorem dash_value_reads_past_end (parser : mm_arg_parser) (opt : mm_arg_opt) (c : ascii)
    (prog : cstr) (rest : list cstr)
    (Hok : Forall option_ok (optv parser)) (Hz : names_terminated (optv parser)) (Hc : key_char c)
    (Hfind : find_opt parser (code c) [] = Some (Found opt)) (Hreq : reqflags opt <> MM_OPT_NOVAL) :
  is_arg_an_option (Some DASH) = None
  /\ mm_arg_parse parser (prog :: ["-"%char; c] :: DASH :: rest) = None.
Proof.
  split; [reflexivity|]. unfold mm_arg_parse.
  destruct (validate_options_cases (optv parser) [] Hz) as [[_ ->]|[H _]]; [|done].
  cbn -[process_short_opt]. autorewrite with peek. cbn -[process_short_opt].
  apply valid_short_key in Hc as ->. unfold process_short_opt. rewrite andb_false_r. cbn.
  rewrite Hfind. cbn. apply Z.eqb_neq in Hreq as ->. done.
Qed.

Lemma dash_value_reads_past_end_witness :
  mm_arg_parse (mk_parser 0 [opt_n] None) [cs "prog"; cs "-n"; cs "-"] = None.
Proof.
  apply (dash_value_reads_past_end (mk_parser 0 [opt_n] None) opt_n "n" (cs "prog") []).
  - repeat constructor. apply opt_n_ok.
  - apply opt_n_terminated.
  - by left.
  - reflexivity.
  - vm_compute. discriminate.
Defined.

(** ** Settings written on a command line *)

Inductive setting :=
| SetLong (opt : mm_arg_opt) (name : cstr) (v : option cstr)
| SetFlag (opt : mm_arg_opt) (c : ascii)
| SetShort (opt : mm_arg_opt) (c : ascii) (v : cstr).

Definition render (s : setting) : list cstr :=
  match s with
  | SetLong _ name None => [cs "--" ++ name]
  | SetLong _ name (Some v) => [cs "--" ++ name ++ cs "=" ++ v]
  | SetFlag _ c => [["-"%char; c]]
  | SetShort _ c v => [["-"%char; c]; v]
  end.

Definition setting_opt (s : setting) : mm_arg_opt :=
  match s with SetLong opt _ _ | SetFlag opt _ | SetShort opt _ _ => opt end.

Definition setting_arg (s : setting) : option cstr :=
  match s with SetLong _ _ v => v | SetFlag _ _ => None | SetShort _ _ v => Some v end.

(** The value an option receives: the one written, or its default. *)
Definition setting_val (s : setting) : mm_arg_val + Z :=
  conv_str_to_argval (setting_opt s)
    (match setting_arg s with Some v => Some v | None => opt_defval (setting_opt s) end).

(** The effects: the callback, then the pointer of the option. *)
Definition setting_events (parser : mm_arg_parser) (s : setting) : log :=
  match setting_val s with
  | inl val =>
      (if bool_decide (is_Some (p_cb parser)) then [EvCallback (setting_opt s) val 0] else [])
      ++ (if opt_ptr (setting_opt s) then [EvSet (setting_opt s) val] else [])
  | inr _ => []
  end.

Definition only (parser : mm_arg_parser) (opt : mm_arg_opt) (P : mm_arg_opt -> Prop) : Prop :=
  opt ∈ optv parser /\ P opt /\ (forall o, o ∈ optv parser -> P o -> o = opt).

Definition arity_ok (opt : mm_arg_opt) (v : option cstr) : Prop :=
  match v with
  | Some _ => reqflags opt <> MM_OPT_NOVAL
  | None => reqflags opt <> MM_OPT_NEEDVAL
  end.

Definition setting_ok (parser : mm_arg_parser) (s : setting) : Prop :=
  arity_ok (setting_opt s) (setting_arg s) /\ (exists val, setting_val s = inl val)
  /\ match s with
     | SetLong opt name _ => long_name name /\ only parser opt (fun o => has_long o name)
     | SetFlag opt c => key_char c /\ only parser opt (fun o => has_key o c) /\ reqflags opt = MM_OPT_NOVAL
     | SetShort opt c v =>
         key_char c /\ only parser opt (fun o => has_key o c) /\ is_arg_an_option (Some v) = Some false
     end.

Definition accepting (parser : mm_arg_parser) : Prop :=
  match p_cb parser with
  | Some cb => forall lg opt val state, 0 <= cb lg opt val state
  | None => True
  end.

Lemma conv_known_type opt value val :
  conv_str_to_argval opt value = inl val ->
  let type := mm_arg_opt_get_type opt in
  (type =? MM_OPT_STR) || (type =? MM_OPT_INT) || (type =? MM_OPT_UINT)
  || (type =? MM_OPT_LLONG) || (type =? MM_OPT_ULLONG) = true.
Proof.
  unfold conv_str_to_argval. set (type := mm_arg_opt_get_type opt). cbv zeta.
  destruct (type =? MM_OPT_STR); [done|]. destruct value as [[|ch s]|]; [done| |done].
  destruct (type =? MM_OPT_ULLONG); [by rewrite orb_true_r|].
  destruct (strtoll _) as [[x [|e r]] er]; [|done]. destruct er; [done|].
  unfold cast_ll_to_argval. destruct (type =? MM_OPT_LLONG); [by rewrite orb_true_r|].
  destruct (type =? MM_OPT_INT); [done|]. destruct (type =? MM_OPT_UINT); done.
Qed.

Lemma process_setting parser s lg :
  accepting parser -> setting_ok parser s ->
  exists rv, process_opt_value parser (Found (setting_opt s)) (setting_arg s) lg
      = (lg ++ setting_events parser s, rv) /\ (rv <? 0) = false.
Proof.
  intros Hcb (Har & [val Hval] & _). unfold setting_events. rewrite Hval.
  unfold setting_val in Hval. unfold process_opt_value.
  pose proof (conv_known_type _ _ _ Hval) as Ht.
  assert ((reqflags (setting_opt s) =? MM_OPT_NOVAL) && bool_decide (is_Some (setting_arg s)) = false) as ->.
  { destruct (setting_arg s); [|apply andb_false_r]. cbn in Har. apply Z.eqb_neq in Har as ->. done. }
  assert ((reqflags (setting_opt s) =? MM_OPT_NEEDVAL) && negb (bool_decide (is_Some (setting_arg s))) = false) as ->.
  { destruct (setting_arg s); [apply andb_false_r|]. cbn in Har. apply Z.eqb_neq in Har as ->. done. }
  rewrite Hval. unfold run_callback, accepting in *.
  destruct (p_cb parser) as [cb|]; cbn [fst snd].
  - assert ((cb lg (setting_opt s) val 0 <? 0) = false) as -> by (apply Z.ltb_ge, Hcb).
    unfold mm_arg_opt_set_value. destruct (opt_ptr _); cbn [negb].
    + rewrite Ht. exists 0. split; [|reflexivity]. by rewrite <- app_assoc.
    + exists 0. split; [|reflexivity]. by rewrite app_nil_r.
  - change (0 <? 0) with false. cbv iota. unfold mm_arg_opt_set_value. destruct (opt_ptr _); cbn [negb].
    + rewrite Ht. exists 0. split; reflexivity.
    + exists 0. split; [|reflexivity]. by rewrite app_nil_r.
Qed.

Lemma finds_only parser opt P f :
  only parser opt P -> finds (optv parser) P f -> f = Found opt.
Proof.
  intros (Hin & Hp & Hu) Hf. destruct f as [o| |]; cbn in Hf.
  - destruct Hf as (l1 & l2 & Hl & Ho & _). f_equal. apply Hu; [|done]. rewrite Hl. set_solver.
  - destruct Hf as [_ Hf]. rewrite Forall_forall in Hf. by apply Hf in Hin.
  - destruct Hf as [_ Hf]. rewrite Forall_forall in Hf. by apply Hf in Hin.
Qed.

Lemma find_only_key parser opt c :
  Forall option_ok (optv parser) -> key_char c -> only parser opt (fun o => has_key o c) ->
  find_opt parser (code c) [] = Some (Found opt).
Proof.
  intros Hok Hc Ho. destruct (find_in_finds (optv parser) (code c) [] (fun o => has_key o c)) as (f & Hf & Hs).
  - done.
  - intros o Hoo. apply match_key; [done|]. intros ->. by apply key_char_code in Hc.
  - unfold find_opt. rewrite Hf. f_equal. eapply finds_only; eauto.
Qed.

Lemma find_only_long parser opt name :
  Forall option_ok (optv parser) -> only parser opt (fun o => has_long o name) ->
  find_opt parser IGNORE_KEY name = Some (Found opt).
Proof.
  intros Hok Ho. destruct (find_in_finds (optv parser) IGNORE_KEY name (fun o => has_long o name)) as (f & Hf & Hs).
  - done.
  - intros o Hoo. by apply match_name.
  - unfold find_opt. rewrite Hf. f_equal. eapply finds_only; eauto.
Qed.

Lemma long_name_token l s :
  long_name l -> get_first_token_length (l ++ s) "=" = (length l + get_first_token_length s "=")%nat.
Proof.
  intros (c & d & r & -> & Hc & Hr).
  assert (Forall long_name_char (c :: d :: r)) as H by (constructor; [by left|done]).
  induction H as [|x xs Hx Hxs IH]; [done|]. cbn. rewrite bool_decide_false; [by rewrite IH|].
  intros ->. by destruct Hx as [Hx|[Hx|Hx]].
Qed.

(** One iteration of the loop for an argument given by its list of characters. *)
Lemma parse_loop_short fuel parser argv index lg c r lg' n :
  argv !! index = Some ("-"%char :: c :: r) -> key_char c ->
  process_short_opt parser (c :: r) (argv !! (index + 1)%nat) (index + 2 =? length argv)%nat lg
    = Some (lg', Z.of_nat n) ->
  parse_loop (S fuel) parser argv index lg = parse_loop fuel parser argv (index + n + 1) lg'.
Proof.
  intros Ha Hc Hp. cbn [parse_loop]. pose proof (lookup_lt_Some _ _ _ Ha) as Hl.
  apply Nat.ltb_lt in Hl as ->. cbn [negb]. rewrite Ha. cbn. autorewrite with peek. cbn.
  apply valid_short_key in Hc as ->. rewrite Hp. cbn.
  assert ((Z.of_nat n <? 0) = false) as -> by (apply Z.ltb_ge; lia). by rewrite Nat2Z.id.
Qed.

Lemma parse_loop_long fuel parser argv index lg l lg' :
  is_completing parser = false ->
  argv !! index = Some (cs "--" ++ l) -> (exists c r, l = c :: r /\ c <> NUL) ->
  process_long_opt parser l false lg = Some (lg', 0) ->
  parse_loop (S fuel) parser argv index lg = parse_loop fuel parser argv (index + 1) lg'.
Proof.
  intros Hn Ha (c & r & -> & Hc) Hp. cbn [parse_loop]. pose proof (lookup_lt_Some _ _ _ Ha) as Hl.
  apply Nat.ltb_lt in Hl as ->. cbn [negb]. rewrite Ha. cbn. autorewrite with peek. cbn.
  rewrite Hn, !andb_false_r. cbn.
  rewrite (bool_decide_true ("-"%char = "-"%char)) by done.
  rewrite (bool_decide_false (c = NUL)) by done. cbn. by rewrite Hp.
Qed.

#[local] Arguments process_opt_value : simpl never.

Lemma process_long_opt_setting parser opt name v lg :
  Forall option_ok (optv parser) -> accepting parser ->
  setting_ok parser (SetLong opt name v) ->
  process_long_opt parser (match v with Some v => name ++ cs "=" ++ v | None => name end) false lg
    = Some (lg ++ setting_events parser (SetLong opt name v), 0).
Proof.
  intros Hok Hcb Hs. destruct (process_setting parser _ lg Hcb Hs) as (rv & Hp & Hrv).
  destruct Hs as (_ & _ & Hname & Honly). cbn in Hp.
  unfold process_long_opt. destruct v as [v|].
  - rewrite long_name_token by done. cbn [cs list_ascii_of_string app get_first_token_length].
    rewrite bool_decide_true, Nat.add_0_r by done.
    rewrite take_app_length. unfold peek. rewrite decide_True by (rewrite length_app; cbn; lia).
    rewrite lookup_app_r by lia. rewrite Nat.sub_diag. cbn.
    rewrite (bool_decide_true ("="%char = "="%char)) by done.
    rewrite (find_only_long _ _ _ Hok Honly). cbn.
    replace (drop (length name + 1) (name ++ "="%char :: v)) with v; [by rewrite Hp, Hrv|].
    rewrite drop_app_ge by lia. by replace (length name + 1 - length name)%nat with 1%nat by lia.
  - pose proof (long_name_token name [] Hname) as Ht. rewrite app_nil_r in Ht. rewrite Ht. cbn.
    rewrite Nat.add_0_r. unfold peek. rewrite decide_False, decide_True by lia. cbn.
    rewrite (bool_decide_false (NUL = "="%char)) by done.
    rewrite take_ge by lia. rewrite (find_only_long _ _ _ Hok Honly). cbn. by rewrite Hp, Hrv.
Qed.

Lemma process_short_opt_setting parser s c next last lg :
  Forall option_ok (optv parser) -> accepting parser -> is_completing parser = false ->
  setting_ok parser s ->
  match s with
  | SetLong _ _ _ => False
  | SetFlag _ k => c = k
  | SetShort _ k v => c = k /\ next = Some v
  end ->
  process_short_opt parser [c] next last lg
    = Some (lg ++ setting_events parser s, Z.of_nat (length (render s) - 1)).
Proof.
  intros Hok Hcb Hn Hs Hc. destruct (process_setting parser _ lg Hcb Hs) as (rv & Hp & Hrv).
  unfold process_short_opt. rewrite Hn. cbn [andb short_loop].
  destruct s as [|opt k|opt k v]; [done| |]; cbn [setting_opt setting_arg] in Hp.
  - subst k. destruct Hs as (_ & _ & Hk & Honly & Hr). rewrite (find_only_key _ _ _ Hok Hk Honly). cbn.
    rewrite Hr. cbn. by rewrite Hp, Hrv.
  - destruct Hc as [-> ->]. destruct Hs as (Har & _ & Hk & Honly & Hv). rewrite (find_only_key _ _ _ Hok Hk Honly).
    cbn in Har. apply Z.eqb_neq in Har.
    cbn -[is_arg_an_option]. rewrite Har. cbn -[is_arg_an_option]. rewrite Hv. cbn. rewrite Hn. cbn. by rewrite Hp, Hrv.
Qed.

Lemma parse_loop_setting fuel parser s pre suf lg :
  Forall option_ok (optv parser) -> accepting parser -> is_completing parser = false ->
  setting_ok parser s ->
  parse_loop (S fuel) parser (pre ++ render s ++ suf) (length pre) lg
  = parse_loop fuel parser (pre ++ render s ++ suf) (length (pre ++ render s))
      (lg ++ setting_events parser s).
Proof.
  intros Hok Hcb Hn Hs.
  destruct s as [opt name v|opt c|opt c v].
  - pose proof (process_long_opt_setting parser opt name v lg Hok Hcb Hs) as Hp.
    destruct Hs as (_ & _ & (c & d & r & -> & Hc & _) & _).
    assert (c <> NUL) as Hc0 by (intros ->; done).
    erewrite parse_loop_long; [|done| |exists c|exact Hp].
    + rewrite length_app. f_equal. by destruct v.
    + rewrite lookup_app_r, Nat.sub_diag by lia. destruct v; done.
    + destruct v; eexists; split; done.
  - erewrite parse_loop_short.
    4: { eapply process_short_opt_setting; eauto. done. }
    + rewrite length_app. f_equal. cbn. lia.
    + rewrite lookup_app_r, Nat.sub_diag by lia. done.
    + apply Hs.
  - erewrite parse_loop_short.
    4: { eapply process_short_opt_setting; eauto. cbn. split; [done|].
         rewrite lookup_app_r by lia. replace (length pre + 1 - length pre)%nat with 1%nat by lia. done. }
    + rewrite length_app. f_equal. cbn. lia.
    + rewrite lookup_app_r, Nat.sub_diag by lia. done.
    + apply Hs.
Qed.

Definition sep_args (sep : bool) : list cstr := if sep then [cs "--"] else [].

Lemma parse_loop_end fuel parser pre (sep : bool) rest lg :
  is_completing parser = false ->
  (sep = false -> match rest with [] => True | a :: _ => ~ option_like a end) ->
  parse_loop (S fuel) parser (pre ++ sep_args sep ++ rest) (length pre) lg
  = Some (lg, Return (Z.of_nat (length (pre ++ sep_args sep)))).
Proof.
  intros Hn Hr. cbn [parse_loop]. destruct sep; cbn [sep_args app].
  - rewrite !length_app. cbn [length].
    assert ((length pre <? length pre + S (length rest))%nat = true) as -> by (apply Nat.ltb_lt; lia). cbn [negb].
    rewrite (lookup_app_r _ _ (length pre)), Nat.sub_diag by lia. cbn. rewrite Hn, andb_false_r. cbn. done.
  - rewrite app_nil_r. specialize (Hr eq_refl). destruct rest as [|a rest].
    + rewrite app_nil_r, Nat.ltb_irrefl. done.
    + rewrite !length_app. cbn [length].
      assert ((length pre <? length pre + S (length rest))%nat = true) as -> by (apply Nat.ltb_lt; lia). cbn [negb].
      rewrite (lookup_app_r _ _ (length pre)), Nat.sub_diag by lia. cbn.
      destruct a as [|c0 [|c1 a]]; autorewrite with peek; cbn; [done|..].
      * case_bool_decide; [subst c0; cbn|done]. by rewrite Hn, andb_false_r.
      * case_bool_decide; cbn; [subst c0|done].
        destruct (is_valid_short_opt_key (code c1)) eqn:Ek.
        { exfalso. apply Hr. exists c1, a. split; [done|]. left. by apply valid_short_key. }
        rewrite Hn, !andb_false_r. rewrite bool_decide_false; [done|].
        intros ->. apply Hr. exists "-"%char, a. split; [done|]. by right.
Qed.

Lemma parse_loop_settings ss parser pre sep rest lg fuel :
  Forall option_ok (optv parser) -> accepting parser -> is_completing parser = false ->
  Forall (setting_ok parser) ss ->
  (sep = false -> match rest with [] => True | a :: _ => ~ option_like a end) ->
  (length ss < fuel)%nat ->
  parse_loop fuel parser (pre ++ concat (map render ss) ++ sep_args sep ++ rest) (length pre) lg
  = Some (lg ++ concat (map (setting_events parser) ss),
          Return (Z.of_nat (length (pre ++ concat (map render ss) ++ sep_args sep)))).
Proof.
  intros Hok Hcb Hn Hs Hr. revert pre lg fuel.
  induction Hs as [|s ss Hs Hss IH]; intros pre lg fuel Hf; (destruct fuel as [|fuel]; [cbn in Hf; lia|]);
    cbn [map concat].
  - cbn [app]. by rewrite app_nil_r, parse_loop_end.
  - rewrite <- (app_assoc (render s)), parse_loop_setting by done.
    rewrite (app_assoc pre), IH by (cbn in Hf; lia). by rewrite <- !app_assoc.
Qed.

Lemma settings_parsed (parser : mm_arg_parser) (prog : cstr) (ss : list setting)
    (sep : bool) (rest : list cstr)
    (Hok : Forall option_ok (optv parser)) (Hz : names_terminated (optv parser))
    (Hcb : accepting parser) (Hn : is_completing parser = false)
    (Hs : Forall (setting_ok parser) ss)
    (Hr : sep = false -> match rest with [] => True | a :: _ => ~ option_like a end) :
  mm_arg_parse parser (prog :: (concat (map render ss) ++ sep_args sep) ++ rest)
  = Some (concat (map (setting_events parser) ss), Return (Z.of_nat (1 + length (concat (map render ss) ++ sep_args sep)))).
Proof.
  unfold mm_arg_parse.
  destruct (validate_options_cases (optv parser) [] Hz) as [[_ ->]|[H _]]; [|done].
  cbn -[parse_loop]. rewrite <- app_assoc.
  apply (parse_loop_settings ss parser [prog] sep rest []); try done.
  cbn. rewrite length_app. enough (length ss <= length (concat (map render ss)))%nat by lia.
  clear. induction ss as [|s ss IH]; [done|]. cbn. rewrite length_app.
  enough (1 <= length (render s))%nat by lia. destruct s as [? ? []| |]; cbn; lia.
Qed.

(** C24. Round trip.  The settings of a command line are read back: given the
    arguments [--name], [--name=value], [-c] and [-c value] that denote a list
    of settings, then possibly ["--"], then operands, the parser performs
    exactly these settings in order (callback, then store, of the
    converted value or of the default) and returns the index of the operands. *)
Theorem mm_arg_parse_settings (parser : mm_arg_parser) (prog : cstr) (ss : list setting)
    (sep : bool) (rest : list cstr)
    (Hok : Forall option_ok (optv parser)) (Hz : names_terminated (optv parser))
    (Hcb : accepting parser) (Hn : is_completing parser = false)
    (Hs : Forall (setting_ok parser) ss)
    (Hr : sep = false -> match rest with [] => True | a :: _ => ~ option_like a end) :
  let args := concat (map render ss) ++ sep_args sep in
  mm_arg_parse parser (prog :: args ++ rest)
  = Some (concat (map (setting_events parser) ss), Return (Z.of_nat (1 + length args))).
Proof. by apply settings_parsed. Qed.

Lemma mm_arg_parse_settings_witness :
  let v := mk_opt (Some (cs "v")) MM_OPT_NOVAL (Some (cs "on")) true None in
  let parser := mk_parser 0 [opt_n; v] None in
  mm_arg_parse parser [cs "prog"; cs "--number=0x10"; cs "-v"; cs "-n"; cs "-5"; cs "--"; cs "-x"]
  = Some ([EvSet opt_n (ValInt 16); EvSet v (ValStr (Some (cs "on"))); EvSet opt_n (ValInt (-5))], Return 6).
Proof.
  intros v parser.
  assert (option_ok v) as Hv.
  { exists (cs "v"), (Some "v"%char), None. split; [done|]. split; [constructor|]. split; [|done].
    intros c [= <-]. by left. }
  apply (mm_arg_parse_settings parser (cs "prog")
    [SetLong opt_n (cs "number") (Some (cs "0x10")); SetFlag v "v"; SetShort opt_n "n" (cs "-5")] true [cs "-x"]).
  - repeat constructor; [apply opt_n_ok|apply Hv].
  - intros opt n Ho Hn. cbn in Ho. rewrite !elem_of_cons, elem_of_nil in Ho.
    destruct Ho as [-> |[-> |[]]]; cbn in Hn; injection Hn as <-; unfold no_nul; by apply (bool_decide_unpack _).
  - exact I.
  - reflexivity.
  - assert (only parser opt_n (fun o => has_key o "n"%char)) as H1.
    { split; [by left|]. split; [eexists _, _; split; [done|constructor]|].
      intros o Ho (n & l & H1 & H2). cbn in Ho. rewrite !elem_of_cons, elem_of_nil in Ho.
      destruct Ho as [-> |[-> |[]]]; [done|]. cbn in H1. injection H1 as <-. inversion H2. }
    assert (only parser opt_n (fun o => has_long o (cs "number"))) as H2.
    { split; [by left|]. split; [eexists _, _; split; [done|constructor]|].
      intros o Ho (n & l & H2 & H3). cbn in Ho. rewrite !elem_of_cons, elem_of_nil in Ho.
      destruct Ho as [-> |[-> |[]]]; [done|]. cbn in H2. injection H2 as <-. inversion H3. }
    assert (only parser v (fun o => has_key o "v"%char)) as H3.
    { split; [by right; left|]. split; [eexists _, _; split; [done|constructor]|].
      intros o Ho (n & l & H3 & H4). cbn in Ho. rewrite !elem_of_cons, elem_of_nil in Ho.
      destruct Ho as [-> |[-> |[]]]; [|done]. cbn in H3. injection H3 as <-. inversion H4. }
    repeat constructor; try done; try (by eexists); try (by left); try apply H1; try apply H2; try apply H3.
    exists "n"%char, "u"%char, (cs "mber"). split; [done|]. split; [done|]. repeat constructor; by left.
  - done.
Defined.

(** ** Completion *)

(** How a long option is proposed. *)
Definition longopt_forms (opt : mm_arg_opt) (l : cstr) : list cstr :=
  if reqflags opt =? MM_OPT_NOVAL then [cs "--" ++ l]
  else if reqflags opt =? MM_OPT_NEEDVAL then [cs "--" ++ l ++ cs "="]
  else if reqflags opt =? MM_OPT_OPTVAL then [cs "--" ++ l ++ cs "="; cs "--" ++ l]
  else [].

Lemma complete_each_lines opts arg lg :
  Forall option_ok opts ->
  exists lines, complete_each opts arg lg = Some (lg ++ map EvCandidate lines)
    /\ forall line, line ∈ lines <->
         exists opt l, opt ∈ opts /\ has_long opt l /\ (exists r, l = arg ++ r) /\ line ∈ longopt_forms opt l.
Proof.
  intros Hok. revert lg. induction Hok as [|o opts Ho Hok IH]; intros lg.
  { exists []. cbn. rewrite app_nil_r. split; [done|]. intros line. set_solver. }
  assert (exists new, complete_longopt o arg lg = Some (lg ++ map EvCandidate new)
    /\ forall line, line ∈ new <->
         exists l, has_long o l /\ (exists r, l = arg ++ r) /\ line ∈ longopt_forms o l) as (new & Hnew & Hin).
  { destruct Ho as (n & k & l & Hn & Hk & _). unfold complete_longopt.
    rewrite (named_long _ _ _ _ Hn Hk). cbn.
    assert (forall l', has_long o l' <-> l = Some l') as Hl.
    { intros l'. split; [|intros ->; by exists n, k].
      intros (n' & k' & Hn' & Hk'). rewrite Hn in Hn'. simplify_eq. by destruct (named_inj _ _ _ _ _ Hk Hk'). }
    destruct l as [l|].
    2: { exists []. cbn. rewrite app_nil_r. split; [done|]. intros line. setoid_rewrite Hl. set_solver. }
    destruct (starts_with arg l) eqn:Es; cbn.
    - exists (longopt_forms o l). split.
      + unfold longopt_forms. repeat case_test; by rewrite ?app_nil_r.
      + intros line. split; [|by intros (l' & [= <-]%Hl & _ & H)].
        intros H. exists l. split; [by apply Hl|]. split; [by apply starts_with_spec|done].
    - exists []. cbn. rewrite app_nil_r. split; [done|]. intros line. split; [set_solver|].
      intros (l' & [= <-]%Hl & H & _). apply starts_with_spec in H. congruence. }
  destruct (IH (lg ++ map EvCandidate new)) as (lines & Hl & Hm). cbn [complete_each]. rewrite Hnew. cbn.
  exists (new ++ lines). rewrite Hl, map_app, app_assoc. split; [done|].
  intros line. rewrite elem_of_app, Hin, Hm. setoid_rewrite elem_of_cons. split.
  - intros [(l & H)|(opt & l & H & H')]; [exists o, l; tauto|exists opt, l; tauto].
  - intros (opt & l & [-> |H] & H'); [left; eauto|right; eauto 10].
Qed.

Lemma token_whole s c : c ∉ s -> get_first_token_length s c = length s.
Proof.
  induction s as [|d s IH]; intros H; [done|]. cbn. rewrite bool_decide_false by set_solver.
  by rewrite IH by set_solver.
Qed.

(** In completion mode, a last argument [--arg] without [=] prints exactly
    the long options that begin with [arg], the help option included, with a
    final [=] for those that need a value and both forms for those
    that can take one; nothing else happens, and the parser stops with
    [MM_ARGPARSE_COMPLETE], or ends the process successfully. *)
Theorem completion_of_long_option (parser : mm_arg_parser) (prog arg : cstr)
    (Hok : Forall option_ok (optv parser)) (Hz : names_terminated (optv parser))
    (Hc : is_completing parser = true) (Ha : "="%char ∉ arg) :
  exists lines,
    mm_arg_parse parser [prog; cs "--" ++ arg] =
      Some (map EvCandidate lines,
            if no_exit parser then Return MM_ARGPARSE_COMPLETE else Exit EXIT_SUCCESS)
    /\ forall line, line ∈ lines <->
         exists opt l, opt ∈ optv parser ++ [help_opt] /\ has_long opt l
           /\ (exists r, l = arg ++ r) /\ line ∈ longopt_forms opt l.
Proof.
  destruct (complete_each_lines (optv parser ++ [help_opt]) arg []) as (lines & Hl & Hm).
  { apply Forall_app_2; [done|]. repeat constructor. apply help_opt_ok. }
  exists lines. split; [|done]. unfold mm_arg_parse.
  destruct (validate_options_cases (optv parser) [] Hz) as [[_ ->]|[H _]]; [|done].
  cbn. autorewrite with peek. cbn.
  rewrite (bool_decide_true ("-"%char = "-"%char)) by done. cbn. rewrite Hc. cbn.
  destruct (peek_is_Some arg 0) as [c2 ->]; [lia|]. cbn. rewrite andb_false_r.
  unfold process_long_opt. rewrite ?drop_0, token_whole by done.
  unfold peek. rewrite decide_False, decide_True by lia. cbn.
  unfold complete_longopts. rewrite Hl. cbn. unfold early_stop_parsing. cbn.
  unfold no_exit. by destruct (Z.land _ _ =? 0).
Qed.

Lemma completion_of_long_option_witness :
  exists lines,
    mm_arg_parse (mk_parser MM_ARG_PARSER_COMPLETION [opt_n] None) [cs "prog"; cs "--nu"]
      = Some (map EvCandidate lines, Exit EXIT_SUCCESS)
    /\ (cs "--number=") ∈ lines.
Proof.
  destruct (completion_of_long_option (mk_parser MM_ARG_PARSER_COMPLETION [opt_n] None) (cs "prog") (cs "nu"))
    as (lines & H1 & H2).
  - repeat constructor. apply opt_n_ok.
  - apply opt_n_terminated.
  - reflexivity.
  - by apply (bool_decide_unpack _).
  - exists lines. split; [exact H1|]. apply H2. exists opt_n, (cs "number").
    split; [left|]. split; [eexists _, _; split; [done|constructor]|].
    split; [by exists (cs "mber")|]. vm_compute. left.
Defined.
