(* ===== verification/ArgHelp.v ===== *)
(** * Help of the command line parser

    The printing functions of [argparse.c]: guess of the name of a value from
    the description of an option, synopsis of an option, wrapped text, usage.
    A printed text is the list of its characters, the lines of a wrapped text
    are given without their line feed.  [None] is a write beyond the end of a
    buffer (or a read beyond the end of a string). *)

From S2P Require Import Prelude CStr Argparse.

Definition OPT_INDENT_LEN : nat := 30.
Definition LINE_MAXLENGTH : nat := 80.
Definition VALUE_NAME_MAXLEN : nat := 16.
Definition LONGOPT_NAME_MAXLEN : nat := 32.
Definition OPT_SYNOPSIS_MAXLEN : nat := VALUE_NAME_MAXLEN + LONGOPT_NAME_MAXLEN + 16.
Definition TYPE_DOC_LEN : nat := VALUE_NAME_MAXLEN + 64.

Definition LF : ascii := "010".
Definition SP : ascii := " ".

(** ** Value names *)

Definition is_char_valid_for_value_name (ch : ascii) : bool :=
  is_upper ch || bool_decide (ch = "-"%char) || bool_decide (ch = "_"%char).

(** [str] is what is left from the character [i] on. *)
Fixpoint value_name_loop (str : cstr) (i : nat) : nat :=
  match str with
  | [] => 0
  | ch :: str' =>
      if negb (i <? VALUE_NAME_MAXLEN)%nat then 0
      else if is_char_valid_for_value_name ch then value_name_loop str' (S i)
      else if (1 <? i)%nat then i
      else value_name_loop str' (S i)
  end.

Definition validate_value_name (str : cstr) : nat := value_name_loop str 0.

Definition match_value (str valname : cstr) : bool :=
  starts_with valname str
  && negb match drop (length valname) str with
          | ch :: _ => is_char_valid_for_value_name ch
          | [] => false
          end.

(** The loop of [copy_opt_desc]: [prev] is [src[-1]] ([None] at the start),
    [valname] the name found.  The description copied and the value name. *)
Fixpoint copy_loop (fuel : nat) (prev : option ascii) (valname : option cstr) (src : cstr)
    : option (cstr * option cstr) :=
  match fuel with
  | O => None
  | S fuel =>
      match src with
      | [] => Some ([], valname)
      | ch :: src' =>
          let copy_char :=
            '(dst, v) ← copy_loop fuel (Some ch) valname src'; Some (ch :: dst, v) in
          let copy_name name :=
            '(dst, v) ← copy_loop fuel (list.last name) (Some name) (drop (length name) src');
            Some (name ++ dst, v) in
          if bool_decide (ch = "@"%char) && negb match prev with Some p => isalnum p | None => false end then
            match valname with
            | None =>
                let namelen := validate_value_name src' in
                if negb (namelen =? 0)%nat then
                  if (namelen <? VALUE_NAME_MAXLEN)%nat then copy_name (take namelen src') else None
                else copy_char
            | Some name => if match_value src' name then copy_name name else copy_char
            end
          else copy_char
      end
  end.

Definition copy_opt_desc (src : cstr) : option (cstr * option cstr) :=
  copy_loop (S (length src)) None None src.

(** ** Wrapped text *)

(** [len] goes back to a space; [maxlen] if there is none. *)
Fixpoint find_break (text : cstr) (maxlen len : nat) : option nat :=
  match len with
  | O => Some maxlen
  | S l =>
      ch ← peek text len;
      if bool_decide (ch = SP) then Some len
      else match l with O => Some maxlen | S _ => find_break text maxlen l end
  end.

Fixpoint count_spaces (text : cstr) : nat :=
  match text with
  | ch :: text' => if bool_decide (ch = SP) then S (count_spaces text') else 0
  | [] => 0
  end.

(** The parts printed on each line. *)
Fixpoint wrap_loop (fuel : nat) (maxlen : nat) (text : cstr) : option (list cstr) :=
  match fuel with
  | O => None
  | S fuel =>
      let len := get_first_token_length text LF in
      len ← (if (maxlen <=? len)%nat then find_break text maxlen maxlen else Some len);
      ch ← peek text len;
      let skip := if bool_decide (ch = LF) then S len else len in
      let rest := drop (skip + count_spaces (drop skip text)) text in
      match rest with
      | [] => Some [take len text]
      | _ => parts ← wrap_loop fuel maxlen rest; Some (take len text :: parts)
      end
  end.

Definition pad (n : nat) (s : cstr) : cstr := s ++ replicate (n - length s) SP.

(** The header stands before the first part only. *)
Fixpoint layout (align_len : nat) (header : cstr) (parts : list cstr) : list cstr :=
  match parts with
  | [] => []
  | p :: parts' => (pad align_len header ++ p) :: layout align_len [] parts'
  end.

Definition print_text_wrapped (line_maxlen : nat) (text : cstr) (align_len : nat) (header : cstr)
    : option (list cstr) :=
  parts ← wrap_loop (S (length text)) (line_maxlen - align_len) text;
  Some (layout align_len header parts).

(** ** Synopsis and documentation of an option *)

Definition key_synopsis (key : Z) (rf : Z) (valname : cstr) : cstr :=
  let k := ascii_of_N (Z.to_N key) in
  if rf =? MM_OPT_NOVAL then ["-"%char; k]
  else if rf =? MM_OPT_NEEDVAL then ["-"%char; k; SP] ++ valname
  else ["-"%char; k; SP; "["%char] ++ valname ++ cs "]".

Definition name_synopsis (name : cstr) (rf : Z) (valname : cstr) : cstr :=
  if rf =? MM_OPT_NOVAL then cs "--" ++ name
  else if rf =? MM_OPT_NEEDVAL then cs "--" ++ name ++ cs "=" ++ valname
  else cs "--" ++ name ++ cs "[=" ++ valname ++ cs "]".

Definition set_option_synopsis (opt : mm_arg_opt) (valname : cstr) : option cstr :=
  key ← mm_arg_opt_get_key opt;
  name ← mm_arg_opt_get_name opt;
  Some (cs "  "
        ++ (if key =? 0 then [] else key_synopsis key (reqflags opt) valname)
        ++ (match name with Some _ => if key =? 0 then [] else cs ", " | None => [] end)
        ++ (match name with Some n => name_synopsis n (reqflags opt) valname | None => [] end)).

Definition type_doc (opt : mm_arg_opt) (desc_len : nat) (value_name : cstr) : cstr :=
  let type := mm_arg_opt_get_type opt in
  if negb (type =? MM_OPT_STR) && negb (reqflags opt =? MM_OPT_NOVAL) then
    (if (desc_len =? 0)%nat then [] else cs " ") ++ value_name ++ cs " must be a"
    ++ (if (type =? MM_OPT_UINT) || (type =? MM_OPT_ULLONG) then cs " non negative" else cs "n")
    ++ cs " integer."
  else [].

Definition fits (s : cstr) (size : nat) : option unit := if (length s <? size)%nat then Some tt else None.

(** The lines printed. *)
Definition print_option (opt : mm_arg_opt) : option (list cstr) :=
  let opt_desc := default [] (opt_desc opt) in
  let desc_size := (length opt_desc + TYPE_DOC_LEN)%nat in
  '(desc, found) ← copy_opt_desc opt_desc;
  _ ← fits desc desc_size;
  let value_name := default (cs "VALUE") found in
  synopsis ← set_option_synopsis opt value_name;
  _ ← fits synopsis OPT_SYNOPSIS_MAXLEN;
  let too_long := (OPT_INDENT_LEN <=? length synopsis)%nat in
  let td := type_doc opt (length opt_desc) value_name in
  _ ← fits td TYPE_DOC_LEN;
  _ ← fits (desc ++ td) desc_size;
  lines ← print_text_wrapped LINE_MAXLENGTH (desc ++ td) OPT_INDENT_LEN (if too_long then [] else synopsis);
  Some ((if too_long then [synopsis] else []) ++ lines).

(** ** Usage *)

(** The documentation fields of [struct mm_arg_parser]. *)
Record parser_doc := mk_doc { execname : option cstr; args_doc : option cstr; doc : option cstr }.

Fixpoint skip_lf (s : cstr) : cstr :=
  match s with
  | ch :: s' => if bool_decide (ch = LF) then skip_lf s' else s
  | [] => []
  end.

Fixpoint synopsis_lines (fuel : nat) (execname args_doc : cstr) : option (list cstr) :=
  match fuel with
  | O => None
  | S fuel =>
      match args_doc with
      | [] => Some []
      | _ =>
          let len := get_first_token_length args_doc LF in
          lines ← synopsis_lines fuel execname (skip_lf (drop len args_doc));
          Some ((cs "  " ++ execname ++ cs " " ++ take len args_doc) :: lines)
      end
  end.

Definition print_synopsis (d : parser_doc) : option (list cstr) :=
  let args := default (cs "[options] args...") (args_doc d) in
  synopsis_lines (S (length args)) (default (cs "PROGRAM") (execname d)) args.

Fixpoint print_options (opts : list mm_arg_opt) : option (list cstr) :=
  match opts with
  | [] => Some []
  | opt :: opts' => l1 ← print_option opt; l2 ← print_options opts'; Some (l1 ++ l2)
  end.

Definition print_help (d : parser_doc) (opts : list mm_arg_opt) : option (list cstr) :=
  synopsis ← print_synopsis d;
  text ← match doc d with
         | Some t => lines ← print_text_wrapped LINE_MAXLENGTH t 0 []; Some ([[]] ++ lines ++ [[]])
         | None => Some []
         end;
  options ← print_options (opts ++ [help_opt]);
  Some ([cs "Usage:"] ++ synopsis ++ text ++ [[]; cs "Options:"] ++ options).

Example print_option_example :
  print_option (mk_opt (Some (cs "n|number")) (MM_OPT_NEEDVAL + MM_OPT_UINT) None true
                  (Some (cs "use @NUM workers, @NUM@NUM at most.")))
  = Some [cs "  -n NUM, --number=NUM        use NUM workers, NUM@NUM at most. NUM must be a";
          cs "                              non negative integer."].
Proof. vm_compute. reflexivity. Qed.

(** ** Wrapping *)

(** What may disappear between two lines. *)
Definition separator (sep : cstr) : Prop :=
  exists (lf : bool) n, sep = (if lf then [LF] else []) ++ replicate n SP.

Definition part_ok (maxlen : nat) (p : cstr) : Prop := (length p <= maxlen)%nat /\ LF ∉ p.

(** A text and the parts printed: only separators are lost, and a word is cut
    only if it is longer than a line. *)
Inductive wrapped (maxlen : nat) : cstr -> list cstr -> Prop :=
| WrapLast p sep : part_ok maxlen p -> separator sep -> wrapped maxlen (p ++ sep) [p]
| WrapMore p sep rest parts :
    part_ok maxlen p -> separator sep -> rest <> [] ->
    (sep = [] -> length p = maxlen /\ SP ∉ drop 1 p /\ head rest <> Some SP) ->
    wrapped maxlen rest parts ->
    wrapped maxlen (p ++ sep ++ rest) (p :: parts).

Lemma peek_lt s i : (i < length s)%nat -> peek s i = s !! i.
Proof. intros H. unfold peek. by rewrite decide_True. Qed.

Lemma find_break_spec text maxlen len :
  (len <= length text)%nat ->
  exists k, find_break text maxlen len = Some k
    /\ ((k = maxlen /\ forall j, (1 <= j <= len)%nat -> text !! j <> Some SP)
        \/ ((1 <= k <= len)%nat /\ text !! k = Some SP)).
Proof.
  induction len as [|l IH]; intros Hl; cbn; [exists maxlen; split; [done|]; left; split; [done|]; lia|].
  destruct (peek_is_Some text (S l) Hl) as [ch Hch]. rewrite Hch. cbn. case_bool_decide as Hs.
  - subst ch. exists (S l). split; [done|]. right. split; [lia|].
    unfold peek in Hch. case_decide; [done|]. by case_decide.
  - assert (text !! S l <> Some SP) as Hn.
    { intros H. rewrite peek_lt in Hch by (by apply lookup_lt_Some in H). congruence. }
    destruct l as [|l'].
    + exists maxlen. split; [done|]. left. split; [done|]. intros j Hj. by replace j with 1%nat by lia.
    + destruct IH as (k & -> & Hk); [lia|]. exists k. split; [done|].
      destruct Hk as [[-> Hk]|[Hk Hk']]; [left|right; split; [lia|done]].
      split; [done|]. intros j Hj. destruct (decide (j = S (S l'))) as [-> |]; [done|]. apply Hk. lia.
Qed.

Lemma token_no_break s c : c ∉ take (get_first_token_length s c) s.
Proof.
  induction s as [|d s IH]; cbn; [set_solver|]. case_bool_decide; cbn; [set_solver|]. set_solver.
Qed.

Lemma token_end s c : (get_first_token_length s c < length s)%nat -> s !! get_first_token_length s c = Some c.
Proof.
  induction s as [|d s IH]; cbn; [lia|]. case_bool_decide as Hd; cbn; [by subst|]. intros H. apply IH. lia.
Qed.

Lemma count_spaces_spec s :
  exists r, s = replicate (count_spaces s) SP ++ r /\ head r <> Some SP
    /\ drop (count_spaces s) s = r.
Proof.
  induction s as [|d s IH]; cbn; [by exists []|]. case_bool_decide; cbn.
  - subst d. destruct IH as (r & H1 & H2 & H3). exists r. split; [by f_equal|done].
  - exists (d :: s). split; [done|]. split; [|done]. cbn. congruence.
Qed.

(** Where a line ends: before a break, at a space, or at the width. *)
Lemma wrap_length text maxlen :
  (0 < maxlen)%nat ->
  let tok := get_first_token_length text LF in
  exists len, (if (maxlen <=? tok)%nat then find_break text maxlen maxlen else Some tok) = Some len
    /\ (len <= tok)%nat /\ (len <= maxlen)%nat /\ (len = 0%nat -> tok = 0%nat)
    /\ (len = tok \/ text !! len = Some SP
        \/ (len = maxlen /\ forall j, (1 <= j <= maxlen)%nat -> text !! j <> Some SP)).
Proof.
  intros Hm tok. pose proof (get_first_token_length_le text LF) as Ht. fold tok in Ht.
  destruct (maxlen <=? tok)%nat eqn:E; zbool;
    [|exists tok; split; [done|]; split; [lia|]; split; [lia|]; split; [lia|by left]].
  destruct (find_break_spec text maxlen maxlen) as (k & -> & Hk); [lia|]. exists k. split; [done|].
  destruct Hk as [[-> Hk]|[Hk Hk']]; (split; [lia|]; split; [lia|]; split; [lia|]); auto.
Qed.

(** One line: what is printed, what is skipped, what is left. *)
Lemma wrap_step text maxlen :
  (0 < maxlen)%nat ->
  exists len ch, (if (maxlen <=? get_first_token_length text LF)%nat
                  then find_break text maxlen maxlen else Some (get_first_token_length text LF)) = Some len
    /\ peek text len = Some ch
    /\ let skip := if bool_decide (ch = LF) then S len else len in
       let rest := drop (skip + count_spaces (drop skip text)) text in
       exists sep, text = take len text ++ sep ++ rest /\ part_ok maxlen (take len text) /\ separator sep
         /\ (rest <> [] -> sep = [] -> length (take len text) = maxlen /\ SP ∉ drop 1 (take len text) /\ head rest <> Some SP)
         /\ (text <> [] -> (length rest < length text)%nat).
Proof.
  intros Hm. set (tok := get_first_token_length text LF).
  pose proof (get_first_token_length_le text LF) as Ht. fold tok in Ht.
  destruct (wrap_length text maxlen Hm) as (len & Elen & H1 & H2 & H3 & H4). fold tok in Elen, H1, H3, H4. rewrite Elen.
  destruct (peek_is_Some text len) as [ch Hch]; [lia|]. exists len, ch. split; [done|]. split; [done|]. cbv zeta.
  assert (length (take len text) = len) as Hlen by (rewrite length_take; lia).
  assert (part_ok maxlen (take len text)) as Hpart.
  { split; [lia|]. intros Hin. apply (token_no_break text LF). fold tok.
    rewrite <- (take_drop len (take tok text)), take_take, Nat.min_l by lia. set_solver. }
  set (skip := if bool_decide (ch = LF) then S len else len).
  destruct (count_spaces_spec (drop skip text)) as (r & Hr & Hhd & Hd).
  rewrite <- drop_drop, Hd. rewrite drop_drop in Hd.
  assert (drop len text = (if bool_decide (ch = LF) then [LF] else []) ++ drop skip text) as Hskip.
  { unfold skip. case_bool_decide as Hlf; [|done]. subst ch.
    apply drop_S. unfold peek in Hch. case_decide; [done|]. by case_decide. }
  exists ((if bool_decide (ch = LF) then [LF] else []) ++ replicate (count_spaces (drop skip text)) SP).
  split; [|split; [done|split; [by eexists _, _|split]]].
  - rewrite <- app_assoc, <- Hr, <- Hskip. by rewrite take_drop.
  - intros Hne Hsep. apply app_eq_nil in Hsep as [Hs1 Hs2]. rewrite Hs1 in Hskip. cbn in Hskip.
    rewrite Hs2 in Hr. cbn in Hr. rewrite Hr in Hskip. rewrite Hlen.
    assert (text !! len = head r) as Hh by (rewrite <- Hskip; by rewrite <- (lookup_drop_0 len) || (rewrite head_lookup, lookup_drop; f_equal; lia)).
    assert (len < length text)%nat as Hlt.
    { destruct r as [|x r]; [done|]. apply (f_equal length) in Hskip. rewrite length_drop in Hskip. cbn in Hskip. lia. }
    destruct H4 as [-> |[H4|[-> H4]]].
    + exfalso. unfold tok in Hlt. pose proof (token_end _ _ Hlt) as He. fold tok in He.
      rewrite peek_lt in Hch by done. rewrite He in Hch. injection Hch as <-. by rewrite bool_decide_true in Hs1.
    + congruence.
    + split; [done|]. split; [|done]. intros Hin. apply list_elem_of_lookup_1 in Hin as [j Hj].
      rewrite lookup_drop in Hj. apply lookup_take_Some in Hj as [Hj Hj']. apply (H4 (1 + j)%nat); [lia|done].
  - intros Hne. apply (f_equal length) in Hr. rewrite length_app, length_replicate, length_drop in Hr.
    destruct text as [|x text]; [done|]. cbn [length] in *.
    destruct (decide (len = 0%nat)) as [E|]; [|unfold skip in Hr; case_bool_decide; lia].
    rewrite E in *. assert (ch = LF) as ->.
    { rewrite peek_head in Hch. injection Hch as <-.
      assert (tok < S (length text))%nat as Hlt by lia. pose proof (token_end _ _ Hlt) as He.
      fold tok in He. rewrite H3 in He by done. by injection He. }
    unfold skip in Hr. rewrite bool_decide_true in Hr by done. lia.
Qed.

Lemma wrap_loop_spec fuel text maxlen :
  (0 < maxlen)%nat -> (length text < fuel)%nat ->
  exists parts, wrap_loop fuel maxlen text = Some parts /\ wrapped maxlen text parts.
Proof.
  intros Hm. revert text. induction fuel as [|fuel IH]; intros text Hf; [lia|]. cbn [wrap_loop].
  destruct (wrap_step text maxlen Hm) as (len & ch & -> & Hch & sep & Ht & Hp & Hs & Hb & Hl). cbn [mbind option_bind].
  rewrite Hch. cbn [mbind option_bind].
  set (rest := drop _ text) in *. destruct rest as [|x r] eqn:Er.
  - exists [take len text]. split; [done|]. rewrite app_nil_r in Ht. rewrite Ht at 1. by constructor.
  - destruct (IH (x :: r)) as (parts & -> & Hw).
    { enough (text <> []) by (specialize (Hl ltac:(done)); lia). intros ->. destruct len, sep; done. }
    exists (take len text :: parts). split; [done|]. rewrite Ht at 1. constructor; auto. 
Qed.

Lemma wrapped_parts maxlen text parts :
  wrapped maxlen text parts -> Forall (fun p => (length p <= maxlen)%nat) parts.
Proof. induction 1 as [p sep [H _]|p sep rest parts [H _] _ _ _ _ IH]; by constructor. Qed.

Lemma layout_width n header parts maxlen :
  (length header <= n)%nat -> Forall (fun p => (length p <= maxlen)%nat) parts ->
  Forall (fun line => (length line <= n + maxlen)%nat) (layout n header parts).
Proof.
  intros Hh Hp. revert header Hh. induction Hp as [|p parts Hp Hps IH]; intros header Hh; cbn; constructor.
  - unfold pad. rewrite !length_app, length_replicate. lia.
  - apply IH. cbn. lia.
Qed.

(** Wrapping a text terminates.  No line printed is longer than
    [line_maxlen]; nothing of the text is lost except, at the end of a line,
    one line feed and spaces; every line feed of the text ends a line, and a
    line ends inside a word only if the word alone fills it. *)
Theorem print_text_wrapped_layout (line_maxlen align_len : nat) (text header : cstr)
    (Ha : (align_len < line_maxlen)%nat) (Hh : (length header <= align_len)%nat) :
  exists parts,
    print_text_wrapped line_maxlen text align_len header = Some (layout align_len header parts)
    /\ wrapped (line_maxlen - align_len) text parts
    /\ Forall (fun line => (length line <= line_maxlen)%nat) (layout align_len header parts).
Proof.
  destruct (wrap_loop_spec (S (length text)) text (line_maxlen - align_len)) as (parts & Hw & Hp); [lia|lia|].
  exists parts. unfold print_text_wrapped. rewrite Hw. split; [done|]. split; [done|].
  eapply Forall_impl; [apply (layout_width align_len header parts (line_maxlen - align_len)); [done|]|].
  - by eapply wrapped_parts.
  - cbn. lia.
Qed.

Lemma print_text_wrapped_layout_witness :
  exists parts, wrapped 6 (cs "abc de fghijklmn") parts /\ print_text_wrapped 10 (cs "abc de fghijklmn") 4 (cs "x")
    = Some (layout 4 (cs "x") parts).
Proof.
  destruct (print_text_wrapped_layout 10 4 (cs "abc de fghijklmn") (cs "x")) as (parts & H1 & H2 & _).
  - lia.
  - cbn. lia.
  - exists parts. split; [exact H2|exact H1].
Defined.

(** ** Descriptions *)

(** A description is a sequence of plain characters and of references to the
    value name, printed without their mark. *)
Inductive token := Plain (ch : ascii) | Ref (name : cstr).

Definition raw (t : token) : cstr := match t with Plain ch => [ch] | Ref name => "@"%char :: name end.
Definition cooked (t : token) : cstr := match t with Plain ch => [ch] | Ref name => name end.

Definition refers_to (v : option cstr) (t : token) : Prop :=
  match t with Plain _ => True | Ref name => v = Some name end.

Lemma value_name_loop_bound str i :
  (i <= VALUE_NAME_MAXLEN)%nat ->
  (value_name_loop str i < VALUE_NAME_MAXLEN)%nat
  /\ (value_name_loop str i = 0%nat \/ (i <= value_name_loop str i < i + length str)%nat).
Proof.
  revert i. induction str as [|ch str IH]; intros i Hi; cbn [value_name_loop length]; [split; [unfold VALUE_NAME_MAXLEN; lia|by left]|].
  destruct (i <? VALUE_NAME_MAXLEN)%nat eqn:E; cbn [negb]; zbool; [|split; [unfold VALUE_NAME_MAXLEN; lia|by left]].
  destruct (IH (S i)) as [H1 H2]; [lia|].
  destruct (is_char_valid_for_value_name ch); [split; [done|]; destruct H2; [by left|right; lia]|].
  case_test; [split; [done|right; lia]|]. split; [done|]. destruct H2; [by left|right; lia].
Qed.

Lemma match_value_prefix str name : match_value str name = true -> exists r, str = name ++ r.
Proof. unfold match_value. rewrite andb_true_iff, starts_with_spec. by intros [? _]. Qed.

(** What [copy_loop] promises. *)
Definition copied (valname : option cstr) (src dst : cstr) (v : option cstr) : Prop :=
  exists toks, src = concat (map raw toks) /\ dst = concat (map cooked toks)
    /\ Forall (refers_to v) toks
    /\ (forall name, valname = Some name -> v = Some name)
    /\ (forall name, v = Some name -> valname = Some name \/ (0 < length name < VALUE_NAME_MAXLEN)%nat).

Lemma copied_char valname ch src dst v :
  copied valname src dst v -> copied valname (ch :: src) (ch :: dst) v.
Proof.
  intros (toks & -> & -> & Ht & H). exists (Plain ch :: toks). cbn. split; [done|]. split; [done|].
  split; [by constructor|done].
Qed.

Lemma copied_name valname name src dst v :
  copied (Some name) src dst v ->
  valname = Some name \/ valname = None /\ (0 < length name < VALUE_NAME_MAXLEN)%nat ->
  copied valname ("@"%char :: name ++ src) (name ++ dst) v.
Proof.
  intros (toks & -> & -> & Ht & H1 & H2) Hv. exists (Ref name :: toks). cbn.
  split; [done|]. split; [done|]. split; [constructor; [by apply H1|done]|]. split.
  - intros n Hn. destruct Hv as [-> |[-> _]]; [|done]. by apply H1.
  - intros n Hn. specialize (H1 _ eq_refl). rewrite H1 in Hn. injection Hn as <-.
    destruct Hv as [-> |[-> Hv]]; auto.
Qed.

Lemma copy_loop_copied fuel prev valname src :
  (length src < fuel)%nat ->
  exists dst v, copy_loop fuel prev valname src = Some (dst, v) /\ copied valname src dst v.
Proof.
  revert prev valname src. induction fuel as [|fuel IH]; intros prev valname src Hf; [lia|].
  destruct src as [|ch src]; cbn [copy_loop].
  { exists [], valname. split; [done|]. exists []. repeat split; try done; by left || auto. }
  cbn [length] in Hf.
  assert (exists dst v, ('(dst, v) ← copy_loop fuel (Some ch) valname src; Some (ch :: dst, v)) = Some (dst, v)
            /\ copied valname (ch :: src) dst v) as Hchar.
  { destruct (IH (Some ch) valname src) as (dst & v & -> & Hc); [lia|]. cbn. do 2 eexists. split; [done|]. by apply copied_char. }
  assert (forall name r, ch = "@"%char -> src = name ++ r ->
    valname = Some name \/ valname = None /\ (0 < length name < VALUE_NAME_MAXLEN)%nat ->
    exists dst v, ('(dst, v) ← copy_loop fuel (list.last name) (Some name) (drop (length name) src);
                   Some (name ++ dst, v)) = Some (dst, v) /\ copied valname (ch :: src) dst v) as Hname.
  { intros name r -> Hs Hv. destruct (IH (list.last name) (Some name) r) as (dst & v & H1 & Hc).
    { rewrite Hs, length_app in Hf. lia. }
    rewrite Hs, drop_app_length, H1. cbn. do 2 eexists. split; [done|]. by apply copied_name. }
  destruct (bool_decide (ch = "@"%char) && _) eqn:E; [|done].
  apply andb_true_iff in E as [E _]. apply bool_decide_eq_true in E.
  destruct valname as [name|].
  - destruct (match_value src name) eqn:Em; [|done].
    destruct (match_value_prefix _ _ Em) as [r Hr]. eapply Hname; eauto.
  - destruct (value_name_loop_bound src 0) as [H1 H2]; [lia|]. fold (validate_value_name src) in *.
    destruct (validate_value_name src =? 0)%nat eqn:E0; cbn [negb]; [done|]. zbool.
    apply Nat.ltb_lt in H1 as Hb. rewrite Hb. eapply (Hname _ (drop (validate_value_name src) src)); [done|by rewrite take_drop|].
    right. split; [done|]. rewrite length_take. lia.
Qed.

(** Copying the description of an option keeps every character but the
    marks [@] of the references to one value name, which is the name
    stored; so neither the copy nor the name overflows its buffer. *)
Theorem copy_opt_desc_faithful (src : cstr) :
  exists dst v toks,
    copy_opt_desc src = Some (dst, v)
    /\ src = concat (map raw toks) /\ dst = concat (map cooked toks) /\ Forall (refers_to v) toks
    /\ (length dst <= length src)%nat
    /\ (forall name, v = Some name -> (0 < length name < VALUE_NAME_MAXLEN)%nat).
Proof.
  destruct (copy_loop_copied (S (length src)) None None src) as (dst & v & H & toks & H1 & H2 & H3 & _ & H5); [lia|].
  exists dst, v, toks. split; [done|]. split; [done|]. split; [done|]. split; [done|]. split.
  - subst. clear. induction toks as [|t toks IH]; [done|]. cbn. rewrite !length_app. destruct t; cbn; lia.
  - intros name Hn. by destruct (H5 _ Hn).
Qed.

(** ** Documentation of an option *)

Definition value_part (rf : Z) (vlen : nat) : nat :=
  if rf =? MM_OPT_NOVAL then 0 else if rf =? MM_OPT_NEEDVAL then 1 + vlen else 3 + vlen.

Definition synopsis_length (k : option ascii) (l : option cstr) (rf : Z) (vlen : nat) : nat :=
  2 + (match k with Some _ => 2 + value_part rf vlen | None => 0 end)
  + (match k, l with Some _, Some _ => 2 | _, _ => 0 end)
  + (match l with Some l => 2 + length l + value_part rf vlen | None => 0 end).

Lemma set_option_synopsis_length opt n k l valname :
  opt_name opt = Some n -> named n k l -> (forall c, k = Some c -> key_char c) ->
  exists s, set_option_synopsis opt valname = Some s
    /\ length s = synopsis_length k l (reqflags opt) (length valname).
Proof.
  intros Hn Hk Hc. unfold set_option_synopsis. rewrite (named_key _ _ _ _ Hn Hk), (named_long _ _ _ _ Hn Hk). cbn.
  eexists. split; [done|]. unfold synopsis_length, value_part, key_synopsis, name_synopsis.
  destruct k as [c|].
  - assert (code c =? 0 = false) as -> by (apply Z.eqb_neq, key_char_code, Hc; done).
    destruct l as [l|]; repeat case_test; cbn; rewrite ?length_app; cbn; rewrite ?length_app; cbn; rewrite ?length_app; cbn; lia.
  - destruct l as [l|]; repeat case_test; cbn; rewrite ?length_app; cbn; rewrite ?length_app; cbn; rewrite ?length_app; cbn; lia.
Qed.

Lemma type_doc_length opt dl vn :
  (length vn < VALUE_NAME_MAXLEN)%nat -> (length (type_doc opt dl vn) < TYPE_DOC_LEN)%nat.
Proof.
  intros H. unfold type_doc, TYPE_DOC_LEN, VALUE_NAME_MAXLEN in *.
  destruct (negb _ && negb _); [|cbn; lia]. rewrite !length_app. cbn.
  destruct (dl =? 0)%nat; destruct (_ || _); cbn; lia.
Qed.

Lemma fits_true s size : (length s < size)%nat -> fits s size = Some tt.
Proof. unfold fits. intros H. by apply Nat.ltb_lt in H as ->. Qed.

(** Printing the help of a well-formed option overflows no buffer but
    that of the synopsis, of [OPT_SYNOPSIS_MAXLEN] = 64 bytes, which holds
    everything printed in front of the description: it overflows exactly when
    the key and the long name, each with its copy of the value name, take 64
    characters or more.  No length of the long name is checked anywhere, and
    even the announced maxima (a name of 31 characters and a value name of 15)
    do not fit. *)
Theorem print_option_overflow (opt : mm_arg_opt) (n : cstr) (k : option ascii) (l : option cstr)
    (Hn : opt_name opt = Some n) (Hk : named n k l) (Hc : forall c, k = Some c -> key_char c) :
  exists desc v,
    copy_opt_desc (default [] (opt_desc opt)) = Some (desc, v)
    /\ (length (default (cs "VALUE") v) < VALUE_NAME_MAXLEN)%nat
    /\ (print_option opt = None <->
        (OPT_SYNOPSIS_MAXLEN
         <= synopsis_length k l (reqflags opt) (length (default (cs "VALUE") v)))%nat).
Proof.
  set (src := default [] (opt_desc opt)).
  destruct (copy_loop_copied (S (length src)) None None src) as (desc & v & Hcopy & toks & H1 & H2 & _ & _ & H5); [lia|].
  fold (copy_opt_desc src) in Hcopy. exists desc, v. split; [done|].
  assert (length (default (cs "VALUE") v) < VALUE_NAME_MAXLEN)%nat as Hv.
  { destruct v as [name|]; cbn; [destruct (H5 _ eq_refl) as [|[_ H]]; [done|exact H]|unfold VALUE_NAME_MAXLEN; lia]. }
  split; [done|].
  assert (length desc <= length src)%nat as Hd.
  { rewrite H1, H2. clear. induction toks as [|t toks IH]; [done|]. cbn. rewrite !length_app. destruct t; cbn; lia. }
  unfold print_option. fold src. rewrite Hcopy. cbn [mbind option_bind].
  rewrite (fits_true desc) by (unfold TYPE_DOC_LEN, VALUE_NAME_MAXLEN; lia). cbn [mbind option_bind].
  destruct (set_option_synopsis_length opt n k l (default (cs "VALUE") v) Hn Hk Hc) as (s & -> & Hs). cbn [mbind option_bind].
  pose proof (type_doc_length opt (length src) _ Hv) as Ht.
  destruct (length s <? OPT_SYNOPSIS_MAXLEN)%nat eqn:E.
  2: { assert (fits s OPT_SYNOPSIS_MAXLEN = None) as -> by (unfold fits; by rewrite E).
       zbool. split; [lia|done]. }
  zbool. rewrite (fits_true s) by done. cbn [mbind option_bind].
  rewrite (fits_true (type_doc _ _ _)) by done. cbn [mbind option_bind].
  rewrite fits_true by (rewrite length_app; lia). cbn [mbind option_bind].
  destruct (wrap_loop_spec (S (length (desc ++ type_doc opt (length src) (default (cs "VALUE") v))))
    (desc ++ type_doc opt (length src) (default (cs "VALUE") v)) (LINE_MAXLENGTH - OPT_INDENT_LEN)) as (parts & Hw & _);
    [cbn; lia|lia|].
  unfold print_text_wrapped. rewrite Hw. cbn [mbind option_bind]. split; [done|lia].
Qed.

Definition long_option : mm_arg_opt :=
  mk_opt (Some (cs "o|output-directory-of-the-program")) MM_OPT_OPTVAL None true
    (Some (cs "write to @OUTPUT-FOLDER-X.")).

Lemma print_option_overflow_witness :
  option_ok long_option /\ print_option long_option = None.
Proof.
  assert (option_ok long_option) as Hok.
  { exists (cs "o|output-directory-of-the-program"), (Some "o"%char), (Some (cs "output-directory-of-the-program")).
    split; [done|]. split; [constructor|]. split.
    - intros c [= <-]. by left.
    - intros s [= <-]. by apply valid_long_name. }
  split; [exact Hok|].
  destruct (print_option_overflow long_option (cs "o|output-directory-of-the-program") (Some "o"%char)
    (Some (cs "output-directory-of-the-program"))) as (desc & v & H1 & _ & H3).
  - reflexivity.
  - constructor.
  - intros c [= <-]. by left.
  - apply H3. vm_compute in H1. injection H1 as <- <-. by apply (bool_decide_unpack _).
Defined.
