(* ===== verification/Utils.v ===== *)
(** * Environment, base folders and paths

    [utils.c] and [is_path_separator] of [file-internal.h].  The environment
    is a finite map from names to values.  Pointers into a path are offsets;
    [win32] tells which separators the platform has. *)

From S2P Require Import Prelude CStr.

(** ** Environment variables *)

Definition MM_ENV_PRESERVE : Z := 0.
Definition MM_ENV_OVERWRITE : Z := 1.
Definition MM_ENV_PREPEND : Z := 2.
Definition MM_ENV_APPEND : Z := 3.
Definition MM_ENV_MAX : Z := 4.

Abbreviation environ := (gmap cstr cstr).

Definition mm_getenv (env : environ) (name : cstr) (default_value : option cstr) : option cstr :=
  match env !! name with Some value => Some value | None => default_value end.

Definition MM_ENV_DELIM (win32 : bool) : cstr := if win32 then cs ";" else cs ":".

(** [setenv] of the C library, on an environment that has room for the value. *)
Definition setenv (env : environ) (name value : cstr) (overwrite : Z) : environ * Z :=
  if bool_decide (name = []) || bool_decide ("="%char ∈ name) then (env, -1)
  else if (overwrite =? 0) && bool_decide (is_Some (env !! name)) then (env, 0)
  else (<[name := value]> env, 0).

Definition unsetenv (env : environ) (name : cstr) : environ * Z :=
  if bool_decide (name = []) || bool_decide ("="%char ∈ name) then (env, -1)
  else (delete name env, 0).

Definition mm_setenv (win32 : bool) (env : environ) (name value : cstr) (action : Z) : environ * Z :=
  if (action <? 0) || (MM_ENV_MAX <=? action) then (env, -1)
  else
    let value :=
      if (action =? MM_ENV_PREPEND) || (action =? MM_ENV_APPEND) then
        match mm_getenv env name None with
        | Some old_value =>
            if action =? MM_ENV_PREPEND then value ++ MM_ENV_DELIM win32 ++ old_value
            else old_value ++ MM_ENV_DELIM win32 ++ value
        | None => value
        end
      else value in
    let '(env', rv) := setenv env name value action in
    if negb (rv =? 0) then (env', -1) else (env', 0).

(** The error raised does not reach the return value. *)
Definition mm_unsetenv (env : environ) (name : cstr) : environ * Z :=
  let '(env', _) := unsetenv env name in (env', 0).

(** ** Base folders *)

Definition MM_HOME : Z := 0.
Definition MM_DATA_HOME : Z := 1.
Definition MM_CONFIG_HOME : Z := 2.
Definition MM_CACHE_HOME : Z := 3.
Definition MM_RUNTIME_DIR : Z := 4.
Definition MM_NUM_DIRTYPE : Z := 5.

Abbreviation basedirs := (gmap Z cstr).

Definition set_basedir (dirs : basedirs) (dirtype : Z) (value : cstr) : basedirs :=
  <[dirtype := value]> dirs.

Definition set_dir_or_home_relative (dirs : basedirs) (dirtype : Z) (dir : option cstr)
    (parent suffix : cstr) : basedirs :=
  match dir with
  | Some dir => set_basedir dirs dirtype dir
  | None => set_basedir dirs dirtype (parent ++ cs "/" ++ suffix)
  end.

(** [None]: [mm_check] fails and the process aborts. *)
Definition init_basedirs (env : environ) (dirs : basedirs) : option basedirs :=
  home ← mm_getenv env (cs "HOME") (mm_getenv env (cs "USERPROFILE") None);
  let dirs := set_basedir dirs MM_HOME home in
  let dirs := set_dir_or_home_relative dirs MM_CONFIG_HOME
                (mm_getenv env (cs "XDG_CONFIG_HOME") None) home (cs ".config") in
  let dirs := set_dir_or_home_relative dirs MM_CACHE_HOME
                (mm_getenv env (cs "XDG_CACHE_HOME") None) home (cs ".cache") in
  let dirs := set_dir_or_home_relative dirs MM_DATA_HOME
                (mm_getenv env (cs "XDG_DATA_HOME") None) home (cs ".local/share") in
  temp ← mm_getenv env (cs "TEMP") (Some (cs "/tmp"));
  user ← mm_getenv env (cs "USERNAME") (Some (cs "self"));
  Some (set_dir_or_home_relative dirs MM_RUNTIME_DIR
          (mm_getenv env (cs "XDG_RUNTIME_DIR") None) temp user).

(** The array of the folders and the control of [mm_thr_once]. *)
Record basedir_state := mk_bst { bs_dirs : basedirs; bs_done : bool }.

Definition basedir_start : basedir_state := mk_bst ∅ false.

(** The inner result is [None] for a null pointer. *)
Definition mm_get_basedir (env : environ) (st : basedir_state) (dirtype : Z)
    : option (basedir_state * option cstr) :=
  if (dirtype <? 0) || (MM_NUM_DIRTYPE <=? dirtype) then Some (st, None)
  else
    st ← (if bs_done st then Some st
          else dirs ← init_basedirs env (bs_dirs st); Some (mk_bst dirs true));
    Some (st, bs_dirs st !! dirtype).

Definition mm_path_from_basedir (env : environ) (st : basedir_state) (dirtype : Z)
    (suffix : option cstr) : option (basedir_state * option cstr) :=
  match suffix with
  | None => Some (st, None)
  | Some suffix =>
      '(st, base) ← mm_get_basedir env st dirtype;
      Some (st, base ← base; Some (base ++ cs "/" ++ suffix))
  end.

(** ** Paths *)

Section Paths.

Context (win32 : bool).

Definition is_path_separator (c : ascii) : bool :=
  if win32 then bool_decide (c = "\"%char) || bool_decide (c = "/"%char)
  else bool_decide (c = "/"%char).

Definition sep_at (path : cstr) (i : nat) : bool :=
  match path !! i with Some c => is_path_separator c | None => false end.

(** Goes back from the offset [c], that stays in the path. *)
Fixpoint skip_back (path : cstr) (c : nat) : nat :=
  match c with
  | O => O
  | S c' => if sep_at path c then skip_back path c' else c
  end.

(** One before the path for an empty path. *)
Definition get_last_nonsep_ptr (path : cstr) : Z :=
  match length path with
  | O => -1
  | S last => Z.of_nat (skip_back path last)
  end.

(** [n] offsets are left to try, the next one being [n - 1]. *)
Fixpoint basename_loop (path : cstr) (n : nat) : nat :=
  match n with
  | O => O
  | S c => if sep_at path c then S c else basename_loop path c
  end.

Definition get_basename_ptr (path : cstr) : nat :=
  basename_loop path (Z.to_nat (get_last_nonsep_ptr path)).

Definition substr (path : cstr) (start len : nat) : cstr := take len (drop start path).

(** The string written; its length is the value returned. *)
Definition mm_basename (path : option cstr) : cstr :=
  let path := default [] path in
  let baseptr := get_basename_ptr path in
  let len := get_last_nonsep_ptr path + 1 - Z.of_nat baseptr in
  if len <=? 0 then
    match path with [] => cs "." | _ => substr path baseptr 1 end
  else substr path baseptr (Z.to_nat len).

Definition mm_dirname (path : option cstr) : cstr :=
  let path := default [] path in
  let baseptr := get_basename_ptr path in
  if (baseptr =? 0)%nat then if sep_at path 0 then substr path 0 1 else cs "."
  else substr path 0 (skip_back path (baseptr - 1) + 1).

End Paths.

Example basename_examples :
  map (fun p => (mm_basename false (Some (cs p)), mm_dirname false (Some (cs p))))
    ["/usr/lib/"; "/usr"; "usr//lib"; "//"; "."; "a/"; "//a"]%string
  = [(cs "lib", cs "/usr"); (cs "usr", cs "/"); (cs "lib", cs "usr"); (cs "/", cs "/");
     (cs ".", cs "."); (cs "a", cs "."); (cs "a", cs "/")].
Proof. reflexivity. Qed.

(** ** Paths: properties *)

(** Splitting at the end: the longest suffix that satisfies [P]. *)
Lemma split_tail (P : ascii -> bool) (s : cstr) :
  exists a b, s = a ++ b /\ Forall (fun c => P c = true) b
    /\ (a = [] \/ exists a' x, a = a' ++ [x] /\ P x = false).
Proof.
  induction s as [|x s IH] using rev_ind; [exists [], []; eauto|].
  destruct (P x) eqn:E.
  - destruct IH as (a & b & -> & Hb & Ha). exists a, (b ++ [x]). split; [by rewrite app_assoc|].
    split; [apply Forall_app_2; [done|by constructor]|done].
  - exists (s ++ [x]), []. rewrite app_nil_r. split; [done|]. split; [constructor|]. right. by exists s, x.
Qed.

Section PathLemmas.

Context (win32 : bool).

Abbreviation sep := (is_path_separator win32).

Definition separators (s : cstr) : Prop := Forall (fun c => sep c = true) s.
Definition component (s : cstr) : Prop := s <> [] /\ Forall (fun c => sep c = false) s.

Lemma sep_at_app a x b : sep_at win32 (a ++ x :: b) (length a) = sep x.
Proof. unfold sep_at. by rewrite lookup_app_r, Nat.sub_diag by lia. Qed.

Lemma sep_at_separators s i : separators s -> (i < length s)%nat -> sep_at win32 s i = true.
Proof.
  intros Hs Hi. unfold sep_at. destruct (lookup_lt_is_Some_2 s i Hi) as [c Hc]. rewrite Hc.
  by apply (proj1 (Forall_lookup _ _) Hs i).
Qed.

Lemma skip_back_to (path : cstr) n k :
  (forall i, (n < i <= n + k)%nat -> sep_at win32 path i = true) ->
  (n = 0%nat \/ sep_at win32 path n = false) ->
  skip_back win32 path (n + k) = n.
Proof.
  intros Hs Hn. induction k as [|k IH].
  - rewrite Nat.add_0_r. destruct n; [done|]. cbn. destruct Hn as [|Hn]; [done|]. by rewrite Hn.
  - rewrite Nat.add_succ_r. cbn. rewrite Hs by lia. apply IH. intros i Hi. apply Hs. lia.
Qed.

(** The last character that is not a separator ends [a ++ [x]]. *)
Lemma skip_back_last a x b rest :
  sep x = false -> separators b ->
  skip_back win32 (a ++ x :: b ++ rest) (length a + length b) = length a.
Proof.
  intros Hx Hb. apply skip_back_to.
  - intros i Hi. unfold sep_at. rewrite lookup_app_r, lookup_cons_ne_0 by lia.
    rewrite lookup_app_l by lia. pose proof (sep_at_separators b (Init.Nat.pred (i - length a)) Hb) as H. unfold sep_at in H.
    apply H. lia.
  - right. by rewrite sep_at_app.
Qed.

Lemma skip_back_all s rest n : separators s -> (n < length s)%nat -> skip_back win32 (s ++ rest) n = 0%nat.
Proof.
  intros Hs Hn. apply (skip_back_to _ 0 n); [|by left]. intros i Hi.
  unfold sep_at. rewrite lookup_app_l by lia.
  pose proof (sep_at_separators s i Hs) as H. unfold sep_at in H. apply H. lia.
Qed.

Lemma basename_loop_to pre base rest j :
  Forall (fun c => sep c = false) base -> (j <= length base)%nat ->
  (pre = [] \/ exists p x, pre = p ++ [x] /\ sep x = true) ->
  basename_loop win32 (pre ++ base ++ rest) (length pre + j) = length pre.
Proof.
  intros Hb Hj Hp. induction j as [|j IH].
  - rewrite Nat.add_0_r. destruct Hp as [-> |(p & x & -> & Hx)]; [done|].
    rewrite length_app, Nat.add_comm. cbn. rewrite <- app_assoc. cbn [app]. by rewrite sep_at_app, Hx.
  - rewrite Nat.add_succ_r. cbn. unfold sep_at. rewrite lookup_app_r, lookup_app_l by lia.
    replace (length pre + j - length pre)%nat with j by lia.
    destruct (lookup_lt_is_Some_2 base j) as [c Hc]; [lia|]. rewrite Hc.
    rewrite (proj1 (Forall_lookup _ _) Hb j c Hc). apply IH. lia.
Qed.

(** Where a path is cut: [pre] ends with a separator, [tr] has only separators. *)
Definition cut (pre base tr : cstr) : Prop :=
  component base /\ separators tr /\ (pre = [] \/ exists p x, pre = p ++ [x] /\ sep x = true).

Lemma path_cut path :
  separators path \/ exists pre base tr, path = pre ++ base ++ tr /\ cut pre base tr.
Proof.
  destruct (split_tail sep path) as (a & tr & -> & Htr & Ha).
  destruct Ha as [-> |(a' & x & -> & Hx)]; [by left|right].
  destruct (split_tail (fun c => negb (sep c)) (a' ++ [x])) as (pre & base & Hs & Hb & Hp).
  exists pre, base, tr. rewrite Hs, <- app_assoc. split; [done|]. split; [split|split; [done|]].
  - intros ->. rewrite app_nil_r in Hs. destruct Hp as [-> |(p & y & -> & Hy)]; [by destruct a'|].
    apply app_inj_tail in Hs as [-> ->]. rewrite Hx in Hy. done.
  - eapply Forall_impl; [exact Hb|]. cbn. intros c Hc. by apply negb_true_iff in Hc.
  - destruct Hp as [-> |(p & y & -> & Hy)]; [by left|right]. exists p, y. split; [done|]. by apply negb_false_iff in Hy.
Qed.

Lemma last_nonsep_cut pre base tr :
  cut pre base tr ->
  get_last_nonsep_ptr win32 (pre ++ base ++ tr) = Z.of_nat (length pre + length base) - 1.
Proof.
  intros ([Hne Hb] & Htr & _). destruct base as [|x base _] using rev_ind; [done|].
  apply Forall_app in Hb as [_ Hx]. apply Forall_inv in Hx.
  unfold get_last_nonsep_ptr. rewrite <- app_assoc. cbn [app].
  rewrite app_assoc. rewrite !length_app. cbn [length].
  replace (length pre + length base + S (length tr))%nat
    with (S (length (pre ++ base) + length tr))%nat by (rewrite length_app; lia).
  pose proof (skip_back_last (pre ++ base) x tr [] Hx Htr) as H. rewrite app_nil_r in H. rewrite H.
  rewrite length_app. lia.
Qed.

Lemma basename_ptr_cut pre base tr :
  cut pre base tr -> get_basename_ptr win32 (pre ++ base ++ tr) = length pre.
Proof.
  intros Hc. unfold get_basename_ptr. rewrite (last_nonsep_cut _ _ _ Hc).
  destruct Hc as ([Hne Hb] & Htr & Hp). destruct base as [|c b]; [done|].
  replace (Z.to_nat _) with (length pre + length b)%nat by (cbn [length]; lia).
  apply basename_loop_to; [done|cbn; lia|done].
Qed.

Lemma basename_cut pre base tr :
  cut pre base tr -> mm_basename win32 (Some (pre ++ base ++ tr)) = base.
Proof.
  intros Hc. unfold mm_basename. cbn [default from_option id]. unfold default, id.
  rewrite (basename_ptr_cut _ _ _ Hc), (last_nonsep_cut _ _ _ Hc).
  destruct Hc as ([Hne Hb] & Htr & Hp).
  assert (0 < length base)%nat by (destruct base; [done|cbn; lia]).
  replace (Z.of_nat (length pre + length base) - 1 + 1 - Z.of_nat (length pre)) with (Z.of_nat (length base)) by lia.
  assert ((Z.of_nat (length base) <=? 0) = false) as -> by (apply Z.leb_gt; lia).
  rewrite Nat2Z.id. unfold substr. by rewrite drop_app_length, take_app_length.
Qed.

(** The directory of a cut path. *)
Definition parent_of (pre : cstr) (dir : cstr) : Prop :=
  (pre = [] /\ dir = cs ".")
  \/ (pre <> [] /\ separators pre /\ dir = take 1 pre)
  \/ exists d x seps, pre = d ++ x :: seps /\ sep x = false /\ separators seps /\ dir = d ++ [x].

Lemma dirname_cut pre base tr :
  cut pre base tr -> parent_of pre (mm_dirname win32 (Some (pre ++ base ++ tr))).
Proof.
  intros Hc. unfold mm_dirname. unfold default, id.
  rewrite (basename_ptr_cut _ _ _ Hc). destruct Hc as ([Hne Hb] & Htr & Hp).
  destruct pre as [|y pre'] eqn:Epre.
  { left. split; [done|]. cbn [app length]. destruct base as [|c b]; [done|].
    apply Forall_inv in Hb. unfold sep_at. cbn. by rewrite Hb. }
  rewrite <- Epre in *. assert (0 < length pre)%nat as Hl by (rewrite Epre; cbn; lia).
  assert ((length pre =? 0)%nat = false) as -> by (apply Nat.eqb_neq; lia). right.
  destruct (split_tail sep pre) as (a & b & Hab & Hsb & Ha).
  destruct Ha as [-> |(d & x & -> & Hx)].
  - left. cbn in Hab. subst b. split; [by rewrite Epre|]. split; [done|].
    rewrite skip_back_all by (done || lia). unfold substr. rewrite drop_0. cbn [Nat.add].
    by rewrite take_app_le by lia.
  - right. exists d, x, b. rewrite <- app_assoc in Hab. split; [done|]. split; [done|]. split; [done|].
    replace (length pre - 1)%nat with (length d + length b)%nat by (rewrite Hab, length_app; cbn; lia).
    rewrite Hab, <- app_assoc. cbn [app]. rewrite skip_back_last by done.
    unfold substr. rewrite drop_0. try rewrite <- (app_assoc d [x]) at 1.
    change (d ++ x :: b ++ base ++ tr) with (d ++ [x] ++ (b ++ base ++ tr)). rewrite app_assoc.
    rewrite take_app_le by (rewrite length_app; cbn; lia). apply take_ge. rewrite length_app. cbn. lia.
Qed.

End PathLemmas.

(** The last component and the parent of a path, as [basename] and
    [dirname] of POSIX: a path is the parent, separators, the last component
    (a maximal part without separator), trailing separators.  Without a
    component the results are both ["."] or the root; without parent it is
    ["."] or the root.  Neither result is longer than the path, or than one
    character, so that they can be written in place. *)
Theorem basename_dirname_cut (win32 : bool) (path : cstr) :
  let base := mm_basename win32 (Some path) in
  let dir := mm_dirname win32 (Some path) in
  (path = [] /\ base = cs "." /\ dir = cs "."
   \/ path <> [] /\ separators win32 path /\ base = take 1 path /\ dir = take 1 path
   \/ exists pre tr, path = pre ++ base ++ tr /\ cut win32 pre base tr /\ parent_of win32 pre dir)
  /\ (length base <= Nat.max 1 (length path))%nat /\ (length dir <= Nat.max 1 (length path))%nat.
Proof.
  cbv zeta. destruct (path_cut win32 path) as [Hs|(pre & base & tr & -> & Hc)].
  - destruct path as [|c path]; [split; [by left|split; by apply (bool_decide_unpack _)]|].
    assert (get_last_nonsep_ptr win32 (c :: path) = 0) as Hl.
    { unfold get_last_nonsep_ptr. cbn [length]. rewrite <- (app_nil_r (c :: path)).
      rewrite skip_back_all; [done|done|cbn; lia]. }
    assert (mm_basename win32 (Some (c :: path)) = [c]) as ->.
    { unfold mm_basename, default, id, get_basename_ptr. rewrite Hl. cbn. done. }
    assert (mm_dirname win32 (Some (c :: path)) = [c]) as ->.
    { unfold mm_dirname, default, id, get_basename_ptr. rewrite Hl.
      cbn [Z.to_nat basename_loop Nat.eqb]. rewrite sep_at_separators; [done|done|cbn; lia]. }
    split; [|cbn; lia]. right. left. done.
  - rewrite (basename_cut win32 _ _ _ Hc). pose proof (dirname_cut win32 _ _ _ Hc) as Hd.
    split; [right; right; by exists pre, tr|]. rewrite !length_app. split; [lia|].
    destruct Hd as [[_ ->]|[(_ & _ & ->)|(d & x & sp & -> & _ & _ & ->)]]; [cbn; lia|rewrite length_take; lia|].
    rewrite !length_app. cbn. lia.
Qed.

(** ** Environment and base folders: properties *)


(** Setting a variable: an action out of range or an invalid name changes
    nothing and fails; otherwise the call succeeds, the other variables keep
    their values, and the variable takes the value expected of the action:
    kept if it was set ([PRESERVE]), replaced, or put before or after the
    previous value and the delimiter. *)
Theorem mm_setenv_actions (win32 : bool) (env : environ) (name value : cstr) (action : Z) :
  let '(env', rv) := mm_setenv win32 env name value action in
  if bool_decide (0 <= action < MM_ENV_MAX /\ name <> [] /\ "="%char ∉ name) then
    rv = 0
    /\ (forall other, other <> name -> mm_getenv env' other None = mm_getenv env other None)
    /\ mm_getenv env' name None =
       Some (match mm_getenv env name None with
             | None => value
             | Some old =>
                 if action =? MM_ENV_PRESERVE then old
                 else if action =? MM_ENV_OVERWRITE then value
                 else if action =? MM_ENV_PREPEND then value ++ MM_ENV_DELIM win32 ++ old
                 else old ++ MM_ENV_DELIM win32 ++ value
             end)
  else env' = env /\ rv = -1.
Proof.
  unfold mm_setenv. case_bool_decide as H.
  - destruct H as (Ha & Hn & He). unfold MM_ENV_MAX in *.
    assert ((action <? 0) || (4 <=? action) = false) as ->.
    { apply orb_false_iff. split; [apply Z.ltb_ge; lia|apply Z.leb_gt; lia]. }
    unfold setenv. assert (bool_decide (name = []) || bool_decide ("="%char ∈ name) = false) as ->.
    { by rewrite orb_false_iff, !bool_decide_eq_false. }
    assert (action = 0 \/ action = 1 \/ action = 2 \/ action = 3) as Hact by lia.
    unfold mm_getenv. destruct (env !! name) as [old|] eqn:E;
      destruct Hact as [-> |[-> |[-> | ->]]]; cbn; rewrite ?E; cbn; (split; [done|]); split;
      try (intros other Ho; by rewrite lookup_insert_ne by done); try done;
      by rewrite lookup_insert_eq.
  - destruct (_ || _) eqn:E; [done|]. zbool. unfold setenv.
    destruct (bool_decide (name = []) || bool_decide ("="%char ∈ name)) eqn:E2; [done|].
    exfalso. apply H. rewrite orb_false_iff, !bool_decide_eq_false in E2. unfold MM_ENV_MAX in *. split; [lia|done].
Qed.

(** The folders of the XDG specification for an environment. *)
Definition basedir_spec (env : environ) (home : cstr) (dirtype : Z) : cstr :=
  let or_default var parent suffix :=
    match env !! cs var with Some dir => dir | None => parent ++ cs "/" ++ cs suffix end in
  if dirtype =? MM_HOME then home
  else if dirtype =? MM_DATA_HOME then or_default "XDG_DATA_HOME"%string home ".local/share"%string
  else if dirtype =? MM_CONFIG_HOME then or_default "XDG_CONFIG_HOME"%string home ".config"%string
  else if dirtype =? MM_CACHE_HOME then or_default "XDG_CACHE_HOME"%string home ".cache"%string
  else match env !! cs "XDG_RUNTIME_DIR" with
       | Some dir => dir
       | None => default (cs "/tmp") (env !! cs "TEMP") ++ cs "/" ++ default (cs "self") (env !! cs "USERNAME")
       end.

Lemma init_basedirs_spec env home :
  mm_getenv env (cs "HOME") (mm_getenv env (cs "USERPROFILE") None) = Some home ->
  exists dirs, init_basedirs env ∅ = Some dirs
    /\ forall d, 0 <= d < MM_NUM_DIRTYPE -> dirs !! d = Some (basedir_spec env home d).
Proof.
  intros Hh. unfold init_basedirs. rewrite Hh. cbn [mbind option_bind].
  assert (forall n d, exists v, mm_getenv env n (Some d) = Some v /\ v = default d (env !! n)) as Hg.
  { intros n d. unfold mm_getenv. destruct (env !! n); eauto. }
  destruct (Hg (cs "TEMP") (cs "/tmp")) as (t & -> & ->). cbn [mbind option_bind].
  destruct (Hg (cs "USERNAME") (cs "self")) as (u & -> & ->). cbn [mbind option_bind].
  eexists. split; [reflexivity|]. intros d Hd. unfold MM_NUM_DIRTYPE in Hd.
  assert (d = 0 \/ d = 1 \/ d = 2 \/ d = 3 \/ d = 4) as Hcases by lia.
  unfold set_dir_or_home_relative, set_basedir, mm_getenv, basedir_spec,
    MM_HOME, MM_DATA_HOME, MM_CONFIG_HOME, MM_CACHE_HOME, MM_RUNTIME_DIR.
  destruct (env !! cs "XDG_CONFIG_HOME"), (env !! cs "XDG_CACHE_HOME"),
    (env !! cs "XDG_DATA_HOME"), (env !! cs "XDG_RUNTIME_DIR");
    destruct Hcases as [-> |[-> |[-> |[-> | ->]]]];
    repeat (rewrite lookup_insert_eq || rewrite lookup_insert_ne by done); reflexivity.
Qed.

(** When a home folder is known, the first request of a base folder sets
    all of them from the environment, as the XDG specification says; every
    later request gives the same folders, whatever the environment has become,
    and a path is formed with them.  An unknown folder or a null suffix gives a
    null pointer. *)
Theorem mm_get_basedir_once (env : environ) (home : cstr) (dirtype : Z)
    (Hh : mm_getenv env (cs "HOME") (mm_getenv env (cs "USERPROFILE") None) = Some home)
    (Hd : 0 <= dirtype < MM_NUM_DIRTYPE) :
  exists st,
    mm_get_basedir env basedir_start dirtype = Some (st, Some (basedir_spec env home dirtype))
    /\ forall env' d suffix,
         mm_get_basedir env' st d =
           Some (st, if bool_decide (0 <= d < MM_NUM_DIRTYPE) then Some (basedir_spec env home d) else None)
         /\ mm_path_from_basedir env' st d suffix =
           Some (st, match suffix with
                     | Some s => if bool_decide (0 <= d < MM_NUM_DIRTYPE)
                                 then Some (basedir_spec env home d ++ cs "/" ++ s) else None
                     | None => None
                     end).
Proof.
  destruct (init_basedirs_spec env home Hh) as (dirs & Hi & Hs). exists (mk_bst dirs true).
  assert (forall d, (d <? 0) || (MM_NUM_DIRTYPE <=? d) = negb (bool_decide (0 <= d < MM_NUM_DIRTYPE))) as Hr.
  { intros d. unfold MM_NUM_DIRTYPE. case_bool_decide; cbn [negb].
    - apply orb_false_iff. split; [apply Z.ltb_ge; lia|apply Z.leb_gt; lia].
    - apply orb_true_iff. destruct (decide (d < 0)); [left; by apply Z.ltb_lt|right; apply Z.leb_le; lia]. }
  assert (forall env' d, mm_get_basedir env' (mk_bst dirs true) d =
    Some (mk_bst dirs true, if bool_decide (0 <= d < MM_NUM_DIRTYPE) then Some (basedir_spec env home d) else None)) as Hg.
  { intros env' d. unfold mm_get_basedir. rewrite Hr. case_bool_decide; cbn; [|done]. by rewrite Hs. }
  split.
  - unfold mm_get_basedir. rewrite Hr, bool_decide_true by done. cbn. rewrite Hi. cbn. by rewrite Hs.
  - intros env' d suffix. split; [done|]. unfold mm_path_from_basedir. destruct suffix; [|done].
    rewrite Hg. cbn. by case_bool_decide.
Qed.

Lemma mm_get_basedir_once_witness :
  exists st, mm_get_basedir {[ cs "HOME" := cs "/home/me" ]} basedir_start MM_CACHE_HOME
    = Some (st, Some (cs "/home/me/.cache")).
Proof.
  destruct (mm_get_basedir_once {[ cs "HOME" := cs "/home/me" ]} (cs "/home/me") MM_CACHE_HOME) as (st & H & _).
  - reflexivity.
  - vm_compute. split; [discriminate|reflexivity].
  - exists st. exact H.
Defined.
