(* ===== verification/CmdLine.v ===== *)
(** * Command lines of child processes

    [escape_cmd_str], [escape_argv] and [concat_strv] of [process-win32.c]:
    the argument array of a child becomes the command line given to
    [CreateProcess].  [CommandLineToArgvW], which the child uses to get its
    arguments back, is a parameter, with the rules of its documentation as
    hypotheses.  A string written in a buffer is the list of its characters;
    [None] is a write beyond the end of a buffer. *)

From S2P Require Import Prelude CStr.

Definition BSL : ascii := "\".
Definition QUOTE : ascii := "034".
Definition SPACE : ascii := " ".

Definition backslashes (n : nat) : cstr := replicate n BSL.

(** ** Escaping *)

(** The loop on the characters of [src]; [nbackslash] backslashes are pending. *)
Fixpoint escape_loop (nbackslash : nat) (src : cstr) : cstr :=
  match src with
  | [] => backslashes (nbackslash + nbackslash) ++ [QUOTE]
  | c :: src' =>
      if bool_decide (c = BSL) then escape_loop (S nbackslash) src'
      else if bool_decide (c = QUOTE)
      then backslashes (nbackslash + nbackslash) ++ [BSL; QUOTE] ++ escape_loop 0 src'
      else backslashes nbackslash ++ [c] ++ escape_loop 0 src'
  end.

(** The string written, the terminal null character apart. *)
Definition escape_cmd_str (src : cstr) : cstr := QUOTE :: escape_loop 0 src.

(** The bytes written or needed. *)
Definition escape_len (src : cstr) : Z := Z.of_nat (length (escape_cmd_str src)) + 1.

Definition SIZEOF_PTR : Z := 8.

(** [for (; maxlen < needed; maxlen *= 2)]: [None] is the overflow of [int]. *)
Fixpoint grow (fuel : nat) (maxlen needed : Z) : option Z :=
  if maxlen <? needed then
    match fuel with
    | O => None
    | S fuel => if INT_MAX <? maxlen * 2 then None else grow fuel (maxlen * 2) needed
    end
  else Some maxlen.

(** The loop of [escape_argv]: offsets and strings written, in a block of
    [maxlen] bytes filled up to [index]. *)
Fixpoint escape_argv_loop (argv : list cstr) (index maxlen : Z) : option (list (Z * cstr) * Z) :=
  match argv with
  | [] => Some ([], maxlen)
  | arg :: argv' =>
      let len := escape_len arg in
      maxlen ← (if maxlen <? index + len then grow 32 maxlen (index + len) else Some maxlen);
      if maxlen <? index + len then None
      else
        '(strs, m) ← escape_argv_loop argv' (index + len) maxlen;
        Some ((index, escape_cmd_str arg) :: strs, m)
  end.

(** The strings, and the size of the block. *)
Definition escape_argv (argv : list cstr) : option (list (Z * cstr) * Z) :=
  escape_argv_loop argv ((Z.of_nat (length argv) + 1) * SIZEOF_PTR) 256.

(** ** Concatenation *)

Section Concat.

(** [conv] is the conversion to UTF-16, without the terminal null character. *)
Context {char16 : Type} (conv : cstr -> list char16).

Fixpoint concat_loop (strv : list cstr) (sep : char16) (first : bool) : list char16 :=
  match strv with
  | [] => []
  | s :: strv' => (if first then [] else [sep]) ++ conv s ++ concat_loop strv' sep false
  end.

(** Characters allocated, with a terminal null character for each string. *)
Definition concat_alloc (strv : list cstr) : nat :=
  1 + sum_list_with (fun s => length (conv s) + 1)%nat strv.

Definition concat_strv (strv : option (list cstr)) (sep : char16) : option (list char16) :=
  strv ← strv; Some (concat_loop strv sep true).

End Concat.

(** The command line of the child, up to the conversion to UTF-16. *)
Definition command_line (argv : list cstr) : option cstr :=
  '(strs, _) ← escape_argv argv;
  concat_strv (fun s => s) (Some (map snd strs)) SPACE.

Example command_line_example :
  command_line [cs "prog"; cs "a b"; cs "c\"; [QUOTE]; []]
  = Some ([QUOTE] ++ cs "prog" ++ [QUOTE; SPACE; QUOTE] ++ cs "a b" ++ [QUOTE; SPACE; QUOTE] ++ cs "c\\"
          ++ [QUOTE; SPACE; QUOTE; BSL; QUOTE; QUOTE; SPACE; QUOTE; QUOTE]).
Proof. reflexivity. Qed.

(** ** The block of [escape_argv] *)

Lemma grow_spec fuel maxlen needed :
  0 < maxlen -> needed <= maxlen * 2 ^ Z.of_nat fuel -> needed <= 2 ^ 30 ->
  exists m, grow fuel maxlen needed = Some m /\ needed <= m /\ 0 < m.
Proof.
  revert maxlen. induction fuel as [|fuel IH]; intros maxlen Hm Hn Hb; cbn [grow].
  - case_test; [change (2 ^ Z.of_nat 0) with 1 in Hn; lia|]. exists maxlen. split; [done|lia].
  - case_test; [|exists maxlen; split; [done|lia]].
    assert ((INT_MAX <? maxlen * 2) = false) as ->.
    { apply Z.ltb_ge. change INT_MAX with (2 ^ 31 - 1). lia. }
    apply IH; [lia| |done]. rewrite Nat2Z.inj_succ, Z.pow_succ_r in Hn by lia. lia.
Qed.

Definition argv_size (argv : list cstr) : Z :=
  (Z.of_nat (length argv) + 1) * SIZEOF_PTR + Z.of_nat (sum_list_with (fun s => length (escape_cmd_str s) + 1)%nat argv).

Lemma escape_argv_loop_total argv index maxlen :
  0 < maxlen -> 0 <= index -> 256 <= maxlen ->
  index + Z.of_nat (sum_list_with (fun s => length (escape_cmd_str s) + 1)%nat argv) <= 2 ^ 30 ->
  exists strs m, escape_argv_loop argv index maxlen = Some (strs, m) /\ map snd strs = map escape_cmd_str argv.
Proof.
  revert index maxlen. induction argv as [|arg argv IH]; intros index maxlen Hm Hi Hb Hs; cbn [escape_argv_loop].
  { exists [], maxlen. done. }
  cbn [sum_list_with] in Hs.
  assert (exists m, (if maxlen <? index + escape_len arg then grow 32 maxlen (index + escape_len arg) else Some maxlen) = Some m
    /\ index + escape_len arg <= m /\ 256 <= m) as (m & -> & H1 & H2).
  { unfold escape_len. case_test; [|exists maxlen; split; [done|lia]].
    destruct (grow_spec 32 maxlen (index + (Z.of_nat (length (escape_cmd_str arg)) + 1))) as (m & -> & H1 & H2); [lia| |lia|].
    - change (2 ^ Z.of_nat 32) with (2 ^ 32). nia.
    - exists m. split; [done|lia]. }
  cbn [mbind option_bind].
  assert ((m <? index + escape_len arg) = false) as -> by (apply Z.ltb_ge; lia).
  destruct (IH (index + escape_len arg) m) as (strs & m' & -> & Hstr); [lia|unfold escape_len; lia|lia|unfold escape_len; lia|].
  cbn. do 2 eexists. split; [done|]. cbn. by rewrite Hstr.
Qed.

Lemma escape_argv_total (argv : list cstr) :
  argv_size argv <= 2 ^ 30 -> exists strs m, escape_argv argv = Some (strs, m) /\ map snd strs = map escape_cmd_str argv.
Proof.
  intros Hsize. unfold escape_argv. apply escape_argv_loop_total; [lia|unfold SIZEOF_PTR; lia|lia|exact Hsize].
Qed.

(** ** Reading the command line back *)

Definition line_end (line : cstr) : Prop := line = [] \/ head line = Some SPACE.

(** The rules of the documentation of [CommandLineToArgvW]: [args_of] gives the
    arguments of what follows the program name, [in_quotes] reads from
    after an opening quotation mark to the closing one, and gives what is left. *)
Class CommandLineRules (args_of : cstr -> list cstr) (in_quotes : cstr -> cstr * cstr) : Prop := {
  rule_end : args_of [] = [];
  rule_arg line a rest :
    in_quotes line = (a, rest) -> line_end rest ->
    args_of (SPACE :: QUOTE :: line) = a :: args_of rest;
  rule_close n rest :
    line_end rest -> in_quotes (backslashes (n + n) ++ QUOTE :: rest) = (backslashes n, rest);
  rule_literal n line a rest :
    in_quotes line = (a, rest) ->
    in_quotes (backslashes (n + n) ++ [BSL; QUOTE] ++ line) = (backslashes n ++ QUOTE :: a, rest);
  rule_plain n c line a rest :
    c <> BSL -> c <> QUOTE -> in_quotes line = (a, rest) ->
    in_quotes (backslashes n ++ [c] ++ line) = (backslashes n ++ c :: a, rest)
}.

Section Roundtrip.

Context (args_of : cstr -> list cstr) (in_quotes : cstr -> cstr * cstr).
Context `{!CommandLineRules args_of in_quotes}.

Lemma backslashes_snoc n s : backslashes n ++ BSL :: s = backslashes (S n) ++ s.
Proof.
  unfold backslashes. rewrite replicate_S_end, <- app_assoc. done.
Qed.

Lemma escape_loop_read n src rest :
  line_end rest -> in_quotes (escape_loop n src ++ rest) = (backslashes n ++ src, rest).
Proof.
  intros Hr. revert n. induction src as [|c src IH]; intros n; cbn [escape_loop].
  - rewrite <- app_assoc, app_nil_r. by apply rule_close.
  - case_bool_decide as Hc; [subst c; rewrite IH; by rewrite backslashes_snoc|].
    case_bool_decide as Hq.
    + subst c. rewrite <- app_assoc. by apply rule_literal, (IH 0%nat).
    + rewrite <- app_assoc. apply rule_plain; [done|done|]. apply (IH 0%nat).
Qed.

Lemma concat_loop_read args :
  args_of (concat_loop (fun s => s) (map escape_cmd_str args) SPACE false) = args
  /\ line_end (concat_loop (fun s => s) (map escape_cmd_str args) SPACE false).
Proof.
  induction args as [|arg args [IH1 IH2]]; cbn [map concat_loop]; [split; [apply rule_end|by left]|].
  split; [|by right]. unfold escape_cmd_str at 1. cbn [app].
  rewrite (rule_arg _ arg (concat_loop (fun s => s) (map escape_cmd_str args) SPACE false)).
  - by rewrite IH1.
  - by apply escape_loop_read.
  - done.
Qed.

End Roundtrip.

(** Round trip of the arguments of a child process.  If the arguments take
    less than a gigabyte once escaped, the block that holds them is large
    enough, and the command line is the escaped program name followed by a
    text from which the documented rules of [CommandLineToArgvW] recover
    exactly the arguments, whatever spaces, quotation marks and
    backslashes they contain. *)
Theorem command_line_roundtrip (args_of : cstr -> list cstr) (in_quotes : cstr -> cstr * cstr)
    (Hrules : CommandLineRules args_of in_quotes) (prog : cstr) (args : list cstr)
    (Hsize : argv_size (prog :: args) <= 2 ^ 30) :
  exists line,
    command_line (prog :: args) = Some (escape_cmd_str prog ++ line) /\ args_of line = args.
Proof.
  unfold command_line. destruct (escape_argv_total _ Hsize) as (strs & m & -> & Hs).
  cbn [mbind option_bind]. rewrite Hs. cbn [map concat_strv mbind option_bind concat_loop app].
  eexists. split; [done|]. by apply (concat_loop_read args_of in_quotes).
Qed.

(** An executable reader that follows the rules. *)
Module Reader.

Fixpoint read (nb : nat) (line : cstr) : cstr * cstr :=
  match line with
  | [] => (backslashes nb, [])
  | c :: line' =>
      if bool_decide (c = BSL) then read (S nb) line'
      else if bool_decide (c = QUOTE) then
        if Nat.even nb then (backslashes (Nat.div2 nb), line')
        else let '(a, rest) := read 0 line' in (backslashes (Nat.div2 nb) ++ QUOTE :: a, rest)
      else let '(a, rest) := read 0 line' in (backslashes nb ++ c :: a, rest)
  end.

Fixpoint args (fuel : nat) (line : cstr) : list cstr :=
  match fuel, line with
  | S fuel, _ :: _ :: line' => let '(a, rest) := read 0 line' in a :: args fuel rest
  | _, _ => []
  end.

Lemma read_backslashes nb k line : read nb (backslashes k ++ line) = read (nb + k) line.
Proof.
  revert nb. induction k as [|k IH]; intros nb; cbn; [by rewrite Nat.add_0_r|].
  rewrite IH. f_equal. lia.
Qed.

Lemma read_shorter nb line : (length (snd (read nb line)) <= length line)%nat.
Proof.
  revert nb. induction line as [|c line IH]; intros nb; cbn; [done|].
  case_bool_decide; [specialize (IH (S nb)); lia|].
  pose proof (IH 0%nat). destruct (read 0 line) as [a rest]. cbn in *.
  repeat case_match; cbn in *; lia.
Qed.

Lemma args_fuel f1 f2 line :
  (length line <= f1)%nat -> (length line <= f2)%nat -> args f1 line = args f2 line.
Proof.
  revert f2 line. induction f1 as [|f1 IH]; intros f2 line H1 H2; destruct line as [|c [|d line]]; try done;
    try (by destruct f2); cbn in H1; try lia; (destruct f2 as [|f2]; cbn in H2; [lia|]); cbn; try done.
  pose proof (read_shorter 0 line). destruct (read 0 line) as [a rest]. cbn in *. f_equal. apply IH; lia.
Qed.

Lemma even_double n : Nat.even (n + n) = true /\ Nat.even (S (n + n)) = false.
Proof. induction n as [|n [IH1 IH2]]; [done|]. rewrite Nat.add_succ_r. cbn in *. done. Qed.

Lemma div2_double n : Nat.div2 (n + n) = n /\ Nat.div2 (S (n + n)) = n.
Proof.
  induction n as [|n [IH1 IH2]]; [done|]. rewrite Nat.add_succ_r.
  cbn [Nat.add Nat.div2] in *. by rewrite IH1, IH2.
Qed.

#[export] Instance rules : CommandLineRules (fun line => args (length line) line) (read 0).
Proof.
  split.
  - done.
  - intros line a rest Hr _. cbn [length args]. rewrite Hr.
    pose proof (read_shorter 0 line) as Hs. rewrite Hr in Hs. cbn in Hs.
    f_equal. apply (args_fuel (S (length line)) (length rest)); lia.
  - intros n rest _. rewrite read_backslashes. cbn [read Nat.add].
    rewrite bool_decide_false, bool_decide_true by done.
    by rewrite (proj1 (even_double n)), (proj1 (div2_double n)).
  - intros n line a rest Hr. cbn [app]. rewrite backslashes_snoc, read_backslashes. cbn [read Nat.add].
    rewrite bool_decide_false, bool_decide_true by done.
    by rewrite (proj2 (even_double n)), (proj2 (div2_double n)), Hr.
  - intros n c line a rest H1 H2 Hr. rewrite read_backslashes. cbn [read app Nat.add].
    rewrite !bool_decide_false by done. by rewrite Hr.
Qed.

End Reader.

Lemma command_line_roundtrip_witness :
  exists line,
    command_line [cs "prog"; cs "a b\"; [QUOTE]; []] = Some (escape_cmd_str (cs "prog") ++ line)
    /\ Reader.args (length line) line = [cs "a b\"; [QUOTE]; []].
Proof.
  apply (command_line_roundtrip (fun line => Reader.args (length line) line) (Reader.read 0) Reader.rules
    (cs "prog") [cs "a b\"; [QUOTE]; []]).
  vm_compute. discriminate.
Defined.

(** ** The buffer of [concat_strv] *)

(** The strings, their separators and one terminal null character leave
    exactly one allocated character unwritten (none if there is no string).
    An environment block, that must end with two null characters, has
    only one, followed by this uninitialised character. *)
Lemma concat_strv_written {char16 : Type} (conv : cstr -> list char16) (strv : list cstr) (sep : char16) :
  (length (concat_loop conv strv sep true) + 1 + (match strv with [] => 0 | _ => 1 end)
   = concat_alloc conv strv)%nat.
Proof.
  assert (forall l, length (concat_loop conv l sep false)
                    = sum_list_with (fun s => length (conv s) + 1)%nat l) as Hl.
  { induction l as [|s l IH]; [done|]. cbn. rewrite length_app, IH. lia. }
  unfold concat_alloc. destruct strv as [|s strv]; [done|]. cbn. rewrite length_app, Hl. lia.
Qed.
