(* ===== verification/EnvCache.v ===== *)
(** * The environment on Windows

    [env-win32.c]: the cache of UTF-8 environment strings kept in front of the
    UTF-16 environment of the C runtime.  The conversions between encodings
    and the comparison of names by the runtime are parameters.  [None] is a
    write beyond the end of a buffer or the use of a null pointer; allocations
    succeed. *)

From S2P Require Import Prelude CStr.

Definition EQUAL : ascii := "=".

(** ** Environment strings *)

(** [str] is the buffer up to its null character. *)
Record envstr := mk_envstr { str : cstr; namelen : nat; str_maxlen : nat }.

Definition envstr_init (name : cstr) : option envstr :=
  let len := length name in
  if (len + 2 <=? len + 64)%nat then Some (mk_envstr (name ++ [EQUAL]) len (len + 64)) else None.

Definition envstr_get_value (entry : envstr) : cstr := drop (namelen entry + 1) (str entry).

Definition envstr_resize_value (entry : envstr) (value_len : nat) : envstr :=
  let envstr_len := (value_len + namelen entry + 2)%nat in
  if (str_maxlen entry <? envstr_len)%nat then mk_envstr (str entry) (namelen entry) envstr_len else entry.

(** The copy of the value, terminator included, after the equal sign. *)
Definition write_value (entry : envstr) (value : cstr) : option envstr :=
  if (namelen entry + 1 + (length value + 1) <=? str_maxlen entry)%nat
  then Some (mk_envstr (take (namelen entry + 1) (str entry) ++ value) (namelen entry) (str_maxlen entry))
  else None.

Definition envstr_set_value (entry : envstr) (value : cstr) : option envstr :=
  write_value (envstr_resize_value entry (length value)) value.

(** ** The cache *)

(** The used part of the array; its length is [arrlen]. *)
Record envcache := mk_cache { max_arrlen : nat; array : list envstr; envp : list cstr }.

Definition empty_cache : envcache := mk_cache 0 [] [].

Definition entry_matches (name : cstr) (e : envstr) : bool :=
  (length name =? namelen e)%nat && bool_decide (take (namelen e) (str e) = name).

(** The index of the entry. *)
Definition envcache_find_entry (cache : envcache) (name : cstr) : option nat :=
  fst <$> list_find (fun e => entry_matches name e = true) (array cache).

Definition set_array (cache : envcache) (max : nat) (arr : list envstr) : envcache :=
  mk_cache max arr (envp cache).

Definition envcache_create_entry (cache : envcache) (name : cstr) : option (envcache * nat) :=
  let arrlen := length (array cache) in
  let max :=
    if (max_arrlen cache <? arrlen + 1)%nat
    then if (max_arrlen cache =? 0)%nat then 32%nat else (max_arrlen cache * 2)%nat
    else max_arrlen cache in
  if (arrlen <? max)%nat then
    entry ← envstr_init name;
    Some (set_array cache max (array cache ++ [entry]), arrlen)
  else None.

Definition envcache_remove_entry (cache : envcache) (entry : option nat) : envcache :=
  match entry with
  | None => cache
  | Some index => set_array cache (max_arrlen cache) (delete index (array cache))
  end.

Definition envcache_update_envp (cache : envcache) : envcache :=
  mk_cache (max_arrlen cache) (array cache) (str <$> array cache).

(** Every buffer is freed. *)
Definition envcache_deinit (cache : envcache) : envcache := empty_cache.

(** Entry of a name, created if needed. *)
Definition find_or_create (cache : envcache) (name : cstr) : option (envcache * nat) :=
  match envcache_find_entry cache name with
  | Some index => Some (cache, index)
  | None => envcache_create_entry cache name
  end.

Definition update_entry (cache : envcache) (index : nat) (f : envstr -> option envstr) : option envcache :=
  entry ← array cache !! index;
  entry' ← f entry;
  Some (set_array cache (max_arrlen cache) (<[index := entry']> (array cache))).

Definition entry_value (cache : envcache) (index : nat) : option cstr :=
  envstr_get_value <$> array cache !! index.

(** Splitting at the first separator; [None] if there is none. *)
Fixpoint split_at {A} `{EqDecision A} (sep : A) (s : list A) : option (list A * list A) :=
  match s with
  | [] => None
  | c :: s' =>
      if bool_decide (c = sep) then Some ([], s')
      else '(name, value) ← split_at sep s'; Some (c :: name, value)
  end.

(** ** The environment of the C runtime *)

Section Runtime.

(** Strings of the runtime, with their equal sign; [u16] and [u8] convert
    ([None]: invalid UTF-8), [fold] maps a name to the form the runtime compares. *)
Context {char16 : Type} `{Countable char16} (equal16 : char16).
Context (u16 : cstr -> option (list char16)) (u8 : list char16 -> cstr)
  (fold : list char16 -> list char16).

(** Name as written and value, by folded name. *)
Abbreviation runtime := (gmap (list char16) (list char16 * list char16)).

Definition wgetenv (env : runtime) (name : list char16) : option (list char16) := snd <$> env !! fold name.

(** [name=value]; an empty value removes the variable. *)
Definition wputenv (env : runtime) (s : list char16) : runtime * Z :=
  match split_at equal16 s with
  | None | Some ([], _) => (env, -1)
  | Some (name, []) => (delete (fold name) env, 0)
  | Some (name, value) => (<[fold name := (name, value)]> env, 0)
  end.

Definition environment_strings (env : runtime) : list (list char16) :=
  (fun p : list char16 * (list char16 * list char16) => fst (snd p) ++ [equal16] ++ snd (snd p))
    <$> map_to_list env.

(** ** UTF-8 environment *)

Definition SIZEOF_CHAR16 : nat := 2.

Definition get_u16env (env : runtime) (name_u8 : cstr) : option (list char16) :=
  name ← u16 name_u8; wgetenv env name.

Definition update_environment_cache (cache : envcache) (envstr_u16 : list char16) : option envcache :=
  '(name, value) ← split_at EQUAL (u8 envstr_u16);
  '(cache, index) ← find_or_create cache name;
  update_entry cache index (fun e => envstr_set_value e value).

Fixpoint update_all (cache : envcache) (strs : list (list char16)) : option envcache :=
  match strs with
  | [] => Some cache
  | s :: strs' => cache ← update_environment_cache cache s; update_all cache strs'
  end.

Definition get_environ_utf8 (env : runtime) (cache : envcache) : option (envcache * list cstr) :=
  cache ← update_all cache (environment_strings env);
  let cache := envcache_update_envp cache in
  Some (cache, envp cache).

(** The inner result is [None] for a null pointer. *)
Definition getenv_utf8 (env : runtime) (cache : envcache) (name : cstr)
    : option (envcache * option cstr) :=
  match envcache_find_entry cache name with
  | Some index => value ← entry_value cache index; Some (cache, Some value)
  | None =>
      match get_u16env env name with
      | None => Some (cache, None)
      | Some val_u16 =>
          '(cache, index) ← envcache_create_entry cache name;
          let value := u8 val_u16 in
          cache ← update_entry cache index (fun e => write_value (envstr_resize_value e (length value)) value);
          value ← entry_value cache index;
          Some (cache, Some value)
      end
  end.

Definition setenv_utf8 (env : runtime) (cache : envcache) (name value : cstr) (overwrite : Z)
    : option (runtime * envcache * Z) :=
  match u16 name, u16 value with
  | Some name_u16, Some value_u16 =>
      if (overwrite =? 0) && bool_decide (is_Some (wgetenv env name_u16)) then Some (env, cache, 0)
      else
        '(cache, index) ← find_or_create cache name;
        cache ← update_entry cache index (fun e => envstr_set_value e value);
        let '(env', rv) := wputenv env (name_u16 ++ [equal16] ++ value_u16) in
        if negb (rv =? 0) then Some (env', envcache_remove_entry cache (Some index), -1)
        else Some (env', cache, 0)
  | _, _ => Some (env, cache, -1)
  end.

(** [mm_malloca] reserves [name_u16_len+1] bytes. *)
Definition unsetenv_utf8 (env : runtime) (cache : envcache) (name : cstr)
    : option (runtime * envcache * Z) :=
  let cache := envcache_remove_entry cache (envcache_find_entry cache name) in
  match u16 name with
  | None => Some (env, cache, -1)
  | Some name_u16 =>
      let name_u16_len := (length name_u16 + 1)%nat in
      if ((name_u16_len + 1) * SIZEOF_CHAR16 <=? name_u16_len + 1)%nat
      then let '(env', rv) := wputenv env (name_u16 ++ [equal16]) in Some (env', cache, rv)
      else None
  end.

End Runtime.

(** ** The cache as an association list *)

Definition reads (e : envstr) (p : cstr * cstr) : Prop :=
  str e = fst p ++ EQUAL :: snd p /\ namelen e = length (fst p) /\ (length (str e) < str_maxlen e)%nat.

Definition cache_repr (cache : envcache) (l : list (cstr * cstr)) : Prop :=
  Forall2 reads (array cache) l /\ (length l <= max_arrlen cache)%nat.

Lemma reads_value e p : reads e p -> envstr_get_value e = snd p.
Proof.
  intros (Hs & Hn & _). unfold envstr_get_value. rewrite Hs, Hn.
  rewrite drop_app_ge by lia. by replace (length (fst p) + 1 - length (fst p))%nat with 1%nat by lia.
Qed.

Lemma reads_matches e p name : reads e p -> entry_matches name e = true <-> fst p = name.
Proof.
  intros (Hs & Hn & _). unfold entry_matches. rewrite Hs, Hn, take_app_length.
  rewrite andb_true_iff, bool_decide_eq_true, Nat.eqb_eq. split; [tauto|]. by intros <-.
Qed.

Lemma reads_set e p v : reads e p -> exists e', envstr_set_value e v = Some e' /\ reads e' (fst p, v).
Proof.
  intros (Hs & Hn & Hm). unfold envstr_set_value, write_value, envstr_resize_value.
  set (need := (length v + namelen e + 2)%nat).
  assert (length (str e) = length (fst p) + S (length (snd p)))%nat as Hl by (by rewrite Hs, length_app).
  assert (take (namelen e + 1) (str e) = fst p ++ [EQUAL]) as Ht.
  { rewrite Hs, Hn. rewrite take_app_ge by lia. by replace (length (fst p) + 1 - length (fst p))%nat with 1%nat by lia. }
  destruct (str_maxlen e <? need)%nat eqn:E; cbn [namelen str_maxlen str]; zbool; unfold need in *;
    (rewrite (proj2 (Nat.leb_le _ _)) by lia); eexists; (split; [done|]); unfold reads; cbn [str namelen str_maxlen fst snd];
    rewrite Ht, <- app_assoc; (split; [done|]; split; [done|]); rewrite length_app; cbn; lia.
Qed.

Lemma find_entry_spec cache l name :
  cache_repr cache l ->
  match envcache_find_entry cache name with
  | Some i => exists v, l !! i = Some (name, v)
  | None => name ∉ l.*1
  end.
Proof.
  intros [Hf _]. unfold envcache_find_entry.
  destruct (list_find _ _) as [[i e]|] eqn:E; cbn.
  - apply list_find_Some in E as (He & Hm & _).
    destruct (Forall2_lookup_l _ _ _ _ _ Hf He) as ([n v] & Hl & Hr).
    apply (reads_matches _ _ name Hr) in Hm. cbn in Hm. subst n. eauto.
  - apply list_find_None in E. intros Hin. apply list_elem_of_fmap in Hin as ([n v] & -> & Hin). cbn in *.
    apply list_elem_of_lookup_1 in Hin as [i Hi].
    destruct (Forall2_lookup_r _ _ _ _ _ Hf Hi) as (e & He & Hr).
    rewrite Forall_forall in E. apply (E e); [by eapply list_elem_of_lookup_2|]. by apply (reads_matches _ _ n Hr).
Qed.

Lemma create_entry_spec cache l name :
  cache_repr cache l ->
  exists cache', envcache_create_entry cache name = Some (cache', length l)
    /\ cache_repr cache' (l ++ [(name, [])]).
Proof.
  intros [Hf Hm]. pose proof (Forall2_length _ _ _ Hf) as Hl. unfold envcache_create_entry. rewrite Hl.
  set (max := if (max_arrlen cache <? length l + 1)%nat then _ else _).
  assert (length l < max)%nat as Hmax.
  { unfold max. destruct (max_arrlen cache <? length l + 1)%nat eqn:E1; zbool; [|lia].
    destruct (max_arrlen cache =? 0)%nat eqn:E2; zbool; lia. }
  rewrite (proj2 (Nat.ltb_lt _ _)) by done. unfold envstr_init.
  rewrite (proj2 (Nat.leb_le _ _)) by lia. cbn. eexists. split; [done|]. split; cbn.
  - apply Forall2_app; [done|]. constructor; [|done]. split; [done|]. split; [done|]. cbn.
    rewrite length_app. cbn. lia.
  - rewrite length_app. cbn. lia.
Qed.

Lemma update_entry_spec cache l i name v v' :
  cache_repr cache l -> l !! i = Some (name, v) ->
  exists cache', update_entry cache i (fun e => envstr_set_value e v') = Some cache'
    /\ cache_repr cache' (<[i := (name, v')]> l).
Proof.
  intros [Hf Hm] Hi. destruct (Forall2_lookup_r _ _ _ _ _ Hf Hi) as (e & He & Hr).
  unfold update_entry. rewrite He. cbn. destruct (reads_set e _ v' Hr) as (e' & -> & Hr'). cbn.
  eexists. split; [done|]. split; cbn; [by apply Forall2_insert|by rewrite length_insert].
Qed.

Abbreviation cached l := (list_to_map l : gmap cstr cstr).

Lemma cached_insert (l : list (cstr * cstr)) i name v v' :
  NoDup l.*1 -> l !! i = Some (name, v) ->
  NoDup (<[i := (name, v')]> l).*1
  /\ cached (<[i := (name, v')]> l) = <[name := v']> (cached l).
Proof.
  intros Hd Hi. assert (NoDup (<[i := (name, v')]> l).*1) as Hd'.
  { rewrite list_fmap_insert. cbn. by rewrite list_insert_id by (by rewrite list_lookup_fmap, Hi). }
  split; [done|]. pose proof (lookup_lt_Some _ _ _ Hi) as Hlt.
  assert (cached l = <[name := v]> (cached (take i l ++ drop (S i) l))) as Hl.
  { rewrite <- list_to_map_cons. apply list_to_map_proper; [done|].
    rewrite <- (take_drop_middle l i _ Hi) at 1. by rewrite Permutation_middle. }
  rewrite Hl, insert_insert_eq, <- list_to_map_cons. apply list_to_map_proper; [done|].
  rewrite insert_take_drop by done. by rewrite Permutation_middle.
Qed.

Lemma cached_append (l : list (cstr * cstr)) name v :
  NoDup l.*1 -> name ∉ l.*1 ->
  NoDup (l ++ [(name, v)]).*1 /\ cached (l ++ [(name, v)]) = <[name := v]> (cached l).
Proof.
  intros Hd Hn. assert (NoDup (l ++ [(name, v)]).*1) as Hd'.
  { rewrite fmap_app. apply NoDup_app. split; [done|]. split; [set_solver|]. cbn. apply NoDup_singleton. }
  split; [done|]. rewrite <- list_to_map_cons. apply list_to_map_proper; [done|].
  by rewrite Permutation_app_comm.
Qed.

(** A cache that holds exactly the map [m]. *)
Definition holds (cache : envcache) (m : gmap cstr cstr) : Prop :=
  exists l, cache_repr cache l /\ NoDup l.*1 /\ cached l = m.

Lemma holds_empty : holds empty_cache ∅.
Proof. exists []. split; [split; [constructor|cbn; lia]|]. split; [constructor|done]. Qed.

Lemma holds_find cache m name :
  holds cache m ->
  match envcache_find_entry cache name with
  | Some i => exists v, m !! name = Some v /\ entry_value cache i = Some v
  | None => m !! name = None
  end.
Proof.
  intros (l & Hr & Hd & <-). pose proof (find_entry_spec cache l name Hr) as H.
  destruct (envcache_find_entry cache name) as [i|].
  - destruct H as [v Hi]. exists v. split.
    + apply elem_of_list_to_map_1; [done|]. by eapply list_elem_of_lookup_2.
    + destruct Hr as [Hf _]. destruct (Forall2_lookup_r _ _ _ _ _ Hf Hi) as (e & He & Hre).
      unfold entry_value. rewrite He. cbn. f_equal. by apply reads_value in Hre.
  - by apply not_elem_of_list_to_map_1.
Qed.

Lemma holds_set cache m name v :
  holds cache m ->
  exists cache1 i cache2, find_or_create cache name = Some (cache1, i)
    /\ update_entry cache1 i (fun e => envstr_set_value e v) = Some cache2
    /\ holds cache2 (<[name := v]> m) /\ entry_value cache2 i = Some v.
Proof.
  intros (l & Hr & Hd & <-). pose proof (find_entry_spec cache l name Hr) as H. unfold find_or_create.
  assert (forall c2 l2 i, cache_repr c2 l2 -> l2 !! i = Some (name, v) -> entry_value c2 i = Some v) as Hval.
  { intros c2 l2 i [Hf _] Hi. destruct (Forall2_lookup_r _ _ _ _ _ Hf Hi) as (e & He & Hre).
    unfold entry_value. rewrite He. cbn. f_equal. by apply reads_value in Hre. }
  destruct (envcache_find_entry cache name) as [i|].
  - destruct H as [v0 Hi]. destruct (update_entry_spec cache l i name v0 v Hr Hi) as (c2 & H2 & Hr2).
    destruct (cached_insert l i name v0 v Hd Hi) as [Hd2 Hm].
    exists cache, i, c2. split; [done|]. split; [done|]. split; [by eexists|].
    eapply Hval; [exact Hr2|]. apply list_lookup_insert_eq. by apply lookup_lt_Some in Hi.
  - destruct (create_entry_spec cache l name Hr) as (c1 & -> & Hr1).
    destruct (update_entry_spec c1 (l ++ [(name, [])]) (length l) name [] v Hr1) as (c2 & H2 & Hr2).
    { by rewrite lookup_app_r, Nat.sub_diag by lia. }
    destruct (cached_append l name v Hd H) as [Hd2 Hm].
    assert (<[length l := (name, v)]> (l ++ [(name, [])]) = l ++ [(name, v)]) as Hl.
    { rewrite insert_app_r_alt, Nat.sub_diag by lia. done. }
    rewrite Hl in Hr2. exists c1, (length l), c2. split; [done|]. split; [done|]. split; [by eexists|].
    eapply Hval; [exact Hr2|]. by rewrite lookup_app_r, Nat.sub_diag by lia.
Qed.

(** ** Refinement of a map *)

(** Conversions of a platform, on well-formed strings. *)
Class Conversions {char16 : Type} `{Countable char16} (equal16 : char16)
    (u16 : cstr -> option (list char16)) (u8 : list char16 -> cstr) : Prop := {
  u8_u16 s w : u16 s = Some w -> u8 w = s;
  u16_u8 w : u16 (u8 w) = Some w;
  u8_equal a b : u8 (a ++ equal16 :: b) = u8 a ++ EQUAL :: u8 b;
  u8_equal_inv w : EQUAL ∈ u8 w -> equal16 ∈ w;
  u8_nil : u8 [] = []
}.

Lemma split_at_first {A} `{EqDecision A} (sep : A) (a b : list A) :
  sep ∉ a -> split_at sep (a ++ sep :: b) = Some (a, b).
Proof.
  induction a as [|c a IH]; intros Ha; cbn; [by rewrite bool_decide_true|].
  rewrite bool_decide_false by set_solver. by rewrite IH by set_solver.
Qed.

Section Refinement.

Context {char16 : Type} `{Countable char16} (equal16 : char16).
Context (u16 : cstr -> option (list char16)) (u8 : list char16 -> cstr)
  (fold : list char16 -> list char16).
Context `{!Conversions equal16 u16 u8}.

(** The names in use, among which the runtime confuses no two. *)
Context (used : list char16 -> Prop).
Context (fold_used : forall n m, used n -> used m -> fold n = fold m -> n = m).

Abbreviation runtime := (gmap (list char16) (list char16 * list char16)).

Definition name_ok (w : list char16) : Prop := used w /\ w <> [] /\ equal16 ∉ w.

Definition runtime_ok (env : runtime) : Prop :=
  forall k n v, env !! k = Some (n, v) -> k = fold n /\ name_ok n /\ v <> [].

(** The runtime has the value [v] for [name]. *)
Definition in_runtime (env : runtime) (name v : cstr) : Prop :=
  exists w v16, u16 name = Some w /\ name_ok w /\ wgetenv fold env w = Some v16 /\ u8 v16 = v.

(** Seen from outside, the environment is the runtime and, in the cache, the
    variables set to the empty string, that the runtime does not keep. *)
Record refines (env : runtime) (cache : envcache) (A : gmap cstr cstr) : Prop := {
  ref_env : runtime_ok env;
  ref_cache : exists m, holds cache m /\ m ⊆ A
    /\ forall name v, A !! name = Some v <-> in_runtime env name v \/ (v = [] /\ m !! name = Some [])
}.

Lemma u8_nil_inv w : u8 w = [] -> w = [].
Proof. intros Hw. pose proof (u16_u8 w) as H1. pose proof (u16_u8 []) as H2. rewrite Hw in H1. rewrite u8_nil in H2. congruence. Qed.

Lemma wgetenv_ok env w v16 :
  runtime_ok env -> name_ok w -> wgetenv fold env w = Some v16 -> env !! fold w = Some (w, v16) /\ v16 <> [].
Proof.
  intros Hr [Hu _] Hw. unfold wgetenv in Hw. destruct (env !! fold w) as [[n v]|] eqn:E; [|done].
  injection Hw as ->. destruct (Hr _ _ _ E) as (Hk & (Hn & _) & Hv).
  by rewrite (fold_used _ _ Hu Hn Hk).
Qed.

Lemma in_runtime_nonempty env name v : runtime_ok env -> in_runtime env name v -> v <> [].
Proof.
  intros Hr (w & v16 & _ & Hn & Hw & <-) Hv. apply u8_nil_inv in Hv.
  by destruct (wgetenv_ok _ _ _ Hr Hn Hw).
Qed.

Lemma wgetenv_A env cache A name w :
  refines env cache A -> u16 name = Some w -> name_ok w ->
  match wgetenv fold env w with
  | Some v16 => A !! name = Some (u8 v16) /\ u8 v16 <> []
  | None => A !! name = None \/ A !! name = Some []
  end.
Proof.
  intros [Hr (m & _ & _ & HA)] Hu Hn. destruct (wgetenv fold env w) as [v16|] eqn:E.
  - assert (in_runtime env name (u8 v16)) as Hin by (exists w, v16; eauto).
    split; [apply HA; by left|]. by apply (in_runtime_nonempty _ _ _ Hr) in Hin.
  - destruct (A !! name) as [v|] eqn:Ev; [right|by left]. apply HA in Ev.
    destruct Ev as [(w' & v16 & Hu' & _ & Hw & _)|[-> _]]; [congruence|done].
Qed.

Lemma getenv_refines env cache A name w :
  refines env cache A -> u16 name = Some w -> name_ok w ->
  exists cache', getenv_utf8 u16 u8 fold env cache name = Some (cache', A !! name) /\ refines env cache' A.
Proof.
  intros Href Hu Hn. pose proof (wgetenv_A _ _ _ _ _ Href Hu Hn) as Hg.
  destruct Href as [Hr (m & Hh & Hsub & HA)]. unfold getenv_utf8.
  pose proof (holds_find cache m name Hh) as Hf. unfold get_u16env. rewrite Hu. cbn [mbind option_bind].
  destruct (envcache_find_entry cache name) as [i|] eqn:Ei.
  - destruct Hf as (v & Hm & ->). cbn. rewrite (lookup_weaken _ _ _ _ Hm Hsub).
    eexists. split; [done|]. split; [done|]. by exists m.
  - destruct (wgetenv fold env w) as [v16|] eqn:E.
    + destruct Hg as [HAn Hne].
      destruct (holds_set cache m name (u8 v16) Hh) as (c1 & j & c2 & H1 & H2 & H3 & H4).
      unfold find_or_create in H1. rewrite Ei in H1. rewrite H1. cbn [mbind option_bind].
      unfold envstr_set_value in H2. rewrite H2. cbn [mbind option_bind]. rewrite H4. cbn. rewrite HAn.
      eexists. split; [done|]. split; [done|]. exists (<[name := u8 v16]> m). split; [done|]. split.
      * by apply insert_subseteq_l.
      * intros k v. rewrite HA. destruct (decide (k = name)) as [->|]; [|by rewrite lookup_insert_ne].
        rewrite lookup_insert_eq, Hf. split; (intros [|[-> Hx]]; [by left|]); congruence.
    + eexists. split; [|split; [done|by exists m]]. f_equal. f_equal.
      destruct Hg as [Hg|Hg]; [done|]. exfalso. apply HA in Hg.
      destruct Hg as [Hg|[_ Hg]]; [by apply (in_runtime_nonempty _ _ _ Hr) in Hg|congruence].
Qed.

Lemma wputenv_spec env w v16 :
  name_ok w ->
  wputenv equal16 fold env (w ++ [equal16] ++ v16)
  = (if bool_decide (v16 = []) then delete (fold w) env else <[fold w := (w, v16)]> env, 0).
Proof.
  intros (_ & Hne & He). unfold wputenv. cbn [app]. rewrite split_at_first by done.
  destruct w; [done|]. by destruct v16.
Qed.

(** The environment of the runtime after a variable is set. *)
Lemma runtime_set env w v16 :
  runtime_ok env -> name_ok w ->
  let env' := if bool_decide (v16 = []) then delete (fold w) env else <[fold w := (w, v16)]> env in
  runtime_ok env'
  /\ (forall n, name_ok n -> wgetenv fold env' n
        = if decide (n = w) then (if bool_decide (v16 = []) then None else Some v16) else wgetenv fold env n).
Proof.
  intros Hr Hw env'. split.
  - unfold env'. case_bool_decide; intros k n v Hk.
    + apply lookup_delete_Some in Hk as [_ Hk]. by apply Hr.
    + apply lookup_insert_Some in Hk as [[<- [= <- <-]]|[_ Hk]]; [done|by apply Hr].
  - intros n Hn. unfold wgetenv, env'. case_decide as Hd.
    + subst n. case_bool_decide; [by rewrite lookup_delete_eq|by rewrite lookup_insert_eq].
    + assert (fold w <> fold n) as Hf by (intros E; apply Hd; symmetry; by apply fold_used; [apply Hw|apply Hn|]).
      case_bool_decide; [by rewrite lookup_delete_ne|by rewrite lookup_insert_ne].
Qed.

(** What a map becomes: an existing value is kept unless it is empty. *)
Definition set_spec (A : gmap cstr cstr) (name value : cstr) (overwrite : Z) : gmap cstr cstr :=
  if (overwrite =? 0) && bool_decide (default [] (A !! name) <> []) then A else <[name := value]> A.

Lemma setenv_refines env cache A name w value v16 overwrite :
  refines env cache A -> u16 name = Some w -> name_ok w -> u16 value = Some v16 ->
  exists env' cache', setenv_utf8 equal16 u16 fold env cache name value overwrite = Some (env', cache', 0)
    /\ refines env' cache' (set_spec A name value overwrite).
Proof.
  intros Href Hu Hn Hv. pose proof (wgetenv_A _ _ _ _ _ Href Hu Hn) as Hg.
  unfold setenv_utf8, set_spec. rewrite Hu, Hv.
  assert (bool_decide (default [] (A !! name) <> []) = bool_decide (is_Some (wgetenv fold env w))) as ->.
  { apply bool_decide_ext. destruct (wgetenv fold env w) as [x|].
    - destruct Hg as [-> Hne]. cbn. split; eauto.
    - split; [|by intros [? ?]]. destruct Hg as [-> | ->]; cbn; done. }
  destruct (_ && _); [exists env, cache; done|].
  destruct Href as [Hr (m & Hh & Hsub & HA)].
  destruct (holds_set cache m name value Hh) as (c1 & i & c2 & -> & H2 & H3 & _). cbn [mbind option_bind]. rewrite H2.
  cbn [mbind option_bind]. rewrite wputenv_spec by done. cbn [Z.eqb negb].
  destruct (runtime_set env w v16 Hr Hn) as [Hr' Hw'].
  eexists _, _. split; [done|]. split; [done|]. exists (<[name := value]> m). split; [done|].
  split; [by apply insert_mono|]. intros k v.
  assert (value = [] <-> v16 = []) as Hnil.
  { pose proof (u8_u16 _ _ Hv) as E. split; intros ->; [by apply u8_nil_inv|by rewrite <- E, u8_nil]. }
  destruct (decide (k = name)) as [->|Hk].
  - rewrite !lookup_insert_eq. split.
    + intros [= <-]. destruct (decide (v16 = [])) as [E|E]; [right; split; [by apply Hnil|f_equal; by apply Hnil]|left].
      exists w, v16. split; [done|]. split; [done|]. split; [|by apply u8_u16].
      rewrite Hw', decide_True by done. by rewrite bool_decide_false.
    + intros [(w' & x & Hu' & Hn' & Hx & <-)|[-> Hx]]; [|congruence]. rewrite Hu in Hu'. injection Hu' as <-.
      rewrite Hw', decide_True in Hx by done. case_bool_decide; [done|]. injection Hx as <-. f_equal. symmetry. by apply u8_u16.
  - rewrite !lookup_insert_ne by done. rewrite HA.
    enough (in_runtime env k v <-> in_runtime
      (if bool_decide (v16 = []) then delete (fold w) env else <[fold w := (w, v16)]> env) k v) as -> by done.
    assert (forall w', u16 k = Some w' -> w' <> w) as Hne.
    { intros w' Hu' ->. apply Hk. by rewrite <- (u8_u16 _ _ Hu'), (u8_u16 _ _ Hu). }
    split; intros (w' & x & Hu' & Hn' & Hx & E); exists w', x; (split; [done|]; split; [done|]; split; [|done]).
    + rewrite Hw' by done. by rewrite decide_False by eauto.
    + rewrite Hw' in Hx by done. by rewrite decide_False in Hx by eauto.
Qed.

Lemma u8_name_ok n : name_ok n -> EQUAL ∉ u8 n.
Proof. intros (_ & _ & He) Hin. by apply He, u8_equal_inv. Qed.

Lemma update_all_spec A strs cache m :
  Forall (fun s => exists n v, s = n ++ [equal16] ++ v /\ name_ok n /\ A !! u8 n = Some (u8 v)) strs ->
  holds cache m -> m ⊆ A ->
  exists cache' m', update_all u8 cache strs = Some cache' /\ holds cache' m' /\ m ⊆ m' /\ m' ⊆ A
    /\ forall n v, name_ok n -> (n ++ [equal16] ++ v) ∈ strs -> m' !! u8 n = Some (u8 v).
Proof.
  intros Hs. revert cache m. induction Hs as [|s strs (n & v & -> & Hn & HA) Hs IH]; intros cache m Hh Hsub.
  { exists cache, m. split; [done|]. split; [done|]. split; [done|]. split; [done|]. intros n v _ Hin. by apply elem_of_nil in Hin. }
  cbn [update_all]. unfold update_environment_cache. cbn [app]. rewrite u8_equal, split_at_first by by apply u8_name_ok.
  cbn [mbind option_bind].
  destruct (holds_set cache m (u8 n) (u8 v) Hh) as (c1 & i & c2 & -> & H2 & H3 & _). cbn [mbind option_bind]. rewrite H2.
  cbn [mbind option_bind].
  destruct (IH c2 (<[u8 n := u8 v]> m) H3) as (c' & m' & -> & Hh' & Hm & Hm' & Hin); [by apply insert_subseteq_l|].
  exists c', m'. split; [done|]. split; [done|]. split; [|split; [done|]].
  - etrans; [|exact Hm]. apply map_subseteq_spec. intros k x Hk. destruct (decide (k = u8 n)) as [->|].
    + rewrite lookup_insert_eq. pose proof (lookup_weaken _ _ _ _ Hk Hsub). congruence.
    + by rewrite lookup_insert_ne.
  - intros n' v' Hn' Hin'. apply elem_of_cons in Hin' as [E|Hin']; [|by apply Hin].
    apply (f_equal (split_at equal16)) in E. cbn [app] in E.
    rewrite !split_at_first in E by (apply Hn || apply Hn'). injection E as -> ->.
    eapply lookup_weaken; [|exact Hm]. by rewrite lookup_insert_eq.
Qed.

Definition environ_strings (A : gmap cstr cstr) : list cstr :=
  (fun p : cstr * cstr => fst p ++ EQUAL :: snd p) <$> map_to_list A.

Lemma get_environ_refines env cache A :
  refines env cache A ->
  exists cache' l, get_environ_utf8 equal16 u8 env cache = Some (cache', l)
    /\ refines env cache' A /\ l ≡ₚ environ_strings A.
Proof.
  intros [Hr (m & Hh & Hsub & HA)]. unfold get_environ_utf8.
  destruct (update_all_spec A (environment_strings equal16 env) cache m) as (c' & m' & -> & Hh' & Hm & Hm' & Hin).
  { apply Forall_forall. intros s Hs. unfold environment_strings in Hs.
    apply list_elem_of_fmap in Hs as ([k [n v]] & -> & Hs). apply elem_of_map_to_list in Hs. cbn.
    destruct (Hr _ _ _ Hs) as (-> & Hn & _). exists n, v. split; [done|]. split; [done|].
    apply HA. left. exists n, v. split; [apply u16_u8|]. split; [done|]. split; [|done]. unfold wgetenv. by rewrite Hs. }
  { done. } { done. }
  assert (m' = A) as ->.
  { apply (anti_symm (⊆)); [done|]. apply map_subseteq_spec. intros name v Hv. apply HA in Hv.
    destruct Hv as [(w & v16 & Hu & Hn & Hw & <-)|[-> Hv]]; [|by eapply lookup_weaken].
    rewrite <- (u8_u16 _ _ Hu). apply Hin; [done|]. unfold environment_strings. apply list_elem_of_fmap.
    exists (fold w, (w, v16)). split; [done|]. apply elem_of_map_to_list. by apply (wgetenv_ok _ _ _ Hr Hn). }
  destruct Hh' as (l & Hl & Hd & Hc). cbn [mbind option_bind]. eexists _, _. split; [done|]. split.
  - split; [done|]. exists A. split; [exists l; split; [exact Hl|done]|]. split; [done|].
    intros name v. rewrite HA. split; (intros [Hx|[-> Hx]]; [by left|right; split; [done|]]).
    + by eapply lookup_weaken.
    + assert (A !! name = Some []) as Hx' by done. apply HA in Hx' as [Hx'|[_ Hx']]; [|done].
      by apply (in_runtime_nonempty _ _ _ Hr) in Hx'.
  - unfold envcache_update_envp, environ_strings. cbn [envp]. rewrite <- Hc, map_to_list_to_map by done.
    destruct Hl as [Hf _]. clear -Hf. induction Hf as [|e p es l (He & _) _ IH]; [done|]. cbn. rewrite He. by constructor.
Qed.

(** ** Sequences of calls *)

Inductive env_op :=
| OpGet (name : cstr)
| OpSet (name value : cstr) (overwrite : Z)
| OpEnviron.

Inductive env_res :=
| ResGet (value : option cstr)
| ResSet (rv : Z)
| ResEnviron (strs : list cstr).

Definition impl_step (env : runtime) (cache : envcache) (op : env_op)
    : option (runtime * envcache * env_res) :=
  match op with
  | OpGet name => '(cache, v) ← getenv_utf8 u16 u8 fold env cache name; Some (env, cache, ResGet v)
  | OpSet name value ow =>
      '(env, cache, rv) ← setenv_utf8 equal16 u16 fold env cache name value ow; Some (env, cache, ResSet rv)
  | OpEnviron => '(cache, l) ← get_environ_utf8 equal16 u8 env cache; Some (env, cache, ResEnviron l)
  end.

Fixpoint impl_run (env : runtime) (cache : envcache) (ops : list env_op) : option (list env_res) :=
  match ops with
  | [] => Some []
  | op :: ops' =>
      '(env, cache, r) ← impl_step env cache op; rs ← impl_run env cache ops'; Some (r :: rs)
  end.

Definition spec_step (A : gmap cstr cstr) (op : env_op) : gmap cstr cstr * env_res :=
  match op with
  | OpGet name => (A, ResGet (A !! name))
  | OpSet name value ow => (set_spec A name value ow, ResSet 0)
  | OpEnviron => (A, ResEnviron (environ_strings A))
  end.

Fixpoint spec_run (A : gmap cstr cstr) (ops : list env_op) : list env_res :=
  match ops with
  | [] => []
  | op :: ops' => snd (spec_step A op) :: spec_run (fst (spec_step A op)) ops'
  end.

(** The order of the strings of an environment is not specified. *)
Definition same_result (r s : env_res) : Prop :=
  match r, s with
  | ResEnviron l, ResEnviron l' => l ≡ₚ l'
  | _, _ => r = s
  end.

Definition op_ok (op : env_op) : Prop :=
  match op with
  | OpGet name => exists w, u16 name = Some w /\ name_ok w
  | OpSet name value _ => (exists w, u16 name = Some w /\ name_ok w) /\ is_Some (u16 value)
  | OpEnviron => True
  end.

Lemma impl_step_refines env cache A op :
  refines env cache A -> op_ok op ->
  exists env' cache' r, impl_step env cache op = Some (env', cache', r)
    /\ refines env' cache' (fst (spec_step A op)) /\ same_result r (snd (spec_step A op)).
Proof.
  intros Href Hok. destruct op as [name|name value ow|]; cbn.
  - destruct Hok as (w & Hu & Hn). destruct (getenv_refines env cache A name w Href Hu Hn) as (c & -> & H1).
    cbn. exists env, c, (ResGet (A !! name)). done.
  - destruct Hok as [(w & Hu & Hn) [v16 Hv]].
    destruct (setenv_refines env cache A name w value v16 ow Href Hu Hn Hv) as (e & c & -> & H1).
    cbn. exists e, c, (ResSet 0). done.
  - destruct (get_environ_refines env cache A Href) as (c & l & -> & H1 & H2).
    cbn. exists env, c, (ResEnviron l). done.
Qed.

(** The environment at the start, as UTF-8. *)
Definition environment_of (env : runtime) : gmap cstr cstr :=
  list_to_map ((fun p : list char16 * (list char16 * list char16) => (u8 (fst (snd p)), u8 (snd (snd p))))
                 <$> map_to_list env).

Lemma u8_inj a b : u8 a = u8 b -> a = b.
Proof. intros E. pose proof (u16_u8 a) as Ha. rewrite E, u16_u8 in Ha. congruence. Qed.

Lemma environment_of_spec env :
  runtime_ok env ->
  forall name v, environment_of env !! name = Some v <-> in_runtime env name v.
Proof.
  intros Hr name v. unfold environment_of.
  assert (NoDup ((fun p : list char16 * (list char16 * list char16) => (u8 (fst (snd p)), u8 (snd (snd p)))) <$> map_to_list env).*1) as Hd.
  { rewrite <- list_fmap_compose. apply NoDup_fmap_2_strong; [|apply NoDup_map_to_list].
    intros [k1 [n1 v1]] [k2 [n2 v2]] H1 H2 E. cbn in E. apply u8_inj in E as ->.
    apply elem_of_map_to_list in H1, H2. destruct (Hr _ _ _ H1) as (-> & _), (Hr _ _ _ H2) as (-> & _). congruence. }
  rewrite <- elem_of_list_to_map by done. rewrite list_elem_of_fmap. split.
  - intros ([k [n v16]] & [= -> ->] & Hk). apply elem_of_map_to_list in Hk. destruct (Hr _ _ _ Hk) as (-> & Hn & _).
    exists n, v16. split; [apply u16_u8|]. split; [done|]. split; [|done]. unfold wgetenv. by rewrite Hk.
  - intros (w & v16 & Hu & Hn & Hw & <-). exists (fold w, (w, v16)). split; [by rewrite <- (u8_u16 _ _ Hu)|].
    apply elem_of_map_to_list. by apply wgetenv_ok.
Qed.

Lemma refines_start env : runtime_ok env -> refines env empty_cache (environment_of env).
Proof.
  intros Hr. split; [done|]. exists ∅. split; [apply holds_empty|]. split; [apply map_empty_subseteq|].
  intros name v. rewrite environment_of_spec by done. rewrite lookup_empty. split; [by left|]. by intros [?|[_ ?]].
Qed.

Lemma impl_run_refines env cache A ops :
  refines env cache A -> Forall op_ok ops ->
  exists rs, impl_run env cache ops = Some rs /\ Forall2 same_result rs (spec_run A ops).
Proof.
  intros Href Hops. revert env cache A Href. induction Hops as [|op ops Hop Hops IH]; intros env cache A Href.
  { exists []. split; [done|constructor]. }
  destruct (impl_step_refines env cache A op Href Hop) as (e & c & r & H1 & H2 & H3).
  destruct (IH _ _ _ H2) as (rs & H4 & H5). cbn [impl_run spec_run]. rewrite H1. cbn [mbind option_bind]. rewrite H4. cbn.
  eexists. split; [done|]. by constructor.
Qed.

End Refinement.


#[local] Instance ascii_conversions : Conversions EQUAL (@Some cstr) (fun w : cstr => w).
Proof. split; try done. by intros s w [= ->]. Qed.


(** The temporary string of [unsetenv_utf8] never holds its UTF-16 characters. *)
Lemma unsetenv_utf8_overflows {char16 : Type} `{Countable char16} (equal16 : char16)
    (u16 : cstr -> option (list char16)) (fold : list char16 -> list char16)
    (env : gmap (list char16) (list char16 * list char16)) (cache : envcache) (name : cstr) :
  is_Some (u16 name) -> unsetenv_utf8 equal16 u16 fold env cache name = None.
Proof.
  intros [w Hw]. unfold unsetenv_utf8. rewrite Hw. unfold SIZEOF_CHAR16.
  rewrite (proj2 (Nat.leb_gt _ _)) by lia. done.
Qed.
