(* ===== verification/Profile.v ===== *)
(** * Profiling

    [profile.c]: time stamps of [mm_tic] and [mm_toc], statistics of their
    differences, approximate median, results.  The time read by a call is its
    argument.  Times are unbounded integers: the code computes them in 64 bits
    of nanoseconds, enough for 292 years.  [None] is an access out of an array
    or a division by zero. *)

From S2P Require Import Prelude CStr Time.

Definition NUM_TS_MAX : nat := 16.
Definition MAX_LABEL_LEN : nat := 64.
Definition STEP_NEED_INIT : Z := INT64_MAX.

Definition PROF_CURR : Z := 0x01.
Definition PROF_MIN : Z := 0x02.
Definition PROF_MAX : Z := 0x04.
Definition PROF_MEAN : Z := 0x08.
Definition PROF_MEDIAN : Z := 0x10.
Definition PROF_FORCE_NSEC : Z := 0x100.
Definition PROF_FORCE_USEC : Z := 0x200.
Definition PROF_FORCE_MSEC : Z := 0x300.
Definition PROF_FORCE_SEC : Z := 0x400.
Definition UNIT_MASK : Z :=
  Z.lor (Z.lor PROF_FORCE_NSEC PROF_FORCE_USEC) (Z.lor PROF_FORCE_MSEC PROF_FORCE_SEC).
Definition PROF_RESET_CPUCLOCK : Z := 0x01.
Definition PROF_RESET_KEEPLABEL : Z := 0x02.

(** Scale and forcing flag of each unit: ns, us, ms, s. *)
Definition unit_list : list (Z * Z) :=
  [(1, PROF_FORCE_NSEC); (1000, PROF_FORCE_USEC); (1000000, PROF_FORCE_MSEC); (1000000000, PROF_FORCE_SEC)].

(** ** Approximate median *)

Record median_estimator := mk_me { median : Z; step : Z }.

Definition median_estimator_init (me : median_estimator) : median_estimator :=
  mk_me (median me) STEP_NEED_INIT.

Definition median_estimator_update (me : median_estimator) (data : Z) : median_estimator :=
  if step me =? STEP_NEED_INIT then mk_me data (Z.max (Z.abs (Z.quot data 2)) NS_IN_SEC)
  else
    let diff := data - median me in
    let med := if 0 <? diff then median me + step me
               else if diff <? 0 then median me - step me else median me in
    mk_me med
      (if Z.abs diff <? step me then Z.quot (step me) 2
       else step me + Z.max (Z.shiftr (step me) 4) 1).

Definition median_estimator_getvalue (me : median_estimator) : Z := median me.

(** ** Profile data *)

(** The statistics of one point of measure. *)
Record stat := mk_stat { min_diff_ts : Z; max_diff_ts : Z; sum_diff_ts : Z; median_diff_ts : median_estimator }.

Record profile := mk_prof {
  clock_id : Z;
  num_ts : nat;
  next_ts : nat;
  num_iter : Z;
  toc_overhead : Z;
  timestamps : list mm_timespec;
  stats : list stat;
  labels : list bool;               (* whether the label points to its storage *)
  label_storage : list cstr
}.

(** The static variables of the file when the program starts. *)
Definition startup : profile :=
  mk_prof 0 0 0 0 0 (replicate NUM_TS_MAX (mk_ts 0 0)) (replicate NUM_TS_MAX (mk_stat 0 0 0 (mk_me 0 0)))
    (replicate NUM_TS_MAX false) (replicate NUM_TS_MAX []).

Definition get_diff_ts (p : profile) (i : nat) : option Z :=
  a ← timestamps p !! (i - 1)%nat; b ← timestamps p !! i;
  Some ((tv_sec b - tv_sec a) * NS_IN_SEC + (tv_nsec b - tv_nsec a) - toc_overhead p).

Definition set_stats (s : list stat) (p : profile) : profile :=
  mk_prof (clock_id p) (num_ts p) (next_ts p) (num_iter p) (toc_overhead p) (timestamps p) s (labels p) (label_storage p).

Definition update_stat (diff : Z) (s : stat) : stat :=
  mk_stat (Z.min diff (min_diff_ts s)) (Z.max diff (max_diff_ts s)) (sum_diff_ts s + diff)
    (median_estimator_update (median_diff_ts s) diff).

(** The loop of [update_diffs], [n] points being left from [i] on. *)
Fixpoint update_from (n i : nat) (p : profile) : option profile :=
  match n with
  | O => Some p
  | S n =>
      diff ← get_diff_ts p i;
      s ← stats p !! i;
      update_from n (S i) (set_stats (<[i := update_stat diff s]> (stats p)) p)
  end.

Definition update_diffs (p : profile) : option profile := update_from (next_ts p - 1) 1 p.

Definition reset_stat (s : stat) : stat :=
  mk_stat INT64_MAX 0 0 (median_estimator_init (median_diff_ts s)).

Definition reset_diffs (p : profile) : profile :=
  mk_prof (clock_id p) 0 0 0 (toc_overhead p) (timestamps p) (reset_stat <$> stats p) (labels p)
    (label_storage p).

Definition local_toc (now : mm_timespec) (p : profile) : option profile :=
  if (next_ts p =? NUM_TS_MAX - 1)%nat then Some p
  else if (next_ts p <? length (timestamps p))%nat then
    Some (mk_prof (clock_id p) (Nat.max (num_ts p) (next_ts p + 1)) (next_ts p + 1) (num_iter p)
            (toc_overhead p) (<[next_ts p := now]> (timestamps p)) (stats p) (labels p) (label_storage p))
  else None.

Definition mm_tic (now : mm_timespec) (p : profile) : option profile :=
  p ← update_diffs p;
  local_toc now (mk_prof (clock_id p) (num_ts p) 0 (num_iter p + 1) (toc_overhead p)
                   (timestamps p) (stats p) (labels p) (label_storage p)).

Definition mm_toc : mm_timespec -> profile -> option profile := local_toc.

(** Only the first label of a point of measure is kept, cut to its storage. *)
Definition set_label (label : cstr) (p : profile) : profile :=
  mk_prof (clock_id p) (num_ts p) (next_ts p) (num_iter p) (toc_overhead p) (timestamps p) (stats p)
    (<[next_ts p := true]> (labels p)) (<[next_ts p := take (MAX_LABEL_LEN - 1) label]> (label_storage p)).

Definition mm_toc_label (label : cstr) (now : mm_timespec) (p : profile) : option profile :=
  l ← labels p !! next_ts p;
  local_toc now (if l : bool then p else set_label label p).

Definition set_overhead (o : Z) (p : profile) : profile :=
  mk_prof (clock_id p) (num_ts p) (next_ts p) (num_iter p) o (timestamps p) (stats p) (labels p) (label_storage p).

(** [n] turns are left; [clock] gives the time read by each call in turn. *)
Fixpoint overhead_loop (n : nat) (first : bool) (clock : nat -> mm_timespec) (pos : nat) (p : profile)
    : option profile :=
  match n with
  | O => Some p
  | S n =>
      p ← mm_tic (clock pos) p; p ← mm_toc (clock (pos + 1)%nat) p; p ← mm_toc (clock (pos + 2)%nat) p;
      p ← mm_tic (clock (pos + 3)%nat) p;
      p ← mm_toc_label [] (clock (pos + 4)%nat) p; p ← mm_toc_label [] (clock (pos + 5)%nat) p;
      overhead_loop n false clock (pos + 6) (if first then reset_diffs p else p)
  end.

Definition estimate_toc_overhead (clock : nat -> mm_timespec) (p : profile) : option profile :=
  p ← overhead_loop 1000 true clock 0 (set_overhead 0 (reset_diffs p));
  s1 ← stats p !! 1%nat; s2 ← stats p !! 2%nat;
  Some (set_overhead (Z.min (min_diff_ts s1) (min_diff_ts s2)) p).

Definition mm_profile_reset (flags : Z) (clock : nat -> mm_timespec) (p : profile) : option profile :=
  p ← estimate_toc_overhead clock
        (mk_prof (if Z.land flags PROF_RESET_CPUCLOCK =? 0 then MM_CLK_MONOTONIC else MM_CLK_CPU_PROCESS) (num_ts p) (next_ts p) (num_iter p)
           (toc_overhead p) (timestamps p) (stats p) (labels p) (label_storage p));
  let p := reset_diffs p in
  Some (if Z.land flags PROF_RESET_KEEPLABEL =? 0
        then mk_prof (clock_id p) (num_ts p) (next_ts p) (num_iter p) (toc_overhead p) (timestamps p) (stats p)
               (true :: replicate (NUM_TS_MAX - 1) false) (label_storage p)
        else p).

(** ** Results *)

(** Length of what the label of a point of measure prints. *)
Definition label_len (p : profile) (i : nat) : nat :=
  match labels p !! i, label_storage p !! i with
  | Some true, Some l => length l
  | _, _ => 2
  end.

Definition max_label_len (p : profile) : nat :=
  Nat.min (MAX_LABEL_LEN - 1) (max_list_with (label_len p) (seq 1 (num_ts p - 1))).

(** The mean is computed as a floating point number and truncated: the result
    is the quotient of the integers below [2^53] nanoseconds. *)
Definition mean_of (p : profile) (s : stat) : option Z :=
  if num_iter p =? 0 then None else Some (Z.quot (sum_diff_ts s) (num_iter p)).

Definition column (p : profile) (num_points : nat) (f : nat -> option Z) : option (list Z) :=
  mapM f (seq 1 num_points).

Definition stat_column (p : profile) (num_points : nat) (f : stat -> option Z) : option (list Z) :=
  column p num_points (fun i => s ← stats p !! i; f s).

Definition when (b : bool) (c : option (list Z)) : option (list (list Z)) :=
  if b then l ← c; Some [l] else Some [].

(** The columns requested, in the order of the table. *)
Definition compute_requested_timings (mask : Z) (num_points : nat) (p : profile) : option (list (list Z)) :=
  let has f := negb (Z.land mask f =? 0) in
  c1 ← when (has PROF_CURR) (column p num_points (get_diff_ts p));
  c2 ← when (has PROF_MEAN) (stat_column p num_points (mean_of p));
  c3 ← when (has PROF_MIN) (stat_column p num_points (fun s => Some (min_diff_ts s)));
  c4 ← when (has PROF_MAX) (stat_column p num_points (fun s => Some (max_diff_ts s)));
  c5 ← when (has PROF_MEDIAN)
         (stat_column p num_points (fun s => Some (median_estimator_getvalue (median_diff_ts s))));
  Some (c1 ++ c2 ++ c3 ++ c4 ++ c5).

Fixpoint forced_unit (units : list (Z * Z)) (mask : Z) (i : nat) : option nat :=
  match units with
  | [] => None
  | (_, f) :: units' => if f =? Z.land mask UNIT_MASK then Some i else forced_unit units' mask (S i)
  end.

Fixpoint fitting_unit (units : list (Z * Z)) (minval maxval : Z) (i : nat) : nat :=
  match units with
  | [] | [_] => i
  | (scale, _) :: units' =>
      if ((minval <? scale * 100) && (maxval <? scale * 10000)) || (maxval - minval <? scale) then i
      else fitting_unit units' minval maxval (S i)
  end.

(** The index of the unit. *)
Definition get_display_unit (data : list Z) (mask : Z) : nat :=
  match forced_unit unit_list mask 0 with
  | Some i => i
  | None => fitting_unit unit_list (foldr Z.min INT64_MAX data) (foldr Z.max 0 data) 0
  end.

(** What [mm_profile_print] does to the data before it prints them. *)
Definition mm_profile_print_data (mask : Z) (p : profile) : option (profile * list (list Z) * nat) :=
  p ← update_diffs p;
  data ← compute_requested_timings mask (num_ts p - 1) p;
  Some (p, data, get_display_unit (concat data) mask).

Definition one_type (type : Z) : bool :=
  existsb (Z.eqb type) [PROF_CURR; PROF_MIN; PROF_MEAN; PROF_MAX; PROF_MEDIAN].

Definition mm_profile_get_data (measure_point type : Z) (p : profile) : option Z :=
  if Z.of_nat (num_ts p) - 1 <=? measure_point then Some (-1)
  else if negb (one_type type) then Some (-1)
  else
    data ← compute_requested_timings (Z.lor type PROF_FORCE_NSEC) (num_ts p - 1) p;
    if measure_point <? 0 then None else concat data !! Z.to_nat measure_point.

(** ** Well-formed data *)

Record wf (p : profile) : Prop := {
  wf_ts : length (timestamps p) = NUM_TS_MAX;
  wf_stats : length (stats p) = NUM_TS_MAX;
  wf_labels : length (labels p) = NUM_TS_MAX;
  wf_storage : length (label_storage p) = NUM_TS_MAX;
  wf_next : (next_ts p < NUM_TS_MAX)%nat;
  wf_num : (next_ts p <= num_ts p < NUM_TS_MAX)%nat
}.

Ltac wf_tac :=
  constructor; simpl;
  rewrite ?length_insert, ?length_fmap, ?length_replicate; unfold NUM_TS_MAX in *; try assumption; first [lia | reflexivity].

Lemma set_stats_wf st p : wf p -> length st = length (stats p) -> wf (set_stats st p).
Proof. intros [] Hst. rewrite wf_stats0 in Hst. wf_tac. Qed.

Lemma reset_diffs_wf p : wf p -> wf (reset_diffs p).
Proof. intros []; wf_tac. Qed.

Lemma set_overhead_wf o p : wf p -> wf (set_overhead o p).
Proof. intros []; wf_tac. Qed.

Lemma set_label_wf l p : wf p -> wf (set_label l p).
Proof. intros []; wf_tac. Qed.

Lemma get_diff_ts_spec p i :
  wf p -> (1 <= i < NUM_TS_MAX)%nat ->
  exists a b, timestamps p !! (i - 1)%nat = Some a /\ timestamps p !! i = Some b /\
    get_diff_ts p i = Some (ns_of b - ns_of a - toc_overhead p).
Proof.
  intros Hp Hi. pose proof (wf_ts p Hp) as Hl.
  destruct (lookup_lt_is_Some_2 (timestamps p) (i - 1)) as [a Ha]; [lia|].
  destruct (lookup_lt_is_Some_2 (timestamps p) i) as [b Hb]; [lia|].
  exists a, b; split_and!; try assumption. unfold get_diff_ts. rewrite Ha; simpl. rewrite Hb; simpl.
  f_equal. unfold ns_of. lia.
Qed.

(** What the loop of [update_diffs] does to the statistics of point [j]. *)
Definition updated (p : profile) (i e j : nat) (s : stat) : stat :=
  match get_diff_ts p j with
  | Some d => if decide (i <= j < e)%nat then update_stat d s else s
  | None => s
  end.

Lemma update_from_spec n : forall i p,
  wf p -> (1 <= i)%nat -> (i + n <= NUM_TS_MAX)%nat ->
  exists st, update_from n i p = Some (set_stats st p) /\ length st = length (stats p) /\
    forall j s, stats p !! j = Some s -> st !! j = Some (updated p i (i + n) j s).
Proof.
  induction n as [|n IH]; intros i p Hp Hi He; simpl.
  - exists (stats p). split_and!; [by destruct p|done|].
    intros j s Hs. unfold updated. destruct (get_diff_ts p j); [|done]. by rewrite decide_False by lia.
  - destruct (get_diff_ts_spec p i Hp) as (a & b & _ & _ & Hd); [lia|]. rewrite Hd; simpl.
    pose proof (wf_stats p Hp) as Hl.
    destruct (lookup_lt_is_Some_2 (stats p) i) as [s0 Hs0]; [lia|]. rewrite Hs0; simpl.
    set (d := ns_of b - ns_of a - toc_overhead p) in *.
    destruct (IH (S i) (set_stats (<[i := update_stat d s0]> (stats p)) p)) as (st & H1 & H2 & H3);
      [apply set_stats_wf; [done|apply length_insert]|lia|lia|].
    exists st. split_and!; [exact H1|rewrite H2; apply length_insert|].
    intros j s Hs. specialize (H3 j). simpl in H3. destruct (decide (i = j)) as [<-|Hne].
    + assert (s = s0) as -> by congruence. rewrite (H3 (update_stat d s0)) by (apply list_lookup_insert_eq; lia).
      unfold updated. change (get_diff_ts (set_stats _ p) i) with (get_diff_ts p i). rewrite Hd.
      by rewrite decide_False, decide_True by lia.
    + rewrite (H3 s) by (by rewrite list_lookup_insert_ne).
      unfold updated. change (get_diff_ts (set_stats _ p) j) with (get_diff_ts p j).
      destruct (get_diff_ts p j); [|done].
      f_equal. repeat case_decide; try lia; done.
Qed.

Lemma update_diffs_spec p :
  wf p ->
  exists st, update_diffs p = Some (set_stats st p) /\ length st = length (stats p) /\
    forall j s, (1 <= j)%nat -> stats p !! j = Some s -> st !! j = Some (updated p 1 (next_ts p) j s).
Proof.
  intros Hp. pose proof (wf_next p Hp).
  destruct (update_from_spec (next_ts p - 1) 1 p Hp) as (st & H1 & H2 & H3);
    [lia|unfold NUM_TS_MAX in *; lia|].
  exists st. split_and!; try assumption. intros j s Hj Hs. rewrite (H3 j s Hs). f_equal.
  unfold updated. destruct (get_diff_ts p j); [|done]. repeat case_decide; try lia; done.
Qed.

Lemma local_toc_spec now p :
  wf p ->
  exists p', local_toc now p = Some p' /\ wf p' /\ stats p' = stats p /\ num_iter p' = num_iter p /\
    toc_overhead p' = toc_overhead p /\ labels p' = labels p /\
    num_ts p' = Nat.max (num_ts p) (next_ts p') /\
    (if decide (next_ts p = 15%nat) then next_ts p' = 15%nat /\ timestamps p' = timestamps p
     else next_ts p' = S (next_ts p) /\ timestamps p' = <[next_ts p := now]> (timestamps p)).
Proof.
  intros Hp. pose proof Hp as []. unfold local_toc. rewrite wf_ts0. unfold NUM_TS_MAX in *.
  destruct (Nat.eqb_spec (next_ts p) (16 - 1)).
  - exists p. rewrite decide_True by lia. split_and!; try done; lia.
  - destruct (Nat.ltb_spec (next_ts p) 16); [|lia]. eexists; split; [reflexivity|].
    rewrite decide_False by lia. simpl. split_and!; try done; try lia. wf_tac.
Qed.

Lemma mm_toc_wf now p : wf p -> exists p', mm_toc now p = Some p' /\ wf p'.
Proof. intros Hp. destruct (local_toc_spec now p Hp) as (p' & ? & ? & _); eauto. Qed.

Lemma mm_toc_label_eq l now p :
  wf p -> exists q, mm_toc_label l now p = local_toc now q /\ wf q /\ next_ts q = next_ts p /\
    num_ts q = num_ts p /\ timestamps q = timestamps p /\ stats q = stats p /\ num_iter q = num_iter p /\
    toc_overhead q = toc_overhead p.
Proof.
  intros Hp. pose proof (wf_next p Hp). pose proof (wf_labels p Hp).
  destruct (lookup_lt_is_Some_2 (labels p) (next_ts p)) as [b Hb]; [lia|].
  exists (if b : bool then p else set_label l p). unfold mm_toc_label. rewrite Hb; simpl.
  destruct b; split_and!; try done. by apply set_label_wf.
Qed.

Lemma mm_toc_label_wf l now p : wf p -> exists p', mm_toc_label l now p = Some p' /\ wf p'.
Proof.
  intros Hp. destruct (mm_toc_label_eq l now p Hp) as (q & -> & Hq & _). by apply mm_toc_wf.
Qed.

Definition begin_iteration (p : profile) : profile :=
  mk_prof (clock_id p) (num_ts p) 0 (num_iter p + 1) (toc_overhead p) (timestamps p) (stats p) (labels p)
    (label_storage p).

Lemma begin_iteration_wf p : wf p -> wf (begin_iteration p).
Proof. intros []; wf_tac. Qed.

Lemma mm_tic_eq now p :
  wf p -> exists st, update_diffs p = Some (set_stats st p) /\
    mm_tic now p = local_toc now (begin_iteration (set_stats st p)) /\ wf (set_stats st p).
Proof.
  intros Hp. destruct (update_diffs_spec p Hp) as (st & H1 & H2 & _).
  exists st. unfold mm_tic. rewrite H1. split_and!; try done. by apply set_stats_wf.
Qed.

Lemma mm_tic_wf now p : wf p -> exists p', mm_tic now p = Some p' /\ wf p'.
Proof.
  intros Hp. destruct (mm_tic_eq now p Hp) as (st & _ & -> & Hq).
  by apply mm_toc_wf, begin_iteration_wf.
Qed.

Ltac wf_step lem :=
  match goal with Hp : wf ?p |- context [?f ?p ≫= _] =>
    let q := fresh "q" in let H := fresh in
    destruct (lem p Hp) as (q & H & ?); rewrite H; clear H; simpl
  end.

Lemma overhead_loop_total n : forall first clock pos p,
  wf p -> exists p', overhead_loop n first clock pos p = Some p' /\ wf p'.
Proof.
  induction n as [|n IH]; intros first clock pos p Hp; simpl; [eauto|].
  wf_step (mm_tic_wf (clock pos)). clear dependent p.
  wf_step (mm_toc_wf (clock (pos + 1)%nat)). clear dependent q.
  wf_step (mm_toc_wf (clock (pos + 2)%nat)). clear dependent q0.
  wf_step (mm_tic_wf (clock (pos + 3)%nat)). clear dependent q.
  wf_step (mm_toc_label_wf [] (clock (pos + 4)%nat)). clear dependent q0.
  wf_step (mm_toc_label_wf [] (clock (pos + 5)%nat)). clear dependent q.
  apply IH. destruct first; [by apply reset_diffs_wf|done].
Qed.

Lemma estimate_toc_overhead_total clock p :
  wf p -> exists p', estimate_toc_overhead clock p = Some p' /\ wf p'.
Proof.
  intros Hp. unfold estimate_toc_overhead.
  destruct (overhead_loop_total 1000 true clock 0 (set_overhead 0 (reset_diffs p))) as (q & Hq & Hw);
    [by apply set_overhead_wf, reset_diffs_wf|].
  rewrite Hq; simpl. pose proof (wf_stats q Hw) as Hl.
  destruct (lookup_lt_is_Some_2 (stats q) 1) as [s1 ->]; [rewrite Hl; unfold NUM_TS_MAX; lia|].
  destruct (lookup_lt_is_Some_2 (stats q) 2) as [s2 ->]; [rewrite Hl; unfold NUM_TS_MAX; lia|].
  simpl. eexists; split; [reflexivity|]. by apply set_overhead_wf.
Qed.

(** Data with no measure. *)
Definition fresh (p : profile) : Prop :=
  wf p /\ next_ts p = 0%nat /\ num_ts p = 0%nat /\ num_iter p = 0 /\
  forall s, s ∈ stats p -> min_diff_ts s = INT64_MAX /\ max_diff_ts s = 0 /\ sum_diff_ts s = 0 /\
    step (median_diff_ts s) = STEP_NEED_INIT.

Lemma reset_diffs_fresh p : wf p -> fresh (reset_diffs p).
Proof.
  intros Hp. split; [by apply reset_diffs_wf|]. simpl. split_and!; try done.
  intros s (s0 & -> & _)%list_elem_of_fmap. done.
Qed.

Lemma mm_profile_reset_fresh flags clock p :
  wf p -> exists p', mm_profile_reset flags clock p = Some p' /\ fresh p'.
Proof.
  intros Hp. unfold mm_profile_reset.
  match goal with |- context [estimate_toc_overhead clock ?q] =>
    destruct (estimate_toc_overhead_total clock q) as (r & Hr & Hw); [destruct Hp; wf_tac|] end.
  rewrite Hr; simpl. eexists; split; [reflexivity|].
  pose proof (reset_diffs_fresh r Hw) as [Hf Hs].
  destruct (Z.land flags PROF_RESET_KEEPLABEL =? 0); [|done].
  split; [|done]. destruct Hw; wf_tac.
Qed.

(** ** Specification: a log of iterations

    [cur] is the list of the time stamps of the current iteration; [past] the
    iterations the statistics are made of, the latest first. *)

Inductive call :=
  | Tic (now : mm_timespec)
  | Toc (now : mm_timespec)
  | TocLabel (label : cstr) (now : mm_timespec)
  | PrintTable (mask : Z).

Definition do_call (c : call) (p : profile) : option profile :=
  match c with
  | Tic t => mm_tic t p
  | Toc t => mm_toc t p
  | TocLabel l t => mm_toc_label l t p
  | PrintTable mask => r ← mm_profile_print_data mask p; Some r.1.1
  end.

Fixpoint do_calls (cs : list call) (p : profile) : option profile :=
  match cs with
  | [] => Some p
  | c :: cs => p ← do_call c p; do_calls cs p
  end.

Record profile_log := mk_log { cur : list mm_timespec; past : list (list mm_timespec); iterations : Z; most : nat }.

Definition add_point (t : mm_timespec) (l : profile_log) : profile_log :=
  let c := if decide (length (cur l) < 15)%nat then cur l ++ [t] else cur l in
  mk_log c (past l) (iterations l) (Nat.max (most l) (length c)).

Definition log_call (l : profile_log) (c : call) : profile_log :=
  match c with
  | Tic t => add_point t (mk_log [] (cur l :: past l) (iterations l + 1) (most l))
  | Toc t | TocLabel _ t => add_point t l
  | PrintTable _ => mk_log (cur l) (cur l :: past l) (iterations l) (most l)
  end.

Definition log_calls : list call -> profile_log := foldl log_call (mk_log [] [] 0 0).

(** Time from the point before [i] to point [i], less the overhead [o]. *)
Definition elapsed (o : Z) (i : nat) (c : list mm_timespec) : option Z :=
  a ← c !! (i - 1)%nat; b ← c !! i; Some (ns_of b - ns_of a - o).

Definition measures (o : Z) (i : nat) (l : profile_log) : list Z := omap (elapsed o i) (past l).

Definition sum_list_Z : list Z -> Z := foldr Z.add 0.

Definition median_of (ds : list Z) : Z :=
  median (foldr (fun d me => median_estimator_update me d) (mk_me 0 STEP_NEED_INIT) ds).

(** The statistics [s] are those of the measures [ds]. *)
Definition stat_ok (ds : list Z) (s : stat) : Prop :=
  min_diff_ts s = foldr Z.min INT64_MAX ds /\ max_diff_ts s = foldr Z.max 0 ds /\
  sum_diff_ts s = sum_list_Z ds /\
  exists m, median_diff_ts s = foldr (fun d me => median_estimator_update me d) (mk_me m STEP_NEED_INIT) ds.

Record log_repr (o : Z) (l : profile_log) (p : profile) : Prop := {
  lr_wf : wf p;
  lr_overhead : toc_overhead p = o;
  lr_next : next_ts p = length (cur l);
  lr_cur : take (next_ts p) (timestamps p) = cur l;
  lr_most : num_ts p = most l;
  lr_iter : num_iter p = iterations l;
  lr_stats : forall i s, (1 <= i)%nat -> stats p !! i = Some s -> stat_ok (measures o i l) s
}.

Lemma fresh_repr p : fresh p -> log_repr (toc_overhead p) (mk_log [] [] 0 0) p.
Proof.
  intros (Hp & Hn & Hm & Hi & Hs). split; try done; [by rewrite Hn|].
  intros i s _ Hl. destruct (Hs s) as (? & ? & ? & Hst); [by eapply list_elem_of_lookup_2|].
  split_and!; try done. exists (median (median_diff_ts s)). simpl.
  destruct (median_diff_ts s); simpl in *; by subst.
Qed.

Lemma elapsed_timestamps o l p i :
  log_repr o l p -> (1 <= i < length (cur l))%nat -> get_diff_ts p i = elapsed o i (cur l).
Proof.
  intros Hr Hi. pose proof (lr_next _ _ _ Hr) as Hn. pose proof (wf_next _ (lr_wf _ _ _ Hr)).
  destruct (get_diff_ts_spec p i (lr_wf _ _ _ Hr)) as (a & b & Ha & Hb & ->); [lia|].
  unfold elapsed. rewrite <- (lr_cur _ _ _ Hr), !lookup_take_lt by lia.
  rewrite Ha, Hb, (lr_overhead _ _ _ Hr). done.
Qed.

Lemma elapsed_beyond o i c : (length c <= i)%nat -> elapsed o i c = None.
Proof.
  intros Hi. unfold elapsed. rewrite (lookup_ge_None_2 c i Hi). by destruct (c !! (i - 1)%nat).
Qed.

Lemma update_stat_ok d ds s : stat_ok ds s -> stat_ok (d :: ds) (update_stat d s).
Proof.
  intros (H1 & H2 & H3 & m & H4). split_and!; simpl; [by rewrite H1|by rewrite H2|rewrite H3; lia|].
  exists m. by rewrite H4.
Qed.

(** [update_diffs] adds the current iteration to the statistics. *)
Lemma update_diffs_repr o l p :
  log_repr o l p ->
  exists st, update_diffs p = Some (set_stats st p) /\ wf (set_stats st p) /\
    log_repr o (mk_log (cur l) (cur l :: past l) (iterations l) (most l)) (set_stats st p).
Proof.
  intros Hr. pose proof (lr_wf _ _ _ Hr) as Hp.
  destruct (update_diffs_spec p Hp) as (st & H1 & H2 & H3).
  assert (Hw : wf (set_stats st p)) by by apply set_stats_wf.
  exists st. split_and!; [exact H1|exact Hw|]. pose proof Hr as []. split; simpl; try assumption.
  intros i s Hi Hs.
  destruct (lookup_lt_is_Some_2 (stats p) i) as [s0 Hs0];
    [rewrite <- H2; by eapply lookup_lt_Some|].
  rewrite (H3 i s0 Hi Hs0) in Hs. injection Hs as <-. unfold measures; simpl.
  specialize (lr_stats0 i s0 Hi Hs0). unfold updated.
  destruct (decide (i < length (cur l))%nat) as [Hlt|Hge].
  - rewrite (elapsed_timestamps o l p i Hr) by lia.
    destruct (elapsed o i (cur l)) as [d|] eqn:E.
    + rewrite decide_True by lia. by apply update_stat_ok.
    + rewrite <- (elapsed_timestamps o l p i Hr) in E by lia.
      destruct (get_diff_ts_spec p i Hp) as (? & ? & _ & _ & ?); [pose proof (wf_next p Hp); lia|congruence].
  - rewrite (elapsed_beyond o i (cur l)) by lia.
    destruct (get_diff_ts p i); [rewrite decide_False by lia|]; exact lr_stats0.
Qed.

Lemma local_toc_repr o l p t :
  log_repr o l p -> exists p', local_toc t p = Some p' /\ log_repr o (add_point t l) p'.
Proof.
  intros Hr. pose proof Hr as []. destruct (local_toc_spec t p lr_wf0) as (p' & H1 & H2 & H3 & H4 & H5 & _ & H6 & H7).
  exists p'; split; [exact H1|]. pose proof (wf_next p lr_wf0). pose proof (wf_ts p lr_wf0).
  assert (Hc : take (next_ts p') (timestamps p') = cur (add_point t l)).
  { unfold add_point; simpl. unfold NUM_TS_MAX in *. case_decide as Hd.
    - destruct H7 as [-> ->]; rewrite decide_False by lia. rewrite lr_next0 in *. congruence.
    - destruct H7 as [-> ->]; rewrite decide_True by lia.
      rewrite (take_S_r _ _ t) by (apply list_lookup_insert_eq; lia).
      by rewrite take_insert_ge, lr_cur0 by lia. }
  assert (Hn : next_ts p' = length (cur (add_point t l))).
  { rewrite <- Hc, length_take. pose proof (wf_ts p' H2). pose proof (wf_next p' H2). lia. }
  split; try done; try congruence.
  - by rewrite H6, Hn, lr_most0.
  - by rewrite H4, lr_iter0.
  - intros i s Hi Hs. rewrite H3 in Hs. exact (lr_stats0 i s Hi Hs).
Qed.

Lemma column_total p n f :
  (forall i, (1 <= i <= n)%nat -> is_Some (f i)) -> exists l, column p n f = Some l.
Proof.
  intros Hf. destruct (mapM_is_Some_2 f (seq 1 n)) as [l Hl]; [|by exists l].
  apply Forall_forall. intros i [Hi1 Hi2]%elem_of_seq. apply Hf. lia.
Qed.

Lemma column_lookup p n f l i :
  column p n f = Some l -> (i < n)%nat -> l !! i = f (S i).
Proof.
  intros Hl%mapM_Some_1 Hi. destruct (Forall2_lookup_l _ _ _ i (S i) Hl) as (y & Hy & Hf);
    [by rewrite lookup_seq_lt|]. by rewrite Hy, Hf.
Qed.

Lemma stat_is_Some p i (f : stat -> option Z) :
  wf p -> (i < NUM_TS_MAX)%nat -> (forall s, is_Some (f s)) -> is_Some (s ← stats p !! i; f s).
Proof.
  intros Hp Hi Hf. destruct (lookup_lt_is_Some_2 (stats p) i) as [s ->]; [by rewrite (wf_stats p Hp)|].
  apply Hf.
Qed.

Lemma mean_is_Some p s : num_iter p <> 0 -> is_Some (mean_of p s).
Proof. intros H. unfold mean_of. destruct (Z.eqb_spec (num_iter p) 0); [done|eauto]. Qed.

Lemma diff_is_Some p i : wf p -> (1 <= i < NUM_TS_MAX)%nat -> is_Some (get_diff_ts p i).
Proof. intros Hp Hi. destruct (get_diff_ts_spec p i Hp Hi) as (? & ? & _ & _ & ->). eauto. Qed.

Lemma when_total b (c : option (list Z)) : (exists l, c = Some l) -> exists ll, when b c = Some ll.
Proof. intros [l ->]. destruct b; simpl; eauto. Qed.

Ltac when_column :=
  match goal with |- context [when ?b ?c ≫= _] =>
    let ll := fresh "ll" in let H := fresh in
    destruct (when_total b c) as [ll H];
      [apply column_total; intros i Hi|rewrite H; clear H; simpl]
  end.

Lemma compute_requested_timings_total mask p :
  wf p -> num_iter p <> 0 -> exists data, compute_requested_timings mask (num_ts p - 1) p = Some data.
Proof.
  intros Hp Hn. pose proof (wf_num p Hp). unfold compute_requested_timings.
  when_column; [apply diff_is_Some; [done|lia]|].
  when_column; [apply stat_is_Some; [done|lia|intros s; by apply mean_is_Some]|].
  do 3 (when_column; [apply stat_is_Some; [done|lia|eauto]|]). eauto.
Qed.

(** The value [mm_profile_get_data] reads for each type. *)
Definition value_of (p : profile) (type : Z) (i : nat) : option Z :=
  if type =? PROF_CURR then get_diff_ts p i
  else s ← stats p !! i;
       if type =? PROF_MIN then Some (min_diff_ts s)
       else if type =? PROF_MEAN then mean_of p s
       else if type =? PROF_MAX then Some (max_diff_ts s)
       else Some (median (median_diff_ts s)).

Lemma value_is_Some p type i :
  wf p -> num_iter p <> 0 -> (1 <= i < NUM_TS_MAX)%nat -> is_Some (value_of p type i).
Proof.
  intros Hp Hn Hi. unfold value_of. destruct (type =? PROF_CURR); [by apply diff_is_Some|].
  apply stat_is_Some; [done|lia|]. intros s. repeat case_match; eauto using mean_is_Some.
Qed.

Lemma one_type_column p type n :
  one_type type = true ->
  compute_requested_timings (Z.lor type PROF_FORCE_NSEC) n p = l ← column p n (value_of p type); Some [l].
Proof.
  intros (t & Ht & ->%Z.eqb_eq)%existsb_exists.
  destruct Ht as [<-|[<-|[<-|[<-|[<-|[]]]]]];
    (unfold compute_requested_timings, stat_column, value_of, median_estimator_getvalue; simpl;
     match goal with |- context [column p n ?f] => destruct (column p n f); reflexivity end).
Qed.

(** Reading back the value of a point of measure. *)
Lemma mm_profile_get_data_value p type i :
  wf p -> num_iter p <> 0 -> one_type type = true -> (1 <= i < num_ts p)%nat ->
  mm_profile_get_data (Z.of_nat i - 1) type p = value_of p type i.
Proof.
  intros Hp Hn Ht Hi. pose proof (wf_num p Hp). unfold mm_profile_get_data.
  destruct (Z.leb_spec (Z.of_nat (num_ts p) - 1) (Z.of_nat i - 1)); [lia|].
  rewrite Ht; simpl. rewrite (one_type_column p type _ Ht).
  destruct (column_total p (num_ts p - 1) (value_of p type)) as [l Hl];
    [intros j Hj; apply value_is_Some; [done|done|lia]|].
  rewrite Hl; simpl. destruct (Z.ltb_spec (Z.of_nat i - 1) 0); [lia|].
  rewrite app_nil_r. replace (Z.to_nat (Z.of_nat i - 1)) with (i - 1)%nat by lia.
  rewrite (column_lookup _ _ _ _ _ Hl) by lia. f_equal. lia.
Qed.

(** ** The profiler refines its log *)

Lemma do_call_repr o l p c :
  log_repr o l p -> 1 <= iterations l \/ (exists t, c = Tic t) ->
  0 <= iterations l ->
  exists p', do_call c p = Some p' /\ log_repr o (log_call l c) p'.
Proof.
  intros Hr Hc Hi. pose proof (lr_wf _ _ _ Hr) as Hp. destruct c as [t|t|lb t|mask]; simpl.
  - destruct (update_diffs_repr o l p Hr) as (st & H1 & H2 & H3).
    unfold mm_tic. rewrite H1; simpl.
    apply (local_toc_repr o (mk_log [] (cur l :: past l) (iterations l + 1) (most l))).
    destruct H3. split; simpl in *; try done; [by apply (begin_iteration_wf (set_stats st p))|lia].
  - by apply local_toc_repr.
  - destruct (mm_toc_label_eq lb t p Hp) as (q & -> & Hq & H1 & H2 & H3 & H4 & H5 & H6).
    apply local_toc_repr. destruct Hr. split; [done|..]; try congruence.
    intros i s Hi' Hs. rewrite H4 in Hs. eauto.
  - destruct Hc as [Hc|[? ?]]; [|done].
    destruct (update_diffs_repr o l p Hr) as (st & H1 & H2 & H3).
    unfold mm_profile_print_data. rewrite H1; simpl.
    destruct (compute_requested_timings_total mask (set_stats st p) H2) as [data Hd];
      [rewrite (lr_iter _ _ _ H3); simpl; lia|].
    simpl in Hd. rewrite Hd; simpl. by eexists.
Qed.

Lemma log_call_iterations l c : iterations l <= iterations (log_call l c).
Proof. destruct c; simpl; lia. Qed.

Lemma do_calls_repr o cs : forall l p,
  log_repr o l p -> 1 <= iterations l ->
  exists p', do_calls cs p = Some p' /\ log_repr o (foldl log_call l cs) p' /\
    1 <= iterations (foldl log_call l cs).
Proof.
  induction cs as [|c cs IH]; intros l p Hr Hi; simpl; [eauto|].
  destruct (do_call_repr o l p c Hr) as (q & -> & Hq); [by left|lia|]. simpl.
  apply IH; [done|]. pose proof (log_call_iterations l c). lia.
Qed.

(** The first measure sets the estimator, whatever it held. *)
Lemma median_fold_init ds m1 m2 :
  ds <> [] ->
  foldr (fun d me => median_estimator_update me d) (mk_me m1 STEP_NEED_INIT) ds =
  foldr (fun d me => median_estimator_update me d) (mk_me m2 STEP_NEED_INIT) ds.
Proof.
  induction ds as [|d ds IH]; intros Hne; [done|]. simpl.
  destruct ds as [|d' ds]; [done|]. by rewrite IH.
Qed.

Lemma value_of_repr o l p i :
  log_repr o l p -> (1 <= i < num_ts p)%nat -> num_iter p <> 0 ->
  let ds := measures o i l in
  value_of p PROF_MIN i = Some (foldr Z.min INT64_MAX ds) /\
  value_of p PROF_MAX i = Some (foldr Z.max 0 ds) /\
  value_of p PROF_MEAN i = Some (Z.quot (sum_list_Z ds) (iterations l)) /\
  (ds <> [] -> value_of p PROF_MEDIAN i = Some (median_of ds)) /\
  ((i < length (cur l))%nat -> value_of p PROF_CURR i = elapsed o i (cur l)).
Proof.
  intros Hr Hi Hn. pose proof (wf_num p (lr_wf _ _ _ Hr)). simpl.
  destruct (lookup_lt_is_Some_2 (stats p) i) as [s Hs];
    [rewrite (wf_stats p (lr_wf _ _ _ Hr)); lia|].
  destruct (lr_stats _ _ _ Hr i s) as (H1 & H2 & H3 & m & H4); [lia|done|].
  unfold value_of, mean_of; simpl. rewrite Hs; simpl. split_and!; try by f_equal.
  - rewrite <- (lr_iter _ _ _ Hr). destruct (Z.eqb_spec (num_iter p) 0); [done|]. by rewrite H3.
  - intros Hne. rewrite H4. unfold median_of. by rewrite (median_fold_init _ m 0).
  - intros Hlt. apply (elapsed_timestamps o l p i Hr). lia.
Qed.


(** A clock that advances by 5 ns between two calls. *)
Definition even_clock (k : nat) : mm_timespec := mk_ts 0 (5 * Z.of_nat k).

Lemma startup_wf : wf startup.
Proof. constructor; simpl; unfold NUM_TS_MAX; lia. Qed.

(** Two iterations that last 105 ns and 25 ns, the first one printed twice. *)
Definition two_iterations : list call :=
  [Tic (mk_ts 1 0); Toc (mk_ts 1 105); PrintTable 0; PrintTable 0; Tic (mk_ts 2 0); Toc (mk_ts 2 25);
   Tic (mk_ts 3 0)].


(** Printing counts the current iteration again: two iterations of 100 ns and
    20 ns have a mean of 60 ns over the two, or 40 ns over the three calls to
    [mm_tic]; the mean returned is 106 ns. *)
Example print_counts_again :
  (p ← mm_profile_reset 0 even_clock startup; p ← do_calls two_iterations p;
   mean ← mm_profile_get_data 0 PROF_MEAN p; Some (toc_overhead p, mean)) = Some (5, 106).
Proof. vm_compute. reflexivity. Qed.

(** Without a reset the minimum is 0: [min_diff_ts] is not initialised to the
    largest integer when the program starts. *)
Example startup_minimum :
  (p ← do_calls two_iterations startup; mm_profile_get_data 0 PROF_MIN p) = Some 0.
Proof. vm_compute. reflexivity. Qed.

(** A reset that keeps the labels sets the empty label of the overhead
    estimation on the two first points when they had none, and the label of
    the program is then ignored. *)
Example reset_blanks_labels :
  (p ← mm_profile_reset PROF_RESET_KEEPLABEL even_clock startup;
   p ← do_calls [Tic (mk_ts 1 0); TocLabel (list_ascii_of_string "read") (mk_ts 1 5)] p;
   label_storage p !! 1%nat) = Some [].
Proof. vm_compute. reflexivity. Qed.
