(* ===== verification/StartupWin32.v ===== *)
(** * Arguments of a process started on Windows

    [startup-win32.c]: the command line, converted to UTF-8, is cut in
    arguments before [main] is called.  The block allocated by
    [alloc_argv_block] has an array of pointers and a pool of characters; [None]
    is a write out of one of them.  The strings of the pool follow each other,
    so that the model keeps the list of those that are finished and
    the one being written. *)

From S2P Require Import Prelude CStr CmdLine.

(** ** The block *)

Definition is_space (c : ascii) : bool := bool_decide (c = SPACE).

(** Separators of [parse_cmdline]. *)
Definition is_separator (c : ascii) : bool :=
  existsb (fun d => bool_decide (c = d)) ["009"; "013"; "010"; "011"; "012"; " "]%char.

(** The first argument counts for one, and each space for one. *)
Definition maxnarg (cmdline : cstr) : nat := 1 + length (filter (fun c => c = SPACE) cmdline).

(** Entries of the array of pointers, bytes of the pool. *)
Definition alloc_argv_block (cmdline : cstr) : nat * nat := (maxnarg cmdline + 1, length cmdline + 1)%nat.

(** ** The loop *)

Record argv_parser := mk_parser {
  argv_done : list cstr;           (* strings ended in the pool: [argc] is their number *)
  str : cstr;                 (* string being written *)
  nbackslash : nat;
  in_quotes : bool;
  prev_is_whitespace : bool
}.

Definition parser_start : argv_parser := mk_parser [] [] 0 false false.

Definition pool_used (p : argv_parser) : nat :=
  sum_list_with (fun s => length s + 1)%nat (argv_done p) + length (str p).

(** [argv[argc]] and the pool are in the block. *)
Definition in_block (block : nat * nat) (p : argv_parser) : bool :=
  (length (argv_done p) <? block.1)%nat && (pool_used p <=? block.2)%nat.

(** Text that [parse_cmdline] writes for pending backslashes and [c]. *)
Definition parse_char (c : ascii) (p : argv_parser) : argv_parser :=
  let plain := mk_parser (argv_done p) (str p ++ backslashes (nbackslash p) ++ [c]) 0 (in_quotes p) false in
  if bool_decide (c = BSL) then mk_parser (argv_done p) (str p) (S (nbackslash p)) (in_quotes p) false
  else if bool_decide (c = QUOTE) then
    if Nat.even (nbackslash p)
    then mk_parser (argv_done p) (str p ++ backslashes (nbackslash p / 2)) 0 (negb (in_quotes p)) false
    else mk_parser (argv_done p) (str p ++ backslashes ((nbackslash p - 1) / 2) ++ [QUOTE]) 0 (in_quotes p) false
  else if is_separator c then
    if in_quotes p then plain
    else if prev_is_whitespace p then p
    else mk_parser (argv_done p ++ [str p]) [] (nbackslash p) (in_quotes p) true
  else plain.

Fixpoint parse_loop (block : nat * nat) (cmdline : cstr) (p : argv_parser) : option argv_parser :=
  match cmdline with
  | [] => Some p
  | c :: cmdline' =>
      let p' := parse_char c p in
      if in_block block p' then parse_loop block cmdline' p' else None
  end.

(** The last string is ended, the array too. *)
Definition parse_finish (block : nat * nat) (p : argv_parser) : option (list cstr) :=
  let args := if prev_is_whitespace p then argv_done p else argv_done p ++ [str p] in
  if (length args <? block.1)%nat && (sum_list_with (fun s => length s + 1)%nat args <=? block.2)%nat
  then Some args else None.

Definition parse_cmdline (cmdline : cstr) : option (list cstr) :=
  let block := alloc_argv_block cmdline in
  p ← parse_loop block cmdline parser_start; parse_finish block p.

(** ** Startup *)

(** Result of a startup function: undefined behaviour, failure, arguments. *)
Inductive startup_argv :=
  | StartupUB
  | StartupFailed
  | StartupArgv (argv : list cstr).

(** [cmdline_u8] is the command line converted, [None] if its conversion failed. *)
Definition setup_argv_utf8 (cmdline_u8 : option cstr) : startup_argv :=
  match cmdline_u8 with
  | None => StartupFailed
  | Some cmdline =>
      match parse_cmdline cmdline with Some argv => StartupArgv argv | None => StartupUB end
  end.

(** Value returned, and what [main] gets as [argc] and [argv]. *)
Definition getmainargs (cmdline_u8 : option cstr) : option (Z * option (Z * list cstr)) :=
  match setup_argv_utf8 cmdline_u8 with
  | StartupUB => None
  | StartupFailed => Some (-1, None)
  | StartupArgv argv => Some (0, Some (Z.of_nat (length argv), argv))
  end.

Definition ucrt_argv_no_arguments : Z := 0.
Definition ucrt_argv_unexpanded_arguments : Z := 1.

(** Mode returned, and [__argc] and [__argv] if they are set. *)
Definition get_startup_argv_mode (cmdline_u8 : option cstr) : option (Z * option (Z * list cstr)) :=
  match setup_argv_utf8 cmdline_u8 with
  | StartupUB => None
  | StartupFailed => Some (ucrt_argv_unexpanded_arguments, None)
  | StartupArgv argv => Some (ucrt_argv_no_arguments, Some (Z.of_nat (length argv), argv))
  end.

Example parse_example :
  parse_cmdline (cs "prog  a\b " ++ [QUOTE] ++ cs "c d\\" ++ [QUOTE] ++ cs " e")
  = Some [cs "prog"; cs "a\b"; cs "c d\"; cs "e"].
Proof. reflexivity. Qed.

(** Backslashes before a separator are not written where they stand: they go
    to the next argument, and the last ones are lost. *)
Example parse_trailing_backslash :
  parse_cmdline (cs "prog c:\dir\ file\") = Some [cs "prog"; cs "c:\dir"; cs "\file"].
Proof. reflexivity. Qed.

(** Only spaces are counted for the array of pointers. *)
Example parse_tabs : parse_cmdline (["a"; "009"; "b"; "009"; "c"]%char) = None.
Proof. reflexivity. Qed.

(** ** Bounds of the block *)

(** What the loop does when nothing is written out of the block. *)
Definition parse_chars (cmdline : cstr) (p : argv_parser) : argv_parser :=
  foldl (fun p c => parse_char c p) p cmdline.

Definition parser_args (p : argv_parser) : list cstr :=
  if prev_is_whitespace p then argv_done p else argv_done p ++ [str p].

Definition parse_args (cmdline : cstr) : list cstr := parser_args (parse_chars cmdline parser_start).

Lemma parse_chars_app a b p : parse_chars (a ++ b) p = parse_chars b (parse_chars a p).
Proof. apply foldl_app. Qed.

(** An ended string leaves nothing behind it in the pool. *)
Definition parser_wf (p : argv_parser) : Prop := prev_is_whitespace p = true -> str p = [].

Lemma parse_char_wf c p : parser_wf p -> parser_wf (parse_char c p).
Proof. unfold parser_wf, parse_char. intros Hp. repeat case_match; cbn; auto; done. Qed.

Lemma sum_snoc (l : list cstr) s :
  sum_list_with (fun s => length s + 1)%nat (l ++ [s]) = (sum_list_with (fun s => length s + 1)%nat l + length s + 1)%nat.
Proof. rewrite sum_list_with_app. cbn. lia. Qed.

Lemma parse_char_pool c p :
  (pool_used (parse_char c p) + nbackslash (parse_char c p) <= S (pool_used p + nbackslash p))%nat.
Proof.
  unfold parse_char, pool_used.
  assert (nbackslash p / 2 <= nbackslash p)%nat by (apply Nat.Div0.div_le_upper_bound; lia).
  assert ((nbackslash p - 1) / 2 <= nbackslash p)%nat by (apply Nat.Div0.div_le_upper_bound; lia).
  unfold backslashes.
  repeat case_match; cbn -[Nat.div]; rewrite ?sum_snoc, ?length_app, ?length_replicate; cbn -[Nat.div];
    rewrite ?length_app, ?length_replicate; cbn -[Nat.div]; lia.
Qed.

Lemma parse_char_done c p :
  exists more, argv_done (parse_char c p) = argv_done p ++ more.
Proof.
  unfold parse_char. repeat case_match; cbn; try (by exists []; rewrite app_nil_r); by eexists.
Qed.

Lemma parse_chars_done cmdline p : exists more, argv_done (parse_chars cmdline p) = argv_done p ++ more.
Proof.
  revert p. induction cmdline as [|c line IH]; intros p; [by exists []; rewrite app_nil_r|].
  change (parse_chars (c :: line) p) with (parse_chars line (parse_char c p)).
  destruct (IH (parse_char c p)) as [m1 ->], (parse_char_done c p) as [m2 ->].
  rewrite <- app_assoc. by eexists.
Qed.

Lemma parse_chars_wf cmdline p : parser_wf p -> parser_wf (parse_chars cmdline p).
Proof. revert p. induction cmdline as [|c line IH]; intros p Hp; cbn; [done|]. by apply IH, parse_char_wf. Qed.

Lemma parse_chars_pool cmdline p :
  (pool_used (parse_chars cmdline p) + nbackslash (parse_chars cmdline p)
   <= length cmdline + (pool_used p + nbackslash p))%nat.
Proof.
  revert p. induction cmdline as [|c line IH]; intros p; [cbn; lia|].
  change (parse_chars (c :: line) p) with (parse_chars line (parse_char c p)).
  pose proof (IH (parse_char c p)). pose proof (parse_char_pool c p). cbn [length]. lia.
Qed.

(** The pool is always large enough: only the array of pointers can overflow. *)
Lemma parse_loop_exact block cmdline p :
  (pool_used p + nbackslash p + length cmdline <= block.2)%nat ->
  parse_loop block cmdline p
  = if bool_decide (cmdline <> [] /\ (block.1 <= length (argv_done (parse_chars cmdline p)))%nat) then None
    else Some (parse_chars cmdline p).
Proof.
  revert p. induction cmdline as [|c line IH]; intros p Hp; cbn [parse_loop].
  { by rewrite bool_decide_false by naive_solver. }
  pose proof (parse_char_pool c p) as Hpool. cbn in Hp. change (parse_chars (c :: line) p) with (parse_chars line (parse_char c p)).
  unfold in_block. rewrite (proj2 (Nat.leb_le (pool_used (parse_char c p)) block.2)), andb_true_r by lia.
  destruct (parse_chars_done line (parse_char c p)) as [more Hm].
  destruct (Nat.ltb_spec (length (argv_done (parse_char c p))) block.1) as [Hlt|Hge].
  - rewrite IH by lia. destruct line as [|d line].
    + cbn in *. rewrite !bool_decide_false by naive_solver lia. done.
    + erewrite (bool_decide_ext (d :: line <> [] /\ _)); [reflexivity|]. naive_solver.
  - rewrite bool_decide_true; [done|]. split; [done|]. rewrite Hm, length_app. lia.
Qed.

(** The command line is cut in at most one argument more than it has spaces,
    or the array of pointers overflows. *)
Lemma parse_cmdline_exact cmdline :
  parse_cmdline cmdline
  = if (length (parse_args cmdline) <=? maxnarg cmdline)%nat then Some (parse_args cmdline) else None.
Proof.
  unfold parse_cmdline, parse_args. set (p := parse_chars cmdline parser_start).
  pose proof (parse_chars_pool cmdline parser_start) as Hpool. fold p in Hpool. cbn in Hpool.
  assert (Hwf : parser_wf p) by by apply parse_chars_wf.
  assert (Hsum : (sum_list_with (fun s => length s + 1)%nat (parser_args p) <= length cmdline + 1)%nat).
  { unfold parser_args, pool_used in *. destruct (prev_is_whitespace p); [lia|]. rewrite sum_snoc. lia. }
  rewrite parse_loop_exact by (cbn; lia). fold p. unfold alloc_argv_block; cbn [fst snd].
  case_bool_decide as Hb; cbn [mbind option_bind].
  - destruct (Nat.leb_spec (length (parser_args p)) (maxnarg cmdline)) as [Hle|]; [|done].
    exfalso. destruct Hb as [_ Hb]. unfold parser_args in Hle.
    destruct (prev_is_whitespace p); rewrite ?length_app in Hle; lia.
  - unfold parse_finish. fold (parser_args p). cbn [fst snd].
    rewrite (proj2 (Nat.leb_le _ _) Hsum), andb_true_r.
    destruct (Nat.leb_spec (length (parser_args p)) (maxnarg cmdline)), (Nat.ltb_spec (length (parser_args p)) (maxnarg cmdline + 1));
      try lia; done.
Qed.

(** ** Reading back the command line of [mm_spawn] *)

Lemma parse_backslashes k d s n q w :
  (0 < k)%nat -> parse_chars (backslashes k) (mk_parser d s n q w) = mk_parser d s (n + k) q false.
Proof.
  intros Hk. revert n w. induction k as [|k IH]; intros n w; [lia|].
  change (parse_chars (backslashes (S k)) (mk_parser d s n q w))
    with (parse_chars (backslashes k) (mk_parser d s (S n) q false)).
  destruct k as [|k]; [cbn; f_equal; lia|]. rewrite IH by lia. f_equal. lia.
Qed.

(** Backslashes then a character that is not one. *)
Lemma parse_backslashes_then k c d s q w :
  c <> BSL ->
  exists w', parse_chars (backslashes k ++ [c]) (mk_parser d s 0 q w) = parse_char c (mk_parser d s k q w')
             /\ (q = true \/ k <> 0%nat -> w' = false \/ k = 0%nat) /\ (k = 0%nat -> w' = w).
Proof.
  intros Hc. rewrite parse_chars_app. destruct k as [|k].
  - exists w. cbn. naive_solver.
  - rewrite parse_backslashes by lia. exists false. cbn. naive_solver.
Qed.

Lemma div_double n : ((n + n) / 2 = n)%nat.
Proof. replace (n + n)%nat with (n * 2)%nat by lia. by apply Nat.div_mul. Qed.

Lemma parse_escape_loop n src d s w :
  parse_chars (escape_loop n src) (mk_parser d s 0 true w)
  = mk_parser d (s ++ backslashes n ++ src) 0 false false.
Proof.
  revert n s w. induction src as [|c src IH]; intros n s w; cbn [escape_loop].
  - destruct (parse_backslashes_then (n + n) QUOTE d s true w) as (w' & -> & _ & _); [done|].
    unfold parse_char; cbn -[Nat.div Nat.even]. rewrite (proj1 (Reader.even_double n)), div_double. by rewrite app_nil_r.
  - case_bool_decide as Hc; [subst c; rewrite IH; by rewrite backslashes_snoc|].
    case_bool_decide as Hq.
    + subst c. replace (backslashes (n + n) ++ [BSL; QUOTE] ++ escape_loop 0 src)
        with ((backslashes (S (n + n)) ++ [QUOTE]) ++ escape_loop 0 src)
        by (rewrite <- backslashes_snoc, <- !app_assoc; done).
      rewrite parse_chars_app.
      destruct (parse_backslashes_then (S (n + n)) QUOTE d s true w) as (w' & -> & _ & _); [done|].
      assert (parse_char QUOTE (mk_parser d s (S (n + n)) true w') = mk_parser d (s ++ backslashes n ++ [QUOTE]) 0 true false)
        as -> by (unfold parse_char; cbn -[Nat.div Nat.even];
                  by rewrite (proj2 (Reader.even_double n)), Nat.sub_0_r, div_double).
      rewrite IH. f_equal. rewrite <- !app_assoc. done.
    + rewrite app_assoc, parse_chars_app.
      destruct (parse_backslashes_then n c d s true w) as (w' & -> & _ & _); [done|].
      assert (parse_char c (mk_parser d s n true w') = mk_parser d (s ++ backslashes n ++ [c]) 0 true false) as ->.
      { unfold parse_char. rewrite !bool_decide_false by done. by destruct (is_separator c). }
      rewrite IH. f_equal. rewrite <- !app_assoc. done.
Qed.

Lemma parse_escaped src d s w :
  (w = true -> s = []) ->
  parse_chars (escape_cmd_str src) (mk_parser d s 0 false w) = mk_parser d (s ++ src) 0 false false.
Proof.
  intros Hw. unfold escape_cmd_str. cbn [parse_chars foldl].
  assert (parse_char QUOTE (mk_parser d s 0 false w) = mk_parser d s 0 true false) as ->
    by (unfold parse_char; cbn; by rewrite app_nil_r).
  apply parse_escape_loop.
Qed.

Lemma parse_concat_loop args d s :
  parse_chars (concat_loop (fun s => s) (map escape_cmd_str args) SPACE false) (mk_parser d s 0 false false)
  = match rev args with
    | [] => mk_parser d s 0 false false
    | a :: front => mk_parser (d ++ s :: rev front) a 0 false false
    end.
Proof.
  revert d s. induction args as [|a args IH]; intros d s; [done|].
  cbn [map concat_loop]. rewrite parse_chars_app. cbn [parse_chars foldl].
  assert (parse_char SPACE (mk_parser d s 0 false false) = mk_parser (d ++ [s]) [] 0 false true) as -> by done.
  rewrite parse_chars_app. rewrite parse_escaped by done. cbn [app]. rewrite IH. cbn [rev].
  destruct (rev args) as [|b front] eqn:E; cbn; [done|].
  by rewrite rev_app_distr, <- app_assoc.
Qed.

Lemma parse_args_concat a args :
  parse_args (concat_loop (fun s => s) (map escape_cmd_str (a :: args)) SPACE true) = a :: args.
Proof.
  unfold parse_args. cbn [map concat_loop app]. rewrite parse_chars_app.
  change parser_start with (mk_parser [] [] 0 false false). rewrite parse_escaped by done. cbn [app].
  rewrite parse_concat_loop. destruct (rev args) as [|b front] eqn:E; cbn.
  - apply (f_equal (@rev _)) in E. rewrite rev_involutive in E. by subst.
  - apply (f_equal (@rev _)) in E. rewrite rev_involutive in E. by subst.
Qed.

Lemma concat_spaces args :
  (length args <= length (filter (fun c => c = SPACE) (concat_loop (fun s => s) (map escape_cmd_str args) SPACE false)))%nat.
Proof.
  induction args as [|a args IH]; [done|]. cbn [map concat_loop].
  cbn [app]. rewrite filter_cons_True, filter_app by done. cbn [length]. rewrite length_app. lia.
Qed.

(** The command line of an array of arguments, and what the startup makes of it. *)
Lemma startup_reads (arg0 : cstr) (args : list cstr) :
  setup_argv_utf8 (Some (concat_loop (fun s => s) (map escape_cmd_str (arg0 :: args)) SPACE true)) = StartupArgv (arg0 :: args).
Proof.
  unfold setup_argv_utf8. rewrite parse_cmdline_exact, parse_args_concat.
  rewrite (proj2 (Nat.leb_le _ _)); [done|].
  unfold maxnarg. pose proof (concat_spaces args). cbn [map concat_loop app length].
  rewrite filter_app, length_app. lia.
Qed.

(** C35. Round trip of the arguments between two processes: the command line
    built by [mm_spawn] for any array of arguments, whatever spaces, tabs,
    quotation marks and backslashes they have, is cut by the startup of
    the child in exactly these arguments, the program name included, without
    a write out of the block, whichever C runtime calls it. *)
Theorem startup_argv_roundtrip (arg0 : cstr) (args : list cstr) :
  argv_size (arg0 :: args) <= 2 ^ 30 ->
  exists line, command_line (arg0 :: args) = Some line /\
    getmainargs (Some line) = Some (0, Some (Z.of_nat (length (arg0 :: args)), arg0 :: args)) /\
    get_startup_argv_mode (Some line)
    = Some (ucrt_argv_no_arguments, Some (Z.of_nat (length (arg0 :: args)), arg0 :: args)).
Proof.
  intros Hsize. unfold command_line. destruct (escape_argv_total _ Hsize) as (strs & m & -> & Hs).
  cbn [mbind option_bind concat_strv]. rewrite Hs. eexists. split; [done|].
  unfold getmainargs, get_startup_argv_mode. by rewrite startup_reads.
Qed.

Lemma startup_argv_roundtrip_witness :
  argv_size [cs "c:\my dir\prog"; ["009"%char; BSL]; [QUOTE]; []] <= 2 ^ 30 /\
  exists line, command_line [cs "c:\my dir\prog"; ["009"%char; BSL]; [QUOTE]; []] = Some line /\
    getmainargs (Some line) = Some (0, Some (4, [cs "c:\my dir\prog"; ["009"%char; BSL]; [QUOTE]; []])).
Proof.
  split; [vm_compute; discriminate|].
  destruct (startup_argv_roundtrip (cs "c:\my dir\prog") [["009"%char; BSL]; [QUOTE]; []]) as (line & H1 & H2 & _);
    [vm_compute; discriminate|].
  exists line. split; [exact H1|exact H2].
Defined.
