(* ===== verification/TextMode.v ===== *)
(** * Text mode of Windows file descriptors

    The information kept with a file descriptor ([utils-win32.h]) and the
    conversions of line ends done by [conv_crlf_to_lf] and
    [hnd_write_text] of [file-win32.c].  [None] is a write out of a buffer. *)

From S2P Require Import Prelude CStr.

(** ** File descriptor information *)

Definition FD_TYPE_UNKNOWN : Z := 0.
Definition FD_TYPE_NORMAL : Z := 1.
Definition FD_TYPE_PIPE : Z := 2.
Definition FD_TYPE_CONSOLE : Z := 3.
Definition FD_TYPE_IPCDGRAM : Z := 4.
Definition FD_TYPE_SOCKET : Z := 5.
Definition FD_TYPE_MASK : Z := 0x07.

Definition FD_FIRST_FLAG : Z := FD_TYPE_MASK + 1.
Definition FD_FLAG_APPEND : Z := Z.shiftl FD_FIRST_FLAG 0.
Definition FD_FLAG_ISATTY : Z := Z.shiftl FD_FIRST_FLAG 1.
Definition FD_FLAG_TEXT : Z := Z.shiftl FD_FIRST_FLAG 2.
Definition FD_FLAG_CARRY : Z := Z.shiftl FD_FIRST_FLAG 3.

Definition FD_CARRY_POS : Z := 24.
Definition FD_CARRY_MASK : Z := s32 (Z.shiftl 0xFF FD_CARRY_POS).

Definition has_flag (info flag : Z) : bool := negb (Z.land info flag =? 0).

(** [char] is signed. *)
Definition char_to_int (c : ascii) : Z := wrap_s 8 (code c).

Definition int_to_char (z : Z) : ascii := ascii_of_N (Z.to_N (wrap_u 8 z)).

Definition fd_info_set_carry_char (info : Z) (ch : ascii) : Z :=
  let info := Z.land info (Z.lnot FD_CARRY_MASK) in
  let info := Z.lor info (s32 (Z.shiftl (char_to_int ch) FD_CARRY_POS)) in
  Z.lor info FD_FLAG_CARRY.

Definition fd_info_get_carry_char (info : Z) : ascii :=
  int_to_char (Z.land (Z.shiftr info FD_CARRY_POS) 0xFF).

Definition fd_info_drop_carry (info : Z) : Z := Z.land info (Z.lnot FD_FLAG_CARRY).

(** ** Reading *)

Definition CR : ascii := "013".
Definition LF : ascii := "010".

(** The loop on [src]: the characters written, and the last [prev_ch]. *)
Fixpoint crlf_loop (prev_ch : ascii) (src : cstr) : cstr * ascii :=
  match src with
  | [] => ([], prev_ch)
  | curr_ch :: src' =>
      let '(dst, last) := crlf_loop curr_ch src' in
      if bool_decide (prev_ch = CR) && bool_decide (curr_ch = LF) then (dst, last)
      else (prev_ch :: dst, last)
  end.

(** The [rsz] bytes read are the characters of [buf], not empty; [maxsz] is the
    size of the buffer.  The characters are written over those already read. *)
Definition conv_crlf_to_lf (info : Z) (buf : cstr) (maxsz : nat) : option (Z * cstr) :=
  '(info, prev_ch, src) ←
    (if has_flag info FD_FLAG_CARRY
     then Some (fd_info_drop_carry info, fd_info_get_carry_char info, buf)
     else match buf with [] => None | c :: src => Some (info, c, src) end);
  let '(dst, prev_ch) := crlf_loop prev_ch src in
  if (maxsz <? length dst)%nat then None
  else if bool_decide (prev_ch = CR) || (length dst =? maxsz)%nat
  then Some (fd_info_set_carry_char info prev_ch, dst)
  else Some (info, dst ++ [prev_ch]).

(** ** Writing *)

Fixpoint lf_to_crlf (buf : cstr) : cstr :=
  match buf with
  | [] => []
  | c :: buf' => (if bool_decide (c = LF) then [CR; LF] else [c]) ++ lf_to_crlf buf'
  end.

(** Number of [\r\n] in the first [rsz] characters. *)
Fixpoint count_crlf (buf : cstr) : Z :=
  match buf with
  | c :: ((d :: _) as buf') => (if bool_decide (c = CR) && bool_decide (d = LF) then 1 else 0) + count_crlf buf'
  | _ => 0
  end.

(** [written] is the number of bytes written by the binary write, or -1. *)
Definition text_write_size (buf_crlf : cstr) (written : Z) : Z :=
  written - count_crlf (take (Z.to_nat written) buf_crlf).

(** ** The carried character *)

Lemma carry_mask_lnot : Z.lnot FD_CARRY_MASK = Z.ones 24.
Proof. reflexivity. Qed.

Lemma get_set_carry info ch : fd_info_get_carry_char (fd_info_set_carry_char info ch) = ch.
Proof.
  unfold fd_info_get_carry_char, fd_info_set_carry_char. rewrite carry_mask_lnot.
  rewrite !Z.shiftr_lor, Z.shiftr_land.
  change (Z.shiftr (Z.ones 24) FD_CARRY_POS) with 0. change (Z.shiftr FD_FLAG_CARRY FD_CARRY_POS) with 0.
  rewrite Z.land_0_r, Z.lor_0_l, Z.lor_0_r. destruct ch as [[] [] [] [] [] [] [] []]; reflexivity.
Qed.

Lemma has_flag_testbit info i : 0 <= i -> has_flag info (2 ^ i) = Z.testbit info i.
Proof.
  intros Hi. unfold has_flag. destruct (Z.testbit info i) eqn:E.
  - apply negb_true_iff, Z.eqb_neq. intros H. apply (f_equal (fun z => Z.testbit z i)) in H.
    rewrite Z.land_spec, E, Z.pow2_bits_true, Z.bits_0 in H by done. discriminate.
  - apply negb_false_iff, Z.eqb_eq. apply Z.bits_inj'. intros j Hj.
    rewrite Z.land_spec, Z.pow2_bits_eqb, Z.bits_0 by done.
    destruct (Z.eqb_spec i j) as [<-|]; [by rewrite E|by rewrite andb_false_r].
Qed.

Lemma set_carry_flag info ch : has_flag (fd_info_set_carry_char info ch) FD_FLAG_CARRY = true.
Proof.
  change FD_FLAG_CARRY with (2 ^ 6). rewrite has_flag_testbit by done.
  unfold fd_info_set_carry_char. change FD_FLAG_CARRY with (2 ^ 6).
  by rewrite !Z.lor_spec, (Z.pow2_bits_true 6), orb_true_r.
Qed.

Lemma drop_carry_flag info : has_flag (fd_info_drop_carry info) FD_FLAG_CARRY = false.
Proof.
  change FD_FLAG_CARRY with (2 ^ 6). rewrite has_flag_testbit by done.
  unfold fd_info_drop_carry. change FD_FLAG_CARRY with (2 ^ 6).
  by rewrite Z.land_spec, Z.lnot_spec, (Z.pow2_bits_true 6), andb_false_r.
Qed.

(** Carrying a character leaves the type and the other flags as they are. *)
Lemma set_carry_keeps info ch i :
  0 <= i < 6 -> Z.testbit (fd_info_set_carry_char info ch) i = Z.testbit info i.
Proof.
  intros Hi. unfold fd_info_set_carry_char. rewrite carry_mask_lnot. change FD_FLAG_CARRY with (2 ^ 6).
  rewrite !Z.lor_spec, Z.land_spec, (Z.pow2_bits_false 6), Z.ones_spec_low, andb_true_r, orb_false_r by lia.
  assert (Z.testbit (s32 (Z.shiftl (char_to_int ch) FD_CARRY_POS)) i = false) as ->; [|by rewrite orb_false_r].
  assert (i = 0 \/ i = 1 \/ i = 2 \/ i = 3 \/ i = 4 \/ i = 5) as Hc by lia.
  destruct Hc as [->|[->|[->|[->|[->| ->]]]]]; destruct ch as [[] [] [] [] [] [] [] []]; reflexivity.
Qed.

(** ** Reading: conversion of the stream *)

(** Reference: each [\r\n] is a [\n]. *)
Fixpoint crlf_to_lf (s : cstr) : cstr :=
  match s with
  | [] => []
  | c :: s' =>
      match s' with
      | d :: _ => if bool_decide (c = CR) && bool_decide (d = LF) then crlf_to_lf s' else c :: crlf_to_lf s'
      | [] => [c]
      end
  end.

Lemma crlf_loop_spec prev src rest dst last :
  crlf_loop prev src = (dst, last) ->
  crlf_to_lf (prev :: src ++ rest) = dst ++ crlf_to_lf (last :: rest).
Proof.
  revert prev dst last. induction src as [|c src IH]; intros prev dst last H; cbn [crlf_loop] in H.
  - by simplify_eq.
  - destruct (crlf_loop c src) as [d l] eqn:E. specialize (IH c d l E).
    change (crlf_to_lf (prev :: (c :: src) ++ rest)) with
      (if bool_decide (prev = CR) && bool_decide (c = LF) then crlf_to_lf (c :: src ++ rest)
       else prev :: crlf_to_lf (c :: src ++ rest)).
    rewrite IH. destruct (_ && _); by simplify_eq.
Qed.

Lemma crlf_loop_length prev src : (length (crlf_loop prev src).1 <= length src)%nat.
Proof.
  revert prev. induction src as [|c src IH]; intros prev; cbn; [done|].
  specialize (IH c). destruct (crlf_loop c src). cbn in *. destruct (_ && _); cbn in *; lia.
Qed.

Definition carried (info : Z) : cstr :=
  if has_flag info FD_FLAG_CARRY then [fd_info_get_carry_char info] else [].

Lemma crlf_to_lf_other c s : c <> CR -> crlf_to_lf (c :: s) = c :: crlf_to_lf s.
Proof. intros Hc. cbn. destruct s as [|d s]; [done|]. by rewrite bool_decide_false. Qed.

(** One conversion: what was carried and what is read give what is delivered,
    and what is carried; nothing is written out of the buffer. *)
Lemma conv_crlf_to_lf_step info buf maxsz rest :
  buf <> [] -> (length buf <= maxsz)%nat ->
  exists info' out, conv_crlf_to_lf info buf maxsz = Some (info', out) /\ (length out <= maxsz)%nat /\
    crlf_to_lf (carried info ++ buf ++ rest) = out ++ crlf_to_lf (carried info' ++ rest) /\
    (forall i, 0 <= i < 6 -> Z.testbit info' i = Z.testbit info i).
Proof.
  intros Hne Hlen. unfold conv_crlf_to_lf.
  assert (exists info1 prev src,
    (if has_flag info FD_FLAG_CARRY
     then Some (fd_info_drop_carry info, fd_info_get_carry_char info, buf)
     else match buf with [] => None | c :: src => Some (info, c, src) end) = Some (info1, prev, src) /\
    carried info ++ buf = prev :: src /\ (length src <= maxsz)%nat /\ has_flag info1 FD_FLAG_CARRY = false /\
    (forall i, 0 <= i < 6 -> Z.testbit info1 i = Z.testbit info i)) as (info1 & prev & src & -> & Hsplit & Hsrc & Hflag & Hbits).
  { unfold carried. destruct (has_flag info FD_FLAG_CARRY) eqn:E.
    - do 3 eexists. split_and!; [done|done|done|apply drop_carry_flag|].
      intros i Hi. unfold fd_info_drop_carry. change FD_FLAG_CARRY with (2 ^ 6).
      rewrite Z.land_spec, Z.lnot_spec, (Z.pow2_bits_false 6) by lia. by rewrite andb_true_r.
    - destruct buf as [|c src]; [done|]. do 3 eexists. cbn in *. split_and!; try done. lia. }
  cbn [mbind option_bind]. destruct (crlf_loop prev src) as [dst last] eqn:E.
  pose proof (crlf_loop_length prev src) as Hl. rewrite E in Hl. cbn in Hl.
  rewrite app_assoc, Hsplit. rewrite <- app_comm_cons, (crlf_loop_spec prev src rest dst last E).
  rewrite (proj2 (Nat.ltb_ge maxsz (length dst))) by lia.
  destruct (bool_decide (last = CR) || (length dst =? maxsz)%nat) eqn:Eb.
  - do 2 eexists; split; [done|]. split; [lia|]. split.
    + unfold carried. by rewrite set_carry_flag, get_set_carry.
    + intros i Hi. rewrite set_carry_keeps by done. by apply Hbits.
  - apply orb_false_iff in Eb as [E1%bool_decide_eq_false E2%Nat.eqb_neq].
    do 2 eexists; split; [done|]. rewrite length_app. cbn [length]. split; [lia|]. split; [|done].
    unfold carried. rewrite Hflag. cbn [app]. by rewrite crlf_to_lf_other, <- app_assoc by done.
Qed.

(** Conversion of successive reads, the information being kept from one to the next. *)
Fixpoint conv_reads (info : Z) (maxsz : nat) (chunks : list cstr) : option (Z * cstr) :=
  match chunks with
  | [] => Some (info, [])
  | buf :: chunks =>
      '(info, out) ← conv_crlf_to_lf info buf maxsz;
      '(info, outs) ← conv_reads info maxsz chunks;
      Some (info, out ++ outs)
  end.

(** Text mode reads: when the information returned by [conv_crlf_to_lf] is
    used for the next read, a stream cut in any non-empty pieces not longer than the buffer
    is delivered with each [\r\n] turned into [\n], also when the two characters are in
    different pieces, up to the character carried to the next read; no
    character is written out of the buffer, and the type and the other
    flags of the descriptor do not change. *)
Theorem text_reads_convert (info : Z) (maxsz : nat) (chunks : list cstr) :
  Forall (fun buf => buf <> [] /\ (length buf <= maxsz)%nat) chunks ->
  exists info' out, conv_reads info maxsz chunks = Some (info', out) /\
    out ++ carried info' = crlf_to_lf (carried info ++ concat chunks) /\
    (forall i, 0 <= i < 6 -> Z.testbit info' i = Z.testbit info i).
Proof.
  intros Hc. revert info. induction Hc as [|buf chunks [Hne Hlen] _ IH]; intros info; cbn [conv_reads concat].
  - exists info, []. split_and!; [done| |done]. rewrite app_nil_r. unfold carried. by destruct (has_flag _ _).
  - destruct (conv_crlf_to_lf_step info buf maxsz (concat chunks) Hne Hlen) as (info1 & out & -> & _ & Heq & Hb).
    cbn [mbind option_bind]. destruct (IH info1) as (info' & outs & -> & Heq' & Hb'). cbn.
    do 2 eexists; split; [done|]. split.
    + by rewrite Heq, <- app_assoc, Heq'.
    + intros i Hi. by rewrite Hb', Hb.
Qed.

Lemma text_reads_convert_witness :
  Forall (fun buf => buf <> [] /\ (length buf <= 2)%nat) [["a"; CR]; [LF; CR]; [CR; LF]; ["b"]]%char /\
  exists info' out, conv_reads 0x21 2 [["a"; CR]; [LF; CR]; [CR; LF]; ["b"]]%char = Some (info', out) /\
    out ++ carried info' = ["a"; LF; CR; LF; "b"]%char.
Proof.
  assert (Forall (fun buf => buf <> [] /\ (length buf <= 2)%nat) [["a"; CR]; [LF; CR]; [CR; LF]; ["b"]]%char) as H
    by (repeat constructor; done).
  split; [exact H|]. destruct (text_reads_convert 0x21 2 _ H) as (info' & out & H1 & H2 & _).
  exists info', out. split; [exact H1|]. exact H2.
Defined.

(** ** Writing: the size returned *)

Lemma head_not_lf buf k : head (take k (lf_to_crlf buf)) <> Some LF.
Proof. destruct k, buf as [|c buf]; try done. cbn. case_bool_decide; cbn; naive_solver. Qed.

Lemma count_crlf_cons c s :
  count_crlf (c :: s) = (if bool_decide (c = CR) && bool_decide (head s = Some LF) then 1 else 0) + count_crlf s.
Proof.
  destruct s as [|d s]; cbn [count_crlf head]; [by rewrite andb_false_r|].
  erewrite (bool_decide_ext (d = LF) (Some d = Some LF)); [done|]. naive_solver.
Qed.

(** The part of [buf] that the first [k] bytes of its expansion make. *)
Definition part_written (buf : cstr) (k m : nat) : Prop :=
  (m <= length buf)%nat /\
  (take k (lf_to_crlf buf) = lf_to_crlf (take m buf)
   \/ (0 < m)%nat /\ buf !! (m - 1)%nat = Some LF /\ take k (lf_to_crlf buf) = lf_to_crlf (take (m - 1) buf) ++ [CR]).

Lemma part_written_cons c buf k m :
  part_written buf k m ->
  part_written (c :: buf) (length (if bool_decide (c = LF) then [CR; LF] else [c]) + k) (S m).
Proof.
  intros [Hm H]. split; [cbn; lia|]. cbn [lf_to_crlf take]. rewrite take_app_add.
  destruct H as [->|(H1 & H2 & ->)]; [by left|right].
  split_and!; [lia| |].
  - replace (S m - 1)%nat with (S (m - 1)) by lia. done.
  - replace (S m - 1)%nat with (S (m - 1)) by lia. cbn [take lf_to_crlf]. by rewrite app_assoc.
Qed.

Lemma text_write_size_cons c buf k :
  text_write_size (lf_to_crlf (c :: buf)) (Z.of_nat (length (if bool_decide (c = LF) then [CR; LF] else [c]) + k))
  = 1 + text_write_size (lf_to_crlf buf) (Z.of_nat k).
Proof.
  unfold text_write_size. rewrite !Nat2Z.id. cbn [lf_to_crlf]. rewrite take_app_add.
  pose proof (head_not_lf buf k) as Hh. case_bool_decide as Hc; cbn [app length].
  - rewrite !count_crlf_cons. cbn [head]. rewrite !bool_decide_true, (bool_decide_false (LF = CR)) by done. cbn [andb]. lia.
  - rewrite count_crlf_cons, (bool_decide_false (head _ = _)) by done. rewrite andb_false_r. lia.
Qed.

(** Text mode writes: when [k] bytes of the expanded text have been written,
    [hnd_write_text] returns the number of bytes of the text that they make,
    all of them if everything was written, but for one case: if the write stops between
    the [\r] it has inserted and its [\n], the [\n] not written is counted. *)
Theorem text_write_counts (buf : cstr) (k : nat) :
  (k <= length (lf_to_crlf buf))%nat ->
  exists m, text_write_size (lf_to_crlf buf) (Z.of_nat k) = Z.of_nat m /\ part_written buf k m /\
    (k = length (lf_to_crlf buf) -> m = length buf).
Proof.
  revert k. induction buf as [|c buf IH]; intros k Hk.
  { cbn in Hk. assert (k = 0)%nat as -> by lia. exists 0%nat. split_and!; [done| |done]. split; [done|by left]. }
  set (h := if bool_decide (c = LF) then [CR; LF] else [c]).
  assert (Hlen : length (lf_to_crlf (c :: buf)) = (length h + length (lf_to_crlf buf))%nat) by apply length_app.
  destruct (decide (length h <= k)%nat) as [Hge|Hlt].
  - destruct (IH (k - length h)%nat) as (m & H1 & H2 & H3); [lia|]. exists (S m).
    replace k with (length h + (k - length h))%nat by lia. unfold h at 1. rewrite text_write_size_cons, H1.
    split_and!; [lia|by apply part_written_cons|]. intros Hk'. rewrite H3; [done|]. lia.
  - destruct k as [|k].
    + exists 0%nat. split_and!; [done|split; [cbn; lia|by left]|]. intros H0. subst h. case_bool_decide; cbn in *; lia.
    + subst h. case_bool_decide as Hc; cbn in Hlt; [|lia]. assert (k = 0)%nat as -> by lia. subst c.
      exists 1%nat. split_and!; [reflexivity| |done]. split; [cbn; lia|]. right. split_and!; [lia|done|done].
Qed.

Lemma text_write_counts_witness :
  (2 <= length (lf_to_crlf ["a"; LF; "b"]%char))%nat /\
  exists m, text_write_size (lf_to_crlf ["a"; LF; "b"]%char) 2 = Z.of_nat m /\ part_written ["a"; LF; "b"]%char 2 m.
Proof.
  split; [vm_compute; repeat constructor|]. destruct (text_write_counts ["a"; LF; "b"]%char 2) as (m & H1 & H2 & _); [vm_compute; repeat constructor|].
  exists m. split; [exact H1|exact H2].
Defined.
