(* ===== verification/Effects.v ===== *)
(** * State and undefined behaviour

    The monad of the parts that thread a state through system calls:
    [None] is undefined behaviour.  A failed C call is a value (-1, [None], an error code). *)

From S2P Require Import Prelude.

Definition ST (S A : Type) : Type := S -> option (A * S).

#[export] Instance st_ret {S} : MRet (ST S) := fun A a s => Some (a, s).
#[export] Instance st_bind {S} : MBind (ST S) :=
  fun A B f m s => match m s with Some (a, s') => f a s' | None => None end.

Definition st_ub {S A} : ST S A := fun _ => None.
Definition st_get {S} : ST S S := fun s => Some (s, s).
Definition st_gets {S A} (f : S -> A) : ST S A := fun s => Some (f s, s).
Definition st_modify {S} (f : S -> S) : ST S unit := fun s => Some (tt, f s).
(** A call of the system. *)
Definition st_call {S A} (f : S -> A * S) : ST S A := fun s => Some (f s).
Definition st_option {S A} (o : option A) : ST S A := fun s => a ← o; Some (a, s).

Lemma st_bind_Some {S A B} (m : ST S A) (f : A -> ST S B) s a s' :
  m s = Some (a, s') -> (m ≫= f) s = f a s'.
Proof. intros H. unfold mbind, st_bind. by rewrite H. Qed.

Lemma st_bind_assoc {S A B C} (m : ST S A) (f : A -> ST S B) (g : B -> ST S C) s : ((m ≫= f) ≫= g) s = (m ≫= fun a => f a ≫= g) s.
Proof. unfold mbind, st_bind. by destruct (m s) as [[a s1]|]. Qed.

Lemma st_bind_inv {S A B} (m : ST S A) (f : A -> ST S B) s b s' :
  (m ≫= f) s = Some (b, s') -> exists a s1, m s = Some (a, s1) /\ f a s1 = Some (b, s').
Proof. unfold mbind, st_bind. destruct (m s) as [[a s1]|]; [|done]. intros H. by exists a, s1. Qed.

(** *** Actions that keep a part of the state *)

Section Keeps.
Context {S T : Type} (part : S -> T).

Definition st_keeps {A} (m : ST S A) : Prop := forall s a s', m s = Some (a, s') -> part s' = part s.

Lemma keeps_ret {A} (a : A) : st_keeps (mret a).
Proof. by intros s b s' [= <- <-]. Qed.

Lemma keeps_bind {A B} (m : ST S A) (f : A -> ST S B) : st_keeps m -> (forall a, st_keeps (f a)) -> st_keeps (m ≫= f).
Proof. intros Hm Hf s b s' (a & s1 & H1 & H2)%st_bind_inv. by rewrite (Hf _ _ _ _ H2), (Hm _ _ _ H1). Qed.

Lemma keeps_gets {A} (f : S -> A) : st_keeps (st_gets f).
Proof. by intros s a s' [= <- <-]. Qed.

Lemma keeps_option {A} (o : option A) : st_keeps (st_option o).
Proof. intros s a s'. unfold st_option. destruct o; cbn; [by intros [= <- <-]|done]. Qed.

Lemma keeps_modify (f : S -> S) : (forall s, part (f s) = part s) -> st_keeps (st_modify f).
Proof. intros H s a s' [= <- <-]. apply H. Qed.

End Keeps.

Create HintDb keeps.
#[export] Hint Resolve keeps_ret keeps_gets keeps_option : keeps.

(** Follows the code of an action, with the lemmas of its calls. *)
Ltac keep :=
  repeat first
    [ solve [auto with keeps nocore]
    | apply keeps_bind; [|intros ?]
    | match goal with |- st_keeps _ (match ?x with _ => _ end) => destruct x end ].

(** The state of one system call inside a larger state. *)
Section Zoom.
Context {S T : Type} (get : S -> T) (put : T -> S -> S).

Definition st_zoom {A} (m : T -> A * T) : ST S A :=
  fun s => let '(a, t) := m (get s) in Some (a, put t s).

End Zoom.
