(* ===== verification/Errcode.v ===== *)
(** * Error numbers

    The values of errno that the code gives or tests, by their names. *)

From S2P Require Import Prelude.

Inductive errcode :=
  | E_MFILE | E_EXIST | E_NOENT | E_BADF | E_NOMEM | E_ACCES | E_INVAL | E_NOEXEC | E_PIPE | E_XDEV | E_ISDIR
  | E_NOSPC | E_NOTSUP | E_NETDOWN | E_NETUNREACH | E_NOSYS | E_INPROGRESS | E_CONNRESET | E_FAULT
  | E_MSGSIZE | E_NOBUFS | E_ISCONN | E_NOTCONN | E_NOTSOCK | E_CONNREFUSED | E_DESTADDRREQ | E_ADDRINUSE
  | E_ADDRNOTAVAIL | E_OPNOTSUPP | E_INTR | E_NOPROTOOPT | E_AFNOSUPPORT | E_PROTOTYPE | E_PROTONOSUPPORT
  | E_TIMEDOUT | E_ILSEQ | E_IO | E_CHILD | E_PERM | E_OVERFLOW | E_NODEV | E_RANGE | E_NAMETOOLONG | E_LOOP
  | E_NOTTY | E_AGAIN | E_NOTFOUND | E_NONAME | E_OTHER (code : Z).

#[export] Instance errcode_eq_dec : EqDecision errcode.
Proof. solve_decision. Defined.

