(* ===== verification/Bytes.v ===== *)
(** * Bytes

    Integers written in memory in little endian, as lists of bytes and as the characters of
    a buffer. *)

From S2P Require Import Prelude CStr.

Fixpoint le_bytes (n : nat) (z : Z) : list Z :=
  match n with O => [] | S n => z mod 256 :: le_bytes n (z / 256) end.

Fixpoint le_value (l : list Z) : Z := match l with [] => 0 | b :: l => b + 256 * le_value l end.

Lemma le_value_bytes n z : le_value (le_bytes n z) = z mod 256 ^ Z.of_nat n.
Proof.
  revert z. induction n as [|n IH]; intros z; cbn [le_bytes le_value]; [by rewrite Z.mod_1_r|].
  rewrite IH, Nat2Z.inj_succ, Z.pow_succ_r by lia. rewrite (Z.mul_comm 256 (256 ^ _)).
  rewrite (Z.mul_comm (256 ^ _) 256), Z.rem_mul_r by lia. lia.
Qed.

Lemma le_bytes_length n z : length (le_bytes n z) = n.
Proof. revert z. induction n as [|n IH]; intros z; cbn; [done|]. by rewrite IH. Qed.

Lemma le_bytes_range n z : Forall (fun b => 0 <= b < 256) (le_bytes n z).
Proof. revert z. induction n as [|n IH]; intros z; cbn; constructor; [apply Z.mod_pos_bound; lia|done]. Qed.

Definition byte_char (b : Z) : ascii := ascii_of_N (Z.to_N b).

Lemma code_byte_char b : 0 <= b < 256 -> code (byte_char b) = b.
Proof. intros H. unfold code, byte_char. rewrite N_ascii_embedding by lia. lia. Qed.

(** An integer of [n] bytes in a buffer of characters. *)
Definition put_bytes (n : nat) (z : Z) : cstr := map byte_char (le_bytes n z).
Definition get_bytes (s : cstr) : Z := le_value (map code s).

Lemma put_bytes_length n z : length (put_bytes n z) = n.
Proof. unfold put_bytes. by rewrite length_map, le_bytes_length. Qed.

Lemma get_put_bytes n z : get_bytes (put_bytes n z) = z mod 256 ^ Z.of_nat n.
Proof.
  unfold get_bytes, put_bytes. rewrite map_map. rewrite <- le_value_bytes. f_equal.
  pose proof (le_bytes_range n z) as H. induction H as [|b l Hb _ IH]; [done|]. cbn. by rewrite code_byte_char, IH.
Qed.
