(* ===== verification/AccessWin32.v ===== *)
(** * Permissions on Windows

    The security descriptors of [utils-win32.c]: those made from permission bits,
    and the bits read back.  An identifier (SID) is a number.  The content of a
    descriptor is a record; its size in self-relative form is a parameter. *)

From S2P Require Import Prelude TextMode.

(** ** Access rights *)

Definition FILE_READ_DATA : Z := 0x1.
Definition FILE_WRITE_DATA : Z := 0x2.
Definition FILE_APPEND_DATA : Z := 0x4.
Definition FILE_READ_EA : Z := 0x8.
Definition FILE_WRITE_EA : Z := 0x10.
Definition FILE_EXECUTE : Z := 0x20.
Definition FILE_READ_ATTRIBUTES : Z := 0x80.
Definition FILE_WRITE_ATTRIBUTES : Z := 0x100.
Definition DELETE : Z := 0x10000.
Definition READ_CONTROL : Z := 0x20000.
Definition WRITE_DAC : Z := 0x40000.
Definition WRITE_OWNER : Z := 0x80000.
Definition SYNCHRONIZE : Z := 0x100000.
Definition GENERIC_EXECUTE : Z := 0x20000000.
Definition GENERIC_WRITE : Z := 0x40000000.
Definition GENERIC_READ : Z := 0x80000000.

Definition lor_all (l : list Z) : Z := foldr Z.lor 0 l.

Definition FILE_GENERIC_READ : Z :=
  lor_all [READ_CONTROL; FILE_READ_DATA; FILE_READ_ATTRIBUTES; FILE_READ_EA; SYNCHRONIZE].
Definition FILE_GENERIC_WRITE : Z :=
  lor_all [READ_CONTROL; FILE_WRITE_DATA; FILE_WRITE_ATTRIBUTES; FILE_WRITE_EA; FILE_APPEND_DATA; SYNCHRONIZE].
Definition FILE_GENERIC_EXECUTE : Z :=
  lor_all [READ_CONTROL; FILE_READ_ATTRIBUTES; FILE_EXECUTE; SYNCHRONIZE].

Definition MIN_ACCESS_FLAGS : Z := lor_all [READ_CONTROL; SYNCHRONIZE; FILE_READ_ATTRIBUTES; FILE_READ_EA].
Definition MIN_OWNER_ACCESS_FLAGS : Z := lor_all [DELETE; WRITE_DAC; WRITE_OWNER; FILE_WRITE_EA; FILE_WRITE_ATTRIBUTES].

(** Permission bits of the owner: 0400, 0200 and 0100 in octal. *)
Definition S_IREAD : Z := 0x100.
Definition S_IWRITE : Z := 0x80.
Definition S_IEXEC : Z := 0x40.
Definition MODE_DEF : Z := Z.shiftl 1 16.

Definition access_to_mode (access : Z) : Z :=
  let mode := if has_flag access FILE_READ_DATA then S_IREAD else 0 in
  let mode := Z.lor mode (if has_flag access FILE_WRITE_DATA then S_IWRITE else 0) in
  Z.lor mode (if has_flag access FILE_EXECUTE then S_IEXEC else 0).

Definition get_access_from_perm_bits (mode : Z) : Z :=
  let access := Z.lor MIN_ACCESS_FLAGS (if has_flag mode S_IREAD then FILE_GENERIC_READ else 0) in
  let access := Z.lor access (if has_flag mode S_IWRITE then FILE_GENERIC_WRITE else 0) in
  Z.lor access (if has_flag mode S_IEXEC then FILE_GENERIC_EXECUTE else 0).

(** ** Security descriptors *)

Record ace := mk_ace { ace_allowed : bool; ace_mask : Z; ace_sid : Z }.

(** [dacl] is the pointer to the list of the entries. *)
Record secdesc := mk_secdesc { sd_owner : option Z; sd_group : option Z; dacl_present : bool; dacl : option (list ace) }.

Class W32Security := {
  everyone : Z;                      (* identifier of everyone *)
  self_relative_size : secdesc -> Z; (* bytes of the self-relative form *)
  secdesc_malloc : Z -> bool
}.

Definition SELF_RELATIVE_SD_MINSIZE : Z := 512.

Section Secdesc.

Context `{!W32Security}.

(** The new capacity, [None] if the allocation failed. *)
Definition local_secdesc_resize (size : Z) : option Z :=
  if size <=? SELF_RELATIVE_SD_MINSIZE then Some SELF_RELATIVE_SD_MINSIZE
  else if secdesc_malloc size then Some size else None.

(** The loops that write a descriptor of [needed] bytes: the system gives
    the size needed when the capacity is too small. *)
Fixpoint secdesc_write_loop (fuel : nat) (needed capacity : Z) : option bool :=
  if needed <=? capacity then Some true
  else match fuel with
       | O => None
       | S fuel =>
           match local_secdesc_resize needed with
           | None => Some false
           | Some capacity => secdesc_write_loop fuel needed capacity
           end
       end.

Definition mode_acl (owner group mode : Z) : list ace :=
  [mk_ace true (Z.lor (get_access_from_perm_bits mode) MIN_OWNER_ACCESS_FLAGS) owner;
   mk_ace true (get_access_from_perm_bits (Z.shiftl mode 3)) group;
   mk_ace true (get_access_from_perm_bits (Z.shiftl mode 6)) everyone].

Definition mode_secdesc (owner group mode : Z) : secdesc :=
  mk_secdesc (Some owner) (Some group) true (Some (mode_acl owner group mode)).

(** [caller] is the owner and the group of the token of the process, [None] if they
    cannot be read.  [None] is the failure, [Some None] the default descriptor. *)
Definition local_secdesc_init_from_mode (caller : option (Z * Z)) (mode : Z) : option (option secdesc) :=
  if has_flag mode MODE_DEF then Some None
  else
    '(owner, group) ← caller;
    let sd := mode_secdesc owner group mode in
    written ← secdesc_write_loop 1 (self_relative_size sd) SELF_RELATIVE_SD_MINSIZE;
    if written : bool then Some (Some sd) else None.

(** [kernel] is the descriptor of the object, [None] if it cannot be read. *)
Definition local_secdesc_init_from_handle (kernel : option secdesc) : option secdesc :=
  sd ← kernel;
  written ← secdesc_write_loop 1 (self_relative_size sd) SELF_RELATIVE_SD_MINSIZE;
  if written : bool then Some sd else None.

Definition IS_DACL_EMPTY (sd : secdesc) : bool := match dacl sd with None => dacl_present sd | Some _ => false end.
Definition IS_DACL_NULL (sd : secdesc) : bool := match dacl sd with None => negb (dacl_present sd) | Some _ => false end.

Definition sid_is (sid : Z) (other : option Z) : bool := match other with Some s => sid =? s | None => false end.

Definition ace_step (owner group : option Z) (mode : Z) (a : ace) : Z :=
  if negb (ace_allowed a) then mode
  else if sid_is (ace_sid a) owner then Z.lor mode (access_to_mode (ace_mask a))
  else if sid_is (ace_sid a) group then Z.lor mode (Z.shiftr (access_to_mode (ace_mask a)) 3)
  else if ace_sid a =? everyone then Z.lor mode (Z.shiftr (access_to_mode (ace_mask a)) 6)
  else mode.

Definition local_secdesc_get_mode (sd : secdesc) : Z :=
  if IS_DACL_NULL sd then 0x1ff
  else if IS_DACL_EMPTY sd then 0
  else foldl (ace_step (sd_owner sd) (sd_group sd)) 0 (default [] (dacl sd)).

End Secdesc.

(** ** Permission bits *)

(** The bits of the owner, and others, from their number. *)
Definition owner_bits (mode : Z) : Z :=
  Z.lor (Z.lor (if Z.testbit mode 8 then S_IREAD else 0) (if Z.testbit mode 7 then S_IWRITE else 0))
    (if Z.testbit mode 6 then S_IEXEC else 0).

Lemma access_mode_bits mode extra :
  Z.land extra (lor_all [FILE_READ_DATA; FILE_WRITE_DATA; FILE_EXECUTE]) = 0 ->
  access_to_mode (Z.lor (get_access_from_perm_bits mode) extra) = owner_bits mode.
Proof.
  intros He. assert (Hx : forall f, Z.land (lor_all [FILE_READ_DATA; FILE_WRITE_DATA; FILE_EXECUTE]) f = f ->
    forall a, has_flag (Z.lor a extra) f = has_flag a f).
  { intros f Hf a. unfold has_flag. rewrite Z.land_lor_distr_l. rewrite <- Hf at 2. by rewrite Z.land_assoc, He, Z.land_0_l, Z.lor_0_r. }
  unfold access_to_mode, owner_bits. rewrite !Hx by reflexivity. unfold get_access_from_perm_bits.
  change S_IREAD with (2 ^ 8). change S_IWRITE with (2 ^ 7). change S_IEXEC with (2 ^ 6). rewrite !has_flag_testbit by lia.
  destruct (Z.testbit mode 8), (Z.testbit mode 7), (Z.testbit mode 6); reflexivity.
Qed.

Lemma owner_bits_testbit mode n : Z.testbit (owner_bits mode) n = (6 <=? n) && (n <=? 8) && Z.testbit mode n.
Proof.
  unfold owner_bits. rewrite !Z.lor_spec.
  assert (Hb : forall (b : bool) k, 0 <= k -> Z.testbit (if b then 2 ^ k else 0) n = b && (n =? k)).
  { intros b k Hk. destruct b; [|by rewrite Z.bits_0]. cbn. destruct (Z.eqb_spec n k) as [->|]; [by apply Z.pow2_bits_true|].
    apply Z.pow2_bits_false. lia. }
  change S_IREAD with (2 ^ 8). change S_IWRITE with (2 ^ 7). change S_IEXEC with (2 ^ 6). rewrite !Hb by lia.
  destruct (Z.eq_dec n 8) as [->|]; [by destruct (Z.testbit mode 8), (Z.testbit mode 7), (Z.testbit mode 6)|].
  destruct (Z.eq_dec n 7) as [->|]; [by destruct (Z.testbit mode 8), (Z.testbit mode 7), (Z.testbit mode 6)|].
  destruct (Z.eq_dec n 6) as [->|]; [by destruct (Z.testbit mode 8), (Z.testbit mode 7), (Z.testbit mode 6)|].
  rewrite !(proj2 (Z.eqb_neq n _)) by done. rewrite !andb_false_r. symmetry.
  destruct (Z.leb_spec 6 n), (Z.leb_spec n 8); try done. lia.
Qed.

Lemma group_bits_testbit mode k n :
  0 <= k -> 0 <= n ->
  Z.testbit (Z.shiftr (owner_bits (Z.shiftl mode k)) k) n = (6 <=? n + k) && (n + k <=? 8) && Z.testbit mode n.
Proof.
  intros Hk Hn. rewrite Z.shiftr_spec, owner_bits_testbit, Z.shiftl_spec by lia. do 2 f_equal. lia.
Qed.

Section RoundTrip.

Context `{!W32Security}.

(** Writing a descriptor ends: with a buffer allocated if needed, or a failure of the allocation. *)
Lemma secdesc_write_total needed :
  exists written, secdesc_write_loop 1 needed SELF_RELATIVE_SD_MINSIZE = Some written /\
    (written = false -> secdesc_malloc needed = false).
Proof.
  unfold secdesc_write_loop, local_secdesc_resize. destruct (Z.leb_spec needed SELF_RELATIVE_SD_MINSIZE); [by eexists|].
  destruct (secdesc_malloc needed); [|by eexists]. rewrite Z.leb_refl. by eexists.
Qed.

(** The permission bits of a file are read back from its security descriptor: for a
    caller whose owner, group and everyone are distinct, the descriptor made
    from [mode] is stored whatever its size and has the permission bits of [mode], the nine
    low bits; each right that the owner, the group or the others
    have is the one of their three bits. *)
Theorem mode_roundtrip (owner group mode : Z) :
  owner <> group -> owner <> everyone -> group <> everyone -> has_flag mode MODE_DEF = false ->
  (forall size, secdesc_malloc size = true) ->
  exists sd, local_secdesc_init_from_mode (Some (owner, group)) mode = Some (Some sd) /\
    local_secdesc_init_from_handle (Some sd) = Some sd /\
    local_secdesc_get_mode sd = Z.land mode 0x1ff.
Proof.
  intros H1 H2 H3 Hdef Hm. set (sd := mode_secdesc owner group mode). exists sd.
  assert (Hw : secdesc_write_loop 1 (self_relative_size sd) SELF_RELATIVE_SD_MINSIZE = Some true).
  { destruct (secdesc_write_total (self_relative_size sd)) as (b & Hb & Hf). rewrite Hb. f_equal. destruct b; [done|].
    specialize (Hf eq_refl). by rewrite Hm in Hf. }
  unfold local_secdesc_init_from_mode, local_secdesc_init_from_handle. rewrite Hdef. cbn [mbind option_bind]. fold sd.
  rewrite Hw. split; [done|]. split; [done|].
  unfold local_secdesc_get_mode. cbn -[Z.land access_to_mode Z.shiftl Z.shiftr]. unfold ace_step, sid_is. cbn -[Z.land access_to_mode Z.shiftl Z.shiftr].
  rewrite !Z.eqb_refl, !(proj2 (Z.eqb_neq _ _)) by (done || by apply not_eq_sym).
  rewrite access_mode_bits by reflexivity.
  rewrite <- (Z.lor_0_r (get_access_from_perm_bits (Z.shiftl mode 3))), <- (Z.lor_0_r (get_access_from_perm_bits (Z.shiftl mode 6))).
  rewrite !access_mode_bits by reflexivity.
  apply Z.bits_inj'. intros n Hn. rewrite !Z.lor_spec, Z.bits_0, owner_bits_testbit, !group_bits_testbit by lia.
  rewrite Z.land_spec. change 0x1ff with (Z.ones 9). rewrite Z.testbit_ones_nonneg by lia. cbn [orb].
  destruct (Z.testbit mode n); rewrite ?andb_false_r; [|done]. rewrite !andb_true_r. cbn [andb].
  repeat match goal with |- context [?a <=? ?b] => destruct (Z.leb_spec a b) end; cbn [andb orb];
    destruct (Z.ltb_spec n 9); try done; lia.
Qed.

End RoundTrip.

(** A system where descriptors need more than the buffer. *)
Module Demo.
#[global] Instance security : W32Security := {| everyone := 7; self_relative_size _ := 600; secdesc_malloc _ := true |}.
End Demo.

Lemma mode_roundtrip_witness :
  exists sd, local_secdesc_init_from_mode (Some (1, 2)) 0x1a4 = Some (Some sd) /\
    local_secdesc_init_from_handle (Some sd) = Some sd /\ local_secdesc_get_mode sd = 0x1a4.
Proof. exact (mode_roundtrip 1 2 0x1a4 ltac:(done) ltac:(done) ltac:(done) eq_refl (fun _ => eq_refl)). Defined.

(** A group that is also the owner gives its rights to the owner and none to the group. *)
Example owner_is_group : local_secdesc_get_mode (mode_secdesc 1 1 0x38) = 0x1c0.
Proof. reflexivity. Qed.

(** A pointer that is NULL for a list that is present gives all rights to the
    system, and is read as no right. *)
Example null_dacl : local_secdesc_get_mode (mk_secdesc (Some 1) (Some 2) true None) = 0.
Proof. reflexivity. Qed.
