(* ===== verification/SecDesc.v ===== *)
(** * Memory of the security descriptors on Windows

    The descriptor of [utils-win32.c] that is in a buffer of the stack, or in a block of the heap when the system asks for more
    ([struct local_secdesc]).  [AccessWin32] has what the descriptors say; here is where they are.  The call of the system that writes the
    descriptor is a parameter of the loop: [MakeSelfRelativeSD] or [GetKernelObjectSecurity].  [None] is the fuel exhausted. *)

From S2P Require Import Prelude Effects AccessWin32.

(** The pointer [sd]. *)
Inductive sd_ptr := SdNull | SdBuffer | SdBlock (block : Z).

Inductive sd_result := SdWritten | SdTooSmall (needed : Z) | SdFailed.

Section Memory.

Context {OS : Type} (malloc : Z -> OS -> option Z * OS) (free : Z -> OS -> OS) (write : Z -> OS -> sd_result * OS).

Abbreviation M := (ST OS).

Definition local_secdesc_deinit (sd : sd_ptr) : M sd_ptr :=
  match sd with SdBlock b => st_modify (free b);; mret SdNull | SdNull | SdBuffer => mret SdNull end.

Definition local_secdesc_resize (sd : sd_ptr) (size : Z) : M (sd_ptr * bool) :=
  _ ← local_secdesc_deinit sd;
  if size <=? SELF_RELATIVE_SD_MINSIZE then mret (SdBuffer, true)
  else
    b ← st_call (malloc size);
    mret (match b with Some b => (SdBlock b, true) | None => (SdNull, false) end).

(** The loop of the two initialisations, on a buffer of [len] bytes. *)
Fixpoint secdesc_loop (fuel : nat) (sd : sd_ptr) (len : Z) : M (Z * sd_ptr) :=
  match fuel with
  | O => st_ub
  | S fuel =>
      r ← st_call (write len);
      match r with
      | SdWritten => mret (0, sd)
      | SdFailed => sd ← local_secdesc_deinit sd; mret (-1, sd)
      | SdTooSmall needed =>
          '(sd, ok) ← local_secdesc_resize sd needed;
          if ok : bool then secdesc_loop fuel sd needed else sd ← local_secdesc_deinit sd; mret (-1, sd)
      end
  end.

Definition local_secdesc_init (fuel : nat) : M (Z * sd_ptr) := secdesc_loop fuel SdBuffer SELF_RELATIVE_SD_MINSIZE.

(** ** Nothing leaks *)

Context (heap : OS -> gset Z).

Class HeapLaws : Prop := {
  law_malloc n s : match malloc n s with
                   | (Some b, s') => b ∉ heap s /\ heap s' = {[ b ]} ∪ heap s
                   | (None, s') => heap s' = heap s
                   end;
  law_free b s : heap (free b s) = heap s ∖ {[ b ]};
  law_write n s : heap (write n s).2 = heap s
}.

Context {heap_laws : HeapLaws}.

Definition owned (sd : sd_ptr) : gset Z := match sd with SdBlock b => {[ b ]} | _ => ∅ end.

(** The blocks are those of [h] and that of [sd]. *)
Definition holds_sd (h : gset Z) (sd : sd_ptr) (s : OS) : Prop := heap s = owned sd ∪ h /\ owned sd ## h.

Lemma deinit_spec h sd s :
  holds_sd h sd s -> exists s', local_secdesc_deinit sd s = Some (SdNull, s') /\ heap s' = h.
Proof.
  intros [Hh Hd]. destruct sd as [| |b]; cbn in *.
  - eexists. split; [reflexivity|]. set_solver.
  - eexists. split; [reflexivity|]. set_solver.
  - eexists. split; [reflexivity|]. rewrite law_free, Hh. set_solver.
Qed.

Lemma resize_spec h sd size s :
  holds_sd h sd s -> exists sd' ok s', local_secdesc_resize sd size s = Some ((sd', ok), s') /\ holds_sd h sd' s'.
Proof.
  intros Hs. unfold local_secdesc_resize. destruct (deinit_spec h sd s Hs) as (s1 & E1 & H1). rewrite (st_bind_Some _ _ _ _ _ E1).
  destruct (size <=? _).
  { eexists _, _, _. split; [reflexivity|]. split; cbn; set_solver. }
  pose proof (law_malloc size s1) as L. unfold mbind, st_bind, st_call. destruct (malloc size s1) as [[b|] s2].
  - destruct L as [Hn Hh]. eexists _, _, _. split; [reflexivity|]. split; cbn; set_solver.
  - eexists _, _, _. split; [reflexivity|]. split; cbn; set_solver.
Qed.

(** Whatever the sizes that the system asks for, which may change from one call to the next, a failure leaves no block and
    a success at most the one of the descriptor, which the end of its use releases. *)
Theorem secdesc_no_leak fuel s rv sd s' :
  local_secdesc_init fuel s = Some ((rv, sd), s') ->
  (rv = 0 \/ rv = -1 /\ sd = SdNull) /\ holds_sd (heap s) sd s'
  /\ exists s2, local_secdesc_deinit sd s' = Some (SdNull, s2) /\ heap s2 = heap s.
Proof.
  unfold local_secdesc_init. generalize SELF_RELATIVE_SD_MINSIZE. assert (H0 : holds_sd (heap s) SdBuffer s) by (split; cbn; set_solver).
  revert H0. generalize (heap s). intros h. generalize SdBuffer. revert s.
  enough (H : forall fuel s sd0 len, holds_sd h sd0 s -> secdesc_loop fuel sd0 len s = Some ((rv, sd), s') ->
    (rv = 0 \/ rv = -1 /\ sd = SdNull) /\ holds_sd h sd s').
  { intros s sd0 Hs len E. destruct (H fuel s sd0 len Hs E) as [H1 H2]. split; [done|]. split; [done|]. by apply deinit_spec. }
  clear fuel. intros fuel. induction fuel as [|fuel IH]; intros s sd0 len Hs; [done|]. cbn [secdesc_loop].
  pose proof (law_write len s) as L. unfold mbind at 1, st_bind at 1, st_call at 1. destruct (write len s) as [r s1]. cbn in L.
  assert (Hs1 : holds_sd h sd0 s1) by (unfold holds_sd; by rewrite L).
  assert (Hfail : forall sd1 s2, holds_sd h sd1 s2 -> (sd ← local_secdesc_deinit sd1; mret (-1, sd)) s2 = Some ((rv, sd), s') ->
    (rv = 0 \/ rv = -1 /\ sd = SdNull) /\ holds_sd h sd s').
  { intros sd1 s2 H2. destruct (deinit_spec h sd1 s2 H2) as (s3 & E3 & H3). rewrite (st_bind_Some _ _ _ _ _ E3). intros [= <- <- <-].
    split; [by right|]. split; cbn; set_solver. }
  destruct r as [|needed|]; [by intros [= <- <- <-]; split; [left|]| |by apply Hfail].
  destruct (resize_spec h sd0 needed s1 Hs1) as (sd1 & ok & s2 & E2 & H2). rewrite (st_bind_Some _ _ _ _ _ E2).
  destruct ok; [by apply IH|by apply Hfail].
Qed.

(** If the size that the system asks for does not change, two calls are enough, and the outcome is that of
    [AccessWin32.secdesc_write_loop]. *)
Lemma secdesc_two_calls `{!W32Security} (needed : Z) s :
  (forall len s, write len s = (if needed <=? len then SdWritten else SdTooSmall needed, s)) ->
  (forall size s, is_Some (malloc size s).1 <-> secdesc_malloc size = true) ->
  exists rv sd s', local_secdesc_init 2 s = Some ((rv, sd), s')
    /\ secdesc_write_loop 1 needed SELF_RELATIVE_SD_MINSIZE = Some (rv =? 0).
Proof.
  intros Hw Hm. unfold local_secdesc_init. cbn [secdesc_loop secdesc_write_loop]. unfold mbind, st_bind, st_call. rewrite Hw.
  destruct (needed <=? SELF_RELATIVE_SD_MINSIZE) eqn:E; [by eexists _, _, _|].
  unfold local_secdesc_resize, AccessWin32.local_secdesc_resize. rewrite E. cbn [local_secdesc_deinit].
  specialize (Hm needed s). unfold mbind, st_bind, st_call. cbn [mret st_ret]. destruct (malloc needed s) as [[b|] s1].
  - rewrite (proj1 Hm) by (by eexists). cbn [mret st_ret]. rewrite Hw, Z.leb_refl. by eexists _, _, _.
  - destruct (secdesc_malloc needed); [by destruct (proj2 Hm eq_refl)|]. by eexists _, _, _.
Qed.

End Memory.

(** ** A descriptor of 600 bytes *)

Module SecDescDemo.

Definition heap (s : gset Z) : gset Z := s.
Definition malloc (n : Z) (s : gset Z) : option Z * gset Z := let b := fresh s in (Some b, {[ b ]} ∪ s).
Definition free (b : Z) (s : gset Z) : gset Z := s ∖ {[ b ]}.
Definition write (n : Z) (s : gset Z) : sd_result * gset Z := (if 600 <=? n then SdWritten else SdTooSmall 600, s).

#[global] Instance heap_laws : HeapLaws malloc free write heap.
Proof. split; [|done|done]. intros n s. cbn. split; [apply is_fresh|done]. Qed.

End SecDescDemo.

Lemma secdesc_no_leak_witness :
  exists b s s2, local_secdesc_init SecDescDemo.malloc SecDescDemo.free SecDescDemo.write 2 ∅ = Some ((0, SdBlock b), s)
    /\ local_secdesc_deinit SecDescDemo.free (SdBlock b) s = Some (SdNull, s2) /\ s2 = ∅.
Proof.
  destruct (local_secdesc_init SecDescDemo.malloc SecDescDemo.free SecDescDemo.write 2 ∅) as [[[rv sd] s]|] eqn:E; [|discriminate].
  destruct (secdesc_no_leak SecDescDemo.malloc SecDescDemo.free SecDescDemo.write SecDescDemo.heap 2 ∅ rv sd s E) as (_ & _ & s2 & E2 & Hh).
  pose proof E as E'. injection E' as <- <- Es. eexists _, s, s2. split; [reflexivity|]. split; [exact E2|exact Hh].
Defined.
