(* ===== verification/FdTable.v ===== *)
(** * Table of the file descriptors on Windows

    The information kept for the file descriptors and the errors of
    [utils-win32.c], the opening of files from UTF-8 paths, and what is proved of the
    table: an open descriptor stays described.  The C runtime and the
    system are the class [W32File]: a state and the calls used.  A handle is a number. *)

From S2P Require Import Prelude CStr Bytes Errcode TextMode Effects AccessWin32.


(** ** Errors *)

(** Errors of Windows and of its sockets, by their names. *)
Inductive w32err :=
  | ERROR_TOO_MANY_OPEN_FILES | WSAEMFILE | ERROR_FILE_EXISTS | ERROR_ALREADY_EXISTS | ERROR_INVALID_NAME
  | ERROR_PATH_NOT_FOUND | ERROR_FILE_NOT_FOUND | ERROR_INVALID_HANDLE | ERROR_OUTOFMEMORY
  | ERROR_ACCESS_DENIED | WSAEACCES | ERROR_INVALID_PARAMETER | ERROR_INVALID_ACCESS | ERROR_INVALID_DATA
  | WSAEINVAL | ERROR_BAD_EXE_FORMAT | WSAESHUTDOWN | ERROR_NO_DATA | ERROR_BROKEN_PIPE
  | ERROR_NOT_SAME_DEVICE | WSASYSNOTREADY | ERROR_DIRECTORY_NOT_SUPPORTED | ERROR_DISK_FULL
  | ERROR_NOT_SUPPORTED | WSAENETDOWN | WSAENETUNREACH | WSAVERNOTSUPPORTED | WSAEINPROGRESS
  | WSAECONNRESET | WSAEFAULT | WSAEMSGSIZE | WSAENOBUFS | WSAEISCONN | WSAENOTCONN | WSAENOTSOCK
  | WSAECONNREFUSED | WSAEDESTADDRREQ | WSAEADDRINUSE | WSAEADDRNOTAVAIL | WSAEOPNOTSUPP | WSAEINTR
  | WSAENOPROTOOPT | WSAEPFNOSUPPORT | WSAEAFNOSUPPORT | WSAESOCKTNOSUPPORT | WSAEPROTOTYPE
  | WSAEPROTONOSUPPORT | WAIT_TIMEOUT | WSAETIMEDOUT | ERROR_NO_UNICODE_TRANSLATION
  | ERROR_NO_MORE_FILES | ERROR_PIPE_CONNECTED | ERROR_PIPE_BUSY | ERROR_INSUFFICIENT_BUFFER | ERROR_SUCCESS | W32_OTHER (code : Z).

#[export] Instance w32err_eq_dec : EqDecision w32err.
Proof. solve_decision. Defined.

Definition get_errcode_from_w32err (e : w32err) : errcode :=
  match e with
  | ERROR_TOO_MANY_OPEN_FILES | WSAEMFILE => E_MFILE
  | ERROR_FILE_EXISTS | ERROR_ALREADY_EXISTS => E_EXIST
  | ERROR_INVALID_NAME | ERROR_PATH_NOT_FOUND | ERROR_FILE_NOT_FOUND => E_NOENT
  | ERROR_INVALID_HANDLE => E_BADF
  | ERROR_OUTOFMEMORY => E_NOMEM
  | ERROR_ACCESS_DENIED | WSAEACCES => E_ACCES
  | ERROR_INVALID_PARAMETER | ERROR_INVALID_ACCESS | ERROR_INVALID_DATA | WSAEINVAL => E_INVAL
  | ERROR_BAD_EXE_FORMAT => E_NOEXEC
  | WSAESHUTDOWN | ERROR_NO_DATA | ERROR_BROKEN_PIPE => E_PIPE
  | ERROR_NOT_SAME_DEVICE => E_XDEV
  | WSASYSNOTREADY | ERROR_DIRECTORY_NOT_SUPPORTED => E_ISDIR
  | ERROR_DISK_FULL => E_NOSPC
  | ERROR_NOT_SUPPORTED => E_NOTSUP
  | WSAENETDOWN => E_NETDOWN
  | WSAENETUNREACH => E_NETUNREACH
  | WSAVERNOTSUPPORTED => E_NOSYS
  | WSAEINPROGRESS => E_INPROGRESS
  | WSAECONNRESET => E_CONNRESET
  | WSAEFAULT => E_FAULT
  | WSAEMSGSIZE => E_MSGSIZE
  | WSAENOBUFS => E_NOBUFS
  | WSAEISCONN => E_ISCONN
  | WSAENOTCONN => E_NOTCONN
  | WSAENOTSOCK => E_NOTSOCK
  | WSAECONNREFUSED => E_CONNREFUSED
  | WSAEDESTADDRREQ => E_DESTADDRREQ
  | WSAEADDRINUSE => E_ADDRINUSE
  | WSAEADDRNOTAVAIL => E_ADDRNOTAVAIL
  | WSAEOPNOTSUPP => E_OPNOTSUPP
  | WSAEINTR => E_INTR
  | WSAENOPROTOOPT => E_NOPROTOOPT
  | WSAEPFNOSUPPORT | WSAEAFNOSUPPORT => E_AFNOSUPPORT
  | WSAESOCKTNOSUPPORT | WSAEPROTOTYPE => E_PROTOTYPE
  | WSAEPROTONOSUPPORT => E_PROTONOSUPPORT
  | WAIT_TIMEOUT | WSAETIMEDOUT => E_TIMEDOUT
  | ERROR_NO_UNICODE_TRANSLATION => E_ILSEQ
  | _ => E_IO
  end.

(** The loop that cleans the message of the system: [%] would be taken for a format. *)
Definition clean_percent (msg : cstr) : cstr :=
  map (fun c => if bool_decide (c = "%"%char) then " "%char else c) msg.

(** [format_message n]: the message of the system, cut to [n] characters. *)
Definition write_w32err_msg (format_message : nat -> cstr) (len : nat) : option cstr :=
  match len with O => None | S n => Some (clean_percent (format_message n)) end.

(** ** Opening modes *)

Inductive creation_flag := OPEN_EXISTING | OPEN_ALWAYS | TRUNCATE_EXISTING | CREATE_NEW | CREATE_ALWAYS.

Definition O_RDONLY : Z := 0x0000.
Definition O_WRONLY : Z := 0x0001.
Definition O_RDWR : Z := 0x0002.
Definition O_APPEND : Z := 0x0008.
Definition O_CREAT : Z := 0x0100.
Definition O_TRUNC : Z := 0x0200.
Definition O_EXCL : Z := 0x0400.

Definition set_access_mode (oflags : Z) : option Z :=
  let m := Z.land oflags (Z.lor O_RDONLY (Z.lor O_WRONLY O_RDWR)) in
  if m =? O_RDONLY then Some GENERIC_READ
  else if m =? O_WRONLY then Some GENERIC_WRITE
  else if m =? O_RDWR then Some (Z.lor GENERIC_READ GENERIC_WRITE)
  else None.

(** All the combinations of the three flags are covered: the last case is not reached. *)
Definition set_creation_mode (oflags : Z) : option creation_flag :=
  let m := Z.land oflags (Z.lor O_TRUNC (Z.lor O_CREAT O_EXCL)) in
  if (m =? 0) || (m =? O_EXCL) then Some OPEN_EXISTING
  else if m =? O_CREAT then Some OPEN_ALWAYS
  else if (m =? O_TRUNC) || (m =? Z.lor O_TRUNC O_EXCL) then Some TRUNCATE_EXISTING
  else if (m =? Z.lor O_CREAT O_EXCL) || (m =? Z.lor O_CREAT (Z.lor O_TRUNC O_EXCL)) then Some CREATE_NEW
  else if m =? Z.lor O_CREAT O_TRUNC then Some CREATE_ALWAYS
  else None.

(** [inl] is the failure; [None] the crash. *)
Definition set_w32_create_file_options (oflags : Z) : option (errcode + Z * creation_flag) :=
  match set_access_mode oflags with
  | None => Some (inl E_INVAL)
  | Some access => creation ← set_creation_mode oflags; Some (inr (access, creation))
  end.

(** ** The system *)

Inductive file_type := FILE_TYPE_CHAR | FILE_TYPE_PIPE | FILE_TYPE_OTHER.

Class W32File (OS : Type) := {
  w32_security :: W32Security;
  caller_sids : OS -> w32err + Z * Z;                            (* owner and group of the token *)
  (* C runtime *)
  _get_osfhandle : Z -> OS -> option Z;
  _open_osfhandle : Z -> bool -> OS -> (errcode + Z) * OS;       (* the flag is [_O_APPEND] *)
  _close : Z -> OS -> option errcode * OS;
  _dup : Z -> OS -> (errcode + Z) * OS;
  _dup2 : Z -> Z -> OS -> option errcode * OS;
  _setmode : Z -> bool -> OS -> option bool * OS;                (* [true] is [_O_BINARY]; former mode *)
  (* files and pipes *)
  CreateFileW : list Z -> Z -> creation_flag -> option secdesc -> Z -> OS -> (w32err + Z) * OS;
  CreatePipe : OS -> (w32err + Z * Z) * OS;
  CloseHandle : Z -> OS -> OS;
  GetFileType : Z -> OS -> file_type;
  GetConsoleMode : Z -> OS -> bool;
  file_name_info : Z -> OS -> option cstr;                       (* name of a pipe, in UTF-8 *)
  SetFilePointer_end : Z -> OS -> Z * OS;                        (* low word of the new position *)
  ReadFile : Z -> nat -> OS -> (w32err + cstr) * OS;
  WriteFile : Z -> cstr -> OS -> (w32err + nat) * OS;
  (* console, in UTF-16 *)
  ReadConsoleW : Z -> nat -> OS -> (w32err + list Z) * OS;
  WriteConsoleW : Z -> list Z -> OS -> (w32err + nat) * OS;
  utf16_to_utf8 : list Z -> option cstr;
  utf8_to_utf16 : cstr -> option (list Z);
  (* sockets: [WSAStartup] run once, and transfers *)
  WSAStartup_once : OS -> option w32err * OS;
  recv : Z -> nat -> OS -> (w32err + cstr) * OS;
  send : Z -> cstr -> OS -> (w32err + nat) * OS
}.

Definition MAX_FD : Z := 2048.

Section Fd.

Context {OS : Type} `{!W32File OS}.

(** [fd_infos] is the static array, [last_error] the error raised last. *)
Record fd_world := mk_fd_world { fd_infos : list Z; fd_os : OS; last_error : option errcode }.

Definition FdM : Type -> Type := ST fd_world.

Definition call {A} (f : OS -> A * OS) : ST fd_world A :=
  st_zoom fd_os (fun os w => mk_fd_world (fd_infos w) os (last_error w)) f.
Definition ask {A} (f : OS -> A) : ST fd_world A := st_gets (fun w => f (fd_os w)).

Definition raise (e : errcode) : ST fd_world Z :=
  st_modify (fun w => mk_fd_world (fd_infos w) (fd_os w) (Some e));; mret (-1).
Definition raise_w32 (e : w32err) : ST fd_world Z := raise (get_errcode_from_w32err e).

(** ** The table *)

(** No bound is checked: [None] is an access out of the array. *)
Definition get_fd_info (fd : Z) : ST fd_world Z := fun w =>
  if fd <? 0 then None else info ← fd_infos w !! Z.to_nat fd; Some (info, w).

(** The elements of the array are unsigned characters. *)
Definition set_fd_info (fd info : Z) : ST fd_world unit := fun w =>
  if (0 <=? fd) && (fd <? Z.of_nat (length (fd_infos w)))
  then Some (tt, mk_fd_world (<[Z.to_nat fd := wrap_u 8 info]> (fd_infos w)) (fd_os w) (last_error w))
  else None.

(** [sscanf] with the pattern of the name of a pseudo terminal pipe. *)
Fixpoint span (f : ascii -> bool) (max : nat) (s : cstr) : cstr * cstr :=
  match max, s with
  | S max, c :: s' => if f c then let '(a, r) := span f max s' in (c :: a, r) else ([], s)
  | _, _ => ([], s)
  end.

Fixpoint strip_prefix (p s : cstr) : option cstr :=
  match p, s with
  | [], _ => Some s
  | c :: p, d :: s => if bool_decide (c = d) then strip_prefix p s else None
  | _ :: _, [] => None
  end.

Definition nonempty (s : cstr) : option cstr := match s with [] => None | _ => Some s end.

Definition is_hex (c : ascii) : bool := is_digit c || in_range "a" "f" c.

(** [%*u]: spaces and a sign are accepted before the digits. *)
Definition scan_unsigned (s : cstr) : option cstr :=
  let '(_, s) := take_sign (skip_spaces s) in
  let '(d, s) := span is_digit (length s) s in _ ← nonempty d; Some s.

Definition scan_cygpty (name : cstr) : option (cstr * cstr) :=
  s ← strip_prefix (cs "\") name;
  let '(orig, s) := span is_lower 7 s in
  _ ← nonempty orig;
  s ← strip_prefix (cs "-") s;
  let '(hex, s) := span is_hex (length s) s in
  _ ← nonempty hex;
  s ← strip_prefix (cs "-pty") s;
  s ← scan_unsigned s;
  s ← strip_prefix (cs "-") s;
  let '(dir, _) := span is_lower 15 s in
  _ ← nonempty dir; Some (orig, dir).

Definition is_cygpty_pipe (name : option cstr) : bool :=
  match name ≫= scan_cygpty with
  | None => false
  | Some (orig, dir) =>
      (bool_decide (orig = cs "msys") || bool_decide (orig = cs "cygwin"))
      && (bool_decide (dir = cs "from") || bool_decide (dir = cs "to"))
  end.

(** The part of [guess_fd_info] that finds the information and says if the
    text mode remains to be asked. *)
Definition guess_type (hnd : Z) (os : OS) : Z * bool :=
  match GetFileType hnd os with
  | FILE_TYPE_CHAR =>
      if GetConsoleMode hnd os then (Z.lor FD_TYPE_CONSOLE (Z.lor FD_FLAG_TEXT FD_FLAG_ISATTY), false)
      else (FD_TYPE_NORMAL, true)
  | FILE_TYPE_PIPE =>
      if is_cygpty_pipe (file_name_info hnd os) then (Z.lor FD_TYPE_PIPE FD_FLAG_ISATTY, false)
      else (FD_TYPE_PIPE, true)
  | FILE_TYPE_OTHER => (FD_TYPE_NORMAL, true)
  end.

Definition guess_fd_info (fd : Z) : ST fd_world Z :=
  hnd ← ask (_get_osfhandle fd);
  match hnd with
  | None => mret (-1)
  | Some hnd =>
      '(info, ask_mode) ← ask (guess_type hnd);
      info ← (if ask_mode : bool then
                tmode ← call (_setmode fd true);
                match tmode with
                | None => mret info
                | Some tmode =>
                    _ ← call (_setmode fd tmode);
                    mret (if tmode : bool then info else Z.lor info FD_FLAG_TEXT)
                end
              else mret info);
      set_fd_info fd info;; mret info
  end.

Definition get_fd_info_checked (fd : Z) : ST fd_world Z :=
  if (fd <? 0) || (MAX_FD <=? fd) then mret (-1)
  else info ← get_fd_info fd;
       if info =? FD_TYPE_UNKNOWN then guess_fd_info fd else mret info.

(** The loop on all descriptors, [n] of them being left. *)
Fixpoint close_from (n : nat) (fd : Z) : ST fd_world unit :=
  match n with
  | O => mret tt
  | S n =>
      info ← get_fd_info fd;
      (if info =? FD_TYPE_UNKNOWN then mret tt
       else _ ← call (_close fd); set_fd_info fd FD_TYPE_UNKNOWN);;
      close_from n (fd + 1)
  end.

Definition close_all_known_fds : ST fd_world unit := close_from (Z.to_nat MAX_FD) 0.

(** The descriptor, [None] if it cannot be created. *)
Definition wrap_handle_into_fd (hnd info : Z) : ST fd_world (option Z) :=
  fd ← call (_open_osfhandle hnd (has_flag info FD_FLAG_APPEND));
  match fd with
  | inr fd => set_fd_info fd info;; mret (Some fd)
  | inl errnum => raise errnum;; mret None
  end.

Definition unwrap_handle_from_fd (fd : Z) : ST fd_world (option Z) :=
  hnd ← ask (_get_osfhandle fd);
  match hnd with
  | Some hnd => mret (Some hnd)
  | None => raise E_BADF;; mret None
  end.

(** ** Opening *)

Definition FILE_ATTRIBUTE_NORMAL : Z := 0x80.
Definition FILE_FLAG_OPEN_REPARSE_POINT : Z := 0x00200000.
Definition FILE_FLAG_BACKUP_SEMANTICS : Z := 0x02000000.

Definition open_handle (path : cstr) (access : Z) (creat : creation_flag) (sec : option secdesc) (flags : Z) (os : OS)
    : (w32err + Z) * OS :=
  match utf8_to_utf16 path with
  | None => (inl ERROR_NO_UNICODE_TRANSLATION, os)
  | Some path_u16 => CreateFileW path_u16 access creat sec flags os
  end.

Definition open_handle_for_metadata (path : cstr) (nofollow : bool) : OS -> (w32err + Z) * OS :=
  open_handle path READ_CONTROL OPEN_EXISTING None
    (Z.lor FILE_FLAG_BACKUP_SEMANTICS (if nofollow then FILE_FLAG_OPEN_REPARSE_POINT else 0)).

(** [local_secdesc_init_from_mode] with the token of the caller; [inl] is the last error. *)
Definition secdesc_from_mode (mode : Z) (os : OS) : w32err + option secdesc :=
  let caller := caller_sids os in
  match local_secdesc_init_from_mode (match caller with inr sids => Some sids | inl _ => None end) mode with
  | Some sd => inr sd
  | None => inl (match caller with inl e => e | inr _ => ERROR_INSUFFICIENT_BUFFER end)
  end.

(** ** Sockets *)

(** A failed start raises an error but is not reported. *)
Definition check_wsa_init : ST fd_world unit :=
  r ← call WSAStartup_once;
  match r with Some e => _ ← raise_w32 e; mret tt | None => mret tt end.

Definition to_size (r : w32err + nat) : w32err + Z := match r with inl e => inl e | inr n => inr (Z.of_nat n) end.

Definition sock_hnd_read (hnd : Z) (nbyte : nat) : ST fd_world (w32err + cstr) :=
  check_wsa_init;; call (recv hnd nbyte).

Definition sock_hnd_write (hnd : Z) (buf : cstr) : ST fd_world (w32err + Z) :=
  check_wsa_init;; (r ← call (send hnd buf); mret (to_size r)).

End Fd.

(** ** What is relied on *)

(** [crt_fds os]: the open descriptors of the C runtime with their handles. *)
Class W32Laws (OS : Type) `{!W32File OS} (crt_fds : OS -> gmap Z Z) : Prop := {
  law_range os fd : is_Some (crt_fds os !! fd) -> 0 <= fd < MAX_FD;
  law_get os fd : _get_osfhandle fd os = crt_fds os !! fd;
  law_open hnd append os :
    match _open_osfhandle hnd append os with
    | (inr fd, os') => crt_fds os !! fd = None /\ crt_fds os' = <[fd := hnd]> (crt_fds os)
    | (inl _, os') => crt_fds os' = crt_fds os
    end;
  law_close fd os :
    match _close fd os with
    | (None, os') => is_Some (crt_fds os !! fd) /\ crt_fds os' = delete fd (crt_fds os)
    | (Some _, os') => crt_fds os !! fd = None /\ crt_fds os' = crt_fds os
    end;
  law_dup fd os :
    match _dup fd os with
    | (inr newfd, os') => is_Some (crt_fds os !! fd) /\ crt_fds os !! newfd = None /\
                          exists hnd, crt_fds os' = <[newfd := hnd]> (crt_fds os)
    | (inl _, os') => crt_fds os' = crt_fds os
    end;
  law_dup2 fd newfd os :
    match _dup2 fd newfd os with
    | (None, os') => is_Some (crt_fds os !! fd) /\ (newfd <> fd -> exists hnd, crt_fds os' = <[newfd := hnd]> (crt_fds os)) /\
                     (newfd = fd -> crt_fds os' = crt_fds os)
    | (Some _, os') => crt_fds os' = crt_fds os
    end;
  law_create_file path a c sd f os : crt_fds (CreateFileW path a c sd f os).2 = crt_fds os;
  law_pipe os : crt_fds (CreatePipe os).2 = crt_fds os;
  law_close_handle hnd os : crt_fds (CloseHandle hnd os) = crt_fds os;
  law_seek hnd os : crt_fds (SetFilePointer_end hnd os).2 = crt_fds os;
  law_read hnd n os :
    crt_fds (ReadFile hnd n os).2 = crt_fds os /\ crt_fds (recv hnd n os).2 = crt_fds os /\
    crt_fds (ReadConsoleW hnd n os).2 = crt_fds os;
  law_read_size hnd n os buf :
    (ReadFile hnd n os).1 = inr buf \/ (recv hnd n os).1 = inr buf ->
    (length buf <= n)%nat;
  law_write hnd s os :
    crt_fds (WriteFile hnd s os).2 = crt_fds os /\ crt_fds (send hnd s os).2 = crt_fds os;
  law_write_console hnd s os : crt_fds (WriteConsoleW hnd s os).2 = crt_fds os;
  law_wsa os : crt_fds (WSAStartup_once os).2 = crt_fds os
}.

(** ** Described descriptors *)

Section Described.

Context {OS : Type} `{!W32File OS} (crt_fds : OS -> gmap Z Z) `{!W32Laws OS crt_fds}.

(** The abstract table: the open descriptors with their information. *)
Definition fd_view (w : fd_world (OS := OS)) : gmap Z Z :=
  map_imap (fun fd _ => fd_infos w !! Z.to_nat fd) (crt_fds (fd_os w)).

(** What holds after an operation that did not change the descriptors. *)
Definition same_fds (w w' : fd_world (OS := OS)) : Prop :=
  fd_infos w' = fd_infos w /\ crt_fds (fd_os w') = crt_fds (fd_os w).

Lemma same_trans w1 w2 w3 : same_fds w1 w2 -> same_fds w2 w3 -> same_fds w1 w3.
Proof. intros [H1 H2] [H3 H4]. split; congruence. Qed.

Lemma raise_same e (w : fd_world (OS := OS)) : exists w', raise e w = Some (-1, w') /\ same_fds w w'.
Proof. eexists. by split. Qed.

Lemma call_same {A} (f : OS -> A * OS) (w : fd_world (OS := OS)) :
  crt_fds (f (fd_os w)).2 = crt_fds (fd_os w) ->
  exists w', call f w = Some ((f (fd_os w)).1, w') /\ same_fds w w'.
Proof.
  intros H. unfold call, st_zoom. destruct (f (fd_os w)) as [a os]. cbn in *. eexists. by split.
Qed.

Lemma unwrap_spec w fd :
  match crt_fds (fd_os w) !! fd with
  | Some hnd => unwrap_handle_from_fd fd w = Some (Some hnd, w)
  | None => exists w', unwrap_handle_from_fd fd w = Some (None, w') /\ same_fds w w'
  end.
Proof.
  unfold unwrap_handle_from_fd, ask, st_gets, mbind, st_bind. rewrite law_get.
  destruct (crt_fds (fd_os w) !! fd); [done|]. eexists. by split.
Qed.

Definition copy_info (fd newfd : Z) (m : gmap Z Z) : gmap Z Z :=
  match m !! fd with Some info => <[newfd := info]> m | None => m end.

(** The information of an open descriptor verifies [P]. *)
Context (P : Z -> Prop) (HP : forall info, P info -> 0 <= info < 256).

(** Every open descriptor has its information in the table. *)
Definition described (w : fd_world (OS := OS)) : Prop :=
  length (fd_infos w) = Z.to_nat MAX_FD /\
  forall fd, is_Some (crt_fds (fd_os w) !! fd) ->
    exists info, fd_infos w !! Z.to_nat fd = Some info /\ P info.

Lemma same_described w w' : same_fds w w' -> described w -> described w' /\ fd_view w' = fd_view w.
Proof. intros [H1 H2]. unfold described, fd_view. by rewrite H1, H2. Qed.

Lemma view_lookup (w : fd_world (OS := OS)) fd :
  fd_view w !! fd = match crt_fds (fd_os w) !! fd with
                               | Some _ => fd_infos w !! Z.to_nat fd | None => None end.
Proof. unfold fd_view. rewrite map_lookup_imap. by destruct (crt_fds (fd_os w) !! fd). Qed.

(** Setting the information of a descriptor that now has the handle [hnd]. *)
Lemma set_info_insert w os fd hnd info :
  described w -> P info -> 0 <= fd < MAX_FD -> crt_fds os = <[fd := hnd]> (crt_fds (fd_os w)) ->
  exists w', set_fd_info fd info (mk_fd_world (fd_infos w) os (last_error w)) = Some (tt, w') /\
    described w' /\ fd_view w' = <[fd := info]> (fd_view w) /\ fd_os w' = os.
Proof.
  intros [Hl Ht] Hi Hr Hos. unfold set_fd_info; cbn [fd_infos fd_os last_error].
  rewrite Hl, Z2Nat.id by (unfold MAX_FD; lia).
  rewrite (proj2 (Z.leb_le 0 fd)), (proj2 (Z.ltb_lt fd MAX_FD)) by lia. cbn [andb].
  assert (wrap_u 8 info = info) as -> by (apply wrap_u_small; apply HP in Hi; unfold in_u; lia).
  eexists; split; [done|].
  assert (Hlook : forall x, is_Some (crt_fds os !! x) ->
    (<[Z.to_nat fd := info]> (fd_infos w)) !! Z.to_nat x = if decide (x = fd) then Some info else fd_infos w !! Z.to_nat x).
  { intros x Hx. pose proof (law_range os x Hx). case_decide as Hd.
    - subst x. apply list_lookup_insert_eq. rewrite Hl. unfold MAX_FD in *; lia.
    - apply list_lookup_insert_ne. lia. }
  split_and!; [split| |done]; cbn [fd_infos fd_os].
  - by rewrite length_insert.
  - intros x Hx. rewrite (Hlook x Hx). case_decide as Hd; [eauto|].
    rewrite Hos, lookup_insert_ne in Hx by done. by apply Ht.
  - apply map_eq. intros x. unfold fd_view; cbn [fd_infos fd_os]. rewrite map_lookup_imap.
    destruct (decide (x = fd)) as [->|Hd].
    + rewrite lookup_insert_eq. rewrite Hlook by (rewrite Hos, lookup_insert_eq; eauto).
      rewrite Hos, lookup_insert_eq. cbn. by rewrite decide_True.
    + rewrite lookup_insert_ne, map_lookup_imap by done. rewrite Hos, lookup_insert_ne by done.
      destruct (crt_fds (fd_os w) !! x) eqn:E; [|done]. cbn.
      rewrite Hlook by (rewrite Hos, lookup_insert_ne by done; eauto). by rewrite decide_False.
Qed.

Lemma wrap_handle_described hnd info w :
  described w -> P info ->
  exists r w', wrap_handle_into_fd hnd info w = Some (r, w') /\ described w' /\
    fd_view w' = match r with Some fd => <[fd := info]> (fd_view w) | None => fd_view w end /\
    (forall fd, r = Some fd -> 0 <= fd /\ fd_view w !! fd = None).
Proof.
  intros Hw Hi. unfold wrap_handle_into_fd, call, st_zoom, mbind, st_bind; cbn.
  pose proof (law_open hnd (has_flag info FD_FLAG_APPEND) (fd_os w)) as Hl.
  destruct (_open_osfhandle _ _ _) as [[e|fd] os].
  - eexists None, _. split; [reflexivity|].
    destruct (same_described w (mk_fd_world (fd_infos w) os (Some e))) as [? ?]; [by split|done|]. done.
  - destruct Hl as [Hfr Hl].
    assert (Hr : 0 <= fd < MAX_FD) by (apply (law_range os); rewrite Hl, lookup_insert_eq; eauto).
    destruct (set_info_insert w os fd hnd info Hw Hi Hr Hl) as (w' & -> & ? & ? & _).
    eexists (Some fd), w'. split_and!; try done. intros ? [= <-]. split; [lia|].
    unfold fd_view. by rewrite map_lookup_imap, Hfr.
Qed.

(** Removing a descriptor. *)
Lemma delete_described w w' fd :
  described w -> fd_infos w' = fd_infos w -> crt_fds (fd_os w') = delete fd (crt_fds (fd_os w)) ->
  described w' /\ fd_view w' = delete fd (fd_view w).
Proof.
  intros [Hl Ht] Hi Hd. split; [split|].
  - by rewrite Hi.
  - intros x Hx. rewrite Hi. apply Ht. rewrite Hd in Hx. apply lookup_delete_is_Some in Hx as [_ Hx]. done.
  - apply map_eq. intros x. unfold fd_view. rewrite Hi, Hd, map_lookup_imap.
    destruct (decide (x = fd)) as [->|Hne]; [by rewrite !lookup_delete_eq|].
    by rewrite !lookup_delete_ne, map_lookup_imap.
Qed.

(** The information of a closed descriptor may be changed. *)
Lemma set_info_closed w fd info :
  described w -> 0 <= fd < MAX_FD -> crt_fds (fd_os w) !! fd = None ->
  exists w', set_fd_info fd info w = Some (tt, w') /\ described w' /\ fd_view w' = fd_view w.
Proof.
  intros [Hl Ht] Hr Hn. unfold set_fd_info.
  rewrite Hl, Z2Nat.id by (unfold MAX_FD; lia).
  rewrite (proj2 (Z.leb_le 0 fd)), (proj2 (Z.ltb_lt fd MAX_FD)) by lia. cbn [andb].
  eexists; split; [done|].
  assert (Hlook : forall x, is_Some (crt_fds (fd_os w) !! x) ->
    (<[Z.to_nat fd := wrap_u 8 info]> (fd_infos w)) !! Z.to_nat x = fd_infos w !! Z.to_nat x).
  { intros x Hx. pose proof (law_range _ x Hx). apply list_lookup_insert_ne.
    intros E. assert (x = fd) as -> by lia. rewrite Hn in Hx. by destruct Hx. }
  split; [split|]; cbn [fd_infos fd_os].
  - by rewrite length_insert.
  - intros x Hx. rewrite (Hlook x Hx). by apply Ht.
  - apply map_eq. intros x. unfold fd_view; cbn [fd_infos fd_os]. rewrite !map_lookup_imap.
    destruct (crt_fds (fd_os w) !! x) eqn:E; [|done]. cbn. apply Hlook. by rewrite E.
Qed.

(** The two duplications end in the same way. *)
Lemma copy_described fd newfd hnd os w :
  described w -> is_Some (crt_fds (fd_os w) !! fd) -> crt_fds os = <[newfd := hnd]> (crt_fds (fd_os w)) ->
  exists w', (info ← get_fd_info fd; set_fd_info newfd info;; mret newfd) (mk_fd_world (fd_infos w) os (last_error w))
             = Some (newfd, w') /\ described w' /\ 0 <= newfd /\ fd_view w' = copy_info fd newfd (fd_view w).
Proof.
  intros [Hl Ht] Hf Hos. pose proof (law_range _ fd Hf). destruct (Ht fd Hf) as (info & Hi & Hti).
  assert (Hr : 0 <= newfd < MAX_FD) by (apply (law_range os); rewrite Hos, lookup_insert_eq; eauto).
  destruct (set_info_insert w os newfd hnd info (conj Hl Ht) Hti Hr Hos) as (w' & Hset & Hw' & Hv & _).
  exists w'. unfold mbind, st_bind, get_fd_info. cbn [fd_infos].
  rewrite (proj2 (Z.ltb_ge fd 0)) by lia. rewrite Hi; cbn. rewrite Hset. split_and!; try done; [lia|].
  unfold copy_info. rewrite (view_lookup w fd), Hi. by destruct Hf as [? ->].
Qed.

End Described.

(** ** A system to run on *)

Module Demo.

(** Descriptors, reads to come, text written, and processes created: program, command line and startup information. *)
Record os := mk_os {
  fds : gmap Z Z; input : list cstr; output : cstr; processes : list (list Z * list Z * (Z * list Z * (Z * Z * Z)))
}.

Definition fresh (m : gmap Z Z) : option Z := find (fun fd => bool_decide (m !! fd = None)) (seqZ 0 MAX_FD).

Definition with_fds (m : gmap Z Z) (o : os) : os := mk_os m (input o) (output o) (processes o).

(** The descriptors in the range of the table. *)
Definition open_fds (o : os) : gmap Z Z := filter (fun p => 0 <= p.1 < MAX_FD) (fds o).

Definition new_fd (hnd : Z) (o : os) : (errcode + Z) * os :=
  match fresh (open_fds o) with
  | Some fd => (inr fd, with_fds (<[fd := hnd]> (fds o)) o)
  | None => (inl E_MFILE, o)
  end.

#[global] Instance file : W32File os := {
  w32_security := AccessWin32.Demo.security;
  caller_sids _ := inr (1, 2);
  _get_osfhandle fd o := open_fds o !! fd;
  _open_osfhandle hnd _ o := new_fd hnd o;
  _close fd o := match open_fds o !! fd with Some _ => (None, with_fds (delete fd (fds o)) o) | None => (Some E_BADF, o) end;
  _dup fd o := match open_fds o !! fd with Some hnd => new_fd hnd o | None => (inl E_BADF, o) end;
  _dup2 fd newfd o :=
    match open_fds o !! fd with
    | Some hnd => if bool_decide (0 <= newfd < MAX_FD) then (None, with_fds (<[newfd := hnd]> (fds o)) o) else (Some E_BADF, o)
    | None => (Some E_BADF, o)
    end;
  _setmode _ _ o := (None, o);
  CreateFileW path _ _ _ _ o := (if bool_decide (path = []) then inl ERROR_PATH_NOT_FOUND else inr 100, o);
  CreatePipe o := (inr (101, 102), o);
  CloseHandle _ o := o;
  GetFileType _ _ := FILE_TYPE_OTHER;
  GetConsoleMode _ _ := false;
  file_name_info _ _ := None;
  SetFilePointer_end _ o := (Z.of_nat (length (output o)), o);
  ReadFile _ n o := match input o with
                    | [] => (inl ERROR_BROKEN_PIPE, o)
                    | s :: rest => (inr (take n s), mk_os (fds o) rest (output o) (processes o))
                    end;
  WriteFile _ s o := (inr (length s), mk_os (fds o) (input o) (output o ++ s) (processes o));
  ReadConsoleW _ _ o := (inl ERROR_INVALID_HANDLE, o);
  WriteConsoleW _ _ o := (inl ERROR_INVALID_HANDLE, o);
  utf16_to_utf8 s := Some (map byte_char s);
  utf8_to_utf16 s := Some (map code s);
  WSAStartup_once o := (None, o);
  recv _ _ o := (inl WSAENOTSOCK, o);
  send _ _ o := (inl WSAENOTSOCK, o)
}.

Definition start : fd_world (OS := os) :=
  mk_fd_world (<[0%nat := Z.lor FD_TYPE_NORMAL FD_FLAG_TEXT]> (replicate (Z.to_nat MAX_FD) 0)) (mk_os {[0 := 90]} [] [] []) None.

Lemma open_fds_insert fd hnd o :
  0 <= fd < MAX_FD -> open_fds (with_fds (<[fd := hnd]> (fds o)) o) = <[fd := hnd]> (open_fds o).
Proof. intros H. unfold open_fds. cbn. by rewrite map_filter_insert_True. Qed.

Lemma open_fds_delete fd o : open_fds (with_fds (delete fd (fds o)) o) = delete fd (open_fds o).
Proof. unfold open_fds. cbn. by rewrite map_filter_delete. Qed.

Lemma fresh_spec m fd : fresh m = Some fd -> m !! fd = None /\ 0 <= fd < MAX_FD.
Proof.
  unfold fresh. intros [Hin Hb]%find_some. apply bool_decide_eq_true in Hb. split; [done|].
  apply list_elem_of_In, elem_of_seqZ in Hin. lia.
Qed.

Lemma new_fd_spec hnd o :
  match new_fd hnd o with
  | (inr fd, o') => open_fds o !! fd = None /\ open_fds o' = <[fd := hnd]> (open_fds o)
  | (inl _, o') => open_fds o' = open_fds o
  end.
Proof.
  unfold new_fd. destruct (fresh (open_fds o)) as [fd|] eqn:E; [|done].
  apply fresh_spec in E as [? ?]. split; [done|]. by apply open_fds_insert.
Qed.

#[global] Instance laws : W32Laws os open_fds.
Proof.
  split; try done.
  - intros o fd [h Hh]. unfold open_fds in Hh. by apply map_lookup_filter_Some in Hh as [_ ?].
  - intros hnd append o. apply new_fd_spec.
  - intros fd o. cbn. destruct (open_fds o !! fd) eqn:E; [|done]. split; [by eexists|apply open_fds_delete].
  - intros fd o. cbn. destruct (open_fds o !! fd) as [h|] eqn:E; [|done].
    pose proof (new_fd_spec h o). destruct (new_fd h o) as [[?|?] ?]; [done|]. naive_solver.
  - intros fd newfd o. cbn. destruct (open_fds o !! fd) as [h|] eqn:E; [|done].
    case_bool_decide; [|done]. split; [by eexists|]. split; [intros _; exists h; by apply open_fds_insert|].
    intros ->. rewrite open_fds_insert by done. by apply insert_id.
  - intros hnd n o. cbn. split_and!; try done. by destruct (input o).
  - intros hnd n o buf. cbn. intros [H|H]; [|done].
    destruct (input o); cbn in H; [done|]. simplify_eq. rewrite length_take. lia.
Qed.

Lemma start_described (P : Z -> Prop) : P (Z.lor FD_TYPE_NORMAL FD_FLAG_TEXT) -> described open_fds P start.
Proof.
  intros HP. split; [done|]. intros fd Hfd. assert (fd = 0) as ->.
  { destruct Hfd as [h Hh]. apply map_lookup_filter_Some in Hh as [Hh _]. cbn in Hh.
    by apply lookup_singleton_Some in Hh as [<- _]. }
  eexists. split; [reflexivity|]. exact HP.
Qed.

End Demo.

