(* ===== verification/IpcWin32.v ===== *)
(** * Local communication on Windows

    [local-ipc-win32.c]: servers and connections over named pipes, and the
    messages with file descriptors.  A message is the list of its bytes, as it is written in the
    pipe; [None] is undefined behaviour (an access out of a buffer). *)

From S2P Require Import Prelude CStr TextMode Effects Bytes Errcode AccessWin32 FdTable.

Definition PIPE_PREFIX : cstr := cs "\\.\pipe\".
Definition MAX_PIPENAME : nat := 256.
Definition MAX_DATA_SIZE : nat := 4096.
Definition MAX_ATTEMPTS : Z := 16.

(** Bytes of [uintptr_t msg_data[MAX_DATA_SIZE]]. *)
Definition MSG_DATA_BYTES : nat := Nat.mul 8 MAX_DATA_SIZE.

(** Sizes of [struct ancillary_data] and [struct fd_data]. *)
Definition ANCILLARY_SIZE : nat := 8.
Definition FD_DATA_SIZE : nat := 16.

Class W32Pipe (OS : Type) := {
  GetNamedPipeInfo_server_end : Z -> OS -> w32err + bool;
  GetNamedPipeClientProcessId : Z -> OS -> w32err + Z;
  GetNamedPipeServerProcessId : Z -> OS -> w32err + Z;
  OpenProcess : Z -> OS -> (w32err + Z) * OS;
  DuplicateHandle_to : Z -> Z -> OS -> (w32err + Z) * OS;   (* the handle, the process *)
  CreateNamedPipe : cstr -> bool -> OS -> (w32err + Z) * OS; (* the flag is the first instance *)
  ConnectNamedPipe : Z -> OS -> option w32err * OS;
  WaitNamedPipe : cstr -> OS -> option w32err * OS;
  CreateFile_pipe : cstr -> OS -> (w32err + Z) * OS;
  anonymous_name : OS -> cstr;                              (* from the time and the thread *)
  GetLastError_stale : OS -> w32err;                        (* when no call of the system failed *)
  padding : cstr;                                           (* bytes that are not initialised *)
  padding_length : length padding = 4%nat
}.

Section Ipc.

Context {OS : Type} `{!W32File OS, !W32Pipe OS}.

Abbreviation M := (ST (fd_world (OS := OS))).

(** ** Servers and connections *)

Record mm_ipc_srv := mk_srv { hpipe : Z; pipe_name : cstr }.

(** [snprintf] in a buffer of [MAX_PIPENAME] characters. *)
Definition format_pipe_name (addr : cstr) : cstr := take (MAX_PIPENAME - 1) (PIPE_PREFIX ++ addr).

Definition mm_ipc_srv_create (addr : cstr) : M (option mm_ipc_srv) :=
  if (MAX_PIPENAME - length PIPE_PREFIX <? length addr)%nat then _ ← raise E_NAMETOOLONG; mret None
  else
    let name := format_pipe_name addr in
    r ← call (CreateNamedPipe name true);
    match r with
    | inl ERROR_ACCESS_DENIED => _ ← raise E_ADDRINUSE; mret None
    | inl e => _ ← raise_w32 e; mret None
    | inr h => mret (Some (mk_srv h name))
    end.

Definition mm_ipc_srv_destroy (srv : option mm_ipc_srv) : M unit :=
  match srv with None => mret tt | Some srv => call (fun os => (tt, CloseHandle (hpipe srv) os)) end.

(** The part that follows the connection: the descriptor, and the server. *)
Definition accept_connected (srv : mm_ipc_srv) : M (Z * mm_ipc_srv) :=
  fd ← wrap_handle_into_fd (hpipe srv) FD_TYPE_IPCDGRAM;
  match fd with
  | None => mret (-1, srv)
  | Some fd =>
      r ← call (CreateNamedPipe (pipe_name srv) false);
      match r with
      | inl e => r ← raise_w32 e; mret (r, srv)
      | inr h => mret (fd, mk_srv h (pipe_name srv))
      end
  end.

Definition mm_ipc_srv_accept (srv : mm_ipc_srv) : M (Z * mm_ipc_srv) :=
  r ← call (ConnectNamedPipe (hpipe srv));
  match r with
  | None | Some ERROR_PIPE_CONNECTED => accept_connected srv
  | Some e => r ← raise_w32 e; mret (r, srv)
  end.

(** The loop that waits for the pipe; [inr None] is the failure, [inl tt] fuel exhausted. *)
Fixpoint connect_loop (fuel : nat) (name : cstr) : M (unit + option Z) :=
  match fuel with
  | O => mret (inl tt)
  | S fuel =>
      w ← call (WaitNamedPipe name);
      if bool_decide (w = Some ERROR_FILE_NOT_FOUND) then _ ← raise_w32 ERROR_FILE_NOT_FOUND; mret (inr None)
      else
        r ← call (CreateFile_pipe name);
        match r with
        | inr h => mret (inr (Some h))
        | inl e => if bool_decide (e = ERROR_PIPE_BUSY) then connect_loop fuel name else _ ← raise_w32 e; mret (inr None)
        end
  end.

Definition mm_ipc_connect (fuel : nat) (addr : cstr) : M (unit + Z) :=
  r ← connect_loop fuel (format_pipe_name addr);
  match r with
  | inl tt => mret (inl tt)
  | inr None => mret (inr (-1))
  | inr (Some h) =>
      fd ← wrap_handle_into_fd h FD_TYPE_IPCDGRAM;
      match fd with
      | None => call (fun os => (tt, CloseHandle h os));; mret (inr (-1))
      | Some fd => mret (inr fd)
      end
  end.

(** [n] attempts are left: the first is one of [MAX_ATTEMPTS]. *)
Fixpoint pair_loop (n : nat) : M (option (cstr * Z)) :=
  name ← ask (fun os => take (MAX_PIPENAME - 1) (anonymous_name os));
  r ← call (CreateNamedPipe name true);
  match r, n with
  | inr h, _ => mret (Some (name, h))
  | inl ERROR_ACCESS_DENIED, S n => pair_loop n
  | inl e, _ => _ ← raise_w32 e; mret None
  end.

(** [close_fd] is [mm_close] ([file-win32.c]). *)
Definition mm_ipc_connected_pair (close_fd : Z -> M Z) : M (option (Z * Z)) :=
  r ← pair_loop (Z.to_nat (MAX_ATTEMPTS - 1));
  match r with
  | None => mret None
  | Some (name, hsrv) =>
      srv ← wrap_handle_into_fd hsrv FD_TYPE_IPCDGRAM;
      match srv with
      | None => call (fun os => (tt, CloseHandle hsrv os));; mret None
      | Some srv_fd =>
          c ← call (CreateFile_pipe name);
          match c with
          | inl e => _ ← raise_w32 e; _ ← close_fd srv_fd; mret None
          | inr hclient =>
              cfd ← wrap_handle_into_fd hclient FD_TYPE_IPCDGRAM;
              match cfd with
              | None => call (fun os => (tt, CloseHandle hclient os));; (_ ← close_fd srv_fd; mret None)
              | Some client_fd => mret (Some (srv_fd, client_fd))
              end
          end
      end
  end.

(** ** Sending *)

(** A failure of [OpenProcess] gives NULL, which is not the value tested. *)
Definition open_peer_process_handle (hnd : Z) : M (option Z) :=
  pid ← ask (fun os =>
    match GetNamedPipeInfo_server_end hnd os with
    | inl e => inl e
    | inr true => GetNamedPipeClientProcessId hnd os
    | inr false => GetNamedPipeServerProcessId hnd os
    end);
  match pid with
  | inl e => _ ← raise_w32 e; mret None
  | inr pid =>
      r ← call (OpenProcess pid);
      let '(dst_proc, e) := match r with inl e => (0, e) | inr h => (h, ERROR_SUCCESS) end in
      if dst_proc =? -1 then _ ← raise_w32 e; mret None else mret (Some dst_proc)
  end.

Fixpoint close_all (hnds : list Z) : M unit :=
  match hnds with
  | [] => mret tt
  | h :: hnds => call (fun os => (tt, CloseHandle h os));; close_all hnds
  end.

(** The loop on the descriptors; [entries] are the elements written, the last
    first.  An element out of the buffer is undefined behaviour. *)
Fixpoint dup_loop (dst_proc : Z) (fds : list Z) (entries : list (Z * Z)) : M (option (list (Z * Z))) :=
  match fds with
  | [] => mret (Some (rev entries))
  | fd :: fds =>
      hnd ← unwrap_handle_from_fd fd;
      r ← match hnd with
          | None => e ← ask GetLastError_stale; mret (inl e)
          | Some hnd => call (DuplicateHandle_to hnd dst_proc)
          end;
      match r with
      | inl e => _ ← raise_w32 e; close_all (map fst entries);; mret None
      | inr dst_hnd =>
          if (MSG_DATA_BYTES <? ANCILLARY_SIZE + FD_DATA_SIZE * S (length entries))%nat then st_ub
          else info ← get_fd_info fd; dup_loop dst_proc fds ((dst_hnd, info) :: entries)
      end
  end.

(** The bytes of the ancillary data. *)
Definition fd_data_bytes (e : Z * Z) : cstr := put_bytes 8 (fst e) ++ put_bytes 4 (snd e) ++ padding.
Definition ancillary_bytes (entries : list (Z * Z)) : cstr :=
  put_bytes 4 (Z.of_nat (length entries)) ++ padding ++ concat (map fd_data_bytes entries).

Definition write_ancillary_data (fds : list Z) (hnd : Z) : M (option cstr) :=
  match fds with
  | [] => mret (Some (ancillary_bytes []))
  | _ =>
      dst ← open_peer_process_handle hnd;
      match dst with
      | None => mret None
      | Some dst_proc =>
          entries ← dup_loop dst_proc fds [];
          call (fun os => (tt, CloseHandle dst_proc os));;
          mret (ancillary_bytes <$> entries)
      end
  end.

(** The loop on the buffers of the sender; [None] is a copy of a negative size. *)
Fixpoint serialize_loop (iov : list cstr) (buff : cstr) : option cstr :=
  match iov with
  | [] => Some buff
  | data :: iov =>
      if (MAX_DATA_SIZE <=? length data + length buff)%nat then
        if (MAX_DATA_SIZE <? length buff)%nat then None else Some (buff ++ take (MAX_DATA_SIZE - length buff) data)
      else serialize_loop iov (buff ++ data)
  end.

(** The message and the size of its header. *)
Definition serialize_msg (hnd : Z) (iov : list cstr) (fds : list Z) : M (option (cstr * nat)) :=
  hdr ← write_ancillary_data fds hnd;
  match hdr with
  | None => mret None
  | Some hdr => buff ← st_option (serialize_loop iov hdr); mret (Some (buff, length hdr))
  end.

Definition mm_ipc_sendmsg (fd : Z) (iov : list cstr) (fds : list Z) : M Z :=
  hnd ← unwrap_handle_from_fd fd;
  match hnd with
  | None => mret (-1)
  | Some hnd =>
      m ← serialize_msg hnd iov fds;
      match m with
      | None => mret (-1)
      | Some (buff, hdr_sz) =>
          r ← call (WriteFile hnd buff);
          match r with inl e => raise_w32 e | inr send_sz => mret (Z.of_nat send_sz - Z.of_nat hdr_sz) end
      end
  end.

(** Without descriptors to pass, serialising does not fail: the first case is not reached. *)
Definition ipc_hnd_write (hnd : Z) (buf : cstr) : M (w32err + Z) :=
  m ← serialize_msg hnd [buf] [];
  match m with
  | None => mret (inl ERROR_SUCCESS)
  | Some (buff, hdr_sz) =>
      r ← call (WriteFile hnd buff);
      mret (match r with inl e => inl e | inr send_sz => inr (Z.of_nat send_sz - Z.of_nat hdr_sz) end)
  end.

(** ** Receiving *)

(** An element of the array; [None] is a read beyond the bytes received. *)
Definition fd_data_of (s : cstr) : option (Z * Z) :=
  if (length s <? FD_DATA_SIZE)%nat then None
  else Some (get_bytes (take 8 s), s32 (get_bytes (take 4 (drop 8 s)))).

Fixpoint ancillary_entries (n : nat) (s : cstr) : option (list (Z * Z)) :=
  match n with
  | O => Some []
  | S n => e ← fd_data_of s; l ← ancillary_entries n (drop FD_DATA_SIZE s); Some (e :: l)
  end.

(** The elements, and what follows the ancillary data. *)
Definition parse_ancillary (s : cstr) : option (list (Z * Z) * cstr) :=
  if (length s <? ANCILLARY_SIZE)%nat then None
  else
    let num_fds := s32 (get_bytes (take 4 s)) in
    if num_fds <? 0 then None
    else l ← ancillary_entries (Z.to_nat num_fds) (drop ANCILLARY_SIZE s);
         Some (l, drop (ANCILLARY_SIZE + FD_DATA_SIZE * Z.to_nat num_fds) s).

(** The loop that wraps the handles, [max] at most: the descriptors, and the elements left. *)
Fixpoint wrap_loop (max : nat) (entries : list (Z * Z)) : M (list Z * list (Z * Z)) :=
  match max, entries with
  | S max, (hnd, info) :: rest =>
      fd ← wrap_handle_into_fd hnd info;
      match fd with
      | None => mret ([], entries)
      | Some fd => '(fds, rest) ← wrap_loop max rest; mret (fd :: fds, rest)
      end
  | _, _ => mret ([], entries)
  end.

Record received := mk_received {
  rcv_size : Z;                (* the value returned *)
  rcv_iov : list cstr;         (* what the buffers get *)
  rcv_fds : list Z;
  rcv_ctrunc : bool;
  rcv_trunc : bool
}.

Definition read_ancillary_data (entries : list (Z * Z)) (num_fds_max : nat) : M (list Z * bool) :=
  '(fds, rest) ← wrap_loop num_fds_max entries;
  close_all (map fst rest);;
  mret (fds, bool_decide (rest <> [])).

(** The loop on the buffers of the receiver, of sizes [lens]. *)
Fixpoint deserialize_loop (lens : list nat) (buff : cstr) : list cstr * bool :=
  match lens with
  | [] => ([], false)
  | len :: lens =>
      if (length buff <? len)%nat then ([buff], true)
      else let '(iov, truncated) := deserialize_loop lens (drop len buff) in (take len buff :: iov, truncated)
  end.

Definition deserialize_msg (msg_data : cstr) (lens : list nat) (num_fds_max : nat) : M received :=
  '(entries, buff) ← st_option (parse_ancillary msg_data);
  '(fds, ctrunc) ← read_ancillary_data entries num_fds_max;
  let '(iov, truncated) := deserialize_loop lens buff in
  mret (mk_received (Z.of_nat (length buff)) iov fds ctrunc truncated).

Definition failed : received := mk_received (-1) [] [] false false.

Definition mm_ipc_recvmsg (fd : Z) (lens : list nat) (num_fds_max : nat) : M received :=
  hnd ← unwrap_handle_from_fd fd;
  match hnd with
  | None => mret failed
  | Some hnd =>
      r ← call (ReadFile hnd MSG_DATA_BYTES);
      match r with
      | inl e => _ ← raise_w32 e; mret failed
      | inr msg_data => deserialize_msg msg_data lens num_fds_max
      end
  end.

(** The size returned, that of the message, and the data written in the buffer. *)
Definition ipc_hnd_read (hnd : Z) (nbyte : nat) : M (w32err + Z * cstr) :=
  r ← call (ReadFile hnd MSG_DATA_BYTES);
  match r with
  | inl e => mret (inl e)
  | inr msg_data =>
      m ← deserialize_msg msg_data [nbyte] 0;
      mret (inr (rcv_size m, concat (rcv_iov m)))
  end.

End Ipc.

(** ** Messages *)

Definition entry_ok (e : Z * Z) : Prop := in_u 64 (fst e) /\ in_s 32 (snd e).

Lemma s32_mod z : in_s 32 z -> s32 (z mod 2 ^ 32) = z.
Proof.
  intros H. rewrite <- (wrap_s_small 32 z) at 2 by done. unfold s32, wrap_s. by rewrite Zplus_mod_idemp_l.
Qed.

Section Messages.

Context {OS : Type} `{!W32Pipe OS}.

Lemma fd_data_bytes_length e : length (fd_data_bytes e) = FD_DATA_SIZE.
Proof. unfold fd_data_bytes. by rewrite !length_app, !put_bytes_length, padding_length. Qed.

Lemma concat_fd_data_length l : length (concat (map fd_data_bytes l)) = (FD_DATA_SIZE * length l)%nat.
Proof.
  induction l as [|e l IH]; [done|]. cbn [map concat length]. rewrite length_app, IH, fd_data_bytes_length. lia.
Qed.

Lemma ancillary_bytes_length l : length (ancillary_bytes l) = (ANCILLARY_SIZE + FD_DATA_SIZE * length l)%nat.
Proof. unfold ancillary_bytes. rewrite !length_app, put_bytes_length, padding_length, concat_fd_data_length. done. Qed.

Lemma fd_data_roundtrip e rest : entry_ok e -> fd_data_of (fd_data_bytes e ++ rest) = Some e.
Proof.
  intros [H1 H2]. unfold fd_data_of. rewrite length_app, fd_data_bytes_length.
  rewrite (proj2 (Nat.ltb_ge _ _)) by lia. unfold fd_data_bytes. rewrite <- !app_assoc.
  rewrite take_app_length' by (by rewrite put_bytes_length). rewrite drop_app_length' by (by rewrite put_bytes_length).
  rewrite take_app_length' by (by rewrite put_bytes_length). rewrite !get_put_bytes.
  change (256 ^ Z.of_nat 8) with (2 ^ 64). change (256 ^ Z.of_nat 4) with (2 ^ 32).
  rewrite s32_mod, Z.mod_small by done. by destruct e.
Qed.

Lemma entries_roundtrip l rest :
  Forall entry_ok l -> ancillary_entries (length l) (concat (map fd_data_bytes l) ++ rest) = Some l.
Proof.
  induction 1 as [|e l He _ IH]; [done|]. cbn [length map concat ancillary_entries]. rewrite <- app_assoc.
  rewrite fd_data_roundtrip by done. cbn [mbind option_bind].
  rewrite drop_app_length' by (by rewrite fd_data_bytes_length). by rewrite IH.
Qed.

Lemma parse_ancillary_bytes l payload :
  Forall entry_ok l -> Z.of_nat (length l) < 2 ^ 31 -> parse_ancillary (ancillary_bytes l ++ payload) = Some (l, payload).
Proof.
  intros Hl Hn.
  assert (Hnum : s32 (get_bytes (take 4 (ancillary_bytes l ++ payload))) = Z.of_nat (length l)).
  { unfold ancillary_bytes. rewrite <- !app_assoc, take_app_length' by (by rewrite put_bytes_length).
    rewrite get_put_bytes. change (256 ^ Z.of_nat 4) with (2 ^ 32).
    apply s32_mod. unfold in_s; change (2 ^ (32 - 1)) with (2 ^ 31); lia. }
  unfold parse_ancillary. rewrite length_app, ancillary_bytes_length.
  rewrite (proj2 (Nat.ltb_ge _ _)) by (unfold ANCILLARY_SIZE; lia).
  rewrite Hnum. cbv zeta. rewrite (proj2 (Z.ltb_ge (Z.of_nat _) 0)), Nat2Z.id by lia.
  rewrite (drop_app_length' (ancillary_bytes l)) by (by rewrite ancillary_bytes_length).
  unfold ancillary_bytes. rewrite <- !app_assoc. rewrite app_assoc, drop_app_length'
    by (by rewrite length_app, put_bytes_length, padding_length).
  by rewrite entries_roundtrip.
Qed.

Lemma serialize_spec iov buff :
  (length buff <= MAX_DATA_SIZE)%nat -> serialize_loop iov buff = Some (take MAX_DATA_SIZE (buff ++ concat iov)).
Proof.
  revert buff. induction iov as [|d iov IH]; intros buff Hb; cbn [serialize_loop concat].
  { rewrite app_nil_r, take_ge by done. done. }
  destruct (Nat.leb_spec MAX_DATA_SIZE (length d + length buff)).
  - rewrite (proj2 (Nat.ltb_ge _ _)) by done. rewrite take_app_ge by done. do 2 f_equal. rewrite take_app_le by lia. done.
  - rewrite IH by (rewrite length_app; lia). by rewrite <- app_assoc.
Qed.

(** The buffers get the message in order, none more than its size; the flag of a
    truncation says that they are larger than the message. *)
Lemma deserialize_spec lens buff :
  let '(iov, truncated) := deserialize_loop lens buff in
  concat iov = take (sum_list lens) buff /\ Forall2 (fun data len => (length data <= len)%nat) iov (take (length iov) lens) /\
  (truncated = true <-> (length buff < sum_list lens)%nat).
Proof.
  revert buff. induction lens as [|len lens IH]; intros buff; cbn [deserialize_loop].
  { cbn. split_and!; [done|constructor|]. split; [done|lia]. }
  change (sum_list (len :: lens)) with (len + sum_list lens)%nat.
  destruct (Nat.ltb_spec (length buff) len).
  - cbn [concat length take]. rewrite app_nil_r, take_ge by lia. split_and!; [done| |by split; [lia|]].
    constructor; [lia|constructor].
  - specialize (IH (drop len buff)). destruct (deserialize_loop lens (drop len buff)) as [iov truncated].
    destruct IH as (H1 & H2 & H3). cbn [concat length take]. rewrite H1, take_take_drop. split_and!; [done| |].
    + constructor; [|done]. rewrite length_take. lia.
    + rewrite H3, length_drop. lia.
Qed.

End Messages.

(** ** What is received *)

Section Received.

Context {OS : Type} `{!W32File OS, !W32Pipe OS} (crt_fds : OS -> gmap Z Z) `{!W32Laws OS crt_fds}.
Context (P : Z -> Prop) (HP : forall info, P info -> 0 <= info < 256).

Abbreviation world := (fd_world (OS := OS)).

Lemma close_all_same hnds (w : world) : exists w', close_all hnds w = Some (tt, w') /\ same_fds crt_fds w w'.
Proof.
  revert w. induction hnds as [|h hnds IH]; intros w; cbn [close_all]; [by exists w|].
  destruct (call_same crt_fds (fun os => (tt, CloseHandle h os)) w) as (w1 & H1 & Hs1); [apply law_close_handle|].
  rewrite (st_bind_Some _ _ _ _ _ H1). destruct (IH w1) as (w2 & H2 & Hs2). exists w2. split; [done|]. by eapply same_trans.
Qed.

(** The table with new descriptors. *)
Definition add_fds (fds : list Z) (infos : list Z) (m : gmap Z Z) : gmap Z Z :=
  foldl (fun m p => <[fst p := snd p]> m) m (zip fds infos).

Lemma wrap_loop_described max entries w :
  described crt_fds P w -> Forall (fun e => P (snd e)) entries ->
  exists fds rest w', wrap_loop max entries w = Some ((fds, rest), w') /\ described crt_fds P w' /\
    (length fds <= max)%nat /\ rest = drop (length fds) entries /\ (length fds <= length entries)%nat /\
    fd_view crt_fds w' = add_fds fds (map snd entries) (fd_view crt_fds w).
Proof.
  intros Hw He. revert max w Hw. induction He as [|[hnd info] entries Hi He IH]; intros max w Hw.
  { destruct max; cbn [wrap_loop]; (exists [], [], w; by split_and!; try done; cbn; lia). }
  destruct max as [|max]; cbn [wrap_loop]; [exists [], ((hnd, info) :: entries), w; split_and!; try done; cbn; lia|].
  destruct (wrap_handle_described crt_fds P HP hnd info w Hw Hi) as ([fd|] & w1 & H1 & Hw1 & Hv1 & _);
    rewrite (st_bind_Some _ _ _ _ _ H1).
  - destruct (IH max w1 Hw1) as (fds & rest & w2 & H2 & Hw2 & L1 & -> & L2 & Hv2). rewrite (st_bind_Some _ _ _ _ _ H2).
    do 3 eexists. split; [reflexivity|]. split_and!; try done; cbn; try lia. rewrite Hv2, Hv1. done.
  - do 3 eexists. split; [reflexivity|]. split_and!; try done; cbn; lia.
Qed.


End Received.

(** ** Names *)

(** Names that [mm_ipc_srv_create] accepts are not confused, but for the longest. *)
Lemma pipe_name_injective a b :
  (length a < MAX_PIPENAME - length PIPE_PREFIX)%nat -> (length b < MAX_PIPENAME - length PIPE_PREFIX)%nat ->
  format_pipe_name a = format_pipe_name b -> a = b.
Proof.
  intros Ha Hb. unfold format_pipe_name.
  assert (Ht : forall s, (length s < MAX_PIPENAME - length PIPE_PREFIX)%nat -> take (MAX_PIPENAME - 1) (PIPE_PREFIX ++ s) = PIPE_PREFIX ++ s).
  { intros s Hs. apply take_ge. rewrite length_app. unfold MAX_PIPENAME in *. cbn in *. lia. }
  rewrite !Ht by done. apply app_inv_head.
Qed.

Example longest_names_collide :
  let a := replicate 246 "a"%char in
  format_pipe_name (a ++ ["b"%char]) = format_pipe_name (a ++ ["c"%char])
  /\ (length (a ++ ["b"%char]) <=? MAX_PIPENAME - length PIPE_PREFIX)%nat = true.
Proof. vm_compute. done. Qed.

(** ** A system with pipes *)

Module PipeDemo.

#[global] Instance pipe : W32Pipe Demo.os := {
  GetNamedPipeInfo_server_end _ _ := inr true;
  GetNamedPipeClientProcessId _ _ := inr 12;
  GetNamedPipeServerProcessId _ _ := inr 13;
  OpenProcess _ o := (inr 77, o);
  DuplicateHandle_to h _ o := (inr h, o);
  CreateNamedPipe _ _ o := (inr 200, o);
  ConnectNamedPipe _ o := (None, o);
  WaitNamedPipe _ o := (None, o);
  CreateFile_pipe _ o := (inr 201, o);
  anonymous_name _ := cs "\\.\pipe\anon-1";
  GetLastError_stale _ := ERROR_SUCCESS;
  padding := replicate 4 NUL;
  padding_length := eq_refl
}.

(** A message of two buffers with a descriptor. *)
Definition message : cstr := ancillary_bytes [(300, FD_TYPE_PIPE)] ++ cs "hello".
Definition world (input : list cstr) : fd_world (OS := Demo.os) :=
  mk_fd_world (fd_infos Demo.start) (Demo.mk_os {[0 := 90]} input [] []) None.

End PipeDemo.


(** A message larger than the buffer is cut: the value returned is still its size, and the flag is not
    set; a buffer larger than the message gets the flag. *)
Example truncation_reported_backwards :
  (let r := fst <$> mm_ipc_recvmsg 0 [3%nat] 4 (PipeDemo.world [PipeDemo.message]) in
   (rcv_size <$> r, rcv_iov <$> r, rcv_trunc <$> r) = (Some 5, Some [cs "hel"], Some false)) /\
  (rcv_trunc <$> (fst <$> mm_ipc_recvmsg 0 [6%nat] 4 (PipeDemo.world [PipeDemo.message])) = Some true).
Proof. vm_compute. done. Qed.
