(* ===== verification/FdWin32.v ===== *)
(** * File descriptors on Windows

    The operations on descriptors of [file-win32.c]: reading, writing, opening, closing and
    duplicating, for files, pipes, the console, sockets and local communication.  The table they use is in
    [FdTable]. *)

From S2P Require Import Prelude CStr TextMode Effects Errcode AccessWin32 FdTable IpcWin32.

Section Fd.

Context {OS : Type} `{!W32File OS, !W32Pipe OS}.

(** ** Reading and writing *)

(** The calls on a handle: the data or the size, or the error of the system. *)
Definition mmlib_read (hnd : Z) (nbyte : nat) : ST fd_world (w32err + cstr) :=
  r ← call (ReadFile hnd nbyte);
  match r with
  | inl ERROR_BROKEN_PIPE => mret (inr [])
  | _ => mret r
  end.

Definition mmlib_write (hnd : Z) (buf : cstr) : ST fd_world (w32err + Z) :=
  r ← call (WriteFile hnd buf); mret (match r with inl e => inl e | inr n => inr (Z.of_nat n) end).

(** [WideCharToMultiByte] gives 0 if the text does not fit or is not valid. *)
Definition console_read (hnd : Z) (nbyte : nat) : ST fd_world (w32err + cstr) :=
  r ← call (ReadConsoleW hnd (nbyte / 2));
  match r with
  | inl e => mret (inl e)
  | inr buf16 =>
      match utf16_to_utf8 buf16 with
      | Some buf => if (length buf <=? nbyte)%nat then mret (inr buf) else mret (inr [])
      | None => mret (inr [])
      end
  end.

(** A conversion that fails gives no character: nothing is written, and 0 returned. *)
Definition console_write (hnd : Z) (buf : cstr) : ST fd_world (w32err + Z) :=
  let buf16 := match utf8_to_utf16 buf with Some b => b | None => [] end in
  r ← call (WriteConsoleW hnd buf16);
  match r with
  | inl e => mret (inl e)
  | inr n => mret (inr (match utf16_to_utf8 (take n buf16) with Some b => Z.of_nat (length b) | None => 0 end))
  end.

(** The size returned and the data. *)
Definition with_size (r : w32err + cstr) : w32err + Z * cstr :=
  match r with inl e => inl e | inr buf => inr (Z.of_nat (length buf), buf) end.

(** [None] is the call to [abort] for a type without operations. *)
Definition hnd_read_binary (hnd info : Z) (nbyte : nat) : ST fd_world (w32err + Z * cstr) :=
  let type := Z.land info FD_TYPE_MASK in
  if (type =? FD_TYPE_NORMAL) || (type =? FD_TYPE_PIPE) then r ← mmlib_read hnd nbyte; mret (with_size r)
  else if type =? FD_TYPE_CONSOLE then r ← console_read hnd nbyte; mret (with_size r)
  else if type =? FD_TYPE_SOCKET then r ← sock_hnd_read hnd nbyte; mret (with_size r)
  else if type =? FD_TYPE_IPCDGRAM then ipc_hnd_read hnd nbyte
  else st_ub.

Definition hnd_write_binary (hnd info : Z) (buf : cstr) : ST fd_world (w32err + Z) :=
  let type := Z.land info FD_TYPE_MASK in
  if (type =? FD_TYPE_NORMAL) || (type =? FD_TYPE_PIPE) then mmlib_write hnd buf
  else if type =? FD_TYPE_CONSOLE then console_write hnd buf
  else if type =? FD_TYPE_SOCKET then sock_hnd_write hnd buf
  else if type =? FD_TYPE_IPCDGRAM then ipc_hnd_write hnd buf
  else st_ub.

(** The size of the buffer is converted to [int] before it bounds the loop. *)
Definition hnd_write_text (hnd info : Z) (buf : cstr) : ST fd_world (w32err + Z) :=
  let buf_crlf := lf_to_crlf (take (Z.to_nat (s32 (Z.of_nat (length buf)))) buf) in
  r ← hnd_write_binary hnd info buf_crlf;
  mret (match r with inl e => inl e | inr rsz => inr (text_write_size buf_crlf rsz) end).

Definition hnd_write (hnd info : Z) (buf : cstr) : ST fd_world (w32err + Z) :=
  if has_flag info FD_FLAG_TEXT then hnd_write_text hnd info buf else hnd_write_binary hnd info buf.

(** The information is that of the caller, modified by the conversion, which reads
    beyond the buffer if the size is not that of the data. *)
Definition hnd_read (hnd info : Z) (nbyte : nat) : ST fd_world (Z * (w32err + Z * cstr)) :=
  r ← hnd_read_binary hnd info nbyte;
  match r with
  | inl _ => mret (info, r)
  | inr (rsz, buf) =>
      if (0 <? rsz) && has_flag info FD_FLAG_TEXT then
        if rsz =? Z.of_nat (length buf) then
          '(info, out) ← st_option (conv_crlf_to_lf info buf nbyte); mret (info, inr (Z.of_nat (length out), out))
        else st_ub
      else mret (info, r)
  end.

(** ** Operations on descriptors *)

(** The size read and the data: [mm_read] drops the information modified by the conversion. *)
Definition mm_read (fd : Z) (nbyte : nat) : ST fd_world (Z * cstr) :=
  hnd ← unwrap_handle_from_fd fd;
  match hnd with
  | None => mret (-1, [])
  | Some hnd =>
      info ← get_fd_info_checked fd;
      if info <? 0 then r ← raise E_BADF; mret (r, [])
      else
        '(_, r) ← hnd_read hnd info nbyte;
        match r with
        | inl e => r ← raise_w32 e; mret (r, [])
        | inr out => mret out
        end
  end.

Definition mm_write (fd : Z) (buf : cstr) : ST fd_world Z :=
  hnd ← unwrap_handle_from_fd fd;
  match hnd with
  | None => mret (-1)
  | Some hnd =>
      info ← get_fd_info_checked fd;
      if info <? 0 then raise E_BADF
      else
        pos ← (if has_flag info FD_FLAG_APPEND then call (SetFilePointer_end hnd) else mret 1);
        if pos =? 0 then raise_w32 ERROR_SUCCESS
        else
          r ← hnd_write hnd info buf;
          match r with inl e => raise_w32 e | inr n => mret n end
  end.

Definition mm_open (path : cstr) (oflag mode : Z) : ST fd_world Z :=
  opts ← st_option (set_w32_create_file_options oflag);
  match opts with
  | inl e => raise e
  | inr (access, creation) =>
      lsd ← ask (secdesc_from_mode mode);
      match lsd with
      | inl e => raise_w32 e
      | inr sd =>
          hnd ← call (open_handle path access creation sd FILE_ATTRIBUTE_NORMAL);
          match hnd with
          | inl e => raise_w32 e
          | inr hnd =>
              let info := if has_flag oflag O_APPEND then Z.lor FD_TYPE_NORMAL FD_FLAG_APPEND else FD_TYPE_NORMAL in
              fd ← wrap_handle_into_fd hnd info;
              match fd with
              | Some fd => mret fd
              | None => call (fun os => (tt, CloseHandle hnd os));; mret (-1)
              end
          end
      end
  end.

Definition mm_close (fd : Z) : ST fd_world Z :=
  if fd =? -1 then mret 0
  else
    e ← call (_close fd);
    match e with
    | Some errnum => raise errnum
    | None => set_fd_info fd FD_TYPE_UNKNOWN;; mret 0
    end.

Definition mm_dup (fd : Z) : ST fd_world Z :=
  r ← call (_dup fd);
  match r with
  | inl errnum => raise errnum
  | inr newfd => info ← get_fd_info fd; set_fd_info newfd info;; mret newfd
  end.

Definition mm_dup2 (fd newfd : Z) : ST fd_world Z :=
  r ← call (_dup2 fd newfd);
  match r with
  | Some errnum => raise errnum
  | None => info ← get_fd_info fd; set_fd_info newfd info;; mret newfd
  end.

(** The two descriptors, [None] for the result -1. *)
Definition mm_pipe : ST fd_world (option (Z * Z)) :=
  r ← call CreatePipe;
  match r with
  | inl e => raise_w32 e;; mret None
  | inr (rd_hnd, wr_hnd) =>
      rd ← wrap_handle_into_fd rd_hnd FD_TYPE_PIPE;
      match rd with
      | None => call (fun os => (tt, CloseHandle wr_hnd (CloseHandle rd_hnd os)));; mret None
      | Some rd =>
          wr ← wrap_handle_into_fd wr_hnd FD_TYPE_PIPE;
          match wr with
          | None => _ ← call (_close rd); call (fun os => (tt, CloseHandle wr_hnd os));; mret None
          | Some wr => mret (Some (rd, wr))
          end
      end
  end.

Definition mm_isatty (fd : Z) : ST fd_world Z :=
  info ← get_fd_info_checked fd;
  if info =? -1 then raise E_BADF
  else mret (if Z.land info FD_FLAG_ISATTY =? FD_FLAG_ISATTY then 1 else 0).

End Fd.

(** ** Typed descriptors *)

Inductive fd_op :=
  | OpOpen (path : cstr) (oflag mode : Z)
  | OpClose (fd : Z)
  | OpDup (fd : Z)
  | OpDup2 (fd newfd : Z)
  | OpPipe
  | OpRead (fd : Z) (nbyte : nat)
  | OpWrite (fd : Z) (buf : cstr)
  | OpIsatty (fd : Z).

Inductive fd_result := RInt (r : Z) | RData (r : Z) (data : cstr) | RPair (fds : option (Z * Z)).

Section Typed.

Context {OS : Type} `{!W32File OS, !W32Pipe OS} (crt_fds : OS -> gmap Z Z) `{!W32Laws OS crt_fds}.

Abbreviation same_fds := (same_fds crt_fds).
Abbreviation fd_view := (fd_view crt_fds).

Definition do_op (op : fd_op) : ST (fd_world (OS := OS)) fd_result :=
  match op with
  | OpOpen path oflag mode => r ← mm_open path oflag mode; mret (RInt r)
  | OpClose fd => r ← mm_close fd; mret (RInt r)
  | OpDup fd => r ← mm_dup fd; mret (RInt r)
  | OpDup2 fd newfd => r ← mm_dup2 fd newfd; mret (RInt r)
  | OpPipe => r ← mm_pipe; mret (RPair r)
  | OpRead fd n => '(r, data) ← mm_read fd n; mret (RData r data)
  | OpWrite fd buf => r ← mm_write fd buf; mret (RInt r)
  | OpIsatty fd => r ← mm_isatty fd; mret (RInt r)
  end.

(** Information with operations of this file: a type from [FD_TYPE_NORMAL] to [FD_TYPE_SOCKET], in a
    byte.  What is read from a local communication depends on the peer ([IpcWin32]). *)
Definition typed_info (info : Z) : Prop :=
  0 <= info < 256 /\ 1 <= Z.land info FD_TYPE_MASK <= 5 /\ Z.land info FD_TYPE_MASK <> FD_TYPE_IPCDGRAM.

Lemma typed_byte info : typed_info info -> 0 <= info < 256.
Proof. by intros [? _]. Qed.

Abbreviation typed := (described crt_fds typed_info).

Lemma same_typed w w' : same_fds w w' -> typed w -> typed w' /\ fd_view w' = fd_view w.
Proof. apply same_described. Qed.

Lemma delete_typed w w' fd :
  typed w -> fd_infos w' = fd_infos w -> crt_fds (fd_os w') = delete fd (crt_fds (fd_os w)) ->
  typed w' /\ fd_view w' = delete fd (fd_view w).
Proof. apply delete_described. Qed.

Definition opened_info (oflag : Z) : Z :=
  if has_flag oflag O_APPEND then Z.lor FD_TYPE_NORMAL FD_FLAG_APPEND else FD_TYPE_NORMAL.

(** What an operation that gave a result does to the abstract table. *)
Definition spec_op (op : fd_op) (r : fd_result) (m : gmap Z Z) : gmap Z Z :=
  match op, r with
  | OpOpen _ oflag _, RInt fd => if fd =? -1 then m else <[fd := opened_info oflag]> m
  | OpClose fd, RInt r => if (r =? 0) && negb (fd =? -1) then delete fd m else m
  | OpDup fd, RInt newfd | OpDup2 fd _, RInt newfd => if newfd =? -1 then m else copy_info fd newfd m
  | OpPipe, RPair (Some (rd, wr)) => <[wr := FD_TYPE_PIPE]> (<[rd := FD_TYPE_PIPE]> m)
  | _, _ => m
  end.

(** ** Each call *)

Lemma checked_open w fd hnd :
  typed w -> crt_fds (fd_os w) !! fd = Some hnd ->
  exists info, get_fd_info_checked fd w = Some (info, w) /\ typed_info info.
Proof.
  intros [Hl Ht] Hf. destruct (Ht fd) as (info & Hinfo & Hti); [eauto|]. exists info; split; [|done].
  pose proof (law_range (fd_os w) fd (mk_is_Some _ _ Hf)). unfold get_fd_info_checked, get_fd_info.
  rewrite (proj2 (Z.ltb_ge fd 0)), (proj2 (Z.leb_gt MAX_FD fd)) by lia. cbn [orb].
  unfold mbind, st_bind. rewrite Hinfo; cbn.
  destruct (Z.eqb_spec info FD_TYPE_UNKNOWN) as [->|]; [|done].
  destruct Hti as [_ Hti]. change (Z.land FD_TYPE_UNKNOWN FD_TYPE_MASK) with 0 in Hti. lia.
Qed.

Lemma checked_closed w fd :
  typed w -> crt_fds (fd_os w) !! fd = None ->
  exists info, get_fd_info_checked fd w = Some (info, w).
Proof.
  intros [Hl _] Hf. unfold get_fd_info_checked, get_fd_info.
  destruct (Z.ltb_spec fd 0); cbn [orb]; [by eexists|].
  destruct (Z.leb_spec MAX_FD fd); [by eexists|].
  unfold mbind, st_bind.
  destruct (lookup_lt_is_Some_2 (fd_infos w) (Z.to_nat fd)) as [info ->]; [lia|]. cbn.
  destruct (info =? FD_TYPE_UNKNOWN); [|by eexists].
  unfold guess_fd_info, ask, st_gets, mbind, st_bind. rewrite law_get, Hf. by eexists.
Qed.

Lemma checked_same w fd :
  typed w -> exists info, get_fd_info_checked fd w = Some (info, w).
Proof.
  intros Hw. destruct (crt_fds (fd_os w) !! fd) as [hnd|] eqn:E.
  - destruct (checked_open w fd hnd Hw E) as (info & ? & _). eauto.
  - by apply checked_closed.
Qed.

(** The types of the dispatch. *)
Lemma typed_cases info :
  typed_info info ->
  let t := Z.land info FD_TYPE_MASK in
  t = FD_TYPE_NORMAL \/ t = FD_TYPE_PIPE \/ t = FD_TYPE_CONSOLE \/ t = FD_TYPE_SOCKET.
Proof. intros [_ [H1 H2]]. unfold FD_TYPE_NORMAL, FD_TYPE_PIPE, FD_TYPE_CONSOLE, FD_TYPE_IPCDGRAM, FD_TYPE_SOCKET in *. lia. Qed.

Definition read_ok (n : nat) (r : w32err + cstr) : Prop :=
  match r with inr buf => (length buf <= n)%nat | inl _ => True end.

Lemma call_read (f : OS -> (w32err + cstr) * OS) n (w : fd_world (OS := OS)) :
  crt_fds (f (fd_os w)).2 = crt_fds (fd_os w) ->
  (forall buf, (f (fd_os w)).1 = inr buf -> (length buf <= n)%nat) ->
  exists r w', call f w = Some (r, w') /\ same_fds w w' /\ read_ok n r.
Proof.
  intros H1 H2. destruct (call_same crt_fds f w H1) as (w' & -> & Hs). do 2 eexists; split; [done|]. split; [done|].
  unfold read_ok. destruct (f (fd_os w)).1 eqn:E; eauto.
Qed.

Lemma wsa_same (w : fd_world (OS := OS)) : exists w', check_wsa_init w = Some (tt, w') /\ same_fds w w'.
Proof.
  unfold check_wsa_init. destruct (call_same crt_fds WSAStartup_once w) as (w1 & H1 & Hs1); [apply law_wsa|].
  rewrite (st_bind_Some _ _ _ _ _ H1). destruct (WSAStartup_once (fd_os w)).1 as [e|]; [|by eexists].
  destruct (raise_same crt_fds (get_errcode_from_w32err e) w1) as (w2 & H2 & Hs2). unfold raise_w32.
  rewrite (st_bind_Some _ _ _ _ _ H2). eexists. split; [done|]. by eapply same_trans.
Qed.

(** A read of the system, with the size it returns. *)
Lemma with_size_read (m : ST (fd_world (OS := OS)) (w32err + cstr)) n w :
  (exists r w', m w = Some (r, w') /\ same_fds w w' /\ read_ok n r) ->
  exists r w', (r ← m; mret (with_size r)) w = Some (with_size r, w') /\ same_fds w w' /\ read_ok n r.
Proof. intros (r & w' & H & ? & ?). exists r, w'. by rewrite (st_bind_Some _ _ _ _ _ H). Qed.

Lemma hnd_read_binary_typed hnd info n w :
  typed_info info ->
  exists r w', hnd_read_binary hnd info n w = Some (with_size r, w') /\ same_fds w w' /\ read_ok n r.
Proof.
  intros Hi. pose proof (law_read_size hnd n) as Ls.
  assert (Hm : exists r w', mmlib_read hnd n w = Some (r, w') /\ same_fds w w' /\ read_ok n r).
  { destruct (call_read (ReadFile hnd n) n w) as (r & w' & H & Hs & Hr); [apply law_read|naive_solver|].
    unfold mmlib_read. rewrite (st_bind_Some _ _ _ _ _ H).
    destruct r as [[]|]; (do 2 eexists; split; [reflexivity|split; [done|try done; cbn; lia]]). }
  assert (Hc : exists r w', console_read hnd n w = Some (r, w') /\ same_fds w w' /\ read_ok n r).
  { destruct (call_same crt_fds (ReadConsoleW hnd (n / 2)) w) as (w' & H & Hs); [apply law_read|].
    unfold console_read. rewrite (st_bind_Some _ _ _ _ _ H).
    repeat case_match; (do 2 eexists; split; [reflexivity|split; [done|try done; cbn; try lia]]).
    by apply Nat.leb_le. }
  assert (Hk : exists r w', sock_hnd_read hnd n w = Some (r, w') /\ same_fds w w' /\ read_ok n r).
  { destruct (wsa_same w) as (w1 & H1 & Hs1). unfold sock_hnd_read. rewrite (st_bind_Some _ _ _ _ _ H1).
    destruct (call_read (recv hnd n) n w1) as (r & w2 & H2 & Hs2 & Hr); [apply law_read|naive_solver|].
    do 2 eexists. split; [exact H2|]. split; [by eapply same_trans|done]. }
  unfold hnd_read_binary.
  destruct (typed_cases info Hi) as [->|[->|[->| ->]]]; cbn; by apply with_size_read.
Qed.

Lemma hnd_read_typed hnd info n w :
  typed_info info ->
  exists r w', hnd_read hnd info n w = Some (r, w') /\ same_fds w w'.
Proof.
  intros Hi. destruct (hnd_read_binary_typed hnd info n w Hi) as (r & w' & H & Hs & Hr).
  unfold hnd_read. rewrite (st_bind_Some _ _ _ _ _ H).
  destruct r as [e|[|c buf]]; [by do 2 eexists|by do 2 eexists|]. cbn [with_size].
  rewrite (proj2 (Z.ltb_lt 0 _)), Z.eqb_refl by (cbn; lia). cbn [andb].
  destruct (has_flag info FD_FLAG_TEXT); [|by do 2 eexists].
  destruct (conv_crlf_to_lf_step info (c :: buf) n []) as (info' & out & Hconv & _); [done|done|].
  unfold st_option, mbind, st_bind. rewrite Hconv. cbn. by do 2 eexists.
Qed.

Lemma hnd_write_binary_typed hnd info buf w :
  typed_info info ->
  exists r w', hnd_write_binary hnd info buf w = Some (r, w') /\ same_fds w w'.
Proof.
  intros Hi.
  assert (Hm : exists r w', mmlib_write hnd buf w = Some (r, w') /\ same_fds w w').
  { destruct (call_same crt_fds (WriteFile hnd buf) w) as (w' & H & Hs); [apply law_write|].
    unfold mmlib_write. rewrite (st_bind_Some _ _ _ _ _ H). by do 2 eexists. }
  assert (Hc : exists r w', console_write hnd buf w = Some (r, w') /\ same_fds w w').
  { unfold console_write.
    set (b := match utf8_to_utf16 buf with Some b => b | None => [] end).
    destruct (call_same crt_fds (WriteConsoleW hnd b) w) as (w' & H & Hs); [apply law_write_console|].
    rewrite (st_bind_Some _ _ _ _ _ H). repeat case_match; by do 2 eexists. }
  assert (Hk : exists r w', sock_hnd_write hnd buf w = Some (r, w') /\ same_fds w w').
  { destruct (wsa_same w) as (w1 & H1 & Hs1). unfold sock_hnd_write. rewrite (st_bind_Some _ _ _ _ _ H1).
    destruct (call_same crt_fds (send hnd buf) w1) as (w2 & H2 & Hs2); [apply law_write|].
    rewrite (st_bind_Some _ _ _ _ _ H2). do 2 eexists. split; [reflexivity|]. by eapply same_trans. }
  unfold hnd_write_binary. by destruct (typed_cases info Hi) as [->|[->|[->| ->]]].
Qed.

Lemma hnd_write_typed hnd info buf w :
  typed_info info ->
  exists r w', hnd_write hnd info buf w = Some (r, w') /\ same_fds w w'.
Proof.
  intros Hi. unfold hnd_write, hnd_write_text.
  destruct (has_flag info FD_FLAG_TEXT); [|by apply hnd_write_binary_typed].
  set (b := lf_to_crlf _). destruct (hnd_write_binary_typed hnd info b w Hi) as (r & w' & H & Hs).
  rewrite (st_bind_Some _ _ _ _ _ H). by do 2 eexists.
Qed.

(** ** Each operation *)

(** The operation gives a result, keeps the table typed and does to the
    abstract table what its specification says. *)
Definition op_sound (op : fd_op) : Prop := forall w, typed w ->
  exists r w', do_op op w = Some (r, w') /\ typed w' /\ fd_view w' = spec_op op r (fd_view w).

Lemma opened_info_typed oflag : typed_info (opened_info oflag).
Proof. unfold opened_info. destruct (has_flag oflag O_APPEND); by vm_compute. Qed.

Lemma set_creation_mode_total oflag : exists c, set_creation_mode oflag = Some c.
Proof.
  unfold set_creation_mode.
  set (m := Z.land oflag (Z.lor O_TRUNC (Z.lor O_CREAT O_EXCL))).
  assert (Hm : m = 0 \/ m = O_EXCL \/ m = O_CREAT \/ m = O_TRUNC \/ m = Z.lor O_TRUNC O_EXCL
    \/ m = Z.lor O_CREAT O_EXCL \/ m = Z.lor O_CREAT (Z.lor O_TRUNC O_EXCL) \/ m = Z.lor O_CREAT O_TRUNC).
  { assert (m = Z.lor (if Z.testbit oflag 8 then O_CREAT else 0)
                 (Z.lor (if Z.testbit oflag 9 then O_TRUNC else 0) (if Z.testbit oflag 10 then O_EXCL else 0))) as ->.
    { assert (Hbit : forall (b : bool) k i, 0 <= k -> Z.testbit (if b then 2 ^ k else 0) i = b && (k =? i)).
      { intros b k i Hk. destruct b; [by apply Z.pow2_bits_eqb|apply Z.bits_0]. }
      subst m. change O_CREAT with (2 ^ 8). change O_TRUNC with (2 ^ 9). change O_EXCL with (2 ^ 10).
      apply Z.bits_inj'. intros i Hi. rewrite Z.land_spec, !Z.lor_spec, !Hbit, !Z.pow2_bits_eqb by done.
      destruct (Z.eqb_spec 8 i), (Z.eqb_spec 9 i), (Z.eqb_spec 10 i); try lia; subst;
        rewrite ?andb_false_r, ?andb_true_r, ?orb_false_r; done. }
    destruct (Z.testbit oflag 8), (Z.testbit oflag 9), (Z.testbit oflag 10); vm_compute; tauto. }
  destruct Hm as [->|[->|[->|[->|[->|[->|[->| ->]]]]]]]; by eexists.
Qed.

Lemma create_options_total oflag : exists o, set_w32_create_file_options oflag = Some o.
Proof.
  unfold set_w32_create_file_options. destruct (set_access_mode oflag); [|by eexists].
  destruct (set_creation_mode_total oflag) as [c ->]. by eexists.
Qed.

Ltac same_result Hs :=
  do 2 eexists; split; [reflexivity|]; destruct (same_typed _ _ Hs) as [? ?]; [done|]; done.

Lemma open_sound path oflag mode : op_sound (OpOpen path oflag mode).
Proof.
  intros w Hw. unfold do_op, mm_open.
  destruct (create_options_total oflag) as [[e|[access creation]] Ho]; unfold mbind, st_bind, st_option; rewrite Ho; cbn.
  { same_result (conj eq_refl eq_refl : same_fds w (mk_fd_world (fd_infos w) (fd_os w) (Some e))). }
  unfold ask, st_gets. destruct (secdesc_from_mode mode (fd_os w)) as [e|sd].
  { same_result (conj eq_refl eq_refl : same_fds w (mk_fd_world (fd_infos w) (fd_os w) (Some (get_errcode_from_w32err e)))). }
  set (f := open_handle path access creation sd FILE_ATTRIBUTE_NORMAL).
  destruct (call_same crt_fds f w) as (w1 & H1 & Hs).
  { unfold f, open_handle. destruct (utf8_to_utf16 path); [apply law_create_file|done]. }
  rewrite H1. destruct (f (fd_os w)).1 as [e|hnd].
  { destruct (raise_same crt_fds (get_errcode_from_w32err e) w1) as (w2 & H2 & Hs2). unfold raise_w32. rewrite H2.
    same_result (same_trans crt_fds _ _ _ Hs Hs2). }
  destruct (same_typed _ _ Hs Hw) as [Hw1 Hv1].
  destruct (wrap_handle_described crt_fds typed_info typed_byte hnd (opened_info oflag) w1 Hw1 (opened_info_typed oflag)) as (r & w2 & H2 & Hw2 & Hv2 & Hpos).
  unfold opened_info in H2. rewrite H2. destruct r as [fd|].
  - do 2 eexists; split; [reflexivity|]. split; [done|]. cbn.
    destruct (Hpos fd eq_refl) as [Hp _]. destruct (Z.eqb_spec fd (-1)); [lia|]. by rewrite Hv2, Hv1.
  - destruct (same_typed w2 (mk_fd_world (fd_infos w2) (CloseHandle hnd (fd_os w2)) (last_error w2))) as [? Hv3];
      [split; [done|apply law_close_handle]|done|].
    do 2 eexists; split; [reflexivity|]. split; [done|]. cbn. by rewrite Hv3, Hv2, Hv1.
Qed.

Lemma close_sound fd : op_sound (OpClose fd).
Proof.
  intros w Hw. unfold do_op, mm_close. destruct (Z.eqb_spec fd (-1)) as [->|Hne].
  { do 2 eexists; split; [reflexivity|]. done. }
  unfold call, st_zoom, mbind, st_bind. pose proof (law_close fd (fd_os w)) as L.
  destruct (_close fd (fd_os w)) as [[e|] os].
  - cbn. same_result (conj eq_refl (proj2 L) : same_fds w (mk_fd_world (fd_infos w) os (Some e))).
  - destruct L as [Ho L]. pose proof (law_range _ fd Ho).
    destruct (delete_typed w (mk_fd_world (fd_infos w) os (last_error w)) fd Hw eq_refl L) as [Hw1 Hv1].
    destruct (set_info_closed crt_fds typed_info _ fd FD_TYPE_UNKNOWN Hw1 ltac:(lia)) as (w2 & -> & Hw2 & Hv2); [cbn; rewrite L; apply lookup_delete_eq|].
    do 2 eexists; split; [reflexivity|]. split; [done|]. cbn.
    destruct (Z.eqb_spec fd (-1)); [done|]. cbn. by rewrite Hv2, Hv1.
Qed.

Lemma dup_sound fd : op_sound (OpDup fd).
Proof.
  intros w Hw. unfold do_op, mm_dup. pose proof (law_dup fd (fd_os w)) as L.
  unfold mbind at 1, st_bind at 1. unfold mbind at 1, st_bind at 1. unfold call, st_zoom.
  destruct (_dup fd (fd_os w)) as [[e|newfd] os].
  - cbn. same_result (conj eq_refl L : same_fds w (mk_fd_world (fd_infos w) os (Some e))).
  - destruct L as (Hf & _ & hnd & Hos).
    destruct (copy_described crt_fds typed_info typed_byte fd newfd hnd os w Hw Hf Hos) as (w' & -> & Hw' & Hp & Hv).
    do 2 eexists; split; [reflexivity|]. split; [done|]. cbn. destruct (Z.eqb_spec newfd (-1)); [lia|done].
Qed.

Lemma dup2_sound fd newfd : op_sound (OpDup2 fd newfd).
Proof.
  intros w Hw. unfold do_op, mm_dup2. pose proof (law_dup2 fd newfd (fd_os w)) as L.
  unfold mbind at 1, st_bind at 1. unfold mbind at 1, st_bind at 1. unfold call, st_zoom.
  destruct (_dup2 fd newfd (fd_os w)) as [[e|] os].
  - cbn. same_result (conj eq_refl L : same_fds w (mk_fd_world (fd_infos w) os (Some e))).
  - destruct L as (Hf & Hne & Heq).
    assert (exists hnd, crt_fds os = <[newfd := hnd]> (crt_fds (fd_os w))) as [hnd Hos].
    { destruct (decide (newfd = fd)) as [->|]; [|by apply Hne]. destruct Hf as [h Hh]. exists h.
      rewrite Heq, insert_id by done. done. }
    destruct (copy_described crt_fds typed_info typed_byte fd newfd hnd os w Hw Hf Hos) as (w' & -> & Hw' & Hp & Hv).
    do 2 eexists; split; [reflexivity|]. split; [done|]. cbn. destruct (Z.eqb_spec newfd (-1)); [lia|done].
Qed.

Lemma pipe_sound : op_sound OpPipe.
Proof.
  intros w Hw. unfold do_op, mm_pipe.
  assert (Hti : typed_info FD_TYPE_PIPE) by by vm_compute.
  destruct (call_same crt_fds CreatePipe w (law_pipe (fd_os w))) as (w1 & H1 & Hs).
  unfold mbind, st_bind. rewrite H1. destruct (CreatePipe (fd_os w)).1 as [e|[rd_hnd wr_hnd]].
  { destruct (raise_same crt_fds (get_errcode_from_w32err e) w1) as (w2 & H2 & Hs2). unfold raise_w32. rewrite H2.
    same_result (same_trans crt_fds _ _ _ Hs Hs2). }
  destruct (same_typed _ _ Hs Hw) as [Hw1 Hv1].
  destruct (wrap_handle_described crt_fds typed_info typed_byte rd_hnd FD_TYPE_PIPE w1 Hw1 Hti) as ([rd|] & w2 & -> & Hw2 & Hv2 & Hfr).
  - destruct (wrap_handle_described crt_fds typed_info typed_byte wr_hnd FD_TYPE_PIPE w2 Hw2 Hti) as ([wr|] & w3 & -> & Hw3 & Hv3 & _).
    + do 2 eexists; split; [reflexivity|]. split; [done|]. cbn. by rewrite Hv3, Hv2, Hv1.
    + (* the first descriptor is closed again *)
      pose proof (law_close rd (fd_os w3)) as L.
      assert (Hopen : is_Some (crt_fds (fd_os w3) !! rd)).
      { assert (is_Some (fd_view w3 !! rd)) as [x Hx] by (rewrite Hv3, Hv2, lookup_insert_eq; eauto).
        unfold fd_view in Hx. rewrite map_lookup_imap in Hx. by destruct (crt_fds (fd_os w3) !! rd). }
      unfold call at 1, st_zoom at 1. destruct (_close rd (fd_os w3)) as [[e|] os].
      { destruct L as [L _]. rewrite L in Hopen. by destruct Hopen. }
      destruct L as [_ L].
      destruct (delete_typed w3 (mk_fd_world (fd_infos w3) os (last_error w3)) rd Hw3 eq_refl L) as [Hw4 Hv4].
      destruct (call_same crt_fds (fun os => (tt, CloseHandle wr_hnd os)) (mk_fd_world (fd_infos w3) os (last_error w3)))
        as (w5 & -> & Hs5); [apply law_close_handle|].
      do 2 eexists; split; [reflexivity|]. destruct (same_typed _ _ Hs5 Hw4) as [? ->]. split; [done|]. cbn.
      rewrite Hv4, Hv3, Hv2, Hv1. apply delete_insert_id. rewrite <- Hv1. by apply Hfr.
  - destruct (call_same crt_fds (fun os => (tt, CloseHandle wr_hnd (CloseHandle rd_hnd os))) w2) as (w3 & -> & Hs3);
      [cbn; by rewrite !law_close_handle|].
    do 2 eexists; split; [reflexivity|]. destruct (same_typed _ _ Hs3 Hw2) as [? ->]. split; [done|]. cbn.
    by rewrite Hv2, Hv1.
Qed.

Lemma read_sound fd n : op_sound (OpRead fd n).
Proof.
  intros w Hw. unfold do_op, mm_read. pose proof (unwrap_spec crt_fds w fd) as U.
  unfold mbind, st_bind. destruct (crt_fds (fd_os w) !! fd) as [hnd|] eqn:E.
  - rewrite U. destruct (checked_open w fd hnd Hw E) as (info & -> & Hti).
    rewrite (proj2 (Z.ltb_ge info 0)) by (destruct Hti; lia).
    destruct (hnd_read_typed hnd info n w Hti) as ([info' r] & w1 & -> & Hs).
    destruct r as [e|[rsz data]]; [|same_result Hs].
    destruct (raise_same crt_fds (get_errcode_from_w32err e) w1) as (w2 & H2 & Hs2). unfold raise_w32. rewrite H2.
    same_result (same_trans crt_fds _ _ _ Hs Hs2).
  - destruct U as (w1 & -> & Hs). same_result Hs.
Qed.

Lemma write_sound fd buf : op_sound (OpWrite fd buf).
Proof.
  intros w Hw. unfold do_op, mm_write. pose proof (unwrap_spec crt_fds w fd) as U.
  unfold mbind, st_bind. destruct (crt_fds (fd_os w) !! fd) as [hnd|] eqn:E.
  - rewrite U. destruct (checked_open w fd hnd Hw E) as (info & -> & Hti).
    rewrite (proj2 (Z.ltb_ge info 0)) by (destruct Hti; lia).
    assert (exists pos w1, (if has_flag info FD_FLAG_APPEND then call (SetFilePointer_end hnd) else mret 1) w
              = Some (pos, w1) /\ same_fds w w1) as (pos & w1 & -> & Hs).
    { destruct (has_flag info FD_FLAG_APPEND); [|by do 2 eexists].
      destruct (call_same crt_fds (SetFilePointer_end hnd) w) as (w1 & -> & ?); [apply law_seek|]. by do 2 eexists. }
    destruct (pos =? 0).
    { destruct (raise_same crt_fds (get_errcode_from_w32err ERROR_SUCCESS) w1) as (w2 & H2 & Hs2). unfold raise_w32. rewrite H2.
      same_result (same_trans crt_fds _ _ _ Hs Hs2). }
    destruct (hnd_write_typed hnd info buf w1 Hti) as (r & w2 & -> & Hs2).
    pose proof (same_trans crt_fds _ _ _ Hs Hs2) as Hs3.
    destruct r as [e|m]; [|same_result Hs3].
    destruct (raise_same crt_fds (get_errcode_from_w32err e) w2) as (w3 & H3 & Hs4). unfold raise_w32. rewrite H3.
    same_result (same_trans crt_fds _ _ _ Hs3 Hs4).
  - destruct U as (w1 & -> & Hs). same_result Hs.
Qed.

Lemma isatty_sound fd : op_sound (OpIsatty fd).
Proof.
  intros w Hw. unfold do_op, mm_isatty, mbind, st_bind.
  destruct (checked_same w fd Hw) as (info & ->). destruct (info =? -1).
  - destruct (raise_same crt_fds E_BADF w) as (w1 & -> & Hs). same_result Hs.
  - same_result (conj eq_refl eq_refl : same_fds w w).
Qed.

Lemma do_op_sound op : op_sound op.
Proof.
  destruct op; [apply open_sound|apply close_sound|apply dup_sound|apply dup2_sound|apply pipe_sound
    |apply read_sound|apply write_sound|apply isatty_sound].
Qed.

Fixpoint do_ops (ops : list fd_op) : ST (fd_world (OS := OS)) (list fd_result) :=
  match ops with
  | [] => mret []
  | op :: ops => r ← do_op op; rs ← do_ops ops; mret (r :: rs)
  end.

Fixpoint spec_ops (ops : list fd_op) (rs : list fd_result) (m : gmap Z Z) : gmap Z Z :=
  match ops, rs with
  | op :: ops, r :: rs => spec_ops ops rs (spec_op op r m)
  | _, _ => m
  end.


End Typed.



(** A [\r] that ends a read in text mode is lost: the information changed by
    the conversion is not stored.  A read of this character alone returns 0, the end of the file. *)
Example mm_read_loses_cr :
  let w := mk_fd_world (fd_infos Demo.start) (Demo.mk_os {[0 := 90]} [["a"; CR]; ["b"]; [CR]]%char [] []) None in
  fst <$> do_ops [OpRead 0 8; OpRead 0 8; OpRead 0 8] w
  = Some [RData 1 ["a"%char]; RData 1 ["b"%char]; RData 0 []].
Proof. vm_compute. reflexivity. Qed.

(** Appending to an empty file fails: the position 0 is taken for an error. *)
Example append_to_empty_fails :
  (fst <$> do_ops [OpOpen (cs "f") (Z.lor O_WRONLY O_APPEND) 0; OpWrite 1 (cs "data")] Demo.start) = Some [RInt 1; RInt (-1)].
Proof. vm_compute. reflexivity. Qed.
