(* ===== verification/ErrorState.v ===== *)
(** * Error state and logging

    The error state of a thread ([error.c]) and the log lines ([log.c]).  The state holds its
    strings in buffers of fixed sizes, lists of characters with what follows the terminating null
    character.  Texts that [printf] formats are given formatted.  Raising an error
    logs it, logging writes, and a failed write raises an error: the recursion has fuel.  [None] is
    undefined behaviour (an access out of a buffer) or fuel exhausted. *)

From stdpp Require Import pretty.
From S2P Require Import Prelude CStr Effects.

(** ** Buffers *)

Definition LF : ascii := "010".

(** The string in a buffer. *)
Fixpoint buf_str (buf : cstr) : cstr :=
  match buf with
  | [] => []
  | c :: buf' => if bool_decide (c = NUL) then [] else c :: buf_str buf'
  end.

(** [strncpy(dst, src, n)]: the rest of the [n] characters is null. *)
Definition strncpy (n : nat) (src dst : cstr) : cstr :=
  take n (src ++ replicate n NUL) ++ drop n dst.

(** [snprintf(dst, n, ...)] of a text. *)
Definition snprintf (n : nat) (text dst : cstr) : cstr :=
  match n with
  | O => dst
  | S m => take m text ++ [NUL] ++ drop (length (take m text) + 1) dst
  end.

(** ** Messages of the library *)

Definition MM_EDISCONNECTED : Z := 1000.
Definition MM_EWRONGSTATE : Z := 1003.
Definition MM_ENOTFOUND : Z := 1005.
Definition MM_EBADFMT : Z := 1006.
Definition MM_ENONAME : Z := 1010.
Definition ERANGE : Z := 34.

Definition error_tab : list (Z * cstr) :=
  [(MM_EDISCONNECTED, cs "The device has been disconnected."); (MM_EWRONGSTATE, cs "Object in wrong state");
   (MM_ENOTFOUND, cs "Object not found"); (MM_EBADFMT, cs "Bad format");
   (MM_ENONAME, cs "Specified hostname cannot be resolved")].

(** [tr] is the translation. *)
Definition get_mm_errmsg (tr : cstr -> cstr) (errnum : Z) : option cstr :=
  first ← head error_tab; last ← last error_tab;
  if (errnum <? first.1) || (last.1 <? errnum) then None
  else p ← List.find (fun p => errnum =? p.1) error_tab; Some (tr p.2).

Definition mm_strerror (tr : cstr -> cstr) (strerror : Z -> cstr) (errnum : Z) : cstr :=
  match get_mm_errmsg tr errnum with Some msg => msg | None => strerror errnum end.

(** The value returned, the errno set if any, and the buffer. [strerror_r] is the one of the system. *)
Definition mm_strerror_r (tr : cstr -> cstr) (strerror_r : Z -> cstr -> Z * option Z * cstr) (errnum : Z) (buf : cstr)
    : Z * option Z * cstr :=
  match get_mm_errmsg tr errnum with
  | None => strerror_r errnum buf
  | Some msg =>
      let buflen := length buf in
      if (buflen <? 1)%nat then (-1, Some ERANGE, buf)
      else
        let msglen := (length msg + 1)%nat in
        let trunclen := if (buflen <? msglen)%nat then buflen else msglen in
        let buf := take (trunclen - 1) msg ++ [NUL] ++ drop trunclen buf in
        if (trunclen =? msglen)%nat then (0, None, buf) else (-1, Some ERANGE, buf)
  end.

(** ** Log lines *)

Definition MM_LOG_NONE : Z := -1.
Definition MM_LOG_ERROR : Z := 1.
Definition MM_LOG_LINE_MAXLEN : nat := 256.
Definition STDERR_FILENO : Z := 2.

Definition loglevel : list cstr := [cs "FATAL"; cs "ERROR"; cs "WARN"; cs "INFO"; cs "DEBUG"].

(** The constructor, from the value of [MM_LOG_MAXLEVEL]. *)
Fixpoint find_level (i : Z) (levels : list cstr) (envlvl : cstr) : Z :=
  match levels with
  | [] => MM_LOG_NONE
  | l :: levels => if bool_decide (l = envlvl) then i else find_level (i + 1) levels envlvl
  end.

Definition MM_LOG_INFO : Z := 3.

Definition init_log (envlvl : option cstr) : Z :=
  match envlvl with None => MM_LOG_INFO | Some l => find_level 0 loglevel l end.

(** [%-ns]. *)
Definition pad_right (n : nat) (s : cstr) : cstr := s ++ replicate (n - length s) " "%char.

Definition log_header (level location : cstr) : cstr :=
  cs " " ++ pad_right 5 level ++ cs " " ++ pad_right 16 location ++ cs " : ".

(** The characters written in a buffer of [blen]; [ts] is the time stamp.  The
    header longer than what is left makes the length wrap, and the end of line is written outside. *)
Definition format_log_str (ts : cstr) (blen : nat) (level location text : cstr) : option cstr :=
  if (blen <? length ts)%nat then None
  else
    let rlen := (blen - length ts)%nat in
    let hdr := log_header level location in
    if (rlen <=? length hdr)%nat then None
    else
      let hdr_out := if (length hdr <=? rlen - 2)%nat then hdr else take (rlen - 2) hdr ++ [NUL] in
      let rlen := (rlen - length hdr)%nat in
      let len := if (length text <? rlen - 1)%nat then length text else (rlen - 1)%nat in
      Some (ts ++ hdr_out ++ take len text ++ [LF]).

(** ** Error state *)

Definition MM_ERROR_IGNORE : Z := 0x01.
Definition MM_ERROR_NOLOG : Z := 0x02.
Definition MM_ERROR_SET : Z := -1.
Definition MM_ERROR_UNSET : Z := 0.

Record error_info := mk_info {
  flags : Z;
  errnum : Z;
  extended_id : cstr;
  module : cstr;
  location : cstr;
  desc : cstr
}.

Definition EXTID_SIZE : nat := 64.
Definition MODULE_SIZE : nat := 32.
Definition LOCATION_SIZE : nat := 256.
Definition DESC_SIZE : nat := 256.

(** The state of a new thread. *)
Definition initial_info : error_info :=
  mk_info 0 0 (replicate EXTID_SIZE NUL) (replicate MODULE_SIZE NUL) (replicate LOCATION_SIZE NUL) (replicate DESC_SIZE NUL).

Definition with_flags (f : Z) (i : error_info) : error_info :=
  mk_info f (errnum i) (extended_id i) (module i) (location i) (desc i).

Section Errors.

(** [write] is the call of the system: the error number, or the size written. *)
Context {OS : Type} (write : Z -> cstr -> OS -> (Z + nat) * OS) (timestamp : OS -> cstr) (strerror : Z -> cstr).

Record err_world := mk_err { err_info : error_info; errno : Z; maxloglvl : Z; err_os : OS }.

Abbreviation M := (ST err_world).

Definition set_info (i : error_info) : M unit :=
  st_modify (fun w => mk_err i (errno w) (maxloglvl w) (err_os w)).
Definition set_errno (e : Z) : M unit :=
  st_modify (fun w => mk_err (err_info w) e (maxloglvl w) (err_os w)).

Definition mm_error_set_flags (f mask : Z) : M Z :=
  i ← st_gets err_info;
  set_info (with_flags (Z.lor (Z.land mask f) (Z.land (Z.lnot mask) (flags i))) i);;
  mret (flags i).

(** The loop of [mm_log]; a write of 0 characters is tried again. *)
Fixpoint log_write_loop (write_fd : Z -> cstr -> M Z) (fuel : nat) (buf : cstr) : M unit :=
  match fuel with
  | O => st_ub
  | S fuel =>
      r ← write_fd STDERR_FILENO buf;
      if r <? 0 then mret tt
      else
        let buf := drop (Z.to_nat r) buf in
        if bool_decide (buf = []) then mret tt else log_write_loop write_fd fuel buf
  end.

Definition mm_log (write_fd : Z -> cstr -> M Z) (lvl : Z) (location text : cstr) : M unit :=
  max ← st_gets maxloglvl;
  if (max <? lvl) || (lvl <? 0) then mret tt
  else
    ts ← st_gets (fun w => timestamp (err_os w));
    line ← st_option (level ← loglevel !! Z.to_nat lvl; format_log_str ts MM_LOG_LINE_MAXLEN level location text);
    log_write_loop write_fd (length line) line.

Definition mm_log_set_maxlvl (lvl : Z) : M Z :=
  rv ← st_gets maxloglvl;
  st_modify (fun w => mk_err (err_info w) (errno w) lvl (err_os w));; mret rv.

Definition or_default (d : cstr) (s : option cstr) : cstr := match s with Some s => s | None => d end.

Definition location_text (func srcfile : cstr) (srcline : Z) : cstr :=
  func ++ cs "() in " ++ srcfile ++ cs ":" ++ cs (pretty srcline).

Definition record_error (num : Z) (mdl func srcfile : cstr) (srcline : Z) (extid text : cstr) (i : error_info) : error_info :=
  mk_info (flags i) num
    (strncpy (EXTID_SIZE - 1) extid (extended_id i)) (strncpy (MODULE_SIZE - 1) mdl (module i))
    (snprintf LOCATION_SIZE (location_text func srcfile srcline) (location i)) (snprintf DESC_SIZE text (desc i)).

(** [text] is the formatted description; the write of the log is [mm_write] ([file-posix.c]), with the
    raising of the errors it meets. *)
Fixpoint mm_raise_error_vfull (fuel : nat) (num : Z) (mdl func srcfile : option cstr) (srcline : Z) (extid : option cstr)
    (text : cstr) : M Z :=
  match fuel with
  | O => st_ub
  | S fuel =>
      let mdl := or_default (cs "unknown") mdl in
      let func := or_default (cs "unknown") func in
      let srcfile := or_default (cs "unknown") srcfile in
      let extid := or_default [] extid in
      state ← st_gets err_info;
      if negb (Z.land (flags state) MM_ERROR_IGNORE =? 0) then mret (-1)
      else
        set_info (record_error num mdl func srcfile srcline extid text state);;
        (if num =? 0 then mret tt else set_errno num);;
        (if negb (Z.land (flags state) MM_ERROR_NOLOG =? 0) then mret (-1)
         else
           state ← st_gets err_info;
           f ← mm_error_set_flags MM_ERROR_SET MM_ERROR_IGNORE;
           let mm_write (fd : Z) (buf : cstr) : M Z :=
             r ← (fun w => let '(r, os) := write fd buf (err_os w) in
                           Some (r, mk_err (err_info w) (match r with inl e => e | inr _ => errno w end) (maxloglvl w) os));
             match r with
             | inr n => mret (Z.of_nat n)
             | inl e =>
                 let fmt := cs "write(" ++ cs (pretty fd) ++ cs ", ...) failed" in
                 mm_raise_error_vfull fuel e (Some (cs "mmlib")) (Some (cs "mm_write")) (Some (cs "file-posix.c")) 258 None
                   (take 254 (fmt ++ cs " ; " ++ strerror e))
             end in
           mm_log mm_write MM_LOG_ERROR mdl (buf_str (desc state) ++ cs " (" ++ buf_str (location state) ++ cs ")");;
           _ ← mm_error_set_flags f MM_ERROR_IGNORE;
           mret (-1))
  end.

(** [fmt] is the format with its arguments. *)
Definition mm_raise_from_errno_full (fuel : nat) (mdl func srcfile : option cstr) (srcline : Z) (extid : option cstr)
    (vformat : cstr -> cstr) (desc_fmt : cstr) : M Z :=
  e ← st_gets errno;
  mm_raise_error_vfull fuel e mdl func srcfile srcline extid (vformat (take 254 (desc_fmt ++ cs " ; " ++ strerror e))).

Definition mm_save_errorstate : M error_info := st_gets err_info.

Definition mm_set_errorstate (state : error_info) : M Z :=
  set_info state;; set_errno (errnum state);; mret 0.

Definition mm_get_lasterror_number : M Z := i ← st_gets err_info; mret (errnum i).
Definition mm_get_lasterror_desc : M cstr := i ← st_gets err_info; mret (buf_str (desc i)).
Definition mm_get_lasterror_location : M cstr := i ← st_gets err_info; mret (buf_str (location i)).
Definition mm_get_lasterror_module : M cstr := i ← st_gets err_info; mret (buf_str (module i)).
Definition mm_get_lasterror_extid : M (option cstr) :=
  i ← st_gets err_info;
  mret (match extended_id i with c :: _ => if bool_decide (c = NUL) then None else Some (buf_str (extended_id i)) | [] => None end).

End Errors.

(** ** Log lines *)

Lemma log_header_length level location :
  level ∈ loglevel -> length (log_header level location) = (10 + Nat.max 16 (length location))%nat.
Proof.
  intros H. assert (Hl : (length level <= 5)%nat).
  { revert H. unfold loglevel. set_unfold. intros H. destruct_or!; subst; cbn; lia. }
  unfold log_header, pad_right. rewrite !length_app, !length_replicate. cbn [length cs list_ascii_of_string]. lia.
Qed.

(** A log line fits its buffer exactly when the origin has less than 229 characters, with the time
    stamp of 17 characters: the line then has at most 256 characters, the end
    of line last, starts with the time stamp, and has the whole message when there is
    room for it; an origin that is longer writes outside of the buffer. *)
Theorem log_line_bounds (ts level location text : cstr) :
  length ts = 17%nat -> level ∈ loglevel ->
  if (length location <? 229)%nat then
    exists line, format_log_str ts MM_LOG_LINE_MAXLEN level location text = Some line /\
      (length line <= MM_LOG_LINE_MAXLEN)%nat /\ last line = Some LF /\ (exists r, line = ts ++ r) /\
      ((length location + length text < 228)%nat -> (length text < 212)%nat ->
       line = ts ++ log_header level location ++ text ++ [LF])
  else format_log_str ts MM_LOG_LINE_MAXLEN level location text = None.
Proof.
  intros Hts Hlvl. pose proof (log_header_length level location Hlvl) as Hh.
  unfold format_log_str, MM_LOG_LINE_MAXLEN. rewrite Hts. set (hdr := log_header level location) in *.
  change (256 <? 17)%nat with false. cbv iota zeta. change (256 - 17)%nat with 239%nat.
  destruct (Nat.ltb_spec (length location) 229) as [Hloc|Hloc].
  2: { rewrite (proj2 (Nat.leb_le 239 (length hdr))) by lia. done. }
  rewrite (proj2 (Nat.leb_gt 239 (length hdr))) by lia.
  set (hdr_out := if (length hdr <=? 239 - 2)%nat then hdr else _).
  assert (Hout : length hdr_out = length hdr).
  { unfold hdr_out. destruct (Nat.leb_spec (length hdr) (239 - 2)); [done|]. rewrite length_app, length_take. cbn [length]. lia. }
  eexists. split; [reflexivity|]. split_and!.
  - rewrite !length_app, length_take, Hts, Hout. cbn [length]. destruct (Nat.ltb_spec (length text) (239 - length hdr - 1)); lia.
  - by rewrite !app_assoc, last_snoc.
  - eauto.
  - intros H1 H2. unfold hdr_out. rewrite (proj2 (Nat.leb_le _ _)) by lia. rewrite (proj2 (Nat.ltb_lt _ _)) by lia.
    by rewrite firstn_all.
Qed.

Lemma log_line_bounds_witness :
  length (cs "01/02/24 10:11:12") = 17%nat /\ cs "ERROR" ∈ loglevel /\
  exists line, format_log_str (cs "01/02/24 10:11:12") MM_LOG_LINE_MAXLEN (cs "ERROR") (cs "mmlib") (cs "failed") = Some line /\
    last line = Some LF.
Proof.
  assert (H1 : length (cs "01/02/24 10:11:12") = 17%nat) by reflexivity.
  assert (H2 : cs "ERROR" ∈ loglevel) by (unfold loglevel; set_solver).
  split; [exact H1|]. split; [exact H2|].
  destruct (log_line_bounds (cs "01/02/24 10:11:12") (cs "ERROR") (cs "mmlib") (cs "failed") H1 H2) as (line & E & _ & L & _).
  exists line. split; [exact E|exact L].
Defined.

(** ** Buffers *)

Definition buffer (n : nat) (b : cstr) : Prop := length b = n /\ (0 < n)%nat /\ b !! (n - 1)%nat = Some NUL.

Lemma buf_str_app s r : NUL ∉ s -> buf_str (s ++ NUL :: r) = s.
Proof.
  induction s as [|c s IH]; intros H; [reflexivity|]. apply not_elem_of_cons in H as [H1 H2]. cbn.
  rewrite bool_decide_false by done. by rewrite IH.
Qed.

Lemma no_nul_take n s : NUL ∉ s -> NUL ∉ take n s.
Proof. intros H Hin. apply H. apply elem_of_take in Hin as (i & Hi & _). by eapply list_elem_of_lookup_2. Qed.

Lemma strncpy_buffer n src dst :
  buffer (S n) dst -> buffer (S n) (strncpy n src dst) /\ (NUL ∉ src -> buf_str (strncpy n src dst) = take n src).
Proof.
  intros (Hl & _ & Hlast). cbn in Hlast. rewrite Nat.sub_0_r in Hlast. unfold strncpy.
  assert (drop n dst = [NUL]) as ->.
  { apply list_eq. intros [|i]; rewrite lookup_drop; [by rewrite Nat.add_0_r|]. cbn. apply lookup_ge_None_2. lia. }
  assert (Hlen : length (take n (src ++ replicate n NUL)) = n).
  { rewrite length_take, length_app, length_replicate. lia. }
  split.
  - split_and!; [rewrite length_app, Hlen; cbn; lia|lia|]. cbn. rewrite Nat.sub_0_r. by rewrite lookup_app_r, Hlen, Nat.sub_diag by lia.
  - intros Hsrc. destruct (le_lt_dec n (length src)) as [Hle|Hlt].
    + rewrite take_app_le by done. apply buf_str_app. by apply no_nul_take.
    + rewrite take_app_ge, take_replicate, <- app_assoc by lia. rewrite (take_ge src) by lia.
      replace ((n - length src) `min` n)%nat with (S (n - length src - 1)) by lia. cbn. by apply buf_str_app.
Qed.

Lemma snprintf_buffer n text dst :
  buffer n dst -> buffer n (snprintf n text dst) /\ (NUL ∉ text -> buf_str (snprintf n text dst) = take (n - 1) text).
Proof.
  intros (Hl & Hn & Hlast). destruct n as [|m]; [lia|]. cbn [snprintf]. rewrite Nat.sub_1_r in *. cbn [Nat.pred] in *.
  assert (Hlen : (length (take m text) <= m)%nat) by (rewrite length_take; lia). split.
  - split_and!; [rewrite !length_app, length_drop; cbn; lia|lia|]. rewrite Nat.sub_1_r. cbn [Nat.pred].
    rewrite lookup_app_r by done. destruct (decide (length (take m text) = m)) as [->|]; [by rewrite Nat.sub_diag|].
    rewrite lookup_app_r by (cbn; lia). rewrite lookup_drop. cbn [length].
    replace (length (take m text) + 1 + (m - length (take m text) - 1))%nat with m by lia. done.
  - intros Ht. cbn. apply buf_str_app. by apply no_nul_take.
Qed.

Definition info_wf (i : error_info) : Prop :=
  buffer EXTID_SIZE (extended_id i) /\ buffer MODULE_SIZE (module i) /\ buffer LOCATION_SIZE (location i) /\ buffer DESC_SIZE (desc i).

Lemma initial_info_wf : info_wf initial_info.
Proof. unfold info_wf, buffer. split_and!; try reflexivity; vm_compute; lia. Qed.

Lemma record_error_wf num mdl func srcfile srcline extid text i :
  info_wf i -> info_wf (record_error num mdl func srcfile srcline extid text i).
Proof.
  intros (H1 & H2 & H3 & H4). unfold record_error. split_and!; cbn [extended_id module location desc].
  - by apply strncpy_buffer.
  - by apply strncpy_buffer.
  - by apply snprintf_buffer.
  - by apply snprintf_buffer.
Qed.

(** ** Raising *)

Definition ignored (i : error_info) : bool := negb (Z.land (flags i) MM_ERROR_IGNORE =? 0).
Definition nolog (i : error_info) : bool := negb (Z.land (flags i) MM_ERROR_NOLOG =? 0).

(** Setting a flag and giving it back. *)
Lemma restore_flags f mask :
  Z.lor (Z.land mask f) (Z.land (Z.lnot mask) (Z.lor (Z.land mask MM_ERROR_SET) (Z.land (Z.lnot mask) f))) = f.
Proof.
  apply Z.bits_inj'. intros n Hn. unfold MM_ERROR_SET. rewrite !Z.lor_spec, !Z.land_spec, !Z.lor_spec, !Z.land_spec, !Z.lnot_spec by done.
  rewrite Z.bits_m1 by done. by destruct (Z.testbit mask n), (Z.testbit f n).
Qed.

Lemma ignore_set f : Z.land (Z.lor (Z.land MM_ERROR_IGNORE MM_ERROR_SET) (Z.land (Z.lnot MM_ERROR_IGNORE) f)) MM_ERROR_IGNORE = MM_ERROR_IGNORE.
Proof.
  apply Z.bits_inj'. intros n Hn. unfold MM_ERROR_SET. rewrite !Z.land_spec, !Z.lor_spec, !Z.land_spec, !Z.lnot_spec by done.
  rewrite Z.bits_m1 by done. by destruct (Z.testbit MM_ERROR_IGNORE n), (Z.testbit f n).
Qed.

Section Raise.

Context {OS : Type} (write : Z -> cstr -> OS -> (Z + nat) * OS) (timestamp : OS -> cstr) (strerror : Z -> cstr).

(** A write that does not fail writes something; the time stamp has its size. *)
Hypothesis (write_progress : forall fd buf os n, buf <> [] -> (write fd buf os).1 = inr n -> (0 < n)%nat).
Hypothesis (timestamp_length : forall os, length (timestamp os) = 17%nat).

Abbreviation world := (err_world (OS := OS)).
Abbreviation raise := (mm_raise_error_vfull write timestamp strerror).

Lemma raise_ignored fuel num mdl func srcfile srcline extid text (w : world) :
  ignored (err_info w) = true -> raise (S fuel) num mdl func srcfile srcline extid text w = Some (-1, w).
Proof. intros H. cbn [mm_raise_error_vfull]. unfold mbind, st_bind, st_gets. unfold ignored in H. by rewrite H. Qed.

(** What a write of the log may change when the errors are ignored. *)
Definition log_step (w w' : world) : Prop := err_info w' = err_info w /\ maxloglvl w' = maxloglvl w.

Definition log_fd (fuel : nat) (fd : Z) (buf : cstr) : ST world Z :=
  r ← (fun w => let '(r, os) := write fd buf (err_os w) in
                Some (r, mk_err (err_info w) (match r with inl e => e | inr _ => errno w end) (maxloglvl w) os));
  match r with
  | inr n => mret (Z.of_nat n)
  | inl e =>
      let fmt := cs "write(" ++ cs (pretty fd) ++ cs ", ...) failed" in
      raise fuel e (Some (cs "mmlib")) (Some (cs "mm_write")) (Some (cs "file-posix.c")) 258 None
        (take 254 (fmt ++ cs " ; " ++ strerror e))
  end.

Lemma log_fd_spec fuel fd buf w :
  ignored (err_info w) = true -> buf <> [] ->
  exists r w', log_fd (S fuel) fd buf w = Some (r, w') /\ log_step w w' /\ (r < 0 \/ 0 < r).
Proof.
  intros Hi Hb. unfold log_fd. unfold mbind, st_bind at 1. pose proof (write_progress fd buf (err_os w)) as Hp.
  destruct (write fd buf (err_os w)) as [[e|n] os].
  - rewrite raise_ignored by done. do 2 eexists. split; [reflexivity|]. split; [done|lia].
  - do 2 eexists. split; [reflexivity|]. split; [done|]. specialize (Hp n Hb eq_refl). lia.
Qed.

Lemma log_loop_spec fuel n buf w :
  ignored (err_info w) = true -> buf <> [] -> (length buf <= n)%nat ->
  exists w', log_write_loop (log_fd (S fuel)) n buf w = Some (tt, w') /\ log_step w w'.
Proof.
  revert buf w. induction n as [|n IH]; intros buf w Hi Hb Hn; [by destruct buf; [|cbn in Hn; lia]|].
  cbn [log_write_loop]. destruct (log_fd_spec fuel STDERR_FILENO buf w Hi Hb) as (r & w1 & H1 & [Hs1 Hs2] & Hr).
  rewrite (st_bind_Some _ _ _ _ _ H1). destruct (Z.ltb_spec r 0); [by exists w1|].
  case_bool_decide as Hd; [by exists w1|].
  destruct (IH (drop (Z.to_nat r) buf) w1) as (w2 & H2 & Hs3 & Hs4); [by rewrite Hs1|done|rewrite length_drop; lia|].
  exists w2. split; [done|]. split; congruence.
Qed.

Lemma mm_log_spec fuel lvl location text w :
  ignored (err_info w) = true -> 0 <= lvl < 5 -> (length location < 229)%nat ->
  exists w', mm_log timestamp (log_fd (S fuel)) lvl location text w = Some (tt, w') /\ log_step w w' /\
    (maxloglvl w < lvl -> w' = w).
Proof.
  intros Hi Hl Hloc. unfold mm_log, mbind, st_bind, st_gets.
  destruct (Z.ltb_spec (maxloglvl w) lvl); cbn [orb]; [by exists w|]. rewrite (proj2 (Z.ltb_ge lvl 0)) by lia.
  destruct (lookup_lt_is_Some_2 loglevel (Z.to_nat lvl)) as [level Hlevel]; [cbn; lia|].
  pose proof (log_line_bounds (timestamp (err_os w)) level location text (timestamp_length _) (list_elem_of_lookup_2 _ _ _ Hlevel)) as HL.
  rewrite (proj2 (Nat.ltb_lt _ _) Hloc) in HL. destruct HL as (line & Hline & _ & Hlast & _).
  unfold st_option. rewrite Hlevel. cbn [mbind option_bind]. rewrite Hline.
  destruct (log_loop_spec fuel (length line) line w) as (w' & HL & Hs); [done|by intros ->|done|].
  exists w'. split; [done|]. split; [done|lia].
Qed.

(** Raising an error returns -1 and records it, whatever the log does: with two levels of
    recursion, the state has the number and the strings cut to their buffers, and the
    flags are those from before; nothing that fails while logging changes it, and the error
    number of C is the one raised when no log is written.  When the errors
    are ignored nothing changes. *)
Theorem raise_records (w : world) (fuel : nat) (num : Z) (mdl func srcfile : option cstr) (srcline : Z) (extid : option cstr)
    (text : cstr) :
  info_wf (err_info w) -> (2 <= fuel)%nat ->
  let module_name := or_default (cs "unknown") mdl in
  (length module_name < 229)%nat ->
  exists w', raise fuel num mdl func srcfile srcline extid text w = Some (-1, w') /\ info_wf (err_info w') /\
    flags (err_info w') = flags (err_info w) /\
    if ignored (err_info w) then w' = w
    else
      errnum (err_info w') = num /\
      (NUL ∉ text -> buf_str (desc (err_info w')) = take 255 text) /\
      (NUL ∉ module_name -> buf_str (module (err_info w')) = take 31 module_name) /\
      (NUL ∉ or_default [] extid -> buf_str (extended_id (err_info w')) = take 63 (or_default [] extid)) /\
      (nolog (err_info w) = true \/ maxloglvl w < MM_LOG_ERROR ->
       err_os w' = err_os w /\ errno w' = if num =? 0 then errno w else num).
Proof.
  intros Hwf Hf mdl' Hm. destruct fuel as [|[|fuel]]; [lia|lia|]. destruct (ignored (err_info w)) eqn:Hi.
  { exists w. by rewrite raise_ignored. }
  set (fn := or_default (cs "unknown") func). set (sf := or_default (cs "unknown") srcfile).
  set (ext := or_default [] extid). set (i1 := record_error num mdl' fn sf srcline ext text (err_info w)).
  set (w1 := mk_err i1 (if num =? 0 then errno w else num) (maxloglvl w) (err_os w)).
  assert (Hwf1 : info_wf i1) by by apply record_error_wf.
  assert (Hstr : (NUL ∉ text -> buf_str (desc i1) = take 255 text) /\ (NUL ∉ mdl' -> buf_str (module i1) = take 31 mdl') /\
                 (NUL ∉ ext -> buf_str (extended_id i1) = take 63 ext)).
  { destruct Hwf as (B1 & B2 & B3 & B4). split_and!; intros H; cbn [desc module extended_id i1 record_error].
    - by apply (snprintf_buffer DESC_SIZE).
    - by apply (strncpy_buffer 31).
    - by apply (strncpy_buffer 63). }
  assert (Hraise : raise (S (S fuel)) num mdl func srcfile srcline extid text w
    = if nolog (err_info w) then Some (-1, w1)
      else
        let w2 := mk_err (with_flags (Z.lor (Z.land MM_ERROR_IGNORE MM_ERROR_SET) (Z.land (Z.lnot MM_ERROR_IGNORE) (flags i1))) i1)
                    (errno w1) (maxloglvl w) (err_os w) in
        (mm_log timestamp (log_fd (S fuel)) MM_LOG_ERROR mdl' (buf_str (desc i1) ++ cs " (" ++ buf_str (location i1) ++ cs ")");;
         (_ ← mm_error_set_flags (flags i1) MM_ERROR_IGNORE; mret (-1))) w2).
  { unfold ignored in Hi. unfold nolog, w1. cbn [mm_raise_error_vfull]. unfold mbind, st_bind, st_gets, mret, st_ret. rewrite Hi.
    cbn [set_info st_modify]. fold mdl' fn sf ext i1. destruct (num =? 0); cbn [set_errno st_modify err_info];
      (destruct (negb (Z.land (flags (err_info w)) MM_ERROR_NOLOG =? 0)); reflexivity). }
  rewrite Hraise. destruct (nolog (err_info w)) eqn:Hn; [exists w1; destruct Hstr as (S1 & S2 & S3); by split_and!|]. cbv zeta.
  set (w2 := mk_err _ _ _ _).
  destruct (mm_log_spec fuel MM_LOG_ERROR mdl' (buf_str (desc i1) ++ cs " (" ++ buf_str (location i1) ++ cs ")") w2)
    as (w3 & H3 & [Hs1 Hs2] & Hsame).
  { unfold ignored, w2. cbn [err_info with_flags flags]. by rewrite ignore_set. }
  { by vm_compute. } { done. }
  rewrite (st_bind_Some _ _ _ _ _ H3). unfold mm_error_set_flags, mbind, st_bind, st_gets, set_info, st_modify, mret, st_ret.
  eexists. split; [reflexivity|]. cbn [err_info]. rewrite Hs1. cbn [w2 err_info with_flags flags extended_id module desc errnum].
  rewrite restore_flags. split; [exact Hwf1|]. split; [done|]. destruct Hstr as (S1 & S2 & S3).
  split_and!; try done. intros [|Hlt]; [congruence|]. rewrite (Hsame Hlt). done.
Qed.

(** Saving the state, raising, and setting it back. *)
Lemma save_set_errorstate (w : world) num mdl func srcfile srcline extid text :
  info_wf (err_info w) -> (length (or_default (cs "unknown") mdl) < 229)%nat ->
  exists w', (saved ← mm_save_errorstate; _ ← raise 2 num mdl func srcfile srcline extid text; mm_set_errorstate saved) w = Some (0, w')
    /\ err_info w' = err_info w /\ errno w' = errnum (err_info w).
Proof.
  intros Hwf Hm. unfold mm_save_errorstate, st_gets. unfold mbind at 1, st_bind at 1.
  destruct (raise_records w 2 num mdl func srcfile srcline extid text) as (w1 & H1 & _); [done|lia|done|].
  rewrite (st_bind_Some _ _ _ _ _ H1). by eexists.
Qed.

End Raise.

(** ** A system whose standard error is closed *)

Module NoLogDemo.

Definition write (fd : Z) (buf : cstr) (n : nat) : (Z + nat) * nat := (inl 9, S n).
Definition timestamp (n : nat) : cstr := cs "01/02/24 10:11:12".
Definition world : err_world := mk_err initial_info 0 MM_LOG_INFO 0%nat.

Lemma progress fd buf os n : buf <> [] -> (write fd buf os).1 = inr n -> (0 < n)%nat.
Proof. intros _ H. discriminate H. Qed.

End NoLogDemo.

Lemma raise_records_witness :
  exists w', mm_raise_error_vfull NoLogDemo.write NoLogDemo.timestamp (fun _ => []) 2 22 (Some (cs "app")) None None 7 None (cs "bad value")
               NoLogDemo.world = Some (-1, w') /\
    errnum (err_info w') = 22 /\ buf_str (desc (err_info w')) = cs "bad value" /\ buf_str (module (err_info w')) = cs "app".
Proof.
  assert (Hwf : info_wf (err_info NoLogDemo.world)) by exact initial_info_wf.
  destruct (raise_records NoLogDemo.write NoLogDemo.timestamp (fun _ => []) NoLogDemo.progress (fun _ => eq_refl) NoLogDemo.world 2 22
    (Some (cs "app")) None None 7 None (cs "bad value") Hwf (le_n 2)) as (w' & E & _ & _ & H1 & H2 & H3 & _).
  { vm_compute. lia. }
  exists w'. split; [exact E|]. split; [exact H1|]. split.
  - apply H2. vm_compute. set_solver.
  - apply H3. vm_compute. set_solver.
Defined.

(** The log cannot be written: the number of C is the one of the write, not the one raised. *)
Example errno_of_the_log :
  errno <$> (snd <$> mm_raise_error_vfull NoLogDemo.write NoLogDemo.timestamp (fun _ => []) 2 22 (Some (cs "app")) None None 7 None
                       (cs "bad value") NoLogDemo.world) = Some 9.
Proof. vm_compute. reflexivity. Qed.

(** The number 0 does not leave the state untouched. *)
Example raise_zero :
  errnum <$> (err_info <$> (snd <$> mm_raise_error_vfull NoLogDemo.write NoLogDemo.timestamp (fun _ => []) 2 0 None None None 7 None []
                       (mk_err (mk_info MM_ERROR_NOLOG 5 (replicate 64 NUL) (replicate 32 NUL) (replicate 256 NUL) (replicate 256 NUL)) 5 3 0%nat)))
  = Some 0.
Proof. vm_compute. reflexivity. Qed.

(** ** Messages *)

(** [mm_strerror_r] never writes outside of its buffer, whose size may be anything, and gives the
    message of the library in full, or cut with the error [ERANGE]. *)
Theorem strerror_r_bounds (tr : cstr -> cstr) (sys : Z -> cstr -> Z * option Z * cstr) (num : Z) (buf msg : cstr) :
  get_mm_errmsg tr num = Some msg -> NUL ∉ msg ->
  let '(rv, e, out) := mm_strerror_r tr sys num buf in
  length out = length buf /\
  if (length msg <? length buf)%nat then rv = 0 /\ e = None /\ buf_str out = msg
  else rv = -1 /\ e = Some ERANGE /\ (buf <> [] -> buf_str out = take (length buf - 1) msg).
Proof.
  intros Hm Hn. unfold mm_strerror_r. rewrite Hm. destruct (Nat.ltb_spec (length buf) 1) as [H1|H1].
  { destruct buf; [|cbn in H1; lia]. cbn. destruct (length msg); done. }
  set (trunclen := if (length buf <? length msg + 1)%nat then _ else _).
  assert (Hb : (1 <= trunclen <= length buf)%nat /\ (trunclen - 1 <= length msg)%nat).
  { unfold trunclen. destruct (Nat.ltb_spec (length buf) (length msg + 1)); lia. }
  assert (Hout : length (take (trunclen - 1) msg ++ [NUL] ++ drop trunclen buf) = length buf).
  { rewrite !length_app, length_take, length_drop. cbn [length]. lia. }
  assert (Hs : buf_str (take (trunclen - 1) msg ++ [NUL] ++ drop trunclen buf) = take (trunclen - 1) msg)
    by (apply buf_str_app; by apply no_nul_take).
  destruct (Nat.eqb_spec trunclen (length msg + 1)) as [E|E]; unfold trunclen in *;
    destruct (Nat.ltb_spec (length buf) (length msg + 1)), (Nat.ltb_spec (length msg) (length buf)); try lia;
    (split; [exact Hout|]); split_and!; try done.
  rewrite Hs. apply take_ge. lia.
Qed.

Lemma strerror_r_bounds_witness :
  get_mm_errmsg (fun s => s) 1006 = Some (cs "Bad format") /\
  (let '(rv, e, out) := mm_strerror_r (fun s => s) (fun _ b => (0, None, b)) 1006 (replicate 4 NUL) in
   length out = 4%nat /\ rv = -1 /\ buf_str out = cs "Bad").
Proof.
  split; [reflexivity|].
  pose proof (strerror_r_bounds (fun s => s) (fun _ b => (0, None, b)) 1006 (replicate 4 NUL) (cs "Bad format") eq_refl
    ltac:(vm_compute; set_solver)) as H.
  destruct (mm_strerror_r (fun s => s) (fun _ b => (0, None, b)) 1006 (replicate 4 NUL)) as [[rv e] out].
  destruct H as (H1 & H2 & _ & H3). split; [exact H1|]. split; [exact H2|]. exact (H3 ltac:(discriminate)).
Defined.
