(* ===== verification/CopyLoop.v ===== *)
(** * Copy loops

    The loops that copy a file by reads and writes: [clone_fd_fallback] of
    [file-posix.c] and [clone_hnd_fallback] of [file-win32.c] are the same code over
    [mm_read] and [mm_write], and over [mmlib_read] and [mmlib_write].  [None] of the monad is fuel
    exhausted. *)

From S2P Require Import Prelude CStr Effects.

Definition COPYBUFFER_SIZE : Z := 1024 * 1024.

(** What is read, and the size written: [None] is a failure. *)
Section Loops.

Context {S : Type} (rd : ST S (option cstr)) (wr : cstr -> ST S (option nat)).

(** The writes of what has been read. *)
Fixpoint write_chunks (fuel : nat) (wbuf : cstr) : ST S bool :=
  if bool_decide (wbuf = []) then mret true
  else match fuel with
       | O => st_ub
       | Datatypes.S fuel =>
           wsz ← wr wbuf;
           match wsz with None => mret false | Some n => write_chunks fuel (drop n wbuf) end
       end.

Fixpoint copy_loop (fuel : nat) : ST S bool :=
  match fuel with
  | O => st_ub
  | Datatypes.S fuel =>
      r ← rd;
      match r with
      | None => mret false
      | Some buffer =>
          ok ← write_chunks (length buffer) buffer;
          if negb ok then mret false else if bool_decide (buffer = []) then mret true else copy_loop fuel
      end
  end.

End Loops.

(** ** What a copy does *)

(** [src s] is what remains to be read, [dst s] what was written, in the states of [inv]. *)
Class Streams {S : Type} (rd : ST S (option cstr)) (wr : cstr -> ST S (option nat)) (inv : S -> Prop) (src dst : S -> cstr) : Prop := {
  stream_read s : inv s -> exists r s', rd s = Some (r, s') /\ inv s' /\ dst s' = dst s /\
    match r with
    | Some buf => src s = buf ++ src s' /\ (buf = [] -> src s = [])
    | None => src s' = src s
    end;
  stream_write s buf : inv s -> buf <> [] -> exists r s', wr buf s = Some (r, s') /\ inv s' /\ src s' = src s /\
    match r with
    | Some n => (0 < n <= length buf)%nat /\ dst s' = dst s ++ take n buf
    | None => dst s' = dst s
    end
}.

Section Copy.

Context {S : Type} (rd : ST S (option cstr)) (wr : cstr -> ST S (option nat)) (inv : S -> Prop) (src dst : S -> cstr).
Context `{!Streams rd wr inv src dst}.

Lemma write_chunks_spec fuel buf s :
  inv s -> (length buf <= fuel)%nat ->
  exists ok s', write_chunks wr fuel buf s = Some (ok, s') /\ inv s' /\ src s' = src s /\
    exists k, dst s' = dst s ++ take k buf /\ (ok = true -> (length buf <= k)%nat).
Proof.
  revert buf s. induction fuel as [|fuel IH]; intros buf s Hi Hf; cbn [write_chunks].
  { destruct buf; [|cbn in Hf; lia]. exists true, s. split_and!; try done. exists 0%nat. by rewrite app_nil_r. }
  case_bool_decide as Hb. { subst. exists true, s. split_and!; try done. exists 0%nat. by rewrite app_nil_r. }
  destruct (stream_write s buf Hi Hb) as (r & s1 & H1 & Hi1 & Hsrc & Hr). rewrite (st_bind_Some _ _ _ _ _ H1).
  destruct r as [n|].
  - destruct Hr as [Hn Hd]. destruct (IH (drop n buf) s1 Hi1) as (ok & s2 & H2 & Hi2 & Hs2 & k & Hk & Hok); [rewrite length_drop; lia|].
    exists ok, s2. split_and!; [done|done|congruence|]. exists (n + k)%nat. split.
    + rewrite Hk, Hd, <- app_assoc. f_equal. rewrite take_take_drop. done.
    + intros H. specialize (Hok H). rewrite length_drop in Hok. lia.
  - exists false, s1. split_and!; try done. exists 0%nat. cbn. by rewrite app_nil_r.
Qed.

(** The copy ends, with everything copied or a failure after a part of it. *)
Lemma copy_loop_spec fuel s :
  inv s -> (length (src s) < fuel)%nat ->
  exists ok s', copy_loop rd wr fuel s = Some (ok, s') /\ inv s' /\
    exists k, dst s' = dst s ++ take k (src s) /\ (ok = true -> (length (src s) <= k)%nat /\ src s' = []).
Proof.
  revert s. induction fuel as [|fuel IH]; intros s Hi Hf; [lia|]. cbn [copy_loop].
  destruct (stream_read s Hi) as (r & s1 & H1 & Hi1 & Hd1 & Hr). rewrite (st_bind_Some _ _ _ _ _ H1).
  destruct r as [buf|]. 2: { exists false, s1. split_and!; try done. exists 0%nat. by rewrite Hd1, app_nil_r. }
  destruct Hr as [Hsrc Heof].
  destruct (write_chunks_spec (length buf) buf s1 Hi1) as (ok & s2 & H2 & Hi2 & Hs2 & k & Hk & Hok); [lia|].
  rewrite (st_bind_Some _ _ _ _ _ H2). destruct ok; cbn [negb].
  2: { exists false, s2. split_and!; try done. exists (Nat.min k (length buf)). split; [|done]. rewrite Hk, Hd1, Hsrc. f_equal.
       rewrite take_app_le by lia. destruct (le_lt_dec k (length buf)); [by rewrite Nat.min_l|].
       rewrite Nat.min_r by lia. by rewrite !take_ge by lia. }
  specialize (Hok eq_refl). case_bool_decide as Hb.
  { subst buf. exists true, s2. split_and!; try done. exists 0%nat. rewrite Hk, Hd1, (Heof eq_refl). cbn. split; [by rewrite take_nil|].
    intros _. split; [lia|]. rewrite Hs2. by rewrite (Heof eq_refl) in Hsrc. }
  assert (Hlen : length (src s) = (length buf + length (src s1))%nat) by by rewrite Hsrc, length_app.
  destruct (IH s2 Hi2) as (ok' & s3 & H3 & Hi3 & k' & Hk' & Hok').
  { rewrite Hs2. destruct buf; [done|]. cbn in Hlen. lia. }
  exists ok', s3. split_and!; [done|done|]. exists (length buf + k')%nat. split.
  - rewrite Hk', Hk, Hd1, Hs2, Hsrc, <- app_assoc. f_equal. rewrite (take_ge buf) by done. rewrite take_app_add. done.
  - intros H. destruct (Hok' H) as [Hl He]. rewrite Hs2 in Hl. split; [lia|done].
Qed.

End Copy.
