(* ===== verification/File.v ===== *)
(** * Files, common part

    [file.c] and [file-internal.h]: the directories created with their parents, over the
    [internal_mkdir] of each platform.  The path is a buffer, where the separators are replaced with null
    characters and put back: a list of characters that does not change its length. *)

From S2P Require Import Prelude CStr Effects Errcode ErrorState Utils.

(** ** Paths *)

Definition DOT : ascii := ".".
Definition SLASH : ascii := "/".

(** The loop on at most three characters. *)
Fixpoint wildcard_loop (n len : nat) (name : cstr) : option nat :=
  match n, name with
  | S n, c :: name => if bool_decide (c <> DOT) then None else wildcard_loop n (S len) name
  | _, _ => Some len
  end.

Definition is_wildcard_directory (name : cstr) : bool :=
  match wildcard_loop 3 0 name with Some len => (len =? 1)%nat || (len =? 2)%nat | None => false end.

Section Dirname.

Context (win32 : bool).

Abbreviation sep := (is_path_separator win32).
Abbreviation sep_at := (sep_at win32).
Abbreviation skip_back := (skip_back win32).

(** [while (--c > path)]: the first separator found. *)
Fixpoint find_back (buf : cstr) (c : nat) : option nat :=
  match c with
  | S (S _ as c') => if sep_at buf c' then Some c' else find_back buf c'
  | _ => None
  end.

(** [skip_back] of [Utils] is the first loop. *)

(** The separators before [c] and at [c] become null characters. *)
Fixpoint clear_back (buf : cstr) (c : nat) : cstr :=
  match c with S c' => if sep_at buf c then clear_back (<[c := NUL]> buf) c' else buf | O => buf end.

(** The buffer, and the string returned. *)
Definition internal_dirname (buf : cstr) : cstr * option cstr :=
  let path := buf_str buf in
  match find_back buf (skip_back buf (length path - 1)) with
  | Some c => (clear_back buf c, None)
  | None => (buf, Some [DOT])
  end.

(** [while (len < len_orig && path[len] == '\0') path[len++] = '/']. *)
Fixpoint restore (n : nat) (buf : cstr) (len len_orig : nat) : cstr :=
  match n with
  | O => buf
  | S n =>
      if (len <? len_orig)%nat && bool_decide (buf !! len = Some NUL)
      then restore n (<[len := SLASH]> buf) (S len) len_orig
      else buf
  end.

End Dirname.

(** ** Creation of directories *)

(** The value returned: 0, an error number, or -1. *)
Inductive mkdir_result := MkDone | MkCode (e : errcode) | MkFailed.

Definition MM_RECURSIVE_BIT : Z := 31.
Definition MM_NOFOLLOW : Z := 2 ^ 29.
Definition MM_NOCOW : Z := 2 ^ 28.
Definition MM_FORCECOW : Z := 2 ^ 27.

(** The calls of each platform, in a monad whose state has the errors. *)
Class FilePlatform (S : Type) := {
  internal_mkdir : cstr -> Z -> bool -> ST S mkdir_result;
  copy_internal : cstr -> cstr -> Z -> Z -> ST S bool;
  raise_file_error : errcode -> ST S unit
}.

Section Mkdir.

Context {S : Type} `{!FilePlatform S} (win32 : bool).

Definition reached (r : mkdir_result) : bool := match r with MkDone => true | _ => false end.

(** The buffer and whether the directory exists at the end; [None] is fuel exhausted.  The line
    logged when a parent could not be made is left out. *)
Fixpoint mm_mkdir_rec (fuel : nat) (buf : cstr) (mode : Z) : ST S (cstr * bool) :=
  match fuel with
  | O => st_ub
  | Datatypes.S fuel =>
      let path := buf_str buf in
      rv ← internal_mkdir path mode true;
      match rv with
      | MkDone | MkCode E_EXIST => mret (buf, true)
      | MkCode E_NOENT =>
          if is_wildcard_directory path then mret (buf, true)
          else
            let len_orig := length path in
            let '(buf, dir) := internal_dirname win32 buf in
            '(buf, ok) ← match dir with
                         | None => mm_mkdir_rec fuel buf mode
                         | Some dir => '(_, ok) ← mm_mkdir_rec fuel dir mode; mret (buf, ok)
                         end;
            let len := length (buf_str buf) in
            let buf := restore (len_orig - len) buf len len_orig in
            if negb ok then mret (buf, false)
            else r ← internal_mkdir (buf_str buf) mode false; mret (buf, reached r)
      | _ => mret (buf, false)
      end
  end.

Definition mm_mkdir (fuel : nat) (path : cstr) (mode : Z) (flags : Z) : ST S bool :=
  if Z.testbit flags MM_RECURSIVE_BIT then '(_, ok) ← mm_mkdir_rec fuel (path ++ [NUL]) mode; mret ok
  else r ← internal_mkdir path mode false; mret (reached r).

Definition mm_copy (src dst : cstr) (flags mode : Z) : ST S bool :=
  if negb (Z.land flags (Z.lnot (Z.lor MM_NOFOLLOW (Z.lor MM_NOCOW MM_FORCECOW))) =? 0)
  then raise_file_error E_INVAL;; mret false
  else if negb (Z.land flags MM_NOCOW =? 0) && negb (Z.land flags MM_FORCECOW =? 0)
  then raise_file_error E_INVAL;; mret false
  else copy_internal src dst flags mode.

End Mkdir.

(** ** Components of a path *)

Section Components.

Context (win32 : bool).

Abbreviation sep := (is_path_separator win32).

Fixpoint comps (p : cstr) : list cstr :=
  match p with
  | [] => []
  | c :: p' =>
      if sep c then comps p'
      else match p' with
           | d :: _ => if sep d then [c] :: comps p'
                       else match comps p' with w :: ws => (c :: w) :: ws | [] => [[c]] end
           | [] => [[c]]
           end
  end.

Definition absolute (p : cstr) : bool := match p with c :: _ => sep c | [] => false end.

(** A directory is named by its components, from the root or from the current directory. *)
Definition key (p : cstr) : bool * list cstr := (absolute p, comps p).
Definition parent (k : bool * list cstr) : bool * list cstr := (k.1, removelast k.2).

Lemma comps_head c p : sep c = false -> exists w ws, comps (c :: p) = w :: ws.
Proof. intros H. cbn [comps]. rewrite H. destruct p as [|d p]; [eauto|]. destruct (sep d), (comps (d :: p)); eauto. Qed.

Lemma comps_app_sep a s b : sep s = true -> comps (a ++ s :: b) = comps a ++ comps b.
Proof.
  intros Hs. induction a as [|c a IH]; [cbn; by rewrite Hs|]. cbn [app comps].
  destruct (sep c) eqn:Hc; [done|]. destruct a as [|d a]; [cbn; by rewrite Hs|]. cbn [app] in *. rewrite IH.
  destruct (sep d) eqn:Hd; [done|]. destruct (comps_head d a Hd) as (w & ws & ->). done.
Qed.

Lemma comps_seps t : Forall (fun c => sep c = true) t -> comps t = [].
Proof. induction 1 as [|c t Hc _ IH]; [done|]. cbn [comps]. by rewrite Hc. Qed.

Lemma comps_app_seps a t : Forall (fun c => sep c = true) t -> comps (a ++ t) = comps a.
Proof.
  intros [|c t' Hc Ht]; [by rewrite app_nil_r|]. rewrite comps_app_sep by done. by rewrite (comps_seps t'), app_nil_r.
Qed.

Lemma comps_word w : w <> [] -> Forall (fun c => sep c = false) w -> comps w = [w].
Proof.
  intros Hw H. induction H as [|c w Hc Hf IH]; [done|]. cbn [comps]. rewrite Hc.
  destruct Hf as [|d w' Hd Hf]; [done|]. rewrite Hd. by rewrite IH.
Qed.

Lemma strip_back (f : ascii -> bool) (l : cstr) :
  exists a t, l = a ++ t /\ Forall (fun c => f c = true) t /\ (a = [] \/ exists a0 x, a = a0 ++ [x] /\ f x = false).
Proof.
  induction l as [|x l IH] using rev_ind; [by exists [], []; split_and!; [|constructor|left]|].
  destruct (f x) eqn:Hx.
  - destruct IH as (a & t & -> & Ht & Ha). exists a, (t ++ [x]). rewrite app_assoc. split_and!; [done| |done].
    apply Forall_app. split; [done|]. by constructor.
  - exists (l ++ [x]), []. rewrite app_nil_r. split_and!; [done|constructor|]. right. eauto.
Qed.

(** A path with two components: the directory, separators, the last name and separators. *)
Lemma split_path p :
  (2 <= length (comps p))%nat ->
  exists a x seps w t, p = (a ++ [x]) ++ seps ++ w ++ t /\ sep x = false /\
    seps <> [] /\ Forall (fun c => sep c = true) seps /\ w <> [] /\ Forall (fun c => sep c = false) w /\
    Forall (fun c => sep c = true) t /\ comps p = comps (a ++ [x]) ++ [w] /\ absolute p = absolute (a ++ [x]).
Proof.
  intros Hp. destruct (strip_back sep p) as (q & t & -> & Ht & Hq). rewrite comps_app_seps in Hp by done.
  destruct (strip_back (fun c => negb (sep c)) q) as (u & w & -> & Hw & Hu).
  assert (Hw' : Forall (fun c => sep c = false) w) by (eapply Forall_impl; [exact Hw|]; intros c; by rewrite negb_true_iff).
  assert (Hwne : w <> []).
  { intros ->. rewrite app_nil_r in *. destruct Hq as [->|(q0 & x & Hq & Hx)]; [cbn in Hp; lia|].
    destruct Hu as [->|(u0 & y & -> & Hy)]; [by destruct q0|]. apply app_inj_tail in Hq as [_ ->]. by rewrite Hx in Hy. }
  destruct Hu as [->|(u0 & y & -> & Hy)]; [rewrite comps_word in Hp by done; cbn in Hp; lia|]. apply negb_false_iff in Hy.
  assert (Hc : comps ((u0 ++ [y]) ++ w) = comps u0 ++ [w]).
  { rewrite <- app_assoc. cbn [app]. rewrite comps_app_sep by done. by rewrite (comps_word w). }
  rewrite Hc, length_app in Hp. cbn in Hp.
  destruct (strip_back sep u0) as (a & s & -> & Hs & Ha). rewrite (comps_app_seps a s) in Hc, Hp by done.
  destruct Ha as [->|(a0 & x & -> & Hx)]; [cbn in Hp; lia|].
  exists a0, x, (s ++ [y]), w, t. split_and!; try done.
  - by rewrite <- !app_assoc.
  - by destruct s.
  - apply Forall_app. split; [done|]. by constructor.
  - by rewrite comps_app_seps, Hc by done.
  - by destruct a0.
Qed.

(** ** Directory of a path *)

Lemma sep_at_app_l (a b : cstr) i : (i < length a)%nat -> sep_at win32 (a ++ b) i = sep_at win32 a i.
Proof. intros H. unfold sep_at. by rewrite lookup_app_l. Qed.

Lemma sep_at_mid (a : cstr) x b : sep_at win32 (a ++ x :: b) (length a) = sep x.
Proof. unfold sep_at. by rewrite list_lookup_middle. Qed.

(** The loop that skips the separators [t] after a character that is not one. *)
Lemma skip_back_seps (a : cstr) x t r :
  sep x = false -> Forall (fun c => sep c = true) t ->
  skip_back win32 (a ++ x :: t ++ r) (length a + length t) = length a.
Proof.
  intros Hx Ht. revert r. induction t as [|s t IH] using rev_ind; intros r.
  - cbn [length app]. rewrite Nat.add_0_r. destruct a as [|y a']; [done|]. cbn [length skip_back].
    change (S (length a')) with (length (y :: a')). by rewrite sep_at_mid, Hx.
  - apply Forall_app in Ht as [Ht Hs]. apply Forall_cons in Hs as [Hs _].
    rewrite length_app. cbn [length]. rewrite Nat.add_1_r, Nat.add_succ_r. cbn [skip_back].
    replace (a ++ x :: (t ++ [s]) ++ r) with ((a ++ x :: t) ++ s :: r) at 1 by (by rewrite <- !app_assoc).
    replace (S (length a + length t)) with (length (a ++ x :: t)) by (rewrite length_app; cbn; lia).
    rewrite sep_at_mid, Hs. rewrite <- app_assoc. cbn [app]. apply (IH Ht).
Qed.

Lemma find_back_S buf c :
  (0 < c)%nat -> find_back win32 buf (S c) = if sep_at win32 buf c then Some c else find_back win32 buf c.
Proof. by destruct c; [lia|]. Qed.

(** The loop that searches the separator before the last name. *)
Lemma find_back_word (a : cstr) s w r :
  a <> [] -> sep s = true -> w <> [] -> Forall (fun c => sep c = false) w ->
  find_back win32 (a ++ s :: w ++ r) (length a + length w) = Some (length a).
Proof.
  intros Ha Hs Hw Hf. assert (Hla : (0 < length a)%nat) by (destruct a; [done|cbn; lia]).
  revert r. induction w as [|y w IH] using rev_ind; intros r; [done|]. apply Forall_app in Hf as [Hf Hy]. apply Forall_cons in Hy as [Hy _].
  rewrite length_app. cbn [length]. rewrite Nat.add_1_r, Nat.add_succ_r, find_back_S by lia. destruct w as [|z w'].
  - cbn [length app]. rewrite Nat.add_0_r, sep_at_mid, Hs. done.
  - assert (Hsep : sep_at win32 (a ++ s :: ((z :: w') ++ [y]) ++ r) (length a + length (z :: w')) = false).
    { destruct (exists_last (l := z :: w')) as (w0 & y' & Hw0); [done|]. rewrite Hw0 in *.
      apply Forall_app in Hf as [_ Hf]. apply Forall_cons in Hf as [Hf _].
      rewrite length_app, <- !app_assoc. cbn [app length].
      replace (a ++ s :: w0 ++ y' :: y :: r) with ((a ++ s :: w0) ++ y' :: y :: r) by (by rewrite <- app_assoc).
      replace (length a + (length w0 + 1))%nat with (length (a ++ s :: w0)) by (rewrite length_app; cbn; lia).
      by rewrite sep_at_mid. }
    rewrite Hsep. rewrite <- app_assoc. apply IH; done.
Qed.

(** The loop that clears the separators, after a character that is not one. *)
Lemma clear_back_seps (a : cstr) x seps r :
  sep x = false -> Forall (fun c => sep c = true) seps ->
  clear_back win32 (a ++ x :: seps ++ r) (length a + length seps) = a ++ x :: replicate (length seps) NUL ++ r.
Proof.
  intros Hx Hs. revert r. induction seps as [|s seps IH] using rev_ind; intros r.
  - cbn [length app replicate]. rewrite Nat.add_0_r. destruct a as [|y a']; [done|]. cbn [length clear_back].
    change (S (length a')) with (length (y :: a')). by rewrite sep_at_mid, Hx.
  - apply Forall_app in Hs as [Hs Hy]. apply Forall_cons in Hy as [Hy _].
    rewrite length_app. cbn [length]. rewrite Nat.add_1_r, Nat.add_succ_r. cbn [clear_back].
    replace (a ++ x :: (seps ++ [s]) ++ r) with ((a ++ x :: seps) ++ s :: r) by (by rewrite <- !app_assoc).
    replace (S (length a + length seps)) with (length (a ++ x :: seps)) by (rewrite length_app; cbn; lia).
    rewrite sep_at_mid, Hy, insert_app_r_alt, Nat.sub_diag by done. cbn [list_insert].
    rewrite <- app_assoc. cbn [app]. change (<[0%nat:=NUL]> (s :: r)) with (NUL :: r). rewrite IH by done.
    rewrite replicate_S_end, <- app_assoc. done.
Qed.

(** The separators are put back. *)
Lemma restore_nuls n (a : cstr) j d r len_orig :
  (j <= n)%nat -> (length a + j <= len_orig)%nat -> d <> NUL ->
  restore n (a ++ replicate j NUL ++ d :: r) (length a) len_orig = a ++ replicate j SLASH ++ d :: r.
Proof.
  intros Hn Hl Hd. revert n a Hn Hl. induction j as [|j IH]; intros n a Hn Hl.
  - cbn [replicate app]. destruct n as [|n]; [done|]. cbn [restore]. rewrite list_lookup_middle by done.
    rewrite bool_decide_false by congruence. by rewrite andb_false_r.
  - destruct n as [|n]; [lia|]. cbn [restore replicate app]. rewrite list_lookup_middle by done.
    rewrite (proj2 (Nat.ltb_lt _ _)) by lia. rewrite bool_decide_true by done. cbn [andb].
    rewrite insert_app_r_alt, Nat.sub_diag by done.
    assert (E : a ++ <[0%nat:=SLASH]> (NUL :: replicate j NUL ++ d :: r) = (a ++ [SLASH]) ++ replicate j NUL ++ d :: r)
      by by rewrite <- app_assoc.
    rewrite E. replace (S (length a)) with (length (a ++ [SLASH])) by (rewrite length_app; cbn; lia).
    rewrite IH by (rewrite ?length_app; cbn; lia). by rewrite <- app_assoc.
Qed.

End Components.

(** ** Creation of the directories *)

(** Directories are named by [key]; the paths are without "." and "..", but for "." itself. *)
Definition plain (win32 : bool) (p : cstr) : Prop :=
  p <> [] /\ NUL ∉ p /\ Forall (fun w => is_wildcard_directory w = false) (comps win32 p).

(** The documented behaviour of the call of the platform, over the directories [dirs]. *)
Class MkdirLaws (S : Type) `{!FilePlatform S} (win32 : bool) (dirs : S -> gset (bool * list cstr)) : Prop := {
  law_dirs_root s b : (b, []) ∈ dirs s;
  law_mkdir p mode report s : plain win32 p -> exists r s', internal_mkdir p mode report s = Some (r, s') /\
    if decide (key win32 p ∈ dirs s) then dirs s' = dirs s /\ r = (if report then MkCode E_EXIST else MkFailed)
    else if decide (parent (key win32 p) ∈ dirs s)
    then (r = MkDone /\ dirs s' = {[key win32 p]} ∪ dirs s) \/ (r = MkFailed /\ dirs s' = dirs s)
    else dirs s' = dirs s /\ r = (if report then MkCode E_NOENT else MkFailed)
}.

Definition prefixes (k : bool * list cstr) : gset (bool * list cstr) :=
  list_to_set (map (fun n => (k.1, take n k.2)) (seq 0 (length k.2 + 1))).

Lemma elem_prefixes k k' : k' ∈ prefixes k <-> k'.1 = k.1 /\ exists n, k'.2 = take n k.2.
Proof.
  unfold prefixes. rewrite elem_of_list_to_set, list_elem_of_fmap. split.
  - intros (n & -> & _). cbn. eauto.
  - destruct k as [b l], k' as [b' l']. cbn. intros [-> [n ->]]. exists (Nat.min n (length l)). split.
    + destruct (le_lt_dec n (length l)); [by rewrite Nat.min_l|]. rewrite Nat.min_r by lia. by rewrite !take_ge by lia.
    + apply elem_of_seq. lia.
Qed.

Lemma prefixes_snoc b l w : prefixes (b, l ++ [w]) = {[(b, l ++ [w])]} ∪ prefixes (b, l).
Proof.
  apply set_eq. intros [b' l']. rewrite elem_of_union, elem_of_singleton, !elem_prefixes. cbn. split.
  - intros [-> [n ->]]. destruct (le_lt_dec n (length l)).
    + right. split; [done|]. exists n. by rewrite take_app_le.
    + left. rewrite take_ge by (rewrite length_app; cbn; lia). done.
  - intros [[= -> ->]|[-> [n ->]]]; (split; [done|]).
    + exists (length l + 1)%nat. rewrite take_ge by (rewrite length_app; cbn; lia). done.
    + exists (Nat.min n (length l)). rewrite take_app_le by lia.
      destruct (le_lt_dec n (length l)); [by rewrite Nat.min_l|]. rewrite Nat.min_r by lia. by rewrite !take_ge by lia.
Qed.

Section Creation.

Context {S : Type} `{!FilePlatform S} (win32 : bool) (dirs : S -> gset (bool * list cstr)) `{!MkdirLaws S win32 dirs}.

Abbreviation sep := (is_path_separator win32).

(** The directory of a path of two components at least, and the path put back. *)
Lemma dirname_restored p r :
  NUL ∉ p -> Forall (fun c => sep c = true -> c = SLASH) p -> (2 <= length (comps win32 p))%nat ->
  exists a w buf r', internal_dirname win32 (p ++ NUL :: r) = (buf, None) /\ buf = a ++ NUL :: r' /\
    a <> [] /\ NUL ∉ a /\ Forall (fun c => sep c = true -> c = SLASH) a /\ (length a < length p)%nat /\
    comps win32 p = comps win32 a ++ [w] /\ absolute win32 p = absolute win32 a /\
    restore (length p - length a) buf (length a) (length p) = p ++ NUL :: r.
Proof.
  intros Hn Hs Hc. destruct (split_path win32 p Hc) as (a & x & seps & w & t & -> & Hx & Hse & Hseps & Hwe & Hw & Ht & E1 & E2).
  assert (Hslash : seps = replicate (length seps) SLASH).
  { symmetry. apply replicate_as_Forall_2; [done|]. apply Forall_app in Hs as [_ Hs]. apply Forall_app in Hs as [Hs _].
    clear -Hs Hseps. induction Hseps as [|y l Hy _ IHl]; [done|]. apply Forall_cons in Hs as [Hs1 Hs].
    constructor; [by symmetry; apply Hs1|by apply IHl]. }
  set (L := (length a + length seps + length w)%nat).
  assert (Hbuf : ((a ++ [x]) ++ seps ++ w ++ t) ++ NUL :: r = a ++ x :: seps ++ w ++ t ++ NUL :: r) by by rewrite <- !app_assoc.
  assert (Hlen : length ((a ++ [x]) ++ seps ++ w ++ t) = (L + length t + 1)%nat) by (unfold L; rewrite !length_app; cbn; lia).
  assert (Hskip : skip_back win32 (a ++ x :: seps ++ w ++ t ++ NUL :: r) (L + length t) = L).
  { destruct (exists_last Hwe) as (w0 & y & ->). apply Forall_app in Hw as [_ Hy]. apply Forall_cons in Hy as [Hy _].
    replace (a ++ x :: seps ++ (w0 ++ [y]) ++ t ++ NUL :: r) with ((a ++ x :: seps ++ w0) ++ y :: t ++ NUL :: r)
      by (rewrite <- ?app_assoc; cbn; by rewrite <- ?app_assoc).
    replace L with (length (a ++ x :: seps ++ w0)) by (unfold L; rewrite ?length_app; cbn; rewrite ?length_app; cbn; lia).
    by apply skip_back_seps. }
  destruct (exists_last Hse) as (seps' & s & Hs'). assert (Hss : sep s = true).
  { rewrite Hs' in Hseps. apply Forall_app in Hseps as [_ Hy]. by apply Forall_cons in Hy as [Hy _]. }
  assert (Hfind : find_back win32 (a ++ x :: seps ++ w ++ t ++ NUL :: r) L = Some (length a + length seps)%nat).
  { replace (a ++ x :: seps ++ w ++ t ++ NUL :: r) with ((a ++ x :: seps') ++ s :: w ++ t ++ NUL :: r)
      by (rewrite Hs', <- ?app_assoc; cbn; by rewrite <- ?app_assoc).
    replace L with (length (a ++ x :: seps') + length w)%nat by (unfold L; rewrite Hs', ?length_app; cbn; lia).
    rewrite find_back_word by (done || by destruct a). f_equal. rewrite Hs', ?length_app; cbn; lia. }
  exists (a ++ [x]), w. do 2 eexists. split_and!.
  - unfold internal_dirname. rewrite buf_str_app, Hlen by done. rewrite Hbuf.
    replace (L + length t + 1 - 1)%nat with (L + length t)%nat by lia. rewrite Hskip, Hfind.
    rewrite clear_back_seps by done. rewrite Hs', length_app, Nat.add_1_r. cbn [replicate app]. reflexivity.
  - rewrite <- app_assoc. cbn [app]. reflexivity.
  - by destruct a.
  - intros Hin. apply Hn. apply elem_of_app. by left.
  - by apply Forall_app in Hs as [? _].
  - rewrite Hlen, length_app. unfold L. destruct w; [done|]. cbn. lia.
  - done.
  - done.
  - assert (Hd : exists d r', w ++ t ++ NUL :: r = d :: r' /\ d <> NUL).
    { destruct w as [|d w']; [done|]. exists d. eexists. split; [reflexivity|]. intros ->. apply Hn. set_solver. }
    destruct Hd as (d & r' & Hd & Hdn). rewrite Hd.
    replace (a ++ x :: NUL :: replicate (length seps') NUL ++ d :: r') with ((a ++ [x]) ++ replicate (length seps) NUL ++ d :: r')
      by (rewrite Hs', length_app, Nat.add_1_r, <- app_assoc; done).
    rewrite restore_nuls; [|rewrite Hlen, length_app; unfold L; cbn; lia|rewrite Hlen, length_app; unfold L; cbn; lia|done].
    rewrite <- Hslash, <- Hd. by rewrite <- !app_assoc.
Qed.

Lemma plain_dir p a w : plain win32 p -> a <> [] -> NUL ∉ a -> comps win32 p = comps win32 a ++ [w] -> plain win32 a.
Proof. intros (_ & _ & Hc) Ha Hn E. rewrite E in Hc. apply Forall_app in Hc as [Hc _]. done. Qed.

Lemma parent_snoc b l w : parent (b, l ++ [w]) = (b, l).
Proof. unfold parent. cbn. by rewrite removelast_last. Qed.


End Creation.

(** ** A file system of directories only *)

Module DirDemo.

Definition roots : gset (bool * list cstr) := {[(true, []); (false, [])]}.
Definition tree := gset (bool * list cstr).
Definition known (t : tree) : gset (bool * list cstr) := roots ∪ t.

Definition do_mkdir (win32 : bool) (p : cstr) (report : bool) (t : tree) : mkdir_result * tree :=
  if decide (key win32 p ∈ known t) then (if report then MkCode E_EXIST else MkFailed, t)
  else if decide (parent (key win32 p) ∈ known t) then (MkDone, {[key win32 p]} ∪ t)
  else (if report then MkCode E_NOENT else MkFailed, t).

#[global] Instance platform (win32 : bool) : FilePlatform tree := {
  internal_mkdir p mode report := st_call (do_mkdir win32 p report);
  copy_internal src dst flags mode := mret false;
  raise_file_error e := mret tt
}.

#[global] Instance laws (win32 : bool) : @MkdirLaws tree (platform win32) win32 known.
Proof.
  split.
  - intros s b. apply elem_of_union_l. unfold roots. destruct b; set_solver.
  - intros p mode report s _. exists (do_mkdir win32 p report s).1, (do_mkdir win32 p report s).2.
    cbn. unfold st_call. split; [by destruct do_mkdir|]. unfold do_mkdir. repeat case_decide; cbn; try done.
    left. split; [done|]. unfold known. set_solver.
Qed.

(** The directory "a/b/c" with its parents, and a file name that cannot be a directory. *)
Definition posix_mkdir (path : string) (t : tree) : option (bool * tree) :=
  @mm_mkdir tree (platform false) false 10 (cs path) 511 (2 ^ 31) t.

Example mkdir_three : posix_mkdir "a//b/c/" ∅ = Some (true, {[(false, [cs "a"; cs "b"; cs "c"]); (false, [cs "a"; cs "b"]); (false, [cs "a"])]}).
Proof. apply (bool_decide_unpack _). vm_compute. exact I. Qed.

End DirDemo.

