(* ===== verification/FilePosix.v ===== *)
(** * Files on POSIX

    [file-posix.c], and the offsets of [file.c].  The system is the class
    [PosixFile]: a state and the calls, which give their error or their result.
    [None] of the monad is fuel exhausted. *)

From S2P Require Import Prelude CStr Errcode Effects ErrorState Utils CopyLoop File.

(** ** Constants of Linux *)

Definition O_RDONLY : Z := 0.
Definition O_WRONLY : Z := 1.
Definition O_CREAT : Z := 0x40.
Definition O_EXCL : Z := 0x80.
Definition O_DIRECTORY : Z := 0x10000.
Definition O_NOFOLLOW : Z := 0x20000.
Definition O_CLOEXEC : Z := 0x80000.
Definition AT_FDCWD : Z := -100.
Definition AT_SYMLINK_NOFOLLOW : Z := 0x100.
Definition AT_REMOVEDIR : Z := 0x200.
Definition S_IFMT : Z := 0xF000.
Definition S_IFSOCK : Z := 0xC000.
Definition S_IFLNK : Z := 0xA000.
Definition S_IFREG : Z := 0x8000.
Definition S_IFBLK : Z := 0x6000.
Definition S_IFDIR : Z := 0x4000.
Definition S_IFCHR : Z := 0x2000.
Definition S_IFIFO : Z := 0x1000.

(** ** Types and flags of the library *)

Definition MODE_DEF : Z := 2 ^ 16.
Definition MODE_EXEC : Z := 2 ^ 17.
Definition MM_DT_UNKNOWN : Z := 0.
Definition MM_DT_FIFO : Z := 2 ^ 1.
Definition MM_DT_CHR : Z := 2 ^ 2.
Definition MM_DT_BLK : Z := 2 ^ 3.
Definition MM_DT_DIR : Z := 2 ^ 4.
Definition MM_DT_REG : Z := 2 ^ 5.
Definition MM_DT_LNK : Z := 2 ^ 6.
Definition MM_DT_SOCK : Z := 2 ^ 7.
Definition MM_FAILONERROR : Z := 2 ^ 30.
(** The flags are a 32-bit [int]: this one is its sign. *)
Definition MM_RECURSIVE : Z := - 2 ^ 31.

Definition has (flags f : Z) : bool := negb (Z.land flags f =? 0).

Definition filter_mode_flags (mode : Z) : Z :=
  if has mode MODE_DEF then (if has mode MODE_EXEC then 0x1ff else 0x1b6) else mode.

(** [struct stat], and [struct mm_stat] that has the same fields. *)
Record stat := mk_stat {
  st_dev : Z; st_ino : Z; st_mode : Z; st_nlink : Z; st_uid : Z; st_gid : Z; st_size : Z; st_blocks : Z;
  st_atime : Z; st_ctime : Z; st_mtime : Z
}.

Definition S_ISLNK (mode : Z) : bool := Z.land mode S_IFMT =? S_IFLNK.

Definition conv_native_to_mm_stat (n : stat) : stat :=
  mk_stat (st_dev n) (st_ino n) (st_mode n) (st_nlink n) (st_uid n) (st_gid n)
    (if S_ISLNK (st_mode n) then st_size n + 1 else st_size n) (st_blocks n) (st_atime n) (st_ctime n) (st_mtime n).

(** ** The system *)

(** An entry read in a directory; the type is that of [dirent.h]. *)
Inductive dtype := DT_UNKNOWN | DT_FIFO | DT_CHR | DT_DIR | DT_BLK | DT_REG | DT_LNK | DT_SOCK.

Class PosixFile (OS : Type) := {
  sys_open : cstr -> Z -> Z -> OS -> (errcode + Z) * OS;
  sys_openat : Z -> cstr -> Z -> OS -> (errcode + Z) * OS;
  sys_close : Z -> OS -> (errcode + unit) * OS;
  sys_read : Z -> nat -> OS -> (errcode + cstr) * OS;
  sys_write : Z -> cstr -> OS -> (errcode + nat) * OS;
  sys_copy_file_range : Z -> Z -> OS -> (errcode + nat) * OS;
  sys_ficlone : Z -> Z -> OS -> (errcode + unit) * OS;
  sys_fsync : Z -> OS -> (errcode + unit) * OS;
  sys_lseek : Z -> Z -> Z -> OS -> (errcode + Z) * OS;
  sys_ftruncate : Z -> Z -> OS -> (errcode + unit) * OS;
  sys_dup : Z -> OS -> (errcode + Z) * OS;
  sys_dup2 : Z -> Z -> OS -> (errcode + unit) * OS;
  sys_pipe : OS -> (errcode + Z * Z) * OS;
  sys_isatty : Z -> OS -> (errcode + unit) * OS;             (* an error when it is not a terminal *)
  sys_rename : cstr -> cstr -> OS -> (errcode + unit) * OS;
  sys_unlink : cstr -> OS -> (errcode + unit) * OS;
  sys_unlinkat : Z -> cstr -> Z -> OS -> (errcode + unit) * OS;
  sys_link : cstr -> cstr -> OS -> (errcode + unit) * OS;
  sys_symlink : cstr -> cstr -> OS -> (errcode + unit) * OS;
  sys_readlink : cstr -> nat -> OS -> (errcode + cstr) * OS; (* cut to the size *)
  sys_access : cstr -> Z -> OS -> (errcode + unit) * OS;
  sys_chdir : cstr -> OS -> (errcode + unit) * OS;
  sys_getcwd : option nat -> OS -> (errcode + cstr) * OS;    (* the size of the buffer, if there is one *)
  sys_mkdir : cstr -> Z -> OS -> (errcode + unit) * OS;
  sys_rmdir : cstr -> OS -> (errcode + unit) * OS;
  sys_fstat : Z -> OS -> (errcode + stat) * OS;
  sys_stat : cstr -> OS -> (errcode + stat) * OS;
  sys_lstat : cstr -> OS -> (errcode + stat) * OS;
  sys_fstatat : Z -> cstr -> Z -> OS -> (errcode + stat) * OS;
  sys_futimens : Z -> option ((Z * Z) * (Z * Z)) -> OS -> (errcode + unit) * OS;
  sys_utimensat : cstr -> option ((Z * Z) * (Z * Z)) -> Z -> OS -> (errcode + unit) * OS;
  sys_opendir : cstr -> OS -> (errcode + Z) * OS;
  sys_fdopendir : Z -> OS -> (errcode + Z) * OS;             (* the stream owns the descriptor *)
  sys_readdir : Z -> OS -> option (cstr * dtype) * OS;
  sys_rewinddir : Z -> OS -> OS;
  sys_closedir : Z -> OS -> OS
}.

Section FilePosix.

Context {OS : Type} `{!PosixFile OS}.

(** The errno, and the last error raised in the error state. *)
Record px_world := mk_px { px_os : OS; px_errno : errcode; px_error : option errcode }.

Abbreviation M := (ST px_world).

Definition set_errno (e : errcode) : M unit := st_modify (fun w => mk_px (px_os w) e (px_error w)).

(** [mm_raise_error] sets errno too ([error.c]). *)
Definition raise (e : errcode) : M Z :=
  st_modify (fun w => mk_px (px_os w) e (Some e));; mret (-1).
Definition raise_from_errno : M Z := e ← st_gets px_errno; raise e.

(** A call: [None] is its failure, with errno set. *)
Definition sys {A} (f : OS -> (errcode + A) * OS) : M (option A) := fun w =>
  match f (px_os w) with
  | (inl e, os) => Some (None, mk_px os e (px_error w))
  | (inr a, os) => Some (Some a, mk_px os (px_errno w) (px_error w))
  end.
Definition sys_pure {A} (f : OS -> A * OS) : M A := fun w =>
  let '(a, os) := f (px_os w) in Some (a, mk_px os (px_errno w) (px_error w)).

(** A call whose failure is raised; its value is -1 or the result. *)
Definition sys_or_raise {A} (f : OS -> (errcode + A) * OS) (value : A -> Z) : M Z :=
  r ← sys f; match r with None => raise_from_errno | Some a => mret (value a) end.
Definition sys_unit (f : OS -> (errcode + unit) * OS) : M Z := sys_or_raise f (fun _ => 0).

(** ** Descriptors *)

Definition mm_fsync (fd : Z) : M Z := sys_unit (sys_fsync fd).
Definition mm_seek (fd offset whence : Z) : M Z := sys_or_raise (sys_lseek fd offset whence) id.
Definition mm_ftruncate (fd length : Z) : M Z := sys_unit (sys_ftruncate fd length).

Definition mm_open (path : cstr) (oflag mode : Z) : M Z :=
  sys_or_raise (sys_open path (Z.lor oflag O_CLOEXEC) (filter_mode_flags mode)) id.

Definition mm_rename (oldpath newpath : cstr) : M Z := sys_unit (sys_rename oldpath newpath).
Definition mm_close (fd : Z) : M Z := if fd =? -1 then mret 0 else sys_unit (sys_close fd).

(** [None] is the failure. *)
Definition mm_read (fd : Z) (nbyte : nat) : M (option cstr) :=
  r ← sys (sys_read fd nbyte);
  match r with None => _ ← raise_from_errno; mret None | Some buf => mret (Some buf) end.
Definition mm_write (fd : Z) (buf : cstr) : M (option nat) :=
  r ← sys (sys_write fd buf);
  match r with None => _ ← raise_from_errno; mret None | Some n => mret (Some n) end.

Definition mm_dup (fd : Z) : M Z := sys_or_raise (sys_dup fd) id.
Definition mm_dup2 (fd newfd : Z) : M Z := sys_or_raise (sys_dup2 fd newfd) (fun _ => newfd).
Definition mm_pipe : M (option (Z * Z)) :=
  r ← sys sys_pipe;
  match r with None => _ ← raise_from_errno; mret None | Some fds => mret (Some fds) end.

Definition mm_isatty (fd : Z) : M Z :=
  prev_err ← st_gets px_errno;
  rv ← sys (sys_isatty fd);
  match rv with
  | Some _ => mret 1
  | None =>
      e ← st_gets px_errno;
      if negb (bool_decide (e = E_INVAL)) && negb (bool_decide (e = E_NOTTY)) then raise_from_errno
      else set_errno prev_err;; mret 0
  end.

(** ** Paths *)

Definition mm_unlink (path : cstr) : M Z := sys_unit (sys_unlink path).
Definition mm_link (oldpath newpath : cstr) : M Z := sys_unit (sys_link oldpath newpath).
Definition mm_symlink (oldpath newpath : cstr) : M Z := sys_unit (sys_symlink oldpath newpath).
Definition mm_chdir (path : cstr) : M Z := sys_unit (sys_chdir path).
Definition mm_rmdir (path : cstr) : M Z := sys_unit (sys_rmdir path).

(** The value returned: 0, an error number or -1. *)
Inductive access_result := AccessOk | AccessErr (e : errcode) | AccessFailed.

Definition mm_check_access (path : cstr) (amode : Z) : M access_result :=
  prev_error ← st_gets px_errno;
  ret ← sys (sys_access path amode);
  match ret with
  | Some _ => mret AccessOk
  | None =>
      errnum ← st_gets px_errno;
      if bool_decide (errnum = E_ACCES) || bool_decide (errnum = E_NOENT)
      then set_errno prev_error;; mret (AccessErr errnum)
      else _ ← raise_from_errno; mret AccessFailed
  end.

Definition mm_getcwd (size : option nat) : M (option cstr) :=
  path ← sys (sys_getcwd size);
  match path with
  | Some p => mret (Some p)
  | None =>
      e ← st_gets px_errno;
      (if bool_decide (e = E_RANGE) then _ ← raise E_RANGE; mret None else _ ← raise_from_errno; mret None)
  end.

Definition mm_fstat (fd : Z) : M (option stat) :=
  r ← sys (sys_fstat fd);
  match r with None => _ ← raise_from_errno; mret None | Some s => mret (Some (conv_native_to_mm_stat s)) end.

Definition mm_stat (path : cstr) (flags : Z) : M (option stat) :=
  r ← sys (if has flags MM_NOFOLLOW then sys_lstat path else sys_stat path);
  match r with None => _ ← raise_from_errno; mret None | Some s => mret (Some (conv_native_to_mm_stat s)) end.

Definition mm_futimens (fd : Z) (ts : option ((Z * Z) * (Z * Z))) : M Z := sys_unit (sys_futimens fd ts).

Definition mm_utimens (path : cstr) (ts : option ((Z * Z) * (Z * Z))) (flags : Z) : M Z :=
  if has flags (Z.lnot MM_NOFOLLOW) then raise E_INVAL
  else
    let uflags := if has flags MM_NOFOLLOW then AT_SYMLINK_NOFOLLOW else 0 in
    sys_unit (sys_utimensat path ts uflags).

(** The string put in the buffer. *)
Definition mm_readlink (path : cstr) (bufsize : nat) : M (option cstr) :=
  r ← sys (sys_readlink path bufsize);
  match r with
  | None => _ ← raise_from_errno; mret None
  | Some s => if (length s =? bufsize)%nat then _ ← raise E_OVERFLOW; mret None else mret (Some s)
  end.

(** ** Removal *)

Definition dt_of_mode (mode : Z) : Z :=
  let t := Z.land mode S_IFMT in
  if t =? S_IFIFO then MM_DT_FIFO
  else if t =? S_IFCHR then MM_DT_CHR
  else if t =? S_IFBLK then MM_DT_BLK
  else if t =? S_IFDIR then MM_DT_DIR
  else if t =? S_IFREG then MM_DT_REG
  else if t =? S_IFLNK then MM_DT_LNK
  else if t =? S_IFSOCK then MM_DT_SOCK
  else MM_DT_UNKNOWN.

(** -1 is the failure of the call. *)
Definition get_file_type (dirfd : Z) (path : cstr) : M Z :=
  r ← sys (sys_fstatat dirfd path AT_SYMLINK_NOFOLLOW);
  mret (match r with None => -1 | Some s => dt_of_mode (st_mode s) end).

Definition RECURSION_MAX : Z := 100.

(** What the loop does of an entry: [false] is the jump to the exit. *)
Definition remove_entry (rec : Z -> M Z) (dirfd flags : Z) (name : cstr) : M bool :=
  type ← get_file_type dirfd name;
  if (0 <? type) && negb (has flags type) then mret true
  else if is_wildcard_directory name then mret true
  else
    let last_unlink : M bool :=
      rv ← sys (sys_unlinkat dirfd name (if type =? MM_DT_DIR then AT_REMOVEDIR else 0));
      mret (negb (bool_decide (rv = None) && has flags MM_FAILONERROR)) in
    if type =? MM_DT_DIR then
      newdirfd ← sys (sys_openat dirfd name O_CLOEXEC);
      match newdirfd with
      | None => mret (negb (has flags MM_FAILONERROR))
      | Some newdirfd =>
          rv ← rec newdirfd;
          if negb (rv =? 0) && has flags MM_FAILONERROR then mret false
          else _ ← sys (sys_unlinkat dirfd name AT_REMOVEDIR); last_unlink
      end
    else last_unlink.

(** The loop on the stream: the value of [exit_value]. *)
Fixpoint remove_loop (rec : Z -> M Z) (fuel : nat) (dir dirfd flags : Z) : M Z :=
  match fuel with
  | O => st_ub
  | S fuel =>
      dp ← sys_pure (sys_readdir dir);
      match dp with
      | None => mret 0
      | Some (name, _) =>
          go ← remove_entry rec dirfd flags name;
          if go : bool then remove_loop rec fuel dir dirfd flags else mret (-1)
      end
  end.

(** [lvl] is [rec_lvl + 1]: 0 is the level -1, where the recursion stops. *)
Fixpoint mm_remove_rec (lvl fuel : nat) (flags dirfd : Z) : M Z :=
  match lvl with
  | O => raise E_OVERFLOW
  | S lvl =>
      dir ← sys (sys_fdopendir dirfd);
      match dir with
      | None => _ ← sys (sys_close dirfd); mret (if has flags MM_FAILONERROR then -1 else 0)
      | Some dir =>
          exit_value ← remove_loop (mm_remove_rec lvl fuel flags) fuel dir dirfd flags;
          sys_pure (fun os => (tt, sys_closedir dir os));;
          mret exit_value
      end
  end.

Definition mm_remove (fuel : nat) (path : cstr) (flags : Z) : M Z :=
  type ← get_file_type AT_FDCWD path;
  if type <? 0 then raise_from_errno
  else if negb (has flags type) then raise E_PERM
  else
    let last : M Z := if type =? MM_DT_DIR then mm_rmdir path else mm_unlink path in
    if has flags MM_RECURSIVE && (type =? MM_DT_DIR) then
      dirfd ← mm_open path O_DIRECTORY 0;
      if dirfd =? -1 then raise_from_errno
      else
        rv ← mm_remove_rec (Z.to_nat (RECURSION_MAX + 1)) fuel flags dirfd;
        if negb (rv =? 0) && negb (has flags MM_FAILONERROR) then raise_from_errno
        else if is_wildcard_directory path then mret rv
        else last
    else last.

(** ** Directory streams *)

(** The record of the entry is kept between the reads, its size [reclen] with it. *)
Record mm_dirent := mk_dirent { reclen : nat; dtyp : Z; dname : cstr }.
Record mm_dirstream := mk_dirstream { ds_dir : Z; ds_dirent : option mm_dirent }.

Definition DIRENT_SIZE : nat := 16.

Definition mm_opendir (path : cstr) : M (option mm_dirstream) :=
  dir ← sys (sys_opendir path);
  match dir with
  | None => _ ← raise_from_errno; mret None
  | Some dir => mret (Some (mk_dirstream dir None))
  end.

Definition mm_closedir (dir : option mm_dirstream) : M unit :=
  match dir with None => mret tt | Some d => sys_pure (fun os => (tt, sys_closedir (ds_dir d) os)) end.

Definition mm_rewinddir (dir : option mm_dirstream) : M unit :=
  match dir with
  | None => _ ← raise E_INVAL; mret tt
  | Some d => sys_pure (fun os => (tt, sys_rewinddir (ds_dir d) os))
  end.

Definition dirent_type (t : dtype) : Z :=
  match t with
  | DT_FIFO => MM_DT_FIFO | DT_CHR => MM_DT_CHR | DT_DIR => MM_DT_DIR | DT_BLK => MM_DT_BLK | DT_REG => MM_DT_REG
  | DT_LNK => MM_DT_LNK | DT_SOCK => MM_DT_SOCK | DT_UNKNOWN => MM_DT_UNKNOWN
  end.

(** The stream, and the value of [status] with the entry: a name that does not fit the
    record is undefined behaviour. *)
Definition mm_readdir (d : option mm_dirstream) : M (option mm_dirstream * Z * option mm_dirent) :=
  match d with
  | None => _ ← raise E_INVAL; mret (None, -1, None)
  | Some d =>
      rd ← sys_pure (sys_readdir (ds_dir d));
      match rd with
      | None => mret (Some d, 0, None)
      | Some (name, t) =>
          let namelen := (length name + 1)%nat in
          let len := (DIRENT_SIZE + namelen)%nat in
          let size := match ds_dirent d with
                      | Some e => if (reclen e <? len)%nat then len else reclen e
                      | None => len
                      end in
          if (size - DIRENT_SIZE <? namelen)%nat then st_ub
          else
            let e := mk_dirent size (dirent_type t) name in
            mret (Some (mk_dirstream (ds_dir d) (Some e)), 0, Some e)
      end
  end.

(** ** Copies *)

Definition clone_fd_fallback (fuel : nat) (fd_in fd_out : Z) : M bool :=
  copy_loop (mm_read fd_in (Z.to_nat COPYBUFFER_SIZE)) (mm_write fd_out) fuel.

(** The loop on [copy_file_range]: [None] is its failure. *)
Fixpoint cow_loop (fuel : nat) (fd_in fd_out : Z) (written : nat) : M (option nat) :=
  match fuel with
  | O => st_ub
  | S fuel =>
      rsz ← sys (sys_copy_file_range fd_in fd_out);
      match rsz with
      | None => mret None
      | Some O => mret (Some written)
      | Some n => cow_loop fuel fd_in fd_out (written + n)
      end
  end.

Definition clone_fd_try_cow (fuel : nat) (fd_in fd_out : Z) : M bool :=
  prev_errno ← st_gets px_errno;
  r ← cow_loop fuel fd_in fd_out 0;
  match r with
  | None =>
      err ← st_gets px_errno;
      if bool_decide (err = E_NOSYS) || bool_decide (err = E_XDEV)
      then set_errno prev_errno;; clone_fd_fallback fuel fd_in fd_out
      else _ ← raise_from_errno; mret false
  | Some written => if (written =? 0)%nat then clone_fd_fallback fuel fd_in fd_out else mret true
  end.

Definition clone_fd_force_cow (fd_in fd_out : Z) : M bool :=
  r ← sys (sys_ficlone fd_in fd_out);
  match r with None => _ ← raise_from_errno; mret false | Some _ => mret true end.

Definition copy_symlink (src dst : cstr) : M bool :=
  buf ← sys (sys_lstat src);
  match buf with
  | None => _ ← raise_from_errno; mret false
  | Some buf =>
      let tgt_sz := Z.to_nat (st_size buf + 1) in
      target ← mm_readlink src tgt_sz;
      match target with
      | None => mret false
      | Some target => rv ← mm_symlink target dst; mret (rv =? 0)
      end
  end.

Definition clone_srcfd (fuel : nat) (fd_in : Z) (dst : cstr) (flags mode : Z) : M bool :=
  fd_out ← mm_open dst (Z.lor O_WRONLY (Z.lor O_CREAT O_EXCL)) mode;
  if fd_out =? -1 then mret false
  else
    let cow := Z.land flags (Z.land MM_NOCOW MM_FORCECOW) in
    rv ← (if cow =? MM_FORCECOW then clone_fd_force_cow fd_in fd_out
          else if cow =? MM_NOCOW then clone_fd_fallback fuel fd_in fd_out
          else clone_fd_try_cow fuel fd_in fd_out);
    (if rv : bool then mret tt
     else saved_errno ← st_gets px_errno;
          _ ← sys (sys_unlink dst);
          set_errno saved_errno);;
    (_ ← mm_close fd_out; mret rv).

Definition copy_internal (fuel : nat) (src dst : cstr) (flags mode : Z) : M bool :=
  prev_err ← st_gets px_errno;
  let src_oflags := Z.lor O_RDONLY (if has flags MM_NOFOLLOW then O_NOFOLLOW else 0) in
  fd_in ← sys (sys_open src src_oflags 0);
  match fd_in with
  | None =>
      err ← st_gets px_errno;
      if has flags MM_NOFOLLOW && bool_decide (err = E_LOOP) then set_errno prev_err;; copy_symlink src dst
      else _ ← raise_from_errno; mret false
  | Some fd_in =>
      rv ← clone_srcfd fuel fd_in dst flags mode;
      _ ← mm_close fd_in; mret rv
  end.

(** ** Directories *)

Definition internal_mkdir (path : cstr) (mode : Z) (report_recursive : bool) : M mkdir_result :=
  rv ← sys (sys_mkdir path (filter_mode_flags mode));
  match rv with
  | Some _ => mret MkDone
  | None =>
      err ← st_gets px_errno;
      if report_recursive && (bool_decide (err = E_EXIST) || bool_decide (err = E_NOENT)) then mret (MkCode err)
      else _ ← raise_from_errno; mret MkFailed
  end.

End FilePosix.

Arguments px_world : clear implicits.

(** The platform of [file.c]. *)
#[export] Instance posix_platform {OS} `{!PosixFile OS} (fuel : nat) : FilePlatform (px_world OS) := {
  File.internal_mkdir := internal_mkdir;
  File.copy_internal := copy_internal fuel;
  raise_file_error e := _ ← raise e; mret tt
}.

Abbreviation is_path_separator_posix := (is_path_separator false).
Abbreviation mm_mkdir_posix fuel := (mm_mkdir (FilePlatform0 := posix_platform fuel) false fuel).
Abbreviation mm_copy_posix fuel := (mm_copy (FilePlatform0 := posix_platform fuel)).

(** ** What a copy makes *)

Inductive node := Regular (content : cstr) | Link (target : cstr).

(** [fs]: the files by their paths; [ofds]: the open files with their offsets.  Any call may fail. *)
Class CopyLaws (OS : Type) `{!PosixFile OS} (fs : OS -> gmap cstr node) (ofds : OS -> gmap Z (cstr * nat)) : Prop := {
  law_open_read path flags mode os c :
    fs os !! path = Some (Regular c) -> Z.land flags (Z.lor O_CREAT (Z.lor O_EXCL O_WRONLY)) = 0 ->
    match sys_open path flags mode os with
    | (inl e, os') => e <> E_LOOP /\ fs os' = fs os /\ ofds os' = ofds os
    | (inr fd, os') => 0 <= fd /\ ofds os !! fd = None /\ fs os' = fs os /\ ofds os' = <[fd := (path, 0%nat)]> (ofds os)
    end;
  law_open_link path flags mode os t :
    fs os !! path = Some (Link t) -> has flags O_NOFOLLOW = true ->
    exists e os', sys_open path flags mode os = (inl e, os') /\ fs os' = fs os /\ ofds os' = ofds os;
  law_open_excl path flags mode os :
    Z.land flags (Z.lor O_CREAT O_EXCL) = Z.lor O_CREAT O_EXCL ->
    match sys_open path flags mode os with
    | (inl _, os') => fs os' = fs os /\ ofds os' = ofds os
    | (inr fd, os') => 0 <= fd /\ ofds os !! fd = None /\ fs os !! path = None /\
                       fs os' = <[path := Regular []]> (fs os) /\ ofds os' = <[fd := (path, 0%nat)]> (ofds os)
    end;
  law_read fd n os p off c :
    ofds os !! fd = Some (p, off) -> fs os !! p = Some (Regular c) -> (0 < n)%nat ->
    match sys_read fd n os with
    | (inl _, os') => fs os' = fs os /\ ofds os' = ofds os
    | (inr buf, os') => buf = take (length buf) (drop off c) /\ (buf = [] -> drop off c = []) /\
                        fs os' = fs os /\ ofds os' = <[fd := (p, (off + length buf)%nat)]> (ofds os)
    end;
  law_append fd buf os q d :
    ofds os !! fd = Some (q, length d) -> fs os !! q = Some (Regular d) -> buf <> [] ->
    match sys_write fd buf os with
    | (inl _, os') => fs os' = fs os /\ ofds os' = ofds os
    | (inr n, os') => (0 < n <= length buf)%nat /\ fs os' = <[q := Regular (d ++ take n buf)]> (fs os) /\
                      ofds os' = <[fd := (q, (length d + n)%nat)]> (ofds os)
    end;
  (* 0 is the end of the file, or the answer of a file system that cannot *)
  law_copy_range fd_in fd_out os p off c q d :
    ofds os !! fd_in = Some (p, off) -> fs os !! p = Some (Regular c) ->
    ofds os !! fd_out = Some (q, length d) -> fs os !! q = Some (Regular d) -> p <> q -> fd_in <> fd_out ->
    match sys_copy_file_range fd_in fd_out os with
    | (inl _, os') => fs os' = fs os /\ ofds os' = ofds os
    | (inr n, os') => (n <= length (drop off c))%nat /\ (n = 0%nat -> d <> [] -> drop off c = []) /\
        fs os' = <[q := Regular (d ++ take n (drop off c))]> (fs os) /\
        ofds os' = <[fd_in := (p, (off + n)%nat)]> (<[fd_out := (q, (length d + n)%nat)]> (ofds os))
    end;
  law_close fd os : fs (sys_close fd os).2 = fs os /\ ofds (sys_close fd os).2 = delete fd (ofds os);
  law_unlink path os :
    match sys_unlink path os with
    | (inl _, os') => fs os' = fs os /\ ofds os' = ofds os
    | (inr _, os') => fs os' = delete path (fs os) /\ ofds os' = ofds os
    end;
  law_lstat path os t :
    fs os !! path = Some (Link t) -> fs (sys_lstat path os).2 = fs os /\ ofds (sys_lstat path os).2 = ofds os /\
    forall s, (sys_lstat path os).1 = inr s -> st_size s = Z.of_nat (length t);
  law_readlink path n os t :
    fs os !! path = Some (Link t) -> fs (sys_readlink path n os).2 = fs os /\ ofds (sys_readlink path n os).2 = ofds os /\
    forall s, (sys_readlink path n os).1 = inr s -> s = take n t;
  law_symlink target path os :
    match sys_symlink target path os with
    | (inl _, os') => fs os' = fs os /\ ofds os' = ofds os
    | (inr _, os') => fs os !! path = None /\ fs os' = <[path := Link target]> (fs os) /\ ofds os' = ofds os
    end
}.

Section Copies.

Context {OS : Type} `{!PosixFile OS} (fs : OS -> gmap cstr node) (ofds : OS -> gmap Z (cstr * nat)) `{!CopyLaws OS fs ofds}.

Abbreviation files w := (fs (px_os w)).
Abbreviation fds w := (ofds (px_os w)).

Lemma sys_spec {A} (f : OS -> (errcode + A) * OS) (w : px_world OS) :
  exists w', sys f w = Some (match (f (px_os w)).1 with inl _ => None | inr a => Some a end, w') /\ px_os w' = (f (px_os w)).2.
Proof. unfold sys. destruct (f (px_os w)) as [[e|a] os]; cbn; by eexists. Qed.

Lemma raise_spec e (w : px_world OS) : exists w', raise e w = Some (-1, w') /\ px_os w' = px_os w.
Proof. by eexists. Qed.

Lemma raise_errno_spec (w : px_world OS) : exists w', raise_from_errno w = Some (-1, w') /\ px_os w' = px_os w.
Proof. by eexists. Qed.

(** The two descriptors during the copy: [c] is the content of the source [p]; [F] the files but [q], [G] the other descriptors. *)
Record copying (fd_in fd_out : Z) (p q c : cstr) (F : gmap cstr node) (G : gmap Z (cstr * nat)) (w : px_world OS) : Prop := {
  cp_files : exists d, files w = <[q := Regular d]> F /\ fds w !! fd_out = Some (q, length d);
  cp_in : exists off, fds w !! fd_in = Some (p, off) /\ (off <= length c)%nat;
  cp_rest : delete fd_in (delete fd_out (fds w)) = G
}.

Definition rest_of (fd_in : Z) (c : cstr) (w : px_world OS) : cstr :=
  match fds w !! fd_in with Some (_, off) => drop off c | None => [] end.
Definition content_of (q : cstr) (w : px_world OS) : cstr :=
  match files w !! q with Some (Regular d) => d | _ => [] end.

Section Streams.

Context (fd_in fd_out : Z) (p q c : cstr) (F : gmap cstr node) (G : gmap Z (cstr * nat)).
Context (Hpq : p <> q) (Hfd : fd_in <> fd_out) (Hp : F !! p = Some (Regular c)).

Abbreviation inv := (copying fd_in fd_out p q c F G).

Lemma copying_src w : inv w -> files w !! p = Some (Regular c).
Proof. intros [(d & -> & _) _ _]. by rewrite lookup_insert_ne. Qed.

(** The descriptors after the offset of one of the two has changed. *)
Lemma copying_fds (m : gmap Z (cstr * nat)) x fd : fd = fd_in \/ fd = fd_out ->
  delete fd_in (delete fd_out (<[fd := x]> m)) = delete fd_in (delete fd_out m).
Proof.
  intros [-> | ->]; [|by rewrite delete_insert_eq]. by rewrite delete_insert_ne, delete_insert_eq by done.
Qed.

#[local] Instance copy_streams : Streams (mm_read fd_in (Z.to_nat COPYBUFFER_SIZE)) (mm_write fd_out) inv (rest_of fd_in c) (content_of q).
Proof.
  split.
  - intros w Hi. pose proof (copying_src w Hi) as Hsrc. destruct Hi as [(d & Hf & Ho) (off & Hin & Hle) HG].
    unfold mm_read. destruct (sys_spec (sys_read fd_in (Z.to_nat COPYBUFFER_SIZE)) w) as (w1 & H1 & Hos).
    pose proof (law_read fd_in (Z.to_nat COPYBUFFER_SIZE) (px_os w) p off c Hin Hsrc ltac:(unfold COPYBUFFER_SIZE; lia)) as L.
    rewrite (st_bind_Some _ _ _ _ _ H1). clear H1. destruct (sys_read fd_in _ (px_os w)) as [[e|buf] os]; cbn in *; subst os.
    + destruct L as [L1 L2]. destruct (raise_errno_spec w1) as (w2 & H2 & Hos2). rewrite (st_bind_Some _ _ _ _ _ H2).
      do 2 eexists. split; [reflexivity|]. unfold content_of, rest_of. rewrite Hos2, L1, L2. split_and!; try done.
      split; rewrite ?Hos2, ?L1, ?L2; eauto.
    + destruct L as (Lb & Le & L1 & L2). do 2 eexists. split; [reflexivity|].
      assert (Hl : (off + length buf <= length c)%nat).
      { rewrite Lb, length_take, length_drop. lia. }
      unfold content_of, rest_of. rewrite L1, L2, lookup_insert_eq, Hin. split_and!; try done.
      * split; rewrite ?L1, ?L2.
        -- exists d. by rewrite lookup_insert_ne.
        -- rewrite lookup_insert_eq. eauto.
        -- rewrite <- HG. apply copying_fds. by left.
      * rewrite <- drop_drop. rewrite Lb at 1. by rewrite take_drop.
  - intros w buf Hi Hb. pose proof Hi as [(d & Hf & Ho) (off & Hin & Hle) HG].
    unfold mm_write. destruct (sys_spec (sys_write fd_out buf) w) as (w1 & H1 & Hos).
    pose proof (law_append fd_out buf (px_os w) q d Ho ltac:(by rewrite Hf, lookup_insert_eq) Hb) as L.
    rewrite (st_bind_Some _ _ _ _ _ H1). clear H1. destruct (sys_write fd_out buf (px_os w)) as [[e|n] os]; cbn in *; subst os.
    + destruct L as [L1 L2]. destruct (raise_errno_spec w1) as (w2 & H2 & Hos2). rewrite (st_bind_Some _ _ _ _ _ H2).
      do 2 eexists. split; [reflexivity|]. unfold content_of, rest_of. rewrite Hos2, L1, L2. split_and!; try done.
      split; rewrite ?Hos2, ?L1, ?L2; eauto.
    + destruct L as (Hn & L1 & L2). do 2 eexists. split; [reflexivity|].
      unfold content_of, rest_of. rewrite L1, L2, Hf, !lookup_insert_eq, lookup_insert_ne by done. split_and!; try done; try lia.
      split; rewrite ?L1, ?L2.
      * exists (d ++ take n buf). rewrite Hf, insert_insert_eq, lookup_insert_eq. split; [done|].
        rewrite length_app, length_take. repeat f_equal. lia.
      * rewrite lookup_insert_ne by done. eauto.
      * rewrite <- HG. apply copying_fds. by right.
Qed.

(** What a copy does to a state of the copy. *)
Definition copied (w w' : px_world OS) (ok : bool) : Prop :=
  inv w' /\ exists k, content_of q w' = content_of q w ++ take k (rest_of fd_in c w) /\
    (ok = true -> (length (rest_of fd_in c w) <= k)%nat).

Lemma fallback_copies fuel w : inv w -> (length (rest_of fd_in c w) < fuel)%nat ->
  exists ok w', clone_fd_fallback fuel fd_in fd_out w = Some (ok, w') /\ copied w w' ok.
Proof.
  intros Hi Hf. destruct (copy_loop_spec _ _ inv (rest_of fd_in c) (content_of q) fuel w Hi Hf) as (ok & w' & H & Hi' & k & Hk & Hok).
  exists ok, w'. split; [done|]. split; [done|]. exists k. split; [done|]. intros E. by destruct (Hok E).
Qed.

(** The loop on [copy_file_range]: what is not copied yet remains to be read. *)
Lemma cow_loop_spec fuel w :
  inv w -> (length (rest_of fd_in c w) < fuel)%nat ->
  exists r w', cow_loop fuel fd_in fd_out (length (content_of q w)) w = Some (r, w') /\ inv w' /\
    (exists k, (k <= length (rest_of fd_in c w))%nat /\ content_of q w' = content_of q w ++ take k (rest_of fd_in c w) /\
      rest_of fd_in c w' = drop k (rest_of fd_in c w)) /\
    forall n, r = Some n -> n = length (content_of q w') /\ (content_of q w' <> [] -> rest_of fd_in c w' = []).
Proof.
  revert w. induction fuel as [|fuel IH]; intros w Hi Hf; [lia|]. cbn [cow_loop].
  pose proof (copying_src w Hi) as Hsrc. pose proof Hi as [(d & Hfl & Ho) (off & Hin & Hle) HG].
  destruct (sys_spec (sys_copy_file_range fd_in fd_out) w) as (w1 & H1 & Hos).
  pose proof (law_copy_range fd_in fd_out (px_os w) p off c q d Hin Hsrc Ho ltac:(by rewrite Hfl, lookup_insert_eq) Hpq Hfd) as L.
  rewrite (st_bind_Some _ _ _ _ _ H1). clear H1. destruct (sys_copy_file_range fd_in fd_out (px_os w)) as [[e|n] os]; cbn in *; subst os.
  { destruct L as [L1 L2]. exists None, w1. split; [done|]. split.
    { split; rewrite ?L1, ?L2; eauto. }
    split; [|done]. exists 0%nat. unfold content_of, rest_of. rewrite L1, L2. cbn. rewrite app_nil_r. split_and!; [lia|done|done]. }
  destruct L as (Hn & Hz & L1 & L2).
  assert (E1 : content_of q w = d) by (unfold content_of; by rewrite Hfl, lookup_insert_eq).
  assert (E2 : rest_of fd_in c w = drop off c) by (unfold rest_of; by rewrite Hin).
  assert (E3 : content_of q w1 = d ++ take n (drop off c)) by (unfold content_of; by rewrite L1, lookup_insert_eq).
  assert (E4 : rest_of fd_in c w1 = drop n (drop off c)) by (unfold rest_of; by rewrite L2, lookup_insert_eq, drop_drop).
  assert (Hi1 : inv w1).
  { split; rewrite ?L1, ?L2.
    - exists (d ++ take n (drop off c)). rewrite Hfl, insert_insert_eq, lookup_insert_ne, lookup_insert_eq by done. split; [done|].
      rewrite length_app, length_take. repeat f_equal. lia.
    - rewrite lookup_insert_eq. eexists. split; [done|]. rewrite length_drop in Hn. lia.
    - rewrite !copying_fds by (by left + by right). done. }
  rewrite E1, E2 in *. destruct n as [|n].
  { exists (Some (length d)), w1. split; [done|]. split; [done|]. split.
    - exists 0%nat. rewrite E3, E4. cbn. rewrite app_nil_r. split_and!; [lia|done|done].
    - intros m [= <-]. rewrite E3, E4. cbn. rewrite app_nil_r. split; [done|]. intros Hd. by apply Hz. }
  destruct (IH w1 Hi1) as (r & w2 & H2 & Hi2 & (k & Hk & Hc & Hr) & Hres); [rewrite E4, length_drop; lia|].
  rewrite E3, length_app, length_take, Nat.min_l in H2 by lia. exists r, w2. split; [done|]. split; [done|]. split; [|done].
  rewrite E3, E4 in *. exists (S n + k)%nat. rewrite length_drop in Hk. split; [lia|]. split.
  - rewrite Hc, <- app_assoc. f_equal. apply take_take_drop.
  - by rewrite Hr, drop_drop.
Qed.

Lemma try_cow_copies fuel w : inv w -> content_of q w = [] -> (length (rest_of fd_in c w) < fuel)%nat ->
  exists ok w', clone_fd_try_cow fuel fd_in fd_out w = Some (ok, w') /\ copied w w' ok.
Proof.
  intros Hi He Hf. unfold clone_fd_try_cow. rewrite (st_bind_Some _ _ w (px_errno w) w) by done.
  destruct (cow_loop_spec fuel w Hi Hf) as (r & w1 & H1 & Hi1 & (k & Hk & Hc & Hr) & Hres). rewrite He in H1, Hc. cbn in H1, Hc.
  rewrite (st_bind_Some _ _ _ _ _ H1).
  assert (Hfall : forall w2, px_os w2 = px_os w1 -> exists ok w', clone_fd_fallback fuel fd_in fd_out w2 = Some (ok, w') /\ copied w w' ok).
  { intros w2 E. assert (Hi2 : inv w2) by (destruct Hi1 as [X Y Z]; split; by rewrite E).
    assert (E1 : rest_of fd_in c w2 = rest_of fd_in c w1) by (unfold rest_of; by rewrite E).
    assert (E2 : content_of q w2 = content_of q w1) by (unfold content_of; by rewrite E).
    destruct (fallback_copies fuel w2 Hi2) as (ok & w' & H & Hi' & k' & Hk' & Hok); [rewrite E1, Hr, length_drop; lia|].
    exists ok, w'. split; [done|]. split; [done|]. exists (k + k')%nat. split.
    - rewrite Hk', E1, E2, Hc, He, Hr. cbn. by rewrite take_take_drop.
    - intros E'. specialize (Hok E'). rewrite E1, Hr, length_drop in Hok. lia. }
  destruct r as [written|].
  - destruct (Hres written eq_refl) as [Hw Hend]. destruct written as [|m]; [apply Hfall; done|]. cbn [Nat.eqb].
    exists true, w1. split; [done|]. split; [done|]. exists k. rewrite He. split; [done|]. intros _.
    assert (Hnil : rest_of fd_in c w1 = []) by (apply Hend; intros E; rewrite E in Hw; done).
    rewrite Hr in Hnil. apply (f_equal length) in Hnil. rewrite length_drop in Hnil. cbn in Hnil. lia.
  - rewrite (st_bind_Some _ _ w1 (px_errno w1) w1) by done. destruct (_ || _).
    + eapply (Hfall (mk_px (px_os w1) (px_errno w) (px_error w1))). done.
    + destruct (raise_errno_spec w1) as (w2 & H2 & Hos). rewrite (st_bind_Some _ _ _ _ _ H2).
      exists false, w2. split; [done|]. split; [destruct Hi1 as [X Y Z]; split; by rewrite Hos|]. exists k.
      unfold content_of in *. rewrite Hos, Hc, He. by split.
Qed.

End Streams.

(** ** The whole copy *)

(** The node made from [n]: a part of the content after a failure, if what was created could not be removed. *)
Definition copy_outcome (n : node) (dst : cstr) (before after : gmap cstr node) (ok : bool) : Prop :=
  if ok then before !! dst = None /\ after = <[dst := n]> before
  else after = before \/
       before !! dst = None /\ exists c k, n = Regular c /\ after = <[dst := Regular (take k c)]> before.

Lemma cow_flags flags : Z.land flags (Z.land MM_NOCOW MM_FORCECOW) = 0.
Proof. change (Z.land MM_NOCOW MM_FORCECOW) with 0. apply Z.land_0_r. Qed.

Lemma close_spec fd w : fd <> -1 -> exists r w', mm_close fd w = Some (r, w') /\ files w' = files w /\ fds w' = delete fd (fds w).
Proof.
  intros Hfd. unfold mm_close. rewrite (proj2 (Z.eqb_neq _ _)) by done. unfold sys_unit, sys_or_raise.
  destruct (sys_spec (sys_close fd) w) as (w1 & H1 & Hos). rewrite (st_bind_Some _ _ _ _ _ H1).
  destruct (law_close fd (px_os w)) as [L1 L2]. rewrite <- Hos in L1, L2. clear H1. destruct (sys_close fd (px_os w)).1.
  - destruct (raise_errno_spec w1) as (w2 & H2 & Hos2). rewrite H2. do 2 eexists. split; [reflexivity|]. by rewrite Hos2.
  - do 2 eexists. by split.
Qed.

Lemma open_excl_spec dst mode w :
  exists r w', mm_open dst (Z.lor O_WRONLY (Z.lor O_CREAT O_EXCL)) mode w = Some (r, w') /\
    ((r = -1 /\ files w' = files w /\ fds w' = fds w) \/
     (0 <= r /\ fds w !! r = None /\ files w !! dst = None /\ files w' = <[dst := Regular []]> (files w) /\
      fds w' = <[r := (dst, 0%nat)]> (fds w))).
Proof.
  unfold mm_open, sys_or_raise. set (flags := Z.lor _ O_CLOEXEC).
  destruct (sys_spec (sys_open dst flags (filter_mode_flags mode)) w) as (w1 & H1 & Hos). rewrite (st_bind_Some _ _ _ _ _ H1).
  pose proof (law_open_excl dst flags (filter_mode_flags mode) (px_os w) eq_refl) as L. clear H1.
  destruct (sys_open dst flags (filter_mode_flags mode) (px_os w)) as [[e|fd] os]; cbn in *; subst os.
  - destruct (raise_errno_spec w1) as (w2 & H2 & Hos2). exists (-1), w2. split; [done|]. left. by rewrite Hos2.
  - exists fd, w1. split; [done|]. right. naive_solver.
Qed.

Lemma clone_srcfd_spec fuel fd_in src dst flags mode c w :
  fds w !! fd_in = Some (src, 0%nat) -> files w !! src = Some (Regular c) -> (length c < fuel)%nat ->
  exists ok w', clone_srcfd fuel fd_in dst flags mode w = Some (ok, w') /\
    delete fd_in (fds w') = delete fd_in (fds w) /\ copy_outcome (Regular c) dst (files w) (files w') ok.
Proof.
  intros Hin Hsrc Hf. unfold clone_srcfd. destruct (open_excl_spec dst mode w) as (r & w1 & H1 & Hr).
  rewrite (st_bind_Some _ _ _ _ _ H1). destruct Hr as [(-> & E1 & E2)|(Hr & Hfresh & Hnew & E1 & E2)].
  { exists false, w1. split; [done|]. rewrite E1, E2. split; [done|]. by left. }
  rewrite (proj2 (Z.eqb_neq r (-1))) by lia. rewrite cow_flags. cbn [Z.eqb]. change (0 =? MM_FORCECOW) with false.
  change (0 =? MM_NOCOW) with false. cbn iota.
  assert (Hpq : src <> dst) by congruence. assert (Hfd : fd_in <> r) by congruence.
  assert (Hi : copying fd_in r src dst c (files w) (delete fd_in (fds w)) w1).
  { split; rewrite ?E1, ?E2.
    - exists []. by rewrite lookup_insert_eq.
    - rewrite lookup_insert_ne by done. exists 0%nat. split; [done|lia].
    - by rewrite delete_insert_id. }
  destruct (try_cow_copies fd_in r src dst c _ _ Hpq Hfd Hsrc fuel w1 Hi) as (ok & w2 & H2 & Hi2 & k & Hk & Hok).
  { unfold content_of. by rewrite E1, lookup_insert_eq. }
  { unfold rest_of. by rewrite E2, lookup_insert_ne, Hin by done. }
  rewrite (st_bind_Some _ _ _ _ _ H2).
  assert (Hfin : exists w3, (if ok then mret tt else saved_errno ← st_gets px_errno; _ ← sys (sys_unlink dst); set_errno saved_errno) w2 = Some (tt, w3)
      /\ fds w3 = fds w2 /\ copy_outcome (Regular c) dst (files w) (files w3) ok).
  { destruct Hi2 as [(d & Hd & _) _ _].
    assert (Ec : d = take k c).
    { unfold content_of, rest_of in Hk. rewrite Hd, E1, E2, !lookup_insert_eq, lookup_insert_ne, Hin in Hk by done. done. }
    subst d. destruct ok.
    - exists w2. split_and!; [done|done|]. split; [done|]. rewrite Hd. do 2 f_equal. apply take_ge.
      specialize (Hok eq_refl). unfold rest_of in Hok. by rewrite E2, lookup_insert_ne, Hin in Hok by done.
    - rewrite (st_bind_Some _ _ w2 (px_errno w2) w2) by done.
      destruct (sys_spec (sys_unlink dst) w2) as (w3 & H3 & Hos3). rewrite (st_bind_Some _ _ _ _ _ H3).
      pose proof (law_unlink dst (px_os w2)) as L. clear H3. destruct (sys_unlink dst (px_os w2)) as [[e|[]] os]; cbn in Hos3; subst os.
      + destruct L as [L1 L2]. eexists. split; [reflexivity|]. split; [done|]. cbn. rewrite L1, Hd. right. eauto.
      + destruct L as [L1 L2]. eexists. split; [reflexivity|]. split; [done|]. cbn. rewrite L1, Hd, delete_insert_id by done. by left. }
  destruct Hfin as (w3 & H3 & Hfds & Hout). rewrite (st_bind_Some _ _ _ _ _ H3).
  destruct (close_spec r w3) as (rc & w4 & H4 & Ef & Ed); [lia|]. rewrite (st_bind_Some _ _ _ _ _ H4).
  exists ok, w4. split; [done|]. rewrite Ef, Ed, Hfds. split; [|done]. by destruct Hi2.
Qed.

Lemma copy_symlink_spec src dst t w :
  files w !! src = Some (Link t) ->
  exists ok w', copy_symlink src dst w = Some (ok, w') /\ fds w' = fds w /\ copy_outcome (Link t) dst (files w) (files w') ok.
Proof.
  intros Hsrc. unfold copy_symlink. destruct (sys_spec (sys_lstat src) w) as (w1 & H1 & Hos).
  destruct (law_lstat src (px_os w) t Hsrc) as (L1 & L2 & L3). rewrite <- Hos in L1, L2. rewrite (st_bind_Some _ _ _ _ _ H1). clear H1.
  destruct (sys_lstat src (px_os w)).1 as [e|st].
  { destruct (raise_errno_spec w1) as (w2 & H2 & Hos2). rewrite (st_bind_Some _ _ _ _ _ H2). exists false, w2.
    rewrite Hos2, L1, L2. split_and!; [done|done|by left]. }
  rewrite (L3 st eq_refl). replace (Z.to_nat (Z.of_nat (length t) + 1)) with (length t + 1)%nat by lia.
  unfold mm_readlink. destruct (sys_spec (sys_readlink src (length t + 1)) w1) as (w2 & H2 & Hos2).
  destruct (law_readlink src (length t + 1) (px_os w1) t) as (M1 & M2 & M3); [by rewrite L1|]. rewrite <- Hos2 in M1, M2.
  unfold mbind, st_bind. rewrite H2. clear H2. destruct (sys_readlink src (length t + 1) (px_os w1)).1 as [e|s].
  { destruct (raise_errno_spec w2) as (w3 & H3 & Hos3). rewrite H3. exists false, w3.
    rewrite Hos3, M1, M2, L1, L2. split_and!; [done|done|by left]. }
  rewrite (M3 s eq_refl), take_ge by lia. rewrite (proj2 (Nat.eqb_neq _ _)) by lia. cbn.
  unfold mm_symlink, sys_unit, sys_or_raise. destruct (sys_spec (sys_symlink t dst) w2) as (w3 & H3 & Hos3).
  unfold mbind, st_bind. rewrite H3. clear H3. pose proof (law_symlink t dst (px_os w2)) as L.
  destruct (sys_symlink t dst (px_os w2)) as [[e|[]] os]; cbn in *; subst os.
  - destruct L as [N1 N2]. exists false. eexists. split; [reflexivity|]. cbn. rewrite N1, N2, M1, M2, L1, L2. split; [done|by left].
  - destruct L as (N0 & N1 & N2). exists true, w3. split; [done|]. rewrite N1, N2, M1, M2, L1, L2. rewrite M1, L1 in N0. done.
Qed.

Lemma open_read_flags (b : bool) :
  Z.land (Z.lor O_RDONLY (if b then O_NOFOLLOW else 0)) (Z.lor O_CREAT (Z.lor O_EXCL O_WRONLY)) = 0.
Proof. by destruct b. Qed.

(** C23. [mm_copy] of a regular file, or of a link that is not followed, ends; in case of success the
    new file has the content of the source, and nothing else has changed; in case of
    failure nothing has changed, or a part of the copy is left when it could not be removed.
    No descriptor is left open.  Whatever the flags ask, a copy on write is tried, and the copy by reads
    and writes completes it. *)
Theorem mm_copy_copies (fuel : nat) (src dst : cstr) (flags mode : Z) (n : node) (w : px_world OS) :
  files w !! src = Some n ->
  match n with Regular c => (length c < fuel)%nat | Link _ => has flags MM_NOFOLLOW = true end ->
  exists ok w', mm_copy_posix fuel src dst flags mode w = Some (ok, w') /\ fds w' = fds w /\
    copy_outcome n dst (files w) (files w') ok.
Proof.
  intros Hsrc Hn. unfold mm_copy. destruct (negb _).
  { exists false. eexists. split; [reflexivity|]. split; [done|by left]. }
  destruct (_ && _). { exists false. eexists. split; [reflexivity|]. split; [done|by left]. }
  cbn [File.copy_internal posix_platform]. unfold copy_internal. rewrite (st_bind_Some _ _ w (px_errno w) w) by done.
  set (oflags := Z.lor O_RDONLY _). destruct (sys_spec (sys_open src oflags 0) w) as (w1 & H1 & Hos). rewrite (st_bind_Some _ _ _ _ _ H1).
  destruct n as [c|t].
  - pose proof (law_open_read src oflags 0 (px_os w) c Hsrc (open_read_flags _)) as L. unfold sys in H1.
    destruct (sys_open src oflags 0 (px_os w)) as [[e|fd] os]; cbn in Hos; subst os.
    + destruct L as (He & L1 & L2). injection H1 as H1. cbn [fst]. rewrite (st_bind_Some _ _ w1 e w1) by by rewrite <- H1.
      rewrite (bool_decide_false (e = E_LOOP)), andb_false_r by done.
      eexists false, _. split; [reflexivity|]. cbn. rewrite L1, L2. split; [done|by left].
    + destruct L as (Hfd & Hfresh & L1 & L2). cbn [fst].
      destruct (clone_srcfd_spec fuel fd src dst flags mode c w1) as (ok & w2 & H2 & Ed & Hout); [by rewrite L2, lookup_insert_eq|by rewrite L1|done|].
      rewrite (st_bind_Some _ _ _ _ _ H2). destruct (close_spec fd w2) as (rc & w3 & H3 & Ef & Ed'); [lia|].
      rewrite (st_bind_Some _ _ _ _ _ H3). exists ok, w3. split; [done|]. rewrite Ef, Ed', Ed, L2, delete_insert_id by done. split; [done|]. by rewrite <- L1.
  - destruct (law_open_link src oflags 0 (px_os w) t Hsrc) as (e & os & E & L1 & L2); [unfold oflags; by rewrite Hn|].
    rewrite E in H1, Hos |- *. cbn in Hos. subst os. cbn. unfold mbind at 1, st_bind at 1, st_gets at 1. rewrite Hn. cbn [andb].
    case_bool_decide.
    + edestruct (copy_symlink_spec src dst t) as (ok & w2 & H2 & Ed & Hout); [|unfold mbind, st_bind; cbn; rewrite H2].
      * cbn. by rewrite L1.
      * exists ok, w2. split; [done|]. rewrite Ed. cbn in Hout |- *. rewrite L1 in Hout. by rewrite L2.
    + eexists false, _. split; [reflexivity|]. cbn. rewrite L1, L2. split; [done|by left].
Qed.

End Copies.
