(* ===== verification/RemovePosix.v ===== *)
(** * Recursive removal on POSIX

    What [mm_remove_rec] of [FilePosix] does to a tree of directories, whatever calls fail. *)

From S2P Require Import Prelude CStr Errcode Effects File FilePosix.

(** ** Trees of files *)

(** A file has its type, the bits of [S_IFMT]. *)
Inductive tnode := TDir (entries : gmap cstr Z) | TFile (type : Z).

Abbreviation tree := (gmap Z tnode).

Definition node_mode (n : tnode) : Z := match n with TDir _ => S_IFDIR | TFile t => t end.

(** [flags] has the type, or the type is not known. *)
Definition authorized (flags : Z) (n : tnode) : Prop :=
  has flags (dt_of_mode (node_mode n)) = true \/ dt_of_mode (node_mode n) = MM_DT_UNKNOWN.

(** [m'] is [m] with entries removed: each was authorized, and the directories among them are empty. *)
Definition removable (flags : Z) (m m' : tree) (j : Z) : Prop :=
  exists n, m !! j = Some n /\ authorized flags n /\ match n with TFile _ => True | TDir _ => m' !! j = Some (TDir ∅) end.

Definition pruned (flags : Z) (m m' : tree) : Prop := forall i,
  match m !! i with
  | None => m' !! i = None
  | Some (TFile t) => m' !! i = Some (TFile t)
  | Some (TDir es) => exists es', m' !! i = Some (TDir es') /\ es' ⊆ es /\
                        forall name j, es !! name = Some j -> es' !! name = None -> removable flags m m' j
  end.

(** The directories have no cycle: [rank] decreases.  The names are not "." nor "..". *)
Definition ranked (rank : Z -> nat) (m : tree) : Prop := forall i es, m !! i = Some (TDir es) ->
  forall name j, es !! name = Some j -> (rank j < rank i)%nat /\ is_wildcard_directory name = false /\
    exists n, m !! j = Some n /\ match n with TFile t => Z.land t S_IFMT <> S_IFDIR | TDir _ => True end.

Definition small (fuel : nat) (m : tree) : Prop := forall i es, m !! i = Some (TDir es) -> (size es + 2 < fuel)%nat.

Section Pruned.

Context (flags : Z) (rank : Z -> nat).

Lemma pruned_refl m : pruned flags m m.
Proof.
  intros i. destruct (m !! i) as [[es|t]|]; try done. exists es. split_and!; try done. congruence.
Qed.

Lemma pruned_empty m m' j : pruned flags m m' -> m !! j = Some (TDir ∅) -> m' !! j = Some (TDir ∅).
Proof.
  intros H Hj. specialize (H j). rewrite Hj in H. destruct H as (es & -> & Hs & _). do 2 f_equal.
  apply map_eq. intros k. rewrite lookup_empty. destruct (es !! k) eqn:E; [|done]. by apply (lookup_weaken _ _ _ _ E) in Hs.
Qed.

Lemma pruned_kind m m' j n : pruned flags m m' -> m' !! j = Some n ->
  exists n0, m !! j = Some n0 /\ (authorized flags n <-> authorized flags n0) /\
    match n0, n with TFile t, TFile t' => t = t' | TDir es, TDir es' => es' ⊆ es | _, _ => False end.
Proof.
  intros H Hj. specialize (H j). destruct (m !! j) as [[es|t]|]; [|rewrite Hj in H|congruence].
  - destruct H as (es' & H & Hs & _). rewrite Hj in H. injection H as ->. by exists (TDir es).
  - injection H as ->. by exists (TFile t).
Qed.

Lemma pruned_trans m1 m2 m3 : pruned flags m1 m2 -> pruned flags m2 m3 -> pruned flags m1 m3.
Proof.
  intros H12 H23 i. pose proof (H12 i) as H1. pose proof (H23 i) as H2. destruct (m1 !! i) as [[es|t]|] eqn:E1.
  - destruct H1 as (es2 & E2 & Hs & Hr). rewrite E2 in H2. destruct H2 as (es3 & E3 & Hs3 & Hr3).
    exists es3. split; [done|]. split; [by transitivity es2|]. intros name j Hn Hn3. destruct (es2 !! name) as [j2|] eqn:En2.
    + assert (j2 = j) as -> by (apply (lookup_weaken _ _ _ _ En2) in Hs; congruence).
      destruct (Hr3 name j En2 Hn3) as (n & Hj & Ha & Hd). destruct (pruned_kind _ _ _ _ H12 Hj) as (n0 & Hj0 & Hi & Hm).
      exists n0. split; [done|]. split; [by apply Hi|]. by destruct n0, n.
    + destruct (Hr name j Hn En2) as (n & Hj & Ha & Hd). exists n. split_and!; [done|done|].
      destruct n; [|done]. by eapply pruned_empty.
  - by rewrite H1 in H2.
  - by rewrite H1 in H2.
Qed.

Lemma pruned_ranked m m' : pruned flags m m' -> ranked rank m -> ranked rank m'.
Proof.
  intros Hp Hr i es Hi name j Hn. destruct (pruned_kind _ _ _ _ Hp Hi) as ([es0|t] & Hi0 & _ & Hs); [|done].
  destruct (Hr i es0 Hi0 name j) as (Hk & Hw & n & Hj & Ht); [by eapply lookup_weaken|]. split_and!; try done.
  specialize (Hp j). rewrite Hj in Hp. destruct n as [es1|t]; [destruct Hp as (es' & -> & _)|rewrite Hp]; eauto.
Qed.

Lemma pruned_small fuel m m' : pruned flags m m' -> small fuel m -> small fuel m'.
Proof.
  intros Hp Hs i es Hi. destruct (pruned_kind _ _ _ _ Hp Hi) as ([es0|t] & Hi0 & _ & Hsub); [|done].
  specialize (Hs i es0 Hi0). apply map_subseteq_size in Hsub. lia.
Qed.

(** One entry removed. *)
Lemma pruned_delete m i es name j n :
  m !! i = Some (TDir es) -> es !! name = Some j -> m !! j = Some n -> authorized flags n ->
  match n with TFile _ => True | TDir es' => es' = ∅ end -> i <> j ->
  pruned flags m (<[i := TDir (delete name es)]> m).
Proof.
  intros Hi Hn Hj Ha Hd Hij k. destruct (decide (k = i)) as [->|Hk].
  - rewrite Hi, lookup_insert_eq. eexists. split; [done|]. split; [apply delete_subseteq|]. intros name' j' Hn' Hn''.
    destruct (decide (name' = name)) as [->|]; [|by rewrite lookup_delete_ne, Hn' in Hn'' by done].
    rewrite Hn in Hn'. injection Hn' as <-. exists n. split_and!; [done|done|]. destruct n; [|done].
    rewrite lookup_insert_ne by done. by subst.
  - rewrite lookup_insert_ne by done. destruct (m !! k) as [[es'|t]|]; try done. exists es'. split_and!; try done. congruence.
Qed.

End Pruned.

(** ** The system *)

(** [dfds]: the open directories; [streams]: the directory streams, each with its descriptor and the names
    that remain.  Any call may fail, but [fstatat] on an entry that exists. *)
Class TreeLaws (OS : Type) `{!PosixFile OS} (nodes : OS -> tree) (dfds : OS -> gmap Z Z)
    (streams : OS -> gmap Z (Z * list cstr)) : Prop := {
  law_fstatat fd name f os :
    nodes (sys_fstatat fd name f os).2 = nodes os /\ dfds (sys_fstatat fd name f os).2 = dfds os /\
    streams (sys_fstatat fd name f os).2 = streams os /\
    forall i es j n, dfds os !! fd = Some i -> nodes os !! i = Some (TDir es) -> es !! name = Some j -> nodes os !! j = Some n ->
      exists s, (sys_fstatat fd name f os).1 = inr s /\ Z.land (st_mode s) S_IFMT = Z.land (node_mode n) S_IFMT;
  law_fdopendir fd os i es : dfds os !! fd = Some i -> nodes os !! i = Some (TDir es) ->
    match sys_fdopendir fd os with
    | (inl _, os') => nodes os' = nodes os /\ dfds os' = dfds os /\ streams os' = streams os
    | (inr dir, os') => nodes os' = nodes os /\ dfds os' = dfds os /\ streams os !! dir = None /\
        exists names, streams os' = <[dir := (fd, names)]> (streams os) /\ NoDup names /\ (length names <= size es + 2)%nat /\
          (forall name, name ∈ names -> is_Some (es !! name) \/ is_wildcard_directory name = true) /\
          (forall name, is_Some (es !! name) -> name ∈ names)
    end;
  law_readdir dir os fd names : streams os !! dir = Some (fd, names) ->
    nodes (sys_readdir dir os).2 = nodes os /\ dfds (sys_readdir dir os).2 = dfds os /\
    fst <$> (sys_readdir dir os).1 = head names /\ streams (sys_readdir dir os).2 = <[dir := (fd, tail names)]> (streams os);
  law_openat fd name f os i es j es' : dfds os !! fd = Some i -> nodes os !! i = Some (TDir es) ->
    es !! name = Some j -> nodes os !! j = Some (TDir es') ->
    match sys_openat fd name f os with
    | (inl _, os') => nodes os' = nodes os /\ dfds os' = dfds os /\ streams os' = streams os
    | (inr newfd, os') => dfds os !! newfd = None /\ nodes os' = nodes os /\ dfds os' = <[newfd := j]> (dfds os) /\
                          streams os' = streams os
    end;
  law_unlinkat fd name f os i es : dfds os !! fd = Some i -> nodes os !! i = Some (TDir es) ->
    dfds (sys_unlinkat fd name f os).2 = dfds os /\ streams (sys_unlinkat fd name f os).2 = streams os /\
    match sys_unlinkat fd name f os with
    | (inl _, os') => nodes os' = nodes os
    | (inr _, os') => exists j n, es !! name = Some j /\ nodes os !! j = Some n /\
        (if f =? AT_REMOVEDIR then n = TDir ∅ else match n with TFile _ => True | TDir _ => False end) /\
        nodes os' = <[i := TDir (delete name es)]> (nodes os)
    end;
  law_closedir dir os fd names : streams os !! dir = Some (fd, names) ->
    nodes (sys_closedir dir os) = nodes os /\ dfds (sys_closedir dir os) = delete fd (dfds os) /\
    streams (sys_closedir dir os) = delete dir (streams os);
  law_close_dir fd os : nodes (sys_close fd os).2 = nodes os /\ dfds (sys_close fd os).2 = delete fd (dfds os) /\
    streams (sys_close fd os).2 = streams os
}.

(** The calls that have no reason to fail succeed. *)
Record permissive (OS : Type) `{!PosixFile OS} (nodes : OS -> tree) (dfds : OS -> gmap Z Z) : Prop := {
  ok_fdopendir fd os i es : dfds os !! fd = Some i -> nodes os !! i = Some (TDir es) -> exists dir, (sys_fdopendir fd os).1 = inr dir;
  ok_openat fd name f os i es j es' : dfds os !! fd = Some i -> nodes os !! i = Some (TDir es) ->
    es !! name = Some j -> nodes os !! j = Some (TDir es') -> exists newfd, (sys_openat fd name f os).1 = inr newfd;
  ok_unlinkat fd name f os i es j n : dfds os !! fd = Some i -> nodes os !! i = Some (TDir es) ->
    es !! name = Some j -> nodes os !! j = Some n ->
    (if f =? AT_REMOVEDIR then n = TDir ∅ else match n with TFile _ => True | TDir _ => False end) ->
    (sys_unlinkat fd name f os).1 = inr tt
}.

Lemma dt_of_mode_dir m : dt_of_mode m = MM_DT_DIR <-> Z.land m S_IFMT = S_IFDIR.
Proof.
  unfold dt_of_mode. repeat (case_match; [split; [done|]; intros E; rewrite E in *; done|]).
  destruct (Z.eqb_spec (Z.land m S_IFMT) S_IFDIR) as [->|]; [done|].
  repeat (case_match; [split; done|]). split; done.
Qed.

Lemma dt_of_mode_range m : 0 <= dt_of_mode m.
Proof. unfold dt_of_mode. repeat case_match; done. Qed.

Section Removal.

Context {OS : Type} `{!PosixFile OS} (nodes : OS -> tree) (dfds : OS -> gmap Z Z) (streams : OS -> gmap Z (Z * list cstr)).
Context `{!TreeLaws OS nodes dfds streams} (flags : Z) (rank : Z -> nat).

Abbreviation world := (px_world OS).
Abbreviation tr w := (nodes (px_os w)).
Abbreviation fds w := (dfds (px_os w)).
Abbreviation strs w := (streams (px_os w)).

(** Everything is to be removed, and nothing fails. *)
Definition complete (m : tree) : Prop :=
  permissive OS nodes dfds /\ has flags MM_FAILONERROR = false /\ forall i n, m !! i = Some n -> authorized flags n.

Lemma complete_pruned m m' : pruned flags m m' -> complete m -> complete m'.
Proof.
  intros Hp (H1 & H2 & H3). split_and!; [done|done|]. intros i n Hi.
  destruct (pruned_kind _ _ _ _ _ Hp Hi) as (n0 & Hi0 & E & _). by apply E, (H3 i).
Qed.

(** What a part of the removal does: the nodes of rank [r] at least, but [i], are not touched. *)
Record step_ok (r : nat) (i : Z) (w w' : world) : Prop := {
  so_pruned : pruned flags (tr w) (tr w');
  so_frame : forall k, (r <= rank k)%nat -> k <> i -> tr w' !! k = tr w !! k;
  so_fds : fds w ⊆ fds w'
}.

Lemma step_refl r i w w' : tr w' = tr w -> fds w' = fds w -> step_ok r i w w'.
Proof. intros E1 E2. split; rewrite ?E1, ?E2; try done. apply pruned_refl. Qed.

Lemma step_trans r i w1 w2 w3 : step_ok r i w1 w2 -> step_ok r i w2 w3 -> step_ok r i w1 w3.
Proof.
  intros [P1 F1 D1] [P2 F2 D2]. split; [by eapply pruned_trans| |by etransitivity].
  intros k Hr Hk. by rewrite F2, F1.
Qed.

(** What the recursion promises of a directory: [i] is the directory of [dirfd]. *)
Definition rec_ok (lvl fuel : nat) (rec : Z -> ST world Z) (i : Z) : Prop := forall dirfd es w,
  fds w !! dirfd = Some i -> tr w !! i = Some (TDir es) -> ranked rank (tr w) -> small fuel (tr w) ->
  exists r w', rec dirfd w = Some (r, w') /\ pruned flags (tr w) (tr w') /\ strs w' = strs w /\
    (forall k, (rank i <= rank k)%nat -> k <> i -> tr w' !! k = tr w !! k) /\
    delete dirfd (fds w) ⊆ fds w' /\
    (complete (tr w) -> (rank i < lvl)%nat -> tr w' !! i = Some (TDir ∅)) /\
    (has flags MM_FAILONERROR = false -> (rank i < lvl)%nat -> r = 0).

Lemma file_type_spec fd name w :
  exists t w', get_file_type fd name w = Some (t, w') /\ tr w' = tr w /\ fds w' = fds w /\ strs w' = strs w /\
    forall i es j n, fds w !! fd = Some i -> tr w !! i = Some (TDir es) -> es !! name = Some j -> tr w !! j = Some n ->
      t = dt_of_mode (node_mode n).
Proof.
  unfold get_file_type. destruct (sys_spec (sys_fstatat fd name AT_SYMLINK_NOFOLLOW) w) as (w1 & H1 & Hos).
  destruct (law_fstatat fd name AT_SYMLINK_NOFOLLOW (px_os w)) as (L1 & L2 & L3 & L4). rewrite <- Hos in L1, L2, L3.
  rewrite (st_bind_Some _ _ _ _ _ H1). do 2 eexists. split; [reflexivity|]. split_and!; [done|done|done|].
  intros i es j n Hi Hes Hj Hn. destruct (L4 i es j n Hi Hes Hj Hn) as (s & -> & Hs). unfold dt_of_mode. by rewrite Hs.
Qed.

Lemma unlink_spec fd name f w i es :
  fds w !! fd = Some i -> tr w !! i = Some (TDir es) -> ranked rank (tr w) ->
  (forall j n, es !! name = Some j -> tr w !! j = Some n -> authorized flags n) ->
  exists r w', sys (sys_unlinkat fd name f) w = Some (r, w') /\ step_ok (rank i) i w w' /\ strs w' = strs w /\ fds w' = fds w /\
    (tr w' = tr w \/ tr w' = <[i := TDir (delete name es)]> (tr w)) /\
    (permissive OS nodes dfds -> forall j n, es !! name = Some j -> tr w !! j = Some n ->
     (if f =? AT_REMOVEDIR then n = TDir ∅ else match n with TFile _ => True | TDir _ => False end) ->
     tr w' = <[i := TDir (delete name es)]> (tr w)).
Proof.
  intros Hi Hes Hr Ha. destruct (sys_spec (sys_unlinkat fd name f) w) as (w1 & H1 & Hos).
  destruct (law_unlinkat fd name f (px_os w) i es Hi Hes) as (L1 & L2 & L3). rewrite <- Hos in L1, L2.
  do 2 eexists. split; [exact H1|].
  assert (Hok : permissive OS nodes dfds -> forall j n, es !! name = Some j -> tr w !! j = Some n ->
     (if f =? AT_REMOVEDIR then n = TDir ∅ else match n with TFile _ => True | TDir _ => False end) ->
     (sys_unlinkat fd name f (px_os w)).1 = inr tt) by (intros [_ _ Hp] j n Hj Hn Hc; by eapply Hp). clear H1.
  destruct (sys_unlinkat fd name f (px_os w)) as [[e|[]] os]; cbn in Hos; subst os.
  - split; [by apply step_refl|]. split_and!; [done|done|by left|]. intros Hp j n Hj Hn Hc. by specialize (Hok Hp j n Hj Hn Hc).
  - destruct L3 as (j & n & Hj & Hn & Hc & L3). split_and!; [|done|done|by right|done].
    destruct (Hr i es Hes name j Hj) as (Hrk & _). assert (i <> j) by (intros ->; lia).
    split; [|intros k _ Hk; by rewrite L3, lookup_insert_ne|by rewrite L1].
    rewrite L3. eapply pruned_delete; try done; [by eapply Ha|]. destruct n; [|done]. destruct (f =? AT_REMOVEDIR); [by injection Hc|done].
Qed.

(** The entry [name] is kept or removed. *)
Definition entry_left (name : cstr) (es es' : gmap cstr Z) : Prop := es' = es \/ es' = delete name es.

Lemma last_unlink_spec fd name type w i es :
  fds w !! fd = Some i -> tr w !! i = Some (TDir es) -> ranked rank (tr w) ->
  (forall j n, es !! name = Some j -> tr w !! j = Some n -> authorized flags n) ->
  exists go w', (rv ← sys (sys_unlinkat fd name (if type =? MM_DT_DIR then AT_REMOVEDIR else 0));
                 mret (negb (bool_decide (rv = None) && has flags MM_FAILONERROR))) w = Some (go, w') /\
    step_ok (rank i) i w w' /\ strs w' = strs w /\ fds w' = fds w /\
    (exists es', tr w' !! i = Some (TDir es') /\ entry_left name es es') /\
    (has flags MM_FAILONERROR = false -> go = true) /\
    (permissive OS nodes dfds -> forall j n, es !! name = Some j -> tr w !! j = Some n ->
     (if type =? MM_DT_DIR then n = TDir ∅ else match n with TFile _ => True | TDir _ => False end) ->
     tr w' !! i = Some (TDir (delete name es))).
Proof.
  intros Hi Hes Hr Ha. destruct (unlink_spec fd name (if type =? MM_DT_DIR then AT_REMOVEDIR else 0) w i es Hi Hes Hr Ha)
    as (rv & w1 & H1 & Hs & Hst & Hfd & Ht & Hp).
  rewrite (st_bind_Some _ _ _ _ _ H1). do 2 eexists. split; [reflexivity|]. split_and!; [done|done|done| | |].
  - destruct Ht as [-> | ->]; [exists es; by split; [|left]|]. exists (delete name es). rewrite lookup_insert_eq. by split; [|right].
  - intros ->. by rewrite andb_false_r.
  - intros Hper j n Hj Hn Hc. rewrite (Hp Hper j n Hj Hn) by (destruct (type =? MM_DT_DIR); done). by rewrite lookup_insert_eq.
Qed.

Section Entry.

Context (lvl fuel : nat) (rec : Z -> ST world Z) (i : Z).
Context (Hrec : forall j, (rank j < rank i)%nat -> rec_ok lvl fuel rec j).

Lemma remove_entry_spec dirfd name w es :
  fds w !! dirfd = Some i -> tr w !! i = Some (TDir es) -> ranked rank (tr w) -> small fuel (tr w) ->
  is_Some (es !! name) \/ is_wildcard_directory name = true ->
  exists go w', remove_entry rec dirfd flags name w = Some (go, w') /\ step_ok (rank i) i w w' /\ strs w' = strs w /\
    (exists es', tr w' !! i = Some (TDir es') /\ entry_left name es es' /\
      (complete (tr w) -> (rank i <= lvl)%nat -> es' !! name = None)) /\
    (has flags MM_FAILONERROR = false -> (rank i <= lvl)%nat -> go = true).
Proof.
  intros Hi Hes Hr Hsm Hname. unfold remove_entry.
  destruct (file_type_spec dirfd name w) as (t & w1 & H1 & Et & Ef & Es & Ht). rewrite (st_bind_Some _ _ _ _ _ H1).
  assert (Hstop : (complete (tr w) -> (rank i <= lvl)%nat -> es !! name = None) ->
    exists go w', Some (true, w1) = Some (go, w') /\ step_ok (rank i) i w w' /\ strs w' = strs w /\
    (exists es', tr w' !! i = Some (TDir es') /\ entry_left name es es' /\ (complete (tr w) -> (rank i <= lvl)%nat -> es' !! name = None)) /\
    (has flags MM_FAILONERROR = false -> (rank i <= lvl)%nat -> go = true)).
  { intros Hc. exists true, w1. split; [done|]. split; [by apply step_refl|]. split_and!; [done| |done]. exists es. rewrite Et. by split_and!; [|left|]. }
  destruct ((0 <? t) && negb (has flags t)) eqn:Hauth.
  { apply Hstop. intros (_ & _ & Hall) _. destruct (es !! name) as [j|] eqn:Hj; [|done]. exfalso.
    destruct (Hr i es Hes name j Hj) as (_ & _ & n & Hn & _). specialize (Ht i es j n Hi Hes Hj Hn).
    apply andb_true_iff in Hauth as [H2 H3]. apply Z.ltb_lt in H2. apply negb_true_iff in H3.
    destruct (Hall j n Hn) as [H|H]; rewrite <- Ht in H; [congruence|]. unfold MM_DT_UNKNOWN in H. lia. }
  destruct (is_wildcard_directory name) eqn:Hw.
  { apply Hstop. intros _ _. destruct (es !! name) as [j|] eqn:Hj; [|done]. destruct (Hr i es Hes name j Hj) as (_ & Hw' & _). congruence. }
  destruct Hname as [[j Hj]|]; [|congruence]. destruct (Hr i es Hes name j Hj) as (Hrk & _ & n & Hn & Hm).
  specialize (Ht i es j n Hi Hes Hj Hn).
  assert (Ha : authorized flags n).
  { apply andb_false_iff in Hauth as [H|H]; [right|left].
    - rewrite <- Ht. apply Z.ltb_ge in H. pose proof (dt_of_mode_range (node_mode n)). unfold MM_DT_UNKNOWN. lia.
    - rewrite <- Ht. by apply negb_false_iff. }
  rewrite <- Ef in Hi. rewrite <- Et in Hes, Hn, Hr, Hsm. assert (Hs1 : step_ok (rank i) i w w1) by by apply step_refl.
  destruct (Z.eqb_spec t MM_DT_DIR) as [Htd|Htd].
  - destruct n as [esj|tf]; [|by rewrite Ht in Htd; apply dt_of_mode_dir in Htd].
    destruct (sys_spec (sys_openat dirfd name O_CLOEXEC) w1) as (w2 & H2 & Hos).
    pose proof (law_openat dirfd name O_CLOEXEC (px_os w1) i es j esj Hi Hes Hj Hn) as L.
    assert (Hok : permissive OS nodes dfds -> exists newfd, (sys_openat dirfd name O_CLOEXEC (px_os w1)).1 = inr newfd).
    { intros [_ Hp _]. by eapply Hp. }
    rewrite (st_bind_Some _ _ _ _ _ H2). clear H2. destruct (sys_openat dirfd name O_CLOEXEC (px_os w1)) as [[e|newfd] os]; cbn in Hos; subst os.
    { destruct L as (L1 & L2 & L3). cbn. exists (negb (has flags MM_FAILONERROR)), w2. split; [done|].
      split; [eapply step_trans; [exact Hs1|by apply step_refl]|]. split; [congruence|]. split; [|by intros ->].
      exists es. rewrite L1. split_and!; [done|by left|]. intros [Hp _]. by destruct (Hok Hp). }
    destruct L as (L0 & L1 & L2 & L3). cbn [fst]. rewrite <- L1 in Hn, Hr, Hsm, Hes.
    assert (Hnew : fds w2 !! newfd = Some j) by by rewrite L2, lookup_insert_eq.
    destruct (Hrec j Hrk newfd esj w2 Hnew Hn Hr Hsm) as (rv & w3 & H3 & Hp3 & Hst3 & Hfr3 & Hfd3 & Hc3 & Hz3).
    rewrite (st_bind_Some _ _ _ _ _ H3).
    rewrite L2, delete_insert_id in Hfd3 by done.
    assert (Hs3 : step_ok (rank i) i w w3).
    { eapply step_trans; [exact Hs1|]. split; [by rewrite <- L1| |done]. intros k Hk Hki. rewrite Hfr3, L1; [done|lia|]. intros ->. lia. }
    assert (Hes3 : tr w3 !! i = Some (TDir es)) by (rewrite Hfr3; [done|lia|intros ->; lia]).
    destruct (negb (rv =? 0) && has flags MM_FAILONERROR) eqn:Hgo.
    { apply andb_true_iff in Hgo as [Hrv Hfe]. exists false, w3. split; [done|]. split; [done|]. split; [congruence|]. split.
      - exists es. split_and!; [done|by left|]. intros (_ & Hno & _). congruence.
      - congruence. }
    assert (Hi3 : fds w3 !! dirfd = Some i) by by eapply lookup_weaken.
    assert (Hr3 : ranked rank (tr w3)) by by eapply pruned_ranked.
    assert (Ha3 : forall j' n', es !! name = Some j' -> tr w3 !! j' = Some n' -> authorized flags n').
    { intros j' n' Hj' Hn'. assert (j' = j) as -> by congruence. destruct (pruned_kind _ _ _ _ _ Hp3 Hn') as (n0 & Hn0 & E & _).
      apply E. rewrite Hn in Hn0. by injection Hn0 as <-. }
    destruct (unlink_spec dirfd name AT_REMOVEDIR w3 i es Hi3 Hes3 Hr3 Ha3) as (rv4 & w4 & H4 & Hs4 & Hst4 & Hfd4 & Ht4 & Hp4).
    rewrite (st_bind_Some _ _ _ _ _ H4).
    assert (Hes4 : exists es4, tr w4 !! i = Some (TDir es4) /\ entry_left name es es4).
    { destruct Ht4 as [-> | ->]; [by exists es; split; [|left]|]. exists (delete name es). rewrite lookup_insert_eq. by split; [|right]. }
    destruct Hes4 as (es4 & Hes4 & He4). assert (Hr4 : ranked rank (tr w4)) by (eapply pruned_ranked; [apply Hs4|done]).
    assert (Ha4 : forall j' n', es4 !! name = Some j' -> tr w4 !! j' = Some n' -> authorized flags n').
    { intros j' n' Hj' Hn'. destruct (pruned_kind _ _ _ _ _ (so_pruned _ _ _ _ Hs4) Hn') as (n0 & Hn0 & E & _).
      apply E. eapply Ha3; [|done]. destruct He4 as [-> | ->]; [done|]. by rewrite lookup_delete_eq in Hj'. }
    destruct (last_unlink_spec dirfd name t w4 i es4) as (go & w5 & H5 & Hs5 & Hst5 & Hfd5 & (es5 & Hes5 & He5) & Hgo5 & _);
      [by rewrite Hfd4|done|done|done|].
    rewrite Htd, Z.eqb_refl in H5. exists go, w5. split; [exact H5|].
    split; [eapply step_trans; [exact Hs3|]; by eapply step_trans|]. split; [congruence|]. split; [|intros Hno _; by apply Hgo5].
    exists es5. split; [done|]. assert (Hleft : entry_left name es es5).
    { destruct He4 as [-> | ->], He5 as [-> | ->]; unfold entry_left; rewrite ?delete_delete_eq; auto. }
    split; [done|]. intros (Hper & Hno & Hall) Hl. destruct Hleft as [-> | ->]; [|by rewrite lookup_delete_eq]. exfalso.
    assert (Hcomp2 : complete (tr w2)).
    { split_and!; [done|done|]. rewrite L1, Et. done. }
    specialize (Hc3 Hcomp2 ltac:(lia)). pose proof (Hp4 Hper j (TDir ∅) Hj Hc3 eq_refl) as Hd.
    rewrite Hd, lookup_insert_eq in Hes4. injection Hes4 as <-.
    assert (E : es !! name = None) by (destruct He5 as [-> | ->]; rewrite ?lookup_delete_eq; done). congruence.
  - assert (Ha1 : forall j' n', es !! name = Some j' -> tr w1 !! j' = Some n' -> authorized flags n').
    { intros j' n' Hj' Hn'. assert (j' = j) as -> by congruence. rewrite Hn in Hn'. by injection Hn' as <-. }
    destruct (last_unlink_spec dirfd name t w1 i es Hi Hes Hr Ha1) as (go & w5 & H5 & Hs5 & Hst5 & Hfd5 & (es5 & Hes5 & He5) & Hgo5 & Hp5).
    rewrite (proj2 (Z.eqb_neq _ _) Htd) in H5, Hp5. exists go, w5. split; [exact H5|].
    split; [by eapply step_trans|]. split; [congruence|]. split; [|intros Hno _; by apply Hgo5].
    exists es5. split_and!; [done|done|]. intros (Hper & Hno & Hall) Hl.
    rewrite (Hp5 Hper j n Hj Hn) in Hes5; [by injection Hes5 as <-; rewrite lookup_delete_eq|].
    destruct n as [esj|tf]; [|done]. destruct Htd. rewrite Ht. by apply dt_of_mode_dir.
Qed.

Lemma remove_loop_spec n dir dirfd l w es :
  (length l < n)%nat -> fds w !! dirfd = Some i -> tr w !! i = Some (TDir es) -> ranked rank (tr w) -> small fuel (tr w) ->
  strs w !! dir = Some (dirfd, l) -> NoDup l -> (forall name, name ∈ l -> is_Some (es !! name) \/ is_wildcard_directory name = true) ->
  exists r w', remove_loop rec n dir dirfd flags w = Some (r, w') /\ step_ok (rank i) i w w' /\
    (exists l', strs w' = <[dir := (dirfd, l')]> (strs w)) /\
    (complete (tr w) -> (rank i <= lvl)%nat -> (forall name, is_Some (es !! name) -> name ∈ l) -> tr w' !! i = Some (TDir ∅)) /\
    (has flags MM_FAILONERROR = false -> (rank i <= lvl)%nat -> r = 0).
Proof.
  revert l w es. induction n as [|n IH]; intros l w es Hn Hi Hes Hr Hsm Hst Hnd Hin; [lia|]. cbn [remove_loop].
  unfold sys_pure at 1, mbind at 1, st_bind at 1. destruct (law_readdir dir (px_os w) dirfd l Hst) as (L1 & L2 & L3 & L4).
  destruct (sys_readdir dir (px_os w)) as [dp os]. cbn in L1, L2, L3, L4.
  set (w1 := mk_px os (px_errno w) (px_error w)). change os with (px_os w1) in L1, L2, L4.
  assert (Hs1 : step_ok (rank i) i w w1) by by apply step_refl.
  destruct dp as [[name ty]|]; cbn in L3; destruct l as [|name' l]; try discriminate.
  - injection L3 as <-. rewrite <- L1 in Hes, Hr, Hsm. rewrite <- L2 in Hi. apply NoDup_cons in Hnd as [Hnot Hnd].
    destruct (remove_entry_spec dirfd name w1 es Hi Hes Hr Hsm) as (go & w2 & H2 & Hs2 & Hst2 & (es2 & Hes2 & Hl2 & Hc2) & Hgo);
      [apply Hin; by left|].
    rewrite (st_bind_Some _ _ _ _ _ H2). assert (Hstr : strs w2 = <[dir:=(dirfd, l)]> (strs w)) by by rewrite Hst2, L4.
    destruct go.
    + destruct (IH l w2 es2) as (r & w3 & H3 & Hs3 & (l' & Hl') & Hc3 & Hz3).
      * cbn in Hn. lia.
      * eapply lookup_weaken; [exact Hi|apply Hs2].
      * done.
      * eapply pruned_ranked; [apply Hs2|done].
      * eapply pruned_small; [apply Hs2|done].
      * by rewrite Hstr, lookup_insert_eq.
      * done.
      * intros x Hx. destruct (Hin x) as [Hx'|Hx']; [by right| |by right]. left. destruct Hl2 as [-> | ->]; [done|].
        rewrite lookup_delete_ne; [done|]. by intros ->.
      * exists r, w3. split; [done|]. split; [eapply step_trans; [exact Hs1|]; by eapply step_trans|]. split.
        { exists l'. by rewrite Hl', Hstr, insert_insert_eq. }
        split; [|done]. intros Hc Hl Hall. apply Hc3; [|done|].
        { eapply complete_pruned; [|exact Hc]. eapply pruned_trans; [apply Hs1|apply Hs2]. }
        intros x Hx. rewrite L1 in Hc2. specialize (Hc2 Hc Hl). destruct (decide (x = name)) as [->|Hne].
        { rewrite Hc2 in Hx. by destruct Hx. }
        assert (Hx' : is_Some (es !! x)).
        { destruct Hl2 as [-> | ->]; [done|]. by rewrite lookup_delete_ne in Hx by done. }
        specialize (Hall x Hx'). apply elem_of_cons in Hall as [->|]; [done|done].
    + exists (-1), w2. split; [done|]. split; [by eapply step_trans|]. split; [by exists l|]. split.
      * intros (H & Hno & _) Hl. by specialize (Hgo Hno Hl).
      * intros Hno Hl. by specialize (Hgo Hno Hl).
  - exists 0, w1. split; [done|]. split; [done|]. split; [by exists []|]. split; [|done].
    intros _ _ Hall. rewrite L1. rewrite Hes. do 2 f_equal. apply map_eq. intros x. rewrite lookup_empty.
    destruct (es !! x) eqn:E; [|done]. specialize (Hall x ltac:(by rewrite E)). by apply elem_of_nil in Hall.
Qed.

End Entry.

Lemma remove_rec_ok lvl fuel i : rec_ok lvl fuel (mm_remove_rec lvl fuel flags) i.
Proof.
  revert i. induction lvl as [|lvl IH]; intros i dirfd es w Hi Hes Hr Hsm; cbn [mm_remove_rec].
  { destruct (raise_spec E_OVERFLOW w) as (w1 & H1 & Hos). exists (-1), w1. split; [done|]. rewrite Hos.
    split_and!; [apply pruned_refl|done|done|apply delete_subseteq|lia|lia]. }
  destruct (sys_spec (sys_fdopendir dirfd) w) as (w1 & H1 & Hos).
  pose proof (law_fdopendir dirfd (px_os w) i es Hi Hes) as L.
  assert (Hok : permissive OS nodes dfds -> exists dir, (sys_fdopendir dirfd (px_os w)).1 = inr dir) by (intros [Hp _ _]; by eapply Hp).
  rewrite (st_bind_Some _ _ _ _ _ H1). clear H1.
  destruct (sys_fdopendir dirfd (px_os w)) as [[e|dir] os]; cbn in Hos; subst os; cbn [fst].
  { destruct L as (L1 & L2 & L3). destruct (sys_spec (sys_close dirfd) w1) as (w2 & H2 & Hos2). rewrite (st_bind_Some _ _ _ _ _ H2).
    destruct (law_close_dir dirfd (px_os w1)) as (M1 & M2 & M3). rewrite <- Hos2 in M1, M2, M3. do 2 eexists. split; [reflexivity|].
    rewrite M1, M2, M3, L1, L2, L3. split_and!; [apply pruned_refl|done|done|done| |by intros ->].
    intros [Hp _]. by destruct (Hok Hp). }
  destruct L as (L1 & L2 & L3 & names & L4 & Hnd & Hlen & Hin & Hall). rewrite <- L1 in Hes, Hr, Hsm. rewrite <- L2 in Hi.
  destruct (remove_loop_spec lvl fuel (mm_remove_rec lvl fuel flags) i ltac:(intros; apply IH) fuel dir dirfd names w1 es)
    as (r & w2 & H2 & [P2 F2 D2] & (l' & Hl') & Hc2 & Hz2); try done.
  { specialize (Hsm i es Hes). lia. }
  { by rewrite L4, lookup_insert_eq. }
  rewrite (st_bind_Some _ _ _ _ _ H2). unfold sys_pure at 1, mbind at 1, st_bind at 1. do 2 eexists. split; [reflexivity|].
  destruct (law_closedir dir (px_os w2) dirfd l') as (M1 & M2 & M3); [by rewrite Hl', lookup_insert_eq|].
  cbn [px_os]. rewrite M1, M2, M3, Hl', delete_insert_eq, L4, delete_insert_id by done. rewrite L1 in P2, F2, Hc2. rewrite L2 in D2. split_and!.
  - done.
  - done.
  - done.
  - apply delete_mono. done.
  - intros Hc Hk. apply Hc2; [done|lia|done].
  - intros Hno Hk. apply Hz2; [done|lia].
Qed.


End Removal.
