(* ===== verification/PosixDemo.v ===== *)
(** * A POSIX system that runs

    An instance of the calls of [FilePosix] on maps, with the laws that the theorems rely on, and the
    theorems applied to it. *)

From S2P Require Import Prelude CStr Errcode Effects File FilePosix RemovePosix.

Module PosixDemo.

(** Files by their paths and directories by their numbers, with the open ones. *)
Record os := mk_os {
  o_fs : gmap cstr node; o_fds : gmap Z (cstr * nat);
  o_nodes : tree; o_dfds : gmap Z Z; o_streams : gmap Z (Z * list cstr)
}.

Definition with_files (fs : gmap cstr node) (fds : gmap Z (cstr * nat)) (s : os) : os :=
  mk_os fs fds (o_nodes s) (o_dfds s) (o_streams s).
Definition with_tree (n : tree) (d : gmap Z Z) (st : gmap Z (Z * list cstr)) (s : os) : os :=
  mk_os (o_fs s) (o_fds s) n d st.

(** A number that is not used. *)
Definition new_key {A} (m : gmap Z A) : Z := map_fold (fun k _ acc => Z.max (k + 1) acc) 0 m.

Lemma new_key_above {A} (m : gmap Z A) : 0 <= new_key m /\ forall k, is_Some (m !! k) -> k < new_key m.
Proof.
  unfold new_key. apply (map_fold_weak_ind (fun r m => 0 <= r /\ forall k, is_Some (m !! k) -> k < r)).
  - split; [lia|]. intros k [x Hx]. by rewrite lookup_empty in Hx.
  - intros k x m' r Hk [Hr IH]. split; [lia|]. intros k' Hk'. destruct (decide (k' = k)) as [->|]; [lia|].
    rewrite lookup_insert_ne in Hk' by done. specialize (IH k' Hk'). lia.
Qed.

Lemma new_key_fresh {A} (m : gmap Z A) : m !! new_key m = None.
Proof. destruct (m !! new_key m) eqn:E; [|done]. destruct (new_key_above m) as [_ H]. specialize (H _ (mk_is_Some _ _ E)). lia. Qed.

Definition stat_of (mode size : Z) : stat := mk_stat 0 0 mode 1 0 0 size 0 0 0 0.

Definition do_open (path : cstr) (flags mode : Z) (s : os) : (errcode + Z) * os :=
  let fd := new_key (o_fds s) in
  if Z.land flags (Z.lor O_CREAT O_EXCL) =? Z.lor O_CREAT O_EXCL
  then match o_fs s !! path with
       | Some _ => (inl E_EXIST, s)
       | None => (inr fd, with_files (<[path := Regular []]> (o_fs s)) (<[fd := (path, 0%nat)]> (o_fds s)) s)
       end
  else match o_fs s !! path with
       | Some (Regular _) => (inr fd, with_files (o_fs s) (<[fd := (path, 0%nat)]> (o_fds s)) s)
       | Some (Link _) => (inl E_LOOP, s)
       | None => (inl E_NOENT, s)
       end.

Definition do_read (fd : Z) (n : nat) (s : os) : (errcode + cstr) * os :=
  match o_fds s !! fd with
  | Some (p, off) =>
      match o_fs s !! p with
      | Some (Regular c) =>
          let buf := take n (drop off c) in
          (inr buf, with_files (o_fs s) (<[fd := (p, (off + length buf)%nat)]> (o_fds s)) s)
      | _ => (inl E_IO, s)
      end
  | None => (inl E_BADF, s)
  end.

(** Written at the end of the file, two characters at most. *)
Definition do_write (fd : Z) (buf : cstr) (s : os) : (errcode + nat) * os :=
  match o_fds s !! fd with
  | Some (q, off) =>
      match o_fs s !! q with
      | Some (Regular d) =>
          let n := length (take 2 buf) in
          (inr n, with_files (<[q := Regular (d ++ take 2 buf)]> (o_fs s)) (<[fd := (q, (length d + n)%nat)]> (o_fds s)) s)
      | _ => (inl E_IO, s)
      end
  | None => (inl E_BADF, s)
  end.

(** Half of the copy ranges are refused: the copy goes on with reads and writes. *)
Definition do_copy_range (fd_in fd_out : Z) (s : os) : (errcode + nat) * os :=
  match o_fds s !! fd_in, o_fds s !! fd_out with
  | Some (p, off), Some (q, len) =>
      match o_fs s !! p, o_fs s !! q with
      | Some (Regular c), Some (Regular d) =>
          if (4 <? length d)%nat then (inl E_XDEV, s)
          else
            let buf := take 3 (drop off c) in
            (inr (length buf),
             with_files (<[q := Regular (d ++ buf)]> (o_fs s))
               (<[fd_in := (p, (off + length buf)%nat)]> (<[fd_out := (q, (len + length buf)%nat)]> (o_fds s))) s)
      | _, _ => (inl E_IO, s)
      end
  | _, _ => (inl E_BADF, s)
  end.

Definition do_unlink (path : cstr) (s : os) : (errcode + unit) * os :=
  match o_fs s !! path with
  | None => (inl E_NOENT, s)
  | Some _ => (inr tt, with_files (delete path (o_fs s)) (o_fds s) s)
  end.

Definition do_symlink (target path : cstr) (s : os) : (errcode + unit) * os :=
  match o_fs s !! path with
  | Some _ => (inl E_EXIST, s)
  | None => (inr tt, with_files (<[path := Link target]> (o_fs s)) (o_fds s) s)
  end.

Definition do_lstat (path : cstr) (s : os) : (errcode + stat) * os :=
  (match o_fs s !! path with
   | None => inl E_NOENT
   | Some (Regular c) => inr (stat_of S_IFREG (Z.of_nat (length c)))
   | Some (Link t) => inr (stat_of S_IFLNK (Z.of_nat (length t)))
   end, s).

Definition do_readlink (path : cstr) (n : nat) (s : os) : (errcode + cstr) * os :=
  (match o_fs s !! path with Some (Link t) => inr (take n t) | _ => inl E_INVAL end, s).

(** The entries of an open directory. *)
Definition entries (fd : Z) (s : os) : option (Z * gmap cstr Z) :=
  i ← o_dfds s !! fd; n ← o_nodes s !! i; match n with TDir es => Some (i, es) | TFile _ => None end.

Definition do_fstatat (fd : Z) (name : cstr) (f : Z) (s : os) : (errcode + stat) * os :=
  (match '(_, es) ← entries fd s; j ← es !! name; o_nodes s !! j with
   | Some n => inr (stat_of (node_mode n) 0)
   | None => inl E_NOENT
   end, s).

Definition do_fdopendir (fd : Z) (s : os) : (errcode + Z) * os :=
  match entries fd s with
  | None => (inl E_NOTTY, s)
  | Some (_, es) =>
      let dir := new_key (o_streams s) in
      let names := [cs "."; cs ".."] ++ filter (fun n => is_wildcard_directory n = false) (map_to_list es).*1 in
      (inr dir, with_tree (o_nodes s) (o_dfds s) (<[dir := (fd, names)]> (o_streams s)) s)
  end.

Definition do_readdir (dir : Z) (s : os) : option (cstr * dtype) * os :=
  match o_streams s !! dir with
  | Some (fd, names) =>
      ((fun n => (n, DT_UNKNOWN)) <$> head names,
       with_tree (o_nodes s) (o_dfds s) (<[dir := (fd, tail names)]> (o_streams s)) s)
  | None => (None, s)
  end.

Definition do_openat (fd : Z) (name : cstr) (f : Z) (s : os) : (errcode + Z) * os :=
  match '(_, es) ← entries fd s; es !! name with
  | Some j =>
      let newfd := new_key (o_dfds s) in
      (inr newfd, with_tree (o_nodes s) (<[newfd := j]> (o_dfds s)) (o_streams s) s)
  | None => (inl E_NOENT, s)
  end.

Definition do_unlinkat (fd : Z) (name : cstr) (f : Z) (s : os) : (errcode + unit) * os :=
  match '(i, es) ← entries fd s; j ← es !! name; n ← o_nodes s !! j; Some (i, es, n) with
  | Some (i, es, n) =>
      if match n with TDir e => (f =? AT_REMOVEDIR) && bool_decide (e = ∅) | TFile _ => negb (f =? AT_REMOVEDIR) end
      then (inr tt, with_tree (<[i := TDir (delete name es)]> (o_nodes s)) (o_dfds s) (o_streams s) s)
      else (inl E_PERM, s)
  | None => (inl E_NOENT, s)
  end.

Definition do_closedir (dir : Z) (s : os) : os :=
  match o_streams s !! dir with
  | Some (fd, _) => with_tree (o_nodes s) (delete fd (o_dfds s)) (delete dir (o_streams s)) s
  | None => s
  end.

Definition refused {A} (s : os) : (errcode + A) * os := (inl E_NOSYS, s).

#[global] Instance posix : PosixFile os := {
  sys_open := do_open; sys_openat := do_openat;
  sys_close fd s := (inr tt, mk_os (o_fs s) (delete fd (o_fds s)) (o_nodes s) (delete fd (o_dfds s)) (o_streams s));
  sys_read := do_read; sys_write := do_write; sys_copy_file_range := do_copy_range;
  sys_ficlone _ _ := refused; sys_fsync _ := refused; sys_lseek _ _ _ := refused; sys_ftruncate _ _ := refused;
  sys_dup _ := refused; sys_dup2 _ _ := refused; sys_pipe := refused; sys_isatty _ s := (inl E_NOTTY, s);
  sys_rename _ _ := refused; sys_unlink := do_unlink; sys_unlinkat := do_unlinkat; sys_link _ _ := refused;
  sys_symlink := do_symlink; sys_readlink := do_readlink; sys_access _ _ s := (inl E_ACCES, s); sys_chdir _ := refused;
  sys_getcwd _ := refused; sys_mkdir _ _ := refused; sys_rmdir _ := refused; sys_fstat _ := refused;
  sys_stat := do_lstat; sys_lstat := do_lstat; sys_fstatat := do_fstatat; sys_futimens _ _ := refused;
  sys_utimensat _ _ _ := refused; sys_opendir _ := refused; sys_fdopendir := do_fdopendir; sys_readdir := do_readdir;
  sys_rewinddir _ s := s; sys_closedir := do_closedir
}.

#[global] Instance copy_laws : CopyLaws os o_fs o_fds.
Proof.
  split; cbn; intros.
  - unfold do_open. rewrite H. assert (E : Z.land flags (Z.lor O_CREAT O_EXCL) = 0).
    { change (Z.lor O_CREAT O_EXCL) with (Z.land (Z.lor O_CREAT (Z.lor O_EXCL O_WRONLY)) (Z.lor O_CREAT O_EXCL)).
      by rewrite Z.land_assoc, H0. }
    rewrite E. cbn. split_and!; [apply new_key_above|apply new_key_fresh|done|done].
  - unfold do_open. rewrite H. case_match; do 2 eexists; (split; [reflexivity|done]).
  - unfold do_open. rewrite H. cbn. destruct (o_fs os0 !! path) eqn:E; [done|]. cbn.
    split_and!; [apply new_key_above|apply new_key_fresh|done|done|done].
  - unfold do_read. rewrite H, H0. cbn. split_and!; [|intros E; destruct (drop off c); [done|]; destruct n; [lia|done]|done|done].
    rewrite length_take. destruct (le_lt_dec n (length (drop off c))); [by rewrite Nat.min_l|].
    rewrite Nat.min_r by lia. by rewrite !take_ge by lia.
  - unfold do_write. rewrite H, H0. cbn [o_fs o_fds with_files]. split_and!.
    + rewrite length_take. destruct buf; [done|]. cbn [length]. lia.
    + rewrite length_take. lia.
    + rewrite length_take. do 3 f_equal. destruct buf as [|a [|b l]]; done.
    + done.
  - unfold do_copy_range. rewrite H, H1, H0, H2. destruct (4 <? length d)%nat; [done|]. cbn [o_fs o_fds with_files].
    rewrite length_take. split_and!; [lia| | |done].
    + intros E _. destruct (drop off c); [done|cbn in E; lia].
    + do 3 f_equal. destruct (drop off c) as [|x1 [|x2 [|x3 l]]]; done.
  - done.
  - unfold do_unlink. destruct (o_fs os0 !! path); done.
  - unfold do_lstat. rewrite H. cbn. split_and!; [done|done|]. intros s [= <-]. done.
  - unfold do_readlink. rewrite H. cbn. split_and!; [done|done|]. by intros s [= <-].
  - unfold do_symlink. by destruct (o_fs os0 !! path).
Qed.

Lemma entries_of fd s i es : o_dfds s !! fd = Some i -> o_nodes s !! i = Some (TDir es) -> entries fd s = Some (i, es).
Proof. intros H1 H2. unfold entries. rewrite H1. cbn. by rewrite H2. Qed.

#[global] Instance tree_laws : TreeLaws os o_nodes o_dfds o_streams.
Proof.
  split; cbn.
  - intros fd name f s. split_and!; try done. intros i es j n Hi Hes Hj Hn. unfold do_fstatat.
    rewrite (entries_of _ _ _ _ Hi Hes). cbn. rewrite Hj. cbn. rewrite Hn. by eexists.
  - intros fd s i es Hi Hes. unfold do_fdopendir. rewrite (entries_of _ _ _ _ Hi Hes). cbn.
    split_and!; [done|done|apply new_key_fresh|]. eexists. split; [reflexivity|]. split_and!.
    + rewrite !NoDup_cons. split_and!.
      * rewrite elem_of_cons, list_elem_of_filter. intros [E|[E _]]; done.
      * rewrite list_elem_of_filter. intros [E _]. done.
      * apply NoDup_filter, NoDup_fst_map_to_list.
    + cbn. rewrite <- length_map_to_list. pose proof (length_filter (fun n => is_wildcard_directory n = false) (map_to_list es).*1) as Hf.
      rewrite length_fmap in Hf. lia.
    + intros name [->|[->|Hin]%elem_of_cons]%elem_of_cons; [by right|by right|]. left.
      apply list_elem_of_filter in Hin as [_ Hin]. apply list_elem_of_fmap in Hin as ([n j] & -> & Hin).
      apply elem_of_map_to_list in Hin. by eexists.
    + intros name [j Hj]. destruct (is_wildcard_directory name) eqn:Hw.
      * unfold is_wildcard_directory in Hw. destruct name as [|c1 [|c2 [|c3 name]]]; cbn in Hw; repeat case_bool_decide; try done; subst; (by left) || (by right; left).
      * do 2 right. apply list_elem_of_filter. split; [done|]. apply list_elem_of_fmap. exists (name, j). split; [done|].
        by apply elem_of_map_to_list.
  - intros dir s fd names Hs. unfold do_readdir. rewrite Hs. cbn. by destruct names.
  - intros fd name f s i es j es' Hi Hes Hj Hn. unfold do_openat. rewrite (entries_of _ _ _ _ Hi Hes). cbn. rewrite Hj. cbn.
    by split_and!; [apply new_key_fresh| | |].
  - intros fd name f s i es Hi Hes. unfold do_unlinkat. rewrite (entries_of _ _ _ _ Hi Hes). cbn.
    destruct (es !! name) as [j|] eqn:Hj; cbn; [|done]. destruct (o_nodes s !! j) as [n|] eqn:Hn; cbn; [|done].
    destruct n as [e|t]; destruct (Z.eqb_spec f AT_REMOVEDIR); cbn; try done.
    + case_bool_decide; cbn; [|done]. split_and!; [done|done|]. subst. eexists _, _. by split_and!.
    + split_and!; [done|done|]. eexists _, _. by split_and!.
  - intros dir s fd names Hs. unfold do_closedir. by rewrite Hs.
  - done.
Qed.

(** Two files, a link, and two directories of which one contains the other. *)
Definition start : os :=
  mk_os {[cs "f" := Regular (cs "0123456789"); cs "l" := Link (cs "f")]} ∅
    {[0 := TDir {[cs "a" := 1; cs "x" := 2]}; 1 := TDir {[cs "b" := 3; cs "s" := 4]}; 2 := TFile S_IFREG; 3 := TFile S_IFREG; 4 := TFile S_IFSOCK]}
    {[0 := 0]} ∅.

Definition world (s : os) : px_world os := mk_px s E_NOENT None.

Definition ALL : Z := 0xff.

(** The result, and the entries that are left in the directories 0 and 1. *)
Definition clean (flags : Z) : option (Z * list (list cstr)) :=
  '(r, w) ← mm_remove_rec 101 10 flags 0 (world start);
  let left i := match o_nodes (px_os w) !! i with Some (TDir es) => (map_to_list es).*1 | _ => [] end in
  Some (r, [left 0; left 1]).

Example clean_all : clean ALL = Some (0, [[]; []]).
Proof. vm_compute. reflexivity. Qed.

(** A socket is not to be removed: its directory stays. *)
Example clean_but_sockets : clean (ALL - MM_DT_SOCK) = Some (0, [[cs "a"]; [cs "s"]]).
Proof. vm_compute. reflexivity. Qed.

(** A directory is removed twice, and the second time fails: with [MM_FAILONERROR] a removal that did all that was asked
    fails. *)
Example fail_on_error_fails : clean (Z.lor ALL MM_FAILONERROR) = Some (-1, [[]; []]).
Proof. vm_compute. reflexivity. Qed.

(** A forced copy on write is not forced. *)
Example forced_cow_copies :
  (fun p => (p.1, o_fs (px_os p.2) !! cs "g")) <$> mm_copy_posix 20 (cs "f") (cs "g") MM_FORCECOW 420 (world start)
  = Some (true, Some (Regular (cs "0123456789"))).
Proof. vm_compute. reflexivity. Qed.

Definition rank (i : Z) : nat := if i =? 0 then 2 else if i =? 1 then 1 else 0.

Lemma start_entry i es : o_nodes start !! i = Some (TDir es) ->
  i = 0 /\ es = {[cs "a" := 1; cs "x" := 2]} \/ i = 1 /\ es = {[cs "b" := 3; cs "s" := 4]}.
Proof.
  unfold start. cbn. rewrite !lookup_insert_Some, lookup_singleton_Some. naive_solver.
Qed.

Lemma start_ranked : ranked rank (o_nodes start).
Proof.
  intros i es Hi name j Hn.
  destruct (start_entry i es Hi) as [[-> ->]|[-> ->]]; apply lookup_insert_Some in Hn;
    rewrite lookup_singleton_Some in Hn; destruct Hn as [[<- <-]|[_ [<- <-]]];
    (split; [vm_compute; lia|]; split; [done|]; eexists; split; [reflexivity|done]).
Qed.

Lemma start_small : small 10 (o_nodes start).
Proof. intros i es Hi. destruct (start_entry i es Hi) as [[-> ->]|[-> ->]]; vm_compute; lia. Qed.

Lemma start_complete : complete o_nodes o_dfds ALL (o_nodes start).
Proof.
  split_and!; [split; cbn|done|].
  - intros fd s i es Hi Hes. unfold do_fdopendir. rewrite (entries_of _ _ _ _ Hi Hes). by eexists.
  - intros fd name f s i es j es' Hi Hes Hj Hn. unfold do_openat. rewrite (entries_of _ _ _ _ Hi Hes). cbn. rewrite Hj. by eexists.
  - intros fd name f s i es j n Hi Hes Hj Hn Hc. unfold do_unlinkat. rewrite (entries_of _ _ _ _ Hi Hes). cbn. rewrite Hj. cbn.
    rewrite Hn. cbn. destruct n as [e|t]; destruct (f =? AT_REMOVEDIR); try done. injection Hc as ->. by rewrite bool_decide_true.
  - intros i n Hi. unfold start in Hi. cbn in Hi. rewrite !lookup_insert_Some, lookup_singleton_Some in Hi.
    destruct Hi as [[_ <-]|[_ [[_ <-]|[_ [[_ <-]|[_ [[_ <-]|[_ [_ <-]]]]]]]]]; by left.
Qed.

End PosixDemo.

Lemma mm_copy_copies_witness :
  exists ok w', mm_copy_posix 11 (cs "f") (cs "g") 0 420 (PosixDemo.world PosixDemo.start) = Some (ok, w') /\
    PosixDemo.o_fds (px_os w') = ∅ /\
    copy_outcome (Regular (cs "0123456789")) (cs "g") (PosixDemo.o_fs PosixDemo.start) (PosixDemo.o_fs (px_os w')) ok.
Proof.
  apply (mm_copy_copies PosixDemo.o_fs PosixDemo.o_fds 11 (cs "f") (cs "g") 0 420 (Regular (cs "0123456789")) (PosixDemo.world PosixDemo.start)).
  - reflexivity.
  - cbn. lia.
Defined.

