(* ===== verification/VolumeWin32.v ===== *)
(** * Volumes and trash on Windows

    [volume-win32.c], the ids of the files and the string of the owner ([utils-win32.c]), and the part of
    [file-win32.c] that renames and deletes files: a file to delete is first renamed in the trash of its
    volume.  The volumes found are kept in a cache. *)

From S2P Require Import Prelude CStr Bytes Errcode TextMode Effects AccessWin32 FdTable.

(** ** Structures of the system *)

Record by_handle_info := mk_by_handle {
  bh_attributes : Z; ftCreationTime : Z; ftLastAccessTime : Z; ftLastWriteTime : Z;
  dwVolumeSerialNumber : Z; nFileSizeHigh : Z; nFileSizeLow : Z; nNumberOfLinks : Z; nFileIndexHigh : Z; nFileIndexLow : Z
}.

(** [FILE_ID_INFO]: the serial number of the volume and the file id of 128 bits. *)
Record file_id_info := mk_file_id { VolumeSerialNumber : Z; FileId : Z }.

Record find_data := mk_find { cFileName : list Z; dwFileAttributes : Z }.

(** A search of files, a volume search: handles.  UTF-16 strings are lists of their units. *)
Class W32Volume (OS : Type) := {
  GetLastError : OS -> w32err;
  GetFileInformation_id : Z -> OS -> w32err + file_id_info;
  GetFileInformationByHandle : Z -> OS -> w32err + by_handle_info;
  ConvertSidToStringSid : Z -> OS -> w32err + list Z;
  FindFirstVolumeW : OS -> (w32err + Z * list Z) * OS;
  FindNextVolumeW : Z -> OS -> (w32err + list Z) * OS;
  FindVolumeClose : Z -> OS -> OS;
  GetVolumeInformation_fs : Z -> OS -> option (list Z);
  FindFirstFileW : list Z -> OS -> (w32err + Z * find_data) * OS;
  FindNextFileW : Z -> OS -> (w32err + find_data) * OS;
  FindClose : Z -> OS -> OS;
  DeleteFileW : list Z -> OS -> OS;
  SetFileInformation_rename : Z -> list Z -> OS -> option w32err * OS;
  SetFileInformation_dispose : Z -> OS -> OS
}.

Definition MAX_PATH : nat := 260.
(** Units that the buffer of the new name holds. *)
Definition TRASH_BUFFER : nat := 263.
Definition MAX_VOLUMES : nat := 32.
Definition INVALID_VOLUME_DEV : Z := 2 ^ 64 - 1.

Inductive fs_kind := FSTYPE_UNKNOWN | FSTYPE_NTFS | FSTYPE_FAT32 | FSTYPE_EXFAT.

Record volume := mk_volume { vol_dev : Z; guid_path : list Z; fs_type : fs_kind }.

(** ASCII text in UTF-16. *)
Definition u16 (s : cstr) : list Z := map code s.

Section Volumes.

Context {OS : Type} `{!W32File OS, !W32Volume OS}.

(** The descriptors and the system, the cache, and the string of the owner computed once: [Some None] if it could not be. *)
Record file_world := mk_file_world {
  fw_fd : fd_world (OS := OS); cached_volumes : list volume; owner_sid_str : option (option (list Z))
}.

Abbreviation M := (ST file_world).

Definition lift {A} (m : ST (fd_world (OS := OS)) A) : M A := fun w =>
  '(a, fd) ← m (fw_fd w); Some (a, mk_file_world fd (cached_volumes w) (owner_sid_str w)).
Definition callw {A} (f : OS -> A * OS) : M A := lift (call f).
Definition askw {A} (f : OS -> A) : M A := lift (ask f).
Definition runw (f : OS -> OS) : M unit := callw (fun os => (tt, f os)).
Definition raisew (e : errcode) : M Z := lift (raise e).
Definition raisew_w32 (e : w32err) : M Z := lift (raise_w32 e).
Definition raise_last : M Z := e ← askw GetLastError; raisew_w32 e.

(** ** File ids *)

(** [None] is the failure, its error being raised. *)
Definition get_file_id_info_from_handle (hnd : Z) : M (option file_id_info) :=
  r ← askw (GetFileInformation_id hnd);
  match r with
  | inr info => mret (Some info)
  | inl _ =>
      f ← askw (GetFileInformationByHandle hnd);
      match f with
      | inl e => _ ← raisew_w32 e; mret None
      | inr i => mret (Some (mk_file_id (dwVolumeSerialNumber i) (Z.lor (nFileIndexLow i) (Z.shiftl (nFileIndexHigh i) 32))))
      end
  end.

Definition init_owner_sid_str : M (option (list Z)) :=
  owner ← askw (fun os => match caller_sids os with inl e => inl e | inr (owner, _) => ConvertSidToStringSid owner os end);
  match owner with
  | inl e => _ ← raisew_w32 e; mret None
  | inr s => mret (Some s)
  end.

(** The initialisation runs once. *)
Definition get_caller_string_sid_u16 : M (option (list Z)) :=
  done ← st_gets owner_sid_str;
  match done with
  | Some s => mret s
  | None =>
      s ← init_owner_sid_str;
      st_modify (fun w => mk_file_world (fw_fd w) (cached_volumes w) (Some s));; mret s
  end.

(** ** Volumes *)

Definition open_volume_path (path : list Z) : M (w32err + Z) :=
  callw (CreateFileW path READ_CONTROL OPEN_EXISTING None FILE_FLAG_BACKUP_SEMANTICS).

Definition get_volume_dev (hnd : Z) : M Z :=
  info ← get_file_id_info_from_handle hnd;
  mret (match info with Some i => VolumeSerialNumber i | None => INVALID_VOLUME_DEV end).

Definition get_volume_fs_type (hnd : Z) (os : OS) : fs_kind :=
  match GetVolumeInformation_fs hnd os with
  | None => FSTYPE_UNKNOWN
  | Some name =>
      if bool_decide (name = u16 (cs "NTFS")) then FSTYPE_NTFS
      else if bool_decide (name = u16 (cs "FAT32")) then FSTYPE_FAT32
      else if bool_decide (name = u16 (cs "EXFAT")) then FSTYPE_EXFAT
      else FSTYPE_UNKNOWN
  end.

Definition volume_init (path : list Z) (dev hnd : Z) : M volume :=
  fs ← askw (get_volume_fs_type hnd); mret (mk_volume dev path fs).

Definition search_in_cached_volumes (dev : Z) (vols : list volume) : option volume :=
  List.find (fun v => dev =? vol_dev v) vols.

(** One turn of the loop: the volume if it is the one searched. *)
Definition try_volume (dev : Z) (root : list Z) : M (option volume) :=
  h ← open_volume_path root;
  match h with
  | inl _ => mret None
  | inr hnd =>
      d ← get_volume_dev hnd;
      vol ← (if dev =? d then
               v ← volume_init root dev hnd;
               st_modify (fun w => mk_file_world (fw_fd w) (cached_volumes w ++ [v]) (owner_sid_str w));;
               mret (Some v)
             else mret None);
      runw (CloseHandle hnd);; mret vol
  end.

(** The loop on the volumes of the system, from [root] on; [inl tt] is fuel exhausted. *)
Fixpoint volume_loop (fuel : nat) (dev find_hnd : Z) (root : list Z) : M (unit + option volume) :=
  match fuel with
  | O => mret (inl tt)
  | S fuel =>
      vol ← try_volume dev root;
      match vol with
      | Some v => mret (inr (Some v))
      | None =>
          next ← callw (FindNextVolumeW find_hnd);
          match next with
          | inl _ => mret (inr None)
          | inr root => volume_loop fuel dev find_hnd root
          end
      end
  end.

Definition add_volume (fuel : nat) (dev : Z) : M (unit + option volume) :=
  vols ← st_gets cached_volumes;
  if (length vols =? MAX_VOLUMES)%nat then _ ← raisew E_OVERFLOW; mret (inr None)
  else
    r ← callw FindFirstVolumeW;
    match r with
    | inl e => _ ← raisew_w32 e; mret (inr None)
    | inr (find_hnd, root) =>
        v ← volume_loop fuel dev find_hnd root;
        runw (FindVolumeClose find_hnd);;
        match v with
        | inr None => _ ← raisew E_NODEV; mret (inr None)
        | _ => mret v
        end
    end.

Definition get_volume_from_dev (fuel : nat) (dev : Z) : M (unit + option volume) :=
  vols ← st_gets cached_volumes;
  match search_in_cached_volumes dev vols with
  | Some v => mret (inr (Some v))
  | None => add_volume fuel dev
  end.

(** [swprintf] of a text in [MAX_PATH] units. *)
Definition swprintf (n : nat) (text : list Z) : option (list Z) := if (length text <? n)%nat then Some text else None.

Definition volume_get_trash_prefix_u16 (vol : volume) : M (option (list Z)) :=
  match fs_type vol with
  | FSTYPE_FAT32 | FSTYPE_EXFAT => mret (swprintf MAX_PATH (guid_path vol ++ u16 (cs "\")))
  | _ =>
      sid ← get_caller_string_sid_u16;
      mret (s ← sid; swprintf MAX_PATH (guid_path vol ++ u16 (cs "\$Recycle.bin\") ++ s ++ u16 (cs "\")))
  end.

(** ** Trash *)

(** The names found are written in the buffer of the prefix, without check of their length. *)
Definition delete_in_trash (prefix : list Z) (d : find_data) : M unit :=
  if (TRASH_BUFFER <=? length prefix + length (cFileName d))%nat then st_ub else runw (DeleteFileW (prefix ++ cFileName d)).

(** The loop on the files found, from [d] on. *)
Fixpoint scrub_loop (fuel : nat) (find_hnd : Z) (prefix : list Z) (d : find_data) : M unit :=
  match fuel with
  | O => st_ub
  | S fuel =>
      delete_in_trash prefix d;;
      (r ← callw (FindNextFileW find_hnd);
       match r with inl _ => mret tt | inr d => scrub_loop fuel find_hnd prefix d end)
  end.

Definition scrub_user_trash_path (fuel : nat) (prefix : list Z) : M unit :=
  r ← callw (FindFirstFileW (prefix ++ u16 (cs ".mmlib-*.deleted")));
  match r with
  | inl _ => mret tt
  | inr (find_hnd, d) => scrub_loop fuel find_hnd prefix d;; runw (FindClose find_hnd)
  end.

(** [%016llx]. *)
Definition hex_digit (d : Z) : Z := if d <? 10 then 48 + d else 97 + (d - 10).
Fixpoint hex (n : nat) (z : Z) : list Z :=
  match n with O => [] | S n => hex n (z / 16) ++ [hex_digit (z mod 16)] end.

Definition trash_name (prefix : list Z) (id : Z) : list Z :=
  prefix ++ u16 (cs ".mmlib-") ++ hex 16 (Z.shiftr id 64) ++ hex 16 (id mod 2 ^ 64) ++ u16 (cs ".deleted").

(** Whether the file is in the trash; a name too long for the buffer is not described by the C library. *)
Definition rename_file_to_trash_from_handle (fuel : nat) (hnd : Z) : M bool :=
  info ← get_file_id_info_from_handle hnd;
  match info with
  | None => mret false
  | Some info =>
      vol ← get_volume_from_dev fuel (VolumeSerialNumber info);
      match vol with
      | inl tt => st_ub
      | inr None => mret false
      | inr (Some vol) =>
          prefix ← volume_get_trash_prefix_u16 vol;
          match prefix with
          | None => mret false
          | Some prefix =>
              scrub_user_trash_path fuel prefix;;
              (let name := trash_name prefix (FileId info) in
               if (MAX_PATH <=? length name)%nat then st_ub
               else r ← callw (SetFileInformation_rename hnd name); mret (bool_decide (r = None)))
          end
      end
  end.

Definition delete_file_from_handle (fuel : nat) (hnd : Z) : M bool :=
  ok ← rename_file_to_trash_from_handle fuel hnd;
  if ok : bool then runw (SetFileInformation_dispose hnd);; mret true else mret false.

Definition FILE_SYMLINK_FLAGS : Z := Z.lor FILE_FLAG_OPEN_REPARSE_POINT FILE_FLAG_BACKUP_SEMANTICS.
Definition DELETE_ACCESS : Z := Z.lor DELETE FILE_WRITE_ATTRIBUTES.

Definition mm_unlink (fuel : nat) (path : cstr) : M Z :=
  r ← callw (open_handle path DELETE_ACCESS OPEN_EXISTING None FILE_SYMLINK_FLAGS);
  match r with
  | inl e => raisew_w32 e
  | inr hnd =>
      ok ← delete_file_from_handle fuel hnd;
      rv ← (if ok : bool then mret 0 else raise_last);
      runw (CloseHandle hnd);; mret rv
  end.

(** The failures after the conversion of the path raise no error. *)
Definition mm_rename (fuel : nat) (oldpath newpath : cstr) : M Z :=
  match utf8_to_utf16 newpath with
  | None => raisew_w32 ERROR_NO_UNICODE_TRANSLATION
  | Some name =>
      old ← callw (open_handle oldpath DELETE_ACCESS OPEN_EXISTING None FILE_FLAG_BACKUP_SEMANTICS);
      match old with
      | inl _ => mret (-1)
      | inr hndold =>
          r ← callw (SetFileInformation_rename hndold name);
          '(rv, hndnew) ← match r with
               | None => mret (0, None)
               | Some _ =>
                   new ← callw (CreateFileW name DELETE_ACCESS OPEN_EXISTING None FILE_FLAG_BACKUP_SEMANTICS);
                   match new with
                   | inl _ => mret (-1, None)
                   | inr hndnew =>
                       ok ← rename_file_to_trash_from_handle fuel hndnew;
                       rv ← (if ok : bool then
                               r2 ← callw (SetFileInformation_rename hndold name);
                               mret (match r2 with None => 0 | Some _ => -1 end)
                             else mret (-1));
                       mret (rv, Some hndnew)
                   end
               end;
          runw (CloseHandle hndold);;
          match hndnew with Some h => runw (CloseHandle h);; mret rv | None => mret rv end
      end
  end.

End Volumes.

Arguments file_world : clear implicits.

(** ** Names in the trash *)

Lemma hex_length n z : length (hex n z) = n.
Proof. revert z. induction n as [|n IH]; intros z; cbn [hex]; [done|]. rewrite length_app, IH. cbn. lia. Qed.

Lemma hex_digit_inj a b : 0 <= a < 16 -> 0 <= b < 16 -> hex_digit a = hex_digit b -> a = b.
Proof. unfold hex_digit. intros. destruct (Z.ltb_spec a 10), (Z.ltb_spec b 10); lia. Qed.

Lemma hex_inj n a b : 0 <= a < 16 ^ Z.of_nat n -> 0 <= b < 16 ^ Z.of_nat n -> hex n a = hex n b -> a = b.
Proof.
  revert a b. induction n as [|n IH]; intros a b Ha Hb; cbn [hex].
  - change (16 ^ Z.of_nat 0) with 1 in *. lia.
  - intros E. rewrite Nat2Z.inj_succ, Z.pow_succ_r in Ha, Hb by lia. apply app_inj_tail in E as [E1 E2].
    apply hex_digit_inj in E2; [|apply Z.mod_pos_bound; lia|apply Z.mod_pos_bound; lia].
    apply IH in E1; [|split; [apply Z.div_pos; lia|apply Z.div_lt_upper_bound; lia]|split; [apply Z.div_pos; lia|apply Z.div_lt_upper_bound; lia]].
    pose proof (Z.div_mod a 16 ltac:(lia)). pose proof (Z.div_mod b 16 ltac:(lia)). lia.
Qed.

(** Two files of a volume never have the same name in the trash. *)
Lemma trash_name_injective prefix a b :
  in_u 128 a -> in_u 128 b -> trash_name prefix a = trash_name prefix b -> a = b.
Proof.
  unfold in_u, trash_name. intros Ha Hb E. do 2 apply app_inv_head in E.
  apply app_inj_1 in E as [E1 E2]; [|by rewrite !hex_length]. apply app_inj_1 in E2 as [E2 _]; [|by rewrite !hex_length].
  assert (Hd : forall z, 0 <= z < 2 ^ 128 -> 0 <= Z.shiftr z 64 < 16 ^ Z.of_nat 16 /\ 0 <= z mod 2 ^ 64 < 16 ^ Z.of_nat 16).
  { intros z Hz. change (16 ^ Z.of_nat 16) with (2 ^ 64). rewrite Z.shiftr_div_pow2 by lia. split.
    - split; [apply Z.div_pos; lia|]. apply Z.div_lt_upper_bound; [lia|]. change (2 ^ 64 * 2 ^ 64) with (2 ^ 128). lia.
    - apply Z.mod_pos_bound. lia. }
  apply hex_inj in E1; [|by apply Hd|by apply Hd]. apply hex_inj in E2; [|by apply Hd|by apply Hd].
  rewrite !Z.shiftr_div_pow2 in E1 by lia.
  pose proof (Z.div_mod a (2 ^ 64) ltac:(lia)). pose proof (Z.div_mod b (2 ^ 64) ltac:(lia)). congruence.
Qed.

(** ** The cache of the volumes *)

(** [vol_left os h]: how many volumes a search has still to give. *)
Class VolumeLaws (OS : Type) `{!W32File OS, !W32Volume OS} (vol_left : OS -> Z -> nat) : Prop := {
  law_next_volume h os : forall root, (FindNextVolumeW h os).1 = inr root -> (vol_left (FindNextVolumeW h os).2 h < vol_left os h)%nat;
  law_volume_open path os h : vol_left (CreateFileW path READ_CONTROL OPEN_EXISTING None FILE_FLAG_BACKUP_SEMANTICS os).2 h = vol_left os h;
  law_volume_close hnd os h : vol_left (CloseHandle hnd os) h = vol_left os h
}.

(** At most [MAX_VOLUMES] volumes, each once. *)
Definition cache_wf (vols : list volume) : Prop := (length vols <= MAX_VOLUMES)%nat /\ NoDup (map vol_dev vols).

Section Cache.

Context {OS : Type} `{!W32File OS, !W32Volume OS} (vol_left : OS -> Z -> nat) `{!VolumeLaws OS vol_left}.

Abbreviation world := (file_world OS).
Abbreviation os_of w := (fd_os (fw_fd w)).

Lemma callw_spec {A} (f : OS -> A * OS) (w : world) :
  exists w', callw f w = Some ((f (os_of w)).1, w') /\ os_of w' = (f (os_of w)).2 /\ cached_volumes w' = cached_volumes w /\
    last_error (fw_fd w') = last_error (fw_fd w).
Proof. unfold callw, lift, call, st_zoom. destruct (f (os_of w)) as [a os]. cbn. by eexists. Qed.

Lemma askw_spec {A} (f : OS -> A) (w : world) : askw f w = Some (f (os_of w), w).
Proof. unfold askw, lift, ask, st_gets. cbn. by destruct w. Qed.

Lemma raisew_spec e (w : world) :
  exists w', raisew e w = Some (-1, w') /\ os_of w' = os_of w /\ cached_volumes w' = cached_volumes w /\ last_error (fw_fd w') = Some e.
Proof. by eexists. Qed.

Lemma raisew_w32_spec e (w : world) :
  exists w', raisew_w32 e w = Some (-1, w') /\ os_of w' = os_of w /\ cached_volumes w' = cached_volumes w /\
    last_error (fw_fd w') = Some (get_errcode_from_w32err e).
Proof. by eexists. Qed.

Lemma file_id_spec hnd (w : world) :
  exists r w', get_file_id_info_from_handle hnd w = Some (r, w') /\ os_of w' = os_of w /\ cached_volumes w' = cached_volumes w.
Proof.
  unfold get_file_id_info_from_handle. rewrite (st_bind_Some _ _ _ _ _ (askw_spec _ w)).
  destruct (GetFileInformation_id hnd (os_of w)) as [e|info]; [|by do 2 eexists].
  rewrite (st_bind_Some _ _ _ _ _ (askw_spec _ w)). destruct (GetFileInformationByHandle hnd (os_of w)) as [e'|i]; [|by do 2 eexists].
  destruct (raisew_w32_spec e' w) as (w1 & H1 & Ho & Hc & _). rewrite (st_bind_Some _ _ _ _ _ H1). by do 2 eexists.
Qed.

Lemma try_volume_spec dev root (w : world) :
  exists r w', try_volume dev root w = Some (r, w') /\
    (forall h, vol_left (os_of w') h = vol_left (os_of w) h) /\
    match r with Some v => vol_dev v = dev /\ cached_volumes w' = cached_volumes w ++ [v] | None => cached_volumes w' = cached_volumes w end.
Proof.
  unfold try_volume, open_volume_path. destruct (callw_spec (CreateFileW root READ_CONTROL OPEN_EXISTING None FILE_FLAG_BACKUP_SEMANTICS) w)
    as (w1 & H1 & Ho1 & Hc1 & _). rewrite (st_bind_Some _ _ _ _ _ H1).
  assert (Hl1 : forall h, vol_left (os_of w1) h = vol_left (os_of w) h) by (intros h; rewrite Ho1; apply law_volume_open).
  destruct (CreateFileW _ _ _ _ _ (os_of w)).1 as [e|hnd]; [by exists None, w1|].
  destruct (file_id_spec hnd w1) as (info & w2 & H2 & Ho2 & Hc2). unfold get_volume_dev.
  unfold mbind at 1, st_bind at 1. rewrite (st_bind_Some _ _ _ _ _ H2). cbn [mret st_ret]. set (d := match info with Some _ => _ | None => _ end).
  destruct (dev =? d).
  - unfold volume_init. unfold mbind at 1, st_bind at 1. unfold mbind at 1, st_bind at 1. rewrite (st_bind_Some _ _ _ _ _ (askw_spec _ w2)).
    cbn [mret st_ret]. set (v := mk_volume _ _ _). unfold mbind at 1, st_bind at 1, st_modify at 1. cbn [mret st_ret].
    set (w3 := mk_file_world _ _ _). unfold runw. destruct (callw_spec (fun os => (tt, CloseHandle hnd os)) w3) as (w4 & H4 & Ho4 & Hc4 & _).
    rewrite (st_bind_Some _ _ _ _ _ H4). exists (Some v), w4. split; [done|]. split.
    + intros h. rewrite Ho4. cbn. rewrite law_volume_close. change (fw_fd w3) with (fw_fd w2). by rewrite Ho2.
    + split; [done|]. rewrite Hc4. cbn. by rewrite Hc2, Hc1.
  - unfold mbind at 1, st_bind at 1. cbn [mret st_ret]. unfold runw.
    destruct (callw_spec (fun os => (tt, CloseHandle hnd os)) w2) as (w4 & H4 & Ho4 & Hc4 & _).
    rewrite (st_bind_Some _ _ _ _ _ H4). exists None, w4. split; [done|]. split.
    + intros h. rewrite Ho4. cbn. by rewrite law_volume_close, Ho2.
    + by rewrite Hc4, Hc2.
Qed.

Lemma volume_loop_spec fuel dev find_hnd root (w : world) :
  (vol_left (os_of w) find_hnd < fuel)%nat ->
  exists r w', volume_loop fuel dev find_hnd root w = Some (inr r, w') /\
    match r with Some v => vol_dev v = dev /\ cached_volumes w' = cached_volumes w ++ [v] | None => cached_volumes w' = cached_volumes w end.
Proof.
  revert root w. induction fuel as [|fuel IH]; intros root w Hf; [lia|]. cbn [volume_loop].
  destruct (try_volume_spec dev root w) as (r & w1 & H1 & Hl & Hr). rewrite (st_bind_Some _ _ _ _ _ H1).
  destruct r as [v|]; [by exists (Some v), w1|].
  destruct (callw_spec (FindNextVolumeW find_hnd) w1) as (w2 & H2 & Ho2 & Hc2 & _). rewrite (st_bind_Some _ _ _ _ _ H2).
  pose proof (law_next_volume find_hnd (os_of w1)) as L. destruct (FindNextVolumeW find_hnd (os_of w1)).1 as [e|root'] eqn:E.
  { exists None, w2. split; [done|]. by rewrite Hc2. }
  specialize (L root' eq_refl). rewrite <- Ho2, Hl in L. destruct (IH root' w2) as (r & w3 & H3 & Hr3); [lia|].
  exists r, w3. split; [done|]. rewrite Hc2, Hr in Hr3. done.
Qed.

Lemma search_cached dev vols :
  match search_in_cached_volumes dev vols with Some v => v ∈ vols /\ vol_dev v = dev | None => dev ∉ map vol_dev vols end.
Proof.
  unfold search_in_cached_volumes. destruct (List.find _ vols) as [v|] eqn:E.
  - apply List.find_some in E as [Hin Hd]. split; [by apply list_elem_of_In|]. by apply Z.eqb_eq in Hd.
  - intros Hin. apply list_elem_of_fmap in Hin as (v & -> & Hin). apply list_elem_of_In in Hin.
    pose proof (List.find_none _ _ E v Hin) as H. cbn in H. by rewrite Z.eqb_refl in H.
Qed.

(** The cache of the volumes: for any device the search ends, gives a volume of this device that is in the
    cache, or raises an error without a change; the cache keeps what it has, holds at most
    [MAX_VOLUMES] volumes and each device once. *)
Theorem volume_cache (fuel : nat) (dev : Z) (w : world) :
  cache_wf (cached_volumes w) ->
  (forall h root, (FindFirstVolumeW (os_of w)).1 = inr (h, root) -> (vol_left (FindFirstVolumeW (os_of w)).2 h < fuel)%nat) ->
  exists r w', get_volume_from_dev fuel dev w = Some (inr r, w') /\ cache_wf (cached_volumes w') /\
    match r with
    | Some v => vol_dev v = dev /\ v ∈ cached_volumes w' /\ (cached_volumes w' = cached_volumes w \/ cached_volumes w' = cached_volumes w ++ [v])
    | None => cached_volumes w' = cached_volumes w /\ last_error (fw_fd w') <> None
    end.
Proof.
  intros [Hlen Hnd] Hf. unfold get_volume_from_dev. rewrite (st_bind_Some _ _ w (cached_volumes w) w) by done.
  pose proof (search_cached dev (cached_volumes w)) as Hs. destruct (search_in_cached_volumes dev (cached_volumes w)) as [v|].
  { exists (Some v), w. split; [done|]. split; [done|]. destruct Hs. by split_and!; [| |left]. }
  unfold add_volume. rewrite (st_bind_Some _ _ w (cached_volumes w) w) by done.
  destruct (Nat.eqb_spec (length (cached_volumes w)) MAX_VOLUMES) as [E|E].
  { destruct (raisew_spec E_OVERFLOW w) as (w1 & H1 & _ & Hc & He). rewrite (st_bind_Some _ _ _ _ _ H1).
    exists None, w1. split; [done|]. rewrite Hc, He. by split_and!. }
  destruct (callw_spec FindFirstVolumeW w) as (w1 & H1 & Ho1 & Hc1 & _). rewrite (st_bind_Some _ _ _ _ _ H1).
  destruct (FindFirstVolumeW (os_of w)).1 as [e|[find_hnd root]].
  { destruct (raisew_w32_spec e w1) as (w2 & H2 & _ & Hc & He). rewrite (st_bind_Some _ _ _ _ _ H2).
    exists None, w2. split; [done|]. rewrite Hc, He, Hc1. by split_and!. }
  specialize (Hf find_hnd root eq_refl). rewrite <- Ho1 in Hf.
  destruct (volume_loop_spec fuel dev find_hnd root w1 Hf) as (r & w2 & H2 & Hr). rewrite (st_bind_Some _ _ _ _ _ H2).
  unfold runw. destruct (callw_spec (fun os => (tt, FindVolumeClose find_hnd os)) w2) as (w3 & H3 & _ & Hc3 & _).
  rewrite (st_bind_Some _ _ _ _ _ H3). rewrite Hc1 in Hr. destruct r as [v|].
  - destruct Hr as [Hd Hc]. exists (Some v), w3. split; [done|]. rewrite Hc3, Hc. split.
    + split; [rewrite length_app; cbn; lia|]. rewrite map_app. apply NoDup_app. split_and!; [done| |apply NoDup_singleton].
      intros x Hx Hx'. apply list_elem_of_singleton in Hx' as ->. by rewrite Hd in Hx.
    + split_and!; [done| |by right]. apply elem_of_app. right. by apply list_elem_of_singleton.
  - destruct (raisew_spec E_NODEV w3) as (w4 & H4 & _ & Hc4 & He4). rewrite (st_bind_Some _ _ _ _ _ H4).
    exists None, w4. split; [done|]. rewrite Hc4, Hc3, Hr, He4. by split_and!.
Qed.

End Cache.

(** ** A system with volumes *)

Module VolumeDemo.
Import FdTable.Demo.

(** The names of the volumes to come are the inputs of the system, and the serial number of a volume is their number. *)
#[global] Instance volume_calls : W32Volume os := {
  GetLastError _ := ERROR_SUCCESS;
  GetFileInformation_id _ o := inr (mk_file_id (Z.min 2 (Z.of_nat (length (input o)))) 5);
  GetFileInformationByHandle _ _ := inl ERROR_INVALID_HANDLE;
  ConvertSidToStringSid sid _ := inr (u16 (cs "S-1"));
  FindFirstVolumeW o := match input o with s :: rest => (inr (7, u16 s), mk_os (fds o) rest (output o) (processes o)) | [] => (inl ERROR_NO_MORE_FILES, o) end;
  FindNextVolumeW _ o := match input o with s :: rest => (inr (u16 s), mk_os (fds o) rest (output o) (processes o)) | [] => (inl ERROR_NO_MORE_FILES, o) end;
  FindVolumeClose _ o := o;
  GetVolumeInformation_fs _ _ := Some (u16 (cs "NTFS"));
  FindFirstFileW _ o := (inl ERROR_FILE_NOT_FOUND, o);
  FindNextFileW _ o := (inl ERROR_NO_MORE_FILES, o);
  FindClose _ o := o;
  DeleteFileW _ o := o;
  SetFileInformation_rename _ name o := (None, mk_os (fds o) (input o) (map byte_char name) (processes o));
  SetFileInformation_dispose _ o := o
}.

#[global] Instance volume_laws : VolumeLaws os (fun o _ => length (input o)).
Proof.
  split; try done. intros h o root. cbn. destruct (input o) as [|s rest]; cbn; [done|lia].
Qed.

Definition start : file_world os :=
  mk_file_world (mk_fd_world (fd_infos Demo.start) (mk_os {[0 := 90]} [cs "V1\"; cs "V2\"; cs "V3\"] [] []) None) [] None.

Example second_volume :
  (fun p => (p.1, cached_volumes p.2)) <$> get_volume_from_dev 4 1 start
  = Some (inr (Some (mk_volume 1 (u16 (cs "V2\")) FSTYPE_NTFS)), [mk_volume 1 (u16 (cs "V2\")) FSTYPE_NTFS]).
Proof. vm_compute. reflexivity. Qed.

(** A file deleted is renamed in the trash of its volume. *)
Example unlink_renames :
  (fun p => (p.1, output (fd_os (fw_fd p.2)))) <$> mm_unlink 4 (cs "f") start
  = Some (0, cs "V1\\$Recycle.bin\S-1\.mmlib-00000000000000000000000000000005.deleted").
Proof. vm_compute. reflexivity. Qed.

End VolumeDemo.

Lemma volume_cache_witness :
  exists r w', get_volume_from_dev 4 1 VolumeDemo.start = Some (inr r, w') /\ cache_wf (cached_volumes w') /\
    match r with
    | Some v => vol_dev v = 1 /\ v ∈ cached_volumes w' /\ (cached_volumes w' = [] \/ cached_volumes w' = [v])
    | None => cached_volumes w' = [] /\ last_error (fw_fd w') <> None
    end.
Proof.
  apply (volume_cache (fun o _ => length (Demo.input o)) 4 1 VolumeDemo.start).
  - split; [cbn; lia|constructor].
  - intros h root _. cbn. lia.
Defined.
