(* ===== verification/FileWin32.v ===== *)
(** * Files on Windows: metadata, directories and copies

    The rest of [file-win32.c]: access, links, working directory, directory streams, recursive removal, stat,
    times, symbolic links, copies and creation of directories.  The calls of the system are the class [W32Meta], with
    those of [FdTable] and [VolumeWin32].  [None] of the monad is undefined behaviour or fuel exhausted; the memory allocated is
    always obtained. *)

From S2P Require Import Prelude Time CStr Errcode Effects ErrorState TextMode Utils CopyLoop File FilePosix AccessWin32 FdTable IpcWin32 FdWin32 VolumeWin32.

(** ** Constants *)

Definition FILE_ATTRIBUTE_DIRECTORY : Z := 0x10.
Definition FILE_ATTRIBUTE_ARCHIVE : Z := 0x20.
Definition FILE_ATTRIBUTE_REPARSE_POINT : Z := 0x400.
Definition IO_REPARSE_TAG_SYMLINK : Z := 0xA000000C.
Definition IO_REPARSE_TAG_MOUNT_POINT : Z := 0xA0000003.
Definition SYMBOLIC_LINK_FLAG_DIRECTORY : Z := 0x1.
Definition SYMBOLIC_LINK_FLAG_ALLOW_UNPRIVILEGED_CREATE : Z := 0x02.
Definition FILE_ALL_ACCESS : Z := 0x1F01FF.
Definition GENERIC_ALL : Z := 0x10000000.
Definition MAXDWORD : Z := 0xFFFFFFFF.
Definition INVALID_HANDLE_VALUE : Z := -1.
Definition F_OK : Z := 0.
Definition X_OK : Z := 1.
Definition W_OK : Z := 2.
Definition R_OK : Z := 4.
Definition UTIME_NOW : Z := -1.
Definition UTIME_OMIT : Z := -2.

(** [REPARSE_DATA_BUFFER]: offset and length are in bytes in the units of the buffer. *)
Record reparse_data := mk_reparse { ReparseTag : Z; SubstituteNameOffset : nat; SubstituteNameLength : nat; PathBuffer : list Z }.

Class W32Meta (OS : Type) := {
  get_errno : OS -> errcode;
  GetKernelObjectSecurity : Z -> OS -> w32err + secdesc;
  AccessCheck : secdesc -> Z -> OS -> w32err + bool;             (* with a token of the process *)
  GetFileInformation_tag : Z -> OS -> w32err + Z * Z;            (* attributes and reparse tag *)
  DeviceIoControl_reparse : Z -> OS -> w32err + reparse_data;
  CreateHardLinkW : list Z -> list Z -> OS -> option w32err * OS;
  CreateSymbolicLinkW : list Z -> list Z -> Z -> OS -> option w32err * OS;
  GetFileAttributesW : list Z -> OS -> option Z;
  GetFileAttributesA : cstr -> OS -> w32err + Z;
  CreateDirectoryW : list Z -> option secdesc -> OS -> option w32err * OS;
  _wchdir : list Z -> OS -> option errcode * OS;
  _wrmdir : list Z -> OS -> option errcode * OS;
  GetCurrentDirectoryW : nat -> OS -> w32err + nat * list Z;     (* value returned, content of the buffer *)
  ReOpenFile : Z -> Z -> OS -> (w32err + Z) * OS;
  SetFileTime : Z -> Z -> Z -> OS -> option w32err * OS;         (* times of access and of modification *)
  GetSystemTimePreciseAsFileTime : OS -> Z
}.

Section Files.

Context {OS : Type} `{!W32File OS, !W32Pipe OS, !W32Volume OS, !W32Meta OS}.

Abbreviation M := (ST (file_world OS)).

Definition raise_errno : M Z := e ← askw get_errno; raisew e.
(** A failure is raised, a success is 0. *)
Definition or_raise_w32 (r : option w32err) : M Z := match r with Some e => raisew_w32 e | None => mret 0 end.
Definition or_raise (r : option errcode) : M Z := match r with Some e => raisew e | None => mret 0 end.
(** A path that is not UTF-8 is a failure. *)
Definition with_utf16 (path : cstr) (f : list Z -> M Z) : M Z :=
  match utf8_to_utf16 path with None => raisew_w32 ERROR_NO_UNICODE_TRANSLATION | Some path_u16 => f path_u16 end.

(** ** Access *)

Definition MapGenericMask (r : Z) : Z :=
  let m := Z.lor r (if has r GENERIC_READ then FILE_GENERIC_READ else 0) in
  let m := Z.lor m (if has r GENERIC_WRITE then FILE_GENERIC_WRITE else 0) in
  let m := Z.lor m (if has r GENERIC_EXECUTE then FILE_GENERIC_EXECUTE else 0) in
  let m := Z.lor m (if has r GENERIC_ALL then FILE_ALL_ACCESS else 0) in
  Z.land m (Z.lnot (lor_all [GENERIC_READ; GENERIC_WRITE; GENERIC_EXECUTE; GENERIC_ALL])).

(** [inl] is the failure. *)
Definition test_access (sd : secdesc) (access_rights : Z) (os : OS) : w32err + access_result :=
  match AccessCheck sd (MapGenericMask access_rights) os with
  | inl e => inl e
  | inr result => inr (if result then AccessOk else AccessErr E_ACCES)
  end.

(** [local_secdesc_init_from_handle] with its last error. *)
Definition secdesc_from_handle (hnd : Z) (os : OS) : w32err + secdesc :=
  match GetKernelObjectSecurity hnd os with
  | inl e => inl e
  | inr sd => match local_secdesc_init_from_handle (Some sd) with Some sd => inr sd | None => inl ERROR_INSUFFICIENT_BUFFER end
  end.

Definition rights_of_amode (amode : Z) : Z :=
  lor_all [if has amode R_OK then GENERIC_READ else 0; if has amode W_OK then GENERIC_WRITE else 0; if has amode X_OK then GENERIC_EXECUTE else 0].

Definition mm_check_access (path : cstr) (amode : Z) : M access_result :=
  h ← callw (open_handle_for_metadata path false);
  match h with
  | inl e =>
      if bool_decide (e = ERROR_PATH_NOT_FOUND) || bool_decide (e = ERROR_FILE_NOT_FOUND) then mret (AccessErr E_NOENT)
      else _ ← raisew_w32 e; mret AccessFailed
  | inr hnd =>
      rv ← (if amode =? F_OK then mret (inr AccessOk)
            else askw (fun os => match secdesc_from_handle hnd os with
                                 | inl e => inl e
                                 | inr sd => test_access sd (rights_of_amode amode) os
                                 end));
      rv ← match rv with inl e => _ ← raisew_w32 e; mret AccessFailed | inr r => mret r end;
      runw (CloseHandle hnd);; mret rv
  end.

(** ** Links and working directory *)

Definition mm_link (oldpath newpath : cstr) : M Z :=
  with_utf16 oldpath (fun oldpath_u16 => with_utf16 newpath (fun newpath_u16 =>
    r ← callw (CreateHardLinkW newpath_u16 oldpath_u16); or_raise_w32 r)).

(** A second attempt is made without the flag that old systems do not know. *)
Definition mm_symlink (oldpath newpath : cstr) : M Z :=
  with_utf16 oldpath (fun oldpath_u16 => with_utf16 newpath (fun newpath_u16 =>
    file_attrs ← askw (GetFileAttributesW oldpath_u16);
    let dir := match file_attrs with Some a => has a FILE_ATTRIBUTE_DIRECTORY | None => false end in
    let flags := Z.lor SYMBOLIC_LINK_FLAG_ALLOW_UNPRIVILEGED_CREATE (if dir then SYMBOLIC_LINK_FLAG_DIRECTORY else 0) in
    err ← callw (CreateSymbolicLinkW newpath_u16 oldpath_u16 flags);
    err ← (if bool_decide (err = Some ERROR_INVALID_PARAMETER)
           then callw (CreateSymbolicLinkW newpath_u16 oldpath_u16 (Z.land flags (Z.lnot SYMBOLIC_LINK_FLAG_ALLOW_UNPRIVILEGED_CREATE)))
           else mret err);
    or_raise_w32 err)).

Definition mm_chdir (path : cstr) : M Z := with_utf16 path (fun p => r ← callw (_wchdir p); or_raise r).
Definition mm_rmdir (path : cstr) : M Z := with_utf16 path (fun p => r ← callw (_wrmdir p); or_raise r).

(** The loop that grows the buffer: the current directory, in UTF-16. *)
Fixpoint getcwd_loop (fuel path_u16_len : nat) : M (option (list Z)) :=
  match fuel with
  | O => st_ub
  | S fuel =>
      r ← askw (GetCurrentDirectoryW path_u16_len);
      match r with
      | inl e => _ ← raisew_w32 e; mret None
      | inr (ret, path_u16) => if (ret <? path_u16_len)%nat then mret (Some path_u16) else getcwd_loop fuel ret
      end
  end.

(** [size] is that of the buffer, if there is one; the result is what the buffer holds, [Some None] if it was left as it was
    because the directory has no name in UTF-8. *)
Definition mm_getcwd (fuel : nat) (size : option Z) : M (option (option cstr)) :=
  path_u16 ← getcwd_loop fuel 256;
  match path_u16 with
  | None => mret None
  | Some path_u16 =>
      let path := utf16_to_utf8 path_u16 in
      let path_u8_len := match path with Some p => Z.of_nat (length p) + 1 | None => -1 end in
      match size with
      | Some size => if s32 size <? path_u8_len then _ ← raisew E_RANGE; mret None else mret (Some path)
      | None => if path_u8_len <? 0 then _ ← raisew E_NOMEM; mret None else mret (Some path)
      end
  end.

(** ** Directories *)

Definition translate_filetype (type : Z) : Z :=
  if has type FILE_ATTRIBUTE_REPARSE_POINT then MM_DT_LNK
  else if has type FILE_ATTRIBUTE_DIRECTORY then MM_DT_DIR
  else if has type FILE_ATTRIBUTE_NORMAL || has type FILE_ATTRIBUTE_ARCHIVE then MM_DT_REG
  else MM_DT_UNKNOWN.

(** [struct mm_dirstream]; the directory is kept with the pattern of the search. *)
Record dirstream := mk_wdir { hdir : Z; find_first_done : bool; wdirent : option mm_dirent; dirname : cstr }.

(** The stream after the call, and the last error if it failed: the entry is changed by a success only. *)
Definition win32_find_file (d : option dirstream) : M (option dirstream * option w32err) :=
  match d with
  | None => _ ← raisew E_INVAL; e ← askw GetLastError; mret (None, Some e)
  | Some d =>
      match utf8_to_utf16 (dirname d) with
      | None => _ ← raisew_w32 ERROR_NO_UNICODE_TRANSLATION; mret (Some d, Some ERROR_NO_UNICODE_TRANSLATION)
      | Some path_u16 =>
          '(d, found) ← (if find_first_done d then
              r ← callw (FindNextFileW (hdir d)); mret (d, r)
            else
              r ← callw (FindFirstFileW path_u16);
              mret (match r with
                    | inl e => (mk_wdir INVALID_HANDLE_VALUE true (wdirent d) (dirname d), inl e)
                    | inr (hdir, data) => (mk_wdir hdir true (wdirent d) (dirname d), inr data)
                    end));
          match found with
          | inl e => mret (Some d, Some e)
          | inr data =>
              match utf16_to_utf8 (cFileName data) with
              | None => st_ub
              | Some name =>
                  let e := mk_dirent (DIRENT_SIZE + (length name + 1)) (translate_filetype (dwFileAttributes data)) name in
                  mret (Some (mk_wdir (hdir d) (find_first_done d) (Some e) (dirname d)), None)
              end
          end
      end
  end.

Definition mm_closedir (d : option dirstream) : M unit :=
  match d with
  | None => mret tt
  | Some d => if hdir d =? INVALID_HANDLE_VALUE then mret tt else runw (FindClose (hdir d))
  end.

(** The search is started: the first file found is put in the stream, and not given by [mm_readdir].  The error raised is that of the C library. *)
Definition mm_opendir (path : cstr) : M (option dirstream) :=
  '(d, err) ← win32_find_file (Some (mk_wdir INVALID_HANDLE_VALUE false None (path ++ cs "/*")));
  match err with
  | None => mret d
  | Some _ => _ ← raise_errno; mm_closedir d;; mret None
  end.

(** The handle closed is used again. *)
Definition mm_rewinddir (d : option dirstream) : M (option dirstream) :=
  match d with
  | None => _ ← raisew E_INVAL; mret None
  | Some d => runw (FindClose (hdir d));; ('(d, _) ← win32_find_file (Some d); mret d)
  end.

(** The stream, the status and the entry. *)
Definition mm_readdir (d : option dirstream) : M (option dirstream * Z * option mm_dirent) :=
  match d with
  | None => _ ← raisew E_INVAL; mret (None, -1, None)
  | Some d =>
      '(d, err) ← win32_find_file (Some d);
      match err with
      | Some e =>
          if bool_decide (e = ERROR_NO_MORE_FILES) then mret (d, 0, None)
          else _ ← raise_errno; mret (d, -1, None)
      | None => mret (d, 0, d ≫= wdirent)
      end
  end.

(** ** Removal *)

Definition win32_unlinkat (fuel : nat) (prefix name : cstr) (type : Z) : M Z :=
  let path := prefix ++ cs "/" ++ name in
  if type =? MM_DT_DIR then mm_rmdir path else mm_unlink fuel path.

(** What the loop does of an entry: [false] is the return of -1.  [rec] is the removal of the content of a folder. *)
Definition remove_entry (rec : cstr -> option dirstream -> M Z) (fuel : nat) (prefix : cstr) (flags : Z) (e : mm_dirent) : M bool :=
  let type := dtyp e in
  if (0 <? type) && negb (has flags type) then mret true
  else if is_wildcard_directory (dname e) then mret true
  else
    let unlink : M bool :=
      rv ← win32_unlinkat fuel prefix (dname e) type; mret (negb (negb (rv =? 0) && has flags MM_FAILONERROR)) in
    if type =? MM_DT_DIR then
      let newdir_path := prefix ++ cs "/" ++ dname e in
      newdir ← mm_opendir newdir_path;
      match newdir with
      | None => mret (negb (has flags MM_FAILONERROR))
      | Some _ =>
          rv ← rec newdir_path newdir;
          if negb (rv =? 0) && has flags MM_FAILONERROR then mret false else unlink
      end
    else unlink.

(** The loop on the stream.  A stream without entry left has [ERROR_NO_MORE_FILES] as last error when the status is 0; the
    last error of a stream that was not opened is an older one. *)
Fixpoint remove_loop (rec : cstr -> option dirstream -> M Z) (n fuel : nat) (prefix : cstr) (d : option dirstream) (flags : Z) : M Z :=
  match n with
  | O => st_ub
  | S n =>
      '(d', status, dp) ← mm_readdir d;
      match dp with
      | None =>
          match d with
          | Some _ => mret (if status =? 0 then 0 else -1)
          | None => e ← askw GetLastError; mret (if bool_decide (e = ERROR_NO_MORE_FILES) then 0 else -1)
          end
      | Some e =>
          if negb (status =? 0) then mret (-1)
          else
            go ← remove_entry rec fuel prefix flags e;
            if go : bool then remove_loop rec n fuel prefix d' flags else mret (-1)
      end
  end.

(** The stream of a folder is closed by the caller, whose handle does not change once the search is started.
    [lvl] is [rec_lvl + 1]. *)
Fixpoint mm_remove_rec (lvl fuel : nat) (flags : Z) (prefix : cstr) (d : option dirstream) : M Z :=
  match lvl with
  | O => raisew E_OVERFLOW
  | S lvl =>
      remove_loop (fun newdir_path newdir => rv ← mm_remove_rec lvl fuel flags newdir_path newdir; mm_closedir newdir;; mret rv)
        fuel fuel prefix d flags
  end.

(** The flags of the log during the removal are left out. *)
Definition mm_remove (fuel : nat) (path : cstr) (flags : Z) : M Z :=
  attrs ← askw (GetFileAttributesA path);
  match attrs with
  | inl e => raisew_w32 e
  | inr attrs =>
      let type := translate_filetype attrs in
      let last (flags : Z) : M Z :=
        if negb (has flags type) then raisew E_PERM
        else if type =? MM_DT_DIR then mm_rmdir path else mm_unlink fuel path in
      if has flags MM_RECURSIVE then
        let flags := Z.lor flags MM_DT_DIR in
        if type =? MM_DT_DIR then
          dir ← mm_opendir path;
          rv ← mm_remove_rec (Z.to_nat (RECURSION_MAX + 1)) fuel flags path dir;
          mm_closedir dir;;
          (if negb (rv =? 0) && negb (has flags MM_FAILONERROR) then raise_errno
           else if is_wildcard_directory path then mret rv
           else last flags)
        else last flags
      else last flags
  end.

(** ** Reparse points *)

Fixpoint u16_str (l : list Z) : list Z :=
  match l with c :: l => if c =? 0 then [] else c :: u16_str l | [] => [] end.

(** [Some None] if it is not a symbolic link.  The target is ended with a null unit, that must be in the buffer. *)
Definition get_target_u16_from_reparse_data (rep : reparse_data) : option (option (list Z)) :=
  if negb (ReparseTag rep =? IO_REPARSE_TAG_SYMLINK) then Some None
  else
    let off := (SubstituteNameOffset rep / 2)%nat in
    let len := (SubstituteNameLength rep / 2)%nat in
    if Nat.even (SubstituteNameOffset rep) && (off + len <? length (PathBuffer rep))%nat
    then Some (Some (u16_str (take len (drop off (PathBuffer rep))))) else None.

(** The size with the null character; a target that has no name in UTF-8 gives -1. *)
Definition get_symlink_target_strlen (hnd : Z) : M Z :=
  rep ← askw (DeviceIoControl_reparse hnd);
  match rep with
  | inl _ => mret 0
  | inr rep =>
      trgt ← st_option (get_target_u16_from_reparse_data rep);
      mret (match trgt with
            | None => 0
            | Some t => match utf16_to_utf8 t with Some s => Z.of_nat (length s) + 1 | None => -1 end
            end)
  end.

(** ** Status of files *)

Definition filetime_to_time (ft : Z) : Z := tv_sec (filetime_to_timespec ft).

(** Attributes and tag, volume and file id: those of the second call are used only if both calls succeed. *)
Definition file_ids (hnd : Z) (info : by_handle_info) (os : OS) : (Z * Z) * file_id_info :=
  match GetFileInformation_tag hnd os, GetFileInformation_id hnd os with
  | inr tag, inr id => (tag, id)
  | _, _ => ((bh_attributes info, 0), mk_file_id (dwVolumeSerialNumber info) (Z.lor (nFileIndexLow info) (Z.shiftl (nFileIndexHigh info) 32)))
  end.

Definition stat_type (attr_tag : Z * Z) : Z :=
  let '(attributes, tag) := attr_tag in
  if has attributes FILE_ATTRIBUTE_REPARSE_POINT then
    if tag =? IO_REPARSE_TAG_SYMLINK then S_IFLNK
    else if tag =? IO_REPARSE_TAG_MOUNT_POINT then S_IFDIR
    else S_IFREG
  else
    let t := translate_filetype attributes in
    if t =? MM_DT_DIR then S_IFDIR
    else if t =? MM_DT_LNK then S_IFLNK
    else if t =? MM_DT_FIFO then S_IFIFO
    else if t =? MM_DT_CHR then S_IFCHR
    else S_IFREG.

(** The size from its two words: the multiplication is signed. *)
Definition file_size (info : by_handle_info) : option Z :=
  high ← mul64 (nFileSizeHigh info) MAXDWORD; add64 high (nFileSizeLow info).

(** [buf] is the structure to fill, whose fields without equivalent are kept. *)
Definition get_stat_from_handle (hnd : Z) (buf : stat) : M (w32err + stat) :=
  r ← askw (fun os => match GetFileInformationByHandle hnd os with
                      | inl e => inl e
                      | inr info => match secdesc_from_handle hnd os with inl e => inl e | inr lsd => inr (info, lsd) end
                      end);
  match r with
  | inl e => mret (inl e)
  | inr (info, lsd) =>
      '(attr_tag, id_info) ← askw (file_ids hnd info);
      let type := stat_type attr_tag in
      size ← (if type =? S_IFLNK then get_symlink_target_strlen hnd else st_option (file_size info));
      mret (inr (mk_stat (VolumeSerialNumber id_info) (FileId id_info) (Z.lor type (local_secdesc_get_mode lsd)) (nNumberOfLinks info)
        (st_uid buf) (st_gid buf) size (st_blocks buf)
        (filetime_to_time (ftLastAccessTime info)) (filetime_to_time (ftCreationTime info)) (filetime_to_time (ftLastWriteTime info))))
  end.

(** The structure, [None] if it failed. *)
Definition mm_stat (path : cstr) (buf : stat) (flags : Z) : M (option stat) :=
  h ← callw (open_handle_for_metadata path (has flags MM_NOFOLLOW));
  match h with
  | inl e => _ ← raisew_w32 e; mret None
  | inr hnd =>
      r ← get_stat_from_handle hnd buf;
      rv ← match r with inl e => _ ← raisew_w32 e; mret None | inr s => mret (Some s) end;
      runw (CloseHandle hnd);; mret rv
  end.

Definition mm_fstat (fd : Z) (buf : stat) : M (option stat) :=
  h ← lift (unwrap_handle_from_fd fd);
  match h with
  | None => mret None
  | Some hnd =>
      r ← get_stat_from_handle hnd buf;
      match r with inl e => _ ← raisew_w32 e; mret None | inr s => mret (Some s) end
  end.

(** ** Times *)

(** A time that is omitted is the zero of the system; one out of its range is not described. *)
Definition utime (now : Z) (ts : option mm_timespec) : option Z :=
  match ts with
  | None => Some now
  | Some t => if tv_nsec t =? UTIME_NOW then Some now else if tv_nsec t =? UTIME_OMIT then Some 0 else timespec_to_filetime t
  end.

Definition hnd_utimens (hnd : Z) (ts : option (mm_timespec * mm_timespec)) : M (option w32err) :=
  now ← askw GetSystemTimePreciseAsFileTime;
  aft ← st_option (utime now (fst <$> ts));
  mft ← st_option (utime now (snd <$> ts));
  callw (SetFileTime hnd aft mft).

Definition mm_futimens (fd : Z) (ts : option (mm_timespec * mm_timespec)) : M Z :=
  h ← lift (unwrap_handle_from_fd fd);
  match h with
  | None => mret (-1)
  | Some hnd =>
      h ← callw (ReOpenFile hnd FILE_WRITE_ATTRIBUTES);
      match h with
      | inl e => raisew_w32 e
      | inr hnd_new =>
          rv ← hnd_utimens hnd_new ts;
          runw (CloseHandle hnd_new);; or_raise_w32 rv
      end
  end.

(** The flags of the library are given to the system. *)
Definition mm_utimens (path : cstr) (ts : option (mm_timespec * mm_timespec)) (flags : Z) : M Z :=
  if has flags (Z.lnot MM_NOFOLLOW) then raisew E_INVAL
  else
    h ← callw (open_handle path FILE_WRITE_ATTRIBUTES OPEN_EXISTING None flags);
    match h with
    | inl e => raisew_w32 e
    | inr hnd =>
        rv ← hnd_utimens hnd ts;
        rv ← or_raise_w32 rv;
        runw (CloseHandle hnd);; mret rv
    end.

(** The target put in the buffer; a size of 0 asks for the size of the conversion, which succeeds and writes nothing. *)
Definition mm_readlink (path : cstr) (bufsize : Z) : M (option cstr) :=
  h ← callw (open_handle_for_metadata path true);
  match h with
  | inl e => _ ← raisew_w32 e; mret None
  | inr hnd =>
      rep ← askw (DeviceIoControl_reparse hnd);
      rv ← match rep with
           | inl e => _ ← raisew_w32 e; mret None
           | inr rep =>
               trgt ← st_option (get_target_u16_from_reparse_data rep);
               match trgt with
               | None => _ ← raisew E_INVAL; mret None
               | Some t =>
                   match utf16_to_utf8 t with
                   | Some s =>
                       if s32 bufsize =? 0 then mret (Some [])
                       else if Z.of_nat (length s) + 1 <=? s32 bufsize then mret (Some s)
                       else _ ← raisew E_OVERFLOW; mret None
                   | None => _ ← raisew E_OVERFLOW; mret None
                   end
               end
           end;
      runw (CloseHandle hnd);; mret rv
  end.

(** ** Copies *)

Definition read_hnd (hnd : Z) : M (option cstr) :=
  r ← lift (mmlib_read hnd (Z.to_nat COPYBUFFER_SIZE)); mret (match r with inl _ => None | inr buf => Some buf end).
Definition write_hnd (hnd : Z) (buf : cstr) : M (option nat) :=
  r ← lift (mmlib_write hnd buf); mret (match r with inl _ => None | inr n => Some (Z.to_nat n) end).

(** The last error if it fails. *)
Definition clone_hnd_fallback (fuel : nat) (hnd_src hnd_dst : Z) : M (option w32err) :=
  ok ← copy_loop (read_hnd hnd_src) (write_hnd hnd_dst) fuel;
  if ok : bool then mret None else e ← askw GetLastError; mret (Some e).

Definition clone_hnd_force_cow (hnd_src hnd_dst : Z) : M (option w32err) := mret (Some ERROR_NOT_SUPPORTED).

Definition copy_hnd_symlink (hnd : Z) (dst : cstr) : M (option w32err) :=
  match utf8_to_utf16 dst with
  | None => mret (Some ERROR_NO_UNICODE_TRANSLATION)
  | Some dst16 =>
      rep ← askw (DeviceIoControl_reparse hnd);
      match rep with
      | inl e => mret (Some e)
      | inr rep =>
          target ← st_option (get_target_u16_from_reparse_data rep);
          match target with
          | None => st_ub
          | Some target =>
              r ← callw (CreateSymbolicLinkW dst16 target SYMBOLIC_LINK_FLAG_ALLOW_UNPRIVILEGED_CREATE);
              if bool_decide (r = Some ERROR_INVALID_PARAMETER) then callw (CreateSymbolicLinkW dst16 target 0) else mret r
          end
      end
  end.

Definition COPY_ACCESS : Z := Z.lor GENERIC_WRITE (Z.lor DELETE FILE_WRITE_ATTRIBUTES).

(** The last error is kept from the deletion of the destination. *)
Definition clone_src_hnd (fuel : nat) (hnd_src : Z) (dst : cstr) (flags mode : Z) : M (option w32err) :=
  lsd ← askw (secdesc_from_mode mode);
  match lsd with
  | inl e => mret (Some e)
  | inr sd =>
      h ← callw (open_handle dst COPY_ACCESS CREATE_NEW sd FILE_ATTRIBUTE_NORMAL);
      match h with
      | inl e => mret (Some e)
      | inr hnd_dst =>
          rv ← (if Z.land flags (Z.land MM_NOCOW MM_FORCECOW) =? MM_FORCECOW then clone_hnd_force_cow hnd_src hnd_dst
                else clone_hnd_fallback fuel hnd_src hnd_dst);
          (match rv with None => mret tt | Some _ => _ ← delete_file_from_handle fuel hnd_dst; mret tt end);;
          (runw (CloseHandle hnd_dst);; mret rv)
      end
  end.

Definition copy_internal (fuel : nat) (src dst : cstr) (flags mode : Z) : M bool :=
  let attrs := Z.lor FILE_ATTRIBUTE_NORMAL (if has flags MM_NOFOLLOW then FILE_FLAG_OPEN_REPARSE_POINT else 0) in
  h ← callw (open_handle src GENERIC_READ OPEN_EXISTING None attrs);
  h ← (if bool_decide (h = inl ERROR_ACCESS_DENIED) then callw (open_handle_for_metadata src (has flags MM_NOFOLLOW)) else mret h);
  match h with
  | inl e => _ ← raisew_w32 e; mret false
  | inr hnd_src =>
      tag_info ← askw (GetFileInformation_tag hnd_src);
      rv ← match tag_info with
           | inl e => mret (Some e)
           | inr (attributes, tag) =>
               if has attributes FILE_ATTRIBUTE_REPARSE_POINT && (tag =? IO_REPARSE_TAG_SYMLINK) then copy_hnd_symlink hnd_src dst
               else if has attributes FILE_ATTRIBUTE_DIRECTORY then mret (Some ERROR_DIRECTORY_NOT_SUPPORTED)
               else clone_src_hnd fuel hnd_src dst flags mode
           end;
      runw (CloseHandle hnd_src);;
      match rv with None => mret true | Some e => _ ← raisew_w32 e; mret false end
  end.

(** ** Creation of directories *)

(** A path that is not UTF-8 frees a pointer that is not initialised. *)
Definition internal_mkdir (path : cstr) (mode : Z) (report_recursive : bool) : M mkdir_result :=
  lsd ← askw (secdesc_from_mode mode);
  match lsd with
  | inl e => _ ← raisew_w32 e; mret MkFailed
  | inr sd =>
      match utf8_to_utf16 path with
      | None => st_ub
      | Some path_u16 =>
          r ← callw (CreateDirectoryW path_u16 sd);
          match r with
          | None => mret MkDone
          | Some e =>
              if report_recursive && bool_decide (e = ERROR_ALREADY_EXISTS) then mret (MkCode E_EXIST)
              else if report_recursive && bool_decide (e = ERROR_PATH_NOT_FOUND) then mret (MkCode E_NOENT)
              else _ ← raisew_w32 e; mret MkFailed
          end
      end
  end.

End Files.

(** The platform of [file.c]. *)
#[export] Instance win32_platform {OS} `{!W32File OS, !W32Pipe OS, !W32Volume OS, !W32Meta OS} (fuel : nat) : FilePlatform (file_world OS) := {
  File.internal_mkdir := internal_mkdir;
  File.copy_internal := copy_internal fuel;
  raise_file_error e := _ ← raisew e; mret tt
}.

Abbreviation mm_mkdir_win32 fuel := (mm_mkdir (FilePlatform0 := win32_platform fuel) true fuel).
Abbreviation mm_copy_win32 fuel := (mm_copy (FilePlatform0 := win32_platform fuel)).

(** ** Status *)

Lemma access_to_mode_range a : in_u 9 (access_to_mode a).
Proof.
  unfold access_to_mode. destruct (has_flag a FILE_READ_DATA), (has_flag a FILE_WRITE_DATA), (has_flag a FILE_EXECUTE); vm_compute; split; congruence.
Qed.

Lemma lor_range n a b : 0 <= n -> in_u n a -> in_u n b -> in_u n (Z.lor a b).
Proof.
  unfold in_u. intros Hn [Ha Ha'] [Hb Hb']. assert (H0 : 0 <= Z.lor a b) by (apply Z.lor_nonneg; lia). split; [done|].
  rewrite <- (Z.mod_small a (2 ^ n)), <- (Z.mod_small b (2 ^ n)) by lia. rewrite <- !Z.land_ones by done.
  rewrite <- Z.land_lor_distr_l, Z.land_ones by done. apply Z.mod_pos_bound. lia.
Qed.

Lemma shiftr_range n a k : 0 <= n -> 0 <= k -> in_u n a -> in_u n (Z.shiftr a k).
Proof.
  unfold in_u. intros Hn Hk [H1 H2]. rewrite Z.shiftr_div_pow2 by done. pose proof (Z.pow_pos_nonneg 2 k ltac:(lia) Hk). split.
  - apply Z.div_pos; lia.
  - apply Z.div_lt_upper_bound; [done|]. nia.
Qed.

Lemma get_mode_range `{!W32Security} sd : in_u 9 (local_secdesc_get_mode sd).
Proof.
  unfold local_secdesc_get_mode. repeat case_match; try (vm_compute; split; congruence).
  assert (Hg : forall l m, in_u 9 m -> in_u 9 (foldl (ace_step (sd_owner sd) (sd_group sd)) m l)).
  { induction l as [|a l IH]; intros m Hm; cbn [foldl]; [done|]. apply IH. unfold ace_step.
    pose proof (access_to_mode_range (ace_mask a)). repeat case_match; try done; apply lor_range; try done; by apply shiftr_range. }
  apply Hg. vm_compute. split; congruence.
Qed.

Lemma stat_type_fmt t : Z.land (stat_type t) S_IFMT = stat_type t /\ Z.land (stat_type t) 0x1ff = 0.
Proof. unfold stat_type. repeat case_match; by split. Qed.

Section Stat.

Context {OS : Type} `{!W32File OS, !W32Pipe OS, !W32Volume OS, !W32Meta OS}.

(** The status of a file that is not a symbolic link has the type and the permission bits of the file, in disjoint bits,
    and a size that is exact for the files below 4 GiB: the high word of the size counts for
    [0xFFFFFFFF] and not [2 ^ 32], so that the others are smaller by it. *)
Theorem stat_of_handle (hnd : Z) (buf : stat) (w : file_world OS) (info : by_handle_info) (sd : secdesc) :
  let os := fd_os (fw_fd w) in
  let type := stat_type (file_ids hnd info os).1 in
  let size := nFileSizeHigh info * 2 ^ 32 + nFileSizeLow info in
  GetFileInformationByHandle hnd os = inr info -> secdesc_from_handle hnd os = inr sd ->
  in_u 31 (nFileSizeHigh info) -> in_u 32 (nFileSizeLow info) -> type <> S_IFLNK ->
  exists s, get_stat_from_handle hnd buf w = Some (inr s, w) /\
    Z.land (st_mode s) S_IFMT = type /\ Z.land (st_mode s) 0x1ff = local_secdesc_get_mode sd /\
    st_size s = size - nFileSizeHigh info /\ (st_size s = size <-> size < 2 ^ 32).
Proof.
  intros os type size Hi Hsd [Hh1 Hh2] [Hl1 Hl2] Ht. unfold get_stat_from_handle.
  rewrite (st_bind_Some _ _ _ _ _ (askw_spec _ w)). fold os. rewrite Hi, Hsd.
  rewrite (st_bind_Some _ _ _ _ _ (askw_spec _ w)). fold os. fold type in Ht |- *. unfold type in *.
  destruct (file_ids hnd info os) as [tag id] eqn:E. cbn [fst] in *. rewrite (proj2 (Z.eqb_neq _ _)) by done.
  assert (Hs : file_size info = Some (size - nFileSizeHigh info)).
  { unfold file_size, mul64, add64. change (2 ^ 31) with 2147483648 in Hh2. change (2 ^ 32) with 4294967296 in *.
    rewrite chk64_Some; [|unfold MAXDWORD, INT64_MIN, INT64_MAX; lia]. cbn [mbind option_bind].
    rewrite chk64_Some; [f_equal; unfold MAXDWORD, size; lia|unfold MAXDWORD, INT64_MIN, INT64_MAX; lia]. }
  rewrite Hs. eexists. split; [reflexivity|]. cbn [st_mode st_size].
  destruct (stat_type_fmt tag) as [H1 H2]. pose proof (get_mode_range sd) as [Hr1 Hr2].
  rewrite !Z.land_lor_distr_l, H1, H2. split_and!.
  - replace (Z.land (local_secdesc_get_mode sd) S_IFMT) with 0; [by rewrite Z.lor_0_r|].
    rewrite <- (Z.mod_small (local_secdesc_get_mode sd) (2 ^ 9)), <- Z.land_ones by lia. rewrite <- Z.land_assoc. by rewrite Z.land_0_r.
  - rewrite Z.lor_0_l. change 0x1ff with (Z.ones 9). rewrite Z.land_ones by lia. by apply Z.mod_small.
  - done.
  - unfold size in *. lia.
Qed.

End Stat.

(** ** Access *)

(** The rights given by a descriptor without refusals to a token: those of its identifiers, and two for the owner. *)
Definition granted (sids : Z -> bool) (sd : secdesc) (l : list ace) : Z :=
  Z.lor (if match sd_owner sd with Some o => sids o | None => false end then Z.lor READ_CONTROL WRITE_DAC else 0)
    (lor_all (map (fun a => if sids (ace_sid a) then ace_mask a else 0) l)).

Class AccessLaws (OS : Type) `{!W32Meta OS} (sids : OS -> Z -> bool) : Prop := {
  law_access sd l rights os :
    dacl sd = Some l -> Forall (fun a => ace_allowed a = true) l ->
    AccessCheck sd rights os = inr (Z.land rights (granted (sids os) sd l) =? rights)
}.

(** The three bits of a class of users, those of [R_OK], [W_OK] and [X_OK]. *)
Definition class_bits (mode shift : Z) : Z := Z.land (Z.shiftr mode shift) 7.

(** The bits of all the classes of the caller. *)
Definition caller_bits (in_owner in_group : bool) (mode : Z) : Z :=
  lor_all [if in_owner then class_bits mode 6 else 0; if in_group then class_bits mode 3 else 0; class_bits mode 0].

(** Facts on a few bits by computation on all of them. *)
Fixpoint all_bools (n : nat) (f : list bool -> bool) : bool :=
  match n with O => f [] | S n => all_bools n (fun l => f (true :: l)) && all_bools n (fun l => f (false :: l)) end.

Lemma all_bools_spec n f l : all_bools n f = true -> length l = n -> f l = true.
Proof.
  revert f l. induction n as [|n IH]; intros f l H Hl; cbn in H.
  - by destruct l.
  - apply andb_prop in H as [H1 H2]. destruct l as [|[] l]; cbn in Hl; [done| |]; [apply (IH (fun l => f (true :: l)))|apply (IH (fun l => f (false :: l)))]; auto.
Qed.

Definition bits3 (r w x : bool) : Z := lor_all [if r then R_OK else 0; if w then W_OK else 0; if x then X_OK else 0].
Definition access3 (r w x : bool) : Z :=
  lor_all [MIN_ACCESS_FLAGS; if r then FILE_GENERIC_READ else 0; if w then FILE_GENERIC_WRITE else 0; if x then FILE_GENERIC_EXECUTE else 0].

Lemma access_bits m : get_access_from_perm_bits m = access3 (Z.testbit m 8) (Z.testbit m 7) (Z.testbit m 6).
Proof.
  unfold get_access_from_perm_bits. change S_IREAD with (2 ^ 8). change S_IWRITE with (2 ^ 7). change S_IEXEC with (2 ^ 6).
  rewrite !has_flag_testbit by lia. by destruct (Z.testbit m 8), (Z.testbit m 7), (Z.testbit m 6).
Qed.

Lemma class_bits3 mode k : 0 <= k -> class_bits mode k = bits3 (Z.testbit mode (k + 2)) (Z.testbit mode (k + 1)) (Z.testbit mode k).
Proof.
  intros Hk. unfold class_bits. apply Z.bits_inj'. intros n Hn. rewrite Z.land_spec, Z.shiftr_spec by done. change 7 with (Z.ones 3).
  rewrite Z.testbit_ones_nonneg by lia. destruct (Z.ltb_spec n 3) as [H|H].
  - assert (n = 0 \/ n = 1 \/ n = 2) as [-> | [-> | ->]] by lia; rewrite ?(Z.add_comm 0), ?(Z.add_comm 1), ?(Z.add_comm 2), ?Z.add_0_r;
      by destruct (Z.testbit mode (k + 2)), (Z.testbit mode (k + 1)), (Z.testbit mode k).
  - rewrite andb_false_r. symmetry. assert (Hb : forall b2 b1 b0, in_u 3 (bits3 b2 b1 b0)) by (intros [] [] []; vm_compute; split; congruence).
    destruct (Hb (Z.testbit mode (k + 2)) (Z.testbit mode (k + 1)) (Z.testbit mode k)) as [H1 H2].
    rewrite <- (Z.mod_small _ (2 ^ 3)) by done. apply Z.mod_pow2_bits_high. lia.
Qed.

(** The owner, the group and everyone have the rights of their bits. *)
Definition check_access (l : list bool) : bool :=
  match l with
  | [o2; o1; o0; g2; g1; g0; e2; e1; e0; in_o; in_g; r; w; x] =>
      let amode := bits3 r w x in
      let rights := MapGenericMask (rights_of_amode amode) in
      let given := Z.lor (if in_o then Z.lor READ_CONTROL WRITE_DAC else 0)
        (lor_all [if in_o then Z.lor (access3 o2 o1 o0) MIN_OWNER_ACCESS_FLAGS else 0; if in_g then access3 g2 g1 g0 else 0; access3 e2 e1 e0]) in
      let perms := lor_all [if in_o then bits3 o2 o1 o0 else 0; if in_g then bits3 g2 g1 g0 else 0; bits3 e2 e1 e0] in
      Bool.eqb (Z.land rights given =? rights) (Z.land amode perms =? amode)
  | _ => true
  end.

Lemma all_access : all_bools 14 check_access = true.
Proof. vm_compute. reflexivity. Qed.

Lemma amode_bits amode : in_u 3 amode -> amode = bits3 (Z.testbit amode 2) (Z.testbit amode 1) (Z.testbit amode 0).
Proof.
  intros [H1 H2]. pose proof (class_bits3 amode 0 ltac:(lia)) as H. unfold class_bits in H. rewrite Z.shiftr_0_r in H.
  change 7 with (Z.ones 3) in H. rewrite Z.land_ones, Z.mod_small in H by lia. done.
Qed.

Section Access.

Context {OS : Type} `{!W32File OS, !W32Pipe OS, !W32Volume OS, !W32Meta OS} (sids : OS -> Z -> bool) `{!AccessLaws OS sids}.

Lemma granted_mode owner group mode amode os :
  sids os everyone = true -> in_u 3 amode ->
  AccessCheck (mode_secdesc owner group mode) (MapGenericMask (rights_of_amode amode)) os
  = inr (Z.land amode (caller_bits (sids os owner) (sids os group) mode) =? amode).
Proof.
  intros He Ha. rewrite (law_access _ (mode_acl owner group mode)) by (done || by repeat constructor). f_equal.
  apply eqb_prop. unfold granted, mode_acl. cbn [sd_owner mode_secdesc map ace_sid ace_mask]. rewrite He, !access_bits.
  unfold caller_bits. rewrite !class_bits3 by lia. rewrite (amode_bits amode) by done. rewrite !Z.shiftl_spec by lia.
  exact (all_bools_spec 14 check_access
    [Z.testbit mode 8; Z.testbit mode 7; Z.testbit mode 6; Z.testbit mode 5; Z.testbit mode 4; Z.testbit mode 3; Z.testbit mode 2; Z.testbit mode 1;
     Z.testbit mode 0; sids os owner; sids os group; Z.testbit amode 2; Z.testbit amode 1; Z.testbit amode 0] all_access eq_refl).
Qed.

(** The access to a file made with the permission bits [mode] is granted when each of the rights asked is given to one of
    the classes of users, among owner, group and others, that the caller is in: a caller in several classes has the rights of all of
    them, even the owner whose own bits refuse. *)
Theorem access_of_mode (path : cstr) (amode mode owner group hnd : Z) (os1 : OS) (w : file_world OS) :
  open_handle_for_metadata path false (fd_os (fw_fd w)) = (inr hnd, os1) ->
  GetKernelObjectSecurity hnd os1 = inr (mode_secdesc owner group mode) ->
  sids os1 everyone = true -> in_u 3 amode -> (forall size, secdesc_malloc size = true) ->
  exists w', mm_check_access path amode w
    = Some (if Z.land amode (caller_bits (sids os1 owner) (sids os1 group) mode) =? amode then AccessOk else AccessErr E_ACCES, w')
    /\ fd_os (fw_fd w') = CloseHandle hnd os1.
Proof.
  intros Ho Hk He Ha Hm. unfold mm_check_access.
  destruct (callw_spec (open_handle_for_metadata path false) w) as (w1 & H1 & Ho1 & _). rewrite Ho in H1, Ho1. cbn in H1, Ho1.
  rewrite (st_bind_Some _ _ _ _ _ H1). set (r := if _ =? amode then _ else _).
  assert (Hr : (if amode =? F_OK then mret (inr AccessOk)
     else askw (fun os => match secdesc_from_handle hnd os with
       | inl e => inl e | inr sd => test_access sd (rights_of_amode amode) os end)) w1 = Some (inr r, w1)).
  { unfold F_OK. destruct (Z.eqb_spec amode 0) as [->|Hz]; [done|]. rewrite askw_spec, Ho1. unfold secdesc_from_handle. rewrite Hk.
    unfold local_secdesc_init_from_handle. cbn [mbind option_bind].
    destruct (secdesc_write_total (self_relative_size (mode_secdesc owner group mode))) as (b & Hb & Hf). rewrite Hb.
    destruct b; [|specialize (Hf eq_refl); by rewrite Hm in Hf]. cbn [mbind option_bind]. unfold test_access. rewrite granted_mode by done. done. }
  rewrite (st_bind_Some _ _ _ _ _ Hr). unfold mbind at 1, st_bind at 1. cbn [mret st_ret].
  destruct (callw_spec (fun os => (tt, CloseHandle hnd os)) w1) as (w2 & H2 & Ho2 & _). unfold runw. rewrite (st_bind_Some _ _ _ _ _ H2).
  exists w2. split; [done|]. by rewrite Ho2, Ho1.
Qed.

End Access.

(** ** Listing *)

(** [entries os pattern]: the files that match; [search os h]: those left to a search. *)
Class SearchLaws (OS : Type) `{!W32Volume OS} (entries : OS -> list Z -> list find_data) (search : OS -> Z -> list find_data) : Prop := {
  law_find_first pat os :
    match FindFirstFileW pat os with
    | (inl _, _) => entries os pat = []
    | (inr (h, d), os') => h <> INVALID_HANDLE_VALUE /\ entries os pat = d :: search os' h
    end;
  law_find_next h os :
    match search os h with
    | [] => (FindNextFileW h os).1 = inl ERROR_NO_MORE_FILES
    | d :: l => (FindNextFileW h os).1 = inr d /\ search (FindNextFileW h os).2 h = l
    end
}.

Section Listing.

Context {OS : Type} `{!W32File OS, !W32Pipe OS, !W32Volume OS, !W32Meta OS} (entries : OS -> list Z -> list find_data)
  (search : OS -> Z -> list find_data) `{!SearchLaws OS entries search}.

Abbreviation world := (file_world OS).
Abbreviation os_of w := (fd_os (fw_fd w)).

(** The record of a file that has the name [name]. *)
Definition record_of (d : find_data) (name : cstr) : mm_dirent :=
  mk_dirent (DIRENT_SIZE + (length name + 1)) (translate_filetype (dwFileAttributes d)) name.

Definition named (d : find_data) (e : mm_dirent) : Prop :=
  utf16_to_utf8 (cFileName d) = Some (dname e) /\ e = record_of d (dname e).

(** The entries that a program reads in a stream, and the last status. *)
Fixpoint read_all (n : nat) (d : option dirstream) : ST world (list mm_dirent * Z) :=
  match n with
  | O => st_ub
  | S n =>
      '(d, status, e) ← mm_readdir d;
      match e with
      | None => mret ([], status)
      | Some e => '(l, status) ← read_all n d; mret (e :: l, status)
      end
  end.

Lemma find_next_spec (d : dirstream) p (w : world) :
  find_first_done d = true -> utf8_to_utf16 (dirname d) = Some p ->
  match search (os_of w) (hdir d) with
  | [] => exists w', win32_find_file (Some d) w = Some ((Some d, Some ERROR_NO_MORE_FILES), w')
  | f :: l => forall e, named f e -> exists w', search (os_of w') (hdir d) = l /\
      win32_find_file (Some d) w = Some ((Some (mk_wdir (hdir d) true (Some e) (dirname d)), None), w')
  end.
Proof.
  intros Hf Hp. pose proof (law_find_next (hdir d) (os_of w)) as Hl.
  destruct (callw_spec (FindNextFileW (hdir d)) w) as (w1 & H1 & Ho & _).
  destruct (search (os_of w) (hdir d)) as [|f l].
  - rewrite Hl in H1. exists w1. unfold win32_find_file. rewrite Hp, Hf. unfold mbind at 1, st_bind at 1. by rewrite (st_bind_Some _ _ _ _ _ H1).
  - destruct Hl as [Hl1 Hl2]. rewrite Hl1 in H1. intros e [Hn He]. exists w1. rewrite Ho. split; [done|].
    unfold win32_find_file. rewrite Hp, Hf. unfold mbind at 1, st_bind at 1. rewrite (st_bind_Some _ _ _ _ _ H1). cbn [mret st_ret].
    rewrite Hn, Hf. unfold record_of in He. rewrite <- He. done.
Qed.

Lemma read_all_spec n (d : dirstream) p (w : world) es :
  find_first_done d = true -> utf8_to_utf16 (dirname d) = Some p ->
  Forall2 named (search (os_of w) (hdir d)) es -> (length es < n)%nat ->
  exists w', read_all n (Some d) w = Some ((es, 0), w').
Proof.
  revert d w es. induction n as [|n IH]; intros d w es Hf Hp Hes Hn; [lia|]. cbn [read_all]. unfold mm_readdir.
  pose proof (find_next_spec d p w Hf Hp) as H. destruct (search (os_of w) (hdir d)) as [|f l] eqn:E.
  - inversion Hes; subst. destruct H as (w' & H). unfold mbind at 1, st_bind at 1. rewrite (st_bind_Some _ _ _ _ _ H). by exists w'.
  - inversion Hes as [|? e ? es' He Hes']; subst. destruct (H e He) as (w' & Hs & H').
    unfold mbind at 1, st_bind at 1. rewrite (st_bind_Some _ _ _ _ _ H'). cbn [mret st_ret option_bind mbind wdirent].
    edestruct (IH (mk_wdir (hdir d) true (Some e) (dirname d)) w' es') as (w2 & H2); [done|done| |cbn in Hn; lia|].
    { cbn [hdir]. by rewrite Hs. }
    rewrite (st_bind_Some _ _ _ _ _ H2). by exists w2.
Qed.

(** Reading a directory to its end gives its files in the order of the system, each with its name and type, but the first one:
    [mm_opendir] starts the search and keeps the first file found to itself.  It is the entry [.], which the root of a FAT volume does
    not have. *)
Theorem readdir_lists (n : nat) (path : cstr) (p : list Z) (f0 : find_data) (fs : list find_data) (e0 : mm_dirent) (es : list mm_dirent) (w : world) :
  utf8_to_utf16 (path ++ cs "/*") = Some p ->
  entries (os_of w) p = f0 :: fs -> named f0 e0 -> Forall2 named fs es -> (length es < n)%nat ->
  exists w', (mm_opendir path ≫= read_all n) w = Some ((es, 0), w').
Proof.
  intros Hp He H0 Hes Hn. unfold mm_opendir. set (d := mk_wdir _ _ _ _).
  pose proof (law_find_first p (os_of w)) as Hl. destruct (callw_spec (FindFirstFileW p) w) as (w1 & H1 & Ho & _).
  destruct (FindFirstFileW p (os_of w)) as [[e|[h f]] os']; cbn in H1, Ho; [by rewrite Hl in He|].
  destruct Hl as [Hh Hs]. rewrite Hs in He. injection He as -> <-. destruct H0 as [Hname0 Hrec].
  assert (Hf : win32_find_file (Some d) w = Some ((Some (mk_wdir h true (Some e0) (dirname d)), None), w1)).
  { unfold win32_find_file. cbn [find_first_done d dirname]. rewrite Hp. unfold mbind at 1, st_bind at 1. rewrite (st_bind_Some _ _ _ _ _ H1).
    cbn [mret st_ret]. rewrite Hname0. unfold record_of in Hrec. rewrite <- Hrec. done. }
  unfold mbind at 1, st_bind at 1. unfold mbind at 1, st_bind at 1. rewrite Hf. cbn [mret st_ret].
  destruct (read_all_spec n (mk_wdir h true (Some e0) (dirname d)) p w1 es) as (w' & H'); [done|done|by rewrite Ho|done|]. by exists w'.
Qed.

End Listing.

(** ** A system *)

Module FileDemo.
Import FdTable.Demo.

Definition file_named (s : cstr) : find_data := mk_find (map code s) (if bool_decide (s = cs ".") then 0x10 else 0x80).

(** The names to come are the inputs of the system; a search starts a list. *)
#[global] Instance volume_calls : W32Volume os := {
  GetLastError _ := ERROR_NO_MORE_FILES;
  GetFileInformation_id _ o := inr (mk_file_id 1 5);
  GetFileInformationByHandle _ _ := inr (mk_by_handle 0x80 FT_EPOCH FT_EPOCH FT_EPOCH 1 2 3 1 0 5);
  ConvertSidToStringSid sid _ := inr (u16 (cs "S-1"));
  FindFirstVolumeW o := (inl ERROR_NO_MORE_FILES, o);
  FindNextVolumeW _ o := (inl ERROR_NO_MORE_FILES, o);
  FindVolumeClose _ o := o;
  GetVolumeInformation_fs _ _ := Some (u16 (cs "NTFS"));
  FindFirstFileW _ o := match input o with s :: rest => (inr (7, file_named s), mk_os (fds o) rest (output o) (processes o)) | [] => (inl ERROR_FILE_NOT_FOUND, o) end;
  FindNextFileW _ o := match input o with s :: rest => (inr (file_named s), mk_os (fds o) rest (output o) (processes o)) | [] => (inl ERROR_NO_MORE_FILES, o) end;
  FindClose _ o := o;
  DeleteFileW _ o := o;
  SetFileInformation_rename _ _ o := (None, o);
  SetFileInformation_dispose _ o := o
}.

(** A caller that is not in the group of the files, and is in everyone. *)
Definition sids (o : os) (sid : Z) : bool := (sid =? 1) || (sid =? everyone).

(** The files have the permission bits [mode]. *)
Definition meta_of (mode : Z) : W32Meta os := {|
  get_errno _ := E_IO;
  GetKernelObjectSecurity _ _ := inr (mode_secdesc 1 2 mode);
  AccessCheck sd rights o :=
    match dacl sd with Some l => inr (Z.land rights (granted (sids o) sd l) =? rights) | None => inl ERROR_INVALID_PARAMETER end;
  GetFileInformation_tag _ _ := inr (0x80, 0);
  DeviceIoControl_reparse _ _ := inl ERROR_INVALID_PARAMETER;
  CreateHardLinkW _ _ o := (None, o);
  CreateSymbolicLinkW _ _ _ o := (None, o);
  GetFileAttributesW _ _ := None;
  GetFileAttributesA _ _ := inl ERROR_FILE_NOT_FOUND;
  CreateDirectoryW _ _ o := (None, o);
  _wchdir _ o := (None, o);
  _wrmdir _ o := (None, o);
  GetCurrentDirectoryW n _ := inr (3%nat, u16 (cs "C:\"));
  ReOpenFile _ _ o := (inr 103, o);
  SetFileTime _ _ _ o := (None, o);
  GetSystemTimePreciseAsFileTime _ := FT_EPOCH
|}.

#[global] Instance meta : W32Meta os := meta_of 0x184.

#[global] Instance access_laws : AccessLaws os sids.
Proof. split. intros sd l rights o Hl _. cbn. by rewrite Hl. Qed.

#[global] Instance search_laws : SearchLaws os (fun o _ => map file_named (input o)) (fun o _ => map file_named (input o)).
Proof. split; intros; cbn; by destruct (input _). Qed.

Definition start : file_world os :=
  mk_file_world (mk_fd_world (fd_infos Demo.start) (mk_os {[0 := 90]} [cs "."; cs "a"; cs "b"] [] []) None) [] None.

Example getcwd_start : fst <$> mm_getcwd 2 None start = Some (Some (Some (cs "C:\"))).
Proof. vm_compute. reflexivity. Qed.

(** The owner 0604: its bits give reading and writing. *)
Example access_start : fst <$> mm_check_access (cs "f") (Z.lor R_OK W_OK) start = Some AccessOk.
Proof. vm_compute. reflexivity. Qed.

End FileDemo.

Lemma stat_of_handle_witness :
  exists s, get_stat_from_handle 90 (mk_stat 0 0 0 0 0 0 0 0 0 0 0) FileDemo.start = Some (inr s, FileDemo.start) /\
    Z.land (st_mode s) S_IFMT = S_IFREG /\ Z.land (st_mode s) 0x1ff = local_secdesc_get_mode (mode_secdesc 1 2 0x184) /\
    st_size s = 2 * 2 ^ 32 + 3 - 2 /\ (st_size s = 2 * 2 ^ 32 + 3 <-> 2 * 2 ^ 32 + 3 < 2 ^ 32).
Proof.
  exact (stat_of_handle 90 (mk_stat 0 0 0 0 0 0 0 0 0 0 0) FileDemo.start (mk_by_handle 0x80 FT_EPOCH FT_EPOCH FT_EPOCH 1 2 3 1 0 5)
    (mode_secdesc 1 2 0x184) eq_refl eq_refl ltac:(vm_compute; split; congruence) ltac:(vm_compute; split; congruence) ltac:(vm_compute; congruence)).
Defined.

Lemma access_of_mode_witness :
  exists w', mm_check_access (cs "f") (Z.lor R_OK W_OK) FileDemo.start = Some (AccessOk, w')
    /\ fd_os (fw_fd w') = fd_os (fw_fd FileDemo.start).
Proof.
  exact (access_of_mode FileDemo.sids (cs "f") (Z.lor R_OK W_OK) 0x184 1 2 100 (fd_os (fw_fd FileDemo.start)) FileDemo.start
    eq_refl eq_refl eq_refl ltac:(vm_compute; split; congruence) (fun _ => eq_refl)).
Defined.

Lemma readdir_lists_witness :
  exists w', (mm_opendir (cs "dir") ≫= read_all 3) FileDemo.start
    = Some (([mk_dirent 18 MM_DT_REG (cs "a"); mk_dirent 18 MM_DT_REG (cs "b")], 0), w').
Proof.
  apply (readdir_lists (fun o _ => map FileDemo.file_named (FdTable.Demo.input o)) (fun o _ => map FileDemo.file_named (FdTable.Demo.input o)) 3 (cs "dir") (map code (cs "dir/*"))
    (FileDemo.file_named (cs ".")) [FileDemo.file_named (cs "a"); FileDemo.file_named (cs "b")] (mk_dirent 18 MM_DT_DIR (cs ".")));
    [reflexivity|vm_compute; reflexivity|split; vm_compute; reflexivity| |cbn; lia].
  repeat constructor.
Defined.
