(* ===== verification/SpawnWin32.v ===== *)
(** * File descriptors of a child process on Windows

    The startup configuration of [process-win32.c]: the file
    descriptors given to a child in the buffer reserved to the C runtime, and their
    reading when the child starts. *)

From S2P Require Import Prelude CStr Bytes Errcode TextMode Effects AccessWin32 FdTable.

(** ** Buffer of the C runtime *)

Definition FOPEN : Z := 0x01.
Definition FPIPE : Z := 0x08.
Definition FAPPEND : Z := 0x20.
Definition FDEV : Z := 0x40.
Definition FTEXT : Z := 0x80.

Definition SIZEOF_INT : Z := 4.
Definition SIZEOF_HANDLE : Z := 8.
Definition INVALID_HANDLE_VALUE : Z := -1.

Definition CRT_BUFFER_SIZE (nh : Z) : Z := SIZEOF_INT + nh + nh * SIZEOF_HANDLE + nh.

Record mm_remap_fd := mk_remap { child_fd : Z; parent_fd : Z }.

Definition std_fd_mappings : list mm_remap_fd := [mk_remap 0 0; mk_remap 1 1; mk_remap 2 2].

Record startup_config := mk_config {
  num_fd : Z;
  num_crt_fd : Z;
  crt_fd_flags : list Z;
  crt_fd_hnds : list Z;
  crt_fd_infos : list Z;
  inherited_hnds : list Z
}.

(** What the three arrays and their number make in memory. *)
Definition crt_buff (cfg : startup_config) : list Z :=
  le_bytes 4 (num_crt_fd cfg) ++ crt_fd_flags cfg ++ concat (map (le_bytes 8) (crt_fd_hnds cfg)) ++ crt_fd_infos cfg.

(** The constructor of the child: [reserved] is the buffer and its size. *)
Fixpoint init_infos (fd : nat) (bytes : list Z) (infos : list Z) : option (list Z) :=
  match bytes with
  | [] => Some infos
  | b :: bytes => if (fd <? length infos)%nat then init_infos (S fd) bytes (<[fd := b]> infos) else None
  end.

Definition mm_fd_init (reserved : option (list Z * Z)) (infos : list Z) : option (list Z) :=
  match reserved with
  | None => Some infos
  | Some (crtbuff, cbReserved2) =>
      let num_fd := s32 (le_value (take 4 crtbuff)) in
      if negb (cbReserved2 =? CRT_BUFFER_SIZE num_fd) then Some infos
      else init_infos 0 (take (Z.to_nat num_fd) (drop (Z.to_nat (SIZEOF_INT + num_fd + num_fd * SIZEOF_HANDLE)) crtbuff)) infos
  end.

Definition convert_fdinfo_to_crtflags (fdinfo : Z) : Z :=
  let fd_type := Z.land fdinfo FD_TYPE_MASK in
  let flags := if fd_type =? FD_TYPE_PIPE then Z.lor FOPEN FPIPE
               else if fd_type =? FD_TYPE_CONSOLE then Z.lor FOPEN FDEV else FOPEN in
  let flags := if has_flag fdinfo FD_FLAG_APPEND then Z.lor flags FAPPEND else flags in
  if has_flag fdinfo FD_FLAG_TEXT then Z.lor flags FTEXT else flags.

Definition get_highest_child_fd (fd_map : list mm_remap_fd) : Z :=
  foldl (fun fd_max m => if fd_max <? child_fd m then child_fd m else fd_max) (-1) fd_map.

Definition round_up (value divider : Z) : Z := Z.quot (value + divider - 1) divider * divider.

(** The arrays are zeroed. *)
Definition startup_config_alloc_crt_buffs (num_fd : Z) : startup_config :=
  let num_crt_fd := round_up (SIZEOF_INT + num_fd) SIZEOF_HANDLE - SIZEOF_INT in
  let zeros := replicate (Z.to_nat num_crt_fd) 0 in
  mk_config num_fd num_crt_fd zeros zeros zeros [].

Definition set_fd_entry (fd : Z) (flags hnd : Z) (info : option Z) (cfg : startup_config) : option startup_config :=
  if (0 <=? fd) && (fd <? num_crt_fd cfg)
  then Some (mk_config (num_fd cfg) (num_crt_fd cfg) (<[Z.to_nat fd := flags]> (crt_fd_flags cfg))
               (<[Z.to_nat fd := hnd]> (crt_fd_hnds cfg))
               (match info with Some i => <[Z.to_nat fd := wrap_u 8 i]> (crt_fd_infos cfg) | None => crt_fd_infos cfg end)
               (inherited_hnds cfg))
  else None.

(** [startup_config_get_startup_info]: size of the buffer, buffer, standard handles. *)
Definition startup_config_get_startup_info (cfg : startup_config) : option (Z * list Z * (Z * Z * Z)) :=
  h0 ← crt_fd_hnds cfg !! 0%nat; h1 ← crt_fd_hnds cfg !! 1%nat; h2 ← crt_fd_hnds cfg !! 2%nat;
  Some (wrap_u 16 (CRT_BUFFER_SIZE (num_crt_fd cfg)), crt_buff cfg, (h0, h1, h2)).

(** ** Calls of the system *)

Class W32Proc (OS : Type) := {
  DuplicateHandle : Z -> OS -> (w32err + Z) * OS;
  attribute_list_error : OS -> option w32err
}.

Section Config.

Context {OS : Type} `{!W32File OS, !W32Proc OS}.

Abbreviation M := (ST (fd_world (OS := OS))).

(** [None] is the failure, its error being raised. *)
Fixpoint startup_config_setup_mappings (fd_map : list mm_remap_fd) (cfg : startup_config) : M (option startup_config) :=
  match fd_map with
  | [] => mret (Some cfg)
  | m :: fd_map =>
      if child_fd m <? 0 then _ ← raise E_BADF; mret None
      else if parent_fd m =? -1 then
        cfg ← st_option (set_fd_entry (child_fd m) 0 INVALID_HANDLE_VALUE None cfg);
        startup_config_setup_mappings fd_map cfg
      else
        hnd ← ask (_get_osfhandle (parent_fd m));
        match hnd with
        | None => _ ← raise E_BADF; mret None
        | Some hnd =>
            fd_info ← get_fd_info (parent_fd m);
            cfg ← st_option (set_fd_entry (child_fd m) (convert_fdinfo_to_crtflags fd_info) hnd (Some fd_info) cfg);
            startup_config_setup_mappings fd_map cfg
        end
  end.

(** The handle of a descriptor that the child gets. *)
Definition to_inherit (cfg : startup_config) (i : nat) : option Z :=
  match crt_fd_hnds cfg !! i, crt_fd_flags cfg !! i with
  | Some hnd, Some flags => if (hnd =? INVALID_HANDLE_VALUE) || negb (has_flag flags FOPEN) then None else Some hnd
  | _, _ => None
  end.

(** [n] descriptors are left from [i] on. *)
Fixpoint dup_loop (n i : nat) (cfg : startup_config) : M (startup_config * bool) :=
  match n with
  | O => mret (cfg, true)
  | S n =>
      match to_inherit cfg i with
      | None => dup_loop n (S i) cfg
      | Some hnd =>
          r ← call (DuplicateHandle hnd);
          match r with
          | inl e => _ ← raise_w32 e; mret (cfg, false)
          | inr dup =>
              dup_loop n (S i) (mk_config (num_fd cfg) (num_crt_fd cfg) (crt_fd_flags cfg) (<[i := dup]> (crt_fd_hnds cfg))
                                  (crt_fd_infos cfg) (inherited_hnds cfg ++ [dup]))
          end
      end
  end.

Definition startup_config_dup_inherited_hnds (cfg : startup_config) : M (startup_config * bool) :=
  dup_loop (Z.to_nat (num_fd cfg)) 0 cfg.

Fixpoint close_handles (hnds : list Z) : M unit :=
  match hnds with
  | [] => mret tt
  | h :: hnds => call (fun os => (tt, CloseHandle h os));; close_handles hnds
  end.

Definition startup_config_deinit (cfg : startup_config) : M unit := close_handles (inherited_hnds cfg).

Definition startup_config_init (fd_map : list mm_remap_fd) : M (option startup_config) :=
  let n := get_highest_child_fd fd_map + 1 in
  let num_fd := if n <? 3 then 3 else n in
  let cfg := startup_config_alloc_crt_buffs num_fd in
  err ← ask attribute_list_error;
  match err with
  | Some e => _ ← raise_w32 e; mret None
  | None =>
      c1 ← startup_config_setup_mappings std_fd_mappings cfg;
      match c1 with
      | None => mret None
      | Some cfg =>
          c2 ← startup_config_setup_mappings fd_map cfg;
          match c2 with
          | None => mret None
          | Some cfg =>
              '(cfg, ok) ← startup_config_dup_inherited_hnds cfg;
              if ok : bool then mret (Some cfg) else startup_config_deinit cfg;; mret None
          end
      end
  end.

End Config.

(** ** What the child gets *)

(** The last mapping of a descriptor, and the last one that does not close it. *)
Definition entry (maps : list mm_remap_fd) (fd : Z) : option Z :=
  foldl (fun acc m => if child_fd m =? fd then Some (parent_fd m) else acc) None maps.

Definition info_entry (maps : list mm_remap_fd) (fd : Z) : option Z :=
  foldl (fun acc m => if (child_fd m =? fd) && negb (parent_fd m =? -1) then Some (parent_fd m) else acc) None maps.

(** [DuplicateHandle] gives a handle on the same object, and the other handles stay valid. *)
Class W32ProcLaws (OS : Type) `{!W32File OS, !W32Proc OS} (crt_fds : OS -> gmap Z Z) {obj_t : Type}
    (obj : OS -> Z -> option obj_t) : Prop := {
  law_duplicate hnd os :
    match DuplicateHandle hnd os with
    | (inr dup, os') => crt_fds os' = crt_fds os /\ obj os' dup = obj os hnd /\ (forall h, obj os h <> None -> obj os' h = obj os h)
    | (inl _, os') => crt_fds os' = crt_fds os
    end
}.

Section Inherit.

Context {OS : Type} `{!W32File OS, !W32Proc OS} (crt_fds : OS -> gmap Z Z) `{!W32Laws OS crt_fds}.
Context {obj_t : Type} (obj : OS -> Z -> option obj_t) `{!W32ProcLaws OS crt_fds obj}.

(** Handle and information of a descriptor of the parent. *)
Definition hnd_of (w : fd_world (OS := OS)) (fd : Z) : Z := default 0 (crt_fds (fd_os w) !! fd).
Definition info_of (w : fd_world (OS := OS)) (fd : Z) : Z := default 0 (fd_infos w !! Z.to_nat fd).

Definition child_flags (w : fd_world) (maps : list mm_remap_fd) (fd : Z) : Z :=
  match entry maps fd with
  | Some p => if p =? -1 then 0 else convert_fdinfo_to_crtflags (info_of w p)
  | None => 0
  end.

Definition child_hnd (w : fd_world) (maps : list mm_remap_fd) (fd : Z) : Z :=
  match entry maps fd with
  | Some p => if p =? -1 then INVALID_HANDLE_VALUE else hnd_of w p
  | None => 0
  end.

Definition child_info (w : fd_world) (maps : list mm_remap_fd) (fd : Z) : Z :=
  match info_entry maps fd with Some p => info_of w p | None => 0 end.

(** The arrays after the mappings [maps]. *)
Record mapped (w : fd_world) (maps : list mm_remap_fd) (cfg : startup_config) : Prop := {
  mapped_flags : length (crt_fd_flags cfg) = Z.to_nat (num_crt_fd cfg);
  mapped_hnds : length (crt_fd_hnds cfg) = Z.to_nat (num_crt_fd cfg);
  mapped_infos : length (crt_fd_infos cfg) = Z.to_nat (num_crt_fd cfg);
  mapped_entry fd : 0 <= fd < num_crt_fd cfg ->
    crt_fd_flags cfg !! Z.to_nat fd = Some (child_flags w maps fd) /\
    crt_fd_hnds cfg !! Z.to_nat fd = Some (child_hnd w maps fd) /\
    crt_fd_infos cfg !! Z.to_nat fd = Some (child_info w maps fd)
}.

(** An open descriptor whose handle is that of an object. *)
Definition usable (w : fd_world (OS := OS)) (fd : Z) : Prop :=
  exists hnd, crt_fds (fd_os w) !! fd = Some hnd /\ obj (fd_os w) hnd <> None /\ hnd <> INVALID_HANDLE_VALUE.

Definition mapping_valid (w : fd_world (OS := OS)) (m : mm_remap_fd) : Prop :=
  0 <= child_fd m /\ (parent_fd m = -1 \/ usable w (parent_fd m)).

Lemma entry_snoc maps m fd :
  entry (maps ++ [m]) fd = if child_fd m =? fd then Some (parent_fd m) else entry maps fd.
Proof. unfold entry. by rewrite foldl_app. Qed.

Lemma info_entry_snoc maps m fd :
  info_entry (maps ++ [m]) fd
  = if (child_fd m =? fd) && negb (parent_fd m =? -1) then Some (parent_fd m) else info_entry maps fd.
Proof. unfold info_entry. by rewrite foldl_app. Qed.

Lemma lookup_insert_fd (l : list Z) (fd fd' v : Z) :
  0 <= fd -> 0 <= fd' < Z.of_nat (length l) ->
  <[Z.to_nat fd := v]> l !! Z.to_nat fd' = if fd =? fd' then Some v else l !! Z.to_nat fd'.
Proof.
  intros H H'. destruct (Z.eqb_spec fd fd') as [->|Hne].
  - apply list_lookup_insert_eq. lia.
  - apply list_lookup_insert_ne. lia.
Qed.

Lemma map_step w maps m cfg :
  described crt_fds (in_u 8) w -> mapped w maps cfg -> mapping_valid w m -> child_fd m < num_crt_fd cfg ->
  exists cfg', mapped w (maps ++ [m]) cfg' /\ num_crt_fd cfg' = num_crt_fd cfg /\ num_fd cfg' = num_fd cfg /\
    inherited_hnds cfg' = inherited_hnds cfg /\
    forall rest, startup_config_setup_mappings (m :: rest) cfg w = startup_config_setup_mappings rest cfg' w.
Proof.
  intros [Hl Ht] Hm [Hc Hp] Hlt. cbn [startup_config_setup_mappings].
  rewrite (proj2 (Z.ltb_ge (child_fd m) 0)) by lia.
  assert (Hset : forall flags hnd info, exists cfg', set_fd_entry (child_fd m) flags hnd info cfg = Some cfg' /\
    num_crt_fd cfg' = num_crt_fd cfg /\ num_fd cfg' = num_fd cfg /\ inherited_hnds cfg' = inherited_hnds cfg /\
    crt_fd_flags cfg' = <[Z.to_nat (child_fd m) := flags]> (crt_fd_flags cfg) /\
    crt_fd_hnds cfg' = <[Z.to_nat (child_fd m) := hnd]> (crt_fd_hnds cfg) /\
    crt_fd_infos cfg' = match info with Some i => <[Z.to_nat (child_fd m) := wrap_u 8 i]> (crt_fd_infos cfg) | None => crt_fd_infos cfg end).
  { intros flags hnd info. unfold set_fd_entry.
    rewrite (proj2 (Z.leb_le 0 (child_fd m))), (proj2 (Z.ltb_lt (child_fd m) _)) by lia. by eexists. }
  destruct Hm as [L1 L2 L3 He].
  destruct (Z.eqb_spec (parent_fd m) (-1)) as [Hpar|Hpar].
  - destruct (Hset 0 INVALID_HANDLE_VALUE None) as (cfg' & Hs & E1 & E2 & E3 & E4 & E5 & E6).
    exists cfg'. split_and!; try done.
    + split; rewrite ?E4, ?E5, ?E6, ?length_insert, E1; try done.
      intros fd Hfd. destruct (He fd Hfd) as (H1 & H2 & H3). rewrite !lookup_insert_fd by lia.
      unfold child_flags, child_hnd, child_info. rewrite entry_snoc, info_entry_snoc, Hpar, andb_false_r.
      destruct (child_fd m =? fd); done.
    + intros rest. unfold mbind, st_bind, st_option. rewrite Hs. done.
  - destruct Hp as [|(hnd & Hhnd & _)]; [done|]. pose proof (law_range _ _ (mk_is_Some _ _ Hhnd)) as Hrng.
    destruct (Ht _ (mk_is_Some _ _ Hhnd)) as (info & Hi & Hti).
    destruct (Hset (convert_fdinfo_to_crtflags info) hnd (Some info)) as (cfg' & Hs & E1 & E2 & E3 & E4 & E5 & E6).
    exists cfg'. split_and!; try done.
    + split; rewrite ?E4, ?E5, ?E6, ?length_insert, E1; try done.
      intros fd Hfd. destruct (He fd Hfd) as (H1 & H2 & H3). rewrite !lookup_insert_fd by lia.
      unfold child_flags, child_hnd, child_info. rewrite entry_snoc, info_entry_snoc.
      assert ((parent_fd m =? -1) = false) as Hneg by by apply Z.eqb_neq.
      rewrite Hneg. cbn [negb]. rewrite andb_true_r. destruct (child_fd m =? fd); [|done].
      rewrite Hneg. unfold info_of, hnd_of. rewrite Hi, Hhnd. cbn.
      rewrite wrap_u_small by done. done.
    + intros rest. unfold mbind, st_bind, ask, st_gets, st_option, get_fd_info. rewrite law_get, Hhnd.
      rewrite (proj2 (Z.ltb_ge (parent_fd m) 0)) by lia. rewrite Hi. cbn. rewrite Hs. done.
Qed.

Lemma map_loop w maps rest cfg :
  described crt_fds (in_u 8) w -> mapped w maps cfg -> Forall (fun m => mapping_valid w m /\ child_fd m < num_crt_fd cfg) rest ->
  exists cfg', startup_config_setup_mappings rest cfg w = Some (Some cfg', w) /\ mapped w (maps ++ rest) cfg' /\
    num_crt_fd cfg' = num_crt_fd cfg /\ num_fd cfg' = num_fd cfg /\ inherited_hnds cfg' = inherited_hnds cfg.
Proof.
  intros Hw. revert maps cfg. induction rest as [|m rest IH]; intros maps cfg Hm Hr.
  - exists cfg. rewrite app_nil_r. done.
  - apply Forall_cons in Hr as [[Hv Hlt] Hr].
    destruct (map_step w maps m cfg Hw Hm Hv Hlt) as (cfg1 & Hm1 & E1 & E2 & E3 & Heq). rewrite Heq.
    destruct (IH (maps ++ [m]) cfg1 Hm1) as (cfg2 & H & Hm2 & F1 & F2 & F3); [by rewrite E1|].
    exists cfg2. rewrite <- app_assoc in Hm2. split_and!; try done; congruence.
Qed.

Definition same_object (w w' : fd_world (OS := OS)) (h h' : Z) : Prop := obj (fd_os w') h' = obj (fd_os w) h.

(** The call of the system. *)
Lemma duplicate_step hnd (w : fd_world (OS := OS)) :
  exists r w', call (DuplicateHandle hnd) w = Some (r, w') /\ same_fds crt_fds w w' /\
    forall dup, r = inr dup -> same_object w w' hnd dup /\ forall h, obj (fd_os w) h <> None -> same_object w w' h h.
Proof.
  pose proof (law_duplicate hnd (fd_os w)) as L. unfold call, st_zoom.
  destruct (DuplicateHandle hnd (fd_os w)) as [[e|dup] os].
  - do 2 eexists. split; [done|]. split; [split; [done|exact L]|done].
  - destruct L as (L1 & L2 & L3). do 2 eexists. split; [done|]. split; [split; [done|exact L1]|].
    intros dup' [= <-]. split; [exact L2|exact L3].
Qed.

(** The handles after the duplication of those from [i] on. *)
Definition duplicated (n i : nat) (cfg cfg' : startup_config) (w w' : fd_world (OS := OS)) : Prop :=
  forall j, match to_inherit cfg j with
            | Some h => if decide (i <= j < i + n)%nat then exists d, crt_fd_hnds cfg' !! j = Some d /\ same_object w w' h d
                        else crt_fd_hnds cfg' !! j = crt_fd_hnds cfg !! j
            | None => crt_fd_hnds cfg' !! j = crt_fd_hnds cfg !! j
            end.

Definition same_layout (cfg cfg' : startup_config) : Prop :=
  num_fd cfg' = num_fd cfg /\ num_crt_fd cfg' = num_crt_fd cfg /\ crt_fd_flags cfg' = crt_fd_flags cfg /\
  crt_fd_infos cfg' = crt_fd_infos cfg /\ length (crt_fd_hnds cfg') = length (crt_fd_hnds cfg).

Lemma to_inherit_after cfg i dup j :
  j <> i ->
  to_inherit (mk_config (num_fd cfg) (num_crt_fd cfg) (crt_fd_flags cfg) (<[i := dup]> (crt_fd_hnds cfg))
                (crt_fd_infos cfg) (inherited_hnds cfg ++ [dup])) j = to_inherit cfg j.
Proof. intros H. unfold to_inherit. cbn. by rewrite list_lookup_insert_ne by done. Qed.

Lemma to_inherit_hnd cfg j h : to_inherit cfg j = Some h -> crt_fd_hnds cfg !! j = Some h.
Proof. unfold to_inherit. repeat case_match; naive_solver. Qed.

Lemma dup_loop_spec n i cfg w :
  (forall j h, (i <= j)%nat -> to_inherit cfg j = Some h -> obj (fd_os w) h <> None) ->
  exists cfg' ok w', dup_loop n i cfg w = Some ((cfg', ok), w') /\ same_fds crt_fds w w' /\
    (ok = false -> last_error w' <> None) /\
    (ok = true -> same_layout cfg cfg' /\ duplicated n i cfg cfg' w w' /\
                  forall h, obj (fd_os w) h <> None -> same_object w w' h h).
Proof.
  revert i cfg w. induction n as [|n IH]; intros i cfg w Hv; cbn [dup_loop].
  { exists cfg, true, w. split_and!; try done. intros _. split_and!; try done.
    intros j. destruct (to_inherit cfg j); [|done]. destruct (decide _); [lia|done]. }
  destruct (to_inherit cfg i) as [hnd|] eqn:Hi.
  2: { destruct (IH (S i) cfg w) as (cfg' & ok & w' & H & Hs & He & Hok); [intros j h Hj; apply Hv; lia|].
       exists cfg', ok, w'. split_and!; try done. intros Ht. destruct (Hok Ht) as (Hl & Hd & Hp). split_and!; try done.
       intros j. specialize (Hd j). destruct (to_inherit cfg j) eqn:Hj; [|done].
       assert (j <> i) by congruence. repeat destruct (decide _); try done; lia. }
  destruct (duplicate_step hnd w) as (r & w1 & H1 & Hs1 & Hr). rewrite (st_bind_Some _ _ _ _ _ H1).
  destruct r as [e|dup].
  { unfold raise_w32, mbind, st_bind, raise, st_modify. cbn. do 3 eexists. split; [reflexivity|]. by split_and!. }
  destruct (Hr dup eq_refl) as [Ho Hp]. set (cfg1 := mk_config _ _ _ _ _ _).
  destruct (IH (S i) cfg1 w1) as (cfg' & ok & w' & H & Hs & He & Hok).
  { intros j h Hj. unfold cfg1. rewrite to_inherit_after by lia. intros Hh.
    rewrite Hp by (eapply Hv; [|done]; lia). eapply Hv; [|done]; lia. }
  exists cfg', ok, w'. split_and!; try done; [by eapply same_trans|].
  intros Ht. destruct (Hok Ht) as ((L1 & L2 & L3 & L4 & L5) & Hd & Hp').
  pose proof (to_inherit_hnd _ _ _ Hi) as Hih. assert (Hne : obj (fd_os w) hnd <> None) by (eapply Hv; [|done]; lia).
  split_and!.
  - unfold same_layout. cbn in *. rewrite length_insert in L5. by split_and!.
  - intros j. specialize (Hd j). destruct (decide (j = i)) as [->|Hj].
    + rewrite Hi, decide_True by lia. exists dup. unfold same_object in *.
      rewrite Hp' by (rewrite Ho; done). split; [|done].
      assert (crt_fd_hnds cfg1 !! i = Some dup) as <- by (apply list_lookup_insert_eq; by eapply lookup_lt_Some).
      destruct (to_inherit cfg1 i); [|done]. rewrite decide_False in Hd by lia. done.
    + unfold cfg1 in Hd. rewrite to_inherit_after in Hd by done. cbn in Hd. rewrite list_lookup_insert_ne in Hd by done.
      destruct (to_inherit cfg j) as [h|] eqn:Hh; [|done].
      repeat destruct (decide _); try lia; try done. destruct Hd as (d & Hd & Hsd). exists d. split; [done|].
      unfold same_object in *. rewrite Hsd. apply Hp. eapply Hv; [|done]. lia.
  - intros h Hh. unfold same_object in *. rewrite Hp' by (rewrite Hp; done). by apply Hp.
Qed.

(** ** Layout of the buffer *)

(** What the C runtime reads: flags and handle of a descriptor. *)
Definition crt_flags (crtbuff : list Z) (fd : nat) : option Z := drop 4 crtbuff !! fd.
Definition crt_hnd (crtbuff : list Z) (num_fd fd : nat) : Z := le_value (take 8 (drop (4 + num_fd + 8 * fd) crtbuff)).

Lemma concat_bytes_length l : length (concat (map (le_bytes 8) l)) = (8 * length l)%nat.
Proof. induction l as [|z l IH]; [done|]. cbn [map concat length]. rewrite length_app, IH, le_bytes_length. lia. Qed.

Lemma concat_bytes_slice l i z rest :
  l !! i = Some z -> take 8 (drop (8 * i) (concat (map (le_bytes 8) l) ++ rest)) = le_bytes 8 z.
Proof.
  revert i. induction l as [|z' l IH]; intros [|i] H; [done|done| |].
  - injection H as ->. cbn [map concat]. rewrite Nat.mul_0_r, drop_0, <- app_assoc.
    rewrite take_app_le by (rewrite le_bytes_length; lia). apply take_ge. rewrite le_bytes_length. lia.
  - cbn [map concat]. rewrite <- app_assoc, drop_app_ge by (rewrite le_bytes_length; lia). rewrite le_bytes_length.
    replace (8 * S i - 8)%nat with (8 * i)%nat by lia. by apply IH.
Qed.

Definition well_sized (cfg : startup_config) : Prop :=
  length (crt_fd_flags cfg) = Z.to_nat (num_crt_fd cfg) /\ length (crt_fd_hnds cfg) = Z.to_nat (num_crt_fd cfg) /\
  length (crt_fd_infos cfg) = Z.to_nat (num_crt_fd cfg).

Section Layout.
Context (cfg : startup_config) (n : nat).
Hypothesis (Hn : num_crt_fd cfg = Z.of_nat n) (Hmax : (n <= 2044)%nat) (Hs : well_sized cfg).

Lemma buff_num : s32 (le_value (take 4 (crt_buff cfg))) = Z.of_nat n.
Proof.
  unfold crt_buff. rewrite take_app_le by (rewrite le_bytes_length; lia). rewrite take_ge by (rewrite le_bytes_length; lia).
  rewrite le_value_bytes, Hn. change (256 ^ Z.of_nat 4) with (2 ^ 32). rewrite (Z.mod_small (Z.of_nat n)) by lia.
  apply (wrap_s_small 32); [lia|]. unfold in_s. change (2 ^ (32 - 1)) with 2147483648. lia.
Qed.

Lemma buff_flags fd : (fd < n)%nat -> crt_flags (crt_buff cfg) fd = crt_fd_flags cfg !! fd.
Proof.
  intros H. unfold crt_flags, crt_buff. rewrite drop_app_ge, le_bytes_length by (rewrite le_bytes_length; lia).
  cbn [Nat.sub]. rewrite drop_0. destruct Hs as (L & _). apply lookup_app_l. lia.
Qed.

Lemma buff_hnd fd h : crt_fd_hnds cfg !! fd = Some h -> crt_hnd (crt_buff cfg) n fd = h mod 2 ^ 64.
Proof.
  intros H. unfold crt_hnd, crt_buff. destruct Hs as (L & _ & _).
  rewrite drop_app_ge, le_bytes_length by (rewrite le_bytes_length; lia).
  rewrite drop_app_ge by lia. replace (4 + n + 8 * fd - 4 - length (crt_fd_flags cfg))%nat with (8 * fd)%nat by lia.
  rewrite (concat_bytes_slice _ _ _ _ H), le_value_bytes. done.
Qed.

Lemma buff_infos : take n (drop (4 + n + n * 8) (crt_buff cfg)) = crt_fd_infos cfg.
Proof.
  destruct Hs as (L1 & L2 & L3). unfold crt_buff.
  rewrite drop_app_ge, le_bytes_length by (rewrite le_bytes_length; lia).
  rewrite drop_app_ge, drop_app_ge by (rewrite ?concat_bytes_length; lia). rewrite concat_bytes_length.
  replace (4 + n + n * 8 - 4 - length (crt_fd_flags cfg) - 8 * length (crt_fd_hnds cfg))%nat with 0%nat by lia.
  rewrite drop_0. apply take_ge. lia.
Qed.

Lemma buff_size : wrap_u 16 (CRT_BUFFER_SIZE (num_crt_fd cfg)) = CRT_BUFFER_SIZE (Z.of_nat n).
Proof. rewrite Hn. apply wrap_u_small. unfold in_u, CRT_BUFFER_SIZE, SIZEOF_INT, SIZEOF_HANDLE. lia. Qed.

Lemma init_infos_spec fd bytes infos :
  (fd + length bytes <= length infos)%nat ->
  exists infos', init_infos fd bytes infos = Some infos' /\
    forall i, infos' !! i = if decide (fd <= i < fd + length bytes)%nat then bytes !! (i - fd)%nat else infos !! i.
Proof.
  revert fd infos. induction bytes as [|b bytes IH]; intros fd infos H; cbn [init_infos].
  { exists infos. split; [done|]. intros i. cbn. destruct (decide _); [lia|done]. }
  cbn in H. rewrite (proj2 (Nat.ltb_lt fd (length infos))) by lia.
  destruct (IH (S fd) (<[fd := b]> infos)) as (infos' & -> & Hl); [rewrite length_insert; lia|].
  exists infos'. split; [done|]. intros i. rewrite Hl. cbn [length].
  destruct (decide (i = fd)) as [->|Hne].
  - rewrite decide_False, decide_True by lia. rewrite list_lookup_insert_eq, Nat.sub_diag by lia. done.
  - repeat destruct (decide _); try lia.
    + destruct (i - fd)%nat as [|k] eqn:Hk; [lia|]. cbn. f_equal. lia.
    + rewrite list_lookup_insert_ne by done. done.
Qed.

(** The child has the information of the parent. *)
Lemma fd_init_layout infos :
  length infos = Z.to_nat MAX_FD ->
  exists infos', mm_fd_init (Some (crt_buff cfg, CRT_BUFFER_SIZE (Z.of_nat n))) infos = Some infos' /\
    forall i, infos' !! i = if decide (i < n)%nat then crt_fd_infos cfg !! i else infos !! i.
Proof.
  intros Hl. unfold mm_fd_init. rewrite buff_num, Z.eqb_refl. cbn [negb].
  replace (Z.to_nat (SIZEOF_INT + Z.of_nat n + Z.of_nat n * SIZEOF_HANDLE)) with (4 + n + n * 8)%nat
    by (unfold SIZEOF_INT, SIZEOF_HANDLE; lia).
  rewrite Nat2Z.id, buff_infos. destruct Hs as (_ & _ & L3).
  destruct (init_infos_spec 0 (crt_fd_infos cfg) infos) as (infos' & -> & H); [change (Z.to_nat MAX_FD) with 2048%nat in *; lia|].
  exists infos'. split; [done|]. intros i. rewrite H, L3, Hn, Nat2Z.id. cbn [Nat.add]. rewrite Nat.sub_0_r.
  repeat destruct (decide _); try done; lia.
Qed.

End Layout.

(** ** The configuration of a child *)

Lemma round_up_bounds n :
  0 <= n <= 2044 -> let m := round_up (SIZEOF_INT + n) SIZEOF_HANDLE - SIZEOF_INT in n <= m <= 2044.
Proof.
  intros H. unfold round_up, SIZEOF_INT, SIZEOF_HANDLE. rewrite Z.quot_div_nonneg by lia. cbv zeta.
  pose proof (Z.div_mod (4 + n + 8 - 1) 8 ltac:(lia)). pose proof (Z.mod_pos_bound (4 + n + 8 - 1) 8 ltac:(lia)). lia.
Qed.

Lemma highest_bound (f : Z -> mm_remap_fd -> Z) maps a k :
  (f = fun fd_max m => if fd_max <? child_fd m then child_fd m else fd_max) ->
  a <= k -> Forall (fun m => child_fd m <= k) maps ->
  a <= foldl f a maps <= k /\ Forall (fun m => child_fd m <= foldl f a maps) maps.
Proof.
  intros Hf. revert a. induction maps as [|m maps IH]; intros a Ha Hm; cbn; [split; [lia|constructor]|].
  apply Forall_cons in Hm as [Hm1 Hm]. assert (Hb : a <= f a m <= k /\ child_fd m <= f a m).
  { rewrite Hf. destruct (Z.ltb_spec a (child_fd m)); lia. }
  destruct (IH (f a m) (proj2 (proj1 Hb)) Hm) as [IH1 IH2]. split; [lia|]. constructor; [lia|done].
Qed.

Lemma highest_child_fd maps k :
  -1 <= k -> Forall (fun m => child_fd m <= k) maps ->
  -1 <= get_highest_child_fd maps <= k /\ Forall (fun m => child_fd m <= get_highest_child_fd maps) maps.
Proof. intros Hk H. by apply highest_bound. Qed.

Lemma alloc_mapped w num_fd : mapped w [] (startup_config_alloc_crt_buffs num_fd).
Proof.
  unfold startup_config_alloc_crt_buffs. split; cbn [crt_fd_flags crt_fd_hnds crt_fd_infos num_crt_fd]; try apply length_replicate.
  intros fd Hfd. rewrite !lookup_replicate. unfold child_flags, child_hnd, child_info. cbn. split_and!; try done; lia.
Qed.

(** The mapping that gives its parent to a descriptor. *)
Lemma entry_in maps fd p : entry maps fd = Some p -> exists m, m ∈ maps /\ child_fd m = fd /\ parent_fd m = p.
Proof.
  induction maps as [|m maps IH] using rev_ind; [done|]. rewrite entry_snoc.
  destruct (Z.eqb_spec (child_fd m) fd) as [<-|].
  - intros [= <-]. exists m. split; [|done]. apply elem_of_app. right. by apply list_elem_of_singleton.
  - intros H. destruct (IH H) as (m' & ? & ?). exists m'. split; [|done]. apply elem_of_app. by left.
Qed.

Lemma crtflags_open info : has_flag (convert_fdinfo_to_crtflags info) FOPEN = true.
Proof. unfold convert_fdinfo_to_crtflags. repeat case_match; reflexivity. Qed.

(** The handles to inherit are those of the descriptors of the parent. *)
Lemma to_inherit_mapped w maps cfg fd :
  mapped w maps cfg -> Forall (mapping_valid w) maps -> 0 <= fd < num_crt_fd cfg ->
  to_inherit cfg (Z.to_nat fd) = if has_flag (child_flags w maps fd) FOPEN then Some (child_hnd w maps fd) else None.
Proof.
  intros Hm Hv Hfd. destruct Hm as [_ _ _ He]. destruct (He fd Hfd) as (H1 & H2 & _).
  unfold to_inherit. rewrite H1, H2. unfold child_flags, child_hnd. destruct (entry maps fd) as [p|] eqn:E; [|reflexivity].
  destruct (Z.eqb_spec p (-1)) as [->|Hp]; [reflexivity|]. rewrite crtflags_open. cbn [negb]. rewrite orb_false_r.
  destruct (entry_in _ _ _ E) as (m & Hin & _ & Hpar). rewrite Forall_forall in Hv. destruct (Hv m Hin) as [_ [|(h & Hh & Hobj & Hne)]]; [lia|].
  rewrite Hpar in Hh. unfold hnd_of. rewrite Hh. cbn.
  by rewrite (proj2 (Z.eqb_neq h _)) by done.
Qed.

Lemma inherit_valid w maps fd :
  Forall (mapping_valid w) maps -> has_flag (child_flags w maps fd) FOPEN = true -> obj (fd_os w) (child_hnd w maps fd) <> None.
Proof.
  intros Hv. unfold child_flags, child_hnd. destruct (entry maps fd) as [p|] eqn:E; [|done].
  destruct (Z.eqb_spec p (-1)) as [->|Hp]; [done|]. intros _.
  destruct (entry_in _ _ _ E) as (m & Hin & _ & Hpar). rewrite Forall_forall in Hv. destruct (Hv m Hin) as [_ [|(h & Hh & Hobj & Hne)]]; [lia|].
  rewrite Hpar in Hh. unfold hnd_of. rewrite Hh. cbn. done.
Qed.

Lemma close_handles_same hnds w :
  exists w', close_handles hnds w = Some (tt, w') /\ same_fds crt_fds w w' /\ last_error w' = last_error w.
Proof.
  revert w. induction hnds as [|h hnds IH]; intros w; cbn [close_handles]; [by exists w|].
  unfold mbind, st_bind, call, st_zoom.
  destruct (IH (mk_fd_world (fd_infos w) (CloseHandle h (fd_os w)) (last_error w))) as (w' & H & Hs & He).
  exists w'. split; [exact H|]. split; [|done]. eapply same_trans; [|done]. split; [done|]. cbn. apply law_close_handle.
Qed.


(** ** The steps of the initialisation *)

Lemma valid_mappings (w : fd_world (OS := OS)) fd_map :
  (forall fd, 0 <= fd < 3 -> usable w fd) ->
  Forall (fun m => mapping_valid w m /\ child_fd m < 2044) fd_map ->
  let n := get_highest_child_fd fd_map + 1 in
  let num_fd := if n <? 3 then 3 else n in
  3 <= num_fd <= 2044 /\ Forall (fun m => mapping_valid w m /\ child_fd m < num_fd) (std_fd_mappings ++ fd_map).
Proof.
  intros Hstd Hmap n nfd.
  destruct (highest_child_fd fd_map 2043) as [Hk Hle]; [lia|eapply Forall_impl; [done|]; cbn; lia|].
  assert (Hnfd : 3 <= nfd <= 2044 /\ n <= nfd) by (unfold nfd, n; case_test; lia).
  split; [lia|]. apply Forall_app. split.
  - assert (Hm : forall fd, 0 <= fd < 3 -> mapping_valid w (mk_remap fd fd) /\ fd < nfd).
    { intros fd Hfd. split; [|lia]. split; [cbn; lia|]. right. by apply Hstd. }
    unfold std_fd_mappings. apply Forall_cons; split; [apply (Hm 0); lia|]. apply Forall_cons; split; [apply (Hm 1); lia|].
    apply Forall_cons; split; [apply (Hm 2); lia|]. constructor.
  - apply Forall_forall. intros m Hin. rewrite Forall_forall in Hmap, Hle.
    pose proof (Hle m Hin). split; [by apply Hmap|]. unfold n in *. cbn in *. lia.
Qed.

(** The configuration before the handles are duplicated. *)
Lemma setup_all w fd_map num_fd :
  described crt_fds (in_u 8) w -> 0 <= num_fd <= 2044 ->
  Forall (fun m => mapping_valid w m /\ child_fd m < num_fd) (std_fd_mappings ++ fd_map) ->
  exists cfg1 cfg2,
    startup_config_setup_mappings std_fd_mappings (startup_config_alloc_crt_buffs num_fd) w = Some (Some cfg1, w) /\
    startup_config_setup_mappings fd_map cfg1 w = Some (Some cfg2, w) /\
    mapped w (std_fd_mappings ++ fd_map) cfg2 /\ SpawnWin32.num_fd cfg2 = num_fd /\ num_fd <= num_crt_fd cfg2 <= 2044.
Proof.
  intros Hw Hn Hv. pose proof (round_up_bounds num_fd Hn) as Hr. cbv zeta in Hr.
  assert (Hv0 : Forall (fun m => mapping_valid w m /\ child_fd m < num_crt_fd (startup_config_alloc_crt_buffs num_fd))
                  (std_fd_mappings ++ fd_map)).
  { eapply Forall_impl; [exact Hv|]. intros m [? ?]. split; [done|]. cbn [num_crt_fd startup_config_alloc_crt_buffs]. lia. }
  apply Forall_app in Hv0 as [Hv1 Hv2].
  destruct (map_loop w [] std_fd_mappings _ Hw (alloc_mapped w num_fd) Hv1) as (cfg1 & H1 & Hm1 & E1 & E2 & _).
  rewrite <- E1 in Hv2.
  destruct (map_loop w _ fd_map cfg1 Hw Hm1 Hv2) as (cfg2 & H2 & Hm2 & E3 & E4 & _).
  exists cfg1, cfg2. rewrite E3, E1, E4, E2. split_and!; try done; apply Hr.
Qed.

Lemma startup_config_init_spec w fd_map :
  described crt_fds (in_u 8) w -> (forall fd, 0 <= fd < 3 -> usable w fd) ->
  Forall (fun m => mapping_valid w m /\ child_fd m < 2044) fd_map ->
  let maps := std_fd_mappings ++ fd_map in
  exists r w', startup_config_init fd_map w = Some (r, w') /\ same_fds crt_fds w w' /\ Forall (mapping_valid w) maps /\
    match r with
    | None => last_error w' <> None
    | Some cfg =>
        exists cfg0, mapped w maps cfg0 /\ Forall (fun m => child_fd m < num_fd cfg0) maps /\ 3 <= num_fd cfg0 /\
          num_fd cfg0 <= num_crt_fd cfg0 <= 2044 /\ same_layout cfg0 cfg /\
          duplicated (Z.to_nat (num_fd cfg0)) 0 cfg0 cfg w w'
    end.
Proof.
  intros Hw Hstd Hmap maps. destruct (valid_mappings w fd_map Hstd Hmap) as [Hn Hv].
  unfold startup_config_init. cbv zeta. set (nfd := if _ <? 3 then _ else _) in *.
  destruct (setup_all w fd_map nfd Hw ltac:(lia) Hv) as (cfg1 & cfg2 & H1 & H2 & Hm2 & E1 & E2).
  apply Forall_and in Hv as [Hva Hvb].
  unfold ask, st_gets. unfold mbind at 1, st_bind at 1. destruct (attribute_list_error (fd_os w)) as [e|].
  { do 2 eexists. split; [reflexivity|]. by split_and!. }
  rewrite (st_bind_Some _ _ _ _ _ H1), (st_bind_Some _ _ _ _ _ H2). unfold startup_config_dup_inherited_hnds.
  destruct (dup_loop_spec (Z.to_nat (num_fd cfg2)) 0 cfg2 w) as (cfg & ok & w' & H3 & Hs & Herr & Hok).
  { intros j h _ Hj. pose proof (lookup_lt_Some _ _ _ (to_inherit_hnd _ _ _ Hj)) as Hlt.
    rewrite (mapped_hnds _ _ _ Hm2) in Hlt. rewrite <- (Nat2Z.id j) in Hj.
    rewrite (to_inherit_mapped w maps cfg2) in Hj by (done || lia).
    destruct (has_flag _ _) eqn:Hf; [|done]. injection Hj as <-. by apply inherit_valid. }
  rewrite (st_bind_Some _ _ _ _ _ H3). destruct ok.
  - destruct (Hok eq_refl) as (Hl & Hd & _). exists (Some cfg), w'. split_and!; try done.
    exists cfg2. rewrite E1. split_and!; try done; try lia. by rewrite <- E1.
  - destruct (close_handles_same (inherited_hnds cfg) w') as (w'' & Hc & Hs' & He).
    unfold startup_config_deinit. rewrite (st_bind_Some _ _ _ _ _ Hc).
    exists None, w''. split_and!; try done; [by eapply same_trans|]. rewrite He. by apply Herr.
Qed.

(** The handle of an inherited descriptor in the buffer. *)
Lemma inherited_handle w w' maps cfg0 cfg fd :
  mapped w maps cfg0 -> Forall (mapping_valid w) maps -> Forall (fun m => child_fd m < num_fd cfg0) maps ->
  num_fd cfg0 <= num_crt_fd cfg0 -> duplicated (Z.to_nat (num_fd cfg0)) 0 cfg0 cfg w w' ->
  (fd < Z.to_nat (num_crt_fd cfg0))%nat -> has_flag (child_flags w maps (Z.of_nat fd)) FOPEN = true ->
  exists h, crt_fd_hnds cfg !! fd = Some h /\ same_object w w' (child_hnd w maps (Z.of_nat fd)) h.
Proof.
  intros Hm Hva Hvb Hn Hd Hfd Hf. specialize (Hd fd).
  pose proof (to_inherit_mapped w maps cfg0 (Z.of_nat fd) Hm Hva ltac:(lia)) as Ht. rewrite Nat2Z.id, Hf in Ht.
  rewrite Ht, decide_True in Hd; [destruct Hd as (d & ? & ?); by exists d|].
  unfold child_flags in Hf. destruct (entry maps (Z.of_nat fd)) as [p|] eqn:E; [|done].
  destruct (entry_in _ _ _ E) as (m & Hin & Hc & _). rewrite Forall_forall in Hvb. specialize (Hvb m Hin). cbn in Hvb. lia.
Qed.

(** What the child reads in the buffer, [objs] being the objects of the handles it gets. *)
Definition reads_fds (w : fd_world) (maps : list mm_remap_fd) (objs : Z -> option obj_t) (buff : list Z) (size : Z) (n : nat) : Prop :=
  s32 (le_value (take 4 buff)) = Z.of_nat n /\ Forall (fun m => child_fd m < Z.of_nat n) maps /\
  (forall infos, length infos = Z.to_nat MAX_FD ->
     exists infos', mm_fd_init (Some (buff, size)) infos = Some infos' /\
       forall fd, infos' !! fd = if decide (fd < n)%nat then Some (child_info w maps (Z.of_nat fd)) else infos !! fd) /\
  (forall fd, (fd < n)%nat ->
     crt_flags buff fd = Some (child_flags w maps (Z.of_nat fd)) /\
     (has_flag (child_flags w maps (Z.of_nat fd)) FOPEN = true ->
      exists h, crt_hnd buff n fd = h mod 2 ^ 64 /\ objs h = obj (fd_os w) (child_hnd w maps (Z.of_nat fd)))).

Lemma config_reads w w' maps cfg0 cfg :
  mapped w maps cfg0 -> Forall (mapping_valid w) maps -> Forall (fun m => child_fd m < num_fd cfg0) maps -> 3 <= num_fd cfg0 ->
  num_fd cfg0 <= num_crt_fd cfg0 <= 2044 -> same_layout cfg0 cfg -> duplicated (Z.to_nat (num_fd cfg0)) 0 cfg0 cfg w w' ->
  exists size std n, startup_config_get_startup_info cfg = Some (size, crt_buff cfg, std) /\
    reads_fds w maps (obj (fd_os w')) (crt_buff cfg) size n.
Proof.
  intros Hm Hva Hvb Hn3 Hn (L1 & L2 & L3 & L4 & L5) Hd. set (n := Z.to_nat (num_crt_fd cfg0)).
  assert (Hsz : well_sized cfg) by (unfold well_sized; rewrite L2, L3, L4, L5; by destruct Hm).
  assert (Hnn : num_crt_fd cfg = Z.of_nat n) by (rewrite L2; unfold n; lia).
  assert (Hlk : forall fd, (fd < n)%nat ->
    crt_fd_flags cfg !! fd = Some (child_flags w maps (Z.of_nat fd)) /\ crt_fd_infos cfg !! fd = Some (child_info w maps (Z.of_nat fd))).
  { intros fd Hfd. rewrite L3, L4. destruct (mapped_entry _ _ _ Hm (Z.of_nat fd)) as (Q1 & _ & Q3); [lia|].
    rewrite Nat2Z.id in Q1, Q3. done. }
  assert (Hh : forall i, (i < 3)%nat -> is_Some (crt_fd_hnds cfg !! i)).
  { intros i Hi. apply lookup_lt_is_Some. destruct Hsz as (_ & -> & _). rewrite Hnn. lia. }
  destruct (Hh 0%nat) as [h0 F0], (Hh 1%nat) as [h1 F1], (Hh 2%nat) as [h2 F2]; try lia.
  exists (CRT_BUFFER_SIZE (Z.of_nat n)), (h0, h1, h2), n. split; [|split_and!].
  - unfold startup_config_get_startup_info. rewrite F0, F1, F2. cbn. rewrite (buff_size cfg n); [done|done|lia].
  - apply buff_num; [done|lia].
  - eapply Forall_impl; [exact Hvb|]. cbn. lia.
  - intros infos Hi. destruct (fd_init_layout cfg n Hnn ltac:(lia) Hsz infos Hi) as (infos' & Hi' & Hget).
    exists infos'. split; [done|]. intros fd. rewrite Hget. destruct (decide _) as [Hfd|]; [|done]. by apply Hlk.
  - intros fd Hfd. rewrite (buff_flags cfg n) by (assumption || lia). split; [by apply Hlk|]. intros Hf.
    destruct (inherited_handle w w' maps cfg0 cfg fd) as (h & H1 & H2); try done; try lia.
    exists h. split; [|exact H2]. apply (buff_hnd cfg n); assumption || lia.
Qed.

(** Descriptors of a child process: the buffer passed to a child, for a table of the
    parent where each open descriptor is typed and mappings to open descriptors,
    is read back by the child.  For each descriptor, its last mapping gives
    the flags the C runtime reads and a handle on the same object as
    that of the descriptor of the parent, while [mm_fd_init] gets the information of that
    descriptor; the other descriptors of the child are closed.
    The parent keeps its descriptors, and a failure raises an error. *)
Theorem child_fds_inherited (w : fd_world (OS := OS)) (fd_map : list mm_remap_fd) :
  described crt_fds (in_u 8) w ->
  (forall fd, 0 <= fd < 3 -> usable w fd) ->
  Forall (fun m => mapping_valid w m /\ child_fd m < 2044) fd_map ->
  let maps := std_fd_mappings ++ fd_map in
  exists r w', startup_config_init fd_map w = Some (r, w') /\ described crt_fds (in_u 8) w' /\ fd_view crt_fds w' = fd_view crt_fds w /\
    match r with
    | None => last_error w' <> None
    | Some cfg =>
        exists size std n, startup_config_get_startup_info cfg = Some (size, crt_buff cfg, std) /\
          s32 (le_value (take 4 (crt_buff cfg))) = Z.of_nat n /\ Forall (fun m => child_fd m < Z.of_nat n) maps /\
          (forall infos, length infos = Z.to_nat MAX_FD ->
             exists infos', mm_fd_init (Some (crt_buff cfg, size)) infos = Some infos' /\
               forall fd, infos' !! fd = if decide (fd < n)%nat then Some (child_info w maps (Z.of_nat fd)) else infos !! fd) /\
          (forall fd, (fd < n)%nat ->
             crt_flags (crt_buff cfg) fd = Some (child_flags w maps (Z.of_nat fd)) /\
             (has_flag (child_flags w maps (Z.of_nat fd)) FOPEN = true ->
              exists h, crt_hnd (crt_buff cfg) n fd = h mod 2 ^ 64 /\ same_object w w' (child_hnd w maps (Z.of_nat fd)) h))
    end.
Proof.
  intros Hw Hstd Hmap maps.
  destruct (startup_config_init_spec w fd_map Hw Hstd Hmap) as (r & w' & Hr & Hs & Hva & Hres). fold maps in Hva, Hres.
  destruct (same_described crt_fds (in_u 8) w w' Hs Hw) as [Hw' Hview]. exists r, w'. split_and!; try done.
  destruct r as [cfg|]; [|done]. destruct Hres as (cfg0 & Hm & Hvb & Hn3 & Hn & Hl & Hd).
  exact (config_reads _ _ _ _ _ Hm Hva Hvb Hn3 Hn Hl Hd).
Qed.
End Inherit.

(** ** A system *)

Module SpawnDemo.
Import FdTable.Demo.

(** A duplicated handle is the next even number after the handle. *)
#[global] Instance proc : W32Proc os := {
  DuplicateHandle h o := (if h <? 0 then inl ERROR_INVALID_HANDLE else inr (h + 2), o);
  attribute_list_error _ := None
}.

Definition obj (_ : os) (h : Z) : option Z := if h <? 0 then None else Some (h mod 2).

#[global] Instance proc_laws : W32ProcLaws os open_fds obj.
Proof.
  split. intros hnd o. cbn. destruct (Z.ltb_spec hnd 0) as [H|H]; [done|]. split; [done|]. split; [|done]. unfold obj.
  rewrite (proj2 (Z.ltb_ge (hnd + 2) 0)), (proj2 (Z.ltb_ge hnd 0)) by lia. f_equal. rewrite <- (Z.mul_1_l 2) at 1. apply Z.mod_add. lia.
Qed.

Definition start : fd_world (OS := os) :=
  mk_fd_world (<[2%nat := FD_TYPE_CONSOLE]> (<[1%nat := FD_TYPE_PIPE]> (fd_infos Demo.start))) (mk_os {[0 := 90; 1 := 91; 2 := 92]} [] [] []) None.

(** The output of the child is also its descriptor 5, and its input is closed. *)
Definition maps : list mm_remap_fd := [mk_remap 5 1; mk_remap 0 (-1)].

Lemma start_open fd : is_Some (open_fds (fd_os start) !! fd) -> fd = 0 \/ fd = 1 \/ fd = 2.
Proof.
  intros [h Hh]. apply map_lookup_filter_Some in Hh as [Hh _]. cbn in Hh.
  destruct (decide (fd = 0)) as [->|H0]; [by left|]. destruct (decide (fd = 1)) as [->|H1]; [by right; left|].
  destruct (decide (fd = 2)) as [->|H2]; [by right; right|]. by rewrite !lookup_insert_ne, lookup_singleton_ne in Hh by done.
Qed.

Lemma start_usable fd : fd = 0 \/ fd = 1 \/ fd = 2 -> usable open_fds obj start fd.
Proof. intros [-> | [-> | ->]]; eexists; (split; [vm_compute; reflexivity|split; done]). Qed.

Lemma spawn_described : described open_fds (in_u 8) start.
Proof.
  split; [reflexivity|]. intros fd Hfd. destruct (start_open fd Hfd) as [-> | [-> | ->]]; eexists; (split; [vm_compute; reflexivity|vm_compute; split; congruence]).
Qed.

Lemma maps_valid : Forall (fun m => mapping_valid open_fds obj start m /\ child_fd m < 2044) maps.
Proof.
  unfold maps. apply Forall_cons; split; [|apply Forall_cons; split; [|constructor]].
  - split; [|cbn; lia]. split; [cbn; lia|]. right. apply start_usable. right. by left.
  - split; [|cbn; lia]. split; [cbn; lia|]. by left.
Qed.

End SpawnDemo.

Lemma child_fds_inherited_witness :
  exists r w', startup_config_init SpawnDemo.maps SpawnDemo.start = Some (r, w') /\ described FdTable.Demo.open_fds (in_u 8) w'.
Proof.
  destruct (child_fds_inherited FdTable.Demo.open_fds SpawnDemo.obj SpawnDemo.start SpawnDemo.maps SpawnDemo.spawn_described
    ltac:(intros fd Hfd; apply SpawnDemo.start_usable; lia) SpawnDemo.maps_valid) as (r & w' & H1 & H2 & _).
  exists r, w'. split; [exact H1|exact H2].
Defined.
