(* ===== verification/ProcessWin32.v ===== *)
(** * Child processes on Windows

    The rest of [process-win32.c]: the list of the children, the search of the executable, spawning,
    waiting and replacing the process.  The environment is that of [Utils], the command line that of [CmdLine] and the
    descriptors of the child those of [SpawnWin32].  [None] of the monad is undefined behaviour or the crash of [mm_check]. *)

From S2P Require Import Prelude CStr Errcode Effects Utils CmdLine FilePosix TextMode AccessWin32 FdTable IpcWin32 VolumeWin32 FileWin32 SpawnWin32.

Definition MM_SPAWN_DAEMONIZE : Z := 0x1.
Definition MM_SPAWN_KEEP_FDS : Z := 0x2.
Definition MM_WSTATUS_CODEMASK : Z := 0xFF.
Definition MM_WSTATUS_EXITED : Z := 0x100.
Definition MM_WSTATUS_SIGNALED : Z := 0x200.

Definition SIGINT : Z := 2.
Definition SIGILL : Z := 4.
Definition SIGFPE : Z := 8.
Definition SIGSEGV : Z := 11.
Definition SIGABRT : Z := 22.

(** ** Exit codes *)

Definition EXCEPTION_ACCESS_VIOLATION : Z := 0xC0000005.
Definition EXCEPTION_ARRAY_BOUNDS_EXCEEDED : Z := 0xC000008C.
Definition EXCEPTION_GUARD_PAGE : Z := 0x80000001.
Definition EXCEPTION_STACK_OVERFLOW : Z := 0xC00000FD.
Definition EXCEPTION_DATATYPE_MISALIGNMENT : Z := 0x80000002.
Definition EXCEPTION_FLT_DENORMAL_OPERAND : Z := 0xC000008D.
Definition EXCEPTION_FLT_DIVIDE_BY_ZERO : Z := 0xC000008E.
Definition EXCEPTION_FLT_INEXACT_RESULT : Z := 0xC000008F.
Definition EXCEPTION_FLT_INVALID_OPERATION : Z := 0xC0000090.
Definition EXCEPTION_FLT_OVERFLOW : Z := 0xC0000091.
Definition EXCEPTION_FLT_STACK_CHECK : Z := 0xC0000092.
Definition EXCEPTION_FLT_UNDERFLOW : Z := 0xC0000093.
Definition EXCEPTION_INT_DIVIDE_BY_ZERO : Z := 0xC0000094.
Definition EXCEPTION_INT_OVERFLOW : Z := 0xC0000095.
Definition EXCEPTION_ILLEGAL_INSTRUCTION : Z := 0xC000001D.
Definition STATUS_CONTROL_C_EXIT : Z := 0xC000013A.

Definition is_one_of (z : Z) (l : list Z) : bool := existsb (Z.eqb z) l.

Definition translate_exitcode_in_status (exitcode : Z) : Z :=
  if exitcode <? 0xC0000000 then Z.lor (Z.land exitcode MM_WSTATUS_CODEMASK) MM_WSTATUS_EXITED
  else
    let status :=
      if is_one_of exitcode [EXCEPTION_ACCESS_VIOLATION; EXCEPTION_ARRAY_BOUNDS_EXCEEDED; EXCEPTION_GUARD_PAGE;
                             EXCEPTION_STACK_OVERFLOW; EXCEPTION_DATATYPE_MISALIGNMENT] then SIGSEGV
      else if is_one_of exitcode [EXCEPTION_FLT_DENORMAL_OPERAND; EXCEPTION_FLT_DIVIDE_BY_ZERO; EXCEPTION_FLT_INEXACT_RESULT;
                                  EXCEPTION_FLT_INVALID_OPERATION; EXCEPTION_FLT_OVERFLOW; EXCEPTION_FLT_STACK_CHECK;
                                  EXCEPTION_FLT_UNDERFLOW; EXCEPTION_INT_DIVIDE_BY_ZERO; EXCEPTION_INT_OVERFLOW] then SIGFPE
      else if exitcode =? EXCEPTION_ILLEGAL_INSTRUCTION then SIGILL
      else if exitcode =? STATUS_CONTROL_C_EXIT then SIGINT
      else SIGABRT in
    Z.lor status MM_WSTATUS_SIGNALED.

(** ** State *)

Record child_entry := mk_child { ce_pid : Z; ce_hnd : Z }.

(** The used part of the array; its length is [num_child]. *)
Record children_list := mk_children { entries : list child_entry; num_max : nat }.

Definition no_children : children_list := mk_children [] 0.

Record process_info := mk_process { hProcess : Z; hThread : Z; dwProcessId : Z }.

(** [CreateProcessW path cmdline envp startup_info]. *)
Class W32Child (OS : Type) := {
  realloc_entries : nat -> OS -> bool;
  CreateProcessW : list Z -> list Z -> option (list Z) -> Z * list Z * (Z * Z * Z) -> OS -> (w32err + process_info) * OS;
  WaitForSingleObject : Z -> OS -> OS;
  GetExitCodeProcess : Z -> OS -> Z;
  CreateRemoteThread_exit : Z -> Z -> OS -> OS
}.

Section Process.

Context {OS : Type} `{!W32File OS, !W32Pipe OS, !W32Volume OS, !W32Meta OS, !W32Proc OS, !W32Child OS}.

(** [child_hnd_to_exit] is the process to stop with this one. *)
Record proc_world := mk_proc { pw_files : file_world OS; pw_env : environ; children : children_list; child_hnd_to_exit : Z }.

Abbreviation M := (ST proc_world).

Definition liftp {A} (m : ST (file_world OS) A) : M A := fun w =>
  '(a, f) ← m (pw_files w); Some (a, mk_proc f (pw_env w) (children w) (child_hnd_to_exit w)).
Definition set_children (l : children_list) : M unit := st_modify (fun w => mk_proc (pw_files w) (pw_env w) l (child_hnd_to_exit w)).
Definition set_child_to_exit (hnd : Z) : M unit := st_modify (fun w => mk_proc (pw_files w) (pw_env w) (children w) hnd).
Definition raisep (e : errcode) : M Z := liftp (raisew e).
Definition raisep_w32 (e : w32err) : M Z := liftp (raisew_w32 e).

(** ** Children *)

Definition add_to_children_list (pid hnd : Z) : M Z :=
  list ← st_gets children;
  let num_child := length (entries list) in
  if (num_max list <=? num_child)%nat then
    let nmax := if (num_max list =? 0)%nat then 16%nat else (num_max list * 2)%nat in
    ok ← liftp (askw (realloc_entries nmax));
    if ok : bool then set_children (mk_children (entries list ++ [mk_child pid hnd]) nmax);; mret 0
    else raisep E_NOMEM
  else set_children (mk_children (entries list ++ [mk_child pid hnd]) (num_max list));; mret 0.

Definition find_child (pid : Z) (l : list child_entry) : option child_entry := List.find (fun e => ce_pid e =? pid) l.

(** [None] is the null handle. *)
Definition get_handle_from_children_list (pid : Z) : M (option Z) :=
  list ← st_gets children; mret (ce_hnd <$> find_child pid (entries list)).

(** The first entry of the process is removed: [None] if there is none. *)
Fixpoint remove_child (pid : Z) (l : list child_entry) : option (list child_entry) :=
  match l with
  | [] => None
  | e :: l => if ce_pid e =? pid then Some l else rest ← remove_child pid l; Some (e :: rest)
  end.

Definition drop_child_from_children_list (pid : Z) : M unit :=
  list ← st_gets children;
  rest ← st_option (remove_child pid (entries list));
  set_children (mk_children rest (num_max list)).

(** ** Executable *)

Definition contains_dirsep (path : cstr) : bool := existsb (is_path_separator true) path.

Definition DEFAULT_PATHSEARCH : cstr := cs "C:\Windows\system32;C:\Windows;".
Definition SEMICOLON : ascii := ";".
Definition search_exts : list cstr := [[]; cs ".exe"].

(** Length of the component: [strchr(dir, ';')], or the whole string. *)
Fixpoint dirlen (dir : cstr) : nat := match dir with [] => 0 | c :: dir => if bool_decide (c = SEMICOLON) then 0 else S (dirlen dir) end.

(** The loop on the extensions: the path found or the error kept. *)
Fixpoint try_exts (exts : list cstr) (prefix : cstr) (error : errcode) : M (errcode + cstr) :=
  match exts with
  | [] => mret (inl error)
  | ext :: exts =>
      let path := prefix ++ ext in
      rv ← liftp (mm_check_access path X_OK);
      match rv with
      | AccessOk => mret (inr path)
      | AccessErr E_ACCES => try_exts exts prefix E_ACCES
      | _ => try_exts exts prefix error
      end
  end.

(** The loop on the components of [dir]; each turn makes it shorter, but for an empty one that it cannot have. *)
Fixpoint search_loop (fuel : nat) (base dir : cstr) (error : errcode) : M (errcode + cstr) :=
  match dir with
  | [] => mret (inl error)
  | _ =>
      match fuel with
      | O => st_ub
      | S fuel =>
          let n := dirlen dir in
          r ← try_exts search_exts (take n dir ++ cs "\" ++ base) error;
          match r with
          | inr path => mret (inr path)
          | inl error =>
              let dir := drop n dir in
              search_loop fuel base (match dir with c :: rest => if bool_decide (c = SEMICOLON) then rest else dir | [] => [] end) error
          end
      end
  end.

Definition search_bin_in_path (base : cstr) : M (option cstr) :=
  env ← st_gets pw_env;
  let dir := default [] (mm_getenv env (cs "PATH") (Some DEFAULT_PATHSEARCH)) in
  r ← search_loop (length dir) base dir E_NOENT;
  match r with
  | inr path => mret (Some path)
  | inl error => _ ← raisep error; mret None
  end.

(** ** Spawning *)

(** [concat_strv]: [None] is a string that is not UTF-8, or an array that is null. *)
Definition concat_utf16 (strv : option (list cstr)) (sep : Z) : option (list Z) :=
  l ← strv;
  if forallb (fun s => bool_decide (is_Some (utf8_to_utf16 s))) l
  then concat_strv (fun s => default [] (utf8_to_utf16 s)) (Some l) sep else None.

Definition spawn_process (path : cstr) (fd_map : list mm_remap_fd) (argv : list cstr) (envp : option (list cstr)) : M (option (Z * Z)) :=
  match utf8_to_utf16 path with
  | None => _ ← raisep_w32 ERROR_NO_UNICODE_TRANSLATION; mret None
  | Some path_u16 =>
      let concat_envp := concat_utf16 envp 0 in
      match concat_utf16 (Some argv) (code SPACE), bool_decide (is_Some envp) && negb (bool_decide (is_Some concat_envp)) with
      | Some cmdline, false =>
          cfg ← liftp (lift (startup_config_init fd_map));
          match cfg with
          | None => mret None
          | Some cfg =>
              info ← st_option (startup_config_get_startup_info cfg);
              res ← liftp (callw (CreateProcessW path_u16 cmdline concat_envp info));
              liftp (lift (startup_config_deinit cfg));;
              match res with
              | inl e => _ ← raisep_w32 e; mret None
              | inr p => liftp (runw (CloseHandle (hThread p)));; mret (Some (dwProcessId p, hProcess p))
              end
          end
      | _, _ => _ ← raisep_w32 ERROR_NO_UNICODE_TRANSLATION; mret None
      end
  end.

(** [want_pid] says if the caller gave a variable for the identifier; the value returned and this identifier.  A child that could
    not be added to the list is not reported. *)
Definition mm_spawn (want_pid : bool) (path : option cstr) (fd_map : list mm_remap_fd) (flags : Z) (argv envp : option (list cstr))
    : M (Z * option Z) :=
  match path with
  | None => rv ← raisep E_INVAL; mret (rv, None)
  | Some path =>
      if has flags (Z.lnot (Z.lor MM_SPAWN_KEEP_FDS MM_SPAWN_DAEMONIZE)) then rv ← raisep E_INVAL; mret (rv, None)
      else if has flags MM_SPAWN_KEEP_FDS then rv ← raisep E_NOTSUP; mret (rv, None)
      else
        '(strs, _) ← st_option (escape_argv (default [path] argv));
        actual_path ← (if contains_dirsep path then mret (Some path) else search_bin_in_path path);
        match actual_path with
        | None => mret (-1, None)
        | Some path =>
            r ← spawn_process path fd_map (map snd strs) envp;
            match r with
            | None => mret (-1, None)
            | Some (pid, hnd) =>
                if want_pid && negb (has flags MM_SPAWN_DAEMONIZE) then _ ← add_to_children_list pid hnd; mret (0, Some pid)
                else liftp (runw (CloseHandle hnd));; mret (0, None)
            end
        end
  end.

(** The value returned and the status. *)
Definition mm_wait_process (pid : Z) : M (Z * option Z) :=
  hnd ← get_handle_from_children_list pid;
  match hnd with
  | None => rv ← raisep E_CHILD; mret (rv, None)
  | Some hnd =>
      liftp (runw (WaitForSingleObject hnd));;
      (exitcode ← liftp (askw (GetExitCodeProcess hnd));
       drop_child_from_children_list pid;;
       (liftp (runw (CloseHandle hnd));; mret (0, Some (translate_exitcode_in_status exitcode))))
  end.

(** ** Replacing the process *)

(** The destructor run at the exit. *)
Definition waited_child : M unit :=
  hnd ← st_gets child_hnd_to_exit;
  if hnd =? INVALID_HANDLE_VALUE then mret tt
  else
    liftp (runw (CreateRemoteThread_exit hnd STATUS_CONTROL_C_EXIT));;
    (liftp (runw (CloseHandle hnd));; set_child_to_exit 0).

(** [inr] is the exit of the process with a code.  A child that is not in the list crashes. *)
Definition mm_execv (path : option cstr) (fd_map : list mm_remap_fd) (flags : Z) (argv envp : option (list cstr)) : M (Z + Z) :=
  match path with
  | None => rv ← raisep E_INVAL; mret (inl rv)
  | Some _ =>
      if has flags (Z.lnot MM_SPAWN_KEEP_FDS) then rv ← raisep E_INVAL; mret (inl rv)
      else
        '(rv, pid) ← mm_spawn true path fd_map flags argv envp;
        match pid with
        | None => mret (inl (-1))
        | Some pid =>
            hnd ← get_handle_from_children_list pid;
            set_child_to_exit (default 0 hnd);;
            (drop_child_from_children_list pid;;
             (liftp (lift close_all_known_fds);;
              (let hnd := default 0 hnd in
               liftp (runw (WaitForSingleObject hnd));;
               (set_child_to_exit INVALID_HANDLE_VALUE;;
                (exitcode ← liftp (askw (GetExitCodeProcess hnd));
                 liftp (runw (CloseHandle hnd));; mret (inr exitcode))))))
        end
  end.

End Process.

Arguments proc_world : clear implicits.

(** ** Children *)

(** The list follows a map: each process is once in it, and the capacity is one of those allocated. *)
Record tracks (list : children_list) (A : gmap Z Z) : Prop := {
  tracks_once : NoDup (map ce_pid (entries list));
  tracks_map : A = list_to_map (map (fun e => (ce_pid e, ce_hnd e)) (entries list));
  tracks_max : (length (entries list) <= num_max list)%nat;
  tracks_growth : num_max list = 0%nat \/ exists k, num_max list = (16 * 2 ^ k)%nat
}.

Lemma find_child_spec pid l :
  ce_hnd <$> find_child pid l = (list_to_map (map (fun e => (ce_pid e, ce_hnd e)) l) : gmap Z Z) !! pid.
Proof.
  unfold find_child. induction l as [|e l IH]; cbn [map list_to_map List.find foldr fst snd uncurry]; [by rewrite lookup_empty|].
  destruct (Z.eqb_spec (ce_pid e) pid) as [<-|Hne]; [by rewrite lookup_insert_eq|]. by rewrite lookup_insert_ne.
Qed.

Lemma remove_child_spec pid l :
  NoDup (map ce_pid l) ->
  match remove_child pid l with
  | None => pid ∉ map ce_pid l
  | Some l' => pid ∈ map ce_pid l /\ (length l = S (length l'))%nat /\ NoDup (map ce_pid l') /\ (forall p, p ∈ map ce_pid l' -> p ∈ map ce_pid l) /\
      (list_to_map (map (fun e => (ce_pid e, ce_hnd e)) l') : gmap Z Z) = delete pid (list_to_map (map (fun e => (ce_pid e, ce_hnd e)) l))
  end.
Proof.
  assert (Hf : forall l : list child_entry, map fst (map (fun e => (ce_pid e, ce_hnd e)) l) = map ce_pid l) by (intros; by rewrite map_map).
  induction l as [|e l IH]; cbn [remove_child map]; intros Hd; [by apply not_elem_of_nil|]. apply NoDup_cons in Hd as [Hn Hd].
  destruct (Z.eqb_spec (ce_pid e) pid) as [<-|Hne].
  - split_and!; [by left|done|done|by right|]. cbn. rewrite delete_insert_id; [done|].
    apply not_elem_of_list_to_map_1. change (list_fmap _ _ fst) with (map fst). by rewrite Hf.
  - specialize (IH Hd). destruct (remove_child pid l) as [l'|]; cbn.
    + destruct IH as (H1 & H2 & H3 & H4 & H5). split_and!.
      * by right.
      * by rewrite H2.
      * constructor; [|done]. intros H. by apply H4 in H.
      * intros p Hp. apply elem_of_cons in Hp as [->|Hp]; [by left|]. right. by apply H4.
      * cbn. rewrite H5. by rewrite delete_insert_ne.
    + rewrite elem_of_cons. intros [->|H]; done.
Qed.

Lemma in_tracks l A pid : tracks l A -> (is_Some (A !! pid) <-> pid ∈ map ce_pid (entries l)).
Proof.
  intros H. rewrite (tracks_map _ _ H). assert (Hf : map fst (map (fun e => (ce_pid e, ce_hnd e)) (entries l)) = map ce_pid (entries l)) by by rewrite map_map.
  rewrite <- Hf. split.
  - intros [h Hh]. apply elem_of_list_to_map_2 in Hh. apply (list_elem_of_fmap_2 fst) in Hh. exact Hh.
  - intros H'. apply list_elem_of_fmap in H' as ([p h] & -> & Hin). exists h. apply elem_of_list_to_map_1; [|done].
    change (fst <$> _) with (map fst (map (fun e => (ce_pid e, ce_hnd e)) (entries l))). rewrite Hf. apply (tracks_once _ _ H).
Qed.

(** The operations on the list: the registration of a child that was created, the wait of a process. *)
Inductive child_op := Created (pid hnd : Z) | Waited (pid : Z).

Section Children.

Context {OS : Type} `{!W32File OS, !W32Pipe OS, !W32Volume OS, !W32Meta OS, !W32Proc OS, !W32Child OS}.

Abbreviation world := (proc_world OS).
Abbreviation os_of w := (fd_os (fw_fd (pw_files w))).
Abbreviation error_of w := (last_error (fw_fd (pw_files w))).

Definition do_child (op : child_op) : ST world (Z * option Z) :=
  match op with
  | Created pid hnd => rv ← add_to_children_list pid hnd; mret (rv, None)
  | Waited pid => mm_wait_process pid
  end.

(** What it makes of the map of the children. *)
Definition spec_child (op : child_op) (rv : Z) (A : gmap Z Z) : gmap Z Z :=
  match op with
  | Created pid hnd => if rv =? 0 then <[pid := hnd]> A else A
  | Waited pid => delete pid A
  end.

Lemma liftp_spec {A} (m : ST (file_world OS) A) (w : world) a f :
  m (pw_files w) = Some (a, f) -> liftp m w = Some (a, mk_proc f (pw_env w) (children w) (child_hnd_to_exit w)).
Proof. intros H. unfold liftp. by rewrite H. Qed.

Lemma askp_spec {A} (f : OS -> A) (w : world) : liftp (askw f) w = Some (f (os_of w), w).
Proof. rewrite (liftp_spec _ _ _ _ (askw_spec f _)). by destruct w. Qed.

Lemma runp_spec (f : OS -> OS) (w : world) :
  exists w', liftp (runw f) w = Some (tt, w') /\ os_of w' = f (os_of w) /\ children w' = children w.
Proof.
  destruct (callw_spec (fun os => (tt, f os)) (pw_files w)) as (f' & H & Ho & _). unfold runw.
  rewrite (liftp_spec _ _ _ _ H). by eexists.
Qed.

Lemma added l A pid hnd max :
  tracks l A -> A !! pid = None -> (length (entries l) < max)%nat -> (exists k, max = (16 * 2 ^ k)%nat) ->
  tracks (mk_children (entries l ++ [mk_child pid hnd]) max) (<[pid := hnd]> A).
Proof.
  intros Ht Hn Hlt Hk. assert (Hnot : pid ∉ map ce_pid (entries l)).
  { intros Hin. apply (in_tracks _ _ _ Ht) in Hin as [h Hh]. congruence. }
  destruct Ht as [H1 H2 H3 H4]. split; cbn [entries num_max].
  - rewrite map_app. cbn. apply NoDup_app. split; [done|]. split; [|apply NoDup_singleton].
    intros p Hp Hs. apply list_elem_of_singleton in Hs as ->. done.
  - rewrite map_app, list_to_map_app. cbn. rewrite H2. symmetry.
    rewrite insert_empty. rewrite <- insert_union_singleton_r; [done|]. by rewrite <- H2.
  - rewrite length_app. cbn. lia.
  - by right.
Qed.

(** C28. The list of the children follows a map from processes to handles.  A child is added to it, with a capacity of 16 that doubles, but
    for a failed allocation, which changes nothing and is reported.  Waiting for a process
    of the list gives its exit status once the process has stopped, closes its handle and removes it alone; for another process the
    error is [E_CHILD] and nothing changes. *)
Theorem children_refine (op : child_op) (A : gmap Z Z) (w : world) :
  tracks (children w) A -> (forall pid hnd, op = Created pid hnd -> A !! pid = None) ->
  exists rv status w', do_child op w = Some ((rv, status), w') /\ tracks (children w') (spec_child op rv A) /\
    match op with
    | Created pid hnd => status = None /\ os_of w' = os_of w /\ (rv = 0 \/ rv = -1 /\ error_of w' = Some E_NOMEM)
    | Waited pid =>
        match A !! pid with
        | Some hnd =>
            let os := WaitForSingleObject hnd (os_of w) in
            rv = 0 /\ os_of w' = CloseHandle hnd os /\ status = Some (translate_exitcode_in_status (GetExitCodeProcess hnd os))
        | None => rv = -1 /\ status = None /\ os_of w' = os_of w /\ error_of w' = Some E_CHILD
        end
    end.
Proof.
  intros Ht Hfresh. destruct op as [pid hnd|pid]; cbn [do_child spec_child].
  - specialize (Hfresh pid hnd eq_refl). pose proof Ht as [H1 H2 H3 H4]. unfold add_to_children_list.
    unfold mbind at 1, st_bind at 1. unfold mbind at 1, st_bind at 1, st_gets at 1.
    destruct (Nat.leb_spec (num_max (children w)) (length (entries (children w)))) as [Hl|Hl].
    + set (nmax := if _ : bool then 16%nat else _). rewrite (st_bind_Some _ _ _ _ _ (askp_spec _ w)).
      destruct (realloc_entries nmax (os_of w)).
      * exists 0, None. eexists. split; [reflexivity|]. split; [|by split_and!; [| |left]].
        rewrite Z.eqb_refl. apply added; try done; unfold nmax; destruct (Nat.eqb_spec (num_max (children w)) 0); try lia.
        -- by exists 0%nat.
        -- destruct H4 as [|[k Hk]]; [done|]. exists (S k). rewrite Hk. cbn. lia.
      * exists (-1), None. eexists. split; [reflexivity|]. split; [done|]. split_and!; [done|done|by right].
    + exists 0, None. eexists. split; [reflexivity|]. split; [|by split_and!; [| |left]]. rewrite Z.eqb_refl.
      apply added; try done. destruct H4 as [|[k Hk]]; [lia|by exists k].
  - unfold mm_wait_process, get_handle_from_children_list. unfold mbind at 1, st_bind at 1. unfold mbind at 1, st_bind at 1, st_gets at 1. cbn [mret st_ret].
    rewrite find_child_spec. rewrite <- (tracks_map _ _ Ht). destruct (A !! pid) as [hnd|] eqn:E.
    + destruct (runp_spec (WaitForSingleObject hnd) w) as (w1 & W1 & O1 & C1). rewrite (st_bind_Some _ _ _ _ _ W1).
      rewrite (st_bind_Some _ _ _ _ _ (askp_spec _ w1)). unfold drop_child_from_children_list.
      pose proof (remove_child_spec pid (entries (children w)) (tracks_once _ _ Ht)) as Hr.
      destruct (remove_child pid (entries (children w))) as [l'|] eqn:El.
      2: { exfalso. apply Hr. apply (in_tracks _ _ _ Ht). by rewrite E. }
      destruct Hr as (_ & Hlen & Hnd & _ & Hmap).
      unfold mbind at 1, st_bind at 1. unfold mbind at 1, st_bind at 1, st_gets at 1. rewrite C1.
      unfold mbind at 1, st_bind at 1, st_option at 1. rewrite El. cbn [mbind option_bind]. unfold set_children, st_modify.
      set (w2 := mk_proc _ _ _ _). destruct (runp_spec (CloseHandle hnd) w2) as (w3 & W3 & O3 & C3). rewrite (st_bind_Some _ _ _ _ _ W3).
      do 3 eexists. split; [reflexivity|]. split.
      * rewrite C3. cbn. destruct Ht as [H1 H2 H3 H4]. split; cbn; [done|by rewrite Hmap, H2|lia|done].
      * split_and!; [done|rewrite O3; cbn; by rewrite O1|by rewrite O1].
    + do 3 eexists. split; [reflexivity|]. cbn. rewrite delete_id by done. by split_and!.
Qed.

End Children.

(** ** Search of the executable *)

(** [status path]: what the access to run the file of the path is, in the states of [inv]. *)
Class ExecLaws (OS : Type) `{!W32File OS, !W32Meta OS} (inv : OS -> Prop) (status : cstr -> access_result) : Prop := {
  law_exec path os :
    inv os ->
    match open_handle_for_metadata path false os with
    | (inl e, os') => inv os' /\
        status path = if bool_decide (e = ERROR_PATH_NOT_FOUND) || bool_decide (e = ERROR_FILE_NOT_FOUND) then AccessErr E_NOENT else AccessFailed
    | (inr hnd, os') => inv (CloseHandle hnd os') /\
        exists sd, secdesc_from_handle hnd os' = inr sd /\ test_access sd (rights_of_amode X_OK) os' = inr (status path)
    end
}.

(** The components of [PATH] end with a semicolon, but for the last one. *)
Definition path_env (dirs : list cstr) (rest : cstr) : cstr := concat (map (fun d => d ++ [SEMICOLON]) dirs) ++ rest.
Definition components (dirs : list cstr) (rest : cstr) : list cstr := dirs ++ match rest with [] => [] | _ => [rest] end.
Definition exts_of (dir base : cstr) : list cstr := map (fun ext => (dir ++ cs "\" ++ base) ++ ext) search_exts.
Definition candidates (dirs : list cstr) (base : cstr) : list cstr := concat (map (fun dir => exts_of dir base) dirs).

Section Search.

Context {OS : Type} `{!W32File OS, !W32Pipe OS, !W32Volume OS, !W32Meta OS, !W32Proc OS, !W32Child OS}.
Context (inv : OS -> Prop) (status : cstr -> access_result) `{!ExecLaws OS inv status}.

Abbreviation world := (proc_world OS).
Abbreviation os_of w := (fd_os (fw_fd (pw_files w))).
Abbreviation error_of w := (last_error (fw_fd (pw_files w))).

Definition is_ok (r : access_result) : bool := match r with AccessOk => true | _ => false end.
Definition is_denied (r : access_result) : bool := match r with AccessErr E_ACCES => true | _ => false end.

(** The search among candidates, with the error to give if there is none. *)
Definition best (error : errcode) (l : list cstr) : errcode + cstr :=
  match List.find (fun p => is_ok (status p)) l with
  | Some p => inr p
  | None => inl (if existsb (fun p => is_denied (status p)) l then E_ACCES else error)
  end.

Lemma best_app error l1 l2 :
  best error (l1 ++ l2) = match best error l1 with inr p => inr p | inl error => best error l2 end.
Proof.
  unfold best. rewrite existsb_app.
  assert (Hf : forall f : cstr -> bool, List.find f (l1 ++ l2) = match List.find f l1 with Some p => Some p | None => List.find f l2 end).
  { intros f. induction l1 as [|p l1 IH]; cbn; [done|]. by destruct (f p). }
  rewrite Hf. set (ok := fun p => is_ok (status p)). set (no := fun p => is_denied (status p)). destruct (List.find ok l1); [done|]. destruct (List.find ok l2), (existsb no l1), (existsb no l2); done.
Qed.

Lemma check_status path (w : world) :
  inv (os_of w) -> exists w', liftp (mm_check_access path X_OK) w = Some (status path, w') /\ inv (os_of w').
Proof.
  intros Hi. pose proof (law_exec path _ Hi) as L. destruct (callw_spec (open_handle_for_metadata path false) (pw_files w)) as (f1 & H1 & O1 & _).
  unfold liftp, mm_check_access. rewrite (st_bind_Some _ _ _ _ _ H1).
  destruct (open_handle_for_metadata path false (os_of w)) as [[e|hnd] os']; cbn in H1, O1; cbn [fst].
  - destruct L as [L1 L2]. rewrite L2. destruct (_ || _); eexists; (split; [reflexivity|]); cbn; by rewrite O1.
  - destruct L as (L1 & sd & L2 & L3). change (X_OK =? F_OK) with false. cbn match.
    unfold mbind at 2, st_bind at 1. rewrite askw_spec, O1, L2, L3. unfold mbind at 2, st_bind at 1. cbn [mret st_ret].
    destruct (callw_spec (fun os => (tt, CloseHandle hnd os)) f1) as (f2 & H2 & O2 & _). unfold runw. rewrite (st_bind_Some _ _ _ _ _ H2).
    cbn [mret st_ret mbind option_bind]. eexists. split; [reflexivity|]. cbn. rewrite O2, O1. exact L1.
Qed.

Lemma try_exts_spec exts prefix error (w : world) :
  inv (os_of w) -> exists w', try_exts exts prefix error w = Some (best error (map (fun ext => prefix ++ ext) exts), w') /\ inv (os_of w').
Proof.
  revert error w. induction exts as [|ext exts IH]; intros error w Hi; cbn [try_exts map]; [by exists w|].
  destruct (check_status (prefix ++ ext) w Hi) as (w1 & H1 & I1). rewrite (st_bind_Some _ _ _ _ _ H1).
  unfold best. cbn [List.find existsb]. destruct (status (prefix ++ ext)) as [|e|] eqn:E; cbn [is_ok is_denied].
  - by exists w1.
  - destruct (IH (if is_denied (AccessErr e) then E_ACCES else error) w1 I1) as (w2 & H2 & I2). exists w2. split; [|done].
    assert (Hm : match e with E_ACCES => try_exts exts prefix E_ACCES | _ => try_exts exts prefix error end w1
      = try_exts exts prefix (if is_denied (AccessErr e) then E_ACCES else error) w1) by by destruct e.
    rewrite Hm, H2. unfold best. destruct (List.find _ _); [done|]. destruct e; cbn; try done. by destruct (existsb _ _).
  - by apply IH.
Qed.

Lemma dirlen_spec d rest : SEMICOLON ∉ d -> dirlen (d ++ SEMICOLON :: rest) = length d /\ dirlen d = length d.
Proof.
  induction d as [|c d IH]; intros Hd; cbn [app dirlen length]; [by rewrite bool_decide_true|].
  rewrite elem_of_cons in Hd. rewrite bool_decide_false by (intros ->; tauto). destruct IH as [-> ->]; tauto.
Qed.

Lemma path_loop_spec fuel base dirs rest error (w : world) :
  inv (os_of w) -> Forall (fun d => SEMICOLON ∉ d) dirs -> SEMICOLON ∉ rest -> (length (path_env dirs rest) <= fuel)%nat ->
  exists w', search_loop fuel base (path_env dirs rest) error w = Some (best error (candidates (components dirs rest) base), w') /\ inv (os_of w').
Proof.
  revert fuel error w. induction dirs as [|d dirs IH]; intros fuel error w Hi Hd Hr Hf.
  - unfold path_env in *. cbn [map concat app] in *. destruct rest as [|c rest'] eqn:Er.
    { exists w. by destruct fuel. }
    rewrite <- Er in *. assert (Hne : rest <> []) by by rewrite Er. clear c rest' Er. destruct fuel as [|fuel]; [destruct rest; cbn in Hf; [done|lia]|].
    unfold search_loop at 1. fold search_loop. destruct rest as [|c rest'] eqn:Er; [done|]. rewrite <- Er in *.
    destruct (dirlen_spec rest [] Hr) as [_ Hl]. rewrite Hl, take_ge by done.
    destruct (try_exts_spec search_exts (rest ++ cs "\" ++ base) error w Hi) as (w1 & H1 & I1). rewrite (st_bind_Some _ _ _ _ _ H1).
    unfold components, candidates. cbn [app]. rewrite Er. rewrite <- Er. cbn [map concat]. rewrite app_nil_r. fold (exts_of rest base).
    destruct (best error (exts_of rest base)) as [e|p]; [|by exists w1]. rewrite drop_ge by done. exists w1. by destruct fuel.
  - apply Forall_cons in Hd as [Hd0 Hd]. unfold path_env in *. cbn [map concat] in *. rewrite <- !app_assoc in *. cbn [app] in *.
    destruct fuel as [|fuel]; [rewrite length_app in Hf; cbn in Hf; lia|]. set (tail := concat _ ++ rest) in *.
    assert (Hm : forall (P : Type) (x : P) (f : P), match d ++ SEMICOLON :: tail with [] => x | _ => f end = f) by by destruct d.
    unfold search_loop at 1. fold search_loop. rewrite (Hm (ST world (errcode + cstr))).
    destruct (dirlen_spec d tail Hd0) as [Hl _]. rewrite Hl, take_app_length, drop_app_length.
    destruct (try_exts_spec search_exts (d ++ cs "\" ++ base) error w Hi) as (w1 & H1 & I1). rewrite (st_bind_Some _ _ _ _ _ H1).
    unfold components, candidates. cbn [app map concat]. fold (exts_of d base). rewrite best_app.
    destruct (best error (exts_of d base)) as [e|p]; [|by exists w1]. rewrite bool_decide_true by done.
    apply IH; try done. rewrite length_app in Hf. cbn in Hf. fold tail. lia.
Qed.

(** The executable of a child is the first candidate that may be run, in the order of the components of [PATH], with
    the name itself before the name and [.exe]; if there is none, the error is [E_ACCES] if one of the candidates was refused and
    [E_NOENT] otherwise.  A component may be empty, and the empty end of the list is not one. *)
Theorem search_first_executable (base : cstr) (dirs : list cstr) (rest : cstr) (w : world) :
  inv (os_of w) -> pw_env w !! cs "PATH" = Some (path_env dirs rest) ->
  Forall (fun d => SEMICOLON ∉ d) dirs -> SEMICOLON ∉ rest ->
  let l := candidates (components dirs rest) base in
  exists r w', search_bin_in_path base w = Some (r, w') /\ r = List.find (fun p => is_ok (status p)) l /\
    (r = None -> error_of w' = Some (if existsb (fun p => is_denied (status p)) l then E_ACCES else E_NOENT)).
Proof.
  intros Hi He Hd Hr l. unfold search_bin_in_path. unfold mbind at 1, st_bind at 1, st_gets at 1. unfold mm_getenv. rewrite He. cbn [default].
  destruct (path_loop_spec (length (path_env dirs rest)) base dirs rest E_NOENT w Hi Hd Hr ltac:(lia)) as (w1 & H1 & I1).
  unfold default, id. rewrite (st_bind_Some _ _ _ _ _ H1). fold l. unfold best. destruct (List.find _ l) as [p|] eqn:E.
  - exists (Some p), w1. by split_and!.
  - do 2 eexists. split; [reflexivity|]. split; [done|]. intros _. reflexivity.
Qed.

End Search.

(** ** Spawning *)

Class ChildLaws (OS : Type) `{!W32Child OS} (crt_fds : OS -> gmap Z Z) : Prop := {
  law_create path cmdline envp info os : crt_fds (CreateProcessW path cmdline envp info os).2 = crt_fds os
}.

Section Spawn.

Context {OS : Type} `{!W32File OS, !W32Pipe OS, !W32Volume OS, !W32Meta OS, !W32Proc OS, !W32Child OS}.
Context (crt_fds : OS -> gmap Z Z) `{!W32Laws OS crt_fds} {obj_t : Type} (obj : OS -> Z -> option obj_t) `{!W32ProcLaws OS crt_fds obj, !ChildLaws OS crt_fds}.

Abbreviation world := (proc_world OS).
Abbreviation table w := (fw_fd (pw_files w)).

(** What the steps of a spawn keep. *)
Definition keeps (w w' : world) : Prop := same_fds crt_fds (table w) (table w') /\ children w' = children w.

Lemma keeps_trans w1 w2 w3 : keeps w1 w2 -> keeps w2 w3 -> keeps w1 w3.
Proof. intros [H1 H2] [H3 H4]. split; [by eapply same_trans|congruence]. Qed.

Lemma liftfd_spec {A} (m : ST (fd_world (OS := OS)) A) (w : world) a fd :
  m (table w) = Some (a, fd) -> same_fds crt_fds (table w) fd ->
  exists w', liftp (lift m) w = Some (a, w') /\ keeps w w' /\ table w' = fd.
Proof. intros H Hs. unfold liftp, lift. rewrite H. cbn. eexists. split; [reflexivity|]. by repeat split; try apply Hs. Qed.

Lemma raise_keeps e (w : world) : exists w', raisep e w = Some (-1, w') /\ keeps w w' /\ last_error (table w') = Some e.
Proof. eexists. split; [reflexivity|]. by repeat split. Qed.

Lemma raise_w32_keeps e (w : world) : exists w', raisep_w32 e w = Some (-1, w') /\ keeps w w' /\ last_error (table w') <> None.
Proof. eexists. split; [reflexivity|]. by repeat split. Qed.

Lemma call_keeps {A} (f : OS -> A * OS) (w : world) :
  crt_fds (f (fd_os (table w))).2 = crt_fds (fd_os (table w)) ->
  exists w', liftp (callw f) w = Some ((f (fd_os (table w))).1, w') /\ keeps w w'.
Proof.
  intros H. destruct (call_same crt_fds f (table w) H) as (fd & H1 & Hs). unfold callw.
  destruct (liftfd_spec _ w _ _ H1 Hs) as (w' & H2 & Hk & _). by exists w'.
Qed.

Lemma close_keeps hnd (w : world) : exists w', liftp (runw (CloseHandle hnd)) w = Some (tt, w') /\ keeps w w'.
Proof. apply (call_keeps (fun os => (tt, CloseHandle hnd os))). apply law_close_handle. Qed.

Lemma startup_info_total cfg :
  3 <= num_crt_fd cfg -> length (crt_fd_hnds cfg) = Z.to_nat (num_crt_fd cfg) -> is_Some (startup_config_get_startup_info cfg).
Proof.
  intros Hn Hl. unfold startup_config_get_startup_info.
  destruct (lookup_lt_is_Some_2 (crt_fd_hnds cfg) 0) as [h0 ->]; [lia|]. destruct (lookup_lt_is_Some_2 (crt_fd_hnds cfg) 1) as [h1 ->]; [lia|].
  destruct (lookup_lt_is_Some_2 (crt_fd_hnds cfg) 2) as [h2 ->]; [lia|]. by eexists.
Qed.

Lemma spawn_process_total path fd_map argv envp (w : world) :
  described crt_fds (in_u 8) (table w) -> (forall fd, 0 <= fd < 3 -> usable crt_fds obj (table w) fd) ->
  Forall (fun m => mapping_valid crt_fds obj (table w) m /\ child_fd m < 2044) fd_map ->
  exists r w', spawn_process path fd_map argv envp w = Some (r, w') /\ keeps w w' /\ (r = None -> last_error (table w') <> None).
Proof.
  intros Hw Hstd Hmap. unfold spawn_process.
  assert (Hbad : forall e, exists (r : option (Z * Z)) w', (_ ← raisep_w32 e; mret None) w = Some (r, w') /\ keeps w w' /\ (r = None -> last_error (table w') <> None)).
  { intros e. destruct (raise_w32_keeps e w) as (w' & H & Hk & He). rewrite (st_bind_Some _ _ _ _ _ H). by exists None, w'. }
  destruct (utf8_to_utf16 path) as [path_u16|]; [|apply Hbad].
  destruct (concat_utf16 (Some argv) (code SPACE)) as [cmdline|]; [|apply Hbad]. destruct (_ && _); [apply Hbad|].
  destruct (startup_config_init_spec crt_fds obj (table w) fd_map Hw Hstd Hmap) as (r & fd & H1 & Hs1 & _ & Hr).
  destruct (liftfd_spec _ w _ _ H1 Hs1) as (w1 & W1 & K1 & T1). rewrite (st_bind_Some _ _ _ _ _ W1).
  destruct r as [cfg|]; [|exists None, w1; split_and!; try done; by rewrite T1].
  destruct Hr as (cfg0 & Hm & _ & Hn3 & Hn & (L1 & L2 & L3 & L4 & L5) & _).
  destruct (startup_info_total cfg) as [info Hi]; [lia|by rewrite L5, (mapped_hnds _ _ _ _ Hm), L2|].
  unfold mbind at 1, st_bind at 1, st_option at 1. rewrite Hi. cbn [mbind option_bind].
  destruct (call_keeps (CreateProcessW path_u16 cmdline (concat_utf16 envp 0) info) w1 (law_create _ _ _ _ _)) as (w2 & W2 & K2).
  rewrite (st_bind_Some _ _ _ _ _ W2).
  destruct (close_handles_same crt_fds (inherited_hnds cfg) (table w2)) as (fd3 & H3 & Hs3 & _).
  destruct (liftfd_spec (startup_config_deinit cfg) w2 _ _ H3 Hs3) as (w3 & W3 & K3 & _). rewrite (st_bind_Some _ _ _ _ _ W3).
  assert (K : keeps w w3) by (by eapply keeps_trans; [|eapply keeps_trans]).
  destruct (CreateProcessW _ _ _ _ _).1 as [e|p].
  - destruct (raise_w32_keeps e w3) as (w4 & W4 & K4 & He). rewrite (st_bind_Some _ _ _ _ _ W4). exists None, w4. split_and!; [done|by eapply keeps_trans|done].
  - destruct (close_keeps (hThread p) w3) as (w4 & W4 & K4). rewrite (st_bind_Some _ _ _ _ _ W4). eexists (Some _), w4. split_and!; [done|by eapply keeps_trans|done].
Qed.


End Spawn.

(** ** A system *)

Module ProcessDemo.
Import FdTable.Demo.

(** The files can be run by their owner, and a process has the next number after those of the output. *)
#[global] Instance meta : W32Meta os := FileDemo.meta_of 0x1c0.

#[global] Instance child : W32Child os := {
  realloc_entries n _ := true;
  CreateProcessW path cmdline _ info o :=
    (inr (mk_process 200 201 (1000 + Z.of_nat (length cmdline))), mk_os (fds o) (input o) (output o) (processes o ++ [(path, cmdline, info)]));
  WaitForSingleObject _ o := o;
  GetExitCodeProcess _ _ := 0x102;
  CreateRemoteThread_exit _ _ o := o
}.

#[global] Instance child_laws : ChildLaws os open_fds.
Proof. by split. Qed.

Definition status (path : cstr) : access_result := if bool_decide (path = []) then AccessErr E_NOENT else AccessOk.

#[global] Instance exec_laws : ExecLaws os (fun _ => True) status.
Proof.
  split. intros path o _. unfold open_handle_for_metadata, open_handle, status. cbn.
  destruct path; cbn; [done|]. split; [done|]. eexists. split; reflexivity.
Qed.

Definition start : proc_world os :=
  mk_proc (mk_file_world SpawnDemo.start [] None) {[cs "PATH" := path_env [cs "bin"] []]} (mk_children [mk_child 7 70] 16) (-1).

Example execv_start :
  fst <$> mm_execv (Some (cs "prog")) [] 0 None None start = Some (inr 0x102).
Proof. vm_compute. reflexivity. Qed.

Lemma start_tracks : tracks (children start) {[7 := 70]}.
Proof. split; cbn; [apply NoDup_singleton|done|lia|right; by exists 0%nat]. Qed.

End ProcessDemo.

Lemma children_refine_witness :
  exists w', do_child (Waited 7) ProcessDemo.start = Some ((0, Some (Z.lor 2 MM_WSTATUS_EXITED)), w') /\ tracks (children w') ∅.
Proof.
  destruct (children_refine (Waited 7) {[7 := 70]} ProcessDemo.start ProcessDemo.start_tracks ltac:(done)) as (rv & st & w' & H1 & H2 & H3 & H4 & H5).
  exists w'. rewrite H1, H3, H5. split; [reflexivity|]. cbn in H2. by rewrite delete_singleton_eq in H2.
Defined.

Lemma search_first_executable_witness :
  exists w', search_bin_in_path (cs "prog") ProcessDemo.start = Some (Some (cs "bin\prog"), w').
Proof.
  destruct (search_first_executable (fun _ => True) ProcessDemo.status (cs "prog") [cs "bin"] [] ProcessDemo.start I eq_refl
    ltac:(repeat constructor; apply (bool_decide_unpack _); vm_compute; exact I) ltac:(apply not_elem_of_nil)) as (r & w' & H1 & H2 & _).
  exists w'. rewrite H1, H2. reflexivity.
Defined.

