(* ===== verification/ScanInt.v ===== *)
(** * Integers read and written by [%i]

    The conversion [%i] of [sscanf], and of [sprintf] for the numbers that are not negative, with their round trip. *)

From S2P Require Import Prelude CStr.

(** [%i]: a base prefix without digits is a failure, and an integer out of range is undefined: [None]. *)
Definition scanf_int (s : cstr) : option (option Z) :=
  let '(_, s1) := take_sign (skip_spaces s) in
  match s1 with
  | "0"%char :: x :: rest =>
      if (bool_decide (x = "x"%char) || bool_decide (x = "X"%char)) && negb (match rest with h :: _ => is_hex h | [] => false end) then Some None
      else match scan_int s with
           | None => Some None
           | Some (neg, v, _) => let z := if neg : bool then - v else v in if decide (in_s 32 z) then Some (Some z) else None
           end
  | _ =>
      match scan_int s with
      | None => Some None
      | Some (neg, v, _) => let z := if neg : bool then - v else v in if decide (in_s 32 z) then Some (Some z) else None
      end
  end.

(** [sprintf] with [%i] of a number that is not negative. *)
Fixpoint digits (fuel : nat) (n : Z) : cstr :=
  match fuel with
  | O => []
  | S fuel => (if n <? 10 then [] else digits fuel (n / 10)) ++ [ascii_of_N (Z.to_N (48 + n mod 10))]
  end.
Definition printf_int (n : Z) : cstr := digits 10 n.

(** ** Round trip *)

Definition digit_char (d : Z) : ascii := ascii_of_N (Z.to_N (48 + d)).

Lemma digit_char_spec d : 0 <= d < 10 -> digit_in 10 (digit_char d) = Some d /\ isspace (digit_char d) = false /\
  digit_char d <> "-"%char /\ digit_char d <> "+"%char /\ (digit_char d = "0"%char -> d = 0).
Proof.
  intros H. assert (Hd : d = 0 \/ d = 1 \/ d = 2 \/ d = 3 \/ d = 4 \/ d = 5 \/ d = 6 \/ d = 7 \/ d = 8 \/ d = 9) by lia.
  repeat (destruct Hd as [->|Hd]; [by vm_compute|]). by subst; vm_compute.
Qed.

Lemma take_digits_app acc s d :
  0 <= d < 10 -> forall v, take_digits 10 acc s = (v, []) -> take_digits 10 acc (s ++ [digit_char d]) = (v * 10 + d, []).
Proof.
  intros Hd. revert acc. induction s as [|c s IH]; intros acc v Hv; cbn [app take_digits] in *.
  - destruct (digit_char_spec d Hd) as [-> _]. by injection Hv as <-.
  - destruct (digit_in 10 c) as [e|]; [by apply IH|done].
Qed.

(** The digits of a positive number start with a digit that is not zero. *)
Lemma digits_spec fuel n :
  0 < n < 10 ^ Z.of_nat fuel ->
  take_digits 10 0 (digits fuel n) = (n, []) /\ exists d s, digits fuel n = digit_char d :: s /\ 0 < d < 10.
Proof.
  revert n. induction fuel as [|fuel IH]; intros n Hn; [cbn in Hn; lia|]. cbn [digits].
  rewrite Nat2Z.inj_succ, Z.pow_succ_r in Hn by lia. pose proof (Z.mod_pos_bound n 10 ltac:(lia)) as Hm.
  fold (digit_char (n mod 10)). destruct (Z.ltb_spec n 10) as [H|H].
  - rewrite Z.mod_small in * by lia. cbn [app]. split; [|exists n, []; by split; [|lia]].
    cbn [take_digits]. by destruct (digit_char_spec n ltac:(lia)) as [-> _].
  - destruct (IH (n / 10)) as (H1 & d & s & H2 & H3).
    { split; [apply Z.div_str_pos; lia|apply Z.div_lt_upper_bound; lia]. }
    split; [|exists d, (s ++ [digit_char (n mod 10)]); by rewrite H2].
    rewrite (take_digits_app _ _ _ Hm _ H1). f_equal. pose proof (Z.div_mod n 10 ltac:(lia)). lia.
Qed.

Lemma scan_print_int n : 0 <= n < 2 ^ 31 -> scanf_int (printf_int n) = Some (Some n).
Proof.
  intros Hn. destruct (Z.eq_dec n 0) as [->|Hz]; [by vm_compute|].
  destruct (digits_spec 10 n) as (Hd & d & s & Hs & Hr); [change (10 ^ Z.of_nat 10) with 10000000000; change (2 ^ 31) with 2147483648 in Hn; lia|].
  unfold printf_int in *. rewrite Hs in Hd |- *. destruct (digit_char_spec d ltac:(lia)) as (Hdig & Hsp & Hm & Hp & H0).
  assert (Hc : digit_char d <> "0"%char) by (intros H; specialize (H0 H); lia).
  assert (Hsign : take_sign (skip_spaces (digit_char d :: s)) = (false, digit_char d :: s)).
  { cbn [skip_spaces]. rewrite Hsp. unfold take_sign. destruct (digit_char d) as [[] [] [] [] [] [] [] []]; try done. }
  assert (Hpre : take_prefix (digit_char d :: s) = (10, digit_char d :: s)).
  { unfold take_prefix. destruct (digit_char d) as [[] [] [] [] [] [] [] []]; try done; by destruct s as [|? [|? ?]]. }
  assert (Hscan : scan_int (digit_char d :: s) = Some (false, n, [])) by by (unfold scan_int; rewrite Hsign, Hpre, Hdig, Hd).
  unfold scanf_int. rewrite Hsign, Hscan.
  assert (Hdec : (if decide (in_s 32 n) then Some (Some n) else None) = Some (Some n)) by (rewrite decide_True; [done|unfold in_s; lia]).
  rewrite Hdec. destruct (digit_char d) as [[] [] [] [] [] [] [] []]; try done; by destruct s.
Qed.
