(* ===== verification/ProcessPosix.v ===== *)
(** * Child processes on POSIX

    [process-posix.c], over the state of [FilePosix]: the calls on processes are the class [PosixProc].  A child runs from
    [fork] to the execution of a program or to its exit, before its parent goes on: the parent only learns of it by the pipe that
    it reads and by [waitpid], which wait for the child, and what the child writes is smaller than a pipe.  [None] of the monad is
    fuel exhausted or undefined behaviour. *)

From S2P Require Import Prelude CStr ScanInt Errcode Effects FilePosix.

Definition MM_SPAWN_DAEMONIZE : Z := 1.
Definition MM_SPAWN_KEEP_FDS : Z := 2.
Definition MM_WSTATUS_EXITED : Z := 0x100.
Definition MM_WSTATUS_SIGNALED : Z := 0x200.
Definition FD_CLOEXEC : Z := 1.

Record mm_remap_fd := mk_remap { child_fd : Z; parent_fd : Z }.

Record startproc_opts := mk_opts { so_file : cstr; so_flags : Z; so_fd_map : list mm_remap_fd; so_argv : list cstr; so_envp : list cstr }.

(** How a process ends, from the point of view of the code: a program is loaded in it, or it exits. *)
Inductive child_end := Loaded | Exited (code : Z).

(** [sys_fork] gives the number of the child and the system that the child sees; [sys_ran] is the system that the caller sees once the
    child has come to its end.  [errstate_bytes] is the memory of the error state. *)
Class PosixProc (OS : Type) := {
  fcntl_getfd : Z -> OS -> (errcode + Z) * OS;
  fcntl_setfd : Z -> Z -> OS -> (errcode + unit) * OS;
  sys_pipe_cloexec : OS -> (errcode + Z * Z) * OS;                      (* [pipe2] with [O_CLOEXEC] *)
  sys_fork : OS -> (errcode + Z * OS) * OS;
  sys_ran : Z -> child_end -> OS -> OS -> OS;
  sys_execve : cstr -> list cstr -> list cstr -> OS -> (errcode + unit) * OS;
  sys_execvpe : cstr -> list cstr -> list cstr -> OS -> (errcode + unit) * OS;
  sys_waitpid : Z -> OS -> (errcode + Z) * OS;                          (* the status *)
  sys_realpath : cstr -> OS -> (errcode + cstr) * OS;
  sys_umask : Z -> OS -> OS;
  sys_setsid : OS -> OS;
  environ : OS -> list cstr;
  errstate_size : nat;
  errstate_bytes : option errcode -> cstr;
  errstate_of : cstr -> option errcode
}.

(** What the macros of [sys/wait.h] extract from a status. *)
Definition WTERMSIG (status : Z) : Z := Z.land status 0x7f.
Definition WIFEXITED (status : Z) : bool := WTERMSIG status =? 0.
Definition WEXITSTATUS (status : Z) : Z := Z.shiftr (Z.land status 0xff00) 8.
Definition WIFSIGNALED (status : Z) : bool := 0 <? Z.shiftr (wrap_s 8 (Z.land status 0x7f + 1)) 1.

Definition has_slash (file : cstr) : bool := existsb (fun c => bool_decide (c = "/"%char)) file.

Section Processes.

Context {OS : Type} `{!PosixFile OS, !PosixProc OS}.

Abbreviation M := (ST (px_world OS)).

Definition sys_do (f : OS -> OS) : M unit := sys_pure (fun os => (tt, f os)).

(** ** Descriptors of the child *)

Definition set_fd_cloexec (fd : Z) (cloexec : bool) : M Z :=
  curr_flags ← sys (fcntl_getfd fd);
  match curr_flags with
  | None => mret (-1)
  | Some fl =>
      r ← sys (fcntl_setfd fd (if cloexec then Z.lor fl FD_CLOEXEC else Z.land fl (Z.lnot FD_CLOEXEC)));
      mret (match r with None => -1 | Some _ => 0 end)
  end.

(** The loop on the entries of the directory.  For a name that is empty [sscanf] gives [EOF], and [fd] is read although it was not set. *)
Fixpoint cloexec_loop (fuel : nat) (dir min_fd : Z) : M unit :=
  match fuel with
  | O => st_ub
  | S fuel =>
      entry ← sys_pure (sys_readdir dir);
      match entry with
      | None => mret tt
      | Some (name, _) =>
          if bool_decide (skip_spaces name = []) then st_ub
          else
            fd ← st_option (scanf_int name);
            _ ← match fd with
                | Some fd => if min_fd <=? fd then set_fd_cloexec fd true else mret 0
                | None => mret 0
                end;
            cloexec_loop fuel dir min_fd
      end
  end.

Definition PROC_SELF_FD : cstr := cs "/proc/self/fd".
Definition DEV_FD : cstr := cs "/dev/fd".

Definition set_cloexec_all_fds (fuel : nat) (min_fd : Z) : M unit :=
  dir ← sys (sys_opendir PROC_SELF_FD);
  dir ← match dir with Some dir => mret (Some dir) | None => sys (sys_opendir DEV_FD) end;
  match dir with
  | None => mret tt
  | Some dir => cloexec_loop fuel dir min_fd;; sys_do (sys_closedir dir)
  end.

Fixpoint remap_loop (fd_map : list mm_remap_fd) : M Z :=
  match fd_map with
  | [] => mret 0
  | m :: fd_map =>
      _ ← (if parent_fd m =? -1 then set_fd_cloexec (child_fd m) true else mret 0);
      if parent_fd m =? child_fd m then _ ← set_fd_cloexec (child_fd m) false; remap_loop fd_map
      else
        r ← sys (sys_dup2 (parent_fd m) (child_fd m));
        match r with None => raise_from_errno | Some _ => remap_loop fd_map end
  end.

Definition remap_file_descriptors (fuel : nat) (fd_map : list mm_remap_fd) : M Z :=
  set_cloexec_all_fds fuel 3;; remap_loop fd_map.

(** ** In the child *)

(** The full write of the report: the bytes that remain. *)
Fixpoint report_loop (fuel : nat) (report_pipe : Z) (cbuf : cstr) : M unit :=
  match cbuf with
  | [] => mret tt
  | _ =>
      match fuel with
      | O => st_ub
      | S fuel =>
          rsz ← sys (sys_write report_pipe cbuf);
          match rsz with
          | None =>
              e ← st_gets px_errno;
              if bool_decide (e = E_INTR) then report_loop fuel report_pipe cbuf else mret tt
          | Some n => report_loop fuel report_pipe (drop n cbuf)
          end
      end
  end.

Definition report_to_parent_and_exit (fuel : nat) (report_pipe : Z) : M child_end :=
  errstate ← st_gets px_error;
  report_loop fuel report_pipe (errstate_bytes errstate);;
  mret (Exited 1).

(** [None] is a failure. *)
Definition exec_file (file : cstr) (argv envp : list cstr) : M (option unit) :=
  sys (if has_slash file then sys_execve file argv envp else sys_execvpe file argv envp).

Definition load_new_proc_img (fuel : nat) (opts : startproc_opts) (report_pipe : Z) : M child_end :=
  rv ← (if has (so_flags opts) MM_SPAWN_KEEP_FDS then mret 0 else remap_file_descriptors fuel (so_fd_map opts));
  if negb (rv =? 0) then report_to_parent_and_exit fuel report_pipe
  else
    r ← exec_file (so_file opts) (so_argv opts) (so_envp opts);
    match r with
    | Some _ => mret Loaded
    | None => _ ← raise_from_errno; report_to_parent_and_exit fuel report_pipe
    end.

(** ** In the parent *)

(** [fork], the child running to its end: the number of the child, or a failure. *)
Definition fork_run (child : M child_end) : M (option Z) := fun w =>
  match sys_fork (px_os w) with
  | (inl e, os) => Some (None, mk_px os e (px_error w))
  | (inr (pid, child_os), os) =>
      '(ending, wc) ← child (mk_px child_os (px_errno w) (px_error w));
      Some (Some pid, mk_px (sys_ran pid ending (px_os wc) os) (px_errno w) (px_error w))
  end.

Definition mm_set_errorstate (e : option errcode) : M unit :=
  st_modify (fun w => mk_px (px_os w) (match e with Some e => e | None => E_OTHER 0 end) e).

Definition wait_for_load_process_result (watch_fd : Z) : M Z :=
  rsz ← sys (sys_read watch_fd errstate_size);
  ret ← match rsz with
        | None => raise_from_errno
        | Some [] => mret 0
        | Some buf => if (length buf <? errstate_size)%nat then raise E_IO else mm_set_errorstate (errstate_of buf);; mret (-1)
        end;
  _ ← sys (sys_close watch_fd);
  mret ret.

(** The value returned, and what [child_pid] is set to. *)
Definition spawn_child (fuel : nat) (opts : startproc_opts) : M (Z * option Z) :=
  pipefd ← sys sys_pipe_cloexec;
  match pipefd with
  | None => mret (-1, None)
  | Some (watch_fd, report_fd) =>
      pid ← fork_run (_ ← sys (sys_close watch_fd); load_new_proc_img fuel opts report_fd);
      match pid with
      | None => _ ← raise_from_errno; _ ← sys (sys_close watch_fd); _ ← sys (sys_close report_fd); mret (-1, None)
      | Some pid =>
          _ ← sys (sys_close report_fd);
          rv ← wait_for_load_process_result watch_fd;
          if rv =? 0 then mret (rv, Some pid) else _ ← sys (sys_waitpid pid); mret (rv, None)
      end
  end.

(** The child of the first fork. *)
Definition daemon_child (fuel : nat) (opts : startproc_opts) (watch_fd report_fd : Z) : M child_end :=
  _ ← sys (sys_close watch_fd);
  file ← (if has_slash (so_file opts) then sys (sys_realpath (so_file opts)) else mret (Some (so_file opts)));
  match file with
  | None => _ ← raise_from_errno; report_to_parent_and_exit fuel report_fd
  | Some file =>
      r ← sys (sys_chdir (cs "/"));
      match r with
      | None => _ ← raise_from_errno; report_to_parent_and_exit fuel report_fd
      | Some _ =>
          sys_do (sys_umask 0);; sys_do sys_setsid;;
          (let child_opts := mk_opts file (so_flags opts) (so_fd_map opts) (so_argv opts) (so_envp opts) in
           pid ← fork_run (load_new_proc_img fuel child_opts report_fd);
           match pid with
           | None => _ ← raise_from_errno; report_to_parent_and_exit fuel report_fd
           | Some _ => mret (Exited 0)
           end)
      end
  end.

Definition spawn_daemon (fuel : nat) (opts : startproc_opts) : M Z :=
  pipefd ← sys sys_pipe_cloexec;
  match pipefd with
  | None => mret (-1)
  | Some (watch_fd, report_fd) =>
      pid ← fork_run (daemon_child fuel opts watch_fd report_fd);
      match pid with
      | None => _ ← raise_from_errno; _ ← sys (sys_close watch_fd); _ ← sys (sys_close report_fd); mret (-1)
      | Some pid =>
          _ ← sys (sys_close report_fd);
          _ ← sys (sys_waitpid pid);
          wait_for_load_process_result watch_fd
      end
  end.

(** The value returned, and what [child_pid] is set to. *)
Definition mm_spawn (fuel : nat) (file : option cstr) (fd_map : list mm_remap_fd) (flags : Z) (argv envp : option (list cstr)) : M (Z * option Z) :=
  match file with
  | None => rv ← raise E_INVAL; mret (rv, None)
  | Some file =>
      if has flags (Z.lnot (Z.lor MM_SPAWN_KEEP_FDS MM_SPAWN_DAEMONIZE)) then rv ← raise E_INVAL; mret (rv, None)
      else
        env ← st_gets (fun w => environ (px_os w));
        let opts := mk_opts file flags fd_map (default [file] argv) (default env envp) in
        if has flags MM_SPAWN_DAEMONIZE then rv ← spawn_daemon fuel opts; mret (rv, None) else spawn_child fuel opts
  end.

(** [None] of the result: the program is loaded, the function does not return. *)
Definition mm_execv (fuel : nat) (file : option cstr) (fd_map : list mm_remap_fd) (flags : Z) (argv envp : option (list cstr)) : M (option Z) :=
  match file with
  | None => rv ← raise E_INVAL; mret (Some rv)
  | Some file =>
      if has flags (Z.lnot MM_SPAWN_KEEP_FDS) then rv ← raise E_INVAL; mret (Some rv)
      else
        rv ← (if has flags MM_SPAWN_KEEP_FDS then mret 0 else remap_file_descriptors fuel fd_map);
        if negb (rv =? 0) then mret (Some (-1))
        else
          env ← st_gets (fun w => environ (px_os w));
          r ← exec_file file (default [file] argv) (default env envp);
          match r with
          | Some _ => mret None
          | None => _ ← raise_from_errno; mret (Some (-1))
          end
  end.

(** The value returned and the status; a status of another kind aborts: [None]. *)
Definition mm_wait_process (pid : Z) : M (Z * option Z) :=
  r ← sys (sys_waitpid pid);
  match r with
  | None => _ ← raise_from_errno; mret (-1, None)
  | Some posix_status =>
      if WIFEXITED posix_status then mret (0, Some (Z.lor MM_WSTATUS_EXITED (WEXITSTATUS posix_status)))
      else if WIFSIGNALED posix_status then mret (0, Some (Z.lor MM_WSTATUS_SIGNALED (WTERMSIG posix_status)))
      else st_ub
  end.

End Processes.

(** ** Status of a child *)

(** A property of the bytes, checked on each of them. *)
Lemma all_bytes (P : Z -> bool) n : forallb P (seqZ 0 n) = true -> forall c, 0 <= c < n -> P c = true.
Proof. intros H c Hc. rewrite forallb_forall in H. apply H. apply list_elem_of_In, elem_of_seqZ. lia. Qed.

Lemma exited_status c : 0 <= c < 256 -> WIFEXITED (Z.shiftl c 8) = true /\ WEXITSTATUS (Z.shiftl c 8) = c.
Proof.
  intros Hc. pose proof (all_bytes (fun c => WIFEXITED (Z.shiftl c 8) && (WEXITSTATUS (Z.shiftl c 8) =? c)) 256 ltac:(vm_compute; reflexivity) c Hc) as H.
  apply andb_prop in H as [H1 H2]. split; [done|by apply Z.eqb_eq].
Qed.

Lemma signaled_status s core : 1 <= s < 127 -> let status := Z.lor s (if core : bool then 0x80 else 0) in
  WIFEXITED status = false /\ WIFSIGNALED status = true /\ WTERMSIG status = s.
Proof.
  intros Hs status. pose proof (all_bytes (fun k => let status := Z.lor (k + 1) (if core then 0x80 else 0) in
    negb (WIFEXITED status) && WIFSIGNALED status && (WTERMSIG status =? k + 1)) 126 ltac:(destruct core; vm_compute; reflexivity) (s - 1) ltac:(lia)) as H.
  cbv zeta beta in H. rewrite !Z.sub_add in H. apply andb_prop in H as [[H1 H2]%andb_prop H3].
  apply negb_true_iff in H1. apply Z.eqb_eq in H3. split; [exact H1|]. split; [exact H2|exact H3].
Qed.

Section Status.

Context {OS : Type} `{!PosixFile OS, !PosixProc OS}.

(** The status of a child that [mm_wait_process] gives: the exit code of a program that ended, or the signal that killed it, with or without
    a core file; a failure of the wait is raised. *)
Theorem wait_process_status (pid code : Z) (core : bool) (w : px_world OS) :
  (0 <= code < 256 -> forall os, sys_waitpid pid (px_os w) = (inr (Z.shiftl code 8), os) ->
     fst <$> mm_wait_process pid w = Some (0, Some (Z.lor MM_WSTATUS_EXITED code))) /\
  (1 <= code < 127 -> forall os, sys_waitpid pid (px_os w) = (inr (Z.lor code (if core then 0x80 else 0)), os) ->
     fst <$> mm_wait_process pid w = Some (0, Some (Z.lor MM_WSTATUS_SIGNALED code))) /\
  (forall e os, sys_waitpid pid (px_os w) = (inl e, os) -> mm_wait_process pid w = Some ((-1, None), mk_px os e (Some e))).
Proof.
  split_and!.
  - intros Hc os H. destruct (exited_status code Hc) as [H1 H2]. unfold mm_wait_process, mbind, st_bind, sys. by rewrite H, H1, H2.
  - intros Hc os H. destruct (signaled_status code core Hc) as (H1 & H2 & H3). unfold mm_wait_process, mbind, st_bind, sys. by rewrite H, H1, H2, H3.
  - intros e os H. unfold mm_wait_process, mbind, st_bind, sys. by rewrite H.
Qed.

End Status.
