(* ===== verification/SpawnPosix.v ===== *)
(** * Programs started on POSIX

    What [mm_spawn] of [ProcessPosix] does to the caller and to the new process, given the rules of [fork], [exec], pipes and descriptors. *)

From S2P Require Import Prelude CStr ScanInt Errcode Effects FilePosix PosixDemo ProcessPosix.

(** ** Processes and descriptors *)

(** What a descriptor refers to: an end of a pipe, or another object; with its close-on-exec flag. *)
Inductive ofd := PipeR (id : Z) | PipeW (id : Z) | OFile (id : Z).

#[export] Instance ofd_eq_dec : EqDecision ofd.
Proof. solve_decision. Defined.

Abbreviation fdtable := (gmap Z (ofd * bool)).

(** The descriptors of the process, those of the other processes, the data in the pipes, the open directories with the names that remain. *)
Record kview := mk_view { k_fds : fdtable; k_others : list fdtable; k_pipes : gmap Z cstr; k_dirs : gmap Z (Z * list cstr) }.

Definition with_fds (t : fdtable) (v : kview) : kview := mk_view t (k_others v) (k_pipes v) (k_dirs v).
Definition with_pipes (p : gmap Z cstr) (v : kview) : kview := mk_view (k_fds v) (k_others v) p (k_dirs v).
Definition with_dirs (d : gmap Z (Z * list cstr)) (v : kview) : kview := mk_view (k_fds v) (k_others v) (k_pipes v) d.

Definition exec_view (t : fdtable) : fdtable := filter (fun p => p.2.2 = false) t.

Definition mark (fd : Z) (cloexec : bool) (t : fdtable) : fdtable := alter (fun p => (p.1, cloexec)) fd t.

(** The names of a directory of descriptors: numbers of descriptors, all of them, and other names. *)
Definition names_fds (names : list cstr) (t : fdtable) : Prop :=
  Forall (fun name => skip_spaces name <> [] /\ is_Some (scanf_int name)) names /\
  forall fd, is_Some (t !! fd) -> exists name, name ∈ names /\ scanf_int name = Some (Some fd).

Definition has_reader (id : Z) (v : kview) : Prop := exists t fd c, t ∈ k_others v /\ t !! fd = Some (PipeR id, c).
Definition table_writes (id : Z) (t : fdtable) : Prop := exists fd c, t !! fd = Some (PipeW id, c).
Definition no_writer (id : Z) (v : kview) : Prop := ~ table_writes id (k_fds v) /\ Forall (fun t => ~ table_writes id t) (k_others v).

(** Calls that have no effect on descriptors. *)
Definition neutral {OS A} (view : OS -> kview) (f : OS -> A * OS) : Prop := forall os, view (f os).2 = view os.

(** Any call may fail, but [fcntl] on an open descriptor; [pending]: the signals that can still interrupt a write. *)
Class KernelLaws (OS : Type) `{!PosixFile OS, !PosixProc OS} (view : OS -> kview) (pending : OS -> nat) : Prop := {
  law_getfd fd os : view (fcntl_getfd fd os).2 = view os /\
    match (fcntl_getfd fd os).1 with
    | inr fl => exists o, k_fds (view os) !! fd = Some (o, Z.testbit fl 0)
    | inl _ => k_fds (view os) !! fd = None
    end;
  law_setfd fd fl os o c : k_fds (view os) !! fd = Some (o, c) ->
    view (fcntl_setfd fd fl os).2 = with_fds (<[fd := (o, Z.testbit fl 0)]> (k_fds (view os))) (view os);
  law_dup2 a b os : a <> b ->
    match sys_dup2 a b os with
    | (inr _, os') => exists o c, k_fds (view os) !! a = Some (o, c) /\ view os' = with_fds (<[b := (o, false)]> (k_fds (view os))) (view os)
    | (inl _, os') => view os' = view os
    end;
  law_close fd os : view (sys_close fd os).2 = with_fds (delete fd (k_fds (view os))) (view os);
  law_opendir path os : path = PROC_SELF_FD \/ path = DEV_FD ->
    match sys_opendir path os with
    | (inr h, os') => exists d k names, k_fds (view os) !! d = None /\ k_dirs (view os) !! h = None /\
        names_fds names (<[d := (OFile k, true)]> (k_fds (view os))) /\
        view os' = with_dirs (<[h := (d, names)]> (k_dirs (view os))) (with_fds (<[d := (OFile k, true)]> (k_fds (view os))) (view os))
    | (inl _, os') => view os' = view os
    end;
  law_readdir h os d names : k_dirs (view os) !! h = Some (d, names) ->
    fst <$> (sys_readdir h os).1 = head names /\ view (sys_readdir h os).2 = with_dirs (<[h := (d, tail names)]> (k_dirs (view os))) (view os);
  law_closedir h os d names : k_dirs (view os) !! h = Some (d, names) ->
    view (sys_closedir h os) = with_dirs (delete h (k_dirs (view os))) (with_fds (delete d (k_fds (view os))) (view os));
  law_pipe os :
    match sys_pipe_cloexec os with
    | (inr (r, w), os') => exists id, k_fds (view os) !! r = None /\ k_fds (view os) !! w = None /\ r <> w /\
        no_writer id (view os) /\ k_pipes (view os) !! id = None /\
        view os' = with_pipes (<[id := []]> (k_pipes (view os)))
                     (with_fds (<[r := (PipeR id, true)]> (<[w := (PipeW id, true)]> (k_fds (view os)))) (view os))
    | (inl _, os') => view os' = view os
    end;
  law_write fd buf os id c d : k_fds (view os) !! fd = Some (PipeW id, c) -> k_pipes (view os) !! id = Some d -> buf <> [] -> has_reader id (view os) ->
    match sys_write fd buf os with
    | (inr n, os') => (0 < n <= length buf)%nat /\ view os' = with_pipes (<[id := d ++ take n buf]> (k_pipes (view os))) (view os)
    | (inl e, os') => e = E_INTR /\ view os' = view os /\ (pending os' < pending os)%nat
    end;
  law_read fd n os id c d : k_fds (view os) !! fd = Some (PipeR id, c) -> k_pipes (view os) !! id = Some d -> no_writer id (view os) ->
    match sys_read fd n os with
    | (inr buf, os') => buf = take n d /\ view os' = with_pipes (<[id := drop n d]> (k_pipes (view os))) (view os)
    | (inl e, os') => e = E_INTR /\ view os' = view os
    end;
  law_fork os :
    match sys_fork os with
    | (inr (pid, child), os') => 0 < pid /\ view os' = view os /\
        view child = mk_view (k_fds (view os)) (k_fds (view os) :: k_others (view os)) (k_pipes (view os)) (k_dirs (view os))
    | (inl _, os') => view os' = view os
    end;
  law_ran pid ending child os new : k_others (view child) = new ++ k_fds (view os) :: k_others (view os) ->
    view (sys_ran pid ending child os) =
      mk_view (k_fds (view os)) (match ending with Loaded => [k_fds (view child)] | Exited _ => [] end ++ new ++ k_others (view os))
        (k_pipes (view child)) (k_dirs (view os));
  law_exec file argv envp os :
    match (if has_slash file then sys_execve file argv envp os else sys_execvpe file argv envp os) with
    | (inr _, os') => view os' = with_fds (exec_view (k_fds (view os))) (view os)
    | (inl _, os') => view os' = view os
    end;
  law_waitpid pid : neutral view (sys_waitpid pid);
  law_realpath file : neutral view (sys_realpath file);
  law_chdir path : neutral view (sys_chdir path);
  law_umask mask os : view (sys_umask mask os) = view os;
  law_setsid os : view (sys_setsid os) = view os;
  law_errstate e : length (errstate_bytes (Some e)) = errstate_size /\ (0 < errstate_size)%nat /\ is_Some (errstate_of (errstate_bytes (Some e)))
}.

(** ** Tables of descriptors *)

(** The descriptors from [min_fd] are closed by [exec]. *)
Definition closed_from (min_fd : Z) (t : fdtable) : fdtable :=
  map_imap (fun fd p => Some (p.1, if min_fd <=? fd then true else p.2)) t.

(** The remapping, the elements being processed in sequence. *)
Definition remap_one (m : mm_remap_fd) (t : fdtable) : option fdtable :=
  let t := if parent_fd m =? -1 then mark (child_fd m) true t else t in
  if parent_fd m =? child_fd m then Some (mark (child_fd m) false t)
  else '(o, _) ← t !! parent_fd m; Some (<[child_fd m := (o, false)]> t).

Fixpoint remap_spec (l : list mm_remap_fd) (t : fdtable) : option fdtable :=
  match l with [] => Some t | m :: l => t ← remap_one m t; remap_spec l t end.

(** Without a directory of the descriptors none is marked. *)
Definition marked (t t' : fdtable) : Prop := t' = closed_from 3 t \/ t' = t.

(** The descriptors that the options give to a program, from those of the caller. *)
Definition program_table (opts : startproc_opts) (t0 T : fdtable) : Prop :=
  if has (so_flags opts) MM_SPAWN_KEEP_FDS then T = exec_view t0
  else exists b t, marked t0 b /\ remap_spec (so_fd_map opts) b = Some t /\ T = exec_view t.

Definition avoids (r : Z) (opts : startproc_opts) : Prop :=
  has (so_flags opts) MM_SPAWN_KEEP_FDS = true \/ Forall (fun m => child_fd m <> r /\ parent_fd m <> r) (so_fd_map opts).

Lemma lookup_mark fd c t i : mark fd c t !! i = if decide (i = fd) then (fun p => (p.1, c)) <$> t !! i else t !! i.
Proof. unfold mark. case_decide; [subst; by rewrite lookup_alter_eq|by rewrite lookup_alter_ne]. Qed.

Lemma lookup_closed k t i : closed_from k t !! i = (fun p => (p.1, if k <=? i then true else p.2)) <$> t !! i.
Proof. unfold closed_from. rewrite map_lookup_imap. by destruct (t !! i). Qed.

Lemma lookup_exec t i o c : exec_view t !! i = Some (o, c) <-> t !! i = Some (o, false) /\ c = false.
Proof.
  unfold exec_view. rewrite map_lookup_filter_Some. cbn. split; [intros [H ->]|intros [H ->]]; by split.
Qed.

Lemma mark_absent fd c t : t !! fd = None -> mark fd c t = t.
Proof. intros H. apply map_eq. intros i. rewrite lookup_mark. case_decide; [subst; by rewrite H|done]. Qed.

Lemma mark_insert r x fd c t : fd <> r -> mark fd c (<[r := x]> t) = <[r := x]> (mark fd c t).
Proof.
  intros H. apply map_eq. intros i. rewrite lookup_mark. destruct (decide (i = r)) as [->|].
  - rewrite decide_False by done. by rewrite !lookup_insert_eq.
  - rewrite !lookup_insert_ne by done. by rewrite lookup_mark.
Qed.

Lemma closed_insert k r o t : closed_from k (<[r := (o, true)]> t) = <[r := (o, true)]> (closed_from k t).
Proof.
  apply map_eq. intros i. rewrite lookup_closed. destruct (decide (i = r)) as [->|].
  - rewrite !lookup_insert_eq. cbn. by destruct (k <=? r).
  - rewrite !lookup_insert_ne by done. by rewrite lookup_closed.
Qed.

Lemma exec_insert r o t : t !! r = None -> exec_view (<[r := (o, true)]> t) = exec_view t.
Proof.
  intros H. unfold exec_view. rewrite map_filter_insert_False by done. by rewrite delete_id.
Qed.

Lemma remap_one_insert r x m t : child_fd m <> r -> parent_fd m <> r ->
  remap_one m (<[r := x]> t) = insert r x <$> remap_one m t.
Proof.
  intros Hc Hp. unfold remap_one.
  set (t1 := if parent_fd m =? -1 then mark (child_fd m) true t else t).
  assert ((if parent_fd m =? -1 then mark (child_fd m) true (<[r := x]> t) else <[r := x]> t) = <[r := x]> t1) as ->.
  { subst t1. destruct (_ =? -1); [by apply mark_insert|done]. }
  destruct (_ =? child_fd m); [cbn; by rewrite mark_insert|]. rewrite lookup_insert_ne by done.
  destruct (t1 !! parent_fd m) as [[o c]|]; [|done]. cbn. by rewrite insert_insert_ne.
Qed.

Lemma remap_spec_insert r x l t : Forall (fun m => child_fd m <> r /\ parent_fd m <> r) l ->
  remap_spec l (<[r := x]> t) = insert r x <$> remap_spec l t.
Proof.
  intros H. revert t. induction H as [|m l [Hc Hp] _ IH]; intros t; cbn [remap_spec]; [done|].
  rewrite remap_one_insert by done. destruct (remap_one m t) as [t'|]; cbn; [apply IH|done].
Qed.

Lemma remap_spec_absent r l t t' : Forall (fun m => child_fd m <> r /\ parent_fd m <> r) l ->
  t !! r = None -> remap_spec l t = Some t' -> t' !! r = None.
Proof.
  intros H. revert t. induction H as [|m l [Hc Hp] _ IH]; intros t Ht; cbn [remap_spec]; [by intros [= <-]|].
  destruct (remap_one m t) as [t1|] eqn:E; [|done]. cbn. apply IH. unfold remap_one in E.
  assert (Hm : forall c, mark (child_fd m) c t !! r = None) by (intros c; rewrite lookup_mark; by case_decide).
  destruct (parent_fd m =? -1), (parent_fd m =? child_fd m).
  - injection E as <-. rewrite lookup_mark. case_decide; [by rewrite Hm|done].
  - destruct (_ !! parent_fd m) as [[o c]|]; [|done]. injection E as <-. by rewrite lookup_insert_ne.
  - injection E as <-. apply Hm.
  - destruct (_ !! parent_fd m) as [[o c]|]; [|done]. injection E as <-. by rewrite lookup_insert_ne.
Qed.

Lemma marked_insert r o t b : t !! r = None -> marked (<[r := (o, true)]> t) b -> exists b0, b = <[r := (o, true)]> b0 /\ marked t b0 /\ b0 !! r = None.
Proof.
  intros Hr [->| ->].
  - exists (closed_from 3 t). split_and!; [apply closed_insert|by left|by rewrite lookup_closed, Hr].
  - exists t. split_and!; [done|by right|done].
Qed.

(** The end of the pipe that reports is not in the table of the program. *)
Lemma program_table_insert opts r o t T : avoids r opts -> t !! r = None ->
  program_table opts (<[r := (o, true)]> t) T -> program_table opts t T.
Proof.
  unfold avoids, program_table. intros Ha Hr. destruct (has _ _); [intros ->; by apply exec_insert|].
  destruct Ha as [?|Ha]; [done|]. intros (b & t' & Hm & Hs & ->). destruct (marked_insert _ _ _ _ Hr Hm) as (b0 & -> & Hb & Hb0).
  rewrite remap_spec_insert in Hs by done. destruct (remap_spec (so_fd_map opts) b0) as [t1|] eqn:E; [|done]. injection Hs as <-.
  exists b0, t1. split_and!; [done|done|]. apply exec_insert. by eapply remap_spec_absent.
Qed.

(** ** Fuel *)

(** With enough fuel the computation gives this result. *)
Definition runs {S A} (f : nat -> ST S A) (w : S) (a : A) (w' : S) : Prop := exists n, forall fuel, (n <= fuel)%nat -> f fuel w = Some (a, w').

Lemma runs_const {S A} (m : ST S A) w a w' : m w = Some (a, w') -> runs (fun _ => m) w a w'.
Proof. intros H. by exists O. Qed.

Lemma runs_bind {S A B} (f : nat -> ST S A) (g : nat -> A -> ST S B) w a w1 b w2 :
  runs f w a w1 -> runs (fun fuel => g fuel a) w1 b w2 -> runs (fun fuel => f fuel ≫= g fuel) w b w2.
Proof.
  intros [n Hf] [m Hg]. exists (n `max` m)%nat. intros fuel Hn. rewrite (st_bind_Some _ _ _ _ _ (Hf fuel ltac:(lia))). apply Hg. lia.
Qed.

Lemma runs_step {S A B} (m : ST S A) (g : nat -> A -> ST S B) w a w1 b w2 :
  m w = Some (a, w1) -> runs (fun fuel => g fuel a) w1 b w2 -> runs (fun fuel => m ≫= g fuel) w b w2.
Proof. intros H. apply runs_bind. by apply runs_const. Qed.

Section Spawn.

Context {OS : Type} `{!PosixFile OS, !PosixProc OS} (view : OS -> kview) (pending : OS -> nat) `{!KernelLaws OS view pending}.

Abbreviation W := (px_world OS).
Definition vw (w : W) : kview := view (px_os w).

(** A call: its result, and the world that it gives. *)
Lemma sys_run {A} (f : OS -> (errcode + A) * OS) (w : W) :
  exists r w', sys f w = Some (r, w') /\ px_os w' = (f (px_os w)).2 /\ px_error w' = px_error w /\
    match (f (px_os w)).1 with inl e => r = None /\ px_errno w' = e | inr a => r = Some a end.
Proof. unfold sys. destruct (f (px_os w)) as [[e|a] os]; by do 2 eexists. Qed.

Lemma raise_run (w : W) : exists e w', raise_from_errno w = Some (-1, w') /\ px_os w' = px_os w /\ px_error w' = Some e.
Proof. by do 2 eexists. Qed.

Lemma neutral_run {A} (f : OS -> (errcode + A) * OS) (w : W) : neutral view f ->
  exists r w', sys f w = Some (r, w') /\ vw w' = vw w /\ px_error w' = px_error w.
Proof. intros H. destruct (sys_run f w) as (r & w' & E & Ho & He & _). exists r, w'. unfold vw. by rewrite Ho, H. Qed.

Lemma close_run fd (w : W) : exists r w', sys (sys_close fd) w = Some (r, w') /\ vw w' = with_fds (delete fd (k_fds (vw w))) (vw w) /\ px_error w' = px_error w.
Proof. destruct (sys_run (sys_close fd) w) as (r & w' & E & Ho & He & _). exists r, w'. unfold vw. by rewrite Ho, law_close. Qed.

(** ** Marks and remapping *)

Lemma set_fd_cloexec_run fd c (w : W) :
  exists rv w', set_fd_cloexec fd c w = Some (rv, w') /\ vw w' = with_fds (mark fd c (k_fds (vw w))) (vw w) /\ px_error w' = px_error w.
Proof.
  unfold set_fd_cloexec. destruct (sys_run (fcntl_getfd fd) w) as (r & w1 & E1 & Ho1 & He1 & Hr). rewrite (st_bind_Some _ _ _ _ _ E1).
  destruct (law_getfd fd (px_os w)) as [Hv Hf]. destruct ((fcntl_getfd fd (px_os w)).1) as [e|fl].
  - destruct Hr as [-> _]. exists (-1), w1. split; [done|]. split; [|done]. unfold vw. rewrite Ho1, Hv, mark_absent by done. by destruct (view (px_os w)).
  - subst r. destruct Hf as [o Hf]. set (fl' := if c then _ else _).
    destruct (sys_run (fcntl_setfd fd fl') w1) as (r2 & w2 & E2 & Ho2 & He2 & _). rewrite (st_bind_Some _ _ _ _ _ E2).
    eexists _, w2. split; [reflexivity|]. split; [|congruence]. unfold vw. rewrite Ho2, (law_setfd _ _ _ o (Z.testbit fl 0)), Ho1, Hv; [|by rewrite Ho1, Hv].
    f_equal. apply map_eq. intros i. rewrite lookup_mark. case_decide as Hi; [subst i|by rewrite lookup_insert_ne].
    rewrite lookup_insert_eq, Hf.
    assert (Z.testbit fl' 0 = c) as -> by (subst fl'; destruct c; [by rewrite Z.lor_spec, orb_true_r|by rewrite Z.land_spec, andb_false_r]). done.
Qed.

(** The marks put for the names of a directory. *)
Definition mark_name (name : cstr) (t : fdtable) : fdtable :=
  match scanf_int name with Some (Some fd) => if 3 <=? fd then mark fd true t else t | _ => t end.

Lemma cloexec_loop_run h d names (w : W) :
  k_dirs (vw w) !! h = Some (d, names) -> Forall (fun name => skip_spaces name <> [] /\ is_Some (scanf_int name)) names ->
  exists w', runs (fun fuel => cloexec_loop fuel h 3) w tt w' /\ px_error w' = px_error w /\
    vw w' = with_dirs (<[h := (d, [])]> (k_dirs (vw w))) (with_fds (foldl (fun t n => mark_name n t) (k_fds (vw w)) names) (vw w)).
Proof.
  revert w. induction names as [|name names IH]; intros w Hd Hn; destruct (law_readdir h (px_os w) d _ Hd) as [H1 H2].
  - destruct (sys_readdir h (px_os w)) as [[[n ty]|] os'] eqn:E; [done|]. exists (mk_px os' (px_errno w) (px_error w)). split; [|split; [done|]].
    + exists 1%nat. intros [|fuel] Hf; [lia|]. cbn [cloexec_loop]. unfold mbind, st_bind, sys_pure. by rewrite E.
    + unfold vw. cbn [px_os foldl]. cbn [snd] in H2. rewrite H2. by destruct (view (px_os w)).
  - apply Forall_cons_1 in Hn as [[Hs [r Hr]] Hn].
    destruct (sys_readdir h (px_os w)) as [[[n ty]|] os'] eqn:E; [|done]. cbn in H1, H2. injection H1 as ->.
    set (w1 := mk_px os' (px_errno w) (px_error w)).
    assert (Hset : exists rv w2, (match r with Some fd => if 3 <=? fd then set_fd_cloexec fd true else mret 0 | None => mret 0 end) w1 = Some (rv, w2) /\
      vw w2 = with_fds (mark_name name (k_fds (vw w1))) (vw w1) /\ px_error w2 = px_error w1).
    { unfold mark_name. rewrite Hr. destruct r as [fd|]; [destruct (3 <=? fd); [apply set_fd_cloexec_run|]|]; exists 0, w1; by destruct (vw w1). }
    destruct Hset as (rv & w2 & E2 & Hv2 & He2). assert (Hv1 : vw w1 = with_dirs (<[h := (d, names)]> (k_dirs (vw w))) (vw w)) by exact H2.
    destruct (IH w2) as (w' & [m Hm] & He & Hv); [by rewrite Hv2, Hv1; cbn; rewrite lookup_insert_eq|done|].
    exists w'. split; [|split; [by rewrite He, He2|]].
    + exists (S m). intros [|fuel] Hf; [lia|]. cbn [cloexec_loop]. unfold mbind at 1, st_bind at 1, sys_pure at 1. rewrite E.
      rewrite bool_decide_false by done. unfold mbind at 1, st_bind at 1, st_option at 1. rewrite Hr. cbn [mbind option_bind].
      fold w1. rewrite (st_bind_Some _ _ _ _ _ E2). apply Hm. lia.
    + rewrite Hv, Hv2, Hv1. cbn. by rewrite insert_insert_eq.
Qed.

Lemma lookup_marks names t i :
  foldl (fun t n => mark_name n t) t names !! i =
  (fun p => (p.1, if decide (3 <= i /\ Exists (fun name => scanf_int name = Some (Some i)) names) then true else p.2)) <$> t !! i.
Proof.
  revert t. induction names as [|name names IH]; intros t; cbn [foldl].
  - destruct (t !! i) as [[]|]; [|done]. cbn. by rewrite decide_False by (by intros [_ H%Exists_nil]).
  - rewrite IH. assert (Hm : mark_name name t !! i = (fun p => (p.1, if decide (3 <= i /\ scanf_int name = Some (Some i)) then true else p.2)) <$> t !! i).
    { unfold mark_name. destruct (scanf_int name) as [[fd|]|]; try (destruct (t !! i) as [[]|]; [|done]; cbn; by rewrite decide_False by (by intros [])).
      destruct (Z.leb_spec 3 fd).
      - rewrite lookup_mark. destruct (decide (i = fd)) as [->|Hi]; [destruct (t !! fd); [|done]; cbn; by rewrite decide_True|]. destruct (t !! i) as [[]|]; [|done]; cbn. by rewrite decide_False by (by intros [_ [= ->]]).
      - destruct (t !! i) as [[]|]; [|done]; cbn. by rewrite decide_False by (intros [Hi [= ->]]; lia). }
    rewrite Hm. destruct (t !! i) as [[o c]|]; [|done]. cbn. do 2 f_equal. pose proof (Exists_cons (fun name => scanf_int name = Some (Some i)) name names) as Hc.
    repeat case_decide; done || (exfalso; tauto).
Qed.

Lemma marks_closed names (t : fdtable) : (forall fd, is_Some (t !! fd) -> exists name, name ∈ names /\ scanf_int name = Some (Some fd)) ->
  foldl (fun t n => mark_name n t) t names = closed_from 3 t.
Proof.
  intros H. apply map_eq. intros i. rewrite lookup_marks, lookup_closed. destruct (t !! i) as [[o c]|] eqn:E; [|done]. cbn. do 2 f_equal.
  destruct (Z.leb_spec 3 i); [|by rewrite decide_False by lia]. rewrite decide_True; [done|]. split; [done|]. apply Exists_exists. apply H. by rewrite E.
Qed.

Lemma opendir_run path (w : W) : path = PROC_SELF_FD \/ path = DEV_FD ->
  exists r w', sys (sys_opendir path) w = Some (r, w') /\ px_error w' = px_error w /\
    match r with
    | Some h => exists d k names, k_fds (vw w) !! d = None /\ names_fds names (<[d := (OFile k, true)]> (k_fds (vw w))) /\ k_dirs (vw w) !! h = None /\
        vw w' = with_dirs (<[h := (d, names)]> (k_dirs (vw w))) (with_fds (<[d := (OFile k, true)]> (k_fds (vw w))) (vw w))
    | None => vw w' = vw w
    end.
Proof.
  intros Hp. destruct (sys_run (sys_opendir path) w) as (r & w1 & E & Ho & He & Hr). exists r, w1. split; [done|]. split; [done|].
  pose proof (law_opendir path (px_os w) Hp) as L. unfold vw. rewrite Ho.
  destruct (sys_opendir path (px_os w)) as [[e|h] os]; cbn in Hr |- *; [by destruct Hr as [-> _]|]. subst r. naive_solver.
Qed.

Lemma set_cloexec_all_fds_run (w : W) :
  exists w' b, runs (fun fuel => set_cloexec_all_fds fuel 3) w tt w' /\ px_error w' = px_error w /\ marked (k_fds (vw w)) b /\ vw w' = with_fds b (vw w).
Proof.
  assert (Hgo : forall h w1, (exists d k names, k_fds (vw w) !! d = None /\ names_fds names (<[d := (OFile k, true)]> (k_fds (vw w))) /\ k_dirs (vw w) !! h = None /\
      vw w1 = with_dirs (<[h := (d, names)]> (k_dirs (vw w))) (with_fds (<[d := (OFile k, true)]> (k_fds (vw w))) (vw w))) ->
    exists w', runs (fun fuel => cloexec_loop fuel h 3;; sys_do (sys_closedir h)) w1 tt w' /\ px_error w' = px_error w1 /\ vw w' = with_fds (closed_from 3 (k_fds (vw w))) (vw w)).
  { intros h w1 (d & k & names & Hd & [Hn1 Hn2] & Hh & Hv). destruct (cloexec_loop_run h d names w1) as (w2 & Hr & He & Hv2); [by rewrite Hv; cbn; rewrite lookup_insert_eq|done|].
    exists (mk_px (sys_closedir h (px_os w2)) (px_errno w2) (px_error w2)). split; [|split; [done|]].
    - eapply runs_bind; [exact Hr|]. by apply runs_const.
    - unfold vw at 1. cbn [px_os]. rewrite (law_closedir h (px_os w2) d []); fold (vw w2); rewrite Hv2, Hv; [|by cbn; rewrite lookup_insert_eq].
      cbn. rewrite marks_closed by done. unfold with_fds, with_dirs. cbn. f_equal.
      + rewrite closed_insert. rewrite delete_insert_id; [done|]. by rewrite lookup_closed, Hd.
      + rewrite insert_insert_eq. by apply delete_insert_id. }
  unfold set_cloexec_all_fds. destruct (opendir_run PROC_SELF_FD w) as (r & w1 & E1 & He1 & H1); [by left|]. destruct r as [h|].
  - destruct (Hgo h w1 H1) as (w' & Hr & He & Hv). exists w', (closed_from 3 (k_fds (vw w))). split_and!; [|congruence|by left|done].
    eapply runs_step; [exact E1|]. eapply runs_step; [reflexivity|]. exact Hr.
  - destruct (opendir_run DEV_FD w1) as (r & w2 & E2 & He2 & H2); [by right|]. destruct r as [h|].
    + rewrite H1 in H2. destruct (Hgo h w2 H2) as (w' & Hr & He & Hv). exists w', (closed_from 3 (k_fds (vw w))). split_and!; [|congruence|by left|done].
      eapply runs_step; [exact E1|]. eapply runs_step; [exact E2|]. exact Hr.
    + exists w2, (k_fds (vw w)). split_and!; [|congruence|by right|by rewrite H2, H1; destruct (vw w)].
      eapply runs_step; [exact E1|]. eapply runs_step; [exact E2|]. by apply runs_const.
Qed.

(** The only descriptor that writes in the pipe is [r], and [exec] closes it. *)
Definition only_report (id r : Z) (t : fdtable) : Prop := t !! r = Some (PipeW id, true) /\ forall fd c, t !! fd = Some (PipeW id, c) -> fd = r.

Lemma only_report_mark id r fd c t : fd <> r -> only_report id r t -> only_report id r (mark fd c t).
Proof.
  intros Hf [H1 H2]. split; [rewrite lookup_mark; by rewrite decide_False|]. intros i c' Hi. rewrite lookup_mark in Hi.
  case_decide; [|by eapply H2]. destruct (t !! i) as [[o c1]|] eqn:E; [|done]. injection Hi as -> _. by eapply H2.
Qed.

Lemma only_report_closed id r k t : only_report id r t -> only_report id r (closed_from k t).
Proof.
  intros [H1 H2]. split; [rewrite lookup_closed, H1; cbn; by destruct (k <=? r)|]. intros i c Hi. rewrite lookup_closed in Hi.
  destruct (t !! i) as [[o c1]|] eqn:E; [|done]. injection Hi as -> _. by eapply H2.
Qed.

Lemma only_report_dup id r a b o c t : a <> r -> b <> r -> t !! a = Some (o, c) -> only_report id r t -> only_report id r (<[b := (o, false)]> t).
Proof.
  intros Ha Hb Hl [H1 H2]. split; [by rewrite lookup_insert_ne|]. intros i c' Hi. destruct (decide (i = b)) as [->|].
  - rewrite lookup_insert_eq in Hi. injection Hi as -> _. apply H2 in Hl. done.
  - rewrite lookup_insert_ne in Hi by done. by eapply H2.
Qed.

Lemma only_report_exec id r t : only_report id r t -> ~ table_writes id (exec_view t).
Proof. intros [H1 H2] (fd & c & H). apply lookup_exec in H as [H _]. pose proof (H2 _ _ H). subst. congruence. Qed.

(** The loop ends; when it succeeds the table is that of the specification, and an error is raised otherwise. *)
Lemma remap_loop_run l (w : W) :
  exists rv w' t, remap_loop l w = Some (rv, w') /\ vw w' = with_fds t (vw w) /\
    (rv = 0 /\ remap_spec l (k_fds (vw w)) = Some t /\ px_error w' = px_error w \/ rv = -1 /\ exists e, px_error w' = Some e) /\
    forall id r, Forall (fun m => child_fd m <> r /\ parent_fd m <> r) l -> only_report id r (k_fds (vw w)) -> only_report id r t.
Proof.
  revert w. induction l as [|m l IH]; intros w; cbn [remap_loop remap_spec].
  { exists 0, w, (k_fds (vw w)). split_and!; [done|by destruct (vw w)|by left|done]. }
  assert (Hclose : exists rv w1 t1, (if parent_fd m =? -1 then set_fd_cloexec (child_fd m) true else mret 0) w = Some (rv, w1) /\ px_error w1 = px_error w /\
    vw w1 = with_fds t1 (vw w) /\ t1 = (if parent_fd m =? -1 then mark (child_fd m) true (k_fds (vw w)) else k_fds (vw w)) /\
    forall id r, child_fd m <> r -> only_report id r (k_fds (vw w)) -> only_report id r t1).
  { destruct (parent_fd m =? -1).
    - destruct (set_fd_cloexec_run (child_fd m) true w) as (rv & w1 & E & Hv & He). exists rv, w1. eexists. split_and!; [done..|]. intros. by apply only_report_mark.
    - exists 0, w, (k_fds (vw w)). split_and!; [done|done|by destruct (vw w)|done|done]. }
  destruct Hclose as (rv & w1 & t1 & E1 & He1 & Hv1 & Ht1 & Ho1). rewrite (st_bind_Some _ _ _ _ _ E1). unfold remap_one. rewrite <- Ht1.
  assert (Hnext : forall w2 t2, vw w2 = with_fds t2 (vw w) -> px_error w2 = px_error w ->
      (forall id r, child_fd m <> r -> parent_fd m <> r -> only_report id r (k_fds (vw w)) -> only_report id r t2) ->
      exists rv w' t, remap_loop l w2 = Some (rv, w') /\ vw w' = with_fds t (vw w) /\
        (rv = 0 /\ remap_spec l t2 = Some t /\ px_error w' = px_error w \/ rv = -1 /\ exists e, px_error w' = Some e) /\
        forall id r, Forall (fun m => child_fd m <> r /\ parent_fd m <> r) (m :: l) -> only_report id r (k_fds (vw w)) -> only_report id r t).
  { intros w2 t2 Hv2 He2 Ho2. destruct (IH w2) as (rv' & w' & t & E & Hv & Hr & Ho). rewrite Hv2 in Hv, Hr, Ho. cbn in Hv, Hr, Ho. rewrite He2 in Hr.
    exists rv', w', t. split_and!; [done|done|done|]. intros id r [[Hc Hp] Hl]%Forall_cons_1 Hor. apply Ho; [done|]. by apply Ho2. }
  destruct (Z.eqb_spec (parent_fd m) (child_fd m)) as [Heq|Hne].
  - destruct (set_fd_cloexec_run (child_fd m) false w1) as (rv2 & w2 & E2 & Hv2 & He2). rewrite (st_bind_Some _ _ _ _ _ E2). cbn [mbind option_bind].
    apply Hnext; [by rewrite Hv2, Hv1|congruence|]. intros id r Hc _ Hor. apply only_report_mark; [done|]. by apply Ho1.
  - destruct (sys_run (sys_dup2 (parent_fd m) (child_fd m)) w1) as (r2 & w2 & E2 & Hos2 & He2 & Hr2). rewrite (st_bind_Some _ _ _ _ _ E2).
    pose proof (law_dup2 (parent_fd m) (child_fd m) (px_os w1) Hne) as L. fold (vw w1) in L.
    destruct (sys_dup2 (parent_fd m) (child_fd m) (px_os w1)) as [[e|u] os2]; cbn [fst snd] in *.
    + destruct Hr2 as [-> _]. destruct (raise_run w2) as (e2 & w3 & E3 & Hos3 & He3). rewrite E3. exists (-1), w3, t1. split_and!; [done| |by right; split; [|exists e2]|].
      * unfold vw. by rewrite Hos3, Hos2, L, Hv1.
      * intros id r [[Hc Hp] Hl]%Forall_cons_1 Hor. by apply Ho1.
    + subst r2. destruct L as (o & c & La & Lv). rewrite Hv1 in La, Lv. cbn in La, Lv. rewrite La. cbn [mbind option_bind].
      apply Hnext; [unfold vw at 1; by rewrite Hos2, Lv|congruence|]. intros id r Hc Hp Hor. eapply only_report_dup; eauto.
Qed.

Lemma remap_run fd_map (w : W) :
  exists rv w' t, runs (fun fuel => remap_file_descriptors fuel fd_map) w rv w' /\ vw w' = with_fds t (vw w) /\
    (rv = 0 /\ (exists b, marked (k_fds (vw w)) b /\ remap_spec fd_map b = Some t) /\ px_error w' = px_error w \/ rv = -1 /\ exists e, px_error w' = Some e) /\
    forall id r, Forall (fun m => child_fd m <> r /\ parent_fd m <> r) fd_map -> only_report id r (k_fds (vw w)) -> only_report id r t.
Proof.
  destruct (set_cloexec_all_fds_run w) as (w1 & b & Hr1 & He1 & Hb & Hv1). destruct (remap_loop_run fd_map w1) as (rv & w2 & t & E2 & Hv2 & Hr2 & Ho2).
  rewrite Hv1 in Hv2, Hr2, Ho2. cbn in Hv2, Hr2, Ho2. rewrite He1 in Hr2. exists rv, w2, t. split_and!; [|done| |].
  - eapply runs_bind; [exact Hr1|]. by apply runs_const.
  - destruct Hr2 as [(-> & Hs & He)|Hr2]; [left|by right]. split_and!; [done|by exists b|done].
  - intros id r Hl Hor. apply Ho2; [done|]. destruct Hb as [->| ->]; [by apply only_report_closed|done].
Qed.

(** ** The report of a child *)

Lemma report_loop_run r id c buf (w : W) d :
  k_fds (vw w) !! r = Some (PipeW id, c) -> k_pipes (vw w) !! id = Some d -> has_reader id (vw w) ->
  exists w', runs (fun fuel => report_loop fuel r buf) w tt w' /\ vw w' = with_pipes (<[id := d ++ buf]> (k_pipes (vw w))) (vw w).
Proof.
  remember (length buf) as len eqn:Hlen. revert buf w d Hlen. induction len as [len IHl] using lt_wf_ind. intros buf w d Hlen Hf Hp Hrd.
  remember (pending (px_os w)) as p eqn:Hpend. revert w Hpend Hf Hp Hrd. induction p as [p IHp] using lt_wf_ind. intros w Hpend Hf Hp Hrd.
  destruct buf as [|x buf].
  { exists w. split; [exists O; by intros [|fuel] _|]. rewrite app_nil_r, insert_id by done. by destruct (vw w). }
  pose proof (law_write r (x :: buf) (px_os w) id c d Hf Hp ltac:(done) Hrd) as L. destruct (sys_run (sys_write r (x :: buf)) w) as (rsz & w1 & E1 & Ho1 & _ & Hr1).
  destruct (sys_write r (x :: buf) (px_os w)) as [[e|n] os]; cbn [fst snd] in *.
  - destruct L as (-> & Hv & Hlt), Hr1 as [-> He]. subst os.
    assert (Hv1 : vw w1 = vw w) by exact Hv. destruct (IHp _ ltac:(subst p; exact Hlt) w1 eq_refl) as (w' & [k Hk] & Hv'); [by rewrite Hv1..|]. rewrite Hv1 in Hv'.
    exists w'. split; [|done]. exists (S k). intros [|fuel] Hfu; [lia|]. cbn [report_loop]. rewrite (st_bind_Some _ _ _ _ _ E1).
    unfold mbind, st_bind, st_gets. rewrite He, bool_decide_true by done. apply Hk. lia.
  - destruct L as [Hn Hv]. subst rsz os. assert (Hv1 : vw w1 = with_pipes (<[id := d ++ take n (x :: buf)]> (k_pipes (vw w))) (vw w)) by exact Hv.
    destruct (IHl (length (drop n (x :: buf)))) with (buf := drop n (x :: buf)) (w := w1) (d := d ++ take n (x :: buf)) as (w' & [k Hk] & Hv').
    { rewrite length_drop. subst len. cbn in *. lia. }
    { done. }
    { by rewrite Hv1. }
    { rewrite Hv1. cbn. by rewrite lookup_insert_eq. }
    { by rewrite Hv1. }
    exists w'. split.
    + exists (S k). intros [|fuel] Hfu; [lia|]. cbn [report_loop]. rewrite (st_bind_Some _ _ _ _ _ E1). apply Hk. lia.
    + rewrite Hv', Hv1. cbn. unfold with_pipes. cbn. by rewrite insert_insert_eq, <- app_assoc, take_drop.
Qed.

(** What a child was given and what it leaves: a program runs with its table, or the error is in the pipe. *)
Definition child_ready (id r : Z) (v : kview) : Prop := only_report id r (k_fds v) /\ k_pipes v !! id = Some [] /\ has_reader id v.

Definition reported (id : Z) (v v' : kview) : Prop :=
  k_others v' = k_others v /\ exists e, k_pipes v' = <[id := errstate_bytes (Some e)]> (k_pipes v).

Lemma report_run id r (w : W) e : child_ready id r (vw w) -> px_error w = Some e ->
  exists w', runs (fun fuel => report_to_parent_and_exit fuel r) w (Exited 1) w' /\ reported id (vw w) (vw w') /\ k_fds (vw w') = k_fds (vw w).
Proof.
  intros ([Hf _] & Hp & Hrd) He. destruct (report_loop_run r id true (errstate_bytes (Some e)) w [] Hf Hp Hrd) as (w' & Hr & Hv). exists w'. split_and!.
  - unfold report_to_parent_and_exit. eapply runs_step; [reflexivity|]. rewrite He. eapply runs_bind; [exact Hr|]. by apply runs_const.
  - rewrite Hv. split; [done|]. by exists e.
  - by rewrite Hv.
Qed.

Lemma load_run id r opts (w : W) : child_ready id r (vw w) -> avoids r opts ->
  exists ending w', runs (fun fuel => load_new_proc_img fuel opts r) w ending w' /\
    (ending = Loaded /\ program_table opts (k_fds (vw w)) (k_fds (vw w')) /\ ~ table_writes id (k_fds (vw w')) /\
       k_others (vw w') = k_others (vw w) /\ k_pipes (vw w') = k_pipes (vw w) \/
     (exists code, ending = Exited code) /\ reported id (vw w) (vw w')).
Proof.
  intros (Hor & Hp & Hrd) Ha. unfold load_new_proc_img.
  assert (Hmap : exists rv w1 t, runs (fun fuel => if has (so_flags opts) MM_SPAWN_KEEP_FDS then mret 0 else remap_file_descriptors fuel (so_fd_map opts)) w rv w1 /\
    vw w1 = with_fds t (vw w) /\ only_report id r t /\
    (rv = 0 /\ program_table opts (k_fds (vw w)) (exec_view t) \/ rv = -1 /\ exists e, px_error w1 = Some e)).
  { unfold program_table, avoids in *. destruct (has _ _).
    - exists 0, w, (k_fds (vw w)). split_and!; [by apply runs_const|by destruct (vw w)|done|by left].
    - destruct Ha as [?|Ha]; [done|]. destruct (remap_run (so_fd_map opts) w) as (rv & w1 & t & Hr & Hv & Hs & Ho). exists rv, w1, t. split_and!; [done|done|by apply Ho|].
      destruct Hs as [(-> & (b & Hb & Hs) & _)|?]; [left|by right]. split; [done|]. by exists b, t. }
  destruct Hmap as (rv & w1 & t & Hr1 & Hv1 & Ho1 & Hs).
  assert (Hready : forall w2, vw w2 = vw w1 -> child_ready id r (vw w2)) by (intros w2 ->; rewrite Hv1; by split_and!).
  assert (Hreport : forall w2 e, vw w2 = vw w1 -> px_error w2 = Some e -> exists w', runs (fun fuel => report_to_parent_and_exit fuel r) w2 (Exited 1) w' /\ reported id (vw w) (vw w')).
  { intros w2 e Hv2 He2. destruct (report_run id r w2 e (Hready w2 Hv2) He2) as (w' & Hr & Hrep & _). exists w'. split; [done|]. rewrite Hv2, Hv1 in Hrep. exact Hrep. }
  destruct Hs as [[-> Ht]|[-> [e He]]].
  - pose proof (law_exec (so_file opts) (so_argv opts) (so_envp opts) (px_os w1)) as L.
    destruct (sys_run (if has_slash (so_file opts) then sys_execve (so_file opts) (so_argv opts) (so_envp opts) else sys_execvpe (so_file opts) (so_argv opts) (so_envp opts)) w1)
      as (r2 & w2 & E2 & Hos2 & He2 & Hr2).
    assert (Ex : exists x, (if has_slash (so_file opts) then sys_execve (so_file opts) (so_argv opts) (so_envp opts) (px_os w1)
        else sys_execvpe (so_file opts) (so_argv opts) (so_envp opts) (px_os w1)) = x /\
        (if has_slash (so_file opts) then sys_execve (so_file opts) (so_argv opts) (so_envp opts) else sys_execvpe (so_file opts) (so_argv opts) (so_envp opts)) (px_os w1) = x)
      by (destruct (has_slash _); by eexists).
    destruct Ex as ([[e|u] os2] & Ex1 & Ex2); rewrite Ex1 in L; rewrite Ex2 in Hos2, Hr2; cbn [fst snd] in *.
    + destruct Hr2 as [-> _]. destruct (raise_run w2) as (e2 & w3 & E3 & Hos3 & He3).
      destruct (Hreport w3 e2) as (w' & Hr & Hrep); [unfold vw; by rewrite Hos3, Hos2|done|]. exists (Exited 1), w'. split; [|right; split; [by eexists|done]].
      eapply runs_bind; [exact Hr1|]. cbn [Z.eqb negb]. eapply runs_step; [exact E2|]. eapply runs_step; [exact E3|]. exact Hr.
    + subst r2. exists Loaded, w2. split; [|left].
      * eapply runs_bind; [exact Hr1|]. cbn [Z.eqb negb]. eapply runs_step; [exact E2|]. by apply runs_const.
      * assert (Hv2 : vw w2 = with_fds (exec_view t) (vw w)) by (unfold vw at 1; rewrite Hos2, L; fold (vw w1); by rewrite Hv1).
        rewrite Hv2. split_and!; [done|done|by eapply only_report_exec|done|done].
  - destruct (Hreport w1 e eq_refl He) as (w' & Hr & Hrep). exists (Exited 1), w'. split; [|right; split; [by eexists|done]].
    eapply runs_bind; [exact Hr1|]. exact Hr.
Qed.

(** ** The parent *)

(** A child that ends: the system seen by its parent. *)
Lemma fork_run_run (child : nat -> ST W child_end) (w : W) (P : child_end -> kview -> Prop) :
  (forall wc, vw wc = mk_view (k_fds (vw w)) (k_fds (vw w) :: k_others (vw w)) (k_pipes (vw w)) (k_dirs (vw w)) ->
     exists ending wc', runs child wc ending wc' /\ P ending (vw wc')) ->
  exists pid w', runs (fun fuel => fork_run (child fuel)) w pid w' /\ px_error w' = px_error w /\
    match pid with
    | None => vw w' = vw w
    | Some p => 0 < p /\ exists ending vc, P ending vc /\ forall new, k_others vc = new ++ k_fds (vw w) :: k_others (vw w) ->
        vw w' = mk_view (k_fds (vw w)) (match ending with Loaded => [k_fds vc] | Exited _ => [] end ++ new ++ k_others (vw w)) (k_pipes vc) (k_dirs (vw w))
    end.
Proof.
  intros H. pose proof (law_fork (px_os w)) as L. unfold fork_run. destruct (sys_fork (px_os w)) as [[e|[pid co]] os] eqn:E.
  - exists None, (mk_px os e (px_error w)). split_and!; [|done|exact L]. exists O. intros fuel _. by rewrite E.
  - destruct L as (Hpid & Hv & Hvc). destruct (H (mk_px co (px_errno w) (px_error w)) Hvc) as (ending & wc & [n Hn] & HP).
    exists (Some pid), (mk_px (sys_ran pid ending (px_os wc) os) (px_errno w) (px_error w)). split_and!; [|done|done|].
    + exists n. intros fuel Hf. rewrite E. unfold mbind, option_bind. by rewrite (Hn fuel Hf).
    + exists ending, (vw wc). split; [done|]. intros new Hnew. unfold vw at 1. cbn [px_os]. rewrite (law_ran _ _ _ _ new); rewrite Hv; done.
Qed.

(** The pipe at the end of the child: nothing if a program was loaded, or an error. *)
Definition pipe_report (d : cstr) : Prop := d = [] \/ exists e, d = errstate_bytes (Some e).

Lemma wait_run watch id c d (w : W) :
  k_fds (vw w) !! watch = Some (PipeR id, c) -> k_pipes (vw w) !! id = Some d -> no_writer id (vw w) -> pipe_report d ->
  exists rv w', wait_for_load_process_result watch w = Some (rv, w') /\ k_fds (vw w') = delete watch (k_fds (vw w)) /\ k_others (vw w') = k_others (vw w) /\
    (rv = 0 /\ d = [] \/ rv = -1 /\ d <> [] /\ (exists e, px_error w' = Some e) \/ rv = -1 /\ px_error w' = Some E_INTR).
Proof.
  intros Hf Hp Hn Hd. unfold wait_for_load_process_result. pose proof (law_read watch errstate_size (px_os w) id c d Hf Hp Hn) as L.
  destruct (sys_run (sys_read watch errstate_size) w) as (r & w1 & E1 & Ho1 & He1 & Hr1). rewrite (st_bind_Some _ _ _ _ _ E1).
  assert (Hclose : forall w2 rv, k_fds (vw w2) = k_fds (vw w) -> k_others (vw w2) = k_others (vw w) ->
    exists w3, ((_ ← sys (sys_close watch); mret rv) : ST W Z) w2 = Some (rv, w3) /\ k_fds (vw w3) = delete watch (k_fds (vw w)) /\ k_others (vw w3) = k_others (vw w) /\ px_error w3 = px_error w2).
  { intros w2 rv Hf2 Ho2. destruct (close_run watch w2) as (r3 & w3 & E3 & Hv3 & He3). exists w3. rewrite (st_bind_Some _ _ _ _ _ E3), Hv3. cbn. by rewrite Hf2, Ho2. }
  destruct (sys_read watch errstate_size (px_os w)) as [[e|buf] os]; cbn [fst snd] in *.
  - destruct L as (-> & Hv), Hr1 as [-> He]. unfold mbind at 1, st_bind at 1.
    assert (E2 : raise_from_errno w1 = Some (-1, mk_px (px_os w1) E_INTR (Some E_INTR))) by (unfold raise_from_errno, mbind, st_bind, st_gets; by rewrite He).
    rewrite E2. destruct (Hclose (mk_px (px_os w1) E_INTR (Some E_INTR)) (-1)) as (w3 & E3 & H1 & H2 & H3); [unfold vw at 1; cbn [px_os]; by rewrite Ho1, Hv..|].
    exists (-1), w3. split_and!; [exact E3|done|done|right; right; by rewrite H3].
  - destruct L as [-> Hv]. subst r. assert (Hv1 : vw w1 = with_pipes (<[id := drop errstate_size d]> (k_pipes (vw w))) (vw w)) by (unfold vw at 1; by rewrite Ho1).
    destruct Hd as [->|[e ->]].
    + rewrite take_nil. unfold mbind at 1, st_bind at 1. cbn [mret st_ret].
      destruct (Hclose w1 0) as (w3 & E3 & H1 & H2 & H3); [by rewrite Hv1..|]. exists 0, w3. split_and!; [exact E3|done|done|by left].
    + destruct (law_errstate (KernelLaws := KernelLaws0) e) as (Hlen & Hpos & e' & Hof). rewrite take_ge by lia.
      assert (Hne : errstate_bytes (Some e) <> []) by (intros E; rewrite E in Hlen; cbn in Hlen; lia).
      destruct (errstate_bytes (Some e)) as [|x l] eqn:Eb; [done|]. cbv beta iota. rewrite <- Eb in Hof |- *. rewrite (proj2 (Nat.ltb_ge _ _)) by (rewrite Eb; lia).
      unfold mbind at 1, st_bind at 1. unfold mm_set_errorstate, st_modify. unfold mbind at 1, st_bind at 1. cbn [mret st_ret].
      rewrite Hof. set (w2 := mk_px (px_os w1) e' (Some e')). destruct (Hclose w2 (-1)) as (w3 & E3 & H1 & H2 & H3); [change (vw w2) with (vw w1); by rewrite Hv1..|].
      exists (-1), w3. split_and!; [exact E3|done|done|right; left]. split; [done|]. split; [rewrite Eb; discriminate|]. exists e'. by rewrite H3.
Qed.

(** What the child of [mm_spawn] leaves to its parent: a program that runs, or the report of an error. *)
Definition child_left (opts : startproc_opts) (id : Z) (t0 : fdtable) (others : list fdtable) (ps : gmap Z cstr) (ending : child_end) (v : kview) : Prop :=
  (exists T, program_table opts t0 T /\ ~ table_writes id T /\ k_pipes v = ps /\
     (ending = Loaded /\ k_fds v = T /\ k_others v = others \/ (exists code, ending = Exited code) /\ k_others v = T :: others)) \/
  (exists code, ending = Exited code) /\ k_others v = others /\ exists e, k_pipes v = <[id := errstate_bytes (Some e)]> ps.

Lemma load_left opts id r t0 (w : W) : child_ready id r (vw w) -> avoids r opts -> k_fds (vw w) = <[r := (PipeW id, true)]> t0 -> t0 !! r = None ->
  exists ending w', runs (fun fuel => load_new_proc_img fuel opts r) w ending w' /\ child_left opts id t0 (k_others (vw w)) (k_pipes (vw w)) ending (vw w').
Proof.
  intros Hc Ha Hf Hr. destruct (load_run id r opts w Hc Ha) as (ending & w' & Hrun & Hl). exists ending, w'. split; [done|].
  destruct Hl as [(-> & Ht & Hn & Ho & Hp)|[Hex [Ho He]]]; [left|by right]. exists (k_fds (vw w')). rewrite Hf in Ht.
  split_and!; [by eapply program_table_insert|done|done|by left].
Qed.

Lemma daemon_left opts id r watch t0 (w : W) : child_ready id r (vw w) -> avoids r opts ->
  delete watch (k_fds (vw w)) = <[r := (PipeW id, true)]> t0 -> t0 !! r = None ->
  exists ending w', runs (fun fuel => daemon_child fuel opts watch r) w ending w' /\ child_left opts id t0 (k_others (vw w)) (k_pipes (vw w)) ending (vw w').
Proof.
  intros (Hor & Hp & Hrd) Ha Hf Hr. unfold daemon_child. destruct (close_run watch w) as (r1 & w1 & E1 & Hv1 & _). rewrite Hf in Hv1.
  assert (Hor1 : only_report id r (<[r := (PipeW id, true)]> t0)).
  { rewrite <- Hf. destruct Hor as [H1 H2]. split.
    - rewrite Hf. by rewrite lookup_insert_eq.
    - intros fd c H. apply lookup_delete_Some in H as [_ H]. by eapply H2. }
  assert (Hready : forall w2, vw w2 = vw w1 -> child_ready id r (vw w2)) by (intros w2 ->; rewrite Hv1; by split_and!).
  assert (Hreport : forall w2 e, vw w2 = vw w1 -> px_error w2 = Some e ->
    exists w', runs (fun fuel => report_to_parent_and_exit fuel r) w2 (Exited 1) w' /\ child_left opts id t0 (k_others (vw w)) (k_pipes (vw w)) (Exited 1) (vw w')).
  { intros w2 e Hv2 He2. destruct (report_run id r w2 e (Hready w2 Hv2) He2) as (w' & Hrun & [Ho He] & _). exists w'. split; [done|]. right.
    rewrite Hv2, Hv1 in Ho, He. split_and!; [by eexists|done|done]. }
  assert (Hfail : forall w2, vw w2 = vw w1 -> exists ending w', runs (fun fuel => _ ← raise_from_errno; report_to_parent_and_exit fuel r) w2 ending w' /\
    child_left opts id t0 (k_others (vw w)) (k_pipes (vw w)) ending (vw w')).
  { intros w2 Hv2. destruct (raise_run w2) as (e & w3 & E3 & Hos3 & He3). destruct (Hreport w3 e) as (w' & Hrun & Hl); [unfold vw at 1; by rewrite Hos3|done|].
    exists (Exited 1), w'. split; [|done]. eapply runs_step; [exact E3|exact Hrun]. }
  assert (Hfile : exists file w2, (if has_slash (so_file opts) then sys (sys_realpath (so_file opts)) else mret (Some (so_file opts))) w1 = Some (file, w2) /\ vw w2 = vw w1).
  { destruct (has_slash _); [|by do 2 eexists]. destruct (neutral_run (sys_realpath (so_file opts)) w1) as (rr & w2 & E & Hv & _); [apply law_realpath|]. by do 2 eexists. }
  destruct Hfile as ([file|] & w2 & E2 & Hv2).
  2: { destruct (Hfail w2 Hv2) as (ending & w' & Hrun & Hl). exists ending, w'. split; [|done]. eapply runs_step; [exact E1|]. eapply runs_step; [exact E2|exact Hrun]. }
  destruct (neutral_run (sys_chdir (cs "/")) w2) as (r3 & w3 & E3 & Hv3 & _); [apply law_chdir|]. rewrite Hv2 in Hv3.
  destruct r3 as [u|].
  2: { destruct (Hfail w3 Hv3) as (ending & w' & Hrun & Hl). exists ending, w'. split; [|done]. eapply runs_step; [exact E1|]. eapply runs_step; [exact E2|]. eapply runs_step; [exact E3|exact Hrun]. }
  set (w4 := mk_px (sys_setsid (sys_umask 0 (px_os w3))) (px_errno w3) (px_error w3)).
  assert (Hv4 : vw w4 = vw w1) by (unfold vw at 1; cbn [px_os w4]; rewrite law_setsid, law_umask; exact Hv3).
  set (child_opts := mk_opts file (so_flags opts) (so_fd_map opts) (so_argv opts) (so_envp opts)).
  destruct (fork_run_run (fun fuel => load_new_proc_img fuel child_opts r) w4 (child_left child_opts id t0 (k_fds (vw w4) :: k_others (vw w4)) (k_pipes (vw w4)))) as (pid & w5 & Hr5 & He5 & H5).
  { intros wc Hvc. destruct (load_left child_opts id r t0 wc) as (ending & w' & Hrun & Hl); [|exact Ha| |done|].
    - rewrite Hvc, Hv4, Hv1. destruct Hrd as (t & fd & c & Hin & Hl). split_and!; [done|done|]. exists t, fd, c. split; [|done]. cbn. by right.
    - rewrite Hvc, Hv4, Hv1. done.
    - exists ending, w'. split; [done|]. by rewrite Hvc in Hl. }
  assert (Hstart : forall b (k : nat -> option Z -> ST W child_end) wb, runs (fun fuel => k fuel pid) w5 b wb ->
    runs (fun fuel => _ ← sys (sys_close watch);
      file ← (if has_slash (so_file opts) then sys (sys_realpath (so_file opts)) else mret (Some (so_file opts)));
      match file with
      | None => _ ← raise_from_errno; report_to_parent_and_exit fuel r
      | Some file =>
          rr ← sys (sys_chdir (cs "/"));
          match rr with
          | None => _ ← raise_from_errno; report_to_parent_and_exit fuel r
          | Some _ => sys_do (sys_umask 0);; sys_do sys_setsid;;
              (let child_opts := mk_opts file (so_flags opts) (so_fd_map opts) (so_argv opts) (so_envp opts) in
               pid ← fork_run (load_new_proc_img fuel child_opts r); k fuel pid)
          end
      end) w b wb).
  { intros b k wb Hk. eapply runs_step; [exact E1|]. eapply runs_step; [exact E2|]. eapply runs_step; [exact E3|].
    eapply (runs_step _ _ _ tt (mk_px (sys_umask 0 (px_os w3)) (px_errno w3) (px_error w3))); [reflexivity|].
    eapply (runs_step _ _ _ tt w4); [reflexivity|]. eapply runs_bind; [exact Hr5|exact Hk]. }
  destruct pid as [p|].
  - destruct H5 as (_ & ending & vc & Hleft & Hran). exists (Exited 0), w5. split; [apply Hstart; by apply runs_const|].
    destruct Hleft as [(T & Ht & Hn & Hps & Hcase)|([code ->] & Ho & Hps)].
    + left. exists T. split_and!; [done|done| |right; split; [by eexists|]].
      * destruct Hcase as [(-> & _ & Ho)|([code ->] & Ho)]; [specialize (Hran [] Ho)|specialize (Hran [T] Ho)]; rewrite Hran; cbn; by rewrite Hps, Hv4, Hv1.
      * destruct Hcase as [(-> & Hft & Ho)|([code ->] & Ho)]; [specialize (Hran [] Ho)|specialize (Hran [T] Ho)]; rewrite Hran; cbn; rewrite ?Hft; by rewrite Hv4, Hv1.
    + right. destruct Hps as [e Hps]. specialize (Hran [] Ho). rewrite Hran. cbn. split; [by exists 0|]. split; [by rewrite Hv4, Hv1|].
      exists e. by rewrite Hps, Hv4, Hv1.
  - destruct (Hfail w5) as (ending & w' & Hrun & Hl); [by rewrite (H5 : vw w5 = vw w4)|]. exists ending, w'. split; [|done]. apply Hstart. exact Hrun.
Qed.

(** What [mm_spawn] does: the descriptors of the caller are as they were.  On success one more process runs, with the descriptors that the
    options give; on failure an error is raised and no process is left, but if the creation of the pipe fails, which raises nothing, or
    if a signal interrupts the wait for the report, when the program may run. *)
Definition spawn_outcome (opts : startproc_opts) (w w' : W) (rv : Z) : Prop :=
  k_fds (vw w') = k_fds (vw w) /\
  let runs_program := exists T, program_table opts (k_fds (vw w)) T /\ k_others (vw w') = T :: k_others (vw w) in
  (rv = 0 /\ runs_program \/
   rv = -1 /\ k_others (vw w') = k_others (vw w) /\ ((exists e, px_error w' = Some e) \/ vw w' = vw w /\ px_error w' = px_error w) \/
   rv = -1 /\ runs_program /\ px_error w' = Some E_INTR).

(** The view once the pipe is made. *)
Definition piped (id rd wr : Z) (v : kview) : kview :=
  mk_view (<[rd := (PipeR id, true)]> (<[wr := (PipeW id, true)]> (k_fds v))) (k_others v) (<[id := []]> (k_pipes v)) (k_dirs v).

Definition pipe_new (id rd wr : Z) (v : kview) : Prop :=
  k_fds v !! rd = None /\ k_fds v !! wr = None /\ rd <> wr /\ no_writer id v /\ k_pipes v !! id = None.

Lemma pipe_ready id rd wr v : pipe_new id rd wr v ->
  delete rd (k_fds (piped id rd wr v)) = <[wr := (PipeW id, true)]> (k_fds v) /\
  forall dirs, child_ready id wr (mk_view (k_fds (piped id rd wr v)) (k_fds (piped id rd wr v) :: k_others v) (k_pipes (piped id rd wr v)) dirs).
Proof.
  intros (Hr & Hw & Hne & [Hn _] & _). split.
  { cbn. rewrite delete_insert_id; [done|]. by rewrite lookup_insert_ne. }
  intros dirs. split; [split|split].
  - cbn. rewrite lookup_insert_ne by done. apply lookup_insert_eq.
  - cbn. intros fd c H. destruct (decide (fd = rd)) as [->|]; [by rewrite lookup_insert_eq in H|]. rewrite lookup_insert_ne in H by done.
    destruct (decide (fd = wr)) as [->|]; [done|]. rewrite lookup_insert_ne in H by done. exfalso. apply Hn. by exists fd, c.
  - cbn. apply lookup_insert_eq.
  - exists (k_fds (piped id rd wr v)), rd, true. split; [by left|]. cbn. apply lookup_insert_eq.
Qed.

(** The view at the end of the child, and the pipe that it leaves. *)
Definition left_view (opts : startproc_opts) (id rd wr : Z) (v v' : kview) : Prop :=
  k_fds v' = k_fds (piped id rd wr v) /\
  ((exists T, program_table opts (k_fds v) T /\ ~ table_writes id T /\ k_others v' = T :: k_others v /\ k_pipes v' !! id = Some []) \/
   k_others v' = k_others v /\ exists e, k_pipes v' !! id = Some (errstate_bytes (Some e))).

Lemma fork_left opts id rd wr (child : nat -> ST W child_end) (w w1 : W) : vw w1 = piped id rd wr (vw w) ->
  (forall wc, vw wc = mk_view (k_fds (vw w1)) (k_fds (vw w1) :: k_others (vw w1)) (k_pipes (vw w1)) (k_dirs (vw w1)) ->
     exists ending w', runs child wc ending w' /\ child_left opts id (k_fds (vw w)) (k_fds (vw w1) :: k_others (vw w)) (<[id := []]> (k_pipes (vw w))) ending (vw w')) ->
  exists pid w2, runs (fun fuel => fork_run (child fuel)) w1 pid w2 /\
    match pid with None => vw w2 = vw w1 | Some p => 0 < p /\ left_view opts id rd wr (vw w) (vw w2) end.
Proof.
  intros Hv1 Hchild.
  destruct (fork_run_run child w1 (child_left opts id (k_fds (vw w)) (k_fds (vw w1) :: k_others (vw w)) (<[id := []]> (k_pipes (vw w))))) as (pid & w2 & Hr & _ & H2); [done|].
  exists pid, w2. split; [done|]. destruct pid as [p|]; [|done]. destruct H2 as (Hp & ending & vc & Hl & Hran). split; [done|].
  assert (Hoth : k_others (vw w1) = k_others (vw w)) by by rewrite Hv1. rewrite Hoth in Hran.
  destruct Hl as [(T & Ht & Hn & Hps & Hcase)|([code ->] & Ho & e & Hps)].
  - assert (H2 : vw w2 = mk_view (k_fds (vw w1)) (T :: k_others (vw w)) (k_pipes vc) (k_dirs (vw w1))).
    { destruct Hcase as [(-> & <- & Ho)|([code ->] & Ho)]; [by specialize (Hran [] Ho)|by specialize (Hran [T] Ho)]. }
    rewrite H2. split; [by rewrite Hv1|]. left. exists T. split_and!; [done|done|done|]. cbn. rewrite Hps. apply lookup_insert_eq.
  - specialize (Hran [] Ho). rewrite Hran. split; [by rewrite Hv1|]. right. split; [done|]. exists e. cbn. rewrite Hps. apply lookup_insert_eq.
Qed.

(** The parent closes its end and waits. *)
Lemma parent_wait opts id rd wr (w w2 w3 : W) : pipe_new id rd wr (vw w) -> left_view opts id rd wr (vw w) (vw w2) ->
  vw w3 = with_fds (delete wr (k_fds (vw w2))) (vw w2) ->
  exists rv w4, wait_for_load_process_result rd w3 = Some (rv, w4) /\ spawn_outcome opts w w4 rv.
Proof.
  intros (Hr & Hw & Hne & [Hn Hno] & _) (Hf2 & Hl) Hv3.
  assert (Hf3 : k_fds (vw w3) = <[rd := (PipeR id, true)]> (k_fds (vw w))).
  { rewrite Hv3. cbn. rewrite Hf2. cbn. rewrite delete_insert_ne by done. by rewrite delete_insert_id. }
  assert (Hown : ~ table_writes id (k_fds (vw w3))).
  { rewrite Hf3. intros (fd & c & H). destruct (decide (fd = rd)) as [->|]; [by rewrite lookup_insert_eq in H|].
    rewrite lookup_insert_ne in H by done. apply Hn. by exists fd, c. }
  assert (Hfd : k_fds (vw w3) !! rd = Some (PipeR id, true)) by (rewrite Hf3; apply lookup_insert_eq).
  assert (Hfin : forall w4, k_fds (vw w4) = delete rd (k_fds (vw w3)) -> k_fds (vw w4) = k_fds (vw w)) by (intros w4 ->; rewrite Hf3; by apply delete_insert_id).
  destruct Hl as [(T & Ht & HnT & Ho & Hp)|(Ho & e & Hp)].
  - destruct (wait_run rd id true [] w3) as (rv & w4 & E & Hf4 & Ho4 & Hc); [done|by rewrite Hv3| |by left|].
    { split; [done|]. rewrite Hv3. cbn. rewrite Ho. by constructor. }
    exists rv, w4. split; [done|]. split; [by apply Hfin|]. rewrite Hv3 in Ho4. cbn in Ho4. rewrite Ho in Ho4.
    destruct Hc as [[-> _]|[(-> & ? & _)|[-> He]]]; [left|done|right; right]; split_and!; try done; by exists T.
  - destruct (wait_run rd id true (errstate_bytes (Some e)) w3) as (rv & w4 & E & Hf4 & Ho4 & Hc); [done|by rewrite Hv3| |by right; exists e|].
    { split; [done|]. rewrite Hv3. cbn. by rewrite Ho. }
    exists rv, w4. split; [done|]. split; [by apply Hfin|]. rewrite Hv3 in Ho4. cbn in Ho4. rewrite Ho in Ho4. right. left.
    destruct Hc as [[-> Hnil]|[(-> & _ & He)|[-> He]]].
    + destruct (law_errstate (KernelLaws := KernelLaws0) e) as (Hlen & Hpos & _). rewrite Hnil in Hlen. cbn in Hlen. lia.
    + split_and!; [done|done|by left].
    + split_and!; [done|done|left; by eexists].
Qed.

(** The creation of the pipe. *)
Lemma pipe_run (w : W) : exists r w1, sys sys_pipe_cloexec w = Some (r, w1) /\
  match r with
  | None => vw w1 = vw w /\ px_error w1 = px_error w
  | Some (rd, wr) => exists id, pipe_new id rd wr (vw w) /\ vw w1 = piped id rd wr (vw w) /\ (exists os, sys_pipe_cloexec (px_os w) = (inr (rd, wr), os))
  end.
Proof.
  destruct (sys_run sys_pipe_cloexec w) as (r & w1 & E & Ho & He & Hr). exists r, w1. split; [done|]. pose proof (law_pipe (px_os w)) as L. assert (Hv1 : vw w1 = view (sys_pipe_cloexec (px_os w)).2) by (unfold vw; by rewrite Ho). rewrite Hv1. fold (vw w) in L.
  destruct (sys_pipe_cloexec (px_os w)) as [[e|[rd wr]] os]; cbn [fst snd] in *; [destruct Hr as [-> _]; by split|]. subst r.
  destruct L as (id & H1 & H2 & H3 & H4 & H5 & Hv). exists id. split_and!; [done|done|by exists os].
Qed.

(** A fork that fails: the ends of the pipe are closed and an error is raised. *)
Lemma fork_failed {A} (a : A) opts id rd wr (w w2 : W) : pipe_new id rd wr (vw w) -> vw w2 = piped id rd wr (vw w) ->
  exists w', (_ ← raise_from_errno; _ ← sys (sys_close rd); _ ← sys (sys_close wr); mret a) w2 = Some (a, w') /\ spawn_outcome opts w w' (-1).
Proof.
  intros (Hr & Hw & Hne & _) Hv2. destruct (raise_run w2) as (e & w3 & E3 & Ho3 & He3). destruct (close_run rd w3) as (r4 & w4 & E4 & Hv4 & He4).
  destruct (close_run wr w4) as (r5 & w5 & E5 & Hv5 & He5). exists w5. split.
  - by rewrite (st_bind_Some _ _ _ _ _ E3), (st_bind_Some _ _ _ _ _ E4), (st_bind_Some _ _ _ _ _ E5).
  - assert (Hv3 : vw w3 = piped id rd wr (vw w)) by (unfold vw at 1; rewrite Ho3; exact Hv2). rewrite Hv3 in Hv4. rewrite Hv4 in Hv5. cbn in Hv5.
    split; [rewrite Hv5; cbn; rewrite delete_insert_id; [by apply delete_insert_id|by rewrite lookup_insert_ne]|].
    right. left. split_and!; [done|by rewrite Hv5|]. left. exists e. congruence.
Qed.

Lemma spawn_child_run opts (w : W) :
  (forall rd wr os', sys_pipe_cloexec (px_os w) = (inr (rd, wr), os') -> avoids wr opts) ->
  exists rv pid w', runs (fun fuel => spawn_child fuel opts) w (rv, pid) w' /\ spawn_outcome opts w w' rv /\
    match pid with Some p => rv = 0 /\ 0 < p | None => rv = -1 end.
Proof.
  intros Ha. unfold spawn_child. destruct (pipe_run w) as ([[rd wr]|] & w1 & E1 & H1).
  2: { destruct H1 as [Hv He]. exists (-1), None, w1. split_and!; [eapply runs_step; [exact E1|by apply runs_const]| |done].
       split; [by rewrite Hv|]. right. left. split_and!; [done|by rewrite Hv|by right]. }
  destruct H1 as (id & Hnew & Hv1 & os' & Eos). destruct (pipe_ready id rd wr (vw w) Hnew) as [Hdel Hready].
  destruct (fork_left opts id rd wr (fun fuel => _ ← sys (sys_close rd); load_new_proc_img fuel opts wr) w w1 Hv1) as (pid & w2 & Hr2 & H2).
  { intros wc Hvc. destruct (close_run rd wc) as (rc & wc1 & Ec & Hvc1 & _). rewrite Hvc, Hv1 in Hvc1. cbn [k_fds k_others k_pipes with_fds] in Hvc1. rewrite Hdel in Hvc1.
    destruct (load_left opts id wr (k_fds (vw w)) wc1) as (ending & w' & Hr & Hl).
    - destruct (Hready (k_dirs (vw w))) as ([H3 H4] & H5 & H6). rewrite Hvc1. split; [split|by split]; cbn.
      + apply lookup_insert_eq.
      + intros fd c H. cbn in H4. apply (H4 fd c). rewrite lookup_insert_ne; [done|]. intros <-. destruct Hnew as (Hn & _ & Hne & _). by rewrite lookup_insert_ne, Hn in H by done.
    - by eapply Ha.
    - by rewrite Hvc1.
    - by destruct Hnew as (_ & ? & _).
    - exists ending, w'. split; [eapply runs_step; [exact Ec|exact Hr]|]. rewrite Hvc1 in Hl. cbn in Hl. by rewrite Hv1. }
  destruct pid as [p|].
  - destruct H2 as [Hp Hl]. destruct (close_run wr w2) as (r3 & w3 & E3 & Hv3 & _).
    destruct (parent_wait opts id rd wr w w2 w3 Hnew Hl Hv3) as (rv & w4 & E4 & Hout).
    assert (Hgo : forall rv' pid' w5, (if rv =? 0 then mret (rv, Some p) else _ ← sys (sys_waitpid p); mret (rv, None)) w4 = Some ((rv', pid'), w5) ->
      runs (fun fuel => pipefd ← mret (Some (rd, wr)); match pipefd with
        | None => mret (-1, None)
        | Some (watch_fd, report_fd) =>
            pid ← fork_run (_ ← sys (sys_close watch_fd); load_new_proc_img fuel opts report_fd);
            match pid with
            | None => _ ← raise_from_errno; _ ← sys (sys_close watch_fd); _ ← sys (sys_close report_fd); mret (-1, None)
            | Some pid => _ ← sys (sys_close report_fd); rv ← wait_for_load_process_result watch_fd;
                if rv =? 0 then mret (rv, Some pid) else _ ← sys (sys_waitpid pid); mret (rv, None)
            end end) w1 (rv', pid') w5).
    { intros rv' pid' w5 E5. eapply runs_step; [reflexivity|]. eapply runs_bind; [exact Hr2|]. eapply runs_step; [exact E3|]. eapply runs_step; [exact E4|]. by apply runs_const. }
    destruct (Z.eqb_spec rv 0) as [->|Hrv].
    + exists 0, (Some p), w4. split_and!; [|done|done..]. eapply runs_step; [exact E1|]. by apply Hgo.
    + destruct (neutral_run (sys_waitpid p) w4) as (r5 & w5 & E5 & Hv5 & He5); [apply law_waitpid|].
      assert (rv = -1) as -> by (destruct Hout as [_ [[? _]|[[? _]|[? _]]]]; done). exists (-1), None, w5. split_and!; [| |done].
      * eapply runs_step; [exact E1|]. apply Hgo. by rewrite (st_bind_Some _ _ _ _ _ E5).
      * unfold spawn_outcome in *. by rewrite Hv5, He5.
  - rewrite Hv1 in H2. destruct (fork_failed (-1, @None Z) opts id rd wr w w2 Hnew H2) as (w' & E & Hout). exists (-1), None, w'. split_and!; [|done|done].
    eapply runs_step; [exact E1|]. eapply runs_bind; [exact Hr2|]. by apply runs_const.
Qed.

Lemma spawn_daemon_run opts (w : W) :
  (forall rd wr os', sys_pipe_cloexec (px_os w) = (inr (rd, wr), os') -> avoids wr opts) ->
  exists rv w', runs (fun fuel => spawn_daemon fuel opts) w rv w' /\ spawn_outcome opts w w' rv.
Proof.
  intros Ha. unfold spawn_daemon. destruct (pipe_run w) as ([[rd wr]|] & w1 & E1 & H1).
  2: { destruct H1 as [Hv He]. exists (-1), w1. split; [eapply runs_step; [exact E1|by apply runs_const]|].
       split; [by rewrite Hv|]. right. left. split_and!; [done|by rewrite Hv|by right]. }
  destruct H1 as (id & Hnew & Hv1 & os' & Eos). destruct (pipe_ready id rd wr (vw w) Hnew) as [Hdel Hready].
  destruct (fork_left opts id rd wr (fun fuel => daemon_child fuel opts rd wr) w w1 Hv1) as (pid & w2 & Hr2 & H2).
  { intros wc Hvc. rewrite Hv1 in Hvc. destruct (daemon_left opts id wr rd (k_fds (vw w)) wc) as (ending & w' & Hr & Hl).
    - rewrite Hvc. apply Hready.
    - by eapply Ha.
    - by rewrite Hvc.
    - by destruct Hnew as (_ & ? & _).
    - exists ending, w'. split; [done|]. rewrite Hvc in Hl. by rewrite Hv1. }
  destruct pid as [p|].
  - destruct H2 as [Hp Hl]. destruct (close_run wr w2) as (r3 & w3 & E3 & Hv3 & _).
    destruct (neutral_run (sys_waitpid p) w3) as (r4 & w4 & E4 & Hv4 & _); [apply law_waitpid|]. rewrite Hv3 in Hv4.
    destruct (parent_wait opts id rd wr w w2 w4 Hnew Hl Hv4) as (rv & w5 & E5 & Hout). exists rv, w5. split; [|done].
    eapply runs_step; [exact E1|]. eapply runs_bind; [exact Hr2|]. eapply runs_step; [exact E3|]. eapply runs_step; [exact E4|]. by apply runs_const.
  - rewrite Hv1 in H2. destruct (fork_failed (-1) opts id rd wr w w2 Hnew H2) as (w' & E & Hout). exists (-1), w'. split; [|done].
    eapply runs_step; [exact E1|]. eapply runs_bind; [exact Hr2|]. by apply runs_const.
Qed.


End Spawn.

(** ** Descriptors of the program *)

(** The last element of the remapping for a descriptor. *)
Definition mapping_of (l : list mm_remap_fd) (fd : Z) : option mm_remap_fd := List.find (fun m => child_fd m =? fd) (rev l).

(** No element takes a descriptor that an earlier one has replaced. *)
Fixpoint in_order (l : list mm_remap_fd) : Prop :=
  match l with [] => True | m :: l => Forall (fun m' => parent_fd m' <> child_fd m \/ parent_fd m = child_fd m) l /\ in_order l end.

Lemma mapping_of_cons m l fd :
  mapping_of (m :: l) fd = match mapping_of l fd with Some m' => Some m' | None => if child_fd m =? fd then Some m else None end.
Proof.
  unfold mapping_of. cbn [rev]. rewrite <- (List.rev_involutive l) at 2. rewrite List.rev_involutive.
  induction (rev l) as [|m' l' IH]; cbn; [by destruct (_ =? _)|]. by destruct (child_fd m' =? fd).
Qed.

Lemma remap_one_lookup m t t' : parent_fd m <> -1 -> remap_one m t = Some t' ->
  (child_fd m <> parent_fd m -> is_Some (t !! parent_fd m)) /\
  forall i, t' !! i = if decide (i = child_fd m) then (fun p => (p.1, false)) <$> t !! parent_fd m else t !! i.
Proof.
  intros Hp. unfold remap_one. rewrite (proj2 (Z.eqb_neq _ _) Hp). destruct (Z.eqb_spec (parent_fd m) (child_fd m)) as [E|E].
  - intros [= <-]. split; [done|]. intros i. rewrite lookup_mark. case_decide; [by subst; rewrite E|done].
  - destruct (t !! parent_fd m) as [[o c]|]; [|done]. intros [= <-]. split; [by eexists|]. intros i. cbn.
    case_decide; [subst; by rewrite lookup_insert_eq|by rewrite lookup_insert_ne].
Qed.

Lemma remap_spec_lookup l t t' : Forall (fun m => parent_fd m <> -1) l -> in_order l -> remap_spec l t = Some t' -> forall i,
  t' !! i = match mapping_of l i with Some m => (fun p => (p.1, false)) <$> t !! parent_fd m | None => t !! i end.
Proof.
  intros Hl. revert t. induction Hl as [|m l Hm Hl IH]; intros t Ho Hs i; cbn [remap_spec] in Hs; [by injection Hs as ->|].
  destruct (remap_one m t) as [t1|] eqn:E; [|done]. destruct Ho as [Hf Ho]. cbn [mbind option_bind] in Hs.
  rewrite (IH t1 Ho Hs i), mapping_of_cons. destruct (remap_one_lookup m t t1 Hm E) as [_ H1].
  destruct (mapping_of l i) as [m'|] eqn:Em.
  - apply List.find_some in Em as [Hin _]. apply List.in_rev, list_elem_of_In in Hin. rewrite Forall_forall in Hf. specialize (Hf m' Hin).
    rewrite H1. case_decide as Hd; [|done]. destruct Hf as [?|Hpc]; [done|]. rewrite Hd, Hpc, <- option_fmap_compose. by destruct (t !! child_fd m).
  - rewrite H1. destruct (Z.eqb_spec (child_fd m) i) as [Ei|Ei]; [by rewrite decide_True|by rewrite decide_False].
Qed.

(** The descriptors of a program started by [mm_spawn], when the open descriptors can be listed, no mapping closes a descriptor and none takes
    one that an earlier mapping has replaced: a descriptor that is mapped refers to what its parent descriptor refers to in the caller, the
    standard descriptors that are not mapped and not closed on [exec] are kept, and there is no other. *)
Theorem program_descriptors (opts : startproc_opts) (t0 t : fdtable) (fd : Z) :
  has (so_flags opts) MM_SPAWN_KEEP_FDS = false -> Forall (fun m => parent_fd m <> -1) (so_fd_map opts) -> in_order (so_fd_map opts) ->
  remap_spec (so_fd_map opts) (closed_from 3 t0) = Some t ->
  program_table opts t0 (exec_view t) /\
  fst <$> exec_view t !! fd =
    match mapping_of (so_fd_map opts) fd with
    | Some m => fst <$> t0 !! parent_fd m
    | None => if fd <? 3 then fst <$> exec_view t0 !! fd else None
    end.
Proof.
  intros Hk Hl Ho Hs. split; [unfold program_table; rewrite Hk; exists (closed_from 3 t0), t; split_and!; [by left|done|done]|].
  pose proof (remap_spec_lookup _ _ _ Hl Ho Hs fd) as H. destruct (mapping_of (so_fd_map opts) fd) as [m|].
  - rewrite lookup_closed in H. destruct (t0 !! parent_fd m) as [[o c]|]; cbn in H.
    + by rewrite (proj2 (lookup_exec t fd o false) (conj H eq_refl)).
    + destruct (exec_view t !! fd) as [[o c]|] eqn:E; [|done]. apply lookup_exec in E as [E _]. congruence.
  - rewrite lookup_closed in H. destruct (Z.ltb_spec fd 3).
    + rewrite (proj2 (Z.leb_gt 3 fd)) in H by lia. assert (Ht : t !! fd = t0 !! fd) by (rewrite H; by destruct (t0 !! fd) as [[]|]).
      unfold exec_view. rewrite !map_lookup_filter, Ht. done.
    + rewrite (proj2 (Z.leb_le 3 fd)) in H by lia. destruct (exec_view t !! fd) as [[o c]|] eqn:E; [|done]. apply lookup_exec in E as [E _].
      rewrite H in E. by destruct (t0 !! fd) as [[]|].
Qed.

(** ** A kernel *)

Module KernelDemo.

(** The view is the state, with the signals that will interrupt writes. *)
Record os := mk_os { os_view : kview; signals : nat }.

Definition set_fds (t : fdtable) (s : os) : os := mk_os (with_fds t (os_view s)) (signals s).
Definition fds (s : os) : fdtable := k_fds (os_view s).
Definition refused {A : Type} (s : os) : (errcode + A) * os := (inl E_NOSYS, s).

Definition in_int (t : fdtable) : bool := forallb (fun k => (0 <=? k) && (k <? 2 ^ 31)) (map_to_list t).*1.

Definition do_opendir (path : cstr) (s : os) : (errcode + Z) * os :=
  let d := PosixDemo.new_key (fds s) in
  let t := <[d := (OFile 0, true)]> (fds s) in
  let h := PosixDemo.new_key (k_dirs (os_view s)) in
  if bool_decide (path = PROC_SELF_FD) && in_int t
  then (inr h, mk_os (with_dirs (<[h := (d, [cs "."; cs ".."] ++ map printf_int (map_to_list t).*1)]> (k_dirs (os_view s))) (with_fds t (os_view s))) (signals s))
  else (inl E_NOENT, s).

Definition do_readdir (h : Z) (s : os) : option (cstr * dtype) * os :=
  match k_dirs (os_view s) !! h with
  | Some (d, names) => ((fun n => (n, DT_LNK)) <$> head names, mk_os (with_dirs (<[h := (d, tail names)]> (k_dirs (os_view s))) (os_view s)) (signals s))
  | None => (None, s)
  end.

Definition do_closedir (h : Z) (s : os) : os :=
  match k_dirs (os_view s) !! h with
  | Some (d, _) => mk_os (with_dirs (delete h (k_dirs (os_view s))) (with_fds (delete d (fds s)) (os_view s))) (signals s)
  | None => s
  end.

Definition do_dup2 (a b : Z) (s : os) : (errcode + unit) * os :=
  match fds s !! a with Some (o, _) => (inr tt, set_fds (<[b := (o, false)]> (fds s)) s) | None => (inl E_BADF, s) end.

(** Three bytes at most, once no signal is left. *)
Definition do_write (fd : Z) (buf : cstr) (s : os) : (errcode + nat) * os :=
  match signals s with
  | S n => (inl E_INTR, mk_os (os_view s) n)
  | O =>
      match fds s !! fd with
      | Some (PipeW id, _) =>
          let d := default [] (k_pipes (os_view s) !! id) in
          (inr (length (take 3 buf)), mk_os (with_pipes (<[id := d ++ take 3 buf]> (k_pipes (os_view s))) (os_view s)) O)
      | Some _ => (inr (length buf), s)
      | None => (inl E_BADF, s)
      end
  end.

Definition do_read (fd : Z) (n : nat) (s : os) : (errcode + cstr) * os :=
  match fds s !! fd with
  | Some (PipeR id, _) =>
      let d := default [] (k_pipes (os_view s) !! id) in
      (inr (take n d), mk_os (with_pipes (<[id := drop n d]> (k_pipes (os_view s))) (os_view s)) (signals s))
  | _ => (inl E_BADF, s)
  end.

Definition writes (id : Z) (t : fdtable) : bool := existsb (fun p => bool_decide (fst p = PipeW id)) (map_to_list t).*2.

Definition do_pipe (s : os) : (errcode + Z * Z) * os :=
  let id := PosixDemo.new_key (k_pipes (os_view s)) in
  let r := PosixDemo.new_key (fds s) in
  if writes id (fds s) || existsb (writes id) (k_others (os_view s)) then (inl E_MFILE, s)
  else (inr (r, r + 1),
        mk_os (with_pipes (<[id := []]> (k_pipes (os_view s))) (with_fds (<[r := (PipeR id, true)]> (<[r + 1 := (PipeW id, true)]> (fds s))) (os_view s))) (signals s)).

Definition do_fork (s : os) : (errcode + Z * os) * os :=
  let v := os_view s in (inr (100, mk_os (mk_view (k_fds v) (k_fds v :: k_others v) (k_pipes v) (k_dirs v)) (signals s)), s).

Definition do_ran (pid : Z) (ending : child_end) (child s : os) : os :=
  let new := take (length (k_others (os_view child)) - S (length (k_others (os_view s)))) (k_others (os_view child)) in
  mk_os (mk_view (fds s) (match ending with Loaded => [fds child] | Exited _ => [] end ++ new ++ k_others (os_view s)) (k_pipes (os_view child)) (k_dirs (os_view s))) (signals s).

(** One program can be executed. *)
Definition do_exec (file : cstr) (s : os) : (errcode + unit) * os :=
  if bool_decide (file = cs "/bin/prog") || bool_decide (file = cs "prog") then (inr tt, set_fds (exec_view (fds s)) s) else (inl E_NOENT, s).

#[global] Instance files : PosixFile os := {|
  sys_open _ _ _ := refused; sys_openat _ _ _ := refused;
  sys_close fd s := (inr tt, set_fds (delete fd (fds s)) s);
  sys_read := do_read; sys_write := do_write;
  sys_copy_file_range _ _ := refused; sys_ficlone _ _ := refused; sys_fsync _ := refused; sys_lseek _ _ _ := refused; sys_ftruncate _ _ := refused;
  sys_dup _ := refused; sys_dup2 := do_dup2; sys_pipe := refused; sys_isatty _ := refused;
  sys_rename _ _ := refused; sys_unlink _ := refused; sys_unlinkat _ _ _ := refused; sys_link _ _ := refused; sys_symlink _ _ := refused;
  sys_readlink _ _ := refused; sys_access _ _ := refused; sys_chdir _ s := (inr tt, s); sys_getcwd _ := refused; sys_mkdir _ _ := refused;
  sys_rmdir _ := refused; sys_fstat _ := refused; sys_stat _ := refused; sys_lstat _ := refused; sys_fstatat _ _ _ := refused;
  sys_futimens _ _ := refused; sys_utimensat _ _ _ := refused;
  sys_opendir := do_opendir; sys_fdopendir _ := refused; sys_readdir := do_readdir; sys_rewinddir _ s := s; sys_closedir := do_closedir
|}.

(** The error state has four bytes, the first one tells the error. *)
Definition err_byte (e : option errcode) : Z := match e with Some E_NOENT => 1 | Some E_BADF => 2 | _ => 0 end.

#[global] Instance processes : PosixProc os := {|
  fcntl_getfd fd s := match fds s !! fd with Some (_, c) => (inr (if c : bool then 1 else 0), s) | None => (inl E_BADF, s) end;
  fcntl_setfd fd fl s := match fds s !! fd with Some (o, _) => (inr tt, set_fds (<[fd := (o, Z.testbit fl 0)]> (fds s)) s) | None => (inl E_BADF, s) end;
  sys_pipe_cloexec := do_pipe; sys_fork := do_fork; sys_ran := do_ran;
  sys_execve file _ _ := do_exec file; sys_execvpe file _ _ := do_exec file;
  sys_waitpid _ s := (inr 0, s); sys_realpath file s := (inr file, s); sys_umask _ s := s; sys_setsid s := s; environ _ := [];
  errstate_size := 4;
  errstate_bytes e := [ascii_of_N (Z.to_N (err_byte e)); "000"%char; "000"%char; "000"%char];
  errstate_of b := match head b with Some "001"%char => Some E_NOENT | Some "002"%char => Some E_BADF | _ => Some (E_OTHER 0) end
|}.

Lemma writes_spec id t : writes id t = false -> ~ table_writes id t.
Proof.
  intros H (fd & c & Hl). apply not_true_iff_false in H. apply H. apply existsb_exists. exists (PipeW id, c).
  split; [|by apply bool_decide_eq_true]. apply list_elem_of_In, list_elem_of_fmap. exists (fd, (PipeW id, c)). split; [done|]. by apply elem_of_map_to_list.
Qed.

Lemma listed_names t : in_int t = true -> names_fds ([cs "."; cs ".."] ++ map printf_int (map_to_list t).*1) t.
Proof.
  intros H. unfold in_int in H. rewrite forallb_forall in H.
  assert (Hin : forall k, k ∈ (map_to_list t).*1 -> 0 <= k < 2 ^ 31).
  { intros k Hk. apply list_elem_of_In, H in Hk. apply andb_prop in Hk as [H1 H2]. apply Z.leb_le in H1. apply Z.ltb_lt in H2. lia. }
  split.
  - cbn [app]. constructor; [split; [done|by eexists]|]. constructor; [split; [done|by eexists]|].
    apply Forall_forall. intros name Hn. apply list_elem_of_In, in_map_iff in Hn as (k & <- & Hk). apply list_elem_of_In, Hin in Hk.
    pose proof (scan_print_int k Hk) as E. split; [|by rewrite E]. intros Hs. unfold scanf_int, scan_int in E. rewrite Hs in E. by vm_compute in E.
  - intros fd [x Hx]. assert (Hk : fd ∈ (map_to_list t).*1) by (apply list_elem_of_fmap; exists (fd, x); split; [done|by apply elem_of_map_to_list]).
    exists (printf_int fd). split; [|by apply scan_print_int, Hin]. apply elem_of_app. right. by apply list_elem_of_In, in_map, list_elem_of_In.
Qed.

#[global] Instance kernel_laws : KernelLaws os os_view signals.
Proof.
  split.
  - intros fd s. cbn. unfold fds. destruct (k_fds (os_view s) !! fd) as [[o []]|] eqn:E; cbn; split; try done; by exists o.
  - intros fd fl s o c H. cbn. unfold fds. by rewrite H.
  - intros a b s Hab. cbn. unfold do_dup2, fds. destruct (k_fds (os_view s) !! a) as [[o c]|] eqn:E; [|done]. by exists o, c.
  - done.
  - intros path s _. cbn. unfold do_opendir. destruct (bool_decide _ && in_int _) eqn:E; [|done]. apply andb_prop in E as [_ E]. cbn.
    do 3 eexists. split_and!; [apply PosixDemo.new_key_fresh|apply PosixDemo.new_key_fresh|by apply listed_names|done].
  - intros h s d names H. cbn. unfold do_readdir. rewrite H. cbn. split; [by destruct names|done].
  - intros h s d names H. cbn. unfold do_closedir. by rewrite H.
  - intros s. cbn. unfold do_pipe. destruct (writes _ _ || existsb _ _) eqn:E; [done|]. apply orb_false_iff in E as [E1 E2].
    exists (PosixDemo.new_key (k_pipes (os_view s))). split_and!; [apply PosixDemo.new_key_fresh| |lia| |apply PosixDemo.new_key_fresh|done].
    + destruct (k_fds (os_view s) !! (PosixDemo.new_key (fds s) + 1)) as [x|] eqn:E; [|done].
      destruct (PosixDemo.new_key_above (fds s)) as [_ Hk]. specialize (Hk _ (mk_is_Some _ _ E)). lia.
    + split; [by apply writes_spec|]. apply Forall_forall. intros t Ht. apply writes_spec. destruct (writes _ t) eqn:Ew; [|done].
      assert (Hx : existsb (writes (PosixDemo.new_key (k_pipes (os_view s)))) (k_others (os_view s)) = true) by (apply existsb_exists; exists t; by split; [apply list_elem_of_In|]).
      by rewrite Hx in E2.
  - intros fd buf s id c d H1 H2 Hb _. cbn. unfold do_write, fds. destruct (signals s) as [|n] eqn:E; cbn; [|split_and!; [done|done|lia]].
    rewrite H1, H2. cbn [default]. split; [|f_equal; f_equal; rewrite length_take; destruct buf as [|a [|b [|x l]]]; done].
    rewrite length_take. destruct buf; [done|]. cbn [length]. lia.
  - intros fd n s id c d H1 H2 _. cbn. unfold do_read, fds. by rewrite H1, H2.
  - done.
  - intros pid ending child s new H. cbn. unfold do_ran. cbn. rewrite H, length_app. cbn [length].
    replace (length new + S (length (k_others (os_view s))) - S (length (k_others (os_view s))))%nat with (length new) by lia. by rewrite take_app_length.
  - intros file argv envp s. cbn. destruct (has_slash file); unfold do_exec; by destruct (_ || _).
  - done.
  - done.
  - done.
  - done.
  - done.
  - intros e. cbn. split_and!; [done|lia|]. destruct e; by eexists.
Qed.

(** Three standard descriptors, a file, and a descriptor closed by [exec]. *)
Definition start : px_world os :=
  mk_px (mk_os (mk_view (list_to_map [(0, (OFile 10, false)); (1, (OFile 11, false)); (2, (OFile 12, false)); (5, (OFile 13, false)); (6, (OFile 14, true))]) [] ∅ ∅) 2) E_IO None.

Definition result (r : option ((Z * option Z) * px_world os)) : option (Z * option Z * option errcode * list fdtable) :=
  (fun p => (p.1, px_error p.2, k_others (os_view (px_os p.2)))) <$> r.

(** The program gets the standard descriptors and what is mapped. *)
Example spawned : result (mm_spawn 20 (Some (cs "prog")) [mk_remap 3 5] 0 None None start) =
  Some ((0, Some 100), None, [list_to_map [(0, (OFile 10, false)); (1, (OFile 11, false)); (2, (OFile 12, false)); (3, (OFile 13, false))]]).
Proof. vm_compute. reflexivity. Qed.

(** The error of the child is that of the caller. *)
Example spawn_missing : result (mm_spawn 20 (Some (cs "/missing")) [] MM_SPAWN_DAEMONIZE None None start) = Some ((-1, None), Some E_NOENT, []).
Proof. vm_compute. reflexivity. Qed.

(** A mapping on the number of the report pipe: the program is not found, but the value is 0. *)
Example error_lost : result (mm_spawn 20 (Some (cs "/missing")) [mk_remap 8 1] 0 None None start) = Some ((0, Some 100), None, []).
Proof. vm_compute. reflexivity. Qed.

(** A descriptor to close in the child makes the spawn fail. *)
Example close_refused : result (mm_spawn 20 (Some (cs "prog")) [mk_remap 2 (-1)] 0 None None start) = Some ((-1, None), Some E_BADF, []).
Proof. vm_compute. reflexivity. Qed.

(** Two descriptors cannot be exchanged. *)
Example exchange_lost : (fun t => (t !! 1, t !! 2)) <$> remap_spec [mk_remap 1 2; mk_remap 2 1] (fds (px_os start)) = Some (Some (OFile 12, false), Some (OFile 12, false)).
Proof. vm_compute. reflexivity. Qed.

(** After a failure of [mm_execv] the descriptors of the process are not what they were. *)
Example execv_failed : (fun p => (p.1, fds (px_os p.2) !! 5, fds (px_os p.2) !! 1)) <$> mm_execv 20 (Some (cs "/missing")) [mk_remap 1 2] 0 None None start =
  Some (Some (-1), Some (OFile 13, true), Some (OFile 12, false)).
Proof. vm_compute. reflexivity. Qed.

End KernelDemo.


Lemma program_descriptors_witness :
  program_table (mk_opts (cs "prog") 0 [mk_remap 3 5; mk_remap 0 6] [] []) (KernelDemo.fds (px_os KernelDemo.start))
    (exec_view (default ∅ (remap_spec [mk_remap 3 5; mk_remap 0 6] (closed_from 3 (KernelDemo.fds (px_os KernelDemo.start)))))) /\
  fst <$> exec_view (default ∅ (remap_spec [mk_remap 3 5; mk_remap 0 6] (closed_from 3 (KernelDemo.fds (px_os KernelDemo.start))))) !! 0 = Some (OFile 14).
Proof.
  apply (program_descriptors (mk_opts (cs "prog") 0 [mk_remap 3 5; mk_remap 0 6] [] []) (KernelDemo.fds (px_os KernelDemo.start)) _ 0).
  - reflexivity.
  - repeat constructor; discriminate.
  - cbn. split_and!; [|by constructor|done]. constructor; [left; discriminate|constructor].
  - vm_compute. reflexivity.
Defined.
