(* ===== verification/Socket.v ===== *)
(** * Sockets, common part

    [socket.c]: the errors of name resolution, and the sockets connected from an URI.  The resolution of names by the C library and
    the sockets of each platform are the classes [Resolver] and [SocketApi], in a monad whose state has the last error.
    [None] of the monad is undefined behaviour. *)

From S2P Require Import Prelude CStr ScanInt Errcode Effects.

(** ** Name resolution *)

(** The values that [getaddrinfo] and [getnameinfo] return. *)
Inductive eai :=
  | EAI_ADDRFAMILY | EAI_AGAIN | EAI_FAMILY | EAI_SERVICE | EAI_BADFLAGS | EAI_FAIL | EAI_MEMORY | EAI_NODATA | EAI_NONAME
  | EAI_OVERFLOW | EAI_SOCKTYPE | EAI_SYSTEM | EAI_OTHER (code : Z).

#[export] Instance eai_eq_dec : EqDecision eai.
Proof. solve_decision. Defined.

(** An address: the port is the 16-bit member of the structure, as a native integer. *)
Record sockaddr := mk_sockaddr { sa_family : Z; sa_port : Z; sa_rest : cstr }.

Record addrinfo := mk_addrinfo { ai_flags : Z; ai_family : Z; ai_socktype : Z; ai_protocol : Z; ai_addr : sockaddr }.

Definition AF_UNSPEC : Z := 0.
Definition AF_INET : Z := 2.
Definition SOCK_STREAM : Z := 1.
Definition SOCK_DGRAM : Z := 2.
Definition AI_CANONNAME : Z := 0x2.

(** Constants and calls of the platform: [has_addrfamily] says if [EAI_ADDRFAMILY] is defined. *)
Class Resolver (S : Type) := {
  AF_INET6 : Z;
  AI_NUMERICSERV : Z;
  has_addrfamily : bool;
  getaddrinfo : option cstr -> option cstr -> option addrinfo -> ST S (eai + list addrinfo);
  getnameinfo : sockaddr -> Z -> Z -> Z -> ST S (eai + cstr * cstr)
}.

Definition is_numeric_string (str : option cstr) : bool :=
  match str with Some (_ :: _ as s) => forallb is_digit s | _ => false end.

Section Resolution.

Context {S : Type} `{!Resolver S}.

(** Error cases with the error number and the message. *)
Definition eai_error_cases : list (eai * errcode * cstr) :=
  (if has_addrfamily then [(EAI_ADDRFAMILY, E_ADDRNOTAVAIL, cs "host does not have network address in requested family")] else []) ++
  [(EAI_AGAIN, E_AGAIN, cs "The name server returned a temporary failure. Try again later.");
   (EAI_FAMILY, E_AFNOSUPPORT, cs "Address family was not recognized or address length was invalid for the specified family");
   (EAI_SERVICE, E_NOTFOUND, cs "Requested service not available for the requested socket type");
   (EAI_BADFLAGS, E_INVAL, cs "invalid value in flags");
   (EAI_FAIL, E_IO, cs "A non recoverable error occurred");
   (EAI_MEMORY, E_NOMEM, cs "Out of memory");
   (EAI_NODATA, E_NONAME, cs "Node is not known");
   (EAI_NONAME, E_NONAME, cs "Node is not known");
   (EAI_OVERFLOW, E_OVERFLOW, cs "host or serv buffer is too small");
   (EAI_SOCKTYPE, E_PROTOTYPE, cs "requested socket type not supported or inconsistent with protocol")].

(** [None] is -1: the error is that of the system. *)
Definition translate_eai_to_errnum (e : eai) : option (errcode * cstr) :=
  '(_, errnum, msg) ← List.find (fun c => bool_decide (c.1.1 = e)) eai_error_cases; Some (errnum, msg).

(** [inl None] is -1. *)
Definition internal_getaddrinfo (node service : option cstr) (hints : option addrinfo) : ST S (option (errcode * cstr) + list addrinfo) :=
  rv ← getaddrinfo node service hints;
  mret (match rv with
        | inr res => inr res
        | inl e =>
            let flags := match hints with Some h => ai_flags h | None => 0 end in
            if bool_decide (node = None) && bool_decide (service = None) then inl (Some (E_INVAL, cs "Both node and service are NULL"))
            else if negb (Z.land flags AI_CANONNAME =? 0) && bool_decide (node = None)
            then inl (Some (E_INVAL, cs "FQDN requested but node is NULL"))
            else if negb (Z.land flags AI_NUMERICSERV =? 0) && negb (is_numeric_string service)
            then inl (Some (E_INVAL, cs "while requested, service is not numeric port-number string"))
            else inl (translate_eai_to_errnum e)
        end).

Definition internal_getnameinfo (addr : sockaddr) (hostlen servlen flags : Z) : ST S (option (errcode * cstr) + cstr * cstr) :=
  rv ← getnameinfo addr hostlen servlen flags;
  mret (match rv with inr r => inr r | inl e => inl (translate_eai_to_errnum e) end).

End Resolution.

(** ** Sockets of a platform *)

(** The operations of [socket-posix.c] or [socket-win32.c]; the error state is saved and set by [mm_save_errorstate] and
    [mm_set_errorstate]. *)
Class SocketApi (S : Type) := {
  mm_getaddrinfo : option cstr -> option cstr -> option addrinfo -> ST S (option (list addrinfo));
  mm_socket : Z -> Z -> Z -> ST S Z;
  mm_connect : Z -> sockaddr -> ST S Z;
  close_socket : Z -> ST S Z;
  raise_socket_error : errcode -> ST S Z;
  error_state : S -> option errcode;
  set_error_state : option errcode -> S -> S
}.

Definition protocol_services : list (cstr * Z) := [(cs "tcp", SOCK_STREAM); (cs "udp", SOCK_DGRAM)].

Definition get_socktype_from_protocol_services (service : cstr) : Z :=
  match List.find (fun p => bool_decide (p.1 = service)) protocol_services with Some p => p.2 | None => 0 end.

(** ** URIs *)

(** The conversion [%[...]]: the longest prefix, that is not empty. *)
Fixpoint span_while (f : ascii -> bool) (s : cstr) : cstr * cstr :=
  match s with
  | c :: s' => if f c then let '(a, r) := span_while f s' in (c :: a, r) else ([], s)
  | [] => ([], [])
  end.

Fixpoint match_literal (p s : cstr) : option cstr :=
  match p, s with
  | [], _ => Some s
  | c :: p, d :: s => if bool_decide (c = d) then match_literal p s else None
  | _ :: _, [] => None
  end.

Definition is_host_char (c : ascii) : bool := negb (bool_decide (c = "/"%char) || bool_decide (c = ":"%char)).

Definition SERVICE_SIZE : nat := 16.

(** [sscanf] of the URI: the service, the host and the port; [Some None] if there are fewer than two fields, [None] if the service does
    not fit in its array. *)
Definition parse_uri (uri : cstr) : option (option (cstr * cstr * Z)) :=
  let '(service, s) := span_while is_lower uri in
  if bool_decide (service = []) then Some None
  else if (SERVICE_SIZE <=? length service)%nat then None
  else
    match match_literal (cs "://") s with
    | None => Some None
    | Some s =>
        let '(host, s) := span_while is_host_char s in
        if bool_decide (host = []) then Some None
        else
          match s with
          | ":"%char :: s => port ← scanf_int s; Some (Some (service, host, match port with Some p => p | None => -1 end))
          | _ => Some (Some (service, host, -1))
          end
    end.

Section Client.

Context {S : Type} `{!Resolver S, !SocketApi S}.

(** The port is put in the structure without conversion to the order of the network. *)
Definition override_port (port : Z) (ai : addrinfo) : addrinfo :=
  if (0 <? port) && ((ai_family ai =? AF_INET6) || (ai_family ai =? AF_INET))
  then mk_addrinfo (ai_flags ai) (ai_family ai) (ai_socktype ai) (ai_protocol ai)
         (mk_sockaddr (sa_family (ai_addr ai)) (wrap_u 16 port) (sa_rest (ai_addr ai)))
  else ai.

(** The loop on the addresses. *)
Fixpoint connect_loop (port : Z) (errstate : option errcode) (l : list addrinfo) : ST S Z :=
  match l with
  | [] => mret (-1)
  | ai :: l =>
      let ai := override_port port ai in
      fd ← mm_socket (ai_family ai) (ai_socktype ai) 0;
      ok ← (if fd <? 0 then mret false else rv ← mm_connect fd (ai_addr ai); mret (rv =? 0));
      if ok : bool then st_modify (set_error_state errstate);; mret fd
      else _ ← close_socket fd; connect_loop port errstate l
  end.

Definition create_connected_socket (service host : cstr) (port : Z) (hints : addrinfo) : ST S Z :=
  res ← mm_getaddrinfo (Some host) (Some service) (Some hints);
  match res with
  | None => mret (-1)
  | Some res => errstate ← st_gets error_state; connect_loop port errstate res
  end.

Definition mm_create_sockclient (uri : option cstr) : ST S Z :=
  match uri with
  | None => raise_socket_error E_INVAL
  | Some uri =>
      fields ← st_option (parse_uri uri);
      match fields with
      | None => raise_socket_error E_INVAL
      | Some (service, host, port) =>
          let socktype := get_socktype_from_protocol_services service in
          let hints flags := mk_addrinfo flags AF_UNSPEC socktype 0 (mk_sockaddr 0 0 []) in
          if socktype =? 0 then create_connected_socket service host port (hints 0)
          else if port <? 0 then raise_socket_error E_INVAL
          else create_connected_socket (printf_int port) host (-1) (hints AI_NUMERICSERV)
      end
  end.

End Client.

(** ** URIs of a service, a host and a port *)

Lemma span_while_app f a c s : forallb f a = true -> f c = false -> span_while f (a ++ c :: s) = (a, c :: s).
Proof.
  induction a as [|x a IH]; cbn [app span_while forallb]; intros Ha Hc; [by rewrite Hc|].
  apply andb_prop in Ha as [-> Ha]. by rewrite (IH Ha Hc).
Qed.

Definition valid_service (service : cstr) : Prop := service <> [] /\ forallb is_lower service = true /\ (length service < SERVICE_SIZE)%nat.
Definition valid_host (host : cstr) : Prop := host <> [] /\ forallb is_host_char host = true.

Lemma parse_uri_roundtrip service host port :
  valid_service service -> valid_host host -> 0 <= port < 2 ^ 31 ->
  parse_uri (service ++ cs "://" ++ host ++ cs ":" ++ printf_int port) = Some (Some (service, host, port)).
Proof.
  intros (Hs1 & Hs2 & Hs3) (Hh1 & Hh2) Hp. unfold parse_uri. cbn [cs list_ascii_of_string app].
  rewrite (span_while_app is_lower service ":"%char) by done. rewrite bool_decide_false by done.
  rewrite (proj2 (Nat.leb_gt SERVICE_SIZE (length service))) by done. cbn [match_literal]. rewrite !bool_decide_true by done.
  rewrite (span_while_app is_host_char host ":"%char) by done. rewrite bool_decide_false by done.
  by rewrite scan_print_int.
Qed.

(** ** Connections *)

(** [socks]: the open sockets with the address they are connected to.  The resolver and the network are functions: the addresses of
    a name, the families and types of sockets that exist, and the addresses that accept connections. *)
Class SocketLaws (S : Type) `{!SocketApi S} (socks : S -> gmap Z (option sockaddr)) (resolve : cstr -> cstr -> addrinfo -> option (list addrinfo))
    (has_socket : Z -> Z -> bool) (accepts : sockaddr -> bool) : Prop := {
  law_getaddrinfo node service hints w : exists w', mm_getaddrinfo (Some node) (Some service) (Some hints) w = Some (resolve node service hints, w') /\
    socks w' = socks w /\ (resolve node service hints <> None -> error_state w' = error_state w);
  law_socket family type w : exists fd w', mm_socket family type 0 w = Some (fd, w') /\
    if has_socket family type then 0 <= fd /\ socks w !! fd = None /\ socks w' = <[fd := None]> (socks w) else fd = -1 /\ socks w' = socks w;
  law_connect fd addr w : socks w !! fd = Some None -> exists rv w', mm_connect fd addr w = Some (rv, w') /\
    if accepts addr then rv = 0 /\ socks w' = <[fd := Some addr]> (socks w) else rv = -1 /\ socks w' = socks w;
  law_close fd w : exists rv w', close_socket fd w = Some (rv, w') /\ socks w' = if fd =? -1 then socks w else delete fd (socks w);
  law_set_error e w : socks (set_error_state e w) = socks w /\ error_state (set_error_state e w) = e
}.

Section Connected.

Context {S : Type} `{!Resolver S, !SocketApi S} (socks : S -> gmap Z (option sockaddr)) (resolve : cstr -> cstr -> addrinfo -> option (list addrinfo))
  (has_socket : Z -> Z -> bool) (accepts : sockaddr -> bool) `{!SocketLaws S socks resolve has_socket accepts}.

Definition reachable (ai : addrinfo) : bool := has_socket (ai_family ai) (ai_socktype ai) && accepts (ai_addr ai).

(** What the loop makes: the first reachable address is connected, and no other socket stays. *)
Definition connected (target : option addrinfo) (e : option errcode) (w w' : S) (fd : Z) : Prop :=
  match target with
  | Some ai => 0 <= fd /\ socks w !! fd = None /\ socks w' = <[fd := Some (ai_addr ai)]> (socks w) /\ error_state w' = e
  | None => fd = -1 /\ socks w' = socks w
  end.

Lemma connect_loop_spec port e l w :
  exists fd w', connect_loop port e l w = Some (fd, w') /\ connected (List.find reachable (map (override_port port) l)) e w w' fd.
Proof.
  revert w. induction l as [|ai l IH]; intros w; cbn [connect_loop map List.find]; [by exists (-1), w|].
  set (ai' := override_port port ai). unfold reachable at 1.
  destruct (law_socket (ai_family ai') (ai_socktype ai') w) as (fd & w1 & H1 & Hs). rewrite (st_bind_Some _ _ _ _ _ H1).
  assert (Hnext : forall w2 fd', socks w2 = (if fd' =? -1 then socks w else <[fd' := None]> (socks w)) -> (fd' =? -1 = false -> socks w !! fd' = None) ->
    exists fd w', (_ ← close_socket fd'; connect_loop port e l) w2 = Some (fd, w') /\
      connected (List.find reachable (map (override_port port) l)) e w w' fd).
  { intros w2 fd' Hw2 Hfd'. destruct (law_close fd' w2) as (rv & w3 & H3 & Hs3). rewrite (st_bind_Some _ _ _ _ _ H3).
    destruct (IH w3) as (r & w4 & H4 & Hc). exists r, w4. split; [done|].
    assert (socks w3 = socks w) as E.
    { rewrite Hs3, Hw2. destruct (fd' =? -1); [done|]. by rewrite delete_insert_id by by apply Hfd'. }
    unfold connected in *. by rewrite E in Hc. }
  destruct (has_socket (ai_family ai') (ai_socktype ai')); cbn [andb].
  - destruct Hs as (Hpos & Hnew & Hs). rewrite (proj2 (Z.ltb_ge fd 0)) by done.
    destruct (law_connect fd (ai_addr ai') w1) as (rv & w2 & H2 & Hc); [by rewrite Hs, lookup_insert_eq|].
    unfold mbind at 1, st_bind at 1. rewrite (st_bind_Some _ _ _ _ _ H2). cbn [mret st_ret].
    destruct (accepts (ai_addr ai')); destruct Hc as [-> Hw2].
    + cbn [Z.eqb]. unfold st_modify. unfold mbind, st_bind. destruct (law_set_error e w2) as [E1 E2].
      do 2 eexists. split; [reflexivity|]. split; [done|]. split; [done|]. split; [|done]. rewrite E1, Hw2, Hs. by rewrite insert_insert_eq.
    + cbn [Z.eqb]. apply Hnext; rewrite (proj2 (Z.eqb_neq fd (-1))) by lia; [by rewrite Hw2|done].
  - destruct Hs as [-> Hs]. cbn [Z.ltb Z.compare]. unfold mbind at 1, st_bind at 1. cbn [mret st_ret]. apply Hnext; done.
Qed.

(** The service given to the resolver, the hints and the port written in the addresses. *)
Definition client_query (service : cstr) (port : Z) : cstr * addrinfo * Z :=
  let socktype := get_socktype_from_protocol_services service in
  let hints flags := mk_addrinfo flags AF_UNSPEC socktype 0 (mk_sockaddr 0 0 []) in
  if socktype =? 0 then (service, hints 0, port) else (printf_int port, hints AI_NUMERICSERV, -1).

(** C31. A client socket for the URI [service://host:port] is connected to the first of the addresses of the host that can be: for
    [tcp] and [udp] the port is the service asked to the resolver, with the type of socket of the protocol, and otherwise it is written in the
    addresses of the service.  The sockets tried before are closed and the error state is as it was; without such an address no
    socket stays. *)
Theorem sockclient_connects (service host : cstr) (port : Z) (w : S) :
  valid_service service -> valid_host host -> 0 <= port < 2 ^ 31 ->
  let '(name, hints, override) := client_query service port in
  exists fd w', mm_create_sockclient (Some (service ++ cs "://" ++ host ++ cs ":" ++ printf_int port)) w = Some (fd, w') /\
    match resolve host name hints with
    | Some l => connected (List.find reachable (map (override_port override) l)) (error_state w) w w' fd
    | None => fd = -1 /\ socks w' = socks w
    end.
Proof.
  intros Hs Hh Hp. destruct (client_query service port) as [[name hints] override] eqn:E.
  unfold mm_create_sockclient. unfold mbind at 1, st_bind at 1, st_option at 1. rewrite parse_uri_roundtrip by done. cbn [mbind option_bind].
  assert (Hc : (if get_socktype_from_protocol_services service =? 0
      then create_connected_socket service host port (mk_addrinfo 0 AF_UNSPEC (get_socktype_from_protocol_services service) 0 (mk_sockaddr 0 0 []))
      else if port <? 0 then raise_socket_error E_INVAL
      else create_connected_socket (printf_int port) host (-1) (mk_addrinfo AI_NUMERICSERV AF_UNSPEC (get_socktype_from_protocol_services service) 0 (mk_sockaddr 0 0 [])))
    = create_connected_socket name host override hints).
  { unfold client_query in E. destruct (_ =? 0); injection E as <- <- <-; [done|]. by rewrite (proj2 (Z.ltb_ge port 0)) by lia. }
  cbv zeta. rewrite Hc. unfold create_connected_socket. destruct (law_getaddrinfo host name hints w) as (w1 & H1 & Hs1 & He1).
  rewrite (st_bind_Some _ _ _ _ _ H1). destruct (resolve host name hints) as [l|]; [|by exists (-1), w1].
  unfold mbind at 1, st_bind at 1, st_gets at 1. rewrite He1 by done.
  destruct (connect_loop_spec override (error_state w) l w1) as (fd & w2 & H2 & Hcon). exists fd, w2. split; [done|].
  unfold connected in *. by rewrite Hs1 in Hcon.
Qed.

End Connected.

(** ** A network *)

(** The port that the network sees: the bytes of the member in memory order, on a little-endian machine. *)
Definition network_port (a : sockaddr) : Z := 256 * (sa_port a mod 256) + sa_port a / 256.

Module SocketDemo.

Record state := mk_state { open_socks : gmap Z (option sockaddr); error : option errcode }.

(** A host has an address of each family, and the second one accepts connections. *)
Definition addresses (hints : addrinfo) : list addrinfo :=
  [mk_addrinfo 0 10 SOCK_STREAM 0 (mk_sockaddr 10 20480 []); mk_addrinfo 0 AF_INET SOCK_STREAM 0 (mk_sockaddr AF_INET 20480 (cs "1234"))].

Definition resolve (node service : cstr) (hints : addrinfo) : option (list addrinfo) :=
  if bool_decide (node = cs "host") then Some (addresses hints) else None.

Definition accepts (a : sockaddr) : bool := sa_family a =? AF_INET.
Definition has_socket (family type : Z) : bool := true.

#[global] Instance resolver : Resolver state := {|
  AF_INET6 := 10; AI_NUMERICSERV := 0x400; has_addrfamily := true;
  getaddrinfo node service hints := mret (inl EAI_NONAME);
  getnameinfo _ _ _ _ := mret (inl EAI_NONAME)
|}.

Definition raise (e : errcode) : ST state Z := fun s => Some (-1, mk_state (open_socks s) (Some e)).

(** A socket gets the number after the greatest one. *)
Definition fresh (m : gmap Z (option sockaddr)) : Z := map_fold (fun k _ m => Z.max m (k + 1)) 0 m.

Lemma fresh_sock_spec m : 0 <= fresh m /\ forall k, is_Some (m !! k) -> k < fresh m.
Proof.
  unfold fresh. apply (map_fold_weak_ind (fun r m => 0 <= r /\ forall k, is_Some (m !! k) -> k < r)).
  - split; [lia|]. intros k [x Hx]. by rewrite lookup_empty in Hx.
  - intros i x m' r _ [H1 H2]. split; [lia|]. intros k Hk. destruct (decide (k = i)) as [->|Hne]; [lia|].
    rewrite lookup_insert_ne in Hk by done. specialize (H2 k Hk). lia.
Qed.

#[global] Instance api : SocketApi state := {|
  mm_getaddrinfo node service hints s :=
    match resolve (default [] node) (default [] service) (default (mk_addrinfo 0 0 0 0 (mk_sockaddr 0 0 [])) hints) with
    | Some l => Some (Some l, s)
    | None => Some (None, mk_state (open_socks s) (Some E_NONAME))
    end;
  mm_socket family type proto s :=
    let fd := fresh (open_socks s) in Some (fd, mk_state (<[fd := None]> (open_socks s)) (error s));
  mm_connect fd a s := if accepts a then Some (0, mk_state (<[fd := Some a]> (open_socks s)) (error s)) else raise E_CONNREFUSED s;
  close_socket fd s := Some (0, if fd =? -1 then s else mk_state (delete fd (open_socks s)) (error s));
  raise_socket_error := raise;
  error_state := error;
  set_error_state e s := mk_state (open_socks s) e
|}.

#[global] Instance socket_laws : SocketLaws state open_socks resolve has_socket accepts.
Proof.
  split.
  - intros node service hints w. cbn. destruct (resolve node service hints); eexists; by split_and!.
  - intros family type w. cbn. destruct (fresh_sock_spec (open_socks w)) as [H1 H2]. do 2 eexists. split; [reflexivity|]. split_and!; [done| |done].
    destruct (open_socks w !! fresh (open_socks w)) eqn:E; [|done]. specialize (H2 _ (mk_is_Some _ _ E)). lia.
  - intros fd a w _. cbn. destruct (accepts a); do 2 eexists; by split_and!.
  - intros fd w. cbn. do 2 eexists. split; [reflexivity|]. by destruct (fd =? -1).
  - done.
Qed.

(** The port of a service by its name is put in the address in the order of the machine: the network sees another one. *)
Example port_is_swapped :
  (fun p => (p.1, option_map network_port <$> open_socks p.2 !! p.1)) <$> mm_create_sockclient (Some (cs "http://host:8080")) (mk_state ∅ None)
  = Some (0, Some (Some 36895)).
Proof. vm_compute. reflexivity. Qed.

(** A port that starts with a zero is in octal. *)
Example octal_port : parse_uri (cs "http://host:010") = Some (Some (cs "http", cs "host", 8)).
Proof. reflexivity. Qed.

Example service_too_long : parse_uri (cs "abcdefghijklmnop://host") = None.
Proof. reflexivity. Qed.

End SocketDemo.

Lemma sockclient_connects_witness :
  exists fd w', mm_create_sockclient (Some (cs "tcp" ++ cs "://" ++ cs "host" ++ cs ":" ++ printf_int 80)) (SocketDemo.mk_state ∅ None) = Some (fd, w') /\
    connected SocketDemo.open_socks (Some (mk_addrinfo 0 AF_INET SOCK_STREAM 0 (mk_sockaddr AF_INET 20480 (cs "1234")))) None (SocketDemo.mk_state ∅ None) w' fd.
Proof.
  destruct (sockclient_connects SocketDemo.open_socks SocketDemo.resolve SocketDemo.has_socket SocketDemo.accepts (cs "tcp") (cs "host") 80
    (SocketDemo.mk_state ∅ None) ltac:(split_and!; [done|done|cbn; unfold SERVICE_SIZE; lia]) ltac:(by split) ltac:(lia)) as (fd & w' & H1 & H2).
  exists fd, w'. split; [exact H1|exact H2].
Defined.
