(* ===== verification/SocketPosix.v ===== *)
(** * Sockets on POSIX

    [socket-posix.c], over the state of [FilePosix]: the calls of the system are the class [PosixSocket].  The
    value of an option is its bytes. *)

From S2P Require Import Prelude CStr Bytes Errcode Effects FilePosix Socket.

Definition SOL_SOCKET : Z := 1.
Definition SO_RCVTIMEO : Z := 20.
Definition SO_SNDTIMEO : Z := 21.
(** [struct timeval], and the union with an [int]. *)
Definition SIZEOF_TIMEVAL : nat := 16.

Definition is_timeout_option (level optname : Z) : bool :=
  (level =? SOL_SOCKET) && ((optname =? SO_RCVTIMEO) || (optname =? SO_SNDTIMEO)).

(** A message: address, data of the buffers, flags. *)
Record msghdr := mk_msg { msg_name : option sockaddr; msg_iov : list cstr; msg_flags : Z }.

(** [struct mm_sock_multimsg], an alias of that of the system. *)
Record mm_sock_multimsg := mk_multimsg { mmsg : msghdr; datalen : Z }.

Record mm_pollfd := mk_pollfd { pfd : Z; events : Z; revents : Z }.

(** The resolver gives the errno with its error. *)
Class PosixSocket (OS : Type) := {
  sys_socket : Z -> Z -> Z -> OS -> (errcode + Z) * OS;
  sys_bind : Z -> sockaddr -> OS -> (errcode + unit) * OS;
  sys_getsockname : Z -> OS -> (errcode + sockaddr) * OS;
  sys_getpeername : Z -> OS -> (errcode + sockaddr) * OS;
  sys_listen : Z -> Z -> OS -> (errcode + unit) * OS;
  sys_accept : Z -> OS -> (errcode + Z * sockaddr) * OS;
  sys_connect : Z -> sockaddr -> OS -> (errcode + unit) * OS;
  sys_setsockopt : Z -> Z -> Z -> cstr -> OS -> (errcode + unit) * OS;
  sys_getsockopt : Z -> Z -> Z -> nat -> OS -> (errcode + cstr) * OS;
  sys_shutdown : Z -> Z -> OS -> (errcode + unit) * OS;
  sys_send : Z -> cstr -> Z -> OS -> (errcode + Z) * OS;
  sys_recv : Z -> nat -> Z -> OS -> (errcode + cstr) * OS;
  sys_sendmsg : Z -> msghdr -> Z -> OS -> (errcode + Z) * OS;
  sys_recvmsg : Z -> msghdr -> Z -> OS -> (errcode + Z * msghdr) * OS;
  sys_sendmmsg : Z -> list mm_sock_multimsg -> Z -> OS -> (errcode + Z * list mm_sock_multimsg) * OS;
  sys_recvmmsg : Z -> list mm_sock_multimsg -> Z -> option (Z * Z) -> OS -> (errcode + Z * list mm_sock_multimsg) * OS;
  sys_poll : list mm_pollfd -> Z -> OS -> (errcode + Z * list mm_pollfd) * OS;
  sys_getaddrinfo : option cstr -> option cstr -> option addrinfo -> OS -> ((eai * errcode) + list addrinfo) * OS;
  sys_getnameinfo : sockaddr -> Z -> Z -> Z -> OS -> ((eai * errcode) + cstr * cstr) * OS
}.

Section Sockets.

Context {OS : Type} `{!PosixFile OS, !PosixSocket OS}.

Abbreviation M := (ST (px_world OS)).

(** The result of a call, its failure being raised. *)
Definition sys_raise {A} (f : OS -> (errcode + A) * OS) : M (option A) :=
  r ← sys f; match r with Some a => mret (Some a) | None => _ ← raise_from_errno; mret None end.

Definition mm_socket (domain type protocol : Z) : M Z := sys_or_raise (sys_socket domain type protocol) id.
Definition mm_bind (sockfd : Z) (addr : sockaddr) : M Z := sys_unit (sys_bind sockfd addr).
Definition mm_getsockname (sockfd : Z) : M (option sockaddr) := sys_raise (sys_getsockname sockfd).
Definition mm_getpeername (sockfd : Z) : M (option sockaddr) := sys_raise (sys_getpeername sockfd).
Definition mm_listen (sockfd backlog : Z) : M Z := sys_unit (sys_listen sockfd backlog).
Definition mm_accept (sockfd : Z) : M (option (Z * sockaddr)) := sys_raise (sys_accept sockfd).
Definition mm_connect (sockfd : Z) (addr : sockaddr) : M Z := sys_unit (sys_connect sockfd addr).

(** ** Options *)

Definition get_int (s : cstr) : Z := s32 (get_bytes (take 4 s)).
Definition put_int (z : Z) : cstr := put_bytes 4 z.
Definition get_long (s : cstr) : Z := s64 (get_bytes (take 8 s)).

(** The bytes of a [struct timeval] from a delay in milliseconds, and back. *)
Definition timeval_of_ms (delay_ms : Z) : cstr := put_bytes 8 (Z.quot delay_ms 1000) ++ put_bytes 8 (Z.rem delay_ms 1000 * 1000).
(** The multiplication is in 64 bits, the sum in [int]: [None] is an overflow. *)
Definition ms_of_timeval (tv : cstr) : option Z :=
  sec ← mul64 (get_long tv) 1000;
  let z := s32 sec + Z.quot (get_long (drop 8 tv)) 1000 in Some (s32 z).

Definition mm_setsockopt (sockfd level optname : Z) (optval : cstr) : M Z :=
  if is_timeout_option level optname then
    if (length optval =? 4)%nat then sys_unit (sys_setsockopt sockfd level optname (timeval_of_ms (get_int optval)))
    else raise E_INVAL
  else sys_unit (sys_setsockopt sockfd level optname optval).

(** [optlen] is the size of the buffer of the caller; the value has the length given back.  Bytes of the union that the system has
    not written are not described. *)
Definition mm_getsockopt (sockfd level optname : Z) (optlen : nat) : M (option cstr) :=
  r ← sys_raise (sys_getsockopt sockfd level optname SIZEOF_TIMEVAL);
  match r with
  | None => mret None
  | Some value =>
      posix_opt ← (if is_timeout_option level optname then
                     if (length value =? SIZEOF_TIMEVAL)%nat then delay_ms ← st_option (ms_of_timeval value); mret (put_int delay_ms) else st_ub
                   else mret value);
      mret (Some (take optlen posix_opt))
  end.

(** ** Transfers *)

Definition mm_shutdown (sockfd how : Z) : M Z := sys_unit (sys_shutdown sockfd how).
Definition mm_send (sockfd : Z) (buffer : cstr) (flags : Z) : M Z := sys_or_raise (sys_send sockfd buffer flags) id.
Definition mm_recv (sockfd : Z) (length : nat) (flags : Z) : M (option cstr) := sys_raise (sys_recv sockfd length flags).
Definition mm_sendmsg (sockfd : Z) (msg : msghdr) (flags : Z) : M Z := sys_or_raise (sys_sendmsg sockfd msg flags) id.
Definition mm_recvmsg (sockfd : Z) (msg : msghdr) (flags : Z) : M (option (Z * msghdr)) := sys_raise (sys_recvmsg sockfd msg flags).
Definition mm_send_multimsg (sockfd : Z) (msgvec : list mm_sock_multimsg) (flags : Z) : M (option (Z * list mm_sock_multimsg)) :=
  sys_raise (sys_sendmmsg sockfd msgvec flags).
Definition mm_recv_multimsg (sockfd : Z) (msgvec : list mm_sock_multimsg) (flags : Z) (timeout : option (Z * Z)) : M (option (Z * list mm_sock_multimsg)) :=
  sys_raise (sys_recvmmsg sockfd msgvec flags timeout).
Definition mm_poll (fds : list mm_pollfd) (timeout_ms : Z) : M (option (Z * list mm_pollfd)) := sys_raise (sys_poll fds timeout_ms).

(** ** Names *)

(** A call of the resolver, with its errno. *)
Definition sys_eai {A} (f : OS -> ((eai * errcode) + A) * OS) : M (eai + A) := fun w =>
  match f (px_os w) with
  | (inl (e, errnum), os) => Some (inl e, mk_px os errnum (px_error w))
  | (inr a, os) => Some (inr a, mk_px os (px_errno w) (px_error w))
  end.

#[global] Instance posix_resolver : Resolver (px_world OS) := {|
  AF_INET6 := 10; AI_NUMERICSERV := 0x400; has_addrfamily := true;
  getaddrinfo node service hints := sys_eai (sys_getaddrinfo node service hints);
  getnameinfo addr hostlen servlen flags := sys_eai (sys_getnameinfo addr hostlen servlen flags)
|}.

(** The error of the system if the resolver gave none; the message is left out. *)
Definition resolver_error {A} (r : option (errcode * cstr) + A) : M (option A) :=
  match r with
  | inr a => mret (Some a)
  | inl e => errnum ← st_gets px_errno; _ ← raise (match e with Some (e, _) => e | None => errnum end); mret None
  end.

Definition mm_getaddrinfo (node service : option cstr) (hints : option addrinfo) : M (option (list addrinfo)) :=
  r ← internal_getaddrinfo node service hints; resolver_error r.

Definition mm_getnameinfo (addr : sockaddr) (hostlen servlen flags : Z) : M (option (cstr * cstr)) :=
  r ← internal_getnameinfo addr hostlen servlen flags; resolver_error r.

#[global] Instance posix_socket_api : SocketApi (px_world OS) := {|
  Socket.mm_getaddrinfo := mm_getaddrinfo;
  Socket.mm_socket := mm_socket;
  Socket.mm_connect := mm_connect;
  close_socket := mm_close;
  raise_socket_error := raise;
  error_state := px_error;
  set_error_state e w := mk_px (px_os w) (match e with Some e => e | None => E_OTHER 0 end) e
|}.

End Sockets.

(** ** Timeouts *)

(** [opts os]: the values that the options of the sockets were given. *)
Class OptionLaws (OS : Type) `{!PosixSocket OS} (opts : OS -> gmap (Z * Z * Z) cstr) : Prop := {
  law_setsockopt fd level optname v os :
    match sys_setsockopt fd level optname v os with
    | (inr _, os') => opts os' = <[(fd, level, optname) := v]> (opts os)
    | (inl _, os') => opts os' = opts os
    end;
  law_getsockopt fd level optname n v v' os os' :
    opts os !! (fd, level, optname) = Some v -> sys_getsockopt fd level optname n os = (inr v', os') -> v' = take n v
}.

Lemma get_put_int z rest : in_s 32 z -> get_int (put_int z ++ rest) = z.
Proof.
  intros H. unfold get_int, put_int. rewrite take_app_le, take_ge by (rewrite put_bytes_length; lia). rewrite get_put_bytes.
  change (256 ^ Z.of_nat 4) with (2 ^ 32). unfold s32, wrap_s. fold (wrap_s 32 z).
  rewrite <- (wrap_s_small 32 z) at 2 by done. unfold wrap_s. rewrite Z.add_mod_idemp_l by lia. done.
Qed.

Lemma get_put_long z rest : in_s 64 z -> get_long (put_bytes 8 z ++ rest) = z.
Proof.
  intros H. unfold get_long. rewrite take_app_le, take_ge by (rewrite put_bytes_length; lia). rewrite get_put_bytes.
  change (256 ^ Z.of_nat 8) with (2 ^ 64). unfold s64. rewrite <- (wrap_s_small 64 z) at 2 by done. unfold wrap_s.
  by rewrite Z.add_mod_idemp_l by lia.
Qed.

Lemma ms_timeval_roundtrip delay_ms : in_s 32 delay_ms -> ms_of_timeval (timeval_of_ms delay_ms) = Some delay_ms.
Proof.
  intros H. pose proof (Z.quot_rem' delay_ms 1000) as Hq. pose proof (Z.rem_bound_abs delay_ms 1000 ltac:(lia)) as Hr.
  assert (Hs : -2147483648 <= delay_ms < 2147483648) by (unfold in_s in H; change (2 ^ (32 - 1)) with 2147483648 in H; lia).
  assert (Hb : -2147483648 <= Z.quot delay_ms 1000 <= 2147483648).
  { pose proof (Z.quot_abs_l delay_ms 1000 ltac:(lia)). destruct (Z.abs_spec delay_ms), (Z.abs_spec (Z.rem delay_ms 1000)); lia. }
  unfold ms_of_timeval, timeval_of_ms. rewrite get_put_long by (unfold in_s; change (2 ^ (64 - 1)) with 9223372036854775808; lia).
  rewrite drop_app_ge by (rewrite put_bytes_length; lia). rewrite put_bytes_length, Nat.sub_diag, drop_0.
  rewrite <- (app_nil_r (put_bytes 8 (Z.rem _ _ * 1000))), get_put_long by (unfold in_s; change (2 ^ (64 - 1)) with 9223372036854775808; lia).
  unfold mul64. rewrite chk64_Some by (unfold INT64_MIN, INT64_MAX; lia). cbn [mbind option_bind]. f_equal.
  rewrite Z.quot_mul by lia.
  assert (Hm : -2147483648 <= Z.quot delay_ms 1000 * 1000 < 2147483648).
  { destruct (Z.abs_spec (Z.rem delay_ms 1000)), (Z_le_gt_dec 0 delay_ms) as [Hd|Hd].
    - pose proof (Z.rem_nonneg delay_ms 1000 ltac:(lia) Hd). lia.
    - pose proof (Z.rem_nonpos delay_ms 1000 ltac:(lia) ltac:(lia)). lia.
    - pose proof (Z.rem_nonneg delay_ms 1000 ltac:(lia) Hd). lia.
    - pose proof (Z.rem_nonpos delay_ms 1000 ltac:(lia) ltac:(lia)). lia. }
  rewrite (wrap_s_small 32 (Z.quot delay_ms 1000 * 1000)) by (lia || (unfold in_s; change (2 ^ (32 - 1)) with 2147483648; lia)).
  rewrite wrap_s_small; [lia|lia|unfold in_s; change (2 ^ (32 - 1)) with 2147483648; lia].
Qed.

Section Timeouts.

Context {OS : Type} `{!PosixFile OS, !PosixSocket OS} (opts : OS -> gmap (Z * Z * Z) cstr) `{!OptionLaws OS opts}.

(** A timeout in milliseconds given to a socket is the one it has: when [mm_setsockopt] succeeds, [mm_getsockopt] gives the delay
    again, cut to the size of the buffer of the caller, whatever its sign, or fails with an error; a value that is not an [int] is refused. *)
Theorem timeout_option_kept (fd optname delay_ms : Z) (optlen : nat) (other : cstr) (w : px_world OS) :
  is_timeout_option SOL_SOCKET optname = true -> in_s 32 delay_ms -> length other <> 4%nat ->
  (exists w', mm_setsockopt fd SOL_SOCKET optname other w = Some (-1, w') /\ px_error w' = Some E_INVAL) /\
  exists rv w1, mm_setsockopt fd SOL_SOCKET optname (put_int delay_ms) w = Some (rv, w1) /\
    (rv = -1 /\ px_error w1 <> None \/
     rv = 0 /\ exists r w2, mm_getsockopt fd SOL_SOCKET optname optlen w1 = Some (r, w2) /\
       (r = Some (take optlen (put_int delay_ms)) \/ r = None /\ px_error w2 <> None)).
Proof.
  intros Ho Hd Hl. unfold mm_setsockopt. rewrite Ho. rewrite (proj2 (Nat.eqb_neq _ _)) by done. split; [by eexists|].
  assert (length (put_int delay_ms) = 4%nat) as -> by apply put_bytes_length. cbn [Nat.eqb].
  assert (get_int (put_int delay_ms) = delay_ms) as -> by (rewrite <- (app_nil_r (put_int delay_ms)); by apply get_put_int).
  unfold sys_unit, sys_or_raise. pose proof (law_setsockopt fd SOL_SOCKET optname (timeval_of_ms delay_ms) (px_os w)) as L.
  unfold mbind at 1, st_bind at 1, sys at 1. destruct (sys_setsockopt fd SOL_SOCKET optname (timeval_of_ms delay_ms) (px_os w)) as [[e|u] os1].
  { do 2 eexists. split; [reflexivity|]. by left. }
  exists 0. eexists. split; [reflexivity|]. right. split; [done|]. unfold mm_getsockopt, sys_raise. rewrite Ho.
  unfold mbind at 1, st_bind at 1. unfold mbind at 1, st_bind at 1, sys at 1. cbn [px_os].
  destruct (sys_getsockopt fd SOL_SOCKET optname SIZEOF_TIMEVAL os1) as [[e|v] os2] eqn:E.
  { do 2 eexists. split; [reflexivity|]. by right. }
  apply (law_getsockopt _ _ _ _ (timeval_of_ms delay_ms)) in E; [|by rewrite L, lookup_insert_eq].
  assert (Hlen : length (timeval_of_ms delay_ms) = SIZEOF_TIMEVAL) by (unfold timeval_of_ms; by rewrite length_app, !put_bytes_length).
  rewrite take_ge in E by (rewrite Hlen; done). subst v. cbn [mret st_ret]. rewrite Hlen. cbn [Nat.eqb SIZEOF_TIMEVAL].
  unfold mbind at 1, st_bind at 1. unfold mbind at 1, st_bind at 1, st_option at 1. rewrite ms_timeval_roundtrip by done. cbn [mbind option_bind mret st_ret].
  do 2 eexists. split; [reflexivity|]. by left.
Qed.

End Timeouts.

(** ** A system *)

Module OptionDemo.

(** The values of the options; the other calls fail. *)
Record os := mk_os { values : gmap (Z * Z * Z) cstr }.
Definition refused {A : Type} (o : os) : (errcode + A) * os := (inl E_NOSYS, o).

#[global] Instance sockets : PosixSocket os := {|
  sys_socket _ _ _ := refused; sys_bind _ _ := refused; sys_getsockname _ := refused; sys_getpeername _ := refused;
  sys_listen _ _ := refused; sys_accept _ := refused; sys_connect _ _ := refused;
  sys_setsockopt fd level optname v o := (inr tt, mk_os (<[(fd, level, optname) := v]> (values o)));
  sys_getsockopt fd level optname n o := match values o !! (fd, level, optname) with Some v => (inr (take n v), o) | None => (inl E_NOPROTOOPT, o) end;
  sys_shutdown _ _ := refused; sys_send _ _ _ := refused; sys_recv _ _ _ := refused; sys_sendmsg _ _ _ := refused; sys_recvmsg _ _ _ := refused;
  sys_sendmmsg _ _ _ := refused; sys_recvmmsg _ _ _ _ := refused; sys_poll _ _ := refused;
  sys_getaddrinfo _ _ _ o := (inl (EAI_SYSTEM, E_NOSYS), o);
  sys_getnameinfo _ _ _ _ o := (inl (EAI_AGAIN, E_IO), o)
|}.

#[global] Instance option_laws : OptionLaws os values.
Proof.
  split; [done|]. intros fd level optname n v v' o o' H E. cbn in E. rewrite H in E. by injection E.
Qed.

Definition start : px_world os := mk_px (mk_os ∅) E_IO None.

(** The error is that of the table, or the errno of the system. *)
Example resolver_errors :
  (fun p => px_error p.2) <$> mm_getnameinfo (mk_sockaddr 2 0 []) 10 10 0 start = Some (Some E_AGAIN) /\
  (fun p => px_error p.2) <$> mm_getaddrinfo (Some (cs "host")) None None start = Some (Some E_NOSYS).
Proof. by vm_compute. Qed.

End OptionDemo.

Lemma timeout_option_kept_witness :
  exists rv w1, mm_setsockopt 3 SOL_SOCKET SO_RCVTIMEO (put_int (-1500)) OptionDemo.start = Some (rv, w1) /\
    (rv = -1 /\ px_error w1 <> None \/
     rv = 0 /\ exists r w2, mm_getsockopt 3 SOL_SOCKET SO_RCVTIMEO 4 w1 = Some (r, w2) /\
       (r = Some (take 4 (put_int (-1500))) \/ r = None /\ px_error w2 <> None)).
Proof.
  exact (proj2 (timeout_option_kept OptionDemo.values 3 SO_RCVTIMEO (-1500) 4 [] OptionDemo.start eq_refl ltac:(vm_compute; split; congruence) ltac:(done))).
Defined.
