(* ===== verification/SocketWin32.v ===== *)
(** * Sockets on Windows

    [socket-win32.c], over the table of descriptors of [FdTable]: the calls of Winsock are the class [W32Socket].  A
    transfer is an overlapped operation whose end is told by a callback, run while the thread sleeps.  [None] of the monad is fuel
    exhausted or undefined behaviour. *)

From S2P Require Import Prelude CStr Bytes Errcode Effects FilePosix Socket SocketPosix TextMode AccessWin32 FdTable IpcWin32 FdWin32.

Definition IPPROTO_ICMP : Z := 1.
Definition IPPROTO_TCP : Z := 6.
Definition IPPROTO_UDP : Z := 17.
Definition IPPROTO_ICMPV6 : Z := 58.
Definition INVALID_SOCKET : Z := -1.

(** What the callback of a transfer is given: error, size and flags. *)
Record completion := mk_completion { c_error : option w32err; c_size : Z; c_flags : Z }.

Class W32Socket (OS : Type) := {
  WSASocketW : Z -> Z -> Z -> OS -> (w32err + Z) * OS;
  closesocket : Z -> OS -> OS;
  w_bind : Z -> sockaddr -> OS -> option w32err * OS;
  w_getsockname : Z -> OS -> w32err + sockaddr;
  w_getpeername : Z -> OS -> w32err + sockaddr;
  w_listen : Z -> Z -> OS -> option w32err * OS;
  w_accept : Z -> OS -> (w32err + Z * sockaddr) * OS;
  w_connect : Z -> sockaddr -> OS -> option w32err * OS;
  w_setsockopt : Z -> Z -> Z -> cstr -> OS -> option w32err * OS;
  w_getsockopt : Z -> Z -> Z -> nat -> OS -> w32err + cstr;
  w_shutdown : Z -> Z -> OS -> option w32err * OS;
  w_send : Z -> cstr -> Z -> OS -> (w32err + Z) * OS;
  w_recv : Z -> nat -> Z -> OS -> (w32err + cstr) * OS;
  WSASend : Z -> list cstr -> Z -> OS -> option w32err * OS;          (* submission; pending is not an error *)
  WSASendTo : Z -> list cstr -> Z -> sockaddr -> OS -> option w32err * OS;
  WSARecv : Z -> list cstr -> Z -> OS -> option w32err * OS;
  WSARecvFrom : Z -> list cstr -> Z -> OS -> option w32err * OS;
  SleepEx : OS -> option completion * OS;                              (* [None] if it was woken by another callback *)
  received : OS -> option sockaddr * list cstr;                        (* what the last reception put in the message *)
  w_getaddrinfo : option cstr -> option cstr -> option addrinfo -> OS -> (eai + list addrinfo) * OS;
  w_getnameinfo : sockaddr -> Z -> Z -> Z -> OS -> (eai + cstr * cstr) * OS;
  WSAGetLastError : OS -> w32err;
  WSAPoll : list mm_pollfd -> Z -> OS -> (w32err + Z * list mm_pollfd) * OS;
  sleep_ms : Z -> OS -> OS                                             (* [mm_relative_sleep_ms] *)
}.

Section Sockets.

Context {OS : Type} `{!W32File OS, !W32Socket OS}.

Abbreviation M := (ST (fd_world (OS := OS))).

(** ** Transfers *)

Inductive xfer_status := XFER_PENDING | XFER_SUCCESS | XFER_ERROR.

(** [last] is the last error that the callback sets. *)
Record xfer_data := mk_xfer { status : xfer_status; data_len : Z; flags : Z; last : option w32err }.

Definition xfer_completion (c : completion) : xfer_data :=
  mk_xfer (match c_error c with Some _ => XFER_ERROR | None => XFER_SUCCESS end) (c_size c) (c_flags c) (c_error c).

(** The transfer at its end. *)
Fixpoint wait_operation_xfer (fuel : nat) (xfer : xfer_data) : M xfer_data :=
  match status xfer with
  | XFER_PENDING =>
      match fuel with
      | O => st_ub
      | S fuel => c ← call SleepEx; wait_operation_xfer fuel (match c with Some c => xfer_completion c | None => xfer end)
      end
  | _ => mret xfer
  end.

(** [inl] is the failure of the submission. *)
Definition submit_send_xfer (s : Z) (msg : msghdr) (flags : Z) : M (w32err + xfer_data) :=
  ret ← call (match msg_name msg with
              | None => WSASend s (msg_iov msg) flags
              | Some addr => WSASendTo s (msg_iov msg) flags addr
              end);
  mret (match ret with Some e => inl e | None => inr (mk_xfer XFER_PENDING 0 0 None) end).

Definition submit_recv_xfer (s : Z) (msg : msghdr) (flags : Z) : M (w32err + xfer_data) :=
  ret ← call (match msg_name msg with
              | None => WSARecv s (msg_iov msg) flags
              | Some _ => WSARecvFrom s (msg_iov msg) flags
              end);
  mret (match ret with Some e => inl e | None => inr (mk_xfer XFER_PENDING 0 0 None) end).

(** The submission and the wait: the transfer done, or the last error. *)
Definition run_xfer (fuel : nat) (submit : M (w32err + xfer_data)) : M (w32err + xfer_data) :=
  r ← submit;
  match r with
  | inl e => mret (inl e)
  | inr xfer =>
      xfer ← wait_operation_xfer fuel xfer;
      mret (match status xfer, last xfer with
            | XFER_SUCCESS, _ => inr xfer
            | _, Some e => inl e
            | _, None => inl ERROR_SUCCESS
            end)
  end.

(** ** Sockets *)

Definition wrap_socket_into_fd (hnd : Z) : M (option Z) := wrap_handle_into_fd hnd FD_TYPE_SOCKET.

(** The operations start by the initialisation of Winsock and the handle of the descriptor. *)
Definition with_socket {A} (sockfd : Z) (failure : A) (f : Z -> M A) : M A :=
  check_wsa_init;;
  (s ← unwrap_handle_from_fd sockfd; match s with None => mret failure | Some s => f s end).

Definition or_raise_w32 (r : option w32err) : M Z := match r with Some e => raise_w32 e | None => mret 0 end.
Definition or_raise_none {A} (r : w32err + A) : M (option A) := match r with inl e => _ ← raise_w32 e; mret None | inr a => mret (Some a) end.

Definition wrap_new_socket (s : Z) : M (option Z) :=
  fd ← wrap_socket_into_fd s;
  match fd with
  | Some fd => mret (Some fd)
  | None => call (fun os => (tt, closesocket s os));; mret None
  end.

Definition mm_socket (domain type protocol : Z) : M Z :=
  check_wsa_init;;
  (s ← call (WSASocketW domain type protocol);
   match s with
   | inl e => raise_w32 e
   | inr s => fd ← wrap_new_socket s; mret (default (-1) fd)
   end).

Definition mm_bind (sockfd : Z) (addr : sockaddr) : M Z := with_socket sockfd (-1) (fun s => r ← call (w_bind s addr); or_raise_w32 r).
Definition mm_getsockname (sockfd : Z) : M (option sockaddr) := with_socket sockfd None (fun s => r ← ask (w_getsockname s); or_raise_none r).
Definition mm_getpeername (sockfd : Z) : M (option sockaddr) := with_socket sockfd None (fun s => r ← ask (w_getpeername s); or_raise_none r).
Definition mm_listen (sockfd backlog : Z) : M Z := with_socket sockfd (-1) (fun s => r ← call (w_listen s backlog); or_raise_w32 r).

Definition mm_accept (sockfd : Z) : M (option (Z * sockaddr)) :=
  with_socket sockfd None (fun listening_sock =>
    s ← call (w_accept listening_sock);
    match s with
    | inl e => _ ← raise_w32 e; mret None
    | inr (s, addr) => fd ← wrap_new_socket s; mret (fd ← fd; Some (fd, addr))
    end).

Definition mm_connect (sockfd : Z) (addr : sockaddr) : M Z := with_socket sockfd (-1) (fun s => r ← call (w_connect s addr); or_raise_w32 r).
Definition mm_setsockopt (sockfd level optname : Z) (optval : cstr) : M Z :=
  with_socket sockfd (-1) (fun s => r ← call (w_setsockopt s level optname optval); or_raise_w32 r).
Definition mm_getsockopt (sockfd level optname : Z) (optlen : nat) : M (option cstr) :=
  with_socket sockfd None (fun s => r ← ask (w_getsockopt s level optname optlen); or_raise_none r).

(** The failure is raised but not returned. *)
Definition mm_shutdown (sockfd how : Z) : M Z := with_socket sockfd (-1) (fun s => r ← call (w_shutdown s how); _ ← or_raise_w32 r; mret 0).

Definition mm_send (sockfd : Z) (buffer : cstr) (flags : Z) : M Z :=
  with_socket sockfd (-1) (fun s => r ← call (w_send s buffer flags); match r with inl e => raise_w32 e | inr n => mret n end).
Definition mm_recv (sockfd : Z) (length : nat) (flags : Z) : M (option cstr) :=
  with_socket sockfd None (fun s => r ← call (w_recv s length flags); or_raise_none r).

Definition mm_sendmsg (fuel : nat) (sockfd : Z) (msg : msghdr) (flags : Z) : M Z :=
  with_socket sockfd (-1) (fun s =>
    r ← run_xfer fuel (submit_send_xfer s msg flags); match r with inl e => raise_w32 e | inr xfer => mret (data_len xfer) end).

(** The value returned and the message. *)
Definition mm_recvmsg (fuel : nat) (sockfd : Z) (msg : msghdr) (flags' : Z) : M (Z * msghdr) :=
  with_socket sockfd (-1, msg) (fun s =>
    r ← run_xfer fuel (submit_recv_xfer s msg flags');
    match r with
    | inl e => rv ← raise_w32 e; mret (rv, msg)
    | inr xfer =>
        '(addr, bufs) ← ask received;
        mret (data_len xfer, mk_msg (match msg_name msg with None => None | Some _ => addr end) bufs (flags xfer))
    end).

(** The loop of [mm_send_multimsg] from index [i]: the value returned and the messages with their sizes. *)
Fixpoint send_multi_loop (fuel : nat) (sockfd : Z) (i : Z) (msgvec : list mm_sock_multimsg) (flags : Z) : M (Z * list mm_sock_multimsg) :=
  match msgvec with
  | [] => mret (i, [])
  | m :: rest =>
      ret_sz ← mm_sendmsg fuel sockfd (mmsg m) flags;
      if ret_sz <? 0 then mret ((if i =? 0 then -1 else i), m :: rest)
      else '(rv, rest) ← send_multi_loop fuel sockfd (i + 1) rest flags; mret (rv, mk_multimsg (mmsg m) (wrap_u 32 ret_sz) :: rest)
  end.

Definition mm_send_multimsg (fuel : nat) (sockfd : Z) (msgvec : list mm_sock_multimsg) (flags : Z) : M (Z * list mm_sock_multimsg) :=
  send_multi_loop fuel sockfd 0 msgvec flags.

Fixpoint recv_multi_loop (fuel : nat) (sockfd : Z) (i : Z) (msgvec : list mm_sock_multimsg) (flags : Z) : M (Z * list mm_sock_multimsg) :=
  match msgvec with
  | [] => mret (i, [])
  | m :: rest =>
      '(ret_sz, msg) ← mm_recvmsg fuel sockfd (mmsg m) flags;
      if ret_sz <? 0 then mret ((if i =? 0 then -1 else i), mk_multimsg msg (datalen m) :: rest)
      else '(rv, rest) ← recv_multi_loop fuel sockfd (i + 1) rest flags; mret (rv, mk_multimsg msg (wrap_u 32 ret_sz) :: rest)
  end.

(** The timeout is ignored. *)
Definition mm_recv_multimsg (fuel : nat) (sockfd : Z) (msgvec : list mm_sock_multimsg) (flags : Z) (timeout : option (Z * Z)) : M (Z * list mm_sock_multimsg) :=
  recv_multi_loop fuel sockfd 0 msgvec flags.

(** ** Names *)

#[global] Instance w32_resolver : Resolver (fd_world (OS := OS)) := {|
  AF_INET6 := 23; AI_NUMERICSERV := 0x8; has_addrfamily := false;
  getaddrinfo node service hints := call (w_getaddrinfo node service hints);
  getnameinfo addr hostlen servlen flags := call (w_getnameinfo addr hostlen servlen flags)
|}.

Definition validate_hints (hints : option addrinfo) : option errcode :=
  match hints with
  | None => None
  | Some h =>
      if ai_protocol h =? 0 then None
      else
        let type_is t := (ai_socktype h =? 0) || (ai_socktype h =? t) in
        let inet := (ai_family h =? 0) || (ai_family h =? AF_INET) in
        let inet6 := (ai_family h =? 0) || (ai_family h =? AF_INET6) in
        let valid :=
          if ai_protocol h =? IPPROTO_UDP then type_is SOCK_DGRAM && (inet || inet6)
          else if ai_protocol h =? IPPROTO_TCP then type_is SOCK_STREAM && (inet || inet6)
          else if ai_protocol h =? IPPROTO_ICMP then type_is SOCK_DGRAM && inet
          else if ai_protocol h =? IPPROTO_ICMPV6 then type_is SOCK_DGRAM && inet6
          else true in
        if valid then None else Some E_PROTOTYPE
  end.

Definition resolver_error {A} (r : option (errcode * cstr) + A) : M (option A) :=
  match r with
  | inr a => mret (Some a)
  | inl e => w32err ← ask WSAGetLastError; _ ← raise (match e with Some (e, _) => e | None => get_errcode_from_w32err w32err end); mret None
  end.

Definition mm_getaddrinfo (node service : option cstr) (hints : option addrinfo) : M (option (list addrinfo)) :=
  check_wsa_init;;
  match validate_hints hints with
  | Some errnum => _ ← raise errnum; mret None
  | None => r ← internal_getaddrinfo node service hints; resolver_error r
  end.

Definition mm_getnameinfo (addr : sockaddr) (hostlen servlen flags : Z) : M (option (cstr * cstr)) :=
  check_wsa_init;; (r ← internal_getnameinfo addr hostlen servlen flags; resolver_error r).

(** ** Polling *)

(** The errors of the conversion are ignored: an invalid descriptor gives an invalid socket. *)
Definition poll_entry (p : mm_pollfd) (os : OS) : mm_pollfd :=
  mk_pollfd (if 0 <=? pfd p then default INVALID_SOCKET (_get_osfhandle (pfd p) os) else INVALID_SOCKET) (events p) 0.

Definition poll_result (p wp : mm_pollfd) : mm_pollfd := mk_pollfd (pfd p) (events p) (if pfd p <? 0 then 0 else revents wp).

Definition mm_poll (fds : list mm_pollfd) (timeout_ms : Z) : M (Z * list mm_pollfd) :=
  check_wsa_init;;
  (wfds ← ask (fun os => map (fun p => poll_entry p os) fds);
   if forallb (fun p => pfd p <? 0) fds then call (fun os => (tt, sleep_ms timeout_ms os));; mret (0, fds)
   else
     r ← call (WSAPoll wfds timeout_ms);
     match r with
     | inl e => rv ← raise_w32 e; mret (rv, fds)
     | inr (rv, wfds) => mret (rv, zip_with poll_result fds wfds)
     end).

#[global] Instance w32_socket_api : SocketApi (fd_world (OS := OS)) := {|
  Socket.mm_getaddrinfo := mm_getaddrinfo;
  Socket.mm_socket := mm_socket;
  Socket.mm_connect := mm_connect;
  close_socket := mm_close;
  raise_socket_error := raise;
  error_state := last_error;
  set_error_state e w := mk_fd_world (fd_infos w) (fd_os w) e
|}.

End Sockets.

(** ** Messages in sequence *)

Section Multi.

Context {OS : Type} `{!W32File OS, !W32Socket OS}.

(** The messages are all sent, one after the other, with these sizes. *)
Inductive sent (fuel : nat) (sockfd flags : Z) : list mm_sock_multimsg -> fd_world (OS := OS) -> list Z -> fd_world (OS := OS) -> Prop :=
  | sent_nil w : sent fuel sockfd flags [] w [] w
  | sent_cons m l w sz w1 sizes w2 :
      mm_sendmsg fuel sockfd (mmsg m) flags w = Some (sz, w1) -> 0 <= sz -> sent fuel sockfd flags l w1 sizes w2 ->
      sent fuel sockfd flags (m :: l) w (sz :: sizes) w2.

Definition with_size (m : mm_sock_multimsg) (sz : Z) : mm_sock_multimsg := mk_multimsg (mmsg m) (wrap_u 32 sz).

(** What the loop from index [i] did: a prefix is sent, up to the first message that fails or to the end. *)
Definition sent_prefix (fuel : nat) (sockfd i flags : Z) (l : list mm_sock_multimsg) (w : fd_world (OS := OS)) (rv : Z)
    (l' : list mm_sock_multimsg) (w' : fd_world (OS := OS)) : Prop :=
  exists done rest sizes w1, l = done ++ rest /\ sent fuel sockfd flags done w sizes w1 /\ l' = zip_with with_size done sizes ++ rest /\
    match rest with
    | [] => rv = i + Z.of_nat (length l) /\ w' = w1
    | m :: _ => (exists e, mm_sendmsg fuel sockfd (mmsg m) flags w1 = Some (e, w') /\ e < 0) /\
        rv = (if i + Z.of_nat (length done) =? 0 then -1 else i + Z.of_nat (length done))
    end.

Lemma send_multi_prefix fuel sockfd flags l : forall i w rv l' w',
  send_multi_loop fuel sockfd i l flags w = Some ((rv, l'), w') -> sent_prefix fuel sockfd i flags l w rv l' w'.
Proof.
  induction l as [|m l IH]; intros i w rv l' w' H; cbn [send_multi_loop] in H.
  { injection H as <- <- <-. exists [], [], [], w. split_and!; [done|apply sent_nil|done|cbn; lia|done]. }
  unfold mbind at 1, st_bind at 1 in H. destruct (mm_sendmsg fuel sockfd (mmsg m) flags w) as [[sz w1]|] eqn:E; [|done].
  cbn [mbind option_bind] in H. destruct (Z.ltb_spec sz 0) as [Hsz|Hsz].
  { injection H as <- <- <-. exists [], (m :: l), [], w. split_and!; [done|apply sent_nil|done|by exists sz|]. cbn. by rewrite Z.add_0_r. }
  unfold mbind at 1, st_bind at 1 in H. destruct (send_multi_loop fuel sockfd (i + 1) l flags w1) as [[[rv1 l1] w2]|] eqn:E1; [|done].
  injection H as <- <- <-. destruct (IH _ _ _ _ _ E1) as (d & rest & sizes & w3 & -> & Hs & -> & Hr).
  exists (m :: d), rest, (sz :: sizes), w3. split_and!; [done|by eapply sent_cons|done|]. destruct rest as [|m' rest].
  - destruct Hr as [-> ->]. split; [cbn [length app]; rewrite length_app; cbn [length]; lia|done].
  - destruct Hr as [Hf ->]. split; [exact Hf|]. cbn [length]. by replace (i + Z.of_nat (S (length d))) with (i + 1 + Z.of_nat (length d)) by lia.
Qed.

(** [mm_send_multimsg] sends the messages in order until one fails: the messages before it have the sizes sent, the others are left as they
    were and are not tried, and the count of the messages sent is returned, or -1 if the first one failed. *)
Theorem send_multimsg_prefix (fuel : nat) (sockfd flags : Z) (msgvec l' : list mm_sock_multimsg) (w w' : fd_world (OS := OS)) (rv : Z) :
  mm_send_multimsg fuel sockfd msgvec flags w = Some ((rv, l'), w') -> sent_prefix fuel sockfd 0 flags msgvec w rv l' w'.
Proof. apply send_multi_prefix. Qed.

End Multi.
