(* ===== verification/PsharedLock.v ===== *)
(** * The client of the lock referee

    [pshared-lock.c]: the connection of a thread to the referee, the requests and the answers, and the cleanup jobs that the referee gives to the
    threads that wait.  The calls of Windows, the memory shared with the other processes and the exchange on the pipe are the class [LockrefOs];
    the messages are those of [RefereeServer].  [None] of the monad is the end of the process by [mm_check], undefined behaviour or
    fuel exhausted. *)

From S2P Require Import Prelude CStr Time Effects MutexVal Threads RefereeServer.

(** The connection of a thread; the other fields have no meaning when it is not initialized. *)
Record lockref_connection := mk_conn { pipe : Z; conn_robust_data : Z; is_init : bool }.

(** The key of a lock, and the address of its value. *)
Record shared_lock := mk_shlock { shl_key : Z; shl_ptr : Z }.

Record lock_timeout := mk_timeout { to_clk_flags : Z; to_ts : mm_timespec }.

(** [TransactNamedPipe] gives the response with the handle that it holds, or fails; a view is an address. *)
Class LockrefOs (St : Type) := {
  WaitNamedPipe : St -> bool * St;
  create_srv_first_pipe : St -> option Z * St;
  DuplicateHandle_inheritable : Z -> St -> option Z * St;
  CreateProcess : cstr -> cstr -> Z -> St -> option (Z * Z) * St;   (* path, command line, handle inherited: handles of the thread and of the process *)
  CreateFile_pipe : St -> option Z * St;
  SetNamedPipeHandleState : Z -> St -> St;                          (* the messages are read whole *)
  mm_malloca : Z -> St -> bool * St;                                (* of this size, freed at the end of the function *)
  proc_attribute_list_size : Z;
  CloseHandle : Z -> St -> St;
  TransactNamedPipe : Z -> message -> St -> option (response * Z) * St;
  MapViewOfFile : Z -> St -> option Z * St;
  UnmapViewOfFile : Z -> St -> St;
  job_deadlist : Z -> St -> list dead_thread;                      (* the first [num_dead] entries *)
  job_set_done : Z -> St -> St;                                     (* [num_dead] is 0 *)
  load_lock : Z -> St -> Z;
  fetch_add_lock : Z -> Z -> St -> Z * St;
  set_robust_thread_id : Z -> Z -> St -> St;
  get_tid : St -> Z;
  getenv_lockref : St -> option cstr;
  LOCK_REFEREE_SERVER_BIN : cstr                                  (* of the configuration *)
}.

(** ** The command line of the referee *)

Definition hex_digit (d : Z) : ascii := ascii_of_N (Z.to_N (if d <? 10 then 48 + d else 87 + d)).

(** [n] hexadecimal digits, that is [%016llx] for 16 of them. *)
Fixpoint hex_digits (n : nat) (z : Z) : cstr :=
  match n with O => [] | S n => hex_digits n (z / 16) ++ [hex_digit (z mod 16)] end.

Definition referee_cmdline (binpath : cstr) (pipe : Z) : cstr := binpath ++ cs " 0x" ++ hex_digits 16 (u64 pipe).

(** The size of the buffer. *)
Definition cmdline_size (binpath : cstr) : nat := (length binpath + 1 + 2 + 16 + 1)%nat.

(** [strtoull] in base 16: the value and what follows. *)
Definition strtoull_hex (s : cstr) : Z * cstr :=
  let '(neg, s1) := take_sign (skip_spaces s) in
  let s2 := match s1 with
            | "0"%char :: x :: h :: _ => if (bool_decide (x = "x"%char) || bool_decide (x = "X"%char)) && is_hex h then drop 2 s1 else s1
            | _ => s1
            end in
  match s2 with
  | c :: _ => if is_hex c then let '(v, rest) := take_digits 16 0 s2 in (if UINT64_MAX <? v then UINT64_MAX else if neg : bool then u64 (- v) else v, rest) else (0, s)
  | [] => (0, s)
  end.

(** The handle that [main] of the referee reads in its argument: [None] if the argument is not a number. *)
Definition referee_arg_handle (hnd_str : cstr) : option Z := let '(ull, endptr) := strtoull_hex hnd_str in if bool_decide (endptr = []) then Some ull else None.

Section Client.

Context {St : Type} `{!LockrefOs St}.

Abbreviation M := (ST St).

Definition run (f : St -> St) : M unit := st_modify f.

(** ** Connection *)

(** A failure is raised but not returned. *)
Definition spawn_lock_server (pipe : Z) : M unit :=
  binpath ← st_gets getenv_lockref;
  let binpath := default LOCK_REFEREE_SERVER_BIN binpath in
  let cmdline := referee_cmdline binpath pipe in
  ok ← st_call (mm_malloca (Z.of_nat (cmdline_size binpath)));
  if negb ok then mret tt
  else if (cmdline_size binpath <? length cmdline + 1)%nat then st_ub
  else
    ok ← st_call (mm_malloca proc_attribute_list_size);
    if negb ok then mret tt
    else
      proc_info ← st_call (CreateProcess binpath cmdline pipe);
      match proc_info with
      | None => mret tt
      | Some (hThread, hProcess) => run (CloseHandle hThread);; run (CloseHandle hProcess)
      end.

Definition try_spawn_lockserver : M unit :=
  pipe ← st_call create_srv_first_pipe;
  match pipe with
  | None => mret tt
  | Some pipe =>
      inheritable_pipe ← st_call (DuplicateHandle_inheritable pipe);
      match inheritable_pipe with
      | None => mret tt
      | Some inheritable_pipe => run (CloseHandle pipe);; spawn_lock_server inheritable_pipe;; run (CloseHandle inheritable_pipe)
      end
  end.

(** [try_spawn] is [try_spawn_lockserver], or that of the variant where the referee is a thread ([RefereeThread]). *)
Fixpoint connect_loop (try_spawn : M unit) (fuel : nat) : M Z :=
  match fuel with
  | O => st_ub
  | S fuel =>
      ret ← st_call WaitNamedPipe;
      if negb ret then try_spawn;; connect_loop try_spawn fuel
      else
        pipe ← st_call CreateFile_pipe;
        match pipe with Some pipe => run (SetNamedPipeHandleState pipe);; mret pipe | None => connect_loop try_spawn fuel end
  end.

Definition connect_to_lockref_server (fuel : nat) : M Z := connect_loop try_spawn_lockserver fuel.

(** A request and its response, which must come. *)
Definition transact (conn_pipe : Z) (request : message) : M (response * Z) :=
  r ← st_call (TransactNamedPipe conn_pipe request); st_option r.

Definition create_robust_data (pipe : Z) : M Z :=
  '(_, hmap) ← transact pipe (MsgGetrobust 0);
  ptr ← st_call (MapViewOfFile hmap);
  match ptr with
  | None => st_ub
  | Some robust_data =>
      run (CloseHandle hmap);;
      (tid ← st_gets get_tid;
       run (set_robust_thread_id robust_data tid);; mret robust_data)
  end.

Definition init_lock_referee_connection (fuel : nat) (conn : lockref_connection) : M lockref_connection :=
  if is_init conn then mret conn
  else
    pipe ← connect_to_lockref_server fuel;
    robust_data ← create_robust_data pipe;
    mret (mk_conn pipe robust_data true).

Definition INVALID_HANDLE_VALUE : Z := -1.

Definition deinit_lock_referee_connection (conn : lockref_connection) : M lockref_connection :=
  if negb (is_init conn) then mret conn
  else run (CloseHandle (pipe conn));; run (UnmapViewOfFile (conn_robust_data conn));; mret (mk_conn INVALID_HANDLE_VALUE 0 false).

Definition pshared_get_robust_data (fuel : nat) (conn : lockref_connection) : M (lockref_connection * Z) :=
  conn ← init_lock_referee_connection fuel conn; mret (conn, conn_robust_data conn).

(** ** Requests *)

(** [low]: the clock that the referee reads, which the model of its requests holds. *)
Definition pshared_init_lock (fuel : nat) (conn : lockref_connection) (low : Z) : M (lockref_connection * Z) :=
  conn ← init_lock_referee_connection fuel conn;
  '(response, _) ← transact (pipe conn) (MsgInitlock low);
  match response with RespInitlock key => mret (conn, key) | _ => st_ub end.

(** A cleanup job: the acknowledgement.  The view of the job is not removed. *)
Definition cleanup_mutex_lock (hmap : Z) (shlock : shared_lock) : M message :=
  job ← st_call (MapViewOfFile hmap);
  run (CloseHandle hmap);;
  match job with
  | None => st_ub
  | Some job =>
      lockval ← st_gets (load_lock (shl_ptr shlock));
      deadlist ← st_gets (job_deadlist job);
      let cleanup_val := cleanup_change lockval deadlist in
      prev ← st_call (fetch_add_lock (shl_ptr shlock) cleanup_val);
      run (job_set_done job);;
      (let lockval := s64 (prev + cleanup_val) in
       mret (MsgCleanupDone (shl_key shlock) (if is_mtx_waited lockval && negb (is_mtx_locked lockval) then 1 else 0)))
  end.

(** The member of the response is read as [timedout]; in another response than that of a wait it is not initialized. *)
Definition response_timedout (r : response) : option Z := match r with RespWait timedout => Some timedout | _ => None end.

Fixpoint wait_loop (fuel : nat) (conn_pipe : Z) (lock : shared_lock) (request : message) : M Z :=
  match fuel with
  | O => st_ub
  | S fuel =>
      '(response, hmap) ← transact conn_pipe request;
      match response with
      | RespCleanup => ack ← cleanup_mutex_lock hmap lock; wait_loop fuel conn_pipe lock ack
      | _ => timedout ← st_option (response_timedout response); mret (if timedout =? 0 then 0 else ETIMEDOUT)
      end
  end.

(** Without timeout the time of the request is not initialized, and not used. *)
Definition wait_request (lock : shared_lock) (wakeup_val : Z) (timeout : option lock_timeout) : message :=
  match timeout with
  | Some t => MsgWait (shl_key lock) wakeup_val (to_clk_flags t) (to_ts t)
  | None => MsgWait (shl_key lock) wakeup_val 0 (mk_ts 0 0)
  end.

Definition pshared_wait_on_lock (fuel : nat) (conn : lockref_connection) (lock : shared_lock) (wakeup_val : Z) (timeout : option lock_timeout) : M Z :=
  wait_loop fuel (pipe conn) lock (wait_request lock wakeup_val timeout).

Definition pshared_wake_lock (conn : lockref_connection) (shlock : shared_lock) (val num_wakeup : Z) : M unit :=
  _ ← transact (pipe conn) (MsgWake num_wakeup (shl_key shlock) val); mret tt.

(** ** Condition variables shared between processes, with their calls *)

(** The mutex is unlocked and locked by the functions given; the addition to [waiter_seq] is that of [pshared_cond_wait_start]. *)
Definition pshared_cond_wait (fuel : nat) (conn : lockref_connection) (mutex_unlock mutex_lock : M Z) (c : cond) (abstime : option mm_timespec) : M (cond * Z) :=
  let '(c', r) := pshared_cond_wait_start c abstime in
  match r with
  | ReqWait key wakeup_val clk_flags timeout =>
      _ ← mutex_unlock;
      wait_ret ← pshared_wait_on_lock fuel conn (mk_shlock key 0) wakeup_val (mk_timeout clk_flags <$> timeout);
      ret ← mutex_lock;
      mret (c', pshared_cond_wait_ret abstime wait_ret ret)
  | ReqWake _ _ _ => st_ub
  end.

(** [pshared_cond_signal] or [pshared_cond_broadcast]: the request of [Threads], if there is one. *)
Definition pshared_cond_send (conn : lockref_connection) (r : option request) : M unit :=
  match r with
  | Some (ReqWake key val num_wakeup) => pshared_wake_lock conn (mk_shlock key 0) val num_wakeup
  | _ => mret tt
  end.

End Client.

(** ** The handle given to the referee *)

Lemma hex_digit_spec d : 0 <= d < 16 -> digit_in 16 (hex_digit d) = Some d /\ isspace (hex_digit d) = false.
Proof.
  intros H. assert (Hd : d ∈ seqZ 0 16) by (apply elem_of_seqZ; lia). revert d H Hd. vm_compute seqZ.
  intros d _ Hd. repeat (apply elem_of_cons in Hd as [->|Hd]; [by vm_compute|]). by apply elem_of_nil in Hd.
Qed.

Lemma take_digits_hex n z acc :
  0 <= z < 16 ^ Z.of_nat n -> take_digits 16 acc (hex_digits n z) = (acc * 16 ^ Z.of_nat n + z, []).
Proof.
  revert z acc. induction n as [|n IH]; intros z acc Hz; [cbn in *; f_equal; lia|].
  rewrite Nat2Z.inj_succ, Z.pow_succ_r in * by lia. cbn [hex_digits].
  assert (Happ : forall s acc v d, 0 <= d < 16 -> take_digits 16 acc s = (v, []) -> take_digits 16 acc (s ++ [hex_digit d]) = (v * 16 + d, [])).
  { clear. induction s as [|c s IH]; intros acc v d Hd Hs; cbn [app take_digits] in *.
    - destruct (hex_digit_spec d Hd) as [-> _]. by injection Hs as <-.
    - destruct (digit_in 16 c); [by apply IH|done]. }
  erewrite Happ; [|apply Z.mod_pos_bound; lia|apply IH; split; [apply Z.div_pos; lia|apply Z.div_lt_upper_bound; lia]].
  f_equal. pose proof (Z.div_mod z 16 ltac:(lia)). lia.
Qed.

Lemma hex_digits_length n z : length (hex_digits n z) = n.
Proof. revert z. induction n as [|n IH]; intros z; [done|]. cbn. rewrite length_app, IH. cbn. lia. Qed.

(** The handle of the first pipe that a client writes on the command line of the referee that it starts is the one
    that the referee reads, and the command line with its terminator has exactly the size of the buffer that holds it. *)
Theorem referee_pipe_roundtrip binpath pipe :
  in_u 64 pipe ->
  exists hnd_str, referee_cmdline binpath pipe = binpath ++ " "%char :: hnd_str
    /\ referee_arg_handle hnd_str = Some pipe
    /\ (length (referee_cmdline binpath pipe) + 1)%nat = cmdline_size binpath.
Proof.
  intros Hp. exists (cs "0x" ++ hex_digits 16 (u64 pipe)). split; [done|]. rewrite (wrap_u_small 64) by done.
  assert (Hr : 0 <= pipe < 16 ^ Z.of_nat 16) by exact Hp. split.
  - pose proof (take_digits_hex 16 pipe 0 Hr) as Ht. pose proof (hex_digits_length 16 pipe) as Hl.
    destruct (hex_digits 16 pipe) as [|h t] eqn:E; [done|].
    assert (Hh : is_hex h = true).
    { unfold is_hex. cbn [take_digits] in Ht. destruct (digit_in 16 h); [done|]. by injection Ht. }
    unfold referee_arg_handle, strtoull_hex. change (take_sign (skip_spaces (cs "0x" ++ h :: t))) with (false, cs "0x" ++ h :: t).
    change (cs "0x" ++ h :: t) with ("0"%char :: "x"%char :: h :: t). cbv iota beta zeta. rewrite Hh.
    change ((bool_decide ("x"%char = "x"%char) || bool_decide ("x"%char = "X"%char)) && true) with true. cbv iota.
    cbn [drop]. rewrite Hh, Ht, Z.mul_0_l, Z.add_0_l, bool_decide_eq_true_2 by done.
    destruct (Z.ltb_spec UINT64_MAX pipe) as [H|_]; [|done].
    unfold UINT64_MAX, in_u in *. lia.
  - unfold referee_cmdline, cmdline_size. rewrite !length_app, hex_digits_length. cbn. lia.
Qed.

Lemma referee_pipe_roundtrip_witness : referee_arg_handle (cs "0x00000000000001ac") = Some 428.
Proof. destruct (referee_pipe_roundtrip (cs "referee") 428) as (h & E & H & _); [split; [lia|reflexivity]|]. injection E as <-. exact H. Defined.
