(* ===== verification/RefereeExchange.v ===== *)
(** * A thread, the lock referee and the other threads

    The composition of [PsharedLock] with the server of [RefereeServer]: the pipe of the thread carries a request to the
    server, which then handles what comes from the other threads until it has written a response for this one.  Reads and
    writes succeed.  When the server stops, or when nothing comes any more, there is no response. *)

From S2P Require Import Prelude Time Effects MutexVal PsharedMutex Threads PtrLists Referee RefereeServer PsharedLock.

Record exchange := mk_exchange {
  ex_server : server;
  ex_self : Z;                       (* the thread, for the server *)
  ex_seen : nat;                     (* responses read *)
  ex_others : list server_event;     (* what the others will do *)
  ex_lock_key : Z;                   (* the lock that the thread waits for *)
  ex_lock : Z                        (* and its value *)
}.

Definition all_ok (tc : Z) : bool := true.

Definition set_ex_server (sv : server) (ex : exchange) : exchange :=
  mk_exchange sv (ex_self ex) (ex_seen ex) (ex_others ex) (ex_lock_key ex) (ex_lock ex).

(** The responses to a thread, in order. *)
Definition responses_to (tc : Z) (sv : server) : list response := snd <$> filter (fun p => fst p = tc) (written sv).

Fixpoint await_response (self : Z) (seen : nat) (others : list server_event) (sv : server) : option response * list server_event * server :=
  match responses_to self sv !! seen, others with
  | Some r, _ =>
      match server_step all_ok true (EvWritten self true) sv with
      | Some sv1 => (Some r, others, sv1)
      | None => (None, others, sv)
      end
  | None, e :: others' =>
      match server_step all_ok true e sv with
      | Some sv1 => await_response self seen others' sv1
      | None => (None, others, sv)
      end
  | None, [] => (None, [], sv)
  end.

Definition exchange_transact (m : message) (ex : exchange) : option (response * Z) * exchange :=
  match server_step all_ok true (EvRead (ex_self ex) (Some m)) (ex_server ex) with
  | None => (None, ex)
  | Some sv =>
      let '(r, others, sv') := await_response (ex_self ex) (ex_seen ex) (ex_others ex) sv in
      ((fun r => (r, 0)) <$> r,
        mk_exchange sv' (ex_self ex) (ex_seen ex + match r with Some _ => 1 | None => 0 end) others (ex_lock_key ex) (ex_lock ex))
  end.

(** The job of the lock, in the memory that the server shares. *)
Definition shared_job (ex : exchange) : list dead_thread := deadlist_at (ex_server ex) (ex_lock_key ex).

Definition clear_shared_job (ex : exchange) : exchange :=
  let arr := watched_locks (ex_server ex) in
  let clear lk := if decide (lk_key lk = ex_lock_key ex) then set_job ((fun j => mk_job (in_progress j) []) <$> job lk) lk else lk in
  set_ex_server (set_locks (mk_array (num_max arr) (clear <$> sorted_array arr)) (ex_server ex)) ex.

#[export] Instance exchange_os : LockrefOs exchange := {|
  WaitNamedPipe ex := (true, ex);
  create_srv_first_pipe ex := (None, ex);
  DuplicateHandle_inheritable _ ex := (None, ex);
  mm_malloca _ ex := (true, ex);
  proc_attribute_list_size := 48;
  CreateProcess _ _ _ ex := (None, ex);
  CreateFile_pipe ex := (Some 1, ex);
  SetNamedPipeHandleState _ ex := ex;
  CloseHandle _ ex := ex;
  TransactNamedPipe _ := exchange_transact;
  MapViewOfFile _ ex := (Some 2, ex);
  UnmapViewOfFile _ ex := ex;
  job_deadlist _ := shared_job;
  job_set_done _ := clear_shared_job;
  load_lock _ := ex_lock;
  fetch_add_lock _ v ex := (ex_lock ex, mk_exchange (ex_server ex) (ex_self ex) (ex_seen ex) (ex_others ex) (ex_lock_key ex) (s64 (ex_lock ex + v)));
  set_robust_thread_id _ _ ex := ex;
  get_tid ex := 0;
  getenv_lockref ex := None;
  LOCK_REFEREE_SERVER_BIN := []
|}.

(** ** A request on a serving server *)

Lemma serving_clients sv m :
  serving sv -> clients_alike (clients sv) m -> serving (set_clients m sv).
Proof.
  intros [H1 H2 H3 H4] [Hd Ha]. split; cbn; [done|done| |].
  - intros tc cl Hc. destruct (Ha tc cl Hc) as (cl0 & E & -> & _). exact (map_Forall_lookup_1 _ _ _ _ H3 E).
  - intros k x Hx. apply elem_of_dom. rewrite Hd. apply elem_of_dom. exact (H4 k x Hx).
Qed.

Lemma update_pending tc n sv cl :
  clients sv !! tc = Some cl ->
  exists m, update_client tc (add_pending n) sv = Some (set_clients m sv) /\ m !! tc = Some (add_pending n cl) /\ clients_alike (clients sv) m.
Proof.
  intros H. unfold update_client. rewrite H. eexists. split; [reflexivity|]. split; [by rewrite lookup_insert_eq|].
  by apply (clients_alike_insert _ _ cl).
Qed.

(** What a handler leaves: the clients, up to the count of their requests. *)
Lemma read_served tc m sv :
  serving sv -> is_Some (clients sv !! tc) ->
  (forall sv1, serving sv1 -> clients_alike (clients sv) (clients sv1) -> is_Some (clients sv1 !! tc) ->
     watched_locks sv1 = watched_locks sv -> written sv1 = written sv ->
     exists sv2, handle_request all_ok true tc m sv1 = Some sv2 /\ is_Some (clients sv2 !! tc)
       /\ map_Forall (fun _ cl => being_destroyed cl = false) (clients sv2)) ->
  exists sv1 sv2 m3, serving sv1 /\ clients_alike (clients sv) (clients sv1) /\ watched_locks sv1 = watched_locks sv
    /\ written sv1 = written sv /\ timeout_heap sv1 = timeout_heap sv
    /\ handle_request all_ok true tc m sv1 = Some sv2
    /\ server_step all_ok true (EvRead tc (Some m)) sv = Some (set_clients m3 sv2) /\ clients_alike (clients sv2) m3.
Proof.
  intros Hs [cl Hcl] Hreq. destruct (update_pending tc (-1) sv cl Hcl) as (m1 & E1 & Hm1 & A1).
  assert (Hs1 := serving_clients sv m1 Hs A1).
  destruct (Hreq (set_clients m1 sv)) as (sv2 & E2 & [cl2 Hcl2] & Hlive); [done|done|by eexists|done|done|].
  destruct (update_pending tc 1 sv2 cl2 Hcl2) as (m3 & E3 & _ & A3).
  exists (set_clients m1 sv), sv2, m3. split_and!; try done.
  cbn [server_step]. unfold read_completed. rewrite E1. cbn [mbind option_bind set_clients clients]. rewrite Hm1.
  cbn [mbind option_bind]. destruct (map_Forall_lookup_1 _ _ _ _ (sv_clients _ Hs) Hcl) as [Hd _].
  change (being_destroyed (add_pending (-1) cl)) with (being_destroyed cl). rewrite Hd, E2. cbn [mbind option_bind].
  unfold thread_client_queue_read. rewrite Hcl2. cbn [mbind option_bind].
  rewrite (map_Forall_lookup_1 _ _ _ _ Hlive Hcl2). exact E3.
Qed.

Lemma served_live m m' :
  map_Forall (fun _ cl => being_destroyed cl = false) m -> clients_alike m m' -> map_Forall (fun _ cl => being_destroyed cl = false) m'.
Proof. intros H [_ Ha] tc cl Hc. destruct (Ha tc cl Hc) as (cl0 & E & -> & _). exact (map_Forall_lookup_1 _ _ _ _ H E). Qed.

Lemma serving_live sv : serving sv -> map_Forall (fun _ cl => being_destroyed cl = false) (clients sv).
Proof. intros Hs tc cl Hc. by destruct (map_Forall_lookup_1 _ _ _ _ (sv_clients _ Hs) Hc). Qed.

Lemma alike_some m m' tc : clients_alike m m' -> is_Some (m !! tc) -> is_Some (m' !! tc).
Proof. intros [Hd _] H. apply elem_of_dom. rewrite Hd. by apply elem_of_dom. Qed.

(** The lock and the clients once a request of the thread has been put in the queue. *)
Definition queued_lock (lk : lock) (tc : Z) : lock :=
  mk_lock (lk_key lk) (max_wakeup_val lk) (nwaiter lk + 1) (waiters_queue lk ++ [tc]) (job lk).

Lemma wait_handled tc sv key val timeout :
  serving sv -> is_Some (clients sv !! tc) ->
  let lk := lock_for (watched_locks sv) key in
  0 <= nwaiter lk ->
  exists sv' cl, handle_request all_ok true tc (MsgWait key val 0 timeout) sv = Some sv'
    /\ lock_map (watched_locks sv') = <[key := queued_lock lk tc]> (lock_map (watched_locks sv))
    /\ written sv' = written sv
    /\ clients sv !! tc = Some cl /\ clients_alike (<[tc := set_wakeup_val val cl]> (clients sv)) (clients sv')
    /\ dom (clients sv') = dom (clients sv)
    /\ timeout_heap sv' = timeout_heap sv /\ arr_ok (watched_locks sv')
    /\ (forall n, has_room (watched_locks sv) (n + 1) -> has_room (watched_locks sv') n).
Proof.
  intros Hs Htc lk Hnw.
  pose proof (wait_request_served all_ok tc sv key val timeout (fun _ => eq_refl) Hs Htc) as H. cbv zeta in H.
  unfold lock_add_waiter in H. fold lk in H. rewrite (proj2 (Z.leb_gt (nwaiter lk + 1) 0)) in H by lia.
  cbn [andb] in H. rewrite app_nil_r in H.
  destruct H as (sv' & H1 & H2 & H3 & (cl & Hcl & A) & H4 & H5 & H6). exists sv', cl. split_and!; try done.
  destruct A as [-> _]. apply dom_insert_lookup_L. eauto.
Qed.

(** The clients keep being served when a lock has one more client in its queue. *)
Lemma queued_serving tc sv sv' key val cl :
  serving sv -> clients sv !! tc = Some cl -> clients_alike (<[tc := set_wakeup_val val cl]> (clients sv)) (clients sv') ->
  dom (clients sv') = dom (clients sv) -> timeout_heap sv' = timeout_heap sv -> arr_ok (watched_locks sv') -> has_room (watched_locks sv') 1 ->
  lock_map (watched_locks sv') = <[key := queued_lock (lock_for (watched_locks sv) key) tc]> (lock_map (watched_locks sv)) ->
  serving sv' /\ client_wakeup_val sv' tc = val.
Proof.
  intros Hs Hcl [_ A] Hdom Hheap Hok Hroom Hm. split; [split; [done|done| |]|].
  - intros x cx Hx. destruct (A x cx Hx) as (c0 & E0 & -> & _). rewrite Hheap. destruct (decide (x = tc)) as [->|Hne].
    + rewrite lookup_insert_eq in E0. injection E0 as <-. exact (map_Forall_lookup_1 _ _ _ _ (sv_clients _ Hs) Hcl).
    + rewrite lookup_insert_ne in E0 by done. exact (map_Forall_lookup_1 _ _ _ _ (sv_clients _ Hs) E0).
  - intros k x. rewrite (lock_for_insert _ _ _ _ k Hm). intros Hx. apply elem_of_dom. rewrite Hdom. apply elem_of_dom.
    case_decide as Hkk; [|exact (sv_queued _ Hs k x Hx)]. cbn in Hx.
    apply elem_of_app in Hx as [Hx|Hx]; [exact (sv_queued _ Hs key x Hx)|].
    apply list_elem_of_singleton in Hx as ->. eauto.
  - unfold client_wakeup_val. destruct (clients sv' !! tc) as [c|] eqn:E.
    + destruct (A _ _ E) as (c1 & Hc1 & _ & Hw). rewrite lookup_insert_eq in Hc1. injection Hc1 as <-. exact Hw.
    + apply not_elem_of_dom in E. rewrite Hdom in E. destruct E. apply elem_of_dom. eauto.
Qed.

Lemma alike_wakeup_val sv m tc : is_Some (clients sv !! tc) -> clients_alike (clients sv) m -> client_wakeup_val (set_clients m sv) tc = client_wakeup_val sv tc.
Proof.
  intros Htc A. unfold client_wakeup_val. cbn. destruct (alike_some _ _ tc A Htc) as [c Hc]. rewrite Hc.
  destruct A as [_ A]. destruct (A _ _ Hc) as (c0 & -> & _ & Hw). exact Hw.
Qed.

(** The wait of a thread whose wake-up is not there: it is the last of the queue. *)
Lemma wait_step tc sv key val timeout :
  serving sv -> is_Some (clients sv !! tc) -> has_room (watched_locks sv) 2 ->
  let lk := lock_for (watched_locks sv) key in
  0 <= nwaiter lk ->
  exists sv', server_step all_ok true (EvRead tc (Some (MsgWait key val 0 timeout))) sv = Some sv'
    /\ serving sv' /\ written sv' = written sv /\ dom (clients sv') = dom (clients sv) /\ client_wakeup_val sv' tc = val
    /\ lock_for (watched_locks sv') key = queued_lock lk tc.
Proof.
  intros Hs Htc Hroom lk Hnw.
  destruct (read_served tc (MsgWait key val 0 timeout) sv Hs Htc) as (sv1 & sv2 & m3 & Hs1 & A1 & W1 & R1 & T1 & E2 & E3 & A3).
  { intros sv1 Hs1 A1 Htc1 W1 R1.
    destruct (wait_handled tc sv1 key val timeout Hs1 Htc1) as (sv2 & cl & E2 & _ & _ & Hcl & A2 & Hdom & _); [by rewrite W1|].
    exists sv2. split; [done|]. split; [apply elem_of_dom; rewrite Hdom; by apply elem_of_dom|].
    refine (served_live _ _ _ A2). by apply map_Forall_insert_2; [exact (map_Forall_lookup_1 _ _ _ _ (serving_live _ Hs1) Hcl)|apply serving_live]. }
  destruct (wait_handled tc sv1 key val timeout Hs1 (alike_some _ _ _ A1 Htc)) as (sv2' & cl & E2' & Hm & R2 & Hcl & A2 & Hdom & T2 & Hok & Hrm);
    [by rewrite W1|]. rewrite E2 in E2'. injection E2' as <-.
  destruct (queued_serving tc sv1 sv2 key val cl) as [Hs2 Hv]; try done; [apply Hrm; by rewrite W1|].
  exists (set_clients m3 sv2). split; [exact E3|]. cbn. split_and!.
  - by apply serving_clients.
  - by rewrite R2.
  - destruct A3 as [-> _]. rewrite Hdom. apply A1.
  - rewrite alike_wakeup_val; [done| |done]. apply elem_of_dom. rewrite Hdom. apply elem_of_dom. eauto.
  - by rewrite (lock_for_insert _ _ _ _ key Hm), decide_True, W1 by done.
Qed.

Lemma wake_scan_ext wv wv' q num val : (forall x, x ∈ q -> wv x = wv' x) -> wake_scan wv q num val = wake_scan wv' q num val.
Proof.
  revert num. induction q as [|x q IH]; intros num H; [done|]. cbn [wake_scan]. rewrite (H x) by set_solver.
  by rewrite !IH by set_solver.
Qed.

(** A wake request: what it writes and the lock that it leaves. *)
Lemma wake_step tc sv num key val :
  serving sv -> is_Some (clients sv !! tc) ->
  let '(lk', woken) := lock_wake_waiters (client_wakeup_val sv) (lock_for (watched_locks sv) key) num val in
  exists sv', server_step all_ok true (EvRead tc (Some (MsgWake num key val))) sv = Some sv'
    /\ written sv' = written sv ++ ((fun x => (x, RespWait 1)) <$> woken) ++ [(tc, RespWake)]
    /\ clients_alike (clients sv) (clients sv') /\ lock_for (watched_locks sv') key = lk'.
Proof.
  intros Hs Htc.
  assert (Hval : forall sv1, clients_alike (clients sv) (clients sv1) -> watched_locks sv1 = watched_locks sv ->
    lock_wake_waiters (client_wakeup_val sv1) (lock_for (watched_locks sv1) key) num val
    = lock_wake_waiters (client_wakeup_val sv) (lock_for (watched_locks sv) key) num val).
  { intros sv1 A1 ->. unfold lock_wake_waiters. rewrite (wake_scan_ext _ (client_wakeup_val sv)); [done|].
    intros x Hx. pose proof (sv_queued _ Hs key x Hx) as Hc. exact (alike_wakeup_val sv (clients sv1) x Hc A1). }
  destruct (lock_wake_waiters (client_wakeup_val sv) _ num val) as [lk' woken] eqn:E.
  destruct (read_served tc (MsgWake num key val) sv Hs Htc) as (sv1 & sv2 & m3 & Hs1 & A1 & W1 & R1 & T1 & E2 & E3 & A3).
  { intros sv1 Hs1 A1 Htc1 W1 R1. pose proof (wake_request_served all_ok tc sv1 num key val (fun _ => eq_refl) Hs1 Htc1) as H.
    rewrite (Hval sv1 A1 W1) in H. destruct H as (sv2 & E2 & _ & _ & A2). exists sv2. split; [done|].
    split; [exact (alike_some _ _ _ A2 Htc1)|]. exact (served_live _ _ (serving_live _ Hs1) A2). }
  pose proof (wake_request_served all_ok tc sv1 num key val (fun _ => eq_refl) Hs1 (alike_some _ _ _ A1 Htc)) as H.
  rewrite (Hval sv1 A1 W1) in H. destruct H as (sv2' & E2' & Hm & R2 & A2). rewrite E2 in E2'. injection E2' as <-.
  exists (set_clients m3 sv2). split; [exact E3|]. cbn. rewrite R2, R1. split; [done|].
  split; [by eapply clients_alike_trans; [|eapply clients_alike_trans]|]. by rewrite (lock_for_insert _ _ _ _ key Hm), decide_True by done.
Qed.

(** The last of the queue is woken when there are enough wake-ups. *)
Lemma wake_scan_last wv q tc num val :
  Z.of_nat (length q) < num -> wv tc <= val ->
  exists rest woken, wake_scan wv (q ++ [tc]) num val = (rest, woken ++ [tc]) /\ rest ⊆ q /\ woken ⊆ q.
Proof.
  revert num. induction q as [|x q IH]; intros num Hn Hv; cbn [app wake_scan length] in *.
  - rewrite (proj2 (Z.eqb_neq num 0)), (proj2 (Z.ltb_ge val (wv tc))) by lia. by exists [], [].
  - rewrite (proj2 (Z.eqb_neq num 0)) by lia. destruct (val <? wv x).
    + destruct (IH num) as (rest & woken & -> & H1 & H2); [lia|done|]. exists (x :: rest), woken. split; [done|]. set_solver.
    + destruct (IH (num - 1)) as (rest & woken & -> & H1 & H2); [lia|done|]. exists rest, (x :: woken). split; [done|]. set_solver.
Qed.

Lemma responses_woken (tc B : Z) (woken : list Z) :
  tc ∉ woken -> B <> tc ->
  filter (fun p => fst p = tc) (((fun x => (x, RespWait 1)) <$> woken ++ [tc]) ++ [(B, RespWake)]) = [(tc, RespWait 1)].
Proof.
  intros Hn HB. rewrite fmap_app, !filter_app. assert (H : filter (fun p => fst p = tc) ((fun x => (x, RespWait 1)) <$> woken) = []).
  { induction woken as [|x woken IH]; [done|]. rewrite fmap_cons, filter_cons_False by (cbn; set_solver). apply IH. set_solver. }
  rewrite H. cbn [fmap list_fmap]. rewrite filter_cons_True, filter_nil, filter_cons_False by done. done.
Qed.

Lemma responses_after tc B woken sv sv' :
  tc ∉ woken -> B <> tc -> written sv' = written sv ++ ((fun x => (x, RespWait 1)) <$> woken ++ [tc]) ++ [(B, RespWake)] ->
  responses_to tc sv' = responses_to tc sv ++ [RespWait 1].
Proof. intros Hw HB R. unfold responses_to. rewrite R, filter_app, responses_woken by done. by rewrite fmap_app. Qed.

Lemma written_done tc sv :
  serving sv -> forall sv', clients_alike (clients sv) (clients sv') -> is_Some (clients sv !! tc) ->
  exists m, server_step all_ok true (EvWritten tc true) sv' = Some (set_clients m sv').
Proof.
  intros Hs sv' A Htc. destruct (alike_some _ _ _ A Htc) as [cl Hcl]. destruct (update_pending tc (-1) sv' cl Hcl) as (m & E & Hm & _).
  exists m. cbn [server_step]. unfold write_completed. rewrite E. cbn [mbind option_bind set_clients clients]. rewrite Hm. cbn [mbind option_bind].
  pose proof (map_Forall_lookup_1 _ _ _ _ (served_live _ _ (serving_live _ Hs) A) Hcl) as Hd. cbn [negb orb being_destroyed add_pending]. cbn in Hd. by rewrite Hd.
Qed.

(** C10. A thread that waits without deadline is queued on its lock, and the wake-up that another thread sends, with a
    value and a count that reach it, ends its wait with one response and takes it off the queue; but the client reads this response
    as the end of a time out: the member has the opposite value, so that a normal wake-up returns [ETIMEDOUT] where the comment of the
    function promises 0. *)
Theorem woken_wait_times_out fuel conn ex key ptr val num val' B others :
  let sv := ex_server ex in
  let tc := ex_self ex in
  let lk := lock_for (watched_locks sv) key in
  serving sv -> has_room (watched_locks sv) 2 -> is_Some (clients sv !! tc) -> is_Some (clients sv !! B) -> B <> tc ->
  0 <= nwaiter lk -> tc ∉ waiters_queue lk -> ex_seen ex = length (responses_to tc sv) ->
  ex_others ex = EvRead B (Some (MsgWake num key val')) :: others -> Z.of_nat (length (waiters_queue lk)) < num -> val <= val' ->
  exists ex', pshared_wait_on_lock (S fuel) conn (mk_shlock key ptr) val None ex = Some (ETIMEDOUT, ex')
    /\ ex_others ex' = others /\ ex_lock ex' = ex_lock ex
    /\ tc ∉ waiters_queue (lock_for (watched_locks (ex_server ex')) key)
    /\ nwaiter (lock_for (watched_locks (ex_server ex')) key) = nwaiter lk + 1 - num.
Proof.
  intros sv tc lk Hs Hroom Htc HB Hne Hnw Hq Hseen Hoth Hnum Hval.
  destruct (wait_step tc sv key val (mk_ts 0 0) Hs Htc Hroom Hnw) as (sv1 & E1 & Hs1 & R1 & D1 & V1 & L1).
  assert (Hdom : forall x, is_Some (clients sv !! x) -> is_Some (clients sv1 !! x)).
  { intros x Hx. apply elem_of_dom. rewrite D1. by apply elem_of_dom. }
  pose proof (wake_step B sv1 num key val' Hs1 (Hdom B HB)) as H. unfold lock_wake_waiters in H. rewrite L1 in H. cbn [queued_lock waiters_queue nwaiter] in H.
  destruct (wake_scan_last (client_wakeup_val sv1) (waiters_queue lk) tc num val') as (rest & woken & Esc & Hr & Hw); [done|by rewrite V1|].
  fold lk in H. rewrite Esc in H. destruct H as (sv2 & E2 & R2 & A2 & L2).
  destruct (written_done tc sv1 Hs1 sv2 A2 (Hdom tc Htc)) as (m & E3).
  assert (Hr1 : responses_to tc sv1 !! ex_seen ex = None).
  { apply lookup_ge_None. rewrite Hseen. unfold responses_to. by rewrite R1. }
  assert (Hr2 : responses_to tc sv2 !! ex_seen ex = Some (RespWait 1)).
  { rewrite (responses_after tc B woken sv1 sv2 (fun H => Hq (Hw _ H)) Hne R2), Hseen. apply list_lookup_middle.
    unfold responses_to. by rewrite R1. }
  eexists. split.
  - unfold pshared_wait_on_lock, wait_loop, transact. rewrite (st_bind_Some _ _ _ (RespWait 1, 0) (mk_exchange (set_clients m sv2) tc (ex_seen ex + 1) others (ex_lock_key ex) (ex_lock ex))).
    + reflexivity.
    + unfold st_call, st_option, mbind, st_bind. cbn [TransactNamedPipe exchange_os]. unfold exchange_transact, wait_request. cbn [shl_key].
      fold sv tc. rewrite E1, Hoth. cbn [await_response]. rewrite Hr1, E2. destruct others; cbn [await_response]; rewrite Hr2, E3; reflexivity.
  - cbn. split_and!; [done|done| |].
    + rewrite L2. cbn. intros Hin. exact (Hq (Hr _ Hin)).
    + by rewrite L2.
Qed.

(** ** Exchanges *)

Module ExchangeDemo.

Definition client0 : thread_client := mk_client 0 0 (mk_ts 0 0) 1 false None.

(** The thread 44 holds the lock 9. *)
Definition owner : thread_client := mk_client 0 0 (mk_ts 0 0) 1 false (Some (mk_robust 44 0 false 1 [9; 0])).

Definition two_threads (other : thread_client) : server :=
  mk_server lock_array_init {[ 4 := client0; 8 := other ]}
    {[ realtime_timeout_list := mk_node None None; monotonic_timeout_list := mk_node None None; 4 := mk_node None None; 8 := mk_node None None ]} [] 2 false 0.

Definition conn0 : lockref_connection := mk_conn 1 2 true.

Definition woken : exchange := mk_exchange (two_threads client0) 4 0 [EvRead 8 (Some (MsgWake 1 9 1))] 9 0.

(** The owner dies while the thread waits: the server collects the dead threads. *)
Definition owner_dies : exchange := mk_exchange (two_threads owner) 4 0 [EvRead 8 None; EvCollect] 9 (mtx_lockval 44 0 1).

(** The waiting thread repairs the value of the lock and says that a thread can be woken, and it is the one that is woken: the lock is
    free, to be recovered, and counts it as a waiter. *)
Example owner_death_repaired :
  exists ex', pshared_wait_on_lock 2 conn0 (mk_shlock 9 0) 1 None owner_dies = Some (ETIMEDOUT, ex')
    /\ ex_lock ex' = Z.lor MTX_NEED_RECOVER_MASK (mtx_lockval 0 0 1)
    /\ written (ex_server ex') = [(4, RespCleanup); (4, RespWait 1)] /\ num_thread_client (ex_server ex') = 1.
Proof. eexists. split; [vm_compute; reflexivity|]. repeat split. Qed.

(** A wait that nobody ends has no response. *)
Example nobody_wakes : pshared_wait_on_lock 3 conn0 (mk_shlock 9 0) 1 None (mk_exchange (two_threads client0) 4 0 [] 9 0) = None.
Proof. by vm_compute. Qed.

Lemma serving_start : serving (two_threads client0).
Proof.
  split; [|reflexivity| |].
  - split; [constructor|]. split; [vm_compute; discriminate|]. split; [vm_compute; discriminate|reflexivity].
  - apply (bool_decide_unpack _). vm_compute. exact I.
  - intros k x. unfold lock_for, lock_map. cbn. rewrite lookup_empty. cbn. intros Hx. by apply elem_of_nil in Hx.
Qed.
End ExchangeDemo.

Import ExchangeDemo.

Lemma woken_wait_times_out_witness :
  exists ex', pshared_wait_on_lock 1 conn0 (mk_shlock 9 0) 1 None woken = Some (ETIMEDOUT, ex') /\ ex_others ex' = [].
Proof.
  destruct (woken_wait_times_out 0 conn0 woken 9 0 1 1 1 8 []) as (ex' & E & H & _).
  - exact serving_start.
  - reflexivity.
  - eexists. reflexivity.
  - eexists. reflexivity.
  - discriminate.
  - vm_compute. discriminate.
  - intros Hx. by apply elem_of_nil in Hx.
  - reflexivity.
  - reflexivity.
  - reflexivity.
  - reflexivity.
  - exists ex'. split; [exact E|exact H].
Defined.
