(* ===== verification/RefereeLoop.v ===== *)
(** * The main loop of the lock referee

    The start, the main loop and the end of [lock-referee-server.c]: the loop updates the time outs, waits for a connection or for the completions of
    reads and writes, handles them and collects the dead threads, until the last client leaves.  The handlers are those of [RefereeServer]; the calls of
    Windows are the class [ServerOs].  [None] is undefined behaviour, or fuel exhausted: the loop has no bound of its own. *)

From S2P Require Import Prelude Time Effects CStr PtrLists Referee RefereeServer PsharedLock.

Inductive wait_result := WAIT_OBJECT_0 | WAIT_IO_COMPLETION | WAIT_TIMEOUT | WAIT_FAILED.

(** The error of [ConnectNamedPipe]. *)
Inductive connect_status := ERROR_IO_PENDING | ERROR_PIPE_CONNECTED | ERROR_OTHER.

(** What is completed during a wait. *)
Inductive completion := ReadDone (tc : Z) (msg : option message) | WriteDone (tc : Z) (ok : bool).

Inductive trustee := EVERYONE | CURRENT_USER.
Record EXPLICIT_ACCESS := mk_access { grfAccessPermissions : Z; ptstrName : trustee }.

(** The address of a null handle or of a handle that is not valid is [None]. *)
Class ServerOs (St : Type) := {
  create_server_pipe : St -> option Z * St;                       (* [create_srv_first_pipe] *)
  CreateEvent : St -> option Z * St;
  SetEvent : Z -> St -> bool * St;
  CloseServerHandle : Z -> St -> St;
  SetEntriesInAcl : list EXPLICIT_ACCESS -> St -> option Z * St;
  LocalAlloc : St -> option Z * St;
  LocalFree : Z -> St -> St;
  SetSecurityInfo : Z -> Z -> St -> bool * St;                   (* access list of a pipe *)
  CreateNamedPipe : Z -> St -> option Z * St;                    (* with a security descriptor *)
  ConnectNamedPipe : Z -> Z -> St -> bool * connect_status * St;
  GetOverlappedResult : Z -> St -> bool * St;
  WaitForSingleObjectEx : Z -> Z -> St -> wait_result * list completion * St;
  calloc_locks : St -> bool * St;
  malloc_client : St -> bool * St;
  gettimespec_wallclock_w32 : St -> mm_timespec * St;
  gettimespec_monotonic_w32 : St -> mm_timespec * St;
  can_queue : Z -> bool;                                         (* reads and writes on the pipe of a client *)
  can_map : bool
}.

(** The server with its pipe, its event and its security attributes: descriptor and access list. *)
Record lockref_server := mk_lockref {
  srv_is_init : bool;
  connect_evt : option Z;
  srv_pipe : option Z;
  sec_attr : option (Z * Z);
  srv : server
}.

Definition lockref_start : lockref_server := mk_lockref false None None None (set_locks (mk_array 0 []) server_start).

Definition GENERIC_READ : Z := 0x80000000.
Definition FILE_WRITE_DATA : Z := 0x2.
Definition FILE_CREATE_PIPE_INSTANCE : Z := 0x4.

Section Loop.

Context {St : Type} `{!ServerOs St}.

Abbreviation M := (ST (St * lockref_server)).

Definition sys {A} (f : St -> A * St) : M A := fun '(w, s) => let '(a, w') := f w in Some (a, (w', s)).
Definition sysv (f : St -> St) : M unit := fun '(w, s) => Some (tt, (f w, s)).
Definition sget {A} (f : lockref_server -> A) : M A := fun '(w, s) => Some (f s, (w, s)).
Definition sset (f : lockref_server -> lockref_server) : M unit := fun '(w, s) => Some (tt, (w, f s)).

(** A handler of the server. *)
Definition serve {A} (f : server -> option (server * A)) : M A :=
  fun '(w, s) => '(sv, a) ← f (srv s); Some (a, (w, mk_lockref (srv_is_init s) (connect_evt s) (srv_pipe s) (sec_attr s) sv)).
Definition servev (f : server -> option server) : M unit := serve (fun sv => sv' ← f sv; Some (sv', tt)).

Definition set_srv_pipe (p : option Z) (s : lockref_server) : lockref_server := mk_lockref (srv_is_init s) (connect_evt s) p (sec_attr s) (srv s).
Definition set_sec_attr (a : option (Z * Z)) (s : lockref_server) : lockref_server := mk_lockref (srv_is_init s) (connect_evt s) (srv_pipe s) a (srv s).
Definition set_srv (sv : server) (s : lockref_server) : lockref_server := mk_lockref (srv_is_init s) (connect_evt s) (srv_pipe s) (sec_attr s) sv.

(** ** Security attributes of the pipes *)

Definition deinit_pipe_security_attrs : M unit :=
  a ← sget sec_attr;
  match a with
  | None => mret tt
  | Some (sd, acl) => sysv (LocalFree acl);; sysv (LocalFree sd);; sset (set_sec_attr None)
  end.

(** The results of the calls are not checked: a list or a descriptor that is missing is used. *)
Definition init_pipe_security_attrs : M unit :=
  let ea :=
    [mk_access (Z.lor GENERIC_READ FILE_WRITE_DATA) EVERYONE;
     mk_access (Z.lor (Z.lor GENERIC_READ FILE_WRITE_DATA) FILE_CREATE_PIPE_INSTANCE) CURRENT_USER] in
  acl ← sys (SetEntriesInAcl ea);
  sd ← sys LocalAlloc;
  match acl, sd with
  | Some acl, Some sd => sset (set_sec_attr (Some (sd, acl)))
  | _, _ => st_ub
  end.

Definition setup_initial_pipe (pipe : Z) : M bool :=
  a ← sget sec_attr;
  match a with
  | None => st_ub
  | Some (_, dacl) => sys (SetSecurityInfo pipe dacl)
  end.

Definition create_srv_new_pipe : M (option Z) :=
  a ← sget sec_attr;
  match a with None => st_ub | Some (sd, _) => sys (CreateNamedPipe sd) end.

(** ** Connections *)

(** The address of a new client is not that of another. *)
Definition new_address (sv : server) : Z := fresh (dom (clients sv) ∪ dom (timeout_heap sv)).

Definition handle_new_connection : M bool :=
  ok ← sys malloc_client;
  if negb ok then mret false
  else
    servev (fun sv => server_step can_queue can_map (EvConnect (new_address sv)) sv);;
    (pipe ← create_srv_new_pipe;
     sset (set_srv_pipe pipe);;
     mret (match pipe with Some _ => true | None => false end)).

(** [None] is a failure, and the boolean tells whether the connection is pending. *)
Definition lockref_server_queue_connect : M (option bool) :=
  pipe ← sget srv_pipe;
  evt ← sget connect_evt;
  match pipe, evt with
  | Some pipe, Some evt =>
      '(ret, err) ← sys (ConnectNamedPipe pipe evt);
      if ret : bool then mret None
      else
        match err with
        | ERROR_IO_PENDING => mret (Some true)
        | ERROR_PIPE_CONNECTED => ok ← sys (SetEvent evt); mret (if ok : bool then Some false else None)
        | ERROR_OTHER => mret None
        end
  | _, _ => st_ub
  end.

(** ** Main loop *)

Definition complete (c : completion) (sv : server) : option server :=
  server_step can_queue can_map (match c with ReadDone tc msg => EvRead tc msg | WriteDone tc ok => EvWritten tc ok end) sv.

Fixpoint complete_all (l : list completion) (sv : server) : option server :=
  match l with [] => Some sv | c :: l => sv1 ← complete c sv; complete_all l sv1 end.

Definition update_next_timeout_ns : M Z :=
  now ← sys gettimespec_wallclock_w32;
  d1 ← serve (update_timeout_list can_queue can_map now realtime_timeout_list);
  now ← sys gettimespec_monotonic_w32;
  d2 ← serve (update_timeout_list can_queue can_map now monotonic_timeout_list);
  mret (Z.min (Z.min INT64_MAX d1) d2).

(** The completion routines run in the wait. *)
Definition wait_events (timeout_ms : Z) : M wait_result :=
  evt ← sget connect_evt;
  match evt with
  | None => st_ub
  | Some evt => '(res, done) ← sys (WaitForSingleObjectEx evt timeout_ms); servev (complete_all done);; mret res
  end.

Definition collect : M unit := servev (server_step can_queue can_map EvCollect).

(** One turn: [None] is a failure, and the boolean is [io_pending]. *)
Definition mainloop_turn (io_pending : bool) : M (option bool) :=
  timeout_ns ← update_next_timeout_ns;
  wait_res ← wait_events (wait_ms timeout_ns);
  match wait_res with
  | WAIT_OBJECT_0 =>
      pipe ← sget srv_pipe;
      ok ← match pipe with
           | Some pipe => if io_pending then sys (GetOverlappedResult pipe) else mret true
           | None => st_ub
           end;
      if negb ok then mret None
      else
        ok ← handle_new_connection;
        if negb ok then mret None
        else
          io_pending ← lockref_server_queue_connect;
          match io_pending with None => mret None | Some io_pending => collect;; mret (Some io_pending) end
  | WAIT_IO_COMPLETION | WAIT_TIMEOUT => collect;; mret (Some io_pending)
  | WAIT_FAILED => mret None
  end.

Fixpoint mainloop_turns (fuel : nat) (io_pending : bool) : M bool :=
  match fuel with
  | O => st_ub
  | S fuel =>
      q ← sget (fun s => quit (srv s));
      if q : bool then mret true
      else
        r ← mainloop_turn io_pending;
        match r with None => mret false | Some io_pending => mainloop_turns fuel io_pending end
  end.

(** [false] if it ends by a failure. *)
Definition lockref_server_mainloop (fuel : nat) : M bool :=
  r ← lockref_server_queue_connect;
  match r with None => mret false | Some io_pending => mainloop_turns fuel io_pending end.

(** ** Start and end *)

Definition close_opt (h : option Z) : M unit := match h with Some h => sysv (CloseServerHandle h) | None => mret tt end.

Definition lockref_server_deinit : M unit :=
  i ← sget srv_is_init;
  if negb i then mret tt
  else
    deinit_pipe_security_attrs;;
    (pipe ← sget srv_pipe; close_opt pipe;; (evt ← sget connect_evt; close_opt evt)).

(** The failures close the pipe, whose owner is the server. *)
Definition lockref_server_init (pipe : Z) : M bool :=
  evt ← sys CreateEvent;
  let failure := close_opt evt;; sysv (CloseServerHandle pipe);; deinit_pipe_security_attrs;; sset (fun s => set_srv (set_locks (mk_array 0 []) (srv s)) s);; mret false in
  match evt with
  | None => failure
  | Some evt =>
      init_pipe_security_attrs;;
      (ok ← sys calloc_locks;
       if negb ok then failure
       else
         sset (fun s => set_srv (set_locks lock_array_init (srv s)) s);;
         (ok ← setup_initial_pipe pipe;
          if negb ok then failure
          else sset (fun s => mk_lockref true (Some evt) (Some pipe) (sec_attr s) (srv s));; mret true))
  end.

Definition run_lockserver (fuel : nat) (pipehnd : Z) : M bool :=
  ok ← lockref_server_init pipehnd;
  if negb ok then mret false
  else _ ← lockref_server_mainloop fuel; lockref_server_deinit;; mret true.

(** The exit status; the argument is the handle of the pipe. *)
Definition main (fuel : nat) (arg : option cstr) : M Z :=
  pipehnd ← match arg with
            | Some hnd_str => mret (referee_arg_handle hnd_str)
            | None => sys create_server_pipe
            end;
  match pipehnd with
  | None => mret 1
  | Some pipehnd => ok ← run_lockserver fuel pipehnd; mret (if ok : bool then 0 else 1)
  end.

(** The routine of the thread, in the variant where the referee is not a process. *)
Definition lockserver_thread_routine (fuel : nat) : M unit :=
  pipehnd ← sys create_server_pipe;
  match pipehnd with
  | None => mret tt
  | Some pipehnd => _ ← run_lockserver fuel pipehnd; mret tt
  end.

End Loop.

(** ** The number of clients *)

(** The count is right, and the server ends when it has no client. *)
Definition counted (sv : server) : Prop :=
  num_thread_client sv = Z.of_nat (size (clients sv)) /\ (quit sv = true -> clients sv = ∅).

(** The same clients, and what keeps the invariant. *)
Definition same_count (sv sv' : server) : Prop :=
  dom (clients sv') = dom (clients sv) /\ num_thread_client sv' = num_thread_client sv /\ quit sv' = quit sv.
Definition keeps (sv sv' : server) : Prop := counted sv -> counted sv'.

#[export] Instance same_count_preorder : PreOrder same_count.
Proof. split; [done|]. intros sv1 sv2 sv3 (? & ? & ?) (? & ? & ?). split_and!; congruence. Qed.

#[export] Instance keeps_preorder : PreOrder keeps.
Proof. split; [by intros sv H|]. intros sv1 sv2 sv3 H1 H2 H. auto. Qed.

Lemma keeps_same sv sv' : same_count sv sv' -> keeps sv sv'.
Proof.
  intros (D & N & Q) [H1 H2]. split; [rewrite N, H1, <- !size_dom, D; done|]. rewrite Q. intros Hq. apply dom_empty_inv_L.
  by rewrite D, (H2 Hq), dom_empty_L.
Qed.

Lemma same_count_client sv sv' tc : same_count sv sv' -> is_Some (clients sv !! tc) -> is_Some (clients sv' !! tc).
Proof. intros (D & _) H. apply elem_of_dom. rewrite D. by apply elem_of_dom. Qed.

Lemma update_client_same tc f sv sv' : update_client tc f sv = Some sv' -> same_count sv sv' /\ is_Some (clients sv !! tc).
Proof.
  unfold update_client. intros H. destruct (clients sv !! tc) as [cl|] eqn:E; [|done]. injection H as <-. split; [|eauto].
  split; [|done]. cbn. apply dom_insert_lookup_L. eauto.
Qed.

Lemma with_lock_same {A} key create (f : lock -> option (lock * A)) sv sv' a : with_lock key create f sv = Some (sv', a) -> same_count sv sv'.
Proof.
  unfold with_lock. intros H. destruct (lock_array_get_lock _ _ _) as [[arr oi]|]; [|done]. cbn in H. destruct oi as [i|]; [|done].
  cbn in H. destruct (sorted_array arr !! Z.to_nat i) as [lk|]; [|done]. cbn in H. destruct (f lk) as [[lk' b]|]; [|done].
  by injection H as <- <-.
Qed.

(** The call of [with_lock] in the goal: it succeeds, with a server that has the same clients. *)
Ltac with_lock_case s a E :=
  lazymatch goal with
  | |- context [with_lock ?k ?c ?f ?sv] =>
      let Hl := fresh "Hlock" in destruct (with_lock k c f sv) as [[s a]|] eqn:Hl; [|done]; cbn [mbind option_bind]; pose proof (with_lock_same _ _ _ _ _ _ Hl) as E
  end.

Section Counted.

Variable io_ok : Z -> bool.
Variable mapping_ok : bool.

Lemma report_dead_same key w tid sv sv' : report_dead mapping_ok key w tid sv = Some sv' -> same_count sv sv'.
Proof.
  unfold report_dead. with_lock_case s u E. by intros [= <-].
Qed.

Lemma report_locked_same keys tid sv sv' : report_locked mapping_ok keys tid sv = Some sv' -> same_count sv sv'.
Proof.
  revert sv. induction keys as [|k keys IH]; intros sv; cbn [report_locked]; [by intros [= <-]|].
  destruct (report_dead _ k false tid sv) as [sv1|] eqn:E; [|done]. cbn [mbind option_bind]. intros H%IH. apply report_dead_same in E. by etrans.
Qed.

Lemma cleanup_robust_data_same rd sv sv' : thread_client_cleanup_robust_data mapping_ok rd sv = Some sv' -> same_count sv sv'.
Proof.
  unfold thread_client_cleanup_robust_data. destruct rd as [rd|]; [|by intros [= <-]]. case_decide; [|done].
  destruct (report_locked _ _ _ sv) as [sv1|] eqn:E; [|done]. cbn [mbind option_bind]. apply report_locked_same in E.
  destruct (negb _); [|by intros [= <-]]. intros H1%report_dead_same. by etrans.
Qed.

Lemma delete_keeps tc sv : is_Some (clients sv !! tc) ->
  keeps sv (lockref_server_update_thread_count (-1) (set_clients (delete tc (clients sv)) sv)).
Proof.
  intros [cl E] [H1 H2]. unfold counted. cbn.
  assert (Hs : size (clients sv) = S (size (delete tc (clients sv)))) by (rewrite <- map_size_insert_None with (i := tc) (x := cl); [by rewrite insert_delete_id|apply lookup_delete_eq]).
  split; [lia|]. intros Hq%Z.eqb_eq. apply map_size_empty_inv. lia.
Qed.

Lemma create_keeps tc sv : clients sv !! tc = None -> keeps sv (thread_client_create tc sv).
Proof.
  intros E [H1 H2]. unfold counted. cbn. rewrite map_size_insert_None by done. split; [lia|]. intros Hq%Z.eqb_eq. lia.
Qed.

Lemma thread_client_destroy_keeps tc sv sv' : thread_client_destroy mapping_ok tc sv = Some sv' -> keeps sv sv'.
Proof.
  unfold thread_client_destroy. destruct (update_client tc set_being_destroyed sv) as [sv0|] eqn:E0; [|done]. cbn [mbind option_bind].
  apply update_client_same in E0 as [E0 Htc]. apply (same_count_client _ _ tc E0) in Htc as [cl Htc]. rewrite Htc. cbn [mbind option_bind].
  destruct (negb (num_pending_request cl =? 0)); [intros [= <-]; by apply keeps_same|].
  set (o := if negb _ then _ else _). assert (Ho : forall sv1, o = Some sv1 -> same_count sv0 sv1).
  { subst o. intros sv1. destruct (negb (waiting_lock_key cl =? 0)); [|by intros [= <-]].
    with_lock_case s u E1.
    destruct (detach_list_node _ tc); [|done]. by intros [= <-]. }
  destruct o as [sv1|]; [|done]. specialize (Ho sv1 eq_refl). cbn [mbind option_bind].
  destruct (thread_client_cleanup_robust_data _ _ sv1) as [sv2|] eqn:E2; [|done]. cbn [mbind option_bind]. intros [= <-]. apply cleanup_robust_data_same in E2.
  assert (H : same_count sv sv2) by (by etrans; [|etrans]). etrans; [by apply keeps_same|]. apply delete_keeps.
  apply (same_count_client _ _ tc (transitivity Ho E2)). eauto.
Qed.

Lemma queue_read_keeps tc sv sv' : thread_client_queue_read io_ok mapping_ok tc sv = Some sv' -> keeps sv sv'.
Proof.
  unfold thread_client_queue_read. destruct (clients sv !! tc) as [cl|]; [|done]. cbn [mbind option_bind]. destruct (being_destroyed cl); [by intros [= <-]|].
  destruct (io_ok tc); [|apply thread_client_destroy_keeps]. intros [H _]%update_client_same. by apply keeps_same.
Qed.

Lemma queue_write_keeps tc r sv sv' : thread_client_queue_write io_ok mapping_ok tc r sv = Some sv' -> keeps sv sv'.
Proof.
  unfold thread_client_queue_write. destruct (clients sv !! tc) as [cl|]; [|done]. cbn [mbind option_bind]. destruct (being_destroyed cl); [by intros [= <-]|].
  destruct (io_ok tc); [|apply thread_client_destroy_keeps]. destruct (update_client _ _ sv) as [sv1|] eqn:E; [|done]. cbn [mbind option_bind]. intros [= <-].
  apply update_client_same in E as [E _]. by apply keeps_same.
Qed.

Lemma wakeup_keeps tc b sv sv' : thread_client_wakeup io_ok mapping_ok tc b sv = Some sv' -> keeps sv sv'.
Proof.
  unfold thread_client_wakeup. destruct (detach_list_node _ tc) as [h|]; [|done]. cbn [mbind option_bind]. destruct (update_client _ _ _) as [sv1|] eqn:E; [|done].
  cbn [mbind option_bind]. intros H%queue_write_keeps. apply update_client_same in E as [E _]. etrans; [|exact H]. by apply keeps_same.
Qed.

Lemma wakeup_all_keeps l sv sv' : wakeup_all io_ok mapping_ok l sv = Some sv' -> keeps sv sv'.
Proof.
  revert sv. induction l as [|tc l IH]; intros sv; cbn [wakeup_all]; [by intros [= <-]|].
  destruct (thread_client_wakeup _ _ tc false sv) as [sv1|] eqn:E; [|done]. cbn [mbind option_bind]. intros H%IH. apply wakeup_keeps in E. by etrans.
Qed.

Lemma process_timeout_keeps tc sv sv' : thread_client_process_timeout io_ok mapping_ok tc sv = Some sv' -> keeps sv sv'.
Proof.
  unfold thread_client_process_timeout. destruct (clients sv !! tc) as [cl|]; [|done]. cbn [mbind option_bind].
  with_lock_case s u E. intros H%wakeup_keeps. etrans; [|exact H]. by apply keeps_same.
Qed.

Lemma wake_lock_keeps key num val create prepare sv sv' : wake_lock io_ok mapping_ok key num val create prepare sv = Some sv' -> keeps sv sv'.
Proof.
  unfold wake_lock. with_lock_case s l E. intros H%wakeup_all_keeps.
  etrans; [|exact H]. by apply keeps_same.
Qed.

Lemma req_wait_keeps tc key val clk timeout sv sv' : thread_client_handle_req_wait io_ok mapping_ok tc key val clk timeout sv = Some sv' -> keeps sv sv'.
Proof.
  unfold thread_client_handle_req_wait. destruct (update_client _ _ sv) as [sv1|] eqn:E1; [|done]. cbn [mbind option_bind]. apply update_client_same in E1 as [E1 _].
  with_lock_case sv2 w E2. assert (E : same_count sv sv2) by (by etrans).
  destruct (negb w); [intros H%wakeup_keeps; etrans; [|exact H]; by apply keeps_same|].
  destruct (lockref_server_get_timeout_list clk); [|intros [= <-]; by apply keeps_same].
  destruct (update_client _ (set_wait_timeout timeout) sv2) as [sv3|] eqn:E3; [|done]. cbn [mbind option_bind]. apply update_client_same in E3 as [E3 _].
  destruct (timeout_list_add_waiter _ _ _ _ tc) as [h|]; [|done]. cbn [mbind option_bind]. intros [= <-]. apply keeps_same. by etrans.
Qed.

Lemma req_getrobust_keeps tc n sv sv' : thread_client_handle_req_getrobust io_ok mapping_ok tc n sv = Some sv' -> keeps sv sv'.
Proof.
  unfold thread_client_handle_req_getrobust, thread_client_add_robust_data. destruct mapping_ok eqn:Em; [|rewrite <- Em; apply queue_write_keeps].
  destruct (update_client _ _ sv) as [sv1|] eqn:E; [|done]. cbn [mbind option_bind]. rewrite <- Em. intros H%queue_write_keeps. apply update_client_same in E as [E _].
  etrans; [|exact H]. by apply keeps_same.
Qed.

Lemma handle_request_keeps tc m sv sv' : handle_request io_ok mapping_ok tc m sv = Some sv' -> keeps sv sv'.
Proof.
  destruct m; cbn [handle_request].
  - unfold thread_client_handle_req_wake. destruct (wake_lock _ _ _ _ _ _ _ sv) as [sv1|] eqn:E; [|done]. cbn [mbind option_bind]. intros H%queue_write_keeps.
    apply wake_lock_keeps in E. by etrans.
  - apply req_wait_keeps.
  - unfold thread_client_handle_req_initlock. destruct (gen_pshared_key _ _) as [l k]. intros H%queue_write_keeps. etrans; [|exact H]. by apply keeps_same.
  - apply req_getrobust_keeps.
  - apply wake_lock_keeps.
  - apply queue_write_keeps.
Qed.
End Counted.

Section Steps.

Variable io_ok : Z -> bool.
Variable mapping_ok : bool.

Lemma do_cleanup_jobs_keeps l sv sv' : do_cleanup_jobs io_ok mapping_ok l sv = Some sv' -> keeps sv sv'.
Proof.
  revert sv. induction l as [|tc l IH]; intros sv; cbn [do_cleanup_jobs]; [by intros [= <-]|].
  destruct (thread_client_do_cleanup_job _ _ tc sv) as [sv1|] eqn:E; [|done]. cbn [mbind option_bind]. intros H%IH. etrans; [|exact H].
  unfold thread_client_do_cleanup_job in E. destruct mapping_ok eqn:Em; [|by injection E as <-]. rewrite <- Em in E. by apply queue_write_keeps in E.
Qed.

Lemma update_timeouts_keeps fuel now node sv sv' d : update_timeouts io_ok mapping_ok fuel now node sv = Some (sv', d) -> keeps sv sv'.
Proof.
  revert node sv. induction fuel as [|fuel IH]; intros node sv; [done|]. cbn [update_timeouts].
  destruct node as [tc|]; [|by intros [= <- <-]]. destruct (mm_timediff_ns _ now) as [diff|]; [|done]. cbn [mbind option_bind].
  destruct (0 <=? diff); [by intros [= <- <-]|]. destruct (timeout_heap sv !! tc) as [nd|]; [|done]. cbn [mbind option_bind].
  destruct (thread_client_process_timeout _ _ tc sv) as [sv1|] eqn:E; [|done]. cbn [mbind option_bind]. intros H%IH.
  apply process_timeout_keeps in E. by etrans.
Qed.

Lemma update_timeout_list_keeps now head sv sv' d : update_timeout_list io_ok mapping_ok now head sv = Some (sv', d) -> keeps sv sv'.
Proof. unfold update_timeout_list. destruct (timeout_heap sv !! head); [|done]. apply update_timeouts_keeps. Qed.

(** Every event keeps the count, if the new clients are new. *)
Lemma server_step_keeps e sv sv' :
  (forall tc, e = EvConnect tc -> clients sv !! tc = None) -> server_step io_ok mapping_ok e sv = Some sv' -> keeps sv sv'.
Proof.
  intros Hnew. destruct e as [tc|tc msg|tc ok| |r m]; cbn [server_step].
  - intros H%queue_read_keeps. etrans; [|exact H]. by apply create_keeps, Hnew.
  - unfold read_completed. destruct (update_client tc _ sv) as [sv1|] eqn:E; [|done]. cbn [mbind option_bind].
    apply update_client_same in E as [E _]. destruct (clients sv1 !! tc) as [cl|]; [|done]. cbn [mbind option_bind].
    intros H. etrans; [by apply keeps_same|]. destruct msg as [msg|]; [|by apply thread_client_destroy_keeps in H].
    destruct (being_destroyed cl); [by apply thread_client_destroy_keeps in H|].
    destruct (handle_request _ _ tc msg sv1) as [sv2|] eqn:E2; [|done]. apply queue_read_keeps in H. apply handle_request_keeps in E2. by etrans.
  - unfold write_completed. destruct (update_client tc _ sv) as [sv1|] eqn:E; [|done]. cbn [mbind option_bind].
    apply update_client_same in E as [E _]. destruct (clients sv1 !! tc) as [cl|]; [|done]. cbn [mbind option_bind].
    destruct (_ || _); [|by intros [= <-]; apply keeps_same]. intros H%thread_client_destroy_keeps. etrans; [|exact H]. by apply keeps_same.
  - unfold lockref_server_garbage_collection. destruct (lock_array_update_cleanup_jobs _) as [arr todo]. intros H%do_cleanup_jobs_keeps.
    etrans; [|exact H]. by apply keeps_same.
  - unfold lockref_server_update_next_timeout_ns. destruct (update_timeout_list _ _ r _ sv) as [[sv1 d1]|] eqn:E1; [|done]. cbn [mbind option_bind].
    destruct (update_timeout_list _ _ m _ sv1) as [[sv2 d2]|] eqn:E2; [|done]. cbn [mbind option_bind]. intros [= <-].
    apply update_timeout_list_keeps in E1, E2. by etrans.
Qed.

Definition run_events (l : list server_event) (sv : server) : option server :=
  fold_left (fun o e => sv ← o; server_step io_ok mapping_ok e sv) l (Some sv).

Lemma run_events_None l : fold_left (fun o e => sv ← o; server_step io_ok mapping_ok e sv) l None = None.
Proof. by induction l. Qed.

Lemma run_events_app l1 l2 sv sv1 : run_events l1 sv = Some sv1 -> run_events (l1 ++ l2) sv = run_events l2 sv1.
Proof. unfold run_events. by rewrite fold_left_app; intros ->. Qed.

Lemma run_events_cons e l sv sv1 : server_step io_ok mapping_ok e sv = Some sv1 -> run_events (e :: l) sv = run_events l sv1.
Proof. unfold run_events. cbn [fold_left mbind option_bind]. by intros ->. Qed.

End Steps.

(** ** The turns of the loop *)

Definition is_io (e : server_event) : Prop := match e with EvRead _ _ | EvWritten _ _ => True | _ => False end.

(** The events of a turn: the time outs, the completions, perhaps a connection, the collection. *)
Inductive turn_events : list server_event -> Prop :=
| turn_of real mono done connects :
    Forall is_io done -> (connects = [] \/ exists tc, connects = [EvConnect tc]) ->
    turn_events (EvLoop real mono :: done ++ connects ++ [EvCollect]).

(** The beginning of one, when it fails. *)
Definition cut_turn (l : list server_event) : Prop := exists l', turn_events (l ++ l').

Section LoopEvents.

Context {St : Type} `{!ServerOs St}.

Lemma complete_all_events l sv sv' :
  complete_all l sv = Some sv' ->
  exists evs, Forall is_io evs /\ run_events can_queue can_map evs sv = Some sv' /\ keeps sv sv'.
Proof.
  revert sv. induction l as [|c l IH]; intros sv; cbn [complete_all]; [intros [= <-]; by exists []|].
  destruct (complete c sv) as [sv1|] eqn:E; [|done]. cbn [mbind option_bind]. intros H. destruct (IH sv1 H) as (evs & Hio & Hr & Hk).
  unfold complete in E. eexists (_ :: evs). split; [|split]; [|erewrite run_events_cons by exact E; exact Hr|].
  - constructor; [by destruct c|done].
  - etrans; [|exact Hk]. apply server_step_keeps in E; [done|]. by destruct c.
Qed.

(** The calls of the system leave the server as it is. *)
Lemma sys_bind {A B} (f : St -> A * St) (k : A -> ST (St * lockref_server) B) w s o :
  (sys f ≫= k) (w, s) = o -> exists a w', k a (w', s) = o.
Proof. unfold mbind, st_bind, sys. destruct (f w) as [a w']. eauto. Qed.

Lemma sget_bind {A B} (f : lockref_server -> A) (k : A -> ST (St * lockref_server) B) w s : (sget f ≫= k) (w, s) = k (f s) (w, s).
Proof. done. Qed.

Lemma serve_bind {A B} (f : server -> option (server * A)) (k : A -> ST (St * lockref_server) B) w s r :
  (serve f ≫= k) (w, s) = Some r -> exists sv a, f (srv s) = Some (sv, a) /\ k a (w, set_srv sv s) = Some r.
Proof. unfold mbind at 1, st_bind, serve. destruct (f (srv s)) as [[sv a]|]; [|done]. cbn. eauto. Qed.

Lemma servev_bind {B} (f : server -> option server) (k : unit -> ST (St * lockref_server) B) w s r :
  (servev f ≫= k) (w, s) = Some r -> exists sv, f (srv s) = Some sv /\ k tt (w, set_srv sv s) = Some r.
Proof. intros (sv & [] & H & Hk)%serve_bind. destruct (f (srv s)) as [sv1|]; [|done]. injection H as <-. eauto. Qed.

Lemma next_timeout_bind {B} (k : Z -> ST (St * lockref_server) B) w s r :
  (update_next_timeout_ns ≫= k) (w, s) = Some r ->
  exists real mono sv d w', server_step can_queue can_map (EvLoop real mono) (srv s) = Some sv /\ k d (w', set_srv sv s) = Some r.
Proof.
  unfold update_next_timeout_ns. rewrite !st_bind_assoc. intros H. apply sys_bind in H as (real & w1 & H).
  rewrite st_bind_assoc in H. apply serve_bind in H as (sv1 & d1 & E1 & H). rewrite st_bind_assoc in H. apply sys_bind in H as (mono & w2 & H).
  rewrite st_bind_assoc in H. apply serve_bind in H as (sv2 & d2 & E2 & H). cbn in E2, H.
  exists real, mono, sv2, (Z.min (Z.min INT64_MAX d1) d2), w2. split; [|exact H].
  cbn [server_step]. unfold lockref_server_update_next_timeout_ns. rewrite E1. cbn [mbind option_bind]. by rewrite E2.
Qed.

Lemma wait_bind {B} timeout_ms (k : wait_result -> ST (St * lockref_server) B) w s r :
  (wait_events timeout_ms ≫= k) (w, s) = Some r ->
  exists res evs sv w', Forall is_io evs /\ run_events can_queue can_map evs (srv s) = Some sv /\ keeps (srv s) sv /\ k res (w', set_srv sv s) = Some r.
Proof.
  unfold wait_events. rewrite st_bind_assoc, sget_bind. destruct (connect_evt s) as [evt|]; [|done]. rewrite st_bind_assoc.
  intros H. apply sys_bind in H as ([res done] & w1 & H). rewrite st_bind_assoc in H. apply servev_bind in H as (sv & E & H).
  destruct (complete_all_events _ _ _ E) as (evs & H1 & H2 & H3). exists res, evs, sv, w1. done.
Qed.

Lemma queue_connect_bind {B} (k : option bool -> ST (St * lockref_server) B) w s r :
  (lockref_server_queue_connect ≫= k) (w, s) = Some r -> exists p w', k p (w', s) = Some r.
Proof.
  unfold lockref_server_queue_connect. rewrite !st_bind_assoc, sget_bind, st_bind_assoc, sget_bind.
  destruct (srv_pipe s) as [pipe|], (connect_evt s) as [evt|]; try done. rewrite st_bind_assoc. intros H.
  apply sys_bind in H as ([ret err] & w1 & H). destruct ret; [exists None, w1; exact H|].
  destruct err; [exists (Some true), w1; exact H| |exists None, w1; exact H].
  rewrite st_bind_assoc in H. apply sys_bind in H as (ok & w2 & H). exists (if ok then Some false else None), w2. exact H.
Qed.

Lemma new_connection_bind {B} (k : bool -> ST (St * lockref_server) B) w s r :
  (handle_new_connection ≫= k) (w, s) = Some r ->
  (exists w', k false (w', s) = Some r)
  \/ exists ok sv pipe w', server_step can_queue can_map (EvConnect (new_address (srv s))) (srv s) = Some sv
       /\ k ok (w', set_srv_pipe pipe (set_srv sv s)) = Some r.
Proof.
  unfold handle_new_connection. rewrite st_bind_assoc. intros H. apply sys_bind in H as (ok & w1 & H). destruct ok; cbn [negb] in H; [|left; exists w1; exact H].
  right. rewrite st_bind_assoc in H. apply servev_bind in H as (sv & E & H). unfold create_srv_new_pipe in H.
  rewrite !st_bind_assoc, sget_bind in H. cbn [sec_attr set_srv] in H. destruct (sec_attr s) as [[sd acl]|]; [|done].
  apply sys_bind in H as (pipe & w2 & H).
  exists (match pipe with Some _ => true | None => false end), sv, pipe, w2. split; [exact E|exact H].
Qed.

Lemma new_address_new sv : clients sv !! new_address sv = None.
Proof. apply not_elem_of_dom. pose proof (is_fresh (dom (clients sv) ∪ dom (timeout_heap sv))) as H. unfold new_address. set_solver. Qed.

Lemma connect_keeps sv sv' : server_step can_queue can_map (EvConnect (new_address sv)) sv = Some sv' -> keeps sv sv'.
Proof. apply server_step_keeps. intros tc [= <-]. apply new_address_new. Qed.

Lemma collect_bind {B} (k : unit -> ST (St * lockref_server) B) w s r :
  (collect ≫= k) (w, s) = Some r ->
  exists sv, server_step can_queue can_map EvCollect (srv s) = Some sv /\ keeps (srv s) sv /\ k tt (w, set_srv sv s) = Some r.
Proof. intros (sv & E & H)%servev_bind. exists sv. split; [done|]. split; [|done]. apply server_step_keeps in E; done. Qed.

(** What a turn does to the server before the collection, and to its end. *)
Definition turn_part (sv0 sv : server) : Prop :=
  exists real mono done connects, Forall is_io done /\ (connects = [] \/ exists tc, connects = [EvConnect tc])
    /\ run_events can_queue can_map (EvLoop real mono :: done ++ connects) sv0 = Some sv /\ keeps sv0 sv.
Definition turn_result (r : option bool) (sv0 sv : server) : Prop :=
  exists evs, run_events can_queue can_map evs sv0 = Some sv /\ keeps sv0 sv
    /\ match r with Some _ => turn_events evs | None => cut_turn evs end.

Lemma turn_part_stops sv0 sv : turn_part sv0 sv -> turn_result None sv0 sv.
Proof.
  intros (real & mono & done & connects & H1 & H2 & H3 & H4). eexists. split; [exact H3|]. split; [exact H4|].
  exists [EvCollect]. cbn [app]. rewrite <- app_assoc. by apply turn_of.
Qed.

Lemma turn_part_ends sv0 s q w r w' s' :
  turn_part sv0 (srv s) -> (collect ≫= fun _ => mret (Some q)) (w, s) = Some (r, (w', s')) -> turn_result r sv0 (srv s').
Proof.
  intros (real & mono & done & connects & H1 & H2 & H3 & H4) H. apply collect_bind in H as (sv3 & E3 & K3 & [= <- <- <-]).
  exists ((EvLoop real mono :: done ++ connects) ++ [EvCollect]). split; [|split].
  - erewrite run_events_app by exact H3. by erewrite run_events_cons.
  - etrans; [exact H4|exact K3].
  - cbn [app]. rewrite <- app_assoc. by apply turn_of.
Qed.

(** The part of a turn for a new connection. *)
Lemma turn_connects sv0 s w r w' s' real mono done :
  Forall is_io done -> run_events can_queue can_map (EvLoop real mono :: done) sv0 = Some (srv s) -> keeps sv0 (srv s) ->
  (ok ← handle_new_connection;
   if negb ok then mret None
   else
     io_pending ← lockref_server_queue_connect;
     match io_pending with None => mret None | Some io_pending => collect;; mret (Some io_pending) end) (w, s) = Some (r, (w', s')) ->
  turn_result r sv0 (srv s').
Proof.
  intros Hio Hrun K H. assert (Hpart : turn_part sv0 (srv s)).
  { exists real, mono, done, []. rewrite app_nil_r. split; [done|]. split; [by left|done]. }
  apply new_connection_bind in H as [(w4 & [= <- <- <-])|(ok & sv3 & pipe' & w4 & E3 & H)]; [by apply turn_part_stops|].
  assert (Hconn : turn_part sv0 sv3).
  { exists real, mono, done, [EvConnect (new_address (srv s))]. split; [done|]. split; [right; eauto|]. split; [|by etrans; [|apply connect_keeps]].
    rewrite app_comm_cons. erewrite run_events_app by exact Hrun. by erewrite run_events_cons by exact E3. }
  destruct ok; cbn [negb] in H; [|injection H as <- <- <-; by apply turn_part_stops].
  apply queue_connect_bind in H as (q & w5 & H). destruct q as [q|]; [|injection H as <- <- <-; by apply turn_part_stops].
  by eapply turn_part_ends in H.
Qed.

(** A turn that fails has done a part of the events of a turn. *)
Lemma mainloop_turn_events p w s r w' s' :
  mainloop_turn p (w, s) = Some (r, (w', s')) -> turn_result r (srv s) (srv s').
Proof.
  unfold mainloop_turn. intros H. apply next_timeout_bind in H as (real & mono & sv1 & d & w1 & E1 & H).
  apply wait_bind in H as (res & done & sv2 & w2 & Hio & E2 & K2 & H). cbn [srv set_srv] in E2, K2.
  assert (Hrun : run_events can_queue can_map (EvLoop real mono :: done) (srv s) = Some sv2) by by erewrite run_events_cons.
  assert (K : keeps (srv s) sv2) by (etrans; [by apply server_step_keeps in E1|exact K2]).
  assert (Hpart : turn_part (srv s) (srv (set_srv sv2 (set_srv sv1 s)))).
  { exists real, mono, done, []. rewrite app_nil_r. split; [done|]. split; [by left|done]. }
  destruct res; [|by eapply turn_part_ends in H|by eapply turn_part_ends in H|injection H as <- <- <-; by apply turn_part_stops].
  rewrite sget_bind in H. destruct (srv_pipe _) as [pipe|]; [|done].
  assert (Hok : exists ok w3, (if negb ok then mret None else
        ok ← handle_new_connection;
        if negb ok then mret None
        else
          io_pending ← lockref_server_queue_connect;
          match io_pending with None => mret None | Some io_pending => collect;; mret (Some io_pending) end)
      (w3, set_srv sv2 (set_srv sv1 s)) = Some (r, (w', s'))).
  { destruct p; [by apply sys_bind in H|by exists true, w2]. }
  clear H. destruct Hok as (ok & w3 & H). destruct ok; cbn [negb] in H; [|injection H as <- <- <-; by apply turn_part_stops].
  exact (turn_connects (srv s) (set_srv sv2 (set_srv sv1 s)) w3 r w' s' real mono done Hio Hrun K H).
Qed.

Lemma mainloop_turns_events fuel p w s r w' s' :
  mainloop_turns fuel p (w, s) = Some (r, (w', s')) ->
  exists turns last, run_events can_queue can_map (concat turns ++ last) (srv s) = Some (srv s') /\ keeps (srv s) (srv s')
    /\ Forall turn_events turns /\ if r then last = [] /\ quit (srv s') = true else cut_turn last.
Proof.
  revert p w s. induction fuel as [|fuel IH]; intros p w s; [done|]. cbn [mainloop_turns]. rewrite sget_bind.
  destruct (quit (srv s)) eqn:Eq; [intros [= <- <- <-]; by exists [], []|]. intros H.
  destruct (mainloop_turn p (w, s)) as [[r1 [w1 s1]]|] eqn:E; [|unfold mbind, st_bind in H; by rewrite E in H].
  rewrite (st_bind_Some _ _ _ _ _ E) in H. apply mainloop_turn_events in E as (evs & Hr & K & Hshape). destruct r1 as [p1|].
  - destruct (IH p1 w1 s1 H) as (turns & last & Hr2 & K2 & Ht & Hl). exists (evs :: turns), last. cbn [concat]. rewrite <- app_assoc.
    erewrite run_events_app by exact Hr. split; [done|]. split; [by etrans|]. split; [by constructor|done].
  - injection H as <- <- <-. exists [], evs. split; [done|]. split; [done|]. by split.
Qed.

End LoopEvents.


(** ** A referee that is started, serves one thread and ends *)

Module LoopDemo.

Record machine := mk_machine { m_waits : list (wait_result * list completion); m_open : list Z; m_next : Z; m_event_ok : bool }.

Definition open_handle (s : machine) : Z * machine := (m_next s, mk_machine (m_waits s) (m_next s :: m_open s) (m_next s + 1) (m_event_ok s)).
Definition some_handle (s : machine) : option Z * machine := let '(h, s1) := open_handle s in (Some h, s1).
Definition close_handle (h : Z) (s : machine) : machine := mk_machine (m_waits s) (filter (fun x => x <> h) (m_open s)) (m_next s) (m_event_ok s).

#[global] Instance machine_os : ServerOs machine := {|
  create_server_pipe := some_handle;
  CreateEvent s := if m_event_ok s then some_handle s else (None, s);
  SetEvent _ s := (true, s);
  CloseServerHandle := close_handle;
  SetEntriesInAcl _ := some_handle;
  LocalAlloc := some_handle;
  LocalFree := close_handle;
  SetSecurityInfo _ _ s := (true, s);
  CreateNamedPipe _ := some_handle;
  ConnectNamedPipe _ _ s := (false, ERROR_IO_PENDING, s);
  GetOverlappedResult _ s := (true, s);
  WaitForSingleObjectEx _ _ s :=
    match m_waits s with
    | [] => (WAIT_FAILED, [], s)
    | (r, l) :: waits => (r, l, mk_machine waits (m_open s) (m_next s) (m_event_ok s))
    end;
  calloc_locks s := (true, s);
  malloc_client s := (true, s);
  gettimespec_wallclock_w32 s := (mk_ts 1 0, s);
  gettimespec_monotonic_w32 s := (mk_ts 1 0, s);
  can_queue _ := true;
  can_map := true
|}.

Definition first_client : Z := new_address server_start.

Definition one_client (last : list (wait_result * list completion)) : machine :=
  mk_machine ([(WAIT_TIMEOUT, []); (WAIT_OBJECT_0, []); (WAIT_IO_COMPLETION, [ReadDone first_client (Some (MsgGetrobust 0))]);
    (WAIT_IO_COMPLETION, [WriteDone first_client true])] ++ last) [] 1 true.

(** The thread leaves: the referee ends, and what it has opened is closed, the first pipe being closed with the client that took it. *)
Example serves_one_client :
  exists w s, main 10 None (one_client [(WAIT_IO_COMPLETION, [ReadDone first_client None])], lockref_start) = Some (0, (w, s))
    /\ m_open w = [1] /\ clients (srv s) = ∅ /\ written (srv s) = [(first_client, RespGetrobust 508)].
Proof. eexists _, _. split; [vm_compute; reflexivity|]. by vm_compute. Qed.

(** A failure of the wait ends it with its client, and the status is that of a success. *)
Example failure_is_success :
  exists w s, main 10 None (one_client [], lockref_start) = Some (0, (w, s)) /\ size (clients (srv s)) = 1%nat.
Proof. eexists _, _. split; [vm_compute; reflexivity|]. by vm_compute. Qed.

(** Without event there is no server, and the pipe is closed. *)
Example no_event :
  exists w s, main 10 (Some (cs "0x0000000000000005")) (mk_machine [] [5] 9 false, lockref_start) = Some (1, (w, s)) /\ m_open w = [].
Proof. eexists _, _. split; [vm_compute; reflexivity|]. by vm_compute. Qed.

(** The first wait of a referee that is started. *)
Definition started : lockref_server := mk_lockref true (Some 2) (Some 1) (Some (4, 3)) server_start.
End LoopDemo.

Import LoopDemo.

