(* ===== verification/RefereeThread.v ===== *)
(** * The referee as a thread

    The variant of [pshared-lock.c] without a process for the referee ([LOCKSERVER_IN_MMLIB_DLL]): the first
    thread that finds no referee starts one in its own process ([RefereeLoop.lockserver_thread_routine]).  The referee
    ends when its last client leaves ([RefereeLoop.mainloop_turns]), and a process starts it once only. *)

From S2P Require Import Prelude CStr Effects RefereeServer PsharedLock RefereeLoop.

(** The flag is that of [mm_once], [create_thread] the creation of the detached thread that runs [lockserver_thread_routine]. *)
Class OnceOs (St : Type) := {
  lockserver_once : St -> bool;
  set_lockserver_once : St -> St;
  create_thread : St -> St
}.

Section Variant.

Context {St : Type} `{!LockrefOs St, !OnceOs St}.

Definition spawn_lockserver_thread : ST St unit := run create_thread.

(** [mm_once] sets its flag before it calls the routine. *)
Definition try_spawn_lockserver : ST St unit :=
  done ← st_gets lockserver_once;
  if done : bool then mret tt else run set_lockserver_once;; spawn_lockserver_thread.

Definition connect_to_lockref_server (fuel : nat) : ST St Z := connect_loop try_spawn_lockserver fuel.

(** [gone]: there is no server end of the pipe, and only a thread of this process will make one. *)
Class OnceLaws (gone serving : St -> Prop) : Prop := {
  law_wait_gone s : gone s -> exists s', WaitNamedPipe s = (false, s') /\ gone s' /\ lockserver_once s' = lockserver_once s;
  law_wait_serving s : serving s -> exists s', WaitNamedPipe s = (true, s') /\ serving s';
  law_connect_serving s : serving s -> exists pipe s', CreateFile_pipe s = (Some pipe, s');
  law_create_thread s : gone s -> serving (create_thread (set_lockserver_once s))
}.

Context (gone serving : St -> Prop) `{!OnceLaws gone serving}.

(** The first connection of a process where there is no referee starts one and gets its pipe.  Once this referee has ended, which it
    does as soon as no thread is connected, no connection of the process ever ends: the flag stays set, and the loop waits for a referee
    that nobody starts. *)
Theorem referee_started_once (s : St) :
  gone s ->
  (lockserver_once s = false -> exists pipe s', connect_to_lockref_server 2 s = Some (pipe, s'))
  /\ (lockserver_once s = true -> forall fuel, connect_to_lockref_server fuel s = None).
Proof.
  unfold connect_to_lockref_server. intros Hg. split.
  - intros Ho. destruct (law_wait_gone s Hg) as (s1 & E1 & Hg1 & Ho1).
    assert (Hs := law_create_thread s1 Hg1). destruct (law_wait_serving _ Hs) as (s2 & E2 & Hs2).
    destruct (law_connect_serving s2 Hs2) as (p & s3 & E3).
    cbn [connect_loop]. unfold try_spawn_lockserver, spawn_lockserver_thread, run, mbind, st_bind, st_call, st_gets, st_modify.
    rewrite E1. cbn [negb]. rewrite Ho1, Ho. rewrite E2. cbn [negb]. rewrite E3. by eexists _, _.
  - intros Ho fuel. revert s Hg Ho. induction fuel as [|fuel IH]; intros s Hg Ho; [done|].
    destruct (law_wait_gone s Hg) as (s1 & E1 & Hg1 & Ho1). cbn [connect_loop].
    unfold try_spawn_lockserver, mbind, st_bind, st_call, st_gets. rewrite E1. cbn [negb]. rewrite Ho1, Ho. cbn [mret st_ret].
    apply IH; [done|congruence].
Qed.

End Variant.

(** ** A process whose referee answers at once *)

Module ThreadDemo.

Record machine := mk_machine { flag : bool; served : bool }.

#[global] Instance pipes : LockrefOs machine := {|
  WaitNamedPipe s := (served s, s);
  create_srv_first_pipe s := (None, s);
  DuplicateHandle_inheritable _ s := (None, s);
  CreateProcess _ _ _ s := (None, s);
  CreateFile_pipe s := (Some 7, s);
  SetNamedPipeHandleState _ s := s;
  mm_malloca _ s := (true, s);
  proc_attribute_list_size := 48;
  CloseHandle _ s := s;
  TransactNamedPipe _ _ s := (None, s);
  MapViewOfFile _ s := (None, s);
  UnmapViewOfFile _ s := s;
  job_deadlist _ _ := [];
  job_set_done _ s := s;
  load_lock _ _ := 0;
  fetch_add_lock _ _ s := (0, s);
  set_robust_thread_id _ _ s := s;
  get_tid _ := 4;
  getenv_lockref _ := None;
  LOCK_REFEREE_SERVER_BIN := cs "lock-referee.exe"
|}.

#[global] Instance threads : OnceOs machine := {|
  lockserver_once := flag;
  set_lockserver_once s := mk_machine true (served s);
  create_thread s := mk_machine (flag s) true
|}.

Definition gone (s : machine) : Prop := served s = false.
Definition serving (s : machine) : Prop := served s = true.

#[global] Instance thread_laws : OnceLaws gone serving.
Proof.
  split; unfold gone, serving.
  - intros s Hs. exists s. cbn. by rewrite Hs.
  - intros s Hs. exists s. cbn. by rewrite Hs.
  - intros s _. by eexists _, _.
  - done.
Qed.

Definition last_client_leaves (s : machine) : machine := mk_machine (flag s) false.

End ThreadDemo.

Lemma referee_started_once_witness :
  exists pipe s, connect_to_lockref_server 2 (ThreadDemo.mk_machine false false) = Some (pipe, s)
    /\ connect_to_lockref_server 1000 (ThreadDemo.last_client_leaves s) = None.
Proof.
  destruct (referee_started_once ThreadDemo.gone ThreadDemo.serving (ThreadDemo.mk_machine false false) eq_refl) as [H1 _].
  destruct (H1 eq_refl) as (pipe & s & E). exists pipe, s. split; [exact E|].
  apply (referee_started_once ThreadDemo.gone ThreadDemo.serving (ThreadDemo.last_client_leaves s) eq_refl).
  vm_compute in E. injection E as <- <-. reflexivity.
Defined.
