(* ===== verification/ThreadLocal.v ===== *)
(** * The data of the threads on Windows

    The thread-local data of [thread-win32.c] in the memory of the process: the slots of the threads, the blocks that hold the connection to the lock
    referee and the error state, the structures of the threads with their handles, and [DllMain], which frees them when threads end.  [None] is
    undefined behaviour (an access to a block that is freed) or the end of the process by [abort].  The members of one structure [mm_thread], its flags and their order, are those of [Threads]. *)

From S2P Require Import Prelude Time Effects MutexVal PsharedMutex Threads CStr ErrorState PsharedLock.

Record thread_local_data := mk_tld { lockref : lockref_connection; last_error : error_info; thread : option Z }.

Record thread_block := mk_block { hnd : option Z; info : mm_thread }.

(** Memory and threads of the process; a thread is created, then it starts. *)
Record process := mk_process {
  threaddata_tls_index : option Z;
  tls_slots : gmap Z Z;                  (* of the living threads, when they are set *)
  tls_blocks : gmap Z thread_local_data;
  thread_blocks : gmap Z thread_block;
  heap_limit : nat;                      (* number of blocks of the heap *)
  thread_handles : gset Z;               (* open *)
  conns_closed : list lockref_connection;
  starting : gmap Z Z;                   (* the threads created, with their structure *)
  alive : gset Z
}.

Abbreviation M := (ST process).

Definition set_slots (m : gmap Z Z) (p : process) : process :=
  mk_process (threaddata_tls_index p) m (tls_blocks p) (thread_blocks p) (heap_limit p) (thread_handles p) (conns_closed p) (starting p) (alive p).
Definition set_locals (m : gmap Z thread_local_data) (p : process) : process :=
  mk_process (threaddata_tls_index p) (tls_slots p) m (thread_blocks p) (heap_limit p) (thread_handles p) (conns_closed p) (starting p) (alive p).
Definition set_threads (m : gmap Z thread_block) (p : process) : process :=
  mk_process (threaddata_tls_index p) (tls_slots p) (tls_blocks p) m (heap_limit p) (thread_handles p) (conns_closed p) (starting p) (alive p).
Definition set_handles (s : gset Z) (p : process) : process :=
  mk_process (threaddata_tls_index p) (tls_slots p) (tls_blocks p) (thread_blocks p) (heap_limit p) s (conns_closed p) (starting p) (alive p).
Definition set_life (st : gmap Z Z) (al : gset Z) (p : process) : process :=
  mk_process (threaddata_tls_index p) (tls_slots p) (tls_blocks p) (thread_blocks p) (heap_limit p) (thread_handles p) (conns_closed p) st al.
Definition add_closed (c : lockref_connection) (p : process) : process :=
  mk_process (threaddata_tls_index p) (tls_slots p) (tls_blocks p) (thread_blocks p) (heap_limit p) (thread_handles p) (conns_closed p ++ [c]) (starting p) (alive p).

(** ** Allocation *)

Definition heap_addresses (p : process) : gset Z := dom (tls_blocks p) ∪ dom (thread_blocks p).

(** The address of a new block of the process heap; the memory is zeroed. *)
Definition safe_alloc : M (option Z) :=
  st_gets (fun p => if (size (tls_blocks p) + size (thread_blocks p) <? heap_limit p)%nat then Some (fresh (heap_addresses p)) else None).

Definition free_local (a : Z) : M unit :=
  _ ← st_gets tls_blocks ≫= fun m => st_option (m !! a); st_modify (fun p => set_locals (delete a (tls_blocks p)) p).
Definition free_thread (a : Z) : M unit :=
  _ ← st_gets thread_blocks ≫= fun m => st_option (m !! a); st_modify (fun p => set_threads (delete a (thread_blocks p)) p).

Definition conn_null : lockref_connection := mk_conn 0 0 false.

(** The data of a new thread; [abort] if there is no memory. *)
Definition allocate_thread_local_data (self : Z) : M Z :=
  data ← safe_alloc;
  match data with
  | None => st_ub
  | Some a =>
      st_modify (fun p => set_locals (<[a := mk_tld conn_null initial_info None]> (tls_blocks p)) p);;
      st_modify (fun p => set_slots (<[self := a]> (tls_slots p)) p);;
      mret a
  end.

Definition get_thread_local_data (self : Z) : M Z :=
  data ← st_gets (fun p => tls_slots p !! self);
  match data with Some a => mret a | None => allocate_thread_local_data self end.

Definition read_local (a : Z) : M thread_local_data := st_gets tls_blocks ≫= fun m => st_option (m !! a).
Definition write_local (a : Z) (f : thread_local_data -> thread_local_data) : M unit :=
  d ← read_local a; st_modify (fun p => set_locals (<[a := f d]> (tls_blocks p)) p).
Definition read_thread (a : Z) : M thread_block := st_gets thread_blocks ≫= fun m => st_option (m !! a).
Definition write_thread (a : Z) (f : thread_block -> thread_block) : M unit :=
  d ← read_thread a; st_modify (fun p => set_threads (<[a := f d]> (thread_blocks p)) p).

Definition get_thread_lockref_data (self : Z) : M lockref_connection := a ← get_thread_local_data self; d ← read_local a; mret (lockref d).
Definition get_thread_last_error (self : Z) : M error_info := a ← get_thread_local_data self; d ← read_local a; mret (last_error d).

(** An error raised by a thread changes its error state. *)
Definition raise_in (self : Z) (i : error_info) : M unit :=
  a ← get_thread_local_data self; write_local a (fun d => mk_tld (lockref d) i (thread d)).

(** ** Structures of the threads *)

Section Ops.

(** The error states that the calls leave. *)
Variable alloc_error begin_error detached_error : error_info.

Definition create_mm_thread_data (self : Z) : M (option Z) :=
  th ← safe_alloc;
  match th with
  | None => raise_in self alloc_error;; mret None
  | Some a => st_modify (fun p => set_threads (<[a := mk_block None (mk_mm_thread 0 STATE_DETACHED)]> (thread_blocks p)) p);; mret (Some a)
  end.

Definition close_thread_handle (h : Z) : M unit := st_modify (fun p => set_handles (thread_handles p ∖ {[ h ]}) p).

Definition destroy_mm_thread_data (th : Z) : M unit :=
  b ← read_thread th;
  match hnd b with Some h => close_thread_handle h | None => mret tt end;;
  free_thread th.

(** When the thread ends: its slot is not cleared. *)
Definition thread_local_data_on_exit (self : Z) : M unit :=
  data ← st_gets (fun p => tls_slots p !! self);
  match data with
  | None => mret tt
  | Some a =>
      d ← read_local a;
      match thread d with
      | None => mret tt
      | Some th =>
          b ← read_thread th;
          let '(prev_state, st) := atomic_fetch_add (state (info b)) STATE_STOPPED in
          write_thread th (fun b => mk_block (hnd b) (mk_mm_thread (retval (info b)) st));;
          if negb (Z.land prev_state STATE_DETACHED =? 0) then destroy_mm_thread_data th else mret tt
      end;;
      (if is_init (lockref d) then st_modify (add_closed (lockref d)) else mret tt);;
      free_local a
  end.

Inductive dll_reason := DLL_PROCESS_ATTACH | DLL_PROCESS_DETACH | DLL_THREAD_DETACH | DLL_THREAD_ATTACH.

(** [TlsAlloc] is given. *)
Definition DllMain (self : Z) (TlsAlloc : option Z) (reason : dll_reason) : M bool :=
  let set_index i := st_modify (fun p =>
    mk_process i (tls_slots p) (tls_blocks p) (thread_blocks p) (heap_limit p) (thread_handles p) (conns_closed p) (starting p) (alive p)) in
  match reason with
  | DLL_PROCESS_ATTACH => set_index TlsAlloc;; mret (match TlsAlloc with Some _ => true | None => false end)
  | DLL_PROCESS_DETACH => set_index None;; mret true
  | DLL_THREAD_DETACH => thread_local_data_on_exit self;; mret true
  | DLL_THREAD_ATTACH => mret true
  end.

Definition mm_thr_self (self : Z) : M (option Z) :=
  a ← get_thread_local_data self;
  d ← read_local a;
  match thread d with
  | Some th => mret (Some th)
  | None =>
      th ← create_mm_thread_data self;
      a ← get_thread_local_data self;
      write_local a (fun d => mk_tld (lockref d) (last_error d) th);;
      mret th
  end.

(** The value returned, [errno] as the errors set it, and the structure of the new thread: [child] is the thread and [h] the handle that [_beginthreadex] gives. *)
Definition mm_thr_create (self child : Z) (h : option Z) : M (Z * option Z) :=
  th ← create_mm_thread_data self;
  match th with
  | None => mret (errnum alloc_error, None)
  | Some a =>
      write_thread a (fun b => mk_block (hnd b) (mk_mm_thread (retval (info b)) (Z.land (state (info b)) (Z.lnot STATE_DETACHED))));;
      write_thread a (fun b => mk_block h (info b));;
      match h with
      | None => raise_in self begin_error;; destroy_mm_thread_data a;; mret (errnum begin_error, None)
      | Some h => st_modify (fun p => set_life (<[child := a]> (starting p)) ({[ child ]} ∪ alive p) (set_handles ({[ h ]} ∪ thread_handles p) p));; mret (0, Some a)
      end
  end.

(** The start of [thread_proc_wrapper], and its end with the value that the routine returns. *)
Definition thread_proc_start (self : Z) : M unit :=
  th ← st_gets starting ≫= fun m => st_option (m !! self);
  st_modify (fun p => set_life (delete self (starting p)) (alive p) p);;
  (a ← get_thread_local_data self; write_local a (fun d => mk_tld (lockref d) (last_error d) (Some th))).

Definition thread_proc_end (self th value : Z) : M unit :=
  write_thread th (fun b => mk_block (hnd b) (mk_mm_thread value (state (info b)))).

(** The thread has ended when the wait returns. *)
Definition mm_thr_join (self th : Z) : M (Z * option Z) :=
  b ← read_thread th;
  if negb (Z.land (state (info b)) STATE_DETACHED =? 0) then raise_in self detached_error;; mret (EINVAL, None)
  else
    b ← read_thread th;
    destroy_mm_thread_data th;; mret (0, Some (retval (info b))).

Definition mm_thr_detach (self th : Z) : M Z :=
  b ← read_thread th;
  let '(prev_state, st) := atomic_fetch_add (state (info b)) STATE_DETACHED in
  write_thread th (fun b => mk_block (hnd b) (mk_mm_thread (retval (info b)) st));;
  if negb (Z.land prev_state STATE_DETACHED =? 0) then raise_in self detached_error;; mret EINVAL
  else if negb (Z.land prev_state STATE_STOPPED =? 0) then destroy_mm_thread_data th;; mret 0
  else mret 0.

(** ** The process *)

(** The structure of a thread: that of its creation, or the one in its data. *)
Definition owner (p : process) (t : Z) : option Z :=
  match starting p !! t with
  | Some th => Some th
  | None => a ← tls_slots p !! t; d ← tls_blocks p !! a; thread d
  end.

Inductive thr_event :=
| EvAttach (t : Z)                             (* a thread that mmlib has not created *)
| EvData (t : Z)                               (* the use of the data of a thread *)
| EvSelf (t : Z)
| EvCreate (t child : Z) (h : option Z)
| EvStart (t : Z)
| EvExit (t : Z) (value : option Z)            (* the value of the routine, for a thread of mmlib *)
| EvJoinThread (t th : Z)
| EvDetachThread (t th : Z).

Definition thr_step (e : thr_event) : M unit :=
  match e with
  | EvAttach t => st_modify (fun p => set_life (starting p) ({[ t ]} ∪ alive p) p)
  | EvData t => _ ← get_thread_local_data t; mret tt
  | EvSelf t => _ ← mm_thr_self t; mret tt
  | EvCreate t child h => _ ← mm_thr_create t child h; mret tt
  | EvStart t => thread_proc_start t
  | EvExit t value =>
      match value with
      | None => mret tt
      | Some v => th ← st_gets (fun p => owner p t) ≫= st_option; thread_proc_end t th v
      end;;
      _ ← DllMain t None DLL_THREAD_DETACH;
      st_modify (fun p => set_slots (delete t (tls_slots p)) (set_life (starting p) (alive p ∖ {[ t ]}) p))
  | EvJoinThread t th => _ ← mm_thr_join t th; mret tt
  | EvDetachThread t th => _ ← mm_thr_detach t th; mret tt
  end.

Definition running (p : process) (t : Z) : Prop := t ∈ alive p /\ starting p !! t = None.

Definition state_of (p : process) (th : Z) : option Z := (fun b => state (info b)) <$> thread_blocks p !! th.

(** What the program may do: a thread is joined or detached once, and is joined when it has ended. *)
Definition allowed (e : thr_event) (p : process) : Prop :=
  match e with
  | EvAttach t => t ∉ alive p
  | EvData t | EvSelf t => running p t
  | EvCreate t child _ => running p t /\ child ∉ alive p
  | EvStart t => is_Some (starting p !! t)
  | EvExit t v => running p t /\ (is_Some v -> is_Some (owner p t))
  | EvJoinThread t th => running p t /\ state_of p th = Some STATE_STOPPED
  | EvDetachThread t th => running p t /\ (state_of p th = Some 0 \/ state_of p th = Some STATE_STOPPED)
  end.

(** Each block of data is that of one thread that lives, and each structure is that of one thread that lives or of a thread that can be joined. *)
Record slots_ok (p : process) : Prop := {
  so_slot : forall t a, tls_slots p !! t = Some a -> t ∈ alive p /\ starting p !! t = None /\ is_Some (tls_blocks p !! a);
  so_inj : forall t t' a, tls_slots p !! t = Some a -> tls_slots p !! t' = Some a -> t = t';
  so_local : forall a, is_Some (tls_blocks p !! a) -> exists t, tls_slots p !! t = Some a;
  so_starting : forall t, is_Some (starting p !! t) -> t ∈ alive p
}.

Record structs_ok (own st : Z -> option Z) : Prop := {
  st_live : forall t th, own t = Some th -> st th = Some 0 \/ st th = Some STATE_DETACHED;
  st_inj : forall t t' th, own t = Some th -> own t' = Some th -> t = t';
  st_kept : forall th s, st th = Some s -> s = STATE_STOPPED \/ exists t, own t = Some th
}.

Definition owned (p : process) : Prop := slots_ok p /\ structs_ok (owner p) (state_of p).

Definition room (p : process) (n : nat) : Prop := (size (tls_blocks p) + size (thread_blocks p) + n <= heap_limit p)%nat.

(** ** The structures *)

Definition upd (f : Z -> option Z) (k : Z) (v : option Z) : Z -> option Z := fun x => if decide (x = k) then v else f x.

Lemma structs_ext own st own' st' :
  (forall t, own' t = own t) -> (forall th, st' th = st th) -> structs_ok own st -> structs_ok own' st'.
Proof.
  intros Ho Hs [H1 H2 H3]. split.
  - intros t th. rewrite Ho, Hs. apply H1.
  - intros t t' th. rewrite !Ho. apply H2.
  - intros th s. rewrite Hs. intros [?|[t ?]]%H3; [by left|right]. exists t. by rewrite Ho.
Qed.

Lemma structs_add own st o th s :
  structs_ok own st -> own o = None -> st th = None -> s = 0 \/ s = STATE_DETACHED -> structs_ok (upd own o (Some th)) (upd st th (Some s)).
Proof.
  intros [H1 H2 H3] Ho Hth Hs. unfold upd. split.
  - intros t x. case_decide as Ht; [intros [= <-]; rewrite decide_True by done; naive_solver|]. intros E.
    case_decide as Hx; [subst; destruct (H1 _ _ E); congruence|by eapply H1].
  - intros t t' x. case_decide as Ht; case_decide as Ht'; intros E E'; simplify_eq; try done; [destruct (H1 _ _ E')|destruct (H1 _ _ E)|by eapply H2]; congruence.
  - intros x s'. case_decide as Hx; [intros _; right; exists o; by rewrite decide_True, Hx|]. intros [?|[t E]]%H3; [by left|right].
    exists t. rewrite decide_False; [done|congruence].
Qed.

(** A thread ends: its structure is freed or waits to be joined. *)
Lemma structs_end own st t th s :
  structs_ok own st -> own t = Some th -> s = None \/ s = Some STATE_STOPPED -> structs_ok (upd own t None) (upd st th s).
Proof.
  intros [H1 H2 H3] Ht Hs. unfold upd. split.
  - intros u x. case_decide; [done|]. intros E. case_decide as Hx; [|by eapply H1]. subst x. by rewrite (H2 _ _ _ E Ht) in *.
  - intros u u' x. case_decide; [done|]. case_decide; [done|]. apply H2.
  - intros x s'. case_decide as Hx; [destruct Hs as [->| ->]; [done|]; intros [= <-]; by left|]. intros [?|[u E]]%H3; [by left|right].
    exists u. rewrite decide_False; [done|congruence].
Qed.

Lemma structs_end_none own st t : structs_ok own st -> own t = None -> structs_ok (upd own t None) st.
Proof. intros H Ht. eapply structs_ext; [|done|exact H]. intros u. unfold upd. case_decide; [congruence|done]. Qed.

(** A structure without living thread is freed. *)
Lemma structs_free own st th : structs_ok own st -> st th = Some STATE_STOPPED -> structs_ok own (upd st th None).
Proof.
  intros [H1 H2 H3] Hs. unfold upd. split; [|done|].
  - intros t x E. case_decide; [subst; destruct (H1 _ _ E); unfold STATE_STOPPED, STATE_DETACHED in *; congruence|by eapply H1].
  - intros x s. case_decide; [done|]. apply H3.
Qed.

Lemma structs_detach own st th : structs_ok own st -> st th = Some 0 -> structs_ok own (upd st th (Some STATE_DETACHED)).
Proof.
  intros [H1 H2 H3] Hs. unfold upd. split; [|done|].
  - intros t x E. case_decide; [by right|by eapply H1].
  - intros x s. case_decide as Hx; [|apply H3]. subst x. intros _. destruct (H3 _ _ Hs) as [?|?]; [done|by right].
Qed.

(** ** The data of a thread *)

Lemma fresh_address p : tls_blocks p !! fresh (heap_addresses p) = None /\ thread_blocks p !! fresh (heap_addresses p) = None.
Proof.
  pose proof (is_fresh (heap_addresses p)) as H. unfold heap_addresses in H at 2. apply not_elem_of_union in H as [H1 H2].
  by split; apply not_elem_of_dom.
Qed.

Lemma safe_alloc_room p n : room p (S n) -> safe_alloc p = Some (Some (fresh (heap_addresses p)), p).
Proof. intros H. unfold safe_alloc, st_gets, room in *. destruct (Nat.ltb_spec (size (tls_blocks p) + size (thread_blocks p)) (heap_limit p)); [done|lia]. Qed.

Lemma slots_same p p' :
  tls_slots p' = tls_slots p -> dom (tls_blocks p') = dom (tls_blocks p) -> starting p' = starting p -> alive p' = alive p -> slots_ok p -> slots_ok p'.
Proof.
  intros E1 E2 E3 E4 [H1 H2 H3 H4]. split; rewrite ?E1, ?E3, ?E4; [|done| |done].
  - intros t a H. destruct (H1 t a H) as (? & ? & ?). split_and!; [done|done|]. apply elem_of_dom. rewrite E2. by apply elem_of_dom.
  - intros a H. apply H3. apply elem_of_dom. rewrite <- E2. by apply elem_of_dom.
Qed.

(** What the use of the data of a thread leaves as it was. *)
Definition same_threads (p p' : process) : Prop :=
  thread_blocks p' = thread_blocks p /\ starting p' = starting p /\ alive p' = alive p /\ (forall t, owner p' t = owner p t).

Lemma get_data_ok p t n :
  slots_ok p -> running p t -> room p (S n) ->
  exists a d p', get_thread_local_data t p = Some (a, p') /\ slots_ok p' /\ same_threads p p' /\ room p' n
    /\ tls_slots p' !! t = Some a /\ tls_blocks p' !! a = Some d.
Proof.
  intros Ho [Hal Hst] Hroom. unfold get_thread_local_data. unfold mbind at 1, st_bind at 1, st_gets at 1.
  destruct (tls_slots p !! t) as [a|] eqn:Ea.
  { destruct (so_slot _ Ho _ _ Ea) as (_ & _ & [d Hd]). exists a, d, p. split_and!; try done. unfold room in *. lia. }
  unfold allocate_thread_local_data. rewrite (st_bind_Some _ _ _ _ _ (safe_alloc_room p n Hroom)).
  set (a := fresh (heap_addresses p)). destruct (fresh_address p) as [Fl _]. fold a in Fl.
  set (d := mk_tld conn_null initial_info None).
  set (p' := set_slots (<[t := a]> (tls_slots p)) (set_locals (<[a := d]> (tls_blocks p)) p)).
  assert (Hown : forall u, owner p' u = owner p u).
  { intros u. unfold owner. cbn [starting tls_slots tls_blocks p' set_slots set_locals]. destruct (starting p !! u); [done|].
    destruct (decide (u = t)) as [->|Hne]; [by rewrite lookup_insert_eq, Ea; cbn; rewrite lookup_insert_eq|].
    rewrite lookup_insert_ne by done. destruct (tls_slots p !! u) as [b|] eqn:Eb; [|done]. cbn.
    destruct (so_slot _ Ho _ _ Eb) as (_ & _ & [e He]). assert (b <> a) by congruence. by rewrite lookup_insert_ne. }
  assert (Hslot : forall u b, tls_slots p' !! u = Some b -> (u = t /\ b = a) \/ (u <> t /\ b <> a /\ tls_slots p !! u = Some b)).
  { intros u b. cbn. intros H. apply lookup_insert_Some in H as [[<- <-]|[Hne H]]; [by left|right].
    destruct (so_slot _ Ho _ _ H) as (_ & _ & [e He]). split_and!; [done|congruence|done]. }
  exists a, d, p'. split; [done|]. split_and!; [|done|unfold room in *; cbn; rewrite map_size_insert_None by done; lia|apply lookup_insert_eq|apply lookup_insert_eq].
  split.
  - intros u b H. apply Hslot in H as [[-> ->]|(_ & Hb & H)]; [split_and!; [done|done|cbn; rewrite lookup_insert_eq; eauto]|].
    destruct (so_slot _ Ho _ _ H) as (? & ? & ?). split_and!; [done|done|cbn; by rewrite lookup_insert_ne].
  - intros u u' b H H'. apply Hslot in H as [[-> ->]|(? & ? & H)], H' as [[-> ?]|(? & ? & H')]; try done. by apply (so_inj _ Ho _ _ b).
  - intros b [e H]. cbn in H. apply lookup_insert_Some in H as [[<- _]|[Hne H]]; [exists t; cbn; by rewrite lookup_insert_eq|].
    destruct (so_local _ Ho b ltac:(eauto)) as [u Hu]. exists u. cbn. rewrite lookup_insert_ne by congruence. done.
  - apply (so_starting _ Ho).
Qed.

(** The data of a running thread written. *)
Lemma write_local_ok p t a d f :
  slots_ok p -> tls_slots p !! t = Some a -> tls_blocks p !! a = Some d ->
  exists p', write_local a f p = Some (tt, p') /\ slots_ok p' /\ thread_blocks p' = thread_blocks p /\ starting p' = starting p /\ alive p' = alive p
    /\ (forall n, room p n -> room p' n) /\ (forall u, owner p' u = upd (owner p) t (thread (f d)) u)
    /\ tls_slots p' = tls_slots p.
Proof.
  intros Ho Ha Hd. unfold write_local, read_local. unfold mbind at 1, st_bind at 1. unfold mbind at 1, st_bind at 1, st_gets at 1. unfold st_option. rewrite Hd.
  eexists. split; [reflexivity|]. split; [|split_and!; try done].
  - apply (slots_same p); try done. cbn. apply dom_insert_lookup_L. eauto.
  - intros n Hn. unfold room in *. cbn. rewrite map_size_insert_Some; eauto.
  - intros u. unfold owner, upd. cbn. destruct (so_slot _ Ho _ _ Ha) as (_ & Hs & _). case_decide as Hu.
    + subst u. rewrite Hs, Ha. cbn. by rewrite lookup_insert_eq.
    + destruct (starting p !! u); [done|]. destruct (tls_slots p !! u) as [b|] eqn:Eb; [|done]. cbn.
      assert (b <> a) by (intros ->; by rewrite (so_inj _ Ho _ _ _ Eb Ha) in Hu). by rewrite lookup_insert_ne.
Qed.

Lemma running_owner p t a d : running p t -> tls_slots p !! t = Some a -> tls_blocks p !! a = Some d -> owner p t = thread d.
Proof. intros [_ Hs] Ha Hd. unfold owner. rewrite Hs, Ha. cbn. by rewrite Hd. Qed.

(** The error state of a thread is changed. *)
Lemma raise_ok p t i n :
  slots_ok p -> running p t -> room p (S n) ->
  exists p', raise_in t i p = Some (tt, p') /\ slots_ok p' /\ same_threads p p' /\ room p' n.
Proof.
  intros Ho Hr Hroom. unfold raise_in. destruct (get_data_ok p t n Ho Hr Hroom) as (a & d & p1 & E & Ho1 & (T1 & T2 & T3 & T4) & R1 & Ha & Hd).
  rewrite (st_bind_Some _ _ _ _ _ E). destruct (write_local_ok p1 t a d (fun d => mk_tld (lockref d) i (thread d)) Ho1 Ha Hd) as (p2 & E2 & Ho2 & U1 & U2 & U3 & R2 & U4 & _).
  exists p2. split; [done|]. split; [done|]. split; [|by apply R2]. split_and!; try congruence. intros u. rewrite U4. unfold upd.
  case_decide; [|done]. subst u. cbn [thread]. rewrite <- T4. symmetry. apply (running_owner _ _ a); [|done|done]. destruct Hr. split; congruence.
Qed.
(** ** The structures of the threads *)

Lemma state_of_insert p p' a b x :
  thread_blocks p' = <[a := b]> (thread_blocks p) -> state_of p' x = upd (state_of p) a (Some (state (info b))) x.
Proof. intros E. unfold state_of, upd. rewrite E. case_decide as H; [subst; by rewrite lookup_insert_eq|by rewrite lookup_insert_ne]. Qed.

Lemma state_of_delete p p' a x : thread_blocks p' = delete a (thread_blocks p) -> state_of p' x = upd (state_of p) a None x.
Proof. intros E. unfold state_of, upd. rewrite E. case_decide as H; [subst; by rewrite lookup_delete_eq|by rewrite lookup_delete_ne]. Qed.

Lemma create_struct_ok p t n :
  room p (S n) ->
  exists a, thread_blocks p !! a = None
    /\ create_mm_thread_data t p = Some (Some a, set_threads (<[a := mk_block None (mk_mm_thread 0 STATE_DETACHED)]> (thread_blocks p)) p)
    /\ room (set_threads (<[a := mk_block None (mk_mm_thread 0 STATE_DETACHED)]> (thread_blocks p)) p) n.
Proof.
  intros Hroom. exists (fresh (heap_addresses p)). destruct (fresh_address p) as [_ Ft]. split; [done|].
  unfold create_mm_thread_data. rewrite (st_bind_Some _ _ _ _ _ (safe_alloc_room p n Hroom)). split; [done|].
  unfold room in *. cbn. rewrite map_size_insert_None by done. lia.
Qed.

Lemma read_thread_ok p th b : thread_blocks p !! th = Some b -> read_thread th p = Some (b, p).
Proof. intros H. unfold read_thread, mbind, st_bind, st_gets, st_option. by rewrite H. Qed.

Lemma write_thread_ok p th b f :
  thread_blocks p !! th = Some b -> write_thread th f p = Some (tt, set_threads (<[th := f b]> (thread_blocks p)) p).
Proof. intros H. unfold write_thread. by rewrite (st_bind_Some _ _ _ _ _ (read_thread_ok p th b H)). Qed.

Lemma destroy_ok p th b :
  thread_blocks p !! th = Some b ->
  exists p', destroy_mm_thread_data th p = Some (tt, p') /\ thread_blocks p' = delete th (thread_blocks p) /\ tls_slots p' = tls_slots p
    /\ tls_blocks p' = tls_blocks p /\ starting p' = starting p /\ alive p' = alive p.
Proof.
  intros H. unfold destroy_mm_thread_data. rewrite (st_bind_Some _ _ _ _ _ (read_thread_ok p th b H)).
  set (p1 := match hnd b with Some h => set_handles (thread_handles p ∖ {[ h ]}) p | None => p end).
  assert (E : (match hnd b with Some h => close_thread_handle h | None => mret tt end) p = Some (tt, p1)) by (by subst p1; destruct (hnd b)).
  assert (E1 : thread_blocks p1 = thread_blocks p) by (by subst p1; destruct (hnd b)).
  exists (set_threads (delete th (thread_blocks p1)) p1). split.
  - rewrite (st_bind_Some _ _ _ _ _ E). unfold free_thread, mbind, st_bind, st_gets, st_option.
    assert (H1 : thread_blocks p1 !! th = Some b) by by rewrite E1. by rewrite H1.
  - cbn. rewrite E1. by subst p1; destruct (hnd b).
Qed.

(** Structures and data that are the same up to the structures freed. *)
Lemma owner_same p p' t :
  tls_slots p' = tls_slots p -> tls_blocks p' = tls_blocks p -> starting p' = starting p -> owner p' t = owner p t.
Proof. intros E1 E2 E3. unfold owner. by rewrite E1, E2, E3. Qed.

Lemma self_ok p t n :
  owned p -> running p t -> room p (S (S n)) ->
  exists th p', mm_thr_self t p = Some (Some th, p') /\ owned p' /\ owner p' t = Some th.
Proof.
  intros [Ho Hs] Hr Hroom. unfold mm_thr_self. destruct (get_data_ok p t (S n) Ho Hr Hroom) as (a & d & p1 & E & Ho1 & (T1 & T2 & T3 & T4) & R1 & Ha & Hd).
  assert (Hr1 : running p1 t) by (destruct Hr; split; congruence).
  assert (Hs1 : structs_ok (owner p1) (state_of p1)) by (eapply structs_ext; [done| |exact Hs]; intros x; unfold state_of; by rewrite T1).
  pose proof (running_owner p1 t a d Hr1 Ha Hd) as Hown.
  rewrite (st_bind_Some _ _ _ _ _ E). rewrite (st_bind_Some (read_local a) _ p1 d p1) by (unfold read_local, mbind, st_bind, st_gets, st_option; by rewrite Hd).
  destruct (thread d) as [th|] eqn:Ed; [exists th, p1; done|].
  destruct (create_struct_ok p1 t n R1) as (b & Fb & Ec & Rc). rewrite (st_bind_Some _ _ _ _ _ Ec).
  set (p2 := set_threads _ p1) in *. assert (Ho2 : slots_ok p2) by (by apply (slots_same p1)).
  assert (Eg : get_thread_local_data t p2 = Some (a, p2)).
  { unfold get_thread_local_data. unfold mbind at 1, st_bind at 1, st_gets at 1. change (tls_slots p2) with (tls_slots p1). by rewrite Ha. }
  rewrite (st_bind_Some _ _ _ _ _ Eg).
  destruct (write_local_ok p2 t a d (fun d => mk_tld (lockref d) (last_error d) (Some b)) Ho2 Ha Hd) as (p3 & E3 & Ho3 & U1 & U2 & U3 & R3 & U4 & _).
  rewrite (st_bind_Some _ _ _ _ _ E3). exists b, p3. split; [done|]. split; [split; [done|]|by rewrite U4; unfold upd; rewrite decide_True].
  eapply structs_ext; [exact U4| |eapply (structs_add _ _ t b STATE_DETACHED Hs1); [congruence|unfold state_of; by rewrite Fb|by right]].
  intros x. exact (state_of_insert p1 p3 b _ x U1).
Qed.

Lemma create_ok p t child h n :
  owned p -> running p t -> child ∉ alive p -> room p (S (S n)) ->
  exists r p', mm_thr_create t child h p = Some (r, p') /\ owned p' /\ (r.2 = None <-> h = None) /\ (forall th, r.2 = Some th -> owner p' child = Some th).
Proof.
  intros [Ho Hs] Hr Hc Hroom. unfold mm_thr_create. destruct (create_struct_ok p t (S n) Hroom) as (a & Fa & Ec & Rc).
  rewrite (st_bind_Some _ _ _ _ _ Ec). set (p1 := set_threads _ p) in *.
  rewrite (st_bind_Some _ _ _ _ _ (write_thread_ok p1 a _ _ (lookup_insert_eq _ _ _))).
  rewrite (st_bind_Some _ _ _ _ _ (write_thread_ok (set_threads _ p1) a _ _ (lookup_insert_eq _ _ _))).
  cbn [thread_blocks set_threads p1 info hnd state retval]. rewrite !insert_insert_eq. set (b := mk_block h _). set (p2 := set_threads _ _).
  assert (Hst : state (info b) = 0) by reflexivity.
  assert (Ho2 : slots_ok p2) by by apply (slots_same p). assert (Hfa : state_of p a = None) by (unfold state_of; by rewrite Fa).
  assert (Hcs : starting p !! child = None /\ tls_slots p !! child = None).
  { split; apply eq_None_not_Some; intros [x Hx]; [apply Hc, (so_starting _ Ho); eauto|]. by destruct (so_slot _ Ho _ _ Hx) as (? & _). }
  destruct h as [h|].
  - eexists _, _. split; [reflexivity|]. split; [|split; [done|intros th [= <-]; unfold owner; cbn; by rewrite lookup_insert_eq]].
    split.
    + destruct Ho as [H1 H2 H3 H4]. split; cbn; [|done|done|].
      * intros u x Hu. destruct (H1 u x Hu) as (? & ? & ?). split_and!; [set_solver| |done]. rewrite lookup_insert_ne; [done|]. intros ->. done.
      * intros u [x Hu]. apply lookup_insert_Some in Hu as [[<- _]|[_ Hu]]; [set_solver|]. apply elem_of_union_r, H4. eauto.
    + eapply structs_ext; [| |apply (structs_add _ _ child a 0 Hs); [|done|by left]].
      * intros u. unfold owner, upd. cbn. case_decide as Hu; [subst; by rewrite lookup_insert_eq|by rewrite lookup_insert_ne].
      * intros x. rewrite <- Hst. apply (state_of_insert p). reflexivity.
      * unfold owner. by destruct Hcs as [-> ->].
  - destruct (raise_ok p2 t begin_error n Ho2) as (p3 & E3 & Ho3 & (T1 & T2 & T3 & T4) & R3); [done| |].
    { unfold room in *. cbn in *. rewrite map_size_insert_None in * by done. lia. }
    rewrite (st_bind_Some _ _ _ _ _ E3).
    destruct (destroy_ok p3 a b) as (p4 & E4 & D1 & D2 & D3 & D4 & D5); [rewrite T1; apply lookup_insert_eq|].
    rewrite (st_bind_Some _ _ _ _ _ E4). exists (errnum begin_error, None), p4. split; [done|]. split; [split|split; done].
    + apply (slots_same p3); congruence.
    + eapply structs_ext; [| |exact Hs].
      * intros u. rewrite (owner_same p3 p4 u) by done. by rewrite T4.
      * intros x. unfold state_of. rewrite D1, T1. cbn. by rewrite delete_insert_id.
Qed.
Lemma thread_start_ok p t th n :
  owned p -> starting p !! t = Some th -> room p (S n) ->
  exists p', thread_proc_start t p = Some (tt, p') /\ owned p' /\ running p' t /\ owner p' t = Some th.
Proof.
  intros [Ho Hs] Ht Hroom. unfold thread_proc_start.
  rewrite (st_bind_Some (st_gets starting ≫= fun m => st_option (m !! t)) _ p th p) by (unfold mbind, st_bind, st_gets, st_option; by rewrite Ht).
  unfold mbind at 1, st_bind at 1, st_modify at 1. set (p1 := set_life (delete t (starting p)) (alive p) p).
  assert (Hal : t ∈ alive p) by (apply (so_starting _ Ho); eauto).
  assert (Ho1 : slots_ok p1).
  { destruct Ho as [H1 H2 H3 H4]. split; cbn; [|done|done|].
    - intros u a Hu. destruct (H1 u a Hu) as (? & Hn & ?). split_and!; [done| |done]. rewrite lookup_delete_ne; [done|]. intros ->. congruence.
    - intros u [x Hx]. apply lookup_delete_Some in Hx as [_ Hx]. apply H4. eauto. }
  destruct (get_data_ok p1 t n Ho1) as (a & d & p2 & E & Ho2 & (T1 & T2 & T3 & T4) & R2 & Ha & Hd); [split; [done|apply lookup_delete_eq]|exact Hroom|].
  rewrite (st_bind_Some _ _ _ _ _ E).
  destruct (write_local_ok p2 t a d (fun d => mk_tld (lockref d) (last_error d) (Some th)) Ho2 Ha Hd) as (p3 & E3 & Ho3 & U1 & U2 & U3 & R3 & U4 & U5).
  exists p3. split; [exact E3|]. assert (Hown : owner p t = Some th) by (unfold owner; by rewrite Ht). split; [split; [done|]|split].
  - eapply structs_ext; [| |exact Hs]; [|intros x; unfold state_of; by rewrite U1, T1].
    intros u. rewrite U4. unfold upd. case_decide as Hu; [subst; done|]. rewrite T4. unfold owner. cbn. by rewrite lookup_delete_ne.
  - destruct (so_slot _ Ho3 t a) as (? & ? & _); [by rewrite U5|]. by split.
  - rewrite U4. unfold upd. by rewrite decide_True.
Qed.

(** The slots and the data once a thread is gone. *)
Lemma leave_ok p p' t :
  slots_ok p -> starting p !! t = None -> tls_slots p' = delete t (tls_slots p) -> starting p' = starting p -> alive p' = alive p ∖ {[ t ]} ->
  tls_blocks p' = match tls_slots p !! t with Some a => delete a (tls_blocks p) | None => tls_blocks p end ->
  slots_ok p' /\ forall u, owner p' u = upd (owner p) t None u.
Proof.
  intros [H1 H2 H3 H4] Ht E1 E2 E3 E4.
  assert (Hkeep : forall u a, u <> t -> tls_slots p !! u = Some a -> tls_blocks p' !! a = tls_blocks p !! a).
  { intros u a Hu Ha. rewrite E4. destruct (tls_slots p !! t) as [b|] eqn:Eb; [|done]. apply lookup_delete_ne. intros ->. by apply Hu, (H2 _ _ a). }
  split; [split; rewrite ?E1, ?E2, ?E3|].
  - intros u a Hu. apply lookup_delete_Some in Hu as [Hne Hu]. destruct (H1 u a Hu) as (? & ? & ?). split_and!; [set_solver|done|]. by rewrite (Hkeep u).
  - intros u u' a Hu Hu'. apply lookup_delete_Some in Hu as [_ Hu], Hu' as [_ Hu']. by apply (H2 _ _ a).
  - intros a Ha. assert (Ha' : is_Some (tls_blocks p !! a) /\ tls_slots p !! t <> Some a).
    { rewrite E4 in Ha. destruct (tls_slots p !! t) as [b|]; [|done]. destruct Ha as [x Ha]. apply lookup_delete_Some in Ha as [? ?]. split; [eauto|congruence]. }
    destruct Ha' as [Ha1 Ha2]. destruct (H3 a Ha1) as [u Hu]. exists u. rewrite lookup_delete_ne; [done|]. by intros ->.
  - intros u Hu. pose proof (H4 u Hu). apply elem_of_difference. split; [done|]. intros ->%elem_of_singleton. rewrite Ht in Hu. by destruct Hu.
  - intros u. unfold owner, upd. rewrite E1, E2. case_decide as Hu; [subst; by rewrite Ht, lookup_delete_eq|].
    rewrite lookup_delete_ne by done. destruct (starting p !! u); [done|]. destruct (tls_slots p !! u) as [a|] eqn:Ea; [|done]. cbn. by rewrite (Hkeep u).
Qed.

(** The structure of a thread that ends. *)
Definition end_struct (th : Z) : M unit :=
  b ← read_thread th;
  let '(prev_state, st) := atomic_fetch_add (state (info b)) STATE_STOPPED in
  write_thread th (fun b => mk_block (hnd b) (mk_mm_thread (retval (info b)) st));;
  if negb (Z.land prev_state STATE_DETACHED =? 0) then destroy_mm_thread_data th else mret tt.

Lemma end_struct_ok p t th :
  structs_ok (owner p) (state_of p) -> owner p t = Some th ->
  exists p', end_struct th p = Some (tt, p') /\ structs_ok (upd (owner p) t None) (state_of p') /\ tls_slots p' = tls_slots p
    /\ tls_blocks p' = tls_blocks p /\ starting p' = starting p /\ alive p' = alive p.
Proof.
  intros Hs Hown. destruct (thread_blocks p !! th) as [b|] eqn:Eb.
  2: { exfalso. destruct (st_live _ _ Hs _ _ Hown) as [H|H]; unfold state_of in H; by rewrite Eb in H. }
  assert (Hst : state_of p th = Some (state (info b))) by (unfold state_of; by rewrite Eb).
  unfold end_struct. rewrite (st_bind_Some _ _ _ _ _ (read_thread_ok p th b Eb)). unfold atomic_fetch_add.
  rewrite (st_bind_Some _ _ _ _ _ (write_thread_ok p th b _ Eb)). set (p1 := set_threads _ p).
  destruct (st_live _ _ Hs _ _ Hown) as [H|H]; rewrite Hst in H; injection H as H; rewrite H in *.
  - eexists. split; [reflexivity|]. split_and!; try done.
    eapply structs_ext; [done| |exact (structs_end _ _ t th (Some STATE_STOPPED) Hs Hown (or_intror eq_refl))].
    intros x. etrans; [exact (state_of_insert p p1 th _ x eq_refl)|]. cbn [info state]. by rewrite H.
  - destruct (destroy_ok p1 th _ (lookup_insert_eq _ _ _)) as (p2 & E2 & D1 & D2 & D3 & D4 & D5).
    exists p2. split; [exact E2|]. split_and!; try done.
    eapply structs_ext; [done| |exact (structs_end _ _ t th None Hs Hown (or_introl eq_refl))].
    intros x. apply state_of_delete. rewrite D1. cbn. apply delete_insert_eq.
Qed.

Lemma free_local_ok p a d : tls_blocks p !! a = Some d -> free_local a p = Some (tt, set_locals (delete a (tls_blocks p)) p).
Proof. intros H. unfold free_local, mbind, st_bind, st_gets, st_option. by rewrite H. Qed.

Lemma exit_ok p t :
  owned p -> running p t ->
  exists p', (DllMain t None DLL_THREAD_DETACH ≫= fun _ => st_modify (fun p => set_slots (delete t (tls_slots p)) (set_life (starting p) (alive p ∖ {[ t ]}) p))) p = Some (tt, p')
    /\ owned p' /\ owner p' t = None /\ t ∉ alive p'.
Proof.
  intros [Ho Hs] [Hal Hst]. unfold DllMain, thread_local_data_on_exit. rewrite st_bind_assoc. rewrite st_bind_assoc.
  unfold mbind at 1, st_bind at 1, st_gets at 1. destruct (tls_slots p !! t) as [a|] eqn:Ea.
  2: { eexists. split; [reflexivity|]. destruct (leave_ok p (set_slots (delete t (tls_slots p)) (set_life (starting p) (alive p ∖ {[ t ]}) p)) t) as [H1 H2]; try done;
         [by rewrite Ea|]. split; [split; [done|]|split; [rewrite H2; unfold upd; by rewrite decide_True|cbn; set_solver]].
       eapply structs_ext; [exact H2|done|]. apply structs_end_none; [done|]. unfold owner. by rewrite Hst, Ea. }
  destruct (so_slot _ Ho _ _ Ea) as (_ & _ & [d Hd]).
  assert (Hmid : exists p1, (match thread d with None => mret tt | Some th => end_struct th end) p = Some (tt, p1)
     /\ structs_ok (upd (owner p) t None) (state_of p1) /\ tls_slots p1 = tls_slots p /\ tls_blocks p1 = tls_blocks p /\ starting p1 = starting p /\ alive p1 = alive p).
  { pose proof (running_owner p t a d (conj Hal Hst) Ea Hd) as Hown. destruct (thread d) as [th|]; [by apply end_struct_ok|].
    exists p. split; [done|]. split; [by apply structs_end_none|done]. }
  destruct Hmid as (p1 & E1 & Hs1 & F1 & F2 & F3 & F4).
  rewrite (st_bind_assoc (read_local a)). rewrite (st_bind_Some (read_local a) _ p d p) by (unfold read_local, mbind, st_bind, st_gets, st_option; by rewrite Hd).
  rewrite st_bind_assoc. unfold end_struct in E1. rewrite (st_bind_Some _ _ _ _ _ E1). rewrite st_bind_assoc.
  set (p2 := if is_init (lockref d) then add_closed (lockref d) p1 else p1).
  rewrite (st_bind_Some (if is_init (lockref d) then _ else _) _ p1 tt p2) by (subst p2; by destruct (is_init (lockref d))).
  assert (Hsame : tls_slots p2 = tls_slots p1 /\ tls_blocks p2 = tls_blocks p1 /\ starting p2 = starting p1 /\ alive p2 = alive p1 /\ thread_blocks p2 = thread_blocks p1)
    by (subst p2; by destruct (is_init (lockref d))).
  destruct Hsame as (G1 & G2 & G3 & G4 & G5).
  assert (Hd2 : tls_blocks p2 !! a = Some d) by (by rewrite G2, F2).
  rewrite (st_bind_Some _ _ _ _ _ (free_local_ok p2 a d Hd2)).
  eexists. split; [reflexivity|]. set (p3 := set_slots _ _).
  destruct (leave_ok p p3 t Ho Hst) as [H1 H2]; [cbn; congruence|cbn; congruence|cbn; congruence|cbn; rewrite Ea; congruence|].
  split; [split; [done|]|split; [rewrite H2; unfold upd; by rewrite decide_True|cbn; set_solver]].
  eapply structs_ext; [exact H2| |exact Hs1]. intros x. unfold state_of. cbn. by rewrite G5.
Qed.
Lemma proc_end_ok p t th v :
  is_Some (state_of p th) ->
  exists p', thread_proc_end t th v p = Some (tt, p') /\ tls_slots p' = tls_slots p /\ tls_blocks p' = tls_blocks p /\ starting p' = starting p
    /\ alive p' = alive p /\ (forall x, state_of p' x = state_of p x).
Proof.
  intros [s Hs]. unfold state_of in Hs. destruct (thread_blocks p !! th) as [b|] eqn:Eb; [|done]. unfold thread_proc_end.
  rewrite (write_thread_ok p th b _ Eb). eexists. split; [reflexivity|]. split_and!; try done. intros x.
  etrans; [by apply (state_of_insert p)|]. unfold upd. case_decide as H; [subst; cbn; unfold state_of; by rewrite Eb|done].
Qed.

Lemma join_ok p t th :
  owned p -> state_of p th = Some STATE_STOPPED ->
  exists v p', mm_thr_join t th p = Some ((0, Some v), p') /\ owned p' /\ state_of p' th = None.
Proof.
  intros [Ho Hs] Hst. pose proof Hst as Hst'. unfold state_of in Hst'. destruct (thread_blocks p !! th) as [b|] eqn:Eb; [|done]. injection Hst' as Hst'.
  unfold mm_thr_join. rewrite (st_bind_Some _ _ _ _ _ (read_thread_ok p th b Eb)), Hst'.
  change (negb (Z.land STATE_STOPPED STATE_DETACHED =? 0)) with false. cbv iota.
  rewrite (st_bind_Some _ _ _ _ _ (read_thread_ok p th b Eb)). destruct (destroy_ok p th b Eb) as (p' & E & D1 & D2 & D3 & D4 & D5).
  rewrite (st_bind_Some _ _ _ _ _ E). eexists _, p'. split; [reflexivity|]. pose proof (fun x => state_of_delete p p' th x D1) as Hx. split; [split|].
  - apply (slots_same p); congruence.
  - eapply structs_ext; [|exact Hx|by apply structs_free]. intros u. by apply owner_same.
  - rewrite Hx. unfold upd. by rewrite decide_True.
Qed.

Lemma detach_ok p t th :
  owned p -> state_of p th = Some 0 \/ state_of p th = Some STATE_STOPPED ->
  exists p', mm_thr_detach t th p = Some (0, p') /\ owned p'.
Proof.
  intros [Ho Hs] Hst. destruct (thread_blocks p !! th) as [b|] eqn:Eb; [|unfold state_of in Hst; rewrite Eb in Hst; by destruct Hst].
  unfold mm_thr_detach. rewrite (st_bind_Some _ _ _ _ _ (read_thread_ok p th b Eb)). unfold atomic_fetch_add.
  rewrite (st_bind_Some _ _ _ _ _ (write_thread_ok p th b _ Eb)). set (p1 := set_threads _ p).
  assert (Hb : forall s, state_of p th = Some s -> state (info b) = s) by (intros s; unfold state_of; rewrite Eb; by intros [= <-]).
  destruct Hst as [H|H]; rewrite (Hb _ H).
  - exists p1. split; [reflexivity|]. split; [by apply (slots_same p)|]. eapply structs_ext; [done| |by apply (structs_detach _ _ th Hs)].
    intros x. etrans; [by apply (state_of_insert p)|]. cbn [info state]. by rewrite (Hb _ H).
  - destruct (destroy_ok p1 th _ (lookup_insert_eq _ _ _)) as (p2 & E2 & D1 & D2 & D3 & D4 & D5).
    change (negb (Z.land STATE_STOPPED STATE_DETACHED =? 0)) with false. change (negb (Z.land STATE_STOPPED STATE_STOPPED =? 0)) with true. cbv iota.
    rewrite (st_bind_Some _ _ _ _ _ E2). exists p2. split; [done|]. split; [apply (slots_same p1); try congruence; by apply (slots_same p)|].
    eapply structs_ext; [|intros x; apply (state_of_delete p); rewrite D1; cbn; apply delete_insert_eq|by apply structs_free].
    intros u. etrans; [by apply (owner_same p1)|done].
Qed.

End Ops.

(** ** A process *)

Module ThreadDemo.

Definition process0 : process := mk_process (Some 7) ∅ ∅ ∅ 20 ∅ [] ∅ {[ 1 ]}.

Definition run_steps (l : list thr_event) (p : process) : option process :=
  fold_left (fun o e => p ← o; '(_, p') ← thr_step initial_info initial_info initial_info e p; Some p') l (Some p).

(** The thread 1 creates the thread 2, uses its own data, and joins the thread 2 when it has ended. *)
Example create_and_join :
  exists p, run_steps [EvSelf 1; EvCreate 1 2 (Some 50); EvStart 2; EvData 2; EvExit 2 (Some 9); EvJoinThread 1 2] process0 = Some p
    /\ size (tls_blocks p) = 1%nat /\ size (thread_blocks p) = 1%nat /\ thread_handles p = ∅ /\ alive p = {[ 1 ]}.
Proof. eexists. split; [vm_compute; reflexivity|]. by vm_compute. Qed.

(** The slot keeps the address of the data that has been freed: what is called later in the thread that ends, by another library, uses it. *)
Example slot_dangles :
  exists p, DllMain 1 None DLL_THREAD_DETACH (set_slots {[ 1 := 0 ]} (set_locals {[ 0 := mk_tld conn_null initial_info None ]} process0)) = Some (true, p)
    /\ get_thread_last_error 1 p = None.
Proof. eexists. split; vm_compute; reflexivity. Qed.

(** Without memory for the structure, [mm_thr_self] gives no thread. *)
Example self_without_memory :
  exists p, mm_thr_self initial_info 1 (mk_process (Some 7) ∅ ∅ ∅ 1 ∅ [] ∅ {[ 1 ]}) = Some (None, p).
Proof. eexists. vm_compute. reflexivity. Qed.

Lemma process0_owned : owned process0.
Proof.
  assert (Hown : forall t, owner process0 t = None).
  { intros t. unfold owner. change (starting process0) with (∅ : gmap Z Z). change (tls_slots process0) with (∅ : gmap Z Z). by rewrite !lookup_empty. }
  assert (Hst : forall th, state_of process0 th = None).
  { intros th. unfold state_of. change (thread_blocks process0) with (∅ : gmap Z thread_block). by rewrite lookup_empty. }
  split; split.
  - intros t a H. exfalso. exact (lookup_empty_Some t a H).
  - intros t t' a H. exfalso. exact (lookup_empty_Some t a H).
  - intros a [x H]. exfalso. exact (lookup_empty_Some a x H).
  - intros t [x H]. exfalso. exact (lookup_empty_Some t x H).
  - intros t th H. by rewrite Hown in H.
  - intros t t' th H. by rewrite Hown in H.
  - intros th s H. by rewrite Hst in H.
Qed.
End ThreadDemo.

Import ThreadDemo.

