(* ===== verification/ThreadPosix.v ===== *)
(** * Threads and clocks on POSIX

    [thread-posix.c] and [time-posix.c]: the objects of pthread and their attributes, the clocks, and the errors raised.  The library of the system is the
    class [PthreadOs]; the calls return an error number, the clocks set [errno]. *)

From S2P Require Import Prelude CStr Time Effects MutexVal PsharedMutex Threads.

(** Attributes: what the calls on them have set. *)
Record mutexattr := mk_mattr { ma_pshared : bool; ma_robust : bool }.
Record condattr := mk_cattr { ca_pshared : bool; ca_monotonic : bool }.

Class PthreadOs (St : Type) := {
  pthread_mutex_init : Z -> option mutexattr -> St -> Z * St;
  pthread_mutex_lock : Z -> St -> Z * St;
  pthread_mutex_trylock : Z -> St -> Z * St;
  pthread_mutex_consistent : Z -> St -> Z * St;
  pthread_mutex_unlock : Z -> St -> Z * St;
  pthread_mutex_destroy : Z -> St -> Z * St;
  pthread_cond_init : Z -> option condattr -> St -> Z * St;
  pthread_cond_wait : Z -> Z -> St -> Z * St;
  pthread_cond_timedwait : Z -> Z -> mm_timespec -> St -> Z * St;
  pthread_cond_signal : Z -> St -> Z * St;
  pthread_cond_broadcast : Z -> St -> Z * St;
  pthread_cond_destroy : Z -> St -> Z * St;
  pthread_once : Z -> Z -> St -> Z * St;
  pthread_create : Z -> Z -> St -> Z * option Z * St;             (* routine, argument: the thread *)
  pthread_join : Z -> St -> Z * option Z * St;                    (* the value *)
  pthread_detach : Z -> St -> Z * St;
  pthread_self : St -> Z;
  clock_gettime : Z -> St -> option mm_timespec * St;
  clock_getres : Z -> St -> option mm_timespec * St;
  clock_nanosleep_abstime : Z -> mm_timespec -> St -> Z * St;
  raise_error : Z -> cstr -> St -> St;                            (* [mm_raise_error] *)
  raise_from_errno : cstr -> St -> St;
  log_warn : cstr -> St -> St;
  strerror : Z -> cstr;
  HAVE_PTHREAD_MUTEX_CONSISTENT : bool                            (* of the configuration *)
}.

Definition ENOTSUP : Z := 95.

Section Posix.

Context {St : Type} `{!PthreadOs St}.

Abbreviation M := (ST St).

Definition has_flag (flags f : Z) : bool := negb (Z.land flags f =? 0).

(** An error number that is not 0 is raised. *)
Definition report (ret : Z) (msg : cstr) : M unit := if ret =? 0 then mret tt else st_modify (raise_error ret (msg ++ cs ": " ++ strerror ret)).

(** ** Mutexes *)

Definition mm_thr_mutex_init (mutex flags : Z) : M Z :=
  attr ← (if flags =? 0 then mret None
          else if has_flag flags MM_THR_PSHARED then
            (if HAVE_PTHREAD_MUTEX_CONSISTENT then mret tt else st_modify (log_warn (cs "Process shared mutex are supposed to be robust as well. But I do not how to have a robust mutex on this platform")));;
            mret (Some (mk_mattr true HAVE_PTHREAD_MUTEX_CONSISTENT))
          else mret (Some (mk_mattr false false)));
  ret ← st_call (pthread_mutex_init mutex attr);
  report ret (cs "Failed initializing mutex");;
  mret ret.

Definition mm_thr_mutex_lock (mutex : Z) : M Z := st_call (pthread_mutex_lock mutex).
Definition mm_thr_mutex_trylock (mutex : Z) : M Z := st_call (pthread_mutex_trylock mutex).
Definition mm_thr_mutex_consistent (mutex : Z) : M Z :=
  if HAVE_PTHREAD_MUTEX_CONSISTENT then st_call (pthread_mutex_consistent mutex)
  else st_modify (raise_error ENOTSUP (cs "Robust mutex not supported on this platform"));; mret ENOTSUP.
Definition mm_thr_mutex_unlock (mutex : Z) : M Z := st_call (pthread_mutex_unlock mutex).
Definition mm_thr_mutex_deinit (mutex : Z) : M Z := st_call (pthread_mutex_destroy mutex).

(** ** Condition variables *)

Definition mm_thr_cond_init (cond flags : Z) : M Z :=
  let attr := if flags =? 0 then None else Some (mk_cattr (has_flag flags MM_THR_PSHARED) (has_flag flags MM_THR_WAIT_MONOTONIC)) in
  ret ← st_call (pthread_cond_init cond attr);
  report ret (cs "Failed initializing cond");;
  mret ret.

Definition mm_thr_cond_wait (cond mutex : Z) : M Z := st_call (pthread_cond_wait cond mutex).
Definition mm_thr_cond_timedwait (cond mutex : Z) (abstime : mm_timespec) : M Z := st_call (pthread_cond_timedwait cond mutex abstime).
Definition mm_thr_cond_signal (cond : Z) : M Z := st_call (pthread_cond_signal cond).
Definition mm_thr_cond_broadcast (cond : Z) : M Z := st_call (pthread_cond_broadcast cond).
Definition mm_thr_cond_deinit (cond : Z) : M Z := st_call (pthread_cond_destroy cond).
Definition mm_thr_once (once once_routine : Z) : M Z := st_call (pthread_once once once_routine).

(** ** Threads *)

Definition mm_thr_create (proc arg : Z) : M (Z * option Z) :=
  '(ret, th) ← st_call (pthread_create proc arg);
  report ret (cs "Failed creating thread");;
  mret (ret, th).

Definition mm_thr_join (th : Z) : M (Z * option Z) :=
  '(ret, v) ← st_call (pthread_join th);
  report ret (cs "Failed to join thread");;
  mret (ret, v).

Definition mm_thr_detach (th : Z) : M Z :=
  ret ← st_call (pthread_detach th);
  report ret (cs "Failed to detach thread");;
  mret ret.

Definition mm_thr_self : M Z := st_gets pthread_self.

(** ** Clocks *)

Definition mm_gettime (clock_id : Z) : M (Z * option mm_timespec) :=
  ts ← st_call (clock_gettime clock_id);
  match ts with Some ts => mret (0, Some ts) | None => st_modify (raise_from_errno (cs "clock_gettime failed"));; mret (-1, None) end.

Definition mm_getres (clock_id : Z) : M (Z * option mm_timespec) :=
  res ← st_call (clock_getres clock_id);
  match res with Some res => mret (0, Some res) | None => st_modify (raise_from_errno (cs "clock_getres failed"));; mret (-1, None) end.

Definition mm_nanosleep (clock_id : Z) (ts : mm_timespec) : M Z :=
  ret ← st_call (clock_nanosleep_abstime clock_id ts);
  if ret =? 0 then mret 0 else st_modify (raise_error ret (cs "clock_nanosleep failed: " ++ strerror ret));; mret (-1).

(** The attributes that the flags ask for. *)
Lemma mutex_attributes mutex flags s :
  HAVE_PTHREAD_MUTEX_CONSISTENT = true ->
  exists attr, mm_thr_mutex_init mutex flags s
    = Some (fst (pthread_mutex_init mutex attr s),
        let '(ret, s1) := pthread_mutex_init mutex attr s in if ret =? 0 then s1 else raise_error ret (cs "Failed initializing mutex" ++ cs ": " ++ strerror ret) s1)
    /\ match attr with Some a => ma_pshared a = has_flag flags MM_THR_PSHARED /\ ma_robust a = ma_pshared a | None => flags = 0 end.
Proof.
  intros Hc. unfold mm_thr_mutex_init.
  exists (if flags =? 0 then None else Some (mk_mattr (has_flag flags MM_THR_PSHARED) (has_flag flags MM_THR_PSHARED))).
  rewrite Hc. unfold mbind, st_bind, st_call, report, mret, st_ret, st_modify.
  destruct (Z.eqb_spec flags 0) as [->|Hf].
  - destruct (pthread_mutex_init mutex None s) as [ret s1]. by destruct (ret =? 0).
  - destruct (has_flag flags MM_THR_PSHARED); destruct (pthread_mutex_init mutex _ s) as [ret s1]; by destruct (ret =? 0).
Qed.

End Posix.
