(* ===== verification/CondWin32.v ===== *)
(** * Native condition variables on Windows

    The exported functions on condition variables of [thread-win32.c]: the process-shared ones are those of [PsharedLock], the others call Windows,
    which is the class [SrwOs].  The deadline of a timed wait is checked again each time the sleep of Windows times out. *)

From S2P Require Import Prelude Time Effects MutexVal PsharedMutex Threads RefereeServer PsharedLock.

Class SrwOs (St : Type) := {
  SleepConditionVariableSRW : Z -> St -> bool * bool * St;         (* timeout; success, and whether the error is [ERROR_TIMEOUT] *)
  WakeConditionVariable : St -> St;
  WakeAllConditionVariable : St -> St;
  gettime : Z -> St -> mm_timespec * St
}.

Definition INFINITE : Z := 0xFFFFFFFF.
Definition CLOCK_REALTIME : Z := 0.
Definition CLOCK_MONOTONIC : Z := 1.

Section Cond.

Context {St : Type} `{!SrwOs St, !LockrefOs St} (conn : lockref_connection) (mutex_unlock mutex_lock : ST St Z) (fuel : nat).

Abbreviation M := (ST St).

Definition sleep_win32cv (timeout_ms : Z) : M Z :=
  '(res, is_timeout) ← st_call (SleepConditionVariableSRW timeout_ms);
  mret (sleep_ret res is_timeout).

Definition mm_thr_cond_wait (flag : Z) (c : cond) : M (cond * Z) :=
  if mm_thr_cond_is_pshared flag then pshared_cond_wait fuel conn mutex_unlock mutex_lock c None
  else ret ← sleep_win32cv INFINITE; mret (c, ret).

Fixpoint timedwait_turns (fuel : nat) (clk_id : Z) (abstime : mm_timespec) : M Z :=
  match fuel with
  | O => st_ub
  | S fuel =>
      now ← st_call (gettime clk_id);
      delta_ns ← st_option (mm_timediff_ns abstime now);
      if delta_ns <? 0 then mret ETIMEDOUT
      else
        ret ← sleep_win32cv (u32 (Z.quot delta_ns NS_IN_MS));
        if ret =? ETIMEDOUT then timedwait_turns fuel clk_id abstime else mret ret
  end.

Definition mm_thr_cond_timedwait (flag : Z) (c : cond) (abstime : mm_timespec) : M (cond * Z) :=
  if mm_thr_cond_is_pshared flag then pshared_cond_wait fuel conn mutex_unlock mutex_lock c (Some abstime)
  else
    let clk_id := if Z.land flag WAITCLK_FLAG_MONOTONIC =? 0 then CLOCK_REALTIME else CLOCK_MONOTONIC in
    ret ← timedwait_turns fuel clk_id abstime; mret (c, ret).

Definition mm_thr_cond_signal (flag : Z) (c : cond) : M (cond * Z) :=
  if mm_thr_cond_is_pshared flag then
    let '(c', r) := pshared_cond_signal c in pshared_cond_send conn r;; mret (c', 0)
  else st_modify WakeConditionVariable;; mret (c, 0).

Definition mm_thr_cond_broadcast (flag : Z) (c : cond) : M (cond * Z) :=
  if mm_thr_cond_is_pshared flag then
    let '(c', r) := pshared_cond_broadcast c in pshared_cond_send conn r;; mret (c', 0)
  else st_modify WakeAllConditionVariable;; mret (c, 0).

Definition mm_thr_cond_deinit : Z := 0.
Definition mm_thr_mutex_deinit : Z := 0.

(** A native timed wait that ends by [ETIMEDOUT] has read a clock that is past the deadline, and it sleeps only before the deadline. *)
Lemma timedwait_not_early n clk_id abstime s s' :
  timedwait_turns n clk_id abstime s = Some (ETIMEDOUT, s') ->
  exists s0 now d, gettime clk_id s0 = (now, s') /\ mm_timediff_ns abstime now = Some d /\ d < 0.
Proof.
  revert s. induction n as [|n IH]; intros s; [done|]. cbn [timedwait_turns].
  unfold mbind at 1, st_bind at 1, st_call at 1. destruct (gettime clk_id s) as [now s1] eqn:Eg.
  unfold mbind at 1, st_bind at 1, st_option at 1. destruct (mm_timediff_ns abstime now) as [d|] eqn:Ed; [|done]. cbn [mbind option_bind].
  destruct (Z.ltb_spec d 0) as [Hd|_]; [intros [= <-]; by exists s, now, d|].
  unfold sleep_win32cv, mbind at 1, st_bind at 1. unfold mbind at 1, st_bind at 1, st_call at 1.
  destruct (SleepConditionVariableSRW _ s1) as [[res e] s2]. cbn [mret st_ret].
  destruct (Z.eqb_spec (sleep_ret res e) ETIMEDOUT) as [E|E]; [apply IH|]. by intros [= ].
Qed.

End Cond.

(** The timeout in milliseconds is cut to 32 bits: a deadline in a little less than 50 days is [INFINITE], and the sleep does not end by itself. *)
Example far_deadline_is_infinite :
  u32 (Z.quot (default 0 (mm_timediff_ns (mk_ts 4294967 296000000) (mk_ts 0 1000000))) NS_IN_MS) = INFINITE.
Proof. by vm_compute. Qed.
