(* ===== verification/Alloc.v ===== *)
(** * Allocation

    [alloc.c] and the allocation on the stack of [mmlib.h].  A small block is on the stack and a large one on the heap, which [mm_freea] finds by the
    parity of the address in units of [MM_STK_ALIGN].  The functions of the C library are the class [AllocOs], with the documented behaviour that the
    theorems rely on in [AllocLaws]: the blocks of the heap, and those of the stack frame. *)

From S2P Require Import Prelude CStr Effects PsharedMutex.

(** The primitive that the configuration has found. *)
Inductive alloc_primitive := POSIX_MEMALIGN | ALIGNED_ALLOC | ALIGNED_MALLOC.

Definition ENOMEM : Z := 12.
Definition SIZEOF_POINTER : Z := 8.
Definition MM_STACK_ALLOC_THRESHOLD : Z := 2048.

Class AllocOs (St : Type) := {
  primitive : alloc_primitive;
  MM_STK_ALIGN : Z;
  posix_memalign : Z -> Z -> St -> (Z + Z) * St;        (* error number, or address *)
  aligned_alloc : Z -> Z -> St -> option Z * St;
  aligned_malloc : Z -> Z -> St -> option Z * St;
  libc_free : Z -> St -> option St;                     (* undefined if the address is not that of a block *)
  aligned_free : Z -> St -> option St;
  alloca : Z -> St -> Z * St;
  set_errno : Z -> St -> St;
  raise_error : Z -> cstr -> St -> St;
  raise_from_errno : cstr -> St -> St
}.

Definition MM_IS_POW2 (n : Z) : bool := Z.land n (n - 1) =? 0.

Section Alloc.

Context {St : Type} `{!AllocOs St}.

Abbreviation M := (ST St).

Definition internal_aligned_alloc (alignment size : Z) : M (option Z) :=
  match primitive with
  | POSIX_MEMALIGN =>
      r ← st_call (posix_memalign alignment size);
      match r with inl ret => st_modify (set_errno ret);; mret None | inr ptr => mret (Some ptr) end
  | ALIGNED_ALLOC => st_call (aligned_alloc alignment size)
  | ALIGNED_MALLOC =>
      if negb (MM_IS_POW2 alignment) || (alignment <? SIZEOF_POINTER) then st_modify (set_errno EINVAL);; mret None
      else st_call (aligned_malloc size alignment)
  end.

Definition mm_aligned_alloc (alignment size : Z) : M (option Z) :=
  ptr ← internal_aligned_alloc alignment size;
  match ptr with
  | None => st_modify (raise_from_errno (cs "Cannot allocate buffer"));; mret None
  | Some ptr => mret (Some ptr)
  end.

(** A null pointer is 0. *)
Definition mm_aligned_free (ptr : Z) : M unit :=
  fun s => s' ← (match primitive with ALIGNED_MALLOC => aligned_free ptr s | _ => libc_free ptr s end); Some (tt, s').

Definition mm_malloca_on_heap (size : Z) : M (option Z) :=
  let alloc_size := u64 (size + 2 * MM_STK_ALIGN) in
  if alloc_size <? size then st_modify (raise_error ENOMEM (cs "size is too big"));; mret None
  else
    ptr ← internal_aligned_alloc (2 * MM_STK_ALIGN) alloc_size;
    match ptr with
    | None => st_modify (raise_from_errno (cs "malloca_on_heap failed"));; mret None
    | Some ptr => mret (Some (ptr + MM_STK_ALIGN))
    end.

Definition mm_freea_on_heap (ptr : Z) : M unit := mm_aligned_free (ptr - MM_STK_ALIGN).

Definition mm_aligned_alloca (alignment size : Z) : M (option Z) :=
  if negb (Z.land alignment (alignment - 1) =? 0) then mret None
  else
    p ← st_call (alloca (u64 (size + alignment - 1)));
    let a := Z.land (u64 (p + alignment - 1)) (u64 (Z.lnot (alignment - 1))) in
    mret (if a =? 0 then None else Some a).

Definition mm_malloca (size : Z) : M (option Z) :=
  if MM_STACK_ALLOC_THRESHOLD <? size then mm_malloca_on_heap size else mm_aligned_alloca (2 * MM_STK_ALIGN) size.

Definition mm_freea (ptr : Z) : M unit :=
  if Z.land ptr (2 * MM_STK_ALIGN - 1) =? 0 then mret tt else mm_freea_on_heap ptr.

(** ** Laws *)

Definition in_block (m : gmap Z Z) (p size : Z) : Prop := exists base n, m !! base = Some n /\ base <= p /\ p + size <= base + n.

Definition alloc_law (heap frame : St -> gmap Z Z) (alignment size : Z) (s : St) (r : option Z) (s' : St) : Prop :=
  frame s' = frame s
  /\ match r with
     | None => heap s' = heap s
     | Some p => 0 < p /\ (alignment | p) /\ p + size < 2 ^ 64 /\ heap s !! p = None /\ heap s' = <[p := size]> (heap s)
     end.

Class AllocLaws (heap frame : St -> gmap Z Z) := {
  stk_align : exists k, 3 <= k <= 20 /\ MM_STK_ALIGN = 2 ^ k;
  memalign_law al sz s r s' : posix_memalign al sz s = (r, s') -> alloc_law heap frame al sz s (match r with inl _ => None | inr p => Some p end) s';
  aligned_alloc_law al sz s r s' : aligned_alloc al sz s = (r, s') -> alloc_law heap frame al sz s r s';
  aligned_malloc_law al sz s r s' : aligned_malloc sz al s = (r, s') -> alloc_law heap frame al sz s r s';
  free_law p s n : primitive <> ALIGNED_MALLOC -> heap s !! p = Some n -> exists s', libc_free p s = Some s' /\ heap s' = delete p (heap s) /\ frame s' = frame s;
  aligned_free_law p s n : primitive = ALIGNED_MALLOC -> heap s !! p = Some n -> exists s', aligned_free p s = Some s' /\ heap s' = delete p (heap s) /\ frame s' = frame s;
  alloca_law sz s : 0 <= sz <= 2 ^ 22 -> let '(p, s') := alloca sz s in heap s' = heap s /\ 0 < p /\ p + sz < 2 ^ 64 /\ frame s' = <[p := sz]> (frame s);
  set_errno_law e s : heap (set_errno e s) = heap s /\ frame (set_errno e s) = frame s;
  raise_law e m s : heap (raise_error e m s) = heap s /\ frame (raise_error e m s) = frame s;
  raise_errno_law m s : heap (raise_from_errno m s) = heap s /\ frame (raise_from_errno m s) = frame s
}.

End Alloc.

Section Theorems.

Context {St : Type} `{!AllocOs St} (heap frame : St -> gmap Z Z) `{!AllocLaws heap frame}.

Lemma internal_alloc_ok al sz s :
  exists r s', internal_aligned_alloc al sz s = Some (r, s') /\ alloc_law heap frame al sz s r s'.
Proof.
  unfold internal_aligned_alloc. destruct primitive.
  - unfold mbind, st_bind, st_call. destruct (posix_memalign al sz s) as [[e|p] s1] eqn:E; apply (memalign_law (frame := frame)) in E.
    + eexists None, _. split; [reflexivity|]. destruct (set_errno_law e s1) as [H1 H2]. destruct E as [E1 E2]. split; congruence.
    + by eexists (Some p), _.
  - unfold st_call. destruct (aligned_alloc al sz s) as [r s1] eqn:E. exists r, s1. split; [done|]. by apply aligned_alloc_law.
  - destruct (_ || _).
    + eexists None, _. split; [reflexivity|]. destruct (set_errno_law EINVAL s) as [H1 H2]. split; done.
    + unfold st_call. destruct (aligned_malloc sz al s) as [r s1] eqn:E. exists r, s1. split; [done|]. by apply aligned_malloc_law.
Qed.

Lemma aligned_free_ok p s n :
  heap s !! p = Some n -> exists s', mm_aligned_free p s = Some (tt, s') /\ heap s' = delete p (heap s) /\ frame s' = frame s.
Proof.
  intros H. unfold mm_aligned_free. destruct primitive eqn:E.
  1,2: assert (Hne : primitive <> ALIGNED_MALLOC) by (rewrite E; discriminate); destruct (free_law p s n Hne H) as (s' & -> & ?); by exists s'.
  destruct (aligned_free_law p s n E H) as (s' & -> & ?). by exists s'.
Qed.

(** The alignment of the stack and its double. *)
Lemma stk_facts : exists k, 4 <= k <= 21 /\ 2 * MM_STK_ALIGN = 2 ^ k /\ 0 < MM_STK_ALIGN.
Proof.
  destruct (stk_align (heap := heap) (frame := frame)) as (k & Hk & ->). exists (k + 1). rewrite Z.pow_add_r by lia. pose proof (Z.pow_pos_nonneg 2 k). split_and!; lia.
Qed.

Lemma round_down k x : 0 <= k -> 0 <= x < 2 ^ 64 -> Z.land x (u64 (Z.lnot (2 ^ k - 1))) = x - x mod 2 ^ k.
Proof.
  intros Hk Hx. replace (2 ^ k - 1) with (Z.ones k) by (rewrite Z.ones_equiv; lia). unfold wrap_u. rewrite <- Z.land_ones by lia.
  rewrite (Z.land_comm (Z.lnot _)), Z.land_assoc, Z.land_ones, Z.mod_small by lia. change (Z.land x (Z.lnot (Z.ones k))) with (Z.land x (Z.lnot (Z.ones k))).
  rewrite <- Z.ldiff_land, Z.ldiff_ones_r, Z.shiftl_mul_pow2, Z.shiftr_div_pow2 by lia.
  pose proof (Z.div_mod x (2 ^ k) ltac:(lia)). lia.
Qed.

Lemma pow2_alignment k : 0 <= k -> Z.land (2 ^ k) (2 ^ k - 1) = 0.
Proof. intros Hk. replace (2 ^ k - 1) with (Z.ones k) by (rewrite Z.ones_equiv; lia). by rewrite Z.land_ones, Z.mod_same by lia. Qed.

Lemma parity k p : 0 <= k -> Z.land p (2 ^ k - 1) = p mod 2 ^ k.
Proof. intros Hk. replace (2 ^ k - 1) with (Z.ones k) by (rewrite Z.ones_equiv; lia). by rewrite Z.land_ones by lia. Qed.

Lemma stack_alloc_ok size s :
  0 <= size <= MM_STACK_ALLOC_THRESHOLD ->
  exists p s', mm_aligned_alloca (2 * MM_STK_ALIGN) size s = Some (Some p, s') /\ heap s' = heap s /\ p mod (2 * MM_STK_ALIGN) = 0
    /\ in_block (frame s') p size.
Proof.
  intros Hs. destruct stk_facts as (k & Hk & Ek & Hpos). unfold mm_aligned_alloca. rewrite Ek, pow2_alignment by lia. cbn [negb Z.eqb].
  assert (Hp : 16 <= 2 ^ k <= 2 ^ 21) by (split; [change 16 with (2 ^ 4)|]; apply Z.pow_le_mono_r; lia).
  unfold MM_STACK_ALLOC_THRESHOLD in Hs. rewrite (wrap_u_small 64 (size + 2 ^ k - 1)) by (unfold in_u; lia). unfold mbind, st_bind, st_call.
  pose proof (alloca_law (heap := heap) (frame := frame) (size + 2 ^ k - 1) s ltac:(lia)) as Hl. destruct (alloca _ s) as [p s1]. destruct Hl as (H1 & H2 & H3 & H4).
  rewrite (wrap_u_small 64 (p + 2 ^ k - 1)), round_down by (unfold in_u; lia). set (x := p + 2 ^ k - 1).
  pose proof (Z.mod_pos_bound x (2 ^ k) ltac:(lia)) as Hm. destruct (Z.eqb_spec (x - x mod 2 ^ k) 0) as [E|E]; [unfold x in *; lia|].
  exists (x - x mod 2 ^ k), s1. split; [done|]. split; [done|]. split.
  - rewrite Zminus_mod_idemp_r, Z.sub_diag. apply Z.mod_0_l. lia.
  - exists p, (size + 2 ^ k - 1). rewrite H4, lookup_insert_eq. unfold x in *. split; [done|]. lia.
Qed.

Lemma heap_alloc_ok size s :
  0 <= size < 2 ^ 64 ->
  exists r s', mm_malloca_on_heap size s = Some (r, s') /\ frame s' = frame s
    /\ match r with
       | None => heap s' = heap s
       | Some p => exists n, heap s !! (p - MM_STK_ALIGN) = None /\ heap s' = <[p - MM_STK_ALIGN := n]> (heap s)
                   /\ p mod (2 * MM_STK_ALIGN) = MM_STK_ALIGN /\ MM_STK_ALIGN + size <= n
       end.
Proof.
  intros Hs. destruct stk_facts as (k & Hk & Ek & Hpos). unfold mm_malloca_on_heap. set (n := u64 (size + 2 * MM_STK_ALIGN)).
  assert (Hp : 16 <= 2 ^ k <= 2 ^ 21) by (split; [change 16 with (2 ^ 4)|]; apply Z.pow_le_mono_r; lia).
  destruct (Z.ltb_spec n size) as [H|H].
  { eexists None, _. split; [reflexivity|]. destruct (raise_law (heap := heap) (frame := frame) ENOMEM (cs "size is too big") s) as [H1 H2]. by split. }
  assert (Hn : n = size + 2 * MM_STK_ALIGN).
  { unfold n in *. apply wrap_u_small. unfold in_u, wrap_u in *. destruct (Z.lt_ge_cases (size + 2 * MM_STK_ALIGN) (2 ^ 64)) as [?|Hge]; [lia|].
    exfalso. replace (size + 2 * MM_STK_ALIGN) with (size + 2 * MM_STK_ALIGN - 2 ^ 64 + 1 * 2 ^ 64) in H by lia.
    rewrite Z.mod_add, Z.mod_small in H by lia. lia. }
  destruct (internal_alloc_ok (2 * MM_STK_ALIGN) n s) as (r & s1 & E & Hf & Hl). rewrite (st_bind_Some _ _ _ _ _ E). destruct r as [p|].
  - exists (Some (p + MM_STK_ALIGN)), s1. split; [done|]. split; [done|]. destruct Hl as (Hp0 & Hdiv & _ & Hfree & Hheap). exists n.
    replace (p + MM_STK_ALIGN - MM_STK_ALIGN) with p by lia. split_and!; [done|done| |lia].
    apply Z.mod_divide in Hdiv; [|lia]. rewrite <- Zplus_mod_idemp_l, Hdiv, Z.add_0_l. apply Z.mod_small. lia.
  - eexists None, _. split; [reflexivity|]. destruct (raise_errno_law (heap := heap) (frame := frame) (cs "malloca_on_heap failed") s1) as [H1 H2]. split; congruence.
Qed.

(** C19. The block that [mm_malloca] gives is aligned for any data and lies in the frame or in a block of the heap, and [mm_freea] knows
    from the address which of the two it is: the heap is then as it was before.  Small blocks do not fail and do not use the heap; a size that is too large to be rounded
    up, or a heap that is exhausted, gives no block, and nothing is kept of the attempt. *)
Theorem malloca_freea size s :
  0 <= size < 2 ^ 64 ->
  exists r s1, mm_malloca size s = Some (r, s1)
    /\ (size <= MM_STACK_ALLOC_THRESHOLD -> r <> None /\ heap s1 = heap s)
    /\ match r with
       | None => heap s1 = heap s
       | Some p => (MM_STK_ALIGN | p) /\ (in_block (frame s1) p size \/ in_block (heap s1) p size)
                   /\ exists s2, mm_freea p s1 = Some (tt, s2) /\ heap s2 = heap s
       end.
Proof.
  intros Hs. destruct stk_facts as (k & Hk & Ek & Hpos). unfold mm_malloca, mm_freea. destruct (Z.ltb_spec MM_STACK_ALLOC_THRESHOLD size) as [H|H].
  - destruct (heap_alloc_ok size s Hs) as (r & s1 & E & Hf & Hl). exists r, s1. split; [done|]. split; [lia|]. destruct r as [p|]; [|done].
    destruct Hl as (n & Hfree & Hheap & Hpar & Hn). split; [|split].
    + apply Z.mod_divide; [lia|]. rewrite (Z.div_mod p (2 * MM_STK_ALIGN)), Hpar by lia.
      replace (2 * MM_STK_ALIGN * (p / (2 * MM_STK_ALIGN)) + MM_STK_ALIGN) with ((2 * (p / (2 * MM_STK_ALIGN)) + 1) * MM_STK_ALIGN) by ring. apply Z.mod_mul. lia.
    + right. exists (p - MM_STK_ALIGN), n. rewrite Hheap, lookup_insert_eq. split; [done|]. lia.
    + rewrite Ek, parity, <- Ek, Hpar by lia. destruct (Z.eqb_spec MM_STK_ALIGN 0) as [E0|_]; [lia|]. unfold mm_freea_on_heap.
      destruct (aligned_free_ok (p - MM_STK_ALIGN) s1 n) as (s2 & E2 & H2 & _); [rewrite Hheap; apply lookup_insert_eq|].
      exists s2. split; [done|]. rewrite H2, Hheap. by apply delete_insert_id.
  - destruct (stack_alloc_ok size s) as (p & s1 & E & Hh & Hpar & Hin); [lia|]. exists (Some p), s1. split; [done|]. split; [done|]. split; [|split; [by left|]].
    + apply Z.mod_divide in Hpar; [|lia]. etrans; [|exact Hpar]. apply Z.divide_factor_r.
    + rewrite Ek, parity, <- Ek, Hpar by lia. by exists s1.
Qed.

End Theorems.

(** ** A machine *)

Module AllocDemo.

(** Blocks of the heap and of the frame, and the memory that the heap has. *)
Record machine := mk_machine { m_heap : gmap Z Z; m_frame : gmap Z Z; m_errors : list Z }.

Definition in_heap (f : gmap Z Z -> gmap Z Z) (s : machine) : machine := mk_machine (f (m_heap s)) (m_frame s) (m_errors s).
Definition add_error (e : Z) (s : machine) : machine := mk_machine (m_heap s) (m_frame s) (e :: m_errors s).

(** The block is at the first multiple of the alignment after those that there are. *)
Definition last_address (m : gmap Z Z) : Z := foldr Z.max 0 (map_to_list m).*1.
Definition memalign (al size : Z) (s : machine) : option Z * machine :=
  let p := (last_address (m_heap s) / al + 1) * al in
  if bool_decide (0 < al /\ 0 <= size /\ p + size < 2 ^ 64) then (Some p, in_heap <[p := size]> s) else (None, s).

#[global] Instance machine_os : AllocOs machine := {|
  primitive := POSIX_MEMALIGN;
  MM_STK_ALIGN := 16;
  posix_memalign al sz s := let '(r, s') := memalign al sz s in (match r with Some p => inr p | None => inl ENOMEM end, s');
  aligned_alloc := memalign;
  aligned_malloc sz al := memalign al sz;
  libc_free p s := if bool_decide (is_Some (m_heap s !! p)) then Some (in_heap (delete p) s) else None;
  aligned_free p s := if bool_decide (is_Some (m_heap s !! p)) then Some (in_heap (delete p) s) else None;
  alloca sz s := (1000, mk_machine (m_heap s) (<[1000 := sz]> (m_frame s)) (m_errors s));
  set_errno := add_error;
  raise_error e _ := add_error e;
  raise_from_errno _ := add_error 0
|}.

Lemma last_address_fresh m p : last_address m < p -> m !! p = None.
Proof.
  intros H. apply eq_None_not_Some. intros [n Hn]. enough (p <= last_address m) by lia. unfold last_address.
  assert (Hin : p ∈ (map_to_list m).*1) by (apply list_elem_of_fmap; exists (p, n); split; [done|by apply elem_of_map_to_list]).
  clear Hn H. induction (map_to_list m).*1 as [|q l IH]; [by apply elem_of_nil in Hin|]. cbn. apply elem_of_cons in Hin as [->|Hin]; [lia|].
  specialize (IH Hin). lia.
Qed.

Lemma memalign_ok al sz s r s' : memalign al sz s = (r, s') -> alloc_law m_heap m_frame al sz s r s'.
Proof.
  unfold memalign. case_bool_decide as H; intros [= <- <-]; [|done]. split; [done|]. destruct H as (Ha & Hs & Hp).
  set (l := last_address (m_heap s)) in *. assert (Hl : l < (l / al + 1) * al) by (pose proof (Z.mod_pos_bound l al Ha); pose proof (Z.div_mod l al ltac:(lia)); lia).
  assert (H0 : 0 <= l) by (unfold l, last_address; clear; induction (map_to_list (m_heap s)).*1; cbn; lia).
  split_and!; [lia|by exists (l / al + 1)|done|by apply last_address_fresh|done].
Qed.

#[global] Instance machine_laws : AllocLaws m_heap m_frame.
Proof.
  split.
  - exists 4. split; [lia|reflexivity].
  - intros al sz s r s' E. unfold posix_memalign, machine_os in E. destruct (memalign al sz s) as [[p|] s1] eqn:Em; injection E as <- <-; by apply memalign_ok.
  - intros al sz s r s'. apply memalign_ok.
  - intros al sz s r s'. apply memalign_ok.
  - intros p s n _ H. exists (in_heap (delete p) s). cbn. rewrite bool_decide_eq_true_2 by eauto. done.
  - intros p s n _ H. exists (in_heap (delete p) s). cbn. rewrite bool_decide_eq_true_2 by eauto. done.
  - intros sz s H. cbn. split_and!; try done. lia.
  - done.
  - done.
  - done.
Qed.

(** A block of 3000 bytes is on the heap, one of 100 bytes in the frame. *)
Example large_and_small :
  exists s1 s2, mm_malloca 3000 (mk_machine ∅ ∅ []) = Some (Some 48, s1) /\ mm_malloca 100 s1 = Some (Some 1024, s2)
    /\ m_heap s2 = {[ 32 := 3032 ]} /\ m_frame s2 = {[ 1000 := 131 ]}.
Proof. eexists _, _. split; [vm_compute; reflexivity|]. by vm_compute. Qed.

(** A size that is negative in the type of the caller is small for the macro, and asks [alloca] for almost all the memory. *)
Example negative_size : exists s1, mm_malloca (-1000) (mk_machine ∅ ∅ []) = Some (Some 1024, s1) /\ m_frame s1 = {[ 1000 := 2 ^ 64 - 969 ]}.
Proof. eexists. split; [vm_compute; reflexivity|]. by vm_compute. Qed.
End AllocDemo.

Import AllocDemo.

Lemma malloca_freea_witness :
  exists p s1 s2, mm_malloca 3000 (mk_machine ∅ ∅ []) = Some (Some p, s1) /\ mm_freea p s1 = Some (tt, s2) /\ m_heap s2 = ∅.
Proof.
  destruct (malloca_freea m_heap m_frame 3000 (mk_machine ∅ ∅ [])) as (r & s1 & E & _ & H); [lia|].
  assert (Er : r = Some 48) by (vm_compute in E; by injection E as <- _).
  subst r. destruct H as (_ & _ & s2 & E2 & H2). exists 48, s1, s2. split; [exact E|]. split; [exact E2|exact H2].
Defined.
