(* ===== verification/ShmPosix.v ===== *)
(** * Shared memory on POSIX

    [shm-posix.c]: the list of the mappings, protected by a mutex, the mapping of files and the objects of shared memory.  The system is the class [ShmOs];
    its mappings, that the list has to follow, appear in the laws [ShmLaws].  [None] of the monad is undefined behaviour. *)

From S2P Require Import Prelude CStr Effects ScanInt FilePosix.

Definition MIN_NUM_ENTRIES : Z := 64.

Record map_entry := mk_entry { ptr : Z; len : Z }.

(** [stale] says that [entries] is the address of an array that is freed. *)
Record mapping_list := mk_list { entries : list map_entry; num_max_entries : Z; stale : bool }.

Definition num_entries (l : mapping_list) : Z := Z.of_nat (length (entries l)).

Inductive shm_error := SHM_ERRNO | SHM_EFAULT.

Class ShmOs (OS : Type) := {
  mmap : Z -> Z -> Z -> Z -> Z -> OS -> option Z * OS;             (* length, protection, flags, descriptor, offset *)
  munmap : Z -> Z -> OS -> bool * OS;
  realloc_array : Z -> OS -> bool * OS;                             (* number of entries *)
  shm_open : cstr -> Z -> Z -> OS -> option Z * OS;
  shm_unlink : cstr -> OS -> bool * OS;
  getpid : OS -> Z;
  raise_shm : shm_error -> OS -> OS
}.

Definition MM_MAP_READ : Z := 0x1.
Definition MM_MAP_WRITE : Z := 0x2.
Definition MM_MAP_EXEC : Z := 0x4.
Definition MM_MAP_SHARED : Z := 0x8.

Definition PROT_NONE : Z := 0.
Definition PROT_READ : Z := 1.
Definition PROT_WRITE : Z := 2.
Definition PROT_EXEC : Z := 4.
Definition MAP_SHARED : Z := 1.
Definition MAP_PRIVATE : Z := 2.

Definition has_mflag (mflags f : Z) : bool := negb (Z.land mflags f =? 0).

Definition get_mmap_prot (mflags : Z) : Z :=
  let prot := PROT_NONE in
  let prot := if has_mflag mflags MM_MAP_READ then Z.lor prot PROT_READ else prot in
  let prot := if has_mflag mflags MM_MAP_WRITE then Z.lor prot PROT_WRITE else prot in
  if has_mflag mflags MM_MAP_EXEC then Z.lor prot PROT_EXEC else prot.

Definition get_mmap_flags (mflags : Z) : Z := if has_mflag mflags MM_MAP_SHARED then MAP_SHARED else MAP_PRIVATE.

(** The first entry with this address. *)
Fixpoint find_entry (p : Z) (l : list map_entry) : option nat :=
  match l with
  | [] => None
  | e :: l => if p =? ptr e then Some 0%nat else S <$> find_entry p l
  end.

Section Shm.

Context {OS : Type} `{!ShmOs OS}.

Record shm_world := mk_shm { shm_os : OS; file_mapping_list : mapping_list }.

Abbreviation M := (ST shm_world).

Definition sysm {A} (f : OS -> A * OS) : M A := st_zoom shm_os (fun os w => mk_shm os (file_mapping_list w)) f.
Definition raisem (e : shm_error) : M Z := sysm (fun os => (tt, raise_shm e os));; mret (-1).
Definition set_list (l : mapping_list) : M unit := st_modify (fun w => mk_shm (shm_os w) l).

(** ** The list of the mappings *)

(** The array is freed and the numbers are 0, the address is not. *)
Definition mapping_list_cleanup : M unit := set_list (mk_list [] 0 true).

Definition mapping_list_add_entry (p n : Z) : M Z :=
  l ← st_gets file_mapping_list;
  if num_max_entries l <=? num_entries l then
    let num_max := if num_max_entries l <? MIN_NUM_ENTRIES then MIN_NUM_ENTRIES else num_max_entries l * 2 in
    if stale l || (INT_MAX <? num_max) then st_ub
    else
      ok ← sysm (realloc_array num_max);
      if negb ok then raisem SHM_ERRNO
      else set_list (mk_list (entries l ++ [mk_entry p n]) num_max false);; mret 0
  else set_list (mk_list (entries l ++ [mk_entry p n]) (num_max_entries l) (stale l));; mret 0.

(** The size is converted to a signed one. *)
Definition mapping_list_remove_entry (p : Z) : M Z :=
  l ← st_gets file_mapping_list;
  match find_entry p (entries l) with
  | None => raisem SHM_EFAULT
  | Some i =>
      e ← st_option (entries l !! i);
      set_list (mk_list (take i (entries l) ++ drop (S i) (entries l)) (num_max_entries l) (stale l));; mret (s64 (len e))
  end.

Definition mapblock_add (p n : Z) : M Z := mapping_list_add_entry p n.
Definition mapblock_remove (p : Z) : M Z := mapping_list_remove_entry p.

(** ** Mappings *)

(** The address, [None] if it fails. *)
Definition mm_mapfile (fd offset n mflags : Z) : M (option Z) :=
  addr ← sysm (mmap n (get_mmap_prot mflags) (get_mmap_flags mflags) fd offset);
  match addr with
  | None => _ ← raisem SHM_ERRNO; mret None
  | Some addr =>
      r ← mapblock_add addr n;
      if r =? 0 then mret (Some addr) else _ ← sysm (munmap addr n); mret None
  end.

Definition mm_unmap (addr : Z) : M Z :=
  if addr =? 0 then mret 0
  else
    n ← mapblock_remove addr;
    if n <? 0 then mret (-1)
    else
      ok ← sysm (munmap addr n);
      if negb ok then raisem SHM_ERRNO else mret 0.

(** ** Objects of shared memory *)

Definition O_RDWR : Z := 2.
Definition O_CREAT : Z := 0x40.
Definition O_EXCL : Z := 0x80.

Definition anon_shm_name (pid : Z) : cstr := cs "/mmlib-shm-" ++ printf_int pid.

(** The name must fit in 32 bytes. *)
Definition mm_anon_shm : M Z :=
  pid ← st_gets (fun w => getpid (shm_os w));
  let name := anon_shm_name pid in
  if (31 <? length name)%nat then st_ub
  else
    fd ← sysm (shm_open name (Z.lor O_RDWR (Z.lor O_CREAT O_EXCL)) 0);
    match fd with
    | Some fd => _ ← sysm (shm_unlink name); mret fd
    | None => raisem SHM_ERRNO
    end.

Definition mm_shm_open (name : cstr) (oflag mode : Z) : M Z :=
  fd ← sysm (shm_open name oflag (filter_mode_flags mode));
  match fd with Some fd => mret fd | None => raisem SHM_ERRNO end.

Definition mm_shm_unlink (name : cstr) : M Z :=
  ok ← sysm (shm_unlink name);
  if ok : bool then mret 0 else raisem SHM_ERRNO.

End Shm.

Arguments shm_world : clear implicits.

(** ** The list follows the mappings *)

Class ShmLaws (OS : Type) `{!ShmOs OS} (maps : OS -> gmap Z Z) : Prop := {
  mmap_law n prot flags fd off os :
    match mmap n prot flags fd off os with
    | (Some p, os') => 0 < p /\ 0 < n < 2 ^ 63 /\ maps os !! p = None /\ maps os' = <[p := n]> (maps os)
    | (None, os') => maps os' = maps os
    end;
  munmap_law p n os : maps os !! p = Some n -> exists os', munmap p n os = (true, os') /\ maps os' = delete p (maps os);
  realloc_law n os : maps (snd (realloc_array n os)) = maps os;
  raise_law e os : maps (raise_shm e os) = maps os
}.

Section Tracks.

Context {OS : Type} `{!ShmOs OS} (maps : OS -> gmap Z Z) `{!ShmLaws OS maps}.

(** The mappings of the system are the entries of the list. *)
Record tracks (w : shm_world OS) : Prop := {
  tr_distinct : NoDup (ptr <$> entries (file_mapping_list w));
  tr_maps : forall p n, mk_entry p n ∈ entries (file_mapping_list w) <-> maps (shm_os w) !! p = Some n;
  tr_sizes : forall p n, maps (shm_os w) !! p = Some n -> 0 < p /\ 0 < n < 2 ^ 63;
  tr_live : stale (file_mapping_list w) = false
}.

Lemma find_entry_some p l i : find_entry p l = Some i -> exists n, l !! i = Some (mk_entry p n).
Proof.
  revert i. induction l as [|[q n] l IH]; intros i; [done|]. cbn. destruct (Z.eqb_spec p q) as [->|Hne]; [intros [= <-]; by exists n|].
  destruct (find_entry p l) as [j|]; [|done]. intros [= <-]. exact (IH j eq_refl).
Qed.

Lemma find_entry_none p l n : find_entry p l = None -> mk_entry p n ∉ l.
Proof.
  induction l as [|[q m] l IH]; [intros _ H; by apply elem_of_nil in H|]. cbn. destruct (Z.eqb_spec p q) as [->|Hne]; [done|].
  destruct (find_entry p l); [done|]. intros _ [[= -> ->]|H]%elem_of_cons; [done|by apply IH].
Qed.

Lemma sysm_bind {A B} (f : OS -> A * OS) (k : A -> ST (shm_world OS) B) w :
  (sysm f ≫= k) w = k (fst (f (shm_os w))) (mk_shm (snd (f (shm_os w))) (file_mapping_list w)).
Proof. unfold mbind, st_bind, sysm, st_zoom. by destruct (f (shm_os w)). Qed.

Lemma raisem_ok e w : exists w', raisem e w = Some (-1, w') /\ maps (shm_os w') = maps (shm_os w) /\ file_mapping_list w' = file_mapping_list w.
Proof. eexists. split; [reflexivity|]. cbn. split; [apply raise_law|done]. Qed.

Lemma tracks_same w w' : maps (shm_os w') = maps (shm_os w) -> file_mapping_list w' = file_mapping_list w -> tracks w -> tracks w'.
Proof. intros E1 E2 [H1 H2 H3 H4]. split; rewrite ?E1, ?E2; done. Qed.

(** A new mapping at the end of the list. *)
Lemma tracks_add w w' p n num :
  tracks w -> 0 < p -> 0 < n < 2 ^ 63 -> maps (shm_os w) !! p = None -> maps (shm_os w') = <[p := n]> (maps (shm_os w)) ->
  file_mapping_list w' = mk_list (entries (file_mapping_list w) ++ [mk_entry p n]) num false -> tracks w'.
Proof.
  intros [H1 H2 H3 H4] Hp Hn Hnew Hm Hl. split; rewrite ?Hl; cbn [entries stale]; [|..|done].
  - rewrite fmap_app. apply NoDup_app. split; [done|]. split; [|by apply NoDup_singleton].
    intros q Hq Hq'. apply list_elem_of_singleton in Hq'. apply list_elem_of_fmap in Hq as ([q' m] & Eq & Hq). apply H2 in Hq. cbn in Eq, Hq'. congruence.
  - intros q m. rewrite elem_of_app, list_elem_of_singleton, H2, Hm, lookup_insert_Some. split.
    + intros [H|[= -> ->]]; [right; split; [congruence|done]|by left].
    + intros [[-> ->]|[_ H]]; [by right|by left].
  - intros q m. rewrite Hm, lookup_insert_Some. intros [[<- <-]|[_ H]]; [done|by eapply H3].
Qed.

Lemma tracks_remove w w' p n i num :
  tracks w -> entries (file_mapping_list w) !! i = Some (mk_entry p n) -> maps (shm_os w') = delete p (maps (shm_os w)) ->
  file_mapping_list w' = mk_list (take i (entries (file_mapping_list w)) ++ drop (S i) (entries (file_mapping_list w))) num false -> tracks w'.
Proof.
  intros [H1 H2 H3 H4] Hi Hm Hl. set (l := entries (file_mapping_list w)) in *.
  assert (El : l = take i l ++ mk_entry p n :: drop (S i) l) by (symmetry; by apply take_drop_middle).
  rewrite El, fmap_app, fmap_cons in H1. apply NoDup_app in H1 as (N1 & N2 & N3). apply NoDup_cons in N3 as [N3 N4]. cbn [ptr] in *.
  split; rewrite ?Hl; cbn [entries stale]; [|..|done].
  - rewrite fmap_app. apply NoDup_app. split; [done|]. split; [|done]. intros q Hq Hq'. apply (N2 q Hq). by right.
  - intros q m. rewrite Hm, lookup_delete_Some, <- H2. fold l. rewrite El at 3. rewrite !elem_of_app, elem_of_cons. split.
    + intros Hq. split; [|by destruct Hq; auto]. intros <-. destruct Hq as [Hq|Hq]; apply (list_elem_of_fmap_2 ptr) in Hq; [by apply (N2 _ Hq); left|done].
    + intros [Hne [Hq|[[= -> ->]|Hq]]]; [by left|done|by right].
  - intros q m. rewrite Hm, lookup_delete_Some. intros [_ H]. by eapply H3.
Qed.

Lemma mapfile_tracks w fd offset n mflags :
  tracks w -> num_max_entries (file_mapping_list w) <= 2 ^ 29 ->
  exists r w', mm_mapfile fd offset n mflags w = Some (r, w') /\ tracks w'
    /\ match r with
       | Some p => maps (shm_os w) !! p = None /\ maps (shm_os w') = <[p := n]> (maps (shm_os w))
       | None => maps (shm_os w') = maps (shm_os w)
       end.
Proof.
  intros Ht Hmax. unfold mm_mapfile. rewrite sysm_bind.
  pose proof (mmap_law n (get_mmap_prot mflags) (get_mmap_flags mflags) fd offset (shm_os w)) as Hl. destruct (mmap _ _ _ _ _ _) as [[p|] os1]; cbn [fst snd].
  - destruct Hl as (Hp & Hn & Hnew & Hm). unfold mapblock_add, mapping_list_add_entry. rewrite st_bind_assoc.
    unfold mbind at 1, st_bind at 1, st_gets at 1. cbn [file_mapping_list]. set (l := file_mapping_list w) in *.
    assert (Hst : stale l = false) by apply Ht.
    destruct (num_max_entries l <=? num_entries l).
    + rewrite Hst. cbn [orb]. set (num := if num_max_entries l <? MIN_NUM_ENTRIES then _ else _).
      assert (Hnum : num <= INT_MAX) by (unfold num, MIN_NUM_ENTRIES, INT_MAX in *; destruct (_ <? _); lia).
      destruct (Z.ltb_spec INT_MAX num) as [H|_]; [lia|]. rewrite st_bind_assoc, sysm_bind. cbn [shm_os file_mapping_list].
      pose proof (realloc_law num os1) as Hr. destruct (realloc_array num os1) as [[] os2]; cbn [fst snd negb] in *.
      * eexists (Some p), _. split; [reflexivity|]. split; [|split; [done|cbn; congruence]]. apply (tracks_add w _ p n num); try done. cbn. congruence.
      * destruct (raisem_ok SHM_ERRNO (mk_shm os2 l)) as (w3 & E3 & M3 & L3). rewrite (st_bind_Some _ _ _ _ _ E3). cbn [Z.eqb]. rewrite sysm_bind.
         cbn [shm_os] in M3. destruct (munmap_law p n (shm_os w3)) as (os4 & E4 & M4); [rewrite M3, Hr, Hm; apply lookup_insert_eq|]. rewrite E4.
         eexists None, _. split; [reflexivity|]. cbn [snd shm_os]. assert (E : maps os4 = maps (shm_os w)) by (rewrite M4, M3, Hr, Hm; by apply delete_insert_id).
         split; [by apply (tracks_same w)|done].
    + eexists (Some p), _. split; [reflexivity|]. split; [|done]. rewrite Hst. by apply (tracks_add w _ p n (num_max_entries l)).
  - destruct (raisem_ok SHM_ERRNO (mk_shm os1 (file_mapping_list w))) as (w3 & E3 & M3 & L3). rewrite (st_bind_Some _ _ _ _ _ E3).
    exists None, w3. split; [done|]. cbn in M3, L3. split; [apply (tracks_same w); congruence|congruence].
Qed.

Lemma unmap_tracks w p :
  tracks w ->
  exists r w', mm_unmap p w = Some (r, w') /\ tracks w' /\ maps (shm_os w') = delete p (maps (shm_os w))
    /\ r = if decide (p = 0 \/ is_Some (maps (shm_os w) !! p)) then 0 else -1.
Proof.
  intros Ht. unfold mm_unmap. destruct (Z.eqb_spec p 0) as [->|Hp].
  { exists 0, w. split; [done|]. split; [done|]. rewrite decide_True by by left. split; [|done]. rewrite delete_id; [done|].
    apply eq_None_not_Some. intros [n Hn]. apply (tr_sizes _ Ht) in Hn. lia. }
  unfold mapblock_remove, mapping_list_remove_entry. rewrite st_bind_assoc. unfold mbind at 1, st_bind at 1, st_gets at 1.
  destruct (find_entry p (entries (file_mapping_list w))) as [i|] eqn:Ef.
  - destruct (find_entry_some _ _ _ Ef) as [n Hi]. assert (Hm : maps (shm_os w) !! p = Some n) by (apply (tr_maps _ Ht), list_elem_of_lookup; eauto).
    rewrite decide_True by (right; eauto). rewrite st_bind_assoc. unfold mbind at 1, st_bind at 1, st_option at 1. rewrite Hi. cbn [mbind option_bind].
    destruct (tr_sizes _ Ht p n Hm) as [_ Hn]. rewrite st_bind_assoc. unfold mbind at 1, st_bind at 1, set_list at 1, st_modify at 1. cbn [len].
    rewrite (wrap_s_small 64) by (done || (unfold in_s; lia)). unfold mbind at 1, st_bind at 1, mret, st_ret. destruct (Z.ltb_spec n 0); [lia|].
    rewrite sysm_bind. cbn [shm_os]. destruct (munmap_law p n (shm_os w) Hm) as (os2 & -> & M2). cbn [fst snd negb].
    eexists 0, _. split; [reflexivity|]. split; [|split; [exact M2|done]].
    apply (tracks_remove w _ p n i (num_max_entries (file_mapping_list w))); [done|done|exact M2|]. cbn. by rewrite (tr_live _ Ht).
  - assert (Hm : maps (shm_os w) !! p = None).
    { apply eq_None_not_Some. intros [n Hn]. apply (tr_maps _ Ht) in Hn. by apply (find_entry_none _ _ n Ef). }
    rewrite decide_False by (rewrite Hm; intros [?|[? ?]]; done). destruct (raisem_ok SHM_EFAULT w) as (w3 & E3 & M3 & L3).
    rewrite (st_bind_Some _ _ _ _ _ E3). exists (-1), w3. split; [done|]. split; [by apply (tracks_same w)|]. split; [|done]. rewrite M3. by rewrite delete_id.
Qed.

(** C34. The list is the set of the mappings of the system that [mm_mapfile] has made, with their sizes: a success adds one, at the address returned,
    and a failure none, even when the list cannot grow; [mm_unmap] of the address of one removes exactly it, of a null address does nothing, and of any other
    address fails with an error and changes nothing. *)
Theorem mappings_tracked w :
  tracks w -> num_max_entries (file_mapping_list w) <= 2 ^ 29 ->
  (forall fd offset n mflags, exists r w', mm_mapfile fd offset n mflags w = Some (r, w') /\ tracks w'
     /\ match r with
        | Some p => maps (shm_os w) !! p = None /\ maps (shm_os w') = <[p := n]> (maps (shm_os w))
        | None => maps (shm_os w') = maps (shm_os w)
        end)
  /\ (forall p, exists r w', mm_unmap p w = Some (r, w') /\ tracks w' /\ maps (shm_os w') = delete p (maps (shm_os w))
        /\ r = if decide (p = 0 \/ is_Some (maps (shm_os w) !! p)) then 0 else -1).
Proof.
  intros Ht Hmax. split; [intros; by apply mapfile_tracks|intros; by apply unmap_tracks].
Qed.

End Tracks.

(** ** A system *)

Module ShmDemo.

Record system := mk_system { s_maps : gmap Z Z; s_names : list cstr; s_errors : list shm_error; s_realloc : bool }.

(** A mapping is a page after those that there are. *)
Definition after_maps (m : gmap Z Z) : Z := 4096 + foldr Z.max 0 (map_to_list m).*1.

#[global] Instance system_os : ShmOs system := {|
  mmap n _ _ _ _ s :=
    if bool_decide (0 < n < 2 ^ 63) then (Some (after_maps (s_maps s)), mk_system (<[after_maps (s_maps s) := n]> (s_maps s)) (s_names s) (s_errors s) (s_realloc s))
    else (None, s);
  munmap p n s := (bool_decide (s_maps s !! p = Some n), mk_system (delete p (s_maps s)) (s_names s) (s_errors s) (s_realloc s));
  realloc_array _ s := (s_realloc s, s);
  shm_open name _ _ s := if bool_decide (name ∈ s_names s) then (None, s) else (Some 3, mk_system (s_maps s) (name :: s_names s) (s_errors s) (s_realloc s));
  shm_unlink name s := (bool_decide (name ∈ s_names s), mk_system (s_maps s) (filter (fun x => x <> name) (s_names s)) (s_errors s) (s_realloc s));
  getpid s := 1234;
  raise_shm e s := mk_system (s_maps s) (s_names s) (e :: s_errors s) (s_realloc s)
|}.

Lemma after_maps_new m : 0 < after_maps m /\ m !! after_maps m = None.
Proof.
  assert (H : forall p n, m !! p = Some n -> p < after_maps m).
  { intros p n Hn. assert (Hin : p ∈ (map_to_list m).*1) by (apply list_elem_of_fmap; exists (p, n); split; [done|by apply elem_of_map_to_list]).
    unfold after_maps. clear Hn. induction (map_to_list m).*1 as [|q l IH]; [by apply elem_of_nil in Hin|]. cbn. apply elem_of_cons in Hin as [->|Hin]; [lia|].
    specialize (IH Hin). lia. }
  split; [unfold after_maps; clear; induction (map_to_list m).*1; cbn in *; lia|]. apply eq_None_not_Some. intros [n Hn]. apply H in Hn. lia.
Qed.

#[global] Instance system_laws : ShmLaws system s_maps.
Proof.
  split.
  - intros n prot flags fd off s. cbn. case_bool_decide as H; [|done]. destruct (after_maps_new (s_maps s)). destruct H. split_and!; done.
  - intros p n s H. cbn. rewrite H, bool_decide_eq_true_2 by done. by eexists.
  - done.
  - done.
Qed.

Definition world0 : shm_world system := mk_shm (mk_system ∅ [] [] true) (mk_list [] 0 false).

Lemma world0_tracks : tracks s_maps world0.
Proof.
  split; cbn.
  - constructor.
  - intros p n. rewrite lookup_empty. split; [intros H; by apply elem_of_nil in H|done].
  - intros p n H. by rewrite lookup_empty in H.
  - done.
Qed.

(** After the destructor of the library, the list has the address of its freed array, which the next mapping resizes. *)
Example map_after_cleanup :
  exists w1 w2, mm_mapfile 3 0 4096 MM_MAP_READ world0 = Some (Some 4096, w1) /\ mapping_list_cleanup w1 = Some (tt, w2)
    /\ mm_mapfile 3 0 4096 MM_MAP_READ w2 = None.
Proof. eexists _, _. split; [vm_compute; reflexivity|]. split; [reflexivity|vm_compute; reflexivity]. Qed.

(** A process that ended between the creation and the removal leaves the name, and another with its identifier cannot create objects. *)
Example leftover_name :
  exists w, mm_anon_shm (mk_shm (mk_system ∅ [cs "/mmlib-shm-1234"] [] true) (mk_list [] 0 false)) = Some (-1, w).
Proof. eexists. vm_compute. reflexivity. Qed.
End ShmDemo.

Import ShmDemo.

Lemma mappings_tracked_witness :
  exists p w1 w2, mm_mapfile 3 0 8192 MM_MAP_READ world0 = Some (Some p, w1) /\ tracks s_maps w1 /\ mm_unmap 99 w1 = Some (-1, w2) /\ s_maps (shm_os w2) = {[ p := 8192 ]}.
Proof.
  destruct (mappings_tracked s_maps world0 world0_tracks) as [H _]; [cbn; lia|].
  destruct (H 3 0 8192 MM_MAP_READ) as (r & w1 & E & Ht & _).
  assert (Er : r = Some 4096) by (vm_compute in E; by injection E as <- _). subst r.
  assert (Ew : num_max_entries (file_mapping_list w1) = 64 /\ s_maps (shm_os w1) = {[ 4096 := 8192 ]}) by (vm_compute in E; injection E as <-; done).
  destruct Ew as [En Em]. destruct (mappings_tracked s_maps w1 Ht) as [_ H2]; [rewrite En; lia|].
  destruct (H2 99) as (r & w2 & E2 & _ & M2 & R2). exists 4096, w1, w2. split; [exact E|]. split; [exact Ht|].
  rewrite Em in M2, R2. split; [rewrite E2, R2; reflexivity|rewrite M2; reflexivity].
Defined.
