(* ===== verification/ShmWin32.v ===== *)
(** * Shared memory on Windows

    [shm-win32.c]: the protection of the mappings, the mapping of files, and the objects of shared memory, which are files of a directory.  The calls of
    Windows that the files do not use are the class [W32Shm]; descriptors, status and files are those of [FdTable], [FdWin32], [FileWin32] and [VolumeWin32]. *)

From S2P Require Import Prelude CStr TextMode Effects Errcode AccessWin32 FdTable IpcWin32 FdWin32 FilePosix VolumeWin32 FileWin32 ShmPosix ScanInt Utils.

Definition PAGE_READONLY : Z := 0x02.
Definition PAGE_READWRITE : Z := 0x04.
Definition PAGE_EXECUTE_READ : Z := 0x20.
Definition PAGE_EXECUTE_READWRITE : Z := 0x40.
Definition FILE_MAP_COPY : Z := 0x0001.
Definition FILE_MAP_READ : Z := 0x0004.
Definition FILE_MAP_EXECUTE : Z := 0x0020.
Definition FILE_MAP_ALL_ACCESS : Z := 0x000F001F.

(** Protection of the mapping, and access of the view. *)
Definition get_win32_page_protect (mflags : Z) : Z * Z :=
  let '(protect, access) := (0, 0) in
  let '(protect, access) := if has_mflag mflags MM_MAP_READ then (PAGE_READONLY, FILE_MAP_READ) else (protect, access) in
  let '(protect, access) := if has_mflag mflags MM_MAP_WRITE then (PAGE_READWRITE, FILE_MAP_ALL_ACCESS) else (protect, access) in
  let access := if has_mflag mflags MM_MAP_SHARED then access else FILE_MAP_COPY in
  if has_mflag mflags MM_MAP_EXEC then (Z.shiftl protect 4, Z.lor access FILE_MAP_EXECUTE) else (protect, access).

Definition MAX_ATTEMPT : nat := 32.
Definition MAX_NAME : nat := 256.
Definition SHMROOT_PATH_MAXLEN : nat := 512.
Definition FILENAME_SIZE : nat := SHMROOT_PATH_MAXLEN + MAX_NAME + 8.

Class W32Shm (OS : Type) := {
  CreateFileMapping : Z -> Z -> OS -> (w32err + Z) * OS;           (* protection of the whole file *)
  MapViewOfFile : Z -> Z -> Z -> Z -> Z -> OS -> (w32err + Z) * OS; (* access, offset in two words, length *)
  UnmapViewOfFile : Z -> OS -> option w32err * OS;
  CreateFile_temp : cstr -> OS -> (w32err + Z) * OS;               (* always created, deleted when it is closed *)
  QueryPerformanceCounter_low : OS -> Z * OS;
  _mkdir : cstr -> OS -> OS;
  environment : OS -> environ
}.

Section Shm.

Context {OS : Type} `{!W32File OS, !W32Pipe OS, !W32Volume OS, !W32Meta OS, !W32Shm OS}.

Abbreviation M := (ST (file_world OS)).

(** ** Mappings *)

(** The status is asked for the error [ERROR_ACCESS_DENIED] only, and may change the last error. *)
Definition map_error (hfile n : Z) (e : w32err) (buf : stat) : M unit :=
  if bool_decide (e = ERROR_ACCESS_DENIED) then
    r ← get_stat_from_handle hfile buf;
    let overflow := match r with inl _ => false | inr s => (Z.land (st_mode s) S_IFMT =? S_IFREG) && (st_size s <? s64 n) end in
    _ ← (if overflow then raisew E_OVERFLOW else raise_last); mret tt
  else _ ← raisew_w32 e; mret tt.

Definition mm_mapfile (fd offset n mflags : Z) (buf : stat) : M (option Z) :=
  h ← lift (unwrap_handle_from_fd fd);
  match h with
  | None => mret None
  | Some hfile =>
      let '(protect, access) := get_win32_page_protect mflags in
      m ← callw (CreateFileMapping hfile protect);
      match m with
      | inl e => _ ← raisew_w32 e; mret None
      | inr hmap =>
          p ← callw (MapViewOfFile hmap access (wrap_u 32 (Z.shiftr offset 32)) (Z.land offset 0xffffffff) n);
          ptr ← match p with inr ptr => mret (Some ptr) | inl e => map_error hfile n e buf;; mret None end;
          runw (CloseHandle hmap);; mret ptr
      end
  end.

Definition mm_unmap (addr : Z) : M Z :=
  if addr =? 0 then mret 0
  else r ← callw (UnmapViewOfFile addr); match r with Some e => raisew_w32 e | None => mret 0 end.

(** ** Objects of shared memory *)

(** The static directory, empty at first: [snprintf] cuts it. *)
Definition get_shm_path (shm_root : cstr) : M cstr :=
  if bool_decide (shm_root = []) then
    env ← askw environment;
    let tmp_root := default [] (mm_getenv env (cs "TMP") (Some (cs "C:\WINDOWS\TEMP"))) in
    let shm_root := take (SHMROOT_PATH_MAXLEN - 1) (tmp_root ++ cs "/shm") in
    runw (_mkdir shm_root);; mret shm_root
  else mret shm_root.

(** [sprintf] in [filename]: a name that does not fit is written out of it. *)
Definition shm_filename (shm_root name : cstr) : M cstr :=
  let filename := shm_root ++ cs "/" ++ name in
  if (length filename <? FILENAME_SIZE)%nat then mret filename else st_ub.

(** The tries: the directory, and the handle or the last error. *)
Fixpoint anon_loop (n : nat) (shm_root : cstr) (last : w32err + Z) : M (cstr * (w32err + Z)) :=
  match n with
  | O => mret (shm_root, last)
  | S n =>
      randval ← callw QueryPerformanceCounter_low;
      shm_root ← get_shm_path shm_root;
      filename ← shm_filename shm_root (cs "mmlib-shm-" ++ printf_int (wrap_u 32 randval));
      h ← callw (CreateFile_temp filename);
      match h with inr _ => mret (shm_root, h) | inl e => anon_loop n shm_root (inl e) end
  end.

Definition mm_anon_shm (shm_root : cstr) : M (cstr * Z) :=
  '(shm_root, h) ← anon_loop MAX_ATTEMPT shm_root (inl ERROR_SUCCESS);
  match h with
  | inl e => r ← raisew_w32 e; mret (shm_root, r)
  | inr hnd =>
      fd ← lift (wrap_handle_into_fd hnd FD_TYPE_NORMAL);
      match fd with
      | Some fd => mret (shm_root, fd)
      | None => runw (CloseHandle hnd);; mret (shm_root, -1)
      end
  end.

Definition mm_shm_open (shm_root name : cstr) (oflag mode : Z) : M (cstr * Z) :=
  shm_root ← get_shm_path shm_root;
  filename ← shm_filename shm_root name;
  r ← lift (FdWin32.mm_open filename oflag mode);
  mret (shm_root, r).

Definition mm_shm_unlink (fuel : nat) (shm_root name : cstr) : M (cstr * Z) :=
  shm_root ← get_shm_path shm_root;
  filename ← shm_filename shm_root name;
  r ← VolumeWin32.mm_unlink fuel filename;
  mret (shm_root, r).

(** ** Properties *)

Lemma get_shm_path_length shm_root w :
  (length shm_root < SHMROOT_PATH_MAXLEN)%nat -> exists root w', get_shm_path shm_root w = Some (root, w') /\ (length root < SHMROOT_PATH_MAXLEN)%nat.
Proof.
  intros H. unfold get_shm_path. case_bool_decide; [|by eexists _, _]. eexists _, _. split; [reflexivity|].
  rewrite length_take. unfold SHMROOT_PATH_MAXLEN. lia.
Qed.

(** The names of up to 262 bytes fit, whatever the directory. *)
Lemma short_names_fit shm_root name w :
  (length shm_root < SHMROOT_PATH_MAXLEN)%nat -> (length name <= MAX_NAME + 6)%nat -> exists f, shm_filename shm_root name w = Some (f, w).
Proof.
  intros H Hn. unfold shm_filename. set (f := shm_root ++ cs "/" ++ name).
  assert (Hf : (length f < FILENAME_SIZE)%nat) by (unfold f, FILENAME_SIZE; rewrite !length_app; cbn; unfold SHMROOT_PATH_MAXLEN, MAX_NAME in *; lia).
  exists f. by rewrite (proj2 (Nat.ltb_lt _ _) Hf).
Qed.

(** The number of an anonymous object has at most ten digits. *)
Lemma digits_length fuel n : (length (digits fuel n) <= fuel)%nat.
Proof. revert n. induction fuel as [|fuel IH]; intros n; cbn; [lia|]. rewrite length_app. specialize (IH (n / 10)). destruct (n <? 10); cbn; lia. Qed.

Lemma callw_any {A B} (f : OS -> A * OS) (k : A -> M B) w : exists a w', (callw f ≫= k) w = k a w'.
Proof. unfold mbind, st_bind, callw, lift, call, st_zoom. destruct (f (fd_os (fw_fd w))) as [a os]. by eexists _, _. Qed.

(** The tries of [mm_anon_shm] end, in the buffer. *)
Lemma anon_loop_ok n shm_root last w :
  (length shm_root < SHMROOT_PATH_MAXLEN)%nat -> exists r w', anon_loop n shm_root last w = Some (r, w').
Proof.
  revert shm_root last w. induction n as [|n IH]; intros shm_root last w H; [by eexists _, _|]. cbn [anon_loop].
  match goal with |- context [(callw ?f ≫= ?k) w] => destruct (callw_any f k w) as (v & w1 & ->) end.
  destruct (get_shm_path_length shm_root w1 H) as (root & w2 & E & Hr). rewrite (st_bind_Some _ _ _ _ _ E).
  destruct (short_names_fit root (cs "mmlib-shm-" ++ printf_int (wrap_u 32 v)) w2 Hr) as (f & Ef).
  { rewrite length_app. unfold printf_int. pose proof (digits_length 10 (wrap_u 32 v)). change (length (cs "mmlib-shm-")) with 10%nat. unfold MAX_NAME. lia. }
  rewrite (st_bind_Some _ _ _ _ _ Ef).
  match goal with |- context [(callw ?f ≫= ?k) w2] => destruct (callw_any f k w2) as (h & w3 & ->) end.
  destruct h as [e|h]; [by apply IH|by eexists _, _].
Qed.

End Shm.

(** The protection is that of the flags, and the access of a private view is to its copy. *)
Example protections :
  get_win32_page_protect (Z.lor MM_MAP_READ MM_MAP_SHARED) = (PAGE_READONLY, FILE_MAP_READ)
  /\ get_win32_page_protect (lor_all [MM_MAP_READ; MM_MAP_WRITE; MM_MAP_SHARED]) = (PAGE_READWRITE, FILE_MAP_ALL_ACCESS)
  /\ get_win32_page_protect (lor_all [MM_MAP_READ; MM_MAP_WRITE]) = (PAGE_READWRITE, FILE_MAP_COPY)
  /\ get_win32_page_protect (lor_all [MM_MAP_READ; MM_MAP_EXEC; MM_MAP_SHARED]) = (PAGE_EXECUTE_READ, Z.lor FILE_MAP_READ FILE_MAP_EXECUTE).
Proof. by vm_compute. Qed.

(** A mapping to execute only has no protection, which is not valid. *)
Example exec_only_is_invalid : fst (get_win32_page_protect (Z.lor MM_MAP_EXEC MM_MAP_SHARED)) = 0.
Proof. by vm_compute. Qed.

(** With a directory of 511 bytes, a name of 264 bytes is written out of the buffer. *)
Example long_name_overflows {OS : Type} `{!W32File OS, !W32Volume OS} (w : file_world OS) :
  shm_filename (replicate 511 "a"%char) (replicate 264 "b"%char) w = None.
Proof. reflexivity. Qed.
