(* ===== verification/IpcPosix.v ===== *)
(** * Local interprocess communication on POSIX

    [local-ipc-posix.c]: servers and connections on abstract addresses, and messages that carry descriptors.  The sockets of the system are the class
    [IpcSockets]; the laws [IpcLaws] give what the kernel does with the descriptors of a process and the messages of a connection. *)

From S2P Require Import Prelude CStr Effects.

Definition SUN_PATH_LEN : nat := 108.
Definition BACKLOG_LENGTH : Z := 5.
Definition MSG_CTRUNC : Z := 0x08.
Definition MSG_TRUNC : Z := 0x20.

Inductive ipc_error := IPC_ERRNO | IPC_ENAMETOOLONG.

(** What a call of [recvmsg] gives: the data, the flags, and the descriptors of the control message if there is one. *)
Record received := mk_received { r_data : cstr; r_flags : Z; r_control : option (list Z) }.

Class IpcSockets (OS : Type) := {
  malloc_srv : OS -> bool * OS;
  socket_seqpacket : OS -> option Z * OS;
  bind : Z -> list ascii -> OS -> bool * OS;                       (* the whole array [sun_path] *)
  listen : Z -> Z -> OS -> bool * OS;
  accept : Z -> OS -> option Z * OS;
  connect : Z -> list ascii -> OS -> bool * OS;
  sendmsg : Z -> cstr -> option (list Z) -> OS -> option Z * OS;   (* with or without control message *)
  recvmsg : Z -> nat -> Z -> OS -> option received * OS;           (* size of the buffers, of the control buffer *)
  socketpair : OS -> option (Z * Z) * OS;
  close_fd : Z -> OS -> bool * OS;
  raise_ipc : ipc_error -> OS -> OS
}.

Section Ipc.

Context {OS : Type} `{!IpcSockets OS}.

Abbreviation M := (ST OS).

Definition raise (e : ipc_error) : M Z := st_modify (raise_ipc e);; mret (-1).

Definition mm_close (fd : Z) : M Z :=
  if fd =? -1 then mret 0 else ok ← st_call (close_fd fd); if ok : bool then mret 0 else raise IPC_ERRNO.

(** ** Addresses *)

(** A null byte, the name and zeros. *)
Definition abstract_address (name : cstr) : list ascii :=
  let len := Nat.min (length name) (SUN_PATH_LEN - 1) in
  NUL :: take len name ++ replicate (SUN_PATH_LEN - 1 - len) NUL.

(** The descriptor that listens. *)
Definition mm_ipc_srv_create (addr : cstr) : M (option Z) :=
  if (SUN_PATH_LEN - 1 <? length addr)%nat then _ ← raise IPC_ENAMETOOLONG; mret None
  else
    let address := abstract_address addr in
    let failure fd := _ ← raise IPC_ERRNO; _ ← mm_close fd; mret None in
    ok ← st_call malloc_srv;
    if negb ok then failure (-1)
    else
      fd ← st_call socket_seqpacket;
      match fd with
      | None => failure (-1)
      | Some fd =>
          ok ← st_call (bind fd address);
          if negb ok then failure fd
          else ok ← st_call (listen fd BACKLOG_LENGTH); if negb ok then failure fd else mret (Some fd)
      end.

Definition mm_ipc_srv_destroy (srv : option Z) : M unit := match srv with None => mret tt | Some listenfd => _ ← mm_close listenfd; mret tt end.

Definition mm_ipc_srv_accept (srv : Z) : M Z :=
  fd ← st_call (accept srv); match fd with Some fd => mret fd | None => raise IPC_ERRNO end.

Definition mm_ipc_connect (addr : cstr) : M Z :=
  fd ← st_call socket_seqpacket;
  match fd with
  | None => _ ← raise IPC_ERRNO; _ ← mm_close (-1); mret (-1)
  | Some fd =>
      ok ← st_call (connect fd (abstract_address addr));
      if ok : bool then mret fd else _ ← raise IPC_ERRNO; _ ← mm_close fd; mret (-1)
  end.

(** ** Messages *)

(** The data of the buffers, the descriptors and their number, the flags, and the size of the array of descriptors. *)
Record mm_ipc_msg := mk_msg { iov : cstr; fds : list Z; num_fds : Z; flags : Z; num_fds_max : Z }.

Definition SIZEOF_INT : Z := 4.
Definition SIZEOF_CMSGHDR : Z := 16.
Definition CMSG_LEN (len : Z) : Z := SIZEOF_CMSGHDR + len.
Definition CMSG_SPACE (len : Z) : Z := SIZEOF_CMSGHDR + (len + 7) / 8 * 8.

(** A number that is negative gives an array of undefined size; one greater than the array reads after it. *)
Definition mm_ipc_sendmsg (fd : Z) (msg : mm_ipc_msg) : M Z :=
  if (num_fds msg <? 0) || (Z.of_nat (length (fds msg)) <? num_fds msg) then st_ub
  else
    let control := if 0 <? num_fds msg then Some (take (Z.to_nat (num_fds msg)) (fds msg)) else None in
    rsz ← st_call (sendmsg fd (iov msg) control);
    match rsz with Some rsz => mret rsz | None => raise IPC_ERRNO end.

(** The descriptors in excess. *)
Fixpoint close_excess (l : list Z) : M unit :=
  match l with [] => mret tt | fd :: l => _ ← st_call (close_fd fd); close_excess l end.

(** [size] is that of the buffers.  The descriptors given, their number and the flags are changed only as written here. *)
Definition mm_ipc_recvmsg (fd : Z) (size : nat) (msg : mm_ipc_msg) : M (Z * mm_ipc_msg) :=
  if num_fds_max msg <? 0 then st_ub
  else
    r ← st_call (recvmsg fd size (CMSG_SPACE (num_fds_max msg * SIZEOF_INT)));
    match r with
    | None => _ ← raise IPC_ERRNO; mret (-1, msg)
    | Some r =>
        let rsz := Z.of_nat (length (r_data r)) in
        if rsz <=? 0 then _ ← raise IPC_ERRNO; mret (-1, msg)
        else
          let flags := Z.land (r_flags r) (Z.lor MSG_TRUNC MSG_CTRUNC) in
          match r_control r with
          | None => mret (rsz, mk_msg (r_data r) (fds msg) (num_fds msg) flags (num_fds_max msg))
          | Some passed =>
              let num_fd := Z.of_nat (length passed) in
              let n := if num_fd <=? num_fds_max msg then num_fd else num_fds_max msg in
              let excess := drop (Z.to_nat (num_fds_max msg)) passed in
              close_excess excess;;
              mret (rsz, mk_msg (r_data r) (take (Z.to_nat n) passed) n (match excess with [] => flags | _ => Z.lor flags MSG_CTRUNC end) (num_fds_max msg))
          end
    end.

Definition mm_ipc_connected_pair : M (option (Z * Z)) :=
  p ← st_call socketpair; match p with Some p => mret (Some p) | None => _ ← raise IPC_ERRNO; mret None end.

End Ipc.

(** ** Addresses that match *)

(** The address of a connection is that of a server whose name is the same, and only of it, when the names are short enough to be those of servers;
    a longer name, which a server may not have, connects to the server of its first 107 bytes. *)
Theorem addresses_match name addr :
  (length name <= SUN_PATH_LEN - 1)%nat -> NUL ∉ name -> NUL ∉ addr ->
  abstract_address addr = abstract_address name <-> take (SUN_PATH_LEN - 1) addr = name.
Proof.
  intros Hn N1 N2.
  assert (Hcut : forall l k l' k' : list ascii, NUL ∉ l -> NUL ∉ l' -> Forall (eq NUL) k -> Forall (eq NUL) k' -> l ++ k = l' ++ k' -> l = l').
  { induction l as [|c l IH]; intros k l' k' H H' Hk Hk' E; destruct l' as [|c' l']; [done| | |].
    - cbn in E. subst k. apply Forall_cons in Hk as [<- _]. set_solver.
    - cbn in E. subst k'. apply Forall_cons in Hk' as [<- _]. set_solver.
    - injection E as <- E. f_equal. apply (IH k l' k'); try done; set_solver. }
  assert (Hrep : forall n, Forall (eq NUL) (replicate n NUL)) by (intros n; by apply Forall_replicate).
  assert (Htake : forall l : cstr, take (Nat.min (length l) (SUN_PATH_LEN - 1)) l = take (SUN_PATH_LEN - 1) l).
  { intros l. destruct (Nat.le_ge_cases (length l) (SUN_PATH_LEN - 1)) as [H|H]; [by rewrite Nat.min_l, !take_ge by lia|by rewrite Nat.min_r by lia]. }
  unfold abstract_address. rewrite !Htake. rewrite (take_ge name) by done. split.
  - intros [= E]. apply Hcut in E; [done| | | |]; try done. intros H. apply N2. rewrite <- (take_drop (SUN_PATH_LEN - 1) addr). apply elem_of_app. by left.
  - intros E. assert (Hl : Nat.min (length addr) (SUN_PATH_LEN - 1) = Nat.min (length name) (SUN_PATH_LEN - 1)).
    { rewrite <- E, length_take. lia. }
    by rewrite Hl, E.
Qed.

(** ** Descriptors passed with a message *)

(** The descriptors [nums] refer to the objects [objs]. *)
Fixpoint give (nums objs : list Z) (t : gmap Z Z) : gmap Z Z :=
  match nums, objs with
  | n :: nums, o :: objs => <[n := o]> (give nums objs t)
  | _, _ => t
  end.

(** The messages that wait on a descriptor, with the objects of their descriptors, and the table of the process.  The kernel gives the descriptors for which the
    control buffer has room. *)
Class IpcLaws (OS : Type) `{!IpcSockets OS} (table : OS -> gmap Z Z) (queue : OS -> Z -> list (cstr * list Z)) (peer : OS -> Z -> Z) : Prop := {
  send_law fd data ctl os objs :
    mapM (fun x => table os !! x) (default [] ctl) = Some objs ->
    exists os', sendmsg fd data ctl os = (Some (Z.of_nat (length data)), os') /\ table os' = table os /\ peer os' = peer os
      /\ queue os' (peer os fd) = queue os (peer os fd) ++ [(data, objs)];
  recv_law fd size clen os data objs q :
    queue os fd = (data, objs) :: q ->
    let n := Nat.min (length objs) (Z.to_nat ((clen - SIZEOF_CMSGHDR) / SIZEOF_INT)) in
    exists nums os', length nums = n /\ NoDup nums /\ (forall x, x ∈ nums -> table os !! x = None)
      /\ recvmsg fd size clen os
           = (Some (mk_received (take size data)
                (Z.lor (if (size <? length data)%nat then MSG_TRUNC else 0) (if (n <? length objs)%nat then MSG_CTRUNC else 0))
                (match nums with [] => None | _ => Some nums end)), os')
      /\ table os' = give nums objs (table os) /\ queue os' fd = q /\ peer os' = peer os;
  close_law fd os : exists os', close_fd fd os = (bool_decide (is_Some (table os !! fd)), os') /\ table os' = delete fd (table os)
      /\ queue os' = queue os /\ peer os' = peer os;
  raise_ipc_law e os : table (raise_ipc e os) = table os /\ queue (raise_ipc e os) = queue os
}.

Lemma give_delete_other nums objs t k : k ∉ nums -> delete k (give nums objs t) = give nums objs (delete k t).
Proof.
  revert objs. induction nums as [|n nums IH]; intros objs Hk; destruct objs as [|o objs]; try done. cbn.
  rewrite delete_insert_ne by set_solver. by rewrite IH by set_solver.
Qed.

Lemma give_lookup_other nums objs t k : k ∉ nums -> give nums objs t !! k = t !! k.
Proof.
  revert objs. induction nums as [|n nums IH]; intros objs Hk; destruct objs as [|o objs]; try done. cbn.
  rewrite lookup_insert_ne by set_solver. apply IH. set_solver.
Qed.

Lemma give_delete nums objs t : length nums = length objs -> NoDup nums -> (forall x, x ∈ nums -> t !! x = None) -> foldl (fun t k => delete k t) (give nums objs t) nums = t.
Proof.
  revert objs. induction nums as [|n nums IH]; intros objs Hl Hd Hn; destruct objs as [|o objs]; try done. cbn [give foldl].
  apply NoDup_cons in Hd as [Hd1 Hd2]. assert (Ht : give nums objs t !! n = None) by (rewrite give_lookup_other by done; apply Hn; by left).
  rewrite delete_insert_id by done. apply IH; [by injection Hl|done|]. intros x Hx. apply Hn. by right.
Qed.

Lemma give_app a b x y t : length a = length x -> give (a ++ b) (x ++ y) t = give a x (give b y t).
Proof. revert x. induction a as [|n a IH]; intros x Hl; destruct x as [|o x]; try done. cbn. f_equal. apply IH. by injection Hl. Qed.

(** Closing the descriptors in excess leaves those that are kept. *)
Lemma give_close_excess a b x y t :
  length a = length x -> length b = length y -> NoDup (a ++ b) -> (forall k, k ∈ a ++ b -> t !! k = None) ->
  foldl (fun t k => delete k t) (give (a ++ b) (x ++ y) t) b = give a x t.
Proof.
  intros Ha Hb Hd Hn. rewrite give_app by done. apply NoDup_app in Hd as (D1 & D2 & D3).
  transitivity (give a x (foldl (fun t k => delete k t) (give b y t) b)).
  - generalize (give b y t) as u. assert (Hab : forall k, k ∈ b -> k ∉ a) by (intros k Hk Hk'; by apply (D2 k)). clear -Hab.
    induction b as [|k b IH]; intros u; [done|]. cbn. rewrite give_delete_other by (apply Hab; by left). apply IH. intros j Hj. apply Hab. by right.
  - f_equal. apply give_delete; [done|done|]. intros k Hk. apply Hn. apply elem_of_app. by right.
Qed.

Lemma give_objs nums objs t : give nums objs t = give nums (take (length nums) objs) t.
Proof. revert objs. induction nums as [|n nums IH]; intros objs; destruct objs as [|o objs]; cbn; try done. by rewrite <- IH. Qed.

(** The space for [m] descriptors has room for [m] or [m + 1] of them. *)
Lemma control_room m : 0 <= m -> m <= (CMSG_SPACE (m * SIZEOF_INT) - SIZEOF_CMSGHDR) / SIZEOF_INT.
Proof.
  intros Hm. unfold CMSG_SPACE, SIZEOF_CMSGHDR, SIZEOF_INT. replace (16 + (m * 4 + 7) / 8 * 8 - 16) with ((m * 4 + 7) / 8 * 8) by lia.
  apply Z.div_le_lower_bound; [lia|]. pose proof (Z.div_mod (m * 4 + 7) 8 ltac:(lia)). pose proof (Z.mod_pos_bound (m * 4 + 7) 8 ltac:(lia)). lia.
Qed.

(** The two flags of a message received. *)
Lemma flags_bits (t c e : bool) :
  let f := Z.land (Z.lor (if t then MSG_TRUNC else 0) (if c then MSG_CTRUNC else 0)) (Z.lor MSG_TRUNC MSG_CTRUNC) in
  let f := if e then Z.lor f MSG_CTRUNC else f in
  (Z.land f MSG_TRUNC <> 0 <-> t = true) /\ (Z.land f MSG_CTRUNC <> 0 <-> c || e = true).
Proof. destruct t, c, e; vm_compute; split; split; congruence. Qed.

Section Messages.

Context {OS : Type} `{!IpcSockets OS} (table : OS -> gmap Z Z) (queue : OS -> Z -> list (cstr * list Z)) (peer : OS -> Z -> Z) `{!IpcLaws OS table queue peer}.

Lemma close_excess_ok l os :
  exists os', close_excess l os = Some (tt, os') /\ table os' = foldl (fun t k => delete k t) (table os) l /\ queue os' = queue os.
Proof.
  revert os. induction l as [|fd l IH]; intros os; [by exists os|]. cbn [close_excess foldl]. unfold mbind, st_bind, st_call.
  destruct (close_law (table := table) (queue := queue) (peer := peer) fd os) as (os1 & -> & E1 & E2 & _). cbn.
  destruct (IH os1) as (os2 & -> & F1 & F2). exists os2. split; [done|]. rewrite F1, E1, F2, E2. done.
Qed.

(** The receiver of a message that waits. *)
Lemma recv_ok b size recv os data objs :
  queue os b = [(data, objs)] -> 0 <= num_fds_max recv -> (0 < size)%nat -> data <> [] ->
  exists got os2, mm_ipc_recvmsg b size recv os = Some ((Z.of_nat (length (iov got)), got), os2)
    /\ iov got = take size data
    /\ (Z.land (flags got) MSG_TRUNC <> 0 <-> (size < length data)%nat)
    /\ (Z.land (flags got) MSG_CTRUNC <> 0 <-> num_fds_max recv < Z.of_nat (length objs))
    /\ queue os2 b = []
    /\ (objs = [] -> table os2 = table os)
    /\ (objs <> [] -> 0 < num_fds_max recv ->
         num_fds got = Z.min (Z.of_nat (length objs)) (num_fds_max recv) /\ Z.of_nat (length (fds got)) = num_fds got
         /\ NoDup (fds got) /\ (forall x, x ∈ fds got -> table os !! x = None)
         /\ table os2 = give (fds got) (take (length (fds got)) objs) (table os)).
Proof.
  intros Q Hmax Hsize Hdata.
  unfold mm_ipc_recvmsg. destruct (Z.ltb_spec (num_fds_max recv) 0) as [?|_]; [lia|]. set (clen := CMSG_SPACE _).
  destruct (recv_law (table := table) (queue := queue) (peer := peer) b size clen os data objs [] Q) as (nums & os2 & Hn & Hnd & Hnew & Er & T2 & Q2 & P2).
  set (n := Nat.min (length objs) _) in *. pose proof (control_room (num_fds_max recv) Hmax) as Hroom. fold clen in Hroom.
  assert (Hshort : (n < length objs)%nat -> num_fds_max recv < Z.of_nat (length objs)) by (unfold n in *; lia).
  unfold mbind at 1, st_bind at 1, st_call at 1. rewrite Er. cbn [r_data r_flags r_control].
  destruct (Z.leb_spec (Z.of_nat (length (take size data))) 0) as [H0|_].
  { exfalso. rewrite length_take in H0. destruct data; [done|]. cbn in H0. lia. }
  destruct nums as [|x nums].
  - eexists (mk_msg _ _ _ _ _), os2. split; [reflexivity|]. cbn [iov flags]. split; [done|].
    destruct (flags_bits (size <? length data)%nat (n <? length objs)%nat false) as [F1 F2]. cbn [length] in Hn.
    split_and!; [by rewrite F1, Nat.ltb_lt| |done|intros _; by rewrite T2|].
    + rewrite F2, orb_false_r, Nat.ltb_lt. split; [done|]. unfold n in *. lia.
    + intros Ho Hm. exfalso. assert (Hpos : (0 < length objs)%nat) by (destruct objs; [done|cbn; lia]). unfold n in Hn. lia.
  - set (all := x :: nums) in *. set (m := Z.to_nat (num_fds_max recv)). destruct (close_excess_ok (drop m all) os2) as (os3 & Ec & T3 & Q3).
    rewrite (st_bind_Some _ _ _ _ _ Ec). eexists (mk_msg _ _ _ _ _), os3. split; [reflexivity|]. cbn [iov flags fds num_fds]. split; [done|].
    assert (He : match drop m all with [] => Z.land (Z.lor (if (size <? length data)%nat then MSG_TRUNC else 0) (if (n <? length objs)%nat then MSG_CTRUNC else 0)) (Z.lor MSG_TRUNC MSG_CTRUNC)
        | _ => Z.lor (Z.land (Z.lor (if (size <? length data)%nat then MSG_TRUNC else 0) (if (n <? length objs)%nat then MSG_CTRUNC else 0)) (Z.lor MSG_TRUNC MSG_CTRUNC)) MSG_CTRUNC end
      = let f := Z.land (Z.lor (if (size <? length data)%nat then MSG_TRUNC else 0) (if (n <? length objs)%nat then MSG_CTRUNC else 0)) (Z.lor MSG_TRUNC MSG_CTRUNC) in
        if (m <? length all)%nat then Z.lor f MSG_CTRUNC else f).
    { pose proof (length_drop all m) as Hd. destruct (drop m all) as [|y l];
        [change (length (@nil Z)) with 0%nat in Hd|change (length (y :: l)) with (S (length l)) in Hd]; destruct (Nat.ltb_spec m (length all)); try done; lia. }
    rewrite He. clear He. destruct (flags_bits (size <? length data)%nat (n <? length objs)%nat (m <? length all)%nat) as [F1 F2].
    assert (Hall : (length all <= length objs)%nat) by (unfold n in Hn; lia).
    assert (Htab : table os3 = give (take m all) (take (length (take m all)) objs) (table os)).
    { rewrite T3, T2, give_objs. rewrite <- (take_drop m all) at 1. rewrite <- (take_drop (length (take m all)) (take (length all) objs)).
      rewrite give_close_excess; [|rewrite !length_take; lia|rewrite !length_drop, !length_take; lia|by rewrite take_drop|intros k; rewrite take_drop; apply Hnew].
      f_equal. rewrite take_take. f_equal. rewrite length_take. lia. }
    split_and!; [by rewrite F1, Nat.ltb_lt| |by rewrite Q3| |].
    + rewrite F2, orb_true_iff, !Nat.ltb_lt. split; [intros [H|H]; [by apply Hshort|lia]|]. intros H. destruct (Nat.lt_ge_cases n (length objs)); [by left|right]. lia.
    + intros ->. cbn in Hall. lia.
    + intros _ Hm. assert (Hcnt : (if Z.of_nat (length all) <=? num_fds_max recv then Z.of_nat (length all) else num_fds_max recv) = Z.min (Z.of_nat (length objs)) (num_fds_max recv)).
      { destruct (Z.leb_spec (Z.of_nat (length all)) (num_fds_max recv)); unfold n in *; lia. }
      rewrite Hcnt. assert (Htake : take (Z.to_nat (Z.min (Z.of_nat (length objs)) (num_fds_max recv))) all = take m all).
      { destruct (Nat.le_gt_cases m (length objs)); [f_equal; lia|]. rewrite !take_ge by lia. done. }
      rewrite Htake. split_and!; [done| | | |exact Htab].
      * rewrite length_take. destruct (Z.leb_spec (Z.of_nat (length all)) (num_fds_max recv)); unfold n in *; lia.
      * rewrite <- (take_drop m all) in Hnd. by apply NoDup_app in Hnd as (? & _).
      * intros y Hy. apply Hnew. rewrite <- (take_drop m all). apply elem_of_app. by left.
Qed.


End Messages.

(** ** A kernel *)

Module IpcDemo.

Record kernel := mk_kernel { k_table : gmap Z Z; k_queue : Z -> list (cstr * list Z); k_errors : list ipc_error }.

(** The ends are a pair of consecutive numbers. *)
Definition k_peer (s : kernel) (fd : Z) : Z := if Z.even fd then fd + 1 else fd - 1.

Definition set_queue (fd : Z) (q : list (cstr * list Z)) (s : kernel) : kernel :=
  mk_kernel (k_table s) (fun x => if decide (x = fd) then q else k_queue s x) (k_errors s).

Definition k_recv (fd : Z) (size : nat) (clen : Z) (s : kernel) : option received * kernel :=
  match k_queue s fd with
  | [] => (None, s)
  | (data, objs) :: q =>
      let n := Nat.min (length objs) (Z.to_nat ((clen - SIZEOF_CMSGHDR) / SIZEOF_INT)) in
      let nums := fresh_list n (dom (k_table s)) in
      let s1 := set_queue fd q s in
      (Some (mk_received (take size data)
        (Z.lor (if (size <? length data)%nat then MSG_TRUNC else 0) (if (n <? length objs)%nat then MSG_CTRUNC else 0))
        (match nums with [] => None | _ => Some nums end)),
       mk_kernel (give nums objs (k_table s)) (k_queue s1) (k_errors s))
  end.

Definition k_send (fd : Z) (data : cstr) (ctl : option (list Z)) (s : kernel) : option Z * kernel :=
  match mapM (fun x => k_table s !! x) (default [] ctl) with
  | None => (None, s)
  | Some objs => (Some (Z.of_nat (length data)), set_queue (k_peer s fd) (k_queue s (k_peer s fd) ++ [(data, objs)]) s)
  end.

#[global] Instance kernel_sockets : IpcSockets kernel := {|
  malloc_srv s := (true, s);
  socket_seqpacket s := (Some 10, s);
  bind _ _ s := (true, s);
  listen _ _ s := (true, s);
  accept _ s := (None, s);
  connect _ _ s := (true, s);
  sendmsg := k_send;
  recvmsg := k_recv;
  socketpair s := (Some (10, 11), s);
  close_fd fd s := (bool_decide (is_Some (k_table s !! fd)), mk_kernel (delete fd (k_table s)) (k_queue s) (k_errors s));
  raise_ipc e s := mk_kernel (k_table s) (k_queue s) (e :: k_errors s)
|}.

#[global] Instance kernel_laws : IpcLaws kernel k_table k_queue k_peer.
Proof.
  split.
  - intros fd data ctl s objs H. cbn. unfold k_send. rewrite H. eexists. split; [reflexivity|]. cbn. by rewrite decide_True.
  - intros fd size clen s data objs q Hq n. cbn. unfold k_recv. rewrite Hq. fold n. exists (fresh_list n (dom (k_table s))). eexists.
    split; [apply length_fresh_list|]. split; [apply NoDup_fresh_list|]. split.
    + intros x Hx. apply not_elem_of_dom. by eapply fresh_list_is_fresh.
    + split; [reflexivity|]. cbn. by rewrite decide_True.
  - intros fd s. by eexists.
  - done.
Qed.

(** The ends 10 and 11 of a connection, and two files. *)
Definition start : kernel := mk_kernel {[ 10 := 100; 11 := 101; 20 := 7; 21 := 8 ]} (fun _ => []) [].
Definition message (data : cstr) (l : list Z) : mm_ipc_msg := mk_msg data l (Z.of_nat (length l)) 0 0.
Definition buffers (max stale : Z) : mm_ipc_msg := mk_msg [] [] stale 0 max.

(** An empty message is received as an error, whatever [errno] is, and its descriptors stay open without being known. *)
Example empty_message_leaks :
  exists s1 s2 m, mm_ipc_sendmsg 10 (message [] [20]) start = Some (0, s1)
    /\ mm_ipc_recvmsg 11 16 (buffers 4 0) s1 = Some ((-1, m), s2) /\ size (k_table s2) = 5%nat.
Proof. eexists _, _, _. split; [vm_compute; reflexivity|]. split; [vm_compute; reflexivity|]. by vm_compute. Qed.

(** Without descriptors in the message, their number is that of before the call. *)
Example stale_number_of_descriptors :
  exists s1 s2 m, mm_ipc_sendmsg 10 (message (cs "a") []) start = Some (1, s1)
    /\ mm_ipc_recvmsg 11 16 (buffers 4 3) s1 = Some ((1, m), s2) /\ num_fds m = 3 /\ fds m = [].
Proof. eexists _, _, _. split; [vm_compute; reflexivity|]. split; [vm_compute; reflexivity|]. by vm_compute. Qed.
End IpcDemo.

Import IpcDemo.

Lemma addresses_match_witness : abstract_address (replicate 120 "a"%char) = abstract_address (replicate 107 "a"%char).
Proof.
  apply addresses_match.
  - vm_compute. lia.
  - apply (bool_decide_unpack _). vm_compute. exact I.
  - apply (bool_decide_unpack _). vm_compute. exact I.
  - reflexivity.
Defined.

