(* ===== verification/DynLib.v ===== *)
(** * Dynamic libraries

    [dlfcn.c]: libraries are opened by their name, with the extension of the platform if it is asked for, and their symbols found.  The linker of the
    system is the class [DynLinker]. *)

From S2P Require Import Prelude CStr Effects.

Definition MM_LD_LAZY : Z := 0x1.
Definition MM_LD_NOW : Z := 0x2.
Definition MM_LD_APPEND_EXT : Z := 0x4.

Inductive dl_error := DL_EINVAL | DL_EIO | DL_ELIBEXEC | DL_ENOTFOUND.

Class DynLinker (OS : Type) := {
  win32 : bool;
  LT_MODULE_EXT : cstr;                                        (* of the configuration *)
  dlopen : option cstr -> bool -> OS -> option Z * OS;         (* the boolean is [RTLD_NOW] *)
  dlclose : Z -> OS -> OS;
  dlsym : Z -> cstr -> OS -> option Z * OS;
  GetModuleHandle : OS -> option Z * OS;
  LoadLibrary : cstr -> OS -> option Z * OS;
  FreeLibrary : Z -> OS -> OS;
  GetProcAddress : Z -> cstr -> OS -> option Z * OS;
  malloca : nat -> OS -> bool * OS;
  raise_dl : dl_error -> OS -> OS
}.

Section DynLib.

Context {OS : Type} `{!DynLinker OS}.

Abbreviation M := (ST OS).

Definition has_dl (flags f : Z) : bool := negb (Z.land flags f =? 0).
Definition fail (e : dl_error) : M (option Z) := st_modify (raise_dl e);; mret None.
Definition or_fail (e : dl_error) (r : option Z) : M (option Z) := match r with Some h => mret (Some h) | None => fail e end.

(** The two variants of each function: the POSIX one first. *)

Definition arch_dlopen_posix (path : option cstr) (flags : Z) : M (option Z) :=
  handle ← st_call (dlopen path (has_dl flags MM_LD_NOW)); or_fail DL_ELIBEXEC handle.
Definition arch_dlopen_w32 (path : option cstr) (flags : Z) : M (option Z) :=
  handle ← match path with None => st_call GetModuleHandle | Some path => st_call (LoadLibrary path) end;
  or_fail DL_EIO handle.
Definition arch_dlopen (path : option cstr) (flags : Z) : M (option Z) := if win32 then arch_dlopen_w32 path flags else arch_dlopen_posix path flags.

Definition arch_dlclose_posix (handle : Z) : M unit := st_modify (dlclose handle).
Definition arch_dlclose_w32 (handle : Z) : M unit := st_modify (FreeLibrary handle).
Definition arch_dlclose (handle : Z) : M unit := if win32 then arch_dlclose_w32 handle else arch_dlclose_posix handle.

Definition arch_dlsym_posix (handle : Z) (symbol : cstr) : M (option Z) := ptr ← st_call (dlsym handle symbol); or_fail DL_ENOTFOUND ptr.
Definition arch_dlsym_w32 (handle : Z) (symbol : cstr) : M (option Z) := ptr ← st_call (GetProcAddress handle symbol); or_fail DL_ENOTFOUND ptr.
Definition arch_dlsym (handle : Z) (symbol : cstr) : M (option Z) := if win32 then arch_dlsym_w32 handle symbol else arch_dlsym_posix handle symbol.

Definition mm_dl_fileext : cstr := LT_MODULE_EXT.

(** [strcpy] and [strcat] write in a buffer of the length of the two names and the null byte. *)
Definition mm_dlopen (path : option cstr) (flags : Z) : M (option Z) :=
  if has_dl flags MM_LD_NOW && has_dl flags MM_LD_LAZY then fail DL_EINVAL
  else
    match path with
    | None => arch_dlopen None flags
    | Some path =>
        let size := (length path + (length LT_MODULE_EXT + 1))%nat in
        ok ← st_call (malloca size);
        if negb ok then mret None
        else
          let path_ext := if has_dl flags MM_LD_APPEND_EXT then path ++ LT_MODULE_EXT else path in
          if (size <? length path_ext + 1)%nat then st_ub else arch_dlopen (Some path_ext) flags
    end.

(** A null handle is [None]. *)
Definition mm_dlclose (handle : option Z) : M unit := match handle with None => mret tt | Some h => arch_dlclose h end.

Definition mm_dlsym (handle : option Z) (symbol : option cstr) : M (option Z) :=
  match handle, symbol with Some h, Some symbol => arch_dlsym h symbol | _, _ => fail DL_EINVAL end.

(** The library opened has the name given, with the extension if it is asked for; the name always fits the buffer. *)
Lemma dlopen_name path flags s :
  has_dl flags MM_LD_NOW && has_dl flags MM_LD_LAZY = false ->
  exists ok s1, malloca (length path + (length LT_MODULE_EXT + 1)) s = (ok, s1)
    /\ mm_dlopen (Some path) flags s
       = if ok : bool then arch_dlopen (Some (if has_dl flags MM_LD_APPEND_EXT then path ++ mm_dl_fileext else path)) flags s1 else Some (None, s1).
Proof.
  intros Hf. destruct (malloca _ s) as [ok s1] eqn:E. exists ok, s1. split; [done|]. unfold mm_dlopen. rewrite Hf. unfold mbind, st_bind, st_call. rewrite E.
  destruct ok; [|done]. cbn [negb]. unfold mm_dl_fileext. set (p := if has_dl flags MM_LD_APPEND_EXT then _ else _).
  assert (Hp : (length p + 1 <= length path + (length LT_MODULE_EXT + 1))%nat) by (unfold p; destruct (has_dl flags MM_LD_APPEND_EXT); [rewrite length_app | ]; unfold LT_MODULE_EXT; cbn; lia).
  by rewrite (proj2 (Nat.ltb_ge _ _) Hp).
Qed.

End DynLib.
