(* ===== verification/ProfileReport.v ===== *)
(** * The table of the profile

    [mm_profile_print] of [profile.c]: the lines of the table in the buffer of the function and the writes of them.  The numbers are those of
    [%.2f] of a division of doubles, computed on integers: a double is its mantissa and its exponent.  The descriptor is a function of [mm_write], as in [CopyLoop]. *)

From S2P Require Import Prelude CStr Effects ScanInt CopyLoop Time Profile.

Definition VALUESTR_LEN : nat := 8.
Definition UNITSTR_LEN : nat := 2.
(** [char str[512]] *)
Definition STR_SIZE : nat := 512.

Definition unit_names : list cstr := [cs "ns"; cs "us"; cs "ms"; cs "s"].

(** [%*s] *)
Definition padl (width : nat) (s : cstr) : cstr := replicate (width - length s) " "%char ++ s.

(** ** Numbers *)

(** The integer nearest to [n / d], the even one of two. *)
Definition round_half_even (n d : Z) : Z :=
  let q := n / d in let r := n mod d in
  if 2 * r <? d then q else if d <? 2 * r then q + 1 else if Z.even q then q else q + 1.

(** The conversion of an integer to a double, whose value is an integer. *)
Definition double_of_int (z : Z) : Z :=
  let k := Z.log2 (Z.abs z) - 52 in
  if k <=? 0 then z else Z.sgn z * (round_half_even (Z.abs z) (2 ^ k) * 2 ^ k).

(** The double nearest to [n / d]: mantissa and exponent. *)
Definition double_div (n d : Z) : Z * Z :=
  let k0 := Z.log2 n - Z.log2 d in
  let k := if n * 2 ^ Z.max 0 (- k0) <? d * 2 ^ Z.max 0 k0 then k0 - 1 else k0 in
  let e := k - 52 in
  (round_half_even (n * 2 ^ Z.max 0 (- e)) (d * 2 ^ Z.max 0 e), e).

(** The digits that [%.2f] prints of [data / scale]. *)
Definition hundredths (data scale : Z) : Z :=
  let '(m, e) := double_div (Z.abs (double_of_int data)) scale in
  round_half_even (100 * m * 2 ^ Z.max 0 e) (2 ^ Z.max 0 (- e)).

Definition print_nat (n : Z) : cstr := digits (S (Z.to_nat (Z.log2 n))) n.
Definition printf_li (z : Z) : cstr := (if z <? 0 then cs "-" else []) ++ print_nat (Z.abs z).
Definition printf_2f (data scale : Z) : cstr :=
  let h := hundredths data scale in
  (if data <? 0 then cs "-" else []) ++ print_nat (h / 100) ++ cs "." ++ [digit_char (h / 10 mod 10); digit_char (h mod 10)].

Example printed_values :
  printf_2f 1234567 1000 = cs "1234.57" /\ printf_2f (-1) 1000000000 = cs "-0.00" /\ printf_2f 125 1000 = cs "0.12"
  /\ printf_2f 1005 1000 = cs "1.00" /\ printf_2f INT64_MAX 1 = cs "9223372036854775808.00".
Proof. repeat split; vm_compute; reflexivity. Qed.

(** ** Lines *)

Definition header_cell (name : cstr) : cstr := padl VALUESTR_LEN name ++ cs " " ++ padl UNITSTR_LEN [] ++ cs " |".

Definition header_names (mask : Z) : list cstr :=
  let has f := negb (Z.land mask f =? 0) in
  (if has PROF_CURR then [cs "current"] else []) ++ (if has PROF_MEAN then [cs "mean"] else [])
  ++ (if has PROF_MIN then [cs "min"] else []) ++ (if has PROF_MAX then [cs "max"] else [])
  ++ (if has PROF_MEDIAN then [cs "median"] else []).

Definition newline : cstr := ["010"%char].

Definition format_header_line (mask : Z) (label_width : nat) : cstr :=
  let h := padl label_width [] ++ cs " |" ++ concat (header_cell <$> header_names mask) in
  h ++ newline ++ replicate (length h) "-"%char ++ newline.

Definition value_cell (unit_index : nat) (value : Z) : option cstr :=
  u ← unit_list !! unit_index; unitname ← unit_names !! unit_index;
  Some (padl VALUESTR_LEN (printf_2f value u.1) ++ cs " " ++ padl UNITSTR_LEN unitname ++ cs " |").

Definition line_label (p : profile) (v : nat) : option cstr :=
  l ← labels p !! S v;
  if l : bool then label_storage p !! S v else Some (printf_int (Z.of_nat (S v))).

Definition format_result_line (p : profile) (data : list (list Z)) (v unit_index label_width : nat) : option cstr :=
  label ← line_label p v;
  values ← mapM (fun col => col !! v) data;
  cells ← mapM (value_cell unit_index) values;
  Some (padl label_width label ++ cs " |" ++ concat cells ++ newline).

(** The line of the turn [i] of the loop: it is undefined that it does not fit the buffer. *)
Definition in_buffer (line : cstr) : option cstr := if (length line <=? STR_SIZE)%nat then Some line else None.

Definition table_line (mask : Z) (p : profile) (data : list (list Z)) (unit_index label_width i : nat) : option cstr :=
  line ← match i with
         | O => Some (format_header_line mask label_width)
         | S v => format_result_line p data v unit_index label_width
         end;
  in_buffer line.

Definition overhead_line (p : profile) : cstr := cs "toc overhead = " ++ printf_li (toc_overhead p) ++ cs " ns" ++ newline.

(** ** Writes *)

Section Print.

Context {OS : Type} (mm_write : cstr -> ST OS (option nat)).

(** Each write that succeeds writes a byte at least, so that the length of the buffer is enough fuel; with one that writes nothing the loop of the code
    would not end. *)
Definition full_mm_write (fuel : nat) (buf : cstr) : ST OS Z :=
  ok ← write_chunks mm_write fuel buf; mret (if ok : bool then 0 else -1).

Fixpoint print_lines (lines : list nat) (line : nat -> option cstr) : ST OS Z :=
  match lines with
  | [] => mret 0
  | i :: lines =>
      str ← st_option (line i);
      rv ← full_mm_write (length str) str;
      if rv =? 0 then print_lines lines line else mret (-1)
  end.

Definition mm_profile_print (mask : Z) (p : profile) : ST OS (Z * profile) :=
  '(p, data, unit_index) ← st_option (mm_profile_print_data mask p);
  rv ← print_lines (seq 0 (num_ts p)) (table_line mask p data unit_index (max_label_len p));
  if negb (rv =? 0) then mret (-1, p)
  else
    str ← st_option (in_buffer (overhead_line p));
    rv ← full_mm_write (length str) str;
    mret (rv, p).

End Print.

(** ** Rounding *)

Lemma round_half_even_spec n d : 0 <= n -> 0 < d ->
  0 <= round_half_even n d /\ Z.abs (2 * (round_half_even n d * d - n)) <= d.
Proof.
  intros Hn Hd. unfold round_half_even. pose proof (Z.div_mod n d ltac:(lia)) as Hq. pose proof (Z.mod_pos_bound n d Hd) as Hr.
  pose proof (Z.div_pos n d Hn Hd). set (q := n / d) in *. set (r := n mod d) in *.
  destruct (Z.ltb_spec (2 * r) d); [nia|]. destruct (Z.ltb_spec d (2 * r)); [nia|]. destruct (Z.even q); nia.
Qed.

Lemma pow2_max k : 0 < 2 ^ Z.max 0 k.
Proof. apply Z.pow_pos_nonneg; lia. Qed.

(** The powers of the two sides of an exponent. *)
Lemma pow2_split e b : 0 <= b -> 0 <= e + b -> 2 ^ (e + b) * 2 ^ Z.max 0 (- e) = 2 ^ b * 2 ^ Z.max 0 e.
Proof.
  intros Hb He. destruct (Z_le_gt_dec 0 e).
  - rewrite (Z.max_r 0 e), (Z.max_l 0 (- e)) by lia. rewrite (Z.pow_add_r 2 e b) by lia. lia.
  - rewrite (Z.max_l 0 e), (Z.max_r 0 (- e)) by lia. rewrite <- Z.pow_add_r by lia. replace (e + b + - e) with b by lia. lia.
Qed.

(** A double has 53 bits: the quotient is at least [2 ^ 52] units. *)
Lemma double_div_spec n d m e :
  0 < n -> 0 < d -> double_div n d = (m, e) ->
  0 <= m /\ Z.abs (2 * (m * (d * 2 ^ Z.max 0 e) - n * 2 ^ Z.max 0 (- e))) <= d * 2 ^ Z.max 0 e
  /\ 2 ^ 52 * (d * 2 ^ Z.max 0 e) <= n * 2 ^ Z.max 0 (- e).
Proof.
  intros Hn Hd. unfold double_div. set (k0 := Z.log2 n - Z.log2 d).
  set (k := if _ <? _ then k0 - 1 else k0). intros [= <- <-]. set (e := k - 52).
  pose proof (pow2_max e) as P1. pose proof (pow2_max (- e)) as P2.
  destruct (round_half_even_spec (n * 2 ^ Z.max 0 (- e)) (d * 2 ^ Z.max 0 e)) as [H1 H2]; [nia|nia|].
  split_and!; [done|done|].
  assert (Hk : d * 2 ^ Z.max 0 k <= n * 2 ^ Z.max 0 (- k)).
  { unfold k. destruct (Z.ltb_spec (n * 2 ^ Z.max 0 (- k0)) (d * 2 ^ Z.max 0 k0)) as [|H]; [|done].
    pose proof (Z.log2_spec n Hn) as [Ln _]. pose proof (Z.log2_spec d Hd) as [_ Ld]. pose proof (Z.log2_nonneg d). pose proof (Z.log2_nonneg n).
    transitivity (2 ^ Z.succ (Z.log2 d) * 2 ^ Z.max 0 (k0 - 1)); [apply Z.mul_le_mono_nonneg_r; [apply Z.pow_nonneg; lia|lia]|].
    transitivity (2 ^ Z.log2 n * 2 ^ Z.max 0 (- (k0 - 1))); [|apply Z.mul_le_mono_nonneg_r; [apply Z.pow_nonneg; lia|lia]].
    rewrite <- !Z.pow_add_r by lia. apply Z.pow_le_mono_r; unfold k0; lia. }
  clearbody k. unfold e in *. clear e. destruct (Z_le_gt_dec 52 k).
  - rewrite (Z.max_r 0 k), (Z.max_l 0 (- k)) in Hk by lia. rewrite (Z.max_r 0 (k - 52)), (Z.max_l 0 (- (k - 52))) by lia.
    replace k with (k - 52 + 52) in Hk by lia. rewrite (Z.pow_add_r 2 (k - 52) 52) in Hk by lia. lia.
  - destruct (Z_le_gt_dec 0 k).
    + rewrite (Z.max_r 0 k), (Z.max_l 0 (- k)) in Hk by lia. rewrite (Z.max_l 0 (k - 52)), (Z.max_r 0 (- (k - 52))) by lia.
      replace 52 with (k + - (k - 52)) at 1 by lia. rewrite (Z.pow_add_r 2 k) by lia. pose proof (Z.pow_nonneg 2 (- (k - 52)) ltac:(lia)). nia.
    + rewrite (Z.max_l 0 k), (Z.max_r 0 (- k)) in Hk by lia. rewrite (Z.max_l 0 (k - 52)), (Z.max_r 0 (- (k - 52))) by lia.
      replace (- (k - 52)) with (- k + 52) by lia. rewrite (Z.pow_add_r 2 (- k) 52) by lia. pose proof (Z.pow_nonneg 2 (- k) ltac:(lia)). nia.
Qed.

Lemma round_half_even_0 d : 0 < d -> round_half_even 0 d = 0.
Proof. intros Hd. destruct (round_half_even_spec 0 d) as [H1 H2]; [lia|done|]. nia. Qed.

Lemma hundredths_0 scale : 0 < scale -> hundredths 0 scale = 0.
Proof.
  intros Hs. unfold hundredths. change (Z.abs (double_of_int 0)) with 0. destruct (double_div 0 scale) as [m e] eqn:E.
  injection E as Em _. rewrite Z.mul_0_l, round_half_even_0 in Em.
  - subst m. rewrite Z.mul_0_l. apply round_half_even_0, pow2_max.
  - apply Z.mul_pos_pos; [done|apply pow2_max].
Qed.

(** What is printed is the value to half a hundredth, and the error of the double. *)
Lemma hundredths_close data scale :
  Z.abs data < 2 ^ 53 -> 0 < scale ->
  2 ^ 53 * Z.abs (hundredths data scale * scale - 100 * Z.abs data) <= 2 ^ 52 * scale + 100 * Z.abs data.
Proof.
  intros Hdata Hs. destruct (decide (data = 0)) as [->|Hne]; [rewrite (hundredths_0 scale Hs); lia|].
  assert (Hd : double_of_int data = data).
  { unfold double_of_int. destruct (Z.leb_spec (Z.log2 (Z.abs data) - 52) 0) as [|H]; [done|].
    pose proof (Z.log2_lt_pow2 (Z.abs data) 53 ltac:(lia)). lia. }
  unfold hundredths. rewrite Hd. set (n := Z.abs data) in *. destruct (double_div n scale) as [m e] eqn:E.
  destruct (double_div_spec n scale m e ltac:(lia) Hs E) as (Hm & H1 & H2).
  assert (He : e <= 0).
  { destruct (Z_le_gt_dec e 0); [done|]. rewrite (Z.max_r 0 e), (Z.max_l 0 (- e)) in H2 by lia.
    pose proof (Z.pow_le_mono_r 2 1 e ltac:(lia) ltac:(lia)). lia || nia. }
  rewrite (Z.max_l 0 e), (Z.max_r 0 (- e)) in * by lia. change (2 ^ 0) with 1 in *. set (s := 2 ^ (- e)) in *.
  assert (0 < s) by (apply Z.pow_pos_nonneg; lia).
  destruct (round_half_even_spec (100 * m * 1) s ltac:(lia) ltac:(lia)) as [H3 H4]. set (h := round_half_even _ s) in *.
  apply (Z.mul_le_mono_pos_r _ _ s); [done|]. 
  assert (Hx : Z.abs (2 * s * (h * scale - 100 * n)) <= s * scale + 100 * scale) by (revert H1 H4; clear; nia). nia.
Qed.

Lemma double_of_int_bound z : Z.abs (double_of_int z) <= 2 * Z.abs z.
Proof.
  unfold double_of_int. destruct (Z.leb_spec (Z.log2 (Z.abs z) - 52) 0) as [|H]; [lia|]. set (k := _ - 52) in *.
  assert (Hz : 0 < Z.abs z) by (destruct (decide (z = 0)) as [Hz|]; [unfold k in H; rewrite Hz in H; by vm_compute in H|lia]).
  pose proof (Z.log2_spec (Z.abs z) Hz) as [Hl _]. assert (Hk : 2 ^ k <= Z.abs z).
  { transitivity (2 ^ Z.log2 (Z.abs z)); [|done]. apply Z.pow_le_mono_r; lia. }
  assert (0 < 2 ^ k) by (apply Z.pow_pos_nonneg; lia).
  destruct (round_half_even_spec (Z.abs z) (2 ^ k) ltac:(lia) ltac:(lia)) as [H1 H2].
  rewrite Z.abs_mul, (Z.abs_eq (_ * _)) by nia. assert (Z.abs (Z.sgn z) = 1) as -> by lia. lia.
Qed.

Lemma hundredths_bound data scale : 0 < scale -> 0 <= hundredths data scale <= 400 * Z.abs data + 1.
Proof.
  intros Hs. pose proof (double_of_int_bound data) as Hb. destruct (decide (double_of_int data = 0)) as [E|Hne].
  { unfold hundredths. rewrite E. pose proof (hundredths_0 scale Hs) as H0. unfold hundredths in H0.
    change (double_of_int 0) with 0 in H0. rewrite H0. lia. }
  unfold hundredths. set (n := Z.abs (double_of_int data)) in *. destruct (double_div n scale) as [m e] eqn:E.
  destruct (double_div_spec n scale m e ltac:(lia) Hs E) as (Hm & H1 & H2).
  pose proof (pow2_max e) as P1. pose proof (pow2_max (- e)) as P2. set (x := 2 ^ Z.max 0 e) in *. set (s := 2 ^ Z.max 0 (- e)) in *.
  destruct (round_half_even_spec (100 * m * x) s ltac:(nia) ltac:(lia)) as [H3 H4]. set (h := round_half_even _ s) in *.
  assert (Hmx : m * x <= 2 * (n * s)) by nia. assert (h * s <= (200 * n + 1) * s) by nia. split; [done|]. nia.
Qed.

Lemma digits_at_most fuel n k : (1 <= k)%nat -> 0 <= n < 10 ^ Z.of_nat k -> (length (digits fuel n) <= k)%nat.
Proof.
  revert n k. induction fuel as [|fuel IH]; intros n k Hk Hn; cbn [digits length]; [lia|]. rewrite length_app. cbn [length].
  destruct (Z.ltb_spec n 10); [cbn; lia|]. destruct k as [|[|k]]; [lia|cbn in Hn; lia|].
  assert (length (digits fuel (n / 10)) <= S k)%nat; [|lia]. apply IH; [lia|]. rewrite Nat2Z.inj_succ, Z.pow_succ_r in Hn by lia.
  split; [apply Z.div_pos; lia|apply Z.div_lt_upper_bound; lia].
Qed.

Lemma print_nat_length n k : (1 <= k)%nat -> 0 <= n < 10 ^ Z.of_nat k -> (length (print_nat n) <= k)%nat.
Proof. apply digits_at_most. Qed.

(** The digits are those of the number. *)
Lemma print_nat_digits n : 0 < n -> take_digits 10 0 (print_nat n) = (n, []).
Proof.
  intros Hn. apply (digits_spec (S (Z.to_nat (Z.log2 n)))). split; [done|]. pose proof (Z.log2_spec n Hn) as [_ H].
  pose proof (Z.log2_nonneg n). rewrite Nat2Z.inj_succ, Z2Nat.id by lia. eapply Z.lt_le_trans; [exact H|]. apply Z.pow_le_mono_l. lia.
Qed.

Lemma sign_length (z : Z) : (length (if (z <? 0)%Z then cs "-" else []) <= 1)%nat.
Proof. destruct (z <? 0)%Z; cbn; lia. Qed.

Lemma printf_2f_length data scale : in_s 64 data -> 0 < scale -> (length (printf_2f data scale) <= 24)%nat.
Proof.
  intros Hd Hs. unfold in_s in Hd. change (2 ^ (64 - 1)) with 9223372036854775808 in Hd. pose proof (hundredths_bound data scale Hs) as Hh. unfold printf_2f. rewrite !length_app.
  pose proof (sign_length data). assert (length (print_nat (hundredths data scale / 100)) <= 20)%nat; [|change (length (cs ".")) with 1%nat; cbn [length]; lia].
  apply print_nat_length; [lia|]. split; [apply Z.div_pos; lia|]. apply Z.div_lt_upper_bound; [lia|]. change (10 ^ Z.of_nat 20) with 100000000000000000000. lia.
Qed.

(** ** The buffer *)

Definition labels_short (p : profile) : Prop := forall i l, label_storage p !! i = Some l -> (length l <= MAX_LABEL_LEN - 1)%nat.

Lemma padl_length w s : length (padl w s) = Nat.max w (length s).
Proof. unfold padl. rewrite length_app, length_replicate. lia. Qed.

Lemma concat_length (l : list cstr) k : Forall (fun c => (length c <= k)%nat) l -> (length (concat l) <= length l * k)%nat.
Proof. induction 1; cbn; [done|]. rewrite length_app. lia. Qed.

Lemma header_names_spec mask : (length (header_names mask) <= 5)%nat /\ Forall (fun c => (length c <= 8)%nat) (header_names mask).
Proof.
  unfold header_names. repeat match goal with |- context [if ?b then _ else _] => destruct b end; cbn; split; try lia;
    repeat constructor; cbn; lia.
Qed.

Lemma header_fits mask w : (w <= MAX_LABEL_LEN - 1)%nat -> in_buffer (format_header_line mask w) = Some (format_header_line mask w).
Proof.
  intros Hw. unfold in_buffer. enough (length (format_header_line mask w) <= STR_SIZE)%nat as ->%Nat.leb_le by done.
  unfold format_header_line. set (h := padl w [] ++ _). assert (Hh : (length h <= 63 + 2 + 5 * 13)%nat).
  { unfold h. rewrite !length_app, padl_length. destruct (header_names_spec mask) as [Hl Hn].
    pose proof (concat_length (header_cell <$> header_names mask) 13) as Hc. rewrite length_fmap in Hc.
    cut (length (concat (header_cell <$> header_names mask)) <= length (header_names mask) * 13)%nat; [unfold MAX_LABEL_LEN in Hw; cbn [length cs list_ascii_of_string] in *; lia|].
    apply Hc, Forall_fmap. eapply Forall_impl; [exact Hn|]. intros c Hc'. change (length (header_cell c) <= 13)%nat. unfold header_cell. rewrite !length_app, !padl_length.
    unfold VALUESTR_LEN, UNITSTR_LEN. cbn [length cs list_ascii_of_string] in *. lia. }
  rewrite !length_app, length_replicate. unfold STR_SIZE. cbn. lia.
Qed.

Lemma value_cell_total u v : (u < 4)%nat -> in_s 64 v -> exists c, value_cell u v = Some c /\ (length c <= 29)%nat.
Proof.
  intros Hu Hv. unfold value_cell.
  assert (exists x n, unit_list !! u = Some x /\ unit_names !! u = Some n /\ 0 < x.1 /\ (length n <= 2)%nat) as (x & n & -> & -> & Hx & Hn).
  { destruct u as [|[|[|[|u]]]]; [..|lia]; do 2 eexists; (split; [reflexivity|]); (split; [reflexivity|]); cbn; lia. }
  cbn [mbind option_bind]. eexists. split; [reflexivity|]. rewrite !length_app, !padl_length. pose proof (printf_2f_length v x.1 Hv Hx).
  unfold VALUESTR_LEN, UNITSTR_LEN. cbn [length cs list_ascii_of_string]. lia.
Qed.

Lemma cells_total u vs : (u < 4)%nat -> Forall (in_s 64) vs ->
  exists cells, mapM (value_cell u) vs = Some cells /\ length cells = length vs /\ Forall (fun c => (length c <= 29)%nat) cells.
Proof.
  intros Hu. induction 1 as [|v vs Hv Hvs (cells & E & Hl & Hc)]; cbn; [by exists []|].
  destruct (value_cell_total u v Hu Hv) as (c & -> & Hlc). cbn [mbind option_bind]. rewrite E. cbn. eexists. split; [reflexivity|].
  split; [cbn; lia|by constructor].
Qed.

(** ** The table *)

Lemma label_length p v l : labels_short p -> (v < 15)%nat -> line_label p v = Some l -> (length l <= 63)%nat.
Proof.
  intros Hs Hv. unfold line_label. destruct (labels p !! S v) as [b|]; [|done]. cbn. destruct b.
  - intros H%Hs. exact H.
  - intros [= <-]. unfold printf_int. etransitivity; [apply (digits_at_most 10 _ 2); cbn; lia|lia].
Qed.

Lemma label_total p v : wf p -> (v < 15)%nat -> exists l, line_label p v = Some l.
Proof.
  intros Hp Hv. pose proof (wf_labels p Hp) as Hl. pose proof (wf_storage p Hp) as Hst. unfold NUM_TS_MAX in *. unfold line_label.
  destruct (lookup_lt_is_Some_2 (labels p) (S v)) as [b ->]; [lia|]. cbn.
  destruct (lookup_lt_is_Some_2 (label_storage p) (S v)) as [x ->]; [lia|]. destruct b; eauto.
Qed.

(** The columns, of one number for each point. *)
Definition columns_ok (n : nat) (data : list (list Z)) : Prop :=
  (length data <= 5)%nat /\ Forall (fun col => length col = n /\ Forall (in_s 64) col) data.

Lemma column_values n data v :
  columns_ok n data -> (v < n)%nat -> exists vs, mapM (fun col => col !! v) data = Some vs /\ length vs = length data /\ Forall (in_s 64) vs.
Proof.
  intros [_ Hd] Hv. induction Hd as [|col data [Hl Hc] _ (vs & E & Hlen & Hvs)]; [by exists []|]. cbn.
  destruct (lookup_lt_is_Some_2 col v) as [x Hx]; [lia|]. rewrite Hx. cbn. rewrite E. cbn. eexists. split; [reflexivity|]. split; [cbn; lia|].
  apply Forall_cons. split; [exact (Forall_lookup_1 _ _ _ _ Hc Hx)|exact Hvs].
Qed.

Lemma result_fits p data v u w :
  wf p -> labels_short p -> columns_ok (num_ts p - 1) data -> (u < 4)%nat -> (w <= 63)%nat -> (v < num_ts p - 1)%nat ->
  exists line, format_result_line p data v u w = Some line /\ in_buffer line = Some line.
Proof.
  intros Hp Hs Hd Hu Hw Hv. pose proof (wf_num p Hp) as Hn. unfold NUM_TS_MAX in Hn. unfold format_result_line.
  destruct (label_total p v Hp ltac:(lia)) as [l El]. pose proof (label_length p v l Hs ltac:(lia) El) as Hl. rewrite El. cbn [mbind option_bind].
  destruct (column_values _ data v Hd Hv) as (vs & -> & Hlv & Hvs). cbn [mbind option_bind].
  destruct (cells_total u vs Hu Hvs) as (cells & -> & Hlc & Hc). cbn [mbind option_bind]. eexists. split; [reflexivity|].
  apply concat_length in Hc. destruct Hd as [Hd _]. unfold in_buffer.
  enough (length (padl w l ++ cs " |" ++ concat cells ++ newline) <= STR_SIZE)%nat as ->%Nat.leb_le by done.
  rewrite !length_app, padl_length. unfold STR_SIZE. cbn [length cs list_ascii_of_string newline]. nia.
Qed.

Lemma overhead_fits p : in_s 64 (toc_overhead p) -> in_buffer (overhead_line p) = Some (overhead_line p).
Proof.
  intros Ho. unfold in_s in Ho. change (2 ^ (64 - 1)) with 9223372036854775808 in Ho. unfold in_buffer. enough (length (overhead_line p) <= STR_SIZE)%nat as ->%Nat.leb_le by done.
  unfold overhead_line, printf_li. rewrite !length_app. pose proof (sign_length (toc_overhead p)).
  pose proof (print_nat_length (Z.abs (toc_overhead p)) 20 ltac:(lia)) as Hx. change (10 ^ Z.of_nat 20) with 100000000000000000000 in Hx. specialize (Hx ltac:(lia)). unfold STR_SIZE. cbn in *. lia.
Qed.

Lemma unit_bound data mask : (get_display_unit data mask < 4)%nat.
Proof.
  unfold get_display_unit. destruct (forced_unit unit_list mask 0) as [i|] eqn:E.
  - revert E. cbn. repeat case_match; intros; simplify_eq; lia.
  - cbn. repeat case_match; lia.
Qed.

Lemma width_bound p : (max_label_len p <= 63)%nat.
Proof. unfold max_label_len, MAX_LABEL_LEN. lia. Qed.

(** What the lines of the table are, without the buffer. *)
Definition line_text (mask : Z) (p : profile) (data : list (list Z)) (i : nat) : cstr :=
  match i with
  | O => format_header_line mask (max_label_len p)
  | S v => default [] (format_result_line p data v (get_display_unit (concat data) mask) (max_label_len p))
  end.

Definition table_text (mask : Z) (p : profile) (data : list (list Z)) : cstr :=
  concat (line_text mask p data <$> seq 0 (num_ts p)) ++ overhead_line p.

Lemma table_line_text mask p data i :
  wf p -> labels_short p -> columns_ok (num_ts p - 1) data -> (i < num_ts p)%nat ->
  table_line mask p data (get_display_unit (concat data) mask) (max_label_len p) i = Some (line_text mask p data i).
Proof.
  intros Hp Hs Hd Hi. pose proof (width_bound p) as Hw. unfold table_line, line_text. destruct i as [|v].
  - cbn [mbind option_bind]. by apply header_fits.
  - destruct (result_fits p data v (get_display_unit (concat data) mask) (max_label_len p) Hp Hs Hd (unit_bound _ _) Hw ltac:(lia)) as (l & -> & E).
    exact E.
Qed.

(** ** Writes of the table *)

Lemma bind_option {S A B} (a : A) (f : A -> ST S B) s : (st_option (Some a) ≫= f) s = f a s.
Proof. done. Qed.

Section Written.

Context {OS : Type} (mm_write : cstr -> ST OS (option nat)) (inv : OS -> Prop) (out : OS -> cstr).

(** A write writes a byte at least of a buffer that is not empty, or fails. *)
Context (Hwrite : forall s buf, inv s -> buf <> [] -> exists r s', mm_write buf s = Some (r, s') /\ inv s' /\
  match r with Some n => (0 < n <= length buf)%nat /\ out s' = out s ++ take n buf | None => out s' = out s end).

#[local] Instance write_streams : Streams (mret (Some [])) mm_write inv (fun _ => []) out.
Proof.
  split.
  - intros s Hi. by exists (Some []), s.
  - intros s buf Hi Hb. destruct (Hwrite s buf Hi Hb) as (r & s' & E & Hi' & Hr). by exists r, s'.
Qed.

(** All of the buffer is written, or it fails after a part of it. *)
Lemma full_mm_write_spec buf s :
  inv s -> exists rv s', full_mm_write mm_write (length buf) buf s = Some (rv, s') /\ inv s' /\
    exists k, out s' = out s ++ take k buf /\ (rv = 0 /\ (length buf <= k)%nat \/ rv = -1).
Proof.
  intros Hi. destruct (write_chunks_spec (mret (Some [])) mm_write inv (fun _ => []) out (length buf) buf s Hi) as (ok & s' & E & Hi' & _ & k & Hk & Hok); [lia|].
  unfold full_mm_write. rewrite (st_bind_Some _ _ _ _ _ E). exists (if ok then 0 else -1), s'. split_and!; [done|done|].
  exists k. split; [done|]. destruct ok; [left; auto|by right].
Qed.

Lemma print_lines_spec line text l s :
  inv s -> (forall i, i ∈ l -> line i = Some (text i)) ->
  exists rv s', print_lines mm_write l line s = Some (rv, s') /\ inv s' /\
    exists k, out s' = out s ++ take k (concat (text <$> l)) /\ (rv = 0 /\ (length (concat (text <$> l)) <= k)%nat \/ rv = -1).
Proof.
  revert s. induction l as [|i l IH]; intros s Hi Hl; cbn [print_lines].
  { exists 0, s. split_and!; [done|done|]. exists 0%nat. split; [by rewrite app_nil_r|by left]. }
  rewrite (Hl i) by left. rewrite bind_option.
  destruct (full_mm_write_spec (text i) s Hi) as (rv & s1 & E1 & Hi1 & k & Hk & Hrv). rewrite (st_bind_Some _ _ _ _ _ E1).
  destruct Hrv as [[-> Hlen]| ->].
  - cbn [Z.eqb]. destruct (IH s1 Hi1) as (rv & s2 & E2 & Hi2 & k2 & Hk2 & Hrv2); [intros j Hj; apply Hl; by right|].
    exists rv, s2. split_and!; [done|done|]. exists (length (text i) + k2)%nat. cbn [fmap list_fmap concat]. split.
    + rewrite Hk2, Hk, <- app_assoc, (take_ge (text i)) by done. by rewrite take_app_add.
    + rewrite length_app. destruct Hrv2 as [[-> H]| ->]; [left; split; [done|lia]|by right].
  - exists (-1), s1. split_and!; [done|done|]. exists (Nat.min k (length (text i))). cbn [fmap list_fmap concat]. split; [|by right].
    rewrite take_app_le by lia. rewrite Hk. f_equal. destruct (le_lt_dec k (length (text i))); [by rewrite Nat.min_l|].
    rewrite Nat.min_r by lia. by rewrite !take_ge by lia.
Qed.

End Written.

(** ** Labels that fit their storage *)

Lemma update_from_storage n : forall i p p', update_from n i p = Some p' -> label_storage p' = label_storage p.
Proof.
  induction n as [|n IH]; intros i p p' H; cbn in H; [by simplify_eq|].
  destruct (get_diff_ts p i); [|done]. cbn in H. destruct (stats p !! i); [|done]. cbn in H. apply IH in H. exact H.
Qed.

Lemma local_toc_storage now p p' : local_toc now p = Some p' -> label_storage p' = label_storage p.
Proof. unfold local_toc. repeat case_match; intros; by simplify_eq. Qed.

Lemma print_data_storage mask p p' data u :
  mm_profile_print_data mask p = Some (p', data, u) ->
  label_storage p' = label_storage p /\ u = get_display_unit (concat data) mask /\ update_diffs p = Some p'
  /\ compute_requested_timings mask (num_ts p' - 1) p' = Some data.
Proof.
  unfold mm_profile_print_data, update_diffs. destruct (update_from _ 1 p) as [q|] eqn:E; [|done]. cbn.
  destruct (compute_requested_timings mask (num_ts q - 1) q) as [d|] eqn:Ed; [|done]. cbn. intros [= <- <- <-].
  by rewrite (update_from_storage _ _ _ _ E).
Qed.

(** Whatever is measured, the labels fit. *)
Lemma labels_short_call c p p' : labels_short p -> do_call c p = Some p' -> labels_short p'.
Proof.
  intros Hs. destruct c as [t|t|l t|mask]; cbn [do_call].
  - unfold mm_tic, update_diffs. destruct (update_from _ 1 p) as [q|] eqn:E; [|done]. cbn [mbind option_bind]. intros H%local_toc_storage.
    apply update_from_storage in E. intros i x. rewrite H. cbn. rewrite E. apply Hs.
  - intros H%local_toc_storage. intros i x. rewrite H. apply Hs.
  - unfold mm_toc_label. destruct (labels p !! next_ts p) as [b|]; [|done]. cbn [mbind option_bind]. intros H%local_toc_storage. intros i x. rewrite H.
    destruct b; [apply Hs|]. cbn. intros [(<- & <- & _)|[_ Hx]]%list_lookup_insert_Some; [|by eapply Hs].
    rewrite length_take. lia.
  - destruct (mm_profile_print_data mask p) as [[[q d] u]|] eqn:E; [|done]. cbn. intros [= <-].
    destruct (print_data_storage _ _ _ _ _ E) as (H & _). intros i x. rewrite H. apply Hs.
Qed.

Lemma when_columns n b c ll :
  when b c = Some ll -> (forall l, c = Some l -> length l = n) -> (length ll <= 1)%nat /\ Forall (fun l => length l = n) ll.
Proof.
  unfold when. intros H Hc. destruct b; [|simplify_eq; split; [cbn; lia|done]]. destruct c as [l|]; [|done]. cbn in H. simplify_eq.
  split; [cbn; lia|]. apply Forall_singleton. by apply Hc.
Qed.

Lemma column_length p n f l : column p n f = Some l -> length l = n.
Proof. intros H%length_mapM. by rewrite <- H, length_seq. Qed.

Lemma timings_columns mask n p data :
  compute_requested_timings mask n p = Some data -> (length data <= 5)%nat /\ Forall (fun l => length l = n) data.
Proof.
  unfold compute_requested_timings.
  repeat match goal with |- context [when ?b ?c ≫= _] =>
    let E := fresh "E" in let H := fresh "H" in
    destruct (when b c) eqn:E; [|done]; apply (when_columns n) in E as [E H]; [|apply column_length]; cbn [mbind option_bind] end.
  intros [= <-]. rewrite !length_app. split; [lia|]. by rewrite !Forall_app.
Qed.

(** What is printed, for the data of [mm_profile_print_data]. *)
Lemma print_data_ok mask p p' data u :
  wf p -> labels_short p -> mm_profile_print_data mask p = Some (p', data, u) -> Forall (Forall (in_s 64)) data ->
  wf p' /\ labels_short p' /\ columns_ok (num_ts p' - 1) data /\ u = get_display_unit (concat data) mask /\ toc_overhead p' = toc_overhead p.
Proof.
  intros Hp Hs H Hd. destruct (print_data_storage _ _ _ _ _ H) as (Hl & -> & Hu & Ht). destruct (update_diffs_spec p Hp) as (st & Hst & Hlen & _).
  rewrite Hst in Hu. injection Hu as <-. destruct (timings_columns _ _ _ _ Ht) as [H5 Hc]. split_and!; try done.
  - by apply set_stats_wf.
  - split; [done|]. apply Forall_and. by split.
Qed.

Section Table.

Context {OS : Type} (mm_write : cstr -> ST OS (option nat)) (inv : OS -> Prop) (out : OS -> cstr).
Context (Hwrite : forall s buf, inv s -> buf <> [] -> exists r s', mm_write buf s = Some (r, s') /\ inv s' /\
  match r with Some n => (0 < n <= length buf)%nat /\ out s' = out s ++ take n buf | None => out s' = out s end).

(** C38. [mm_profile_print] returns, whatever the writes do, with the table written in full and 0, or after a failed write with a part of the table
    from its start and -1; no line of the table overflows the buffer of 512 characters, for any labels, any choice of columns and any values of 64 bits. *)
Theorem profile_printed mask p p' data u s :
  wf p -> labels_short p -> in_s 64 (toc_overhead p) -> inv s ->
  mm_profile_print_data mask p = Some (p', data, u) -> Forall (Forall (in_s 64)) data ->
  exists rv s', mm_profile_print mm_write mask p s = Some ((rv, p'), s') /\ inv s' /\
    exists k, out s' = out s ++ take k (table_text mask p' data) /\ (rv = 0 /\ (length (table_text mask p' data) <= k)%nat \/ rv = -1).
Proof.
  intros Hp Hs Ho Hi H Hd. destruct (print_data_ok _ _ _ _ _ Hp Hs H Hd) as (Hp' & Hs' & Hc & -> & Ho'). unfold mm_profile_print. rewrite H, bind_option.
  destruct (print_lines_spec mm_write inv out Hwrite (table_line mask p' data (get_display_unit (concat data) mask) (max_label_len p'))
    (line_text mask p' data) (seq 0 (num_ts p')) s Hi) as (rv & s1 & E1 & Hi1 & k & Hk & Hrv).
  { intros i [_ Hlt]%elem_of_seq. by apply table_line_text. }
  rewrite (st_bind_Some _ _ _ _ _ E1). set (lines := concat (line_text mask p' data <$> seq 0 (num_ts p'))) in *.
  destruct Hrv as [[-> Hlen]| ->]; cbn [Z.eqb negb].
  - rewrite overhead_fits by by rewrite Ho'. rewrite bind_option.
    destruct (full_mm_write_spec mm_write inv out Hwrite (overhead_line p') s1 Hi1) as (rv & s2 & E2 & Hi2 & k2 & Hk2 & Hrv2).
    rewrite (st_bind_Some _ _ _ _ _ E2). exists rv, s2. split_and!; [done|done|]. exists (length lines + k2)%nat. unfold table_text. fold lines. split.
    + rewrite Hk2, Hk, <- app_assoc, (take_ge lines) by done. by rewrite take_app_add.
    + rewrite length_app. destruct Hrv2 as [[-> Hl2]| ->]; [left; split; [done|lia]|by right].
  - exists (-1), s1. split_and!; [done|done|]. exists (Nat.min k (length lines)). split; [|by right]. unfold table_text. fold lines.
    rewrite take_app_le by lia. rewrite Hk. f_equal. destruct (le_lt_dec k (length lines)); [by rewrite Nat.min_l|].
    rewrite Nat.min_r by lia. by rewrite !take_ge by lia.
Qed.

End Table.

(** ** A table *)

Module ReportDemo.

(** A descriptor that takes seven bytes at a time. *)
Definition write7 (buf : cstr) : ST cstr (option nat) := fun s => Some (Some (Nat.min 7 (length buf)), s ++ take 7 buf).

Lemma write7_writes s buf : True -> buf <> [] -> exists r s', write7 buf s = Some (r, s') /\ True /\
  match r with Some n => (0 < n <= length buf)%nat /\ s' = s ++ take n buf | None => s' = s end.
Proof.
  intros _ Hb. do 2 eexists. split; [reflexivity|]. split; [done|]. split; [destruct buf; [done|cbn [length]; lia]|].
  f_equal. destruct (le_lt_dec 7 (length buf)); [by rewrite Nat.min_l|rewrite Nat.min_r by lia]. by rewrite !take_ge by lia.
Qed.

(** One that takes ten bytes in all. *)
Definition write_full (buf : cstr) : ST cstr (option nat) := fun s =>
  let n := Nat.min (10 - length s) (length buf) in
  if (n =? 0)%nat then Some (None, s) else Some (Some n, s ++ take n buf).

Definition calls : list call := [Tic (mk_ts 1 0); TocLabel (cs "read") (mk_ts 1 2500000); Toc (mk_ts 1 3750000)].
Definition mask : Z := PROF_CURR + PROF_MIN.

Definition lines (l : list string) : cstr := concat ((fun s => cs s ++ newline) <$> l).

Example printed :
  (p ← do_calls calls startup; r ← mm_profile_print write7 mask p []; Some (r.1.1, r.2))
  = Some (0, lines ["     | current    |     min    |"; "--------------------------------";
                    "read | 2500.00 us |    0.00 us |"; "   2 | 1250.00 us |    0.00 us |"; "toc overhead = 0 ns"]).
Proof. vm_compute. reflexivity. Qed.

Example partly_printed :
  (p ← do_calls calls startup; r ← mm_profile_print write_full mask p []; Some (r.1.1, r.2)) = Some (-1, cs "     | cur").
Proof. vm_compute. reflexivity. Qed.

End ReportDemo.

Lemma profile_printed_witness : exists p p' data u,
  do_calls ReportDemo.calls startup = Some p /\ mm_profile_print_data ReportDemo.mask p = Some (p', data, u) /\
  exists rv s', mm_profile_print ReportDemo.write7 ReportDemo.mask p [] = Some ((rv, p'), s') /\
    exists k, s' = [] ++ take k (table_text ReportDemo.mask p' data).
Proof.
  assert (exists p p' data u, do_calls ReportDemo.calls startup = Some p /\ mm_profile_print_data ReportDemo.mask p = Some (p', data, u)
    /\ wf p /\ labels_short p /\ in_s 64 (toc_overhead p) /\ Forall (Forall (in_s 64)) data) as (p & p' & data & u & E1 & E2 & Hp & Hs & Ho & Hd).
  { do 4 eexists. split; [vm_compute; reflexivity|]. split; [vm_compute; reflexivity|]. split; [|split; [|split; [|repeat constructor; vm_compute; done]]].
    - constructor; vm_compute; try reflexivity; lia.
    - intros i l H. vm_compute in H. do 16 (destruct i as [|i]; [injection H as <-; vm_compute; lia|]). done.
    - vm_compute. done. }
  exists p, p', data, u. split; [done|]. split; [done|].
  destruct (profile_printed ReportDemo.write7 (fun _ => True) (fun s => s) ReportDemo.write7_writes ReportDemo.mask p p' data u [] Hp Hs Ho I E2 Hd)
    as (rv & s' & E & _ & k & Hk & _).
  exists rv, s'. split; [exact E|]. by exists k.
Defined.
