(* ===== verification/CompletePath.v ===== *)
(** * Completion of paths

    [mm_arg_complete_path] and [mm_arg_is_completing] of [argparse.c]: the completion of an argument as a path, over the folders of the system, and the
    errors printed for an option.  The functions on folders, the standard output and the allocation are the class [CompletionOs]. *)

From S2P Require Import Prelude CStr Effects Utils Argparse File.

(** ** Messages *)

(** The names of the types of the values, in the order of the table. *)
Definition typenames : list (Z * cstr) :=
  [(MM_OPT_STR, cs "string"); (MM_OPT_INT, cs "int"); (MM_OPT_LLONG, cs "long long"); (MM_OPT_UINT, cs "unsigned int");
   (MM_OPT_ULLONG, cs "unsigned long long")].

Definition get_value_type_name (type : Z) : cstr :=
  match List.find (fun t => t.1 =? type) typenames with Some t => t.2 | None => cs "unknown" end.

(** What is printed on the standard error. *)
Definition print_opt_error (opt : mm_arg_opt) (msg : cstr) : option cstr :=
  name ← mm_arg_opt_get_name opt; key ← mm_arg_opt_get_key opt;
  let c := [ascii_of_N (Z.to_N key)] in
  let prefix :=
    match name with
    | Some name => if key =? 0 then cs "Option --" ++ name ++ cs " " else cs "Option -" ++ c ++ cs "|--" ++ name ++ cs " "
    | None => cs "Option -" ++ c ++ cs " "
    end in
  Some (prefix ++ msg ++ ["010"%char]).

Example option_errors :
  print_opt_error (mk_opt (Some (cs "n|number")) 0 None false None) (cs "needs value.") = Some (cs "Option -n|--number needs value." ++ ["010"%char])
  /\ print_opt_error (mk_opt (Some (cs "q")) 0 None false None) (cs "needs value.") = Some (cs "Option -q needs value." ++ ["010"%char])
  /\ get_value_type_name MM_OPT_UINT = cs "unsigned int".
Proof. repeat split; reflexivity. Qed.

(** ** The request of a completion *)

(** The static variable [is_completing] is negative before the first call. *)
Definition mm_arg_is_completing (env : environ) (is_completing : Z) : Z * Z :=
  if 0 <=? is_completing then (is_completing, is_completing)
  else let r := match mm_getenv env (cs "MMLIB_CMD_COMPLETION") None with Some _ => 1 | None => 0 end in (r, r).

(** ** Paths *)

Class CompletionOs (OS : Type) := {
  win32 : bool;
  malloca : nat -> OS -> bool * OS;
  mm_opendir : cstr -> OS -> option Z * OS;
  mm_readdir : Z -> OS -> option (cstr * Z) * OS;     (* name and type of the next entry *)
  mm_closedir : Z -> OS -> OS;
  printf : cstr -> OS -> OS;
  raise_einval : OS -> OS
}.

Section Complete.

Context {OS : Type} `{!CompletionOs OS}.

Abbreviation M := (ST OS).
Abbreviation sep := (is_path_separator win32).

(** A string written in a buffer: it is undefined that it does not fit. *)
Definition fits (size : nat) (s : cstr) : option cstr := if (length s <? size)%nat then Some s else None.

(** The folder and the beginning of the names. *)
Definition split_arg (arg : cstr) : option (cstr * cstr) :=
  let arglen := length arg in
  if (match last arg with None => true | Some c => sep c end) then
    dirpath ← fits (arglen + 2) (match arg with [] => cs "./" | _ => arg end);
    base ← fits (arglen + 1) [];
    Some (dirpath, base)
  else
    dirpath ← fits (arglen + 2) (mm_dirname win32 (Some arg) ++ cs "/");
    base ← fits (arglen + 1) (mm_basename win32 (Some arg));
    Some (dirpath, base).

(** The callback gets the name, the folder and the type. *)
Definition callback : Type := option (cstr -> cstr -> Z -> OS -> Z * OS).

Definition show (disp_dir name : cstr) (type : Z) : cstr :=
  disp_dir ++ name ++ (if Z.land type MM_DT_DIR =? 0 then [] else cs "/") ++ ["010"%char].

Definition complete_entry (dirpath base disp_dir : cstr) (type_mask : Z) (cb : callback) (name : cstr) (type : Z) : M unit :=
  if negb (starts_with base name) || is_wildcard_directory name then mret tt
  else
    keep ← match cb with None => mret 1 | Some cb => st_call (cb name dirpath type) end;
    if negb (keep =? 1) then mret tt
    else if Z.land type type_mask =? 0 then mret tt
    else st_modify (printf (show disp_dir name type)).

Fixpoint complete_loop (fuel : nat) (dir : Z) (dirpath base disp_dir : cstr) (type_mask : Z) (cb : callback) : M unit :=
  match fuel with
  | O => st_ub
  | S fuel =>
      dirent ← st_call (mm_readdir dir);
      match dirent with
      | None => mret tt
      | Some (name, type) =>
          complete_entry dirpath base disp_dir type_mask cb name type;;
          complete_loop fuel dir dirpath base disp_dir type_mask cb
      end
  end.

Definition display_dir (arg dirpath : cstr) : cstr := if existsb sep arg then dirpath else [].

(** [fuel] bounds the number of the entries of the folder. *)
Definition mm_arg_complete_path (fuel : nat) (arg : option cstr) (type_mask : Z) (cb : callback) : M Z :=
  match arg with
  | None => st_modify raise_einval;; mret (-1)
  | Some arg =>
      ok1 ← st_call (malloca (length arg + 1));
      ok2 ← st_call (malloca (length arg + 2));
      if negb ok1 || negb ok2 then mret (-1)
      else
        '(dirpath, base) ← st_option (split_arg arg);
        dir ← st_call (mm_opendir dirpath);
        match dir with
        | None => mret (-1)
        | Some dir =>
            complete_loop fuel dir dirpath base (display_dir arg dirpath) type_mask cb;;
            st_modify (mm_closedir dir);;
            mret 0
        end
  end.

End Complete.

(** ** The strings fit their buffers *)

Lemma basename_length w path : (length (mm_basename w (Some path)) <= Nat.max 1 (length path))%nat.
Proof.
  unfold mm_basename, default, id, substr. destruct (_ <=? 0); [destruct path; [by vm_compute; lia|]|]; rewrite length_take, length_drop; cbn [length]; lia.
Qed.

Lemma dirname_length w path : (length (mm_dirname w (Some path)) <= Nat.max 1 (length path))%nat.
Proof.
  unfold mm_dirname, default, id, substr. destruct (Nat.eqb _ 0); [destruct (sep_at w path 0)|]; rewrite ?length_take, ?length_drop; cbn [length cs list_ascii_of_string]; lia.
Qed.

Section Laws.

Context {OS : Type} `{!CompletionOs OS}.

Abbreviation sep := (is_path_separator win32).

(** The empty argument is the only one whose folder does not fit. *)
Lemma split_arg_total arg : arg <> [] <-> exists dirpath base, split_arg arg = Some (dirpath, base).
Proof.
  split.
  - intros Hne. unfold split_arg. assert (0 < length arg)%nat by (destruct arg; [done|cbn; lia]).
    assert (F : forall n s, (length s < n)%nat -> fits n s = Some s) by (intros n s Hs; unfold fits; by rewrite (proj2 (Nat.ltb_lt _ _) Hs)).
    pose proof (basename_length win32 arg) as Hb. pose proof (dirname_length win32 arg) as Hd. destruct (match last arg with Some c => _ | None => _ end).
    + exists arg, []. destruct arg; [done|]. rewrite !F by (cbn [length] in *; lia). done.
    + do 2 eexists. rewrite !F by (rewrite ?length_app; cbn [length cs list_ascii_of_string]; lia). reflexivity.
  - intros (d & b & H) ->. done.
Qed.

(** What the entries of a folder are, what was printed, and what a callback answers. *)
Context (entries : cstr -> OS -> option (list (cstr * Z))) (pending : OS -> Z -> list (cstr * Z)) (shown : OS -> cstr).

Class CompletionLaws : Prop := {
  law_malloca n s : forall ok s', malloca n s = (ok, s') -> shown s' = shown s /\ forall p, entries p s' = entries p s;
  law_opendir p s : match mm_opendir p s, entries p s with
                    | (Some d, s'), Some es => shown s' = shown s /\ pending s' d = es
                    | (None, s'), None => shown s' = shown s
                    | _, _ => False
                    end;
  law_readdir d s : match mm_readdir d s, pending s d with
                    | (Some e, s'), e' :: es => e = e' /\ shown s' = shown s /\ pending s' d = es
                    | (None, s'), [] => shown s' = shown s
                    | _, _ => False
                    end;
  law_closedir d s : shown (mm_closedir d s) = shown s;
  law_printf x s : shown (printf x s) = shown s ++ x /\ forall d, pending (printf x s) d = pending s d
}.

Context {laws : CompletionLaws}.

(** A callback that answers [f] and leaves the folders and the output alone. *)
Definition cb_answers (cb : callback) (f : cstr -> cstr -> Z -> bool) : Prop :=
  match cb with
  | None => forall n p t, f n p t = true
  | Some cb => forall n p t s, exists r s', cb n p t s = (r, s') /\ (r =? 1) = f n p t /\ shown s' = shown s /\ forall d, pending s' d = pending s d
  end.

Definition wanted (f : cstr -> cstr -> Z -> bool) (dirpath base : cstr) (type_mask : Z) (e : cstr * Z) : bool :=
  starts_with base e.1 && negb (is_wildcard_directory e.1) && f e.1 dirpath e.2 && negb (Z.land e.2 type_mask =? 0).

Definition candidates (f : cstr -> cstr -> Z -> bool) (arg dirpath base : cstr) (type_mask : Z) (es : list (cstr * Z)) : cstr :=
  concat ((fun e => show (display_dir arg dirpath) e.1 e.2) <$> filter (fun e => wanted f dirpath base type_mask e = true) es).

Lemma complete_entry_spec dirpath base disp mask cb f name type s :
  cb_answers cb f ->
  exists s', complete_entry dirpath base disp mask cb name type s = Some (tt, s') /\ (forall d, pending s' d = pending s d) /\
    shown s' = shown s ++ if wanted f dirpath base mask (name, type) then show disp name type else [].
Proof.
  intros Hcb. unfold complete_entry, wanted. cbn [fst snd].
  destruct (starts_with base name) eqn:Eb; cbn [negb orb andb]. 2: { exists s. by rewrite app_nil_r. }
  destruct (is_wildcard_directory name); cbn [negb andb]. { exists s. by rewrite app_nil_r. }
  assert (exists r s1, (match cb with None => mret 1 | Some cb => st_call (cb name dirpath type) end) s = Some (r, s1)
    /\ (r =? 1) = f name dirpath type /\ shown s1 = shown s /\ forall d, pending s1 d = pending s d) as (r & s1 & E & Hr & Hs & Hp).
  { destruct cb as [cb|]; cbn in Hcb.
    - destruct (Hcb name dirpath type s) as (r & s1 & E & H1 & H2 & H3). exists r, s1. unfold st_call. by rewrite E.
    - exists 1, s. by rewrite Hcb. }
  rewrite (st_bind_Some _ _ _ _ _ E), Hr. destruct (f name dirpath type); cbn [negb andb].
  2: { exists s1. rewrite app_nil_r. by split_and!. }
  destruct (Z.land type mask =? 0); cbn [negb]. { exists s1. rewrite app_nil_r. by split_and!. }
  destruct (law_printf (show disp name type) s1) as [H1 H2]. eexists. split; [reflexivity|]. split; [intros d; by rewrite H2|]. by rewrite H1, Hs.
Qed.

Lemma complete_loop_spec arg dirpath base mask cb f dir es :
  cb_answers cb f -> forall fuel s, pending s dir = es -> (length es < fuel)%nat ->
  exists s', complete_loop fuel dir dirpath base (display_dir arg dirpath) mask cb s = Some (tt, s') /\
    shown s' = shown s ++ candidates f arg dirpath base mask es.
Proof.
  intros Hcb. induction es as [|[name type] es IH]; intros fuel s Hp Hf; (destruct fuel as [|fuel]; [cbn in Hf; lia|]); cbn [complete_loop].
  - pose proof (law_readdir dir s) as Hl. rewrite Hp in Hl. destruct (mm_readdir dir s) as [[e|] s1] eqn:E; [done|].
    exists s1. split; [|by rewrite app_nil_r]. unfold mbind, st_bind, st_call. by rewrite E.
  - pose proof (law_readdir dir s) as Hl. rewrite Hp in Hl. destruct (mm_readdir dir s) as [[e|] s1] eqn:E; [|done]. destruct Hl as (-> & H1 & H2).
    destruct (complete_entry_spec dirpath base (display_dir arg dirpath) mask cb f name type s1 Hcb) as (s2 & E2 & Hp2 & Hs2).
    destruct (IH fuel s2) as (s3 & E3 & Hs3); [by rewrite Hp2|cbn in Hf; lia|].
    exists s3. split.
    + assert (Ec : st_call (mm_readdir dir) s = Some (Some (name, type), s1)) by (unfold st_call; by rewrite E).
      rewrite (st_bind_Some _ _ _ _ _ Ec), (st_bind_Some _ _ _ _ _ E2). exact E3.
    + rewrite Hs3, Hs2, H1, <- app_assoc. f_equal. unfold candidates. rewrite filter_cons.
      destruct (wanted f dirpath base mask (name, type)); [by rewrite decide_True|by rewrite decide_False].
Qed.

(** ** Candidates extend the argument *)

Definition plain_arg (arg : cstr) : Prop :=
  (exists a c, arg = a ++ [c] /\ sep c = true)
  \/ component win32 arg
  \/ exists d x base, arg = (d ++ [x]) ++ cs "/" ++ base /\ sep x = false /\ component win32 base.

Lemma slash_sep : sep "/"%char = true.
Proof. unfold is_path_separator. by destruct win32. Qed.

Lemma parent_one_sep d x dir : sep x = false -> parent_of win32 ((d ++ [x]) ++ cs "/") dir -> dir = d ++ [x].
Proof.
  intros Hx [[H _]|[(_ & H & _)|(d' & x' & seps & H & Hx' & Hs & ->)]].
  - by destruct d.
  - apply Forall_app in H as [H _]. apply Forall_app in H as [_ H]. apply Forall_inv in H. congruence.
  - destruct seps as [|y seps _] using rev_ind.
    { apply app_inj_tail in H as [_ <-]. by rewrite slash_sep in Hx'. }
    change (d' ++ x' :: seps ++ [y]) with (d' ++ (x' :: seps) ++ [y]) in H. rewrite app_assoc in H. apply app_inj_tail in H as [H _].
    destruct seps as [|z seps _] using rev_ind; [done|].
    change (d' ++ x' :: seps ++ [z]) with (d' ++ (x' :: seps) ++ [z]) in H. rewrite app_assoc in H. apply app_inj_tail in H as [_ <-].
    apply Forall_app in Hs as [Hs _]. apply Forall_app in Hs as [_ Hs]. apply Forall_inv in Hs. congruence.
Qed.

Lemma last_component base c : component win32 base -> last base = Some c -> sep c = false.
Proof. intros [_ H] Hc. apply last_Some in Hc as [l ->]. apply Forall_app in H as [_ H]. by apply Forall_inv in H. Qed.

Lemma existsb_component base : component win32 base -> existsb sep base = false.
Proof. intros [_ H]. induction H as [|c l Hc _ IH]; cbn; [done|]. by rewrite Hc. Qed.

Lemma split_component pre base :
  cut win32 pre base [] -> forall r, split_arg (pre ++ base) = Some r -> r = (mm_dirname win32 (Some (pre ++ base)) ++ cs "/", base).
Proof.
  intros Hc r. pose proof (basename_cut win32 pre base [] Hc) as Hb. rewrite app_nil_r in Hb. unfold split_arg.
  destruct Hc as ([Hne Hcomp] & _ & _). destruct base as [|c l _] using rev_ind; [done|]. rewrite app_assoc, last_snoc, <- app_assoc.
  rewrite (last_component (l ++ [c]) c (conj Hne Hcomp) ltac:(by rewrite last_snoc)). rewrite Hb. unfold fits. repeat case_match; cbn; intros; by simplify_eq.
Qed.

Lemma candidate_extends arg dirpath base name :
  plain_arg arg -> split_arg arg = Some (dirpath, base) -> starts_with base name = true ->
  starts_with arg (display_dir arg dirpath ++ name) = true.
Proof.
  intros Ha Hs Hn. apply starts_with_spec in Hn as [r ->]. apply starts_with_spec. destruct Ha as [(a & c & -> & Hc)|[Ha|(d & x & b & -> & Hx & Hb)]].
  - unfold split_arg in Hs. rewrite last_snoc, Hc in Hs. assert (dirpath = a ++ [c] /\ base = []) as [-> ->].
    { revert Hs. destruct a; cbn [app]; unfold fits; repeat case_match; cbn; intros; by simplify_eq. }
    unfold display_dir. rewrite existsb_app. cbn. rewrite Hc, orb_true_r. by exists r.
  - assert (Hcut : cut win32 [] arg []) by (split; [done|split; [constructor|by left]]).
    apply (split_component [] arg Hcut) in Hs. injection Hs as -> ->. unfold display_dir. rewrite existsb_component by done. by exists r.
  - assert (Hcut : cut win32 ((d ++ [x]) ++ cs "/") b []).
    { split; [done|split; [constructor|right]]. exists (d ++ [x]), "/"%char. by rewrite slash_sep. }
    pose proof (dirname_cut win32 _ _ _ Hcut) as Hd. rewrite app_nil_r in Hd. apply parent_one_sep in Hd; [|done].
    rewrite app_assoc in Hs |- *. apply (split_component _ _ Hcut) in Hs. rewrite Hd in Hs. injection Hs as -> ->. exists r.
    unfold display_dir. rewrite !existsb_app. cbn [existsb cs list_ascii_of_string]. rewrite slash_sep. rewrite !orb_true_r. cbn [orb].
    by rewrite <- !app_assoc.
Qed.

(** The completion of an argument that is not empty as a path: it prints one line for each entry of the folder of the argument whose name starts with its
    last component, that is not ["."] or [".."], that the callback keeps and whose type is asked for, in the order of the folder, with a [/] after the folders; it
    fails, with nothing printed, only if the folder cannot be opened or the memory is exhausted.  Each candidate extends the argument when it has no
    separator, ends with one, or has one separator before its last component and something before it. *)
Theorem path_completions fuel arg type_mask cb f s :
  arg <> [] -> cb_answers cb f -> (forall p es, entries p s = Some es -> (length es < fuel)%nat) ->
  exists rv s' dirpath base, mm_arg_complete_path fuel (Some arg) type_mask cb s = Some (rv, s') /\ split_arg arg = Some (dirpath, base) /\
    (rv = -1 /\ shown s' = shown s
     \/ exists es, rv = 0 /\ entries dirpath s = Some es /\ shown s' = shown s ++ candidates f arg dirpath base type_mask es) /\
    (plain_arg arg -> forall name, starts_with base name = true -> starts_with arg (display_dir arg dirpath ++ name) = true).
Proof.
  intros Hne Hcb Hf. destruct (proj1 (split_arg_total arg) Hne) as (dirpath & base & Hsplit). unfold mm_arg_complete_path.
  destruct (malloca (length arg + 1) s) as [ok1 s1] eqn:E1. destruct (malloca (length arg + 2) s1) as [ok2 s2] eqn:E2.
  destruct (law_malloca _ _ _ _ E1) as [H1 H1']. destruct (law_malloca _ _ _ _ E2) as [H2 H2'].
  assert (F1 : st_call (malloca (length arg + 1)) s = Some (ok1, s1)) by (unfold st_call; by rewrite E1).
  assert (F2 : st_call (malloca (length arg + 2)) s1 = Some (ok2, s2)) by (unfold st_call; by rewrite E2).
  assert (Hext : plain_arg arg -> forall name, starts_with base name = true -> starts_with arg (display_dir arg dirpath ++ name) = true)
    by (intros ? ?; by apply candidate_extends).
  rewrite (st_bind_Some _ _ _ _ _ F1), (st_bind_Some _ _ _ _ _ F2).
  destruct (negb ok1 || negb ok2). { exists (-1), s2, dirpath, base. split_and!; [done|done| |done]. left. split; [done|congruence]. }
  rewrite Hsplit. assert (F3 : st_option (Some (dirpath, base)) s2 = Some ((dirpath, base), s2)) by done. rewrite (st_bind_Some _ _ _ _ _ F3).
  pose proof (law_opendir dirpath s2) as Ho. destruct (mm_opendir dirpath s2) as [[dir|] s3] eqn:E3.
  2: { assert (F4 : st_call (mm_opendir dirpath) s2 = Some (None, s3)) by (unfold st_call; by rewrite E3). rewrite (st_bind_Some _ _ _ _ _ F4).
       exists (-1), s3, dirpath, base. split_and!; [done|done| |done]. left. split; [done|]. destruct (entries dirpath s2); [done|congruence]. }
  assert (F4 : st_call (mm_opendir dirpath) s2 = Some (Some dir, s3)) by (unfold st_call; by rewrite E3). rewrite (st_bind_Some _ _ _ _ _ F4).
  rewrite H2', H1' in Ho. destruct (entries dirpath s) as [es|] eqn:Ees; [|done]. destruct Ho as [Ho1 Ho2].
  destruct (complete_loop_spec arg dirpath base type_mask cb f dir es Hcb fuel s3 Ho2 (Hf _ _ Ees)) as (s4 & E4 & Hs4).
  rewrite (st_bind_Some _ _ _ _ _ E4). exists 0, (mm_closedir dir s4), dirpath, base. split_and!; [done|done| |done].
  right. exists es. split_and!; [done|done|]. rewrite law_closedir, Hs4. congruence.
Qed.

End Laws.

(** ** A folder *)

Module CompletionDemo.

Record disk := mk_disk { folders : list (cstr * list (cstr * Z)); opened : option (list (cstr * Z)); output : cstr }.

#[global] Instance demo : CompletionOs disk := {
  win32 := false;
  malloca _ s := (true, s);
  mm_opendir p s := match List.find (fun f => bool_decide (f.1 = p)) (folders s) with
                    | Some f => (Some 0, mk_disk (folders s) (Some f.2) (output s))
                    | None => (None, s)
                    end;
  mm_readdir d s := match opened s with Some (e :: es) => (Some e, mk_disk (folders s) (Some es) (output s)) | _ => (None, s) end;
  mm_closedir _ s := s;
  printf x s := mk_disk (folders s) (opened s) (output s ++ x);
  raise_einval s := s
}.

Definition MM_DT_ANY : Z := MM_DT_DIR + MM_DT_REG.
Definition usr : list (cstr * Z) := [(cs ".", MM_DT_DIR); (cs "..", MM_DT_DIR); (cs "lib", MM_DT_DIR); (cs "lib32.txt", MM_DT_REG); (cs "bin", MM_DT_DIR)].
Definition disk0 : disk := mk_disk [(cs "./", usr); (cs "//", usr); (cs "usr/", usr); (cs "/usr/", usr)] None [].

Definition run (arg : string) (mask : Z) : option (Z * cstr) := '(rv, s) ← mm_arg_complete_path 10 (Some (cs arg)) mask None disk0; Some (rv, output s).
Definition lines (l : list string) : cstr := concat ((fun s => cs s ++ ["010"%char]) <$> l).

Example names : run "li" MM_DT_ANY = Some (0, lines ["lib/"; "lib32.txt"]) /\ run "usr/l" MM_DT_DIR = Some (0, lines ["usr/lib/"])
  /\ run "/usr/" MM_DT_ANY = Some (0, lines ["/usr/lib/"; "/usr/lib32.txt"; "/usr/bin/"]) /\ run "etc/" MM_DT_ANY = Some (-1, []).
Proof. repeat split; vm_compute; reflexivity. Qed.

(** The candidates at the root have two separators, and are not completions of what was typed. *)
Example root_is_doubled : run "/b" MM_DT_ANY = Some (0, lines ["//bin/"]).
Proof. vm_compute. reflexivity. Qed.

(** The folder of the empty argument does not fit its buffer of two characters. *)
Example empty_argument_overflows : run EmptyString MM_DT_ANY = None.
Proof. vm_compute. reflexivity. Qed.

Definition find_folder (p : cstr) (s : disk) : option (list (cstr * Z)) := snd <$> List.find (fun f => bool_decide (f.1 = p)) (folders s).

#[global] Instance demo_laws : CompletionLaws find_folder (fun s _ => default [] (opened s)) output.
Proof.
  split.
  - intros n s ok s' [= <- <-]. done.
  - intros p s. unfold mm_opendir, demo, find_folder. by destruct (List.find _ (folders s)).
  - intros d s. cbn. destruct (opened s) as [[|e es]|]; done.
  - done.
  - done.
Qed.

End CompletionDemo.

Lemma path_completions_witness :
  exists rv s' dirpath base, @mm_arg_complete_path _ CompletionDemo.demo 10 (Some (cs "usr/l")) MM_DT_DIR None CompletionDemo.disk0 = Some (rv, s') /\
    @split_arg _ CompletionDemo.demo (cs "usr/l") = Some (dirpath, base) /\
    @plain_arg _ CompletionDemo.demo (cs "usr/l").
Proof.
  destruct (path_completions (OS := CompletionDemo.disk) CompletionDemo.find_folder (fun s _ => default [] (CompletionDemo.opened s)) CompletionDemo.output
    10 (cs "usr/l") MM_DT_DIR None (fun _ _ _ => true) CompletionDemo.disk0) as (rv & s' & d & b & E & Es & _).
  - discriminate.
  - done.
  - intros p es. unfold CompletionDemo.find_folder. cbn. repeat case_match; cbn; intros; simplify_eq; cbn; lia.
  - exists rv, s', d, b. split; [exact E|]. split; [exact Es|]. right. right. exists (cs "us"), "r"%char, (cs "l"). split; [reflexivity|]. split; [reflexivity|].
    split; [discriminate|]. by repeat constructor.
Defined.
