(* ===== verification/SharedTimer.v ===== *)
(** * The timer of the sleeps on Windows

    [relative_microsleep] of [time-win32.c]: all the threads of the process arm the same timer [timer_hnd], made when the library is loaded.  Its completion
    routine is queued to the thread that armed it, and sets the variable [done] of that thread, which waits for it.  To arm a timer that is active stops it
    and cancels its completion routine, as Windows documents.  The threads are a state machine, of which [Time] is the part of one thread. *)

From stdpp Require Import relations.
From S2P Require Import Prelude Time.

(** The timer, when it is active: the thread of its completion routine and its due time; and the variable [done] of each thread in [relative_microsleep].
    Times are in units of 100 ns. *)
Record timer_state := mk_timer { timer : option (Z * Z); done_of : gmap Z bool; now : Z; closed : bool }.

(** [MM_CONSTRUCTOR(timer)] *)
Definition timer_created : timer_state := mk_timer None ∅ 0 false.

(** [MM_DESTRUCTOR(timer)] *)
Definition timer_destroyed (s : timer_state) : timer_state := mk_timer None (done_of s) (now s) true.

(** [SetWaitableTimer], with a due time that is relative. *)
Definition SetWaitableTimer (t ft_i64 : Z) (s : timer_state) : timer_state := mk_timer (Some (t, now s - ft_i64)) (done_of s) (now s) (closed s).

Definition timer_apc_completion (t : Z) (s : timer_state) : timer_state := mk_timer (timer s) (<[t := true]> (done_of s)) (now s) (closed s).

(** The beginning of [relative_microsleep], up to the wait. *)
Definition microsleep_start (t delta_ns : Z) (s : timer_state) : timer_state :=
  SetWaitableTimer t (- Z.quot (delta_ns + 99) 100) (mk_timer (timer s) (<[t := false]> (done_of s)) (now s) (closed s)).

(** What may happen: a thread starts to sleep, time passes, the timer expires and its routine runs in the wait of its thread, a thread sees [done] and leaves. *)
Inductive timer_event := Sleep (t delta_ns : Z) | Tick (n : Z) | Expire | Leave (t : Z).

Definition timer_step (e : timer_event) (s : timer_state) : option timer_state :=
  match e with
  | Sleep t delta_ns => if bool_decide (done_of s !! t = None) && (0 <? delta_ns) then Some (microsleep_start t delta_ns s) else None
  | Tick n => if 0 <? n then Some (mk_timer (timer s) (done_of s) (now s + n) (closed s)) else None
  | Expire =>
      match timer s with
      | Some (t, due) => if due <=? now s then Some (timer_apc_completion t (mk_timer None (done_of s) (now s) (closed s))) else None
      | None => None
      end
  | Leave t => if bool_decide (done_of s !! t = Some true) then Some (mk_timer (timer s) (delete t (done_of s)) (now s) (closed s)) else None
  end.

Definition step (s s' : timer_state) : Prop := exists e, timer_step e s = Some s'.

Fixpoint run (es : list timer_event) (s : timer_state) : option timer_state :=
  match es with [] => Some s | e :: es => s ← timer_step e s; run es s end.

(** ** Who waits for what *)

(** The timer belongs to a thread that waits. *)
Definition timer_wf (s : timer_state) : Prop :=
  forall t due, timer s = Some (t, due) -> done_of s !! t = Some false.

Lemma step_wf s s' : step s s' -> timer_wf s -> timer_wf s'.
Proof.
  intros [e H] Hs t due. unfold timer_wf in Hs. destruct e as [u d|n| |u]; cbn in H.
  - destruct (bool_decide _ && _); simplify_eq; cbn. intros [= <- <-]. by rewrite lookup_insert_eq.
  - destruct (0 <? n); simplify_eq; cbn. apply Hs.
  - destruct (timer s) as [[u due']|] eqn:E; [|done]. destruct (due' <=? now s); by simplify_eq.
  - case_bool_decide as Hu; simplify_eq; cbn. intros Ht. specialize (Hs t due Ht). rewrite lookup_delete_ne; [done|]. intros ->. congruence.
Qed.

(** A thread that waits and does not have the timer. *)
Definition starved (t : Z) (s : timer_state) : Prop := done_of s !! t = Some false /\ forall due, timer s <> Some (t, due).

Lemma step_starved t s s' : step s s' -> starved t s -> starved t s'.
Proof.
  intros [e H] [Hd Ht]. destruct e as [u d|n| |u]; cbn in H.
  - case_bool_decide as Hu; cbn in H; [|done]. destruct (0 <? d); simplify_eq. assert (u <> t) by congruence.
    split; cbn; [by rewrite lookup_insert_ne|congruence].
  - destruct (0 <? n); simplify_eq; by split.
  - destruct (timer s) as [[u due]|] eqn:E; [|done]. assert (u <> t) by (intros ->; by apply (Ht due)).
    destruct (due <=? now s); simplify_eq. split; cbn; [by rewrite lookup_insert_ne|done].
  - case_bool_decide as Hu; simplify_eq. assert (u <> t) by congruence. split; cbn; [by rewrite lookup_delete_ne|done].
Qed.

(** The thread has the timer, and it is due at [due]. *)
Definition armed (t due : Z) (s : timer_state) : Prop := done_of s !! t = Some false /\ timer s = Some (t, due).

(** A step keeps the timer of the thread, unless another thread takes it or it expires. *)
Lemma step_armed t due s e s' :
  timer_step e s = Some s' -> armed t due s ->
  match e with
  | Sleep u d => u <> t /\ starved t s'
  | Expire => due <= now s /\ done_of s' !! t = Some true /\ timer s' = None
  | _ => armed t due s' /\ now s <= now s'
  end.
Proof.
  intros H [Hd Ht]. destruct e as [u d|n| |u]; cbn in H.
  - case_bool_decide as Hu; cbn in H; [|done]. destruct (0 <? d); simplify_eq. assert (u <> t) by congruence. split; [done|].
    split; cbn; [by rewrite lookup_insert_ne|congruence].
  - destruct (Z.ltb_spec 0 n); simplify_eq. split; [by split|cbn; lia].
  - rewrite Ht in H. destruct (Z.leb_spec due (now s)); simplify_eq. cbn. by rewrite lookup_insert_eq.
  - case_bool_decide as Hu; simplify_eq. assert (u <> t) by congruence. split; [|cbn; lia]. split; cbn; [by rewrite lookup_delete_ne|done].
Qed.

Definition is_sleep (e : timer_event) : bool := match e with Sleep _ _ => true | _ => false end.

(** If no other thread sleeps, the timer of a thread that waits stays its own until it expires. *)
Lemma run_armed t due es : forall s s',
  armed t due s -> forallb (fun e => negb (is_sleep e)) es = true -> run es s = Some s' -> Expire ∉ es -> armed t due s'.
Proof.
  induction es as [|e es IH]; intros s s' Ha Hes H Hne; cbn in H; [by simplify_eq|].
  destruct (timer_step e s) as [s1|] eqn:E; [|done]. cbn in H. cbn in Hes. apply andb_true_iff in Hes as [He Hes].
  pose proof (step_armed t due s e s1 E Ha) as Hs. apply not_elem_of_cons in Hne as [Hne Hne'].
  destruct e as [u d|n| |u]; [done| |done|]; destruct Hs as [Hs _]; by apply (IH s1 s').
Qed.

(** C15. The threads that sleep share one timer.  A thread that sleeps wakes up when the timer expires, at or after the end of its delay and no
    earlier, if no other thread starts to sleep in the meantime.  If another one does before the timer expires, the first thread sleeps for ever: in no state that can be
    reached is its wait over, however much time passes and whatever the other threads do. *)
Theorem sleepers_share_timer t delta_ns s s1 :
  timer_step (Sleep t delta_ns) s = Some s1 ->
  let due := now s + Z.quot (delta_ns + 99) 100 in
  armed t due s1 /\
  (forall es s2, forallb (fun e => negb (is_sleep e)) es = true -> Expire ∉ es -> run es s1 = Some s2 ->
    done_of s2 !! t = Some false /\
    (timer_step Expire s2 = None <-> now s2 < due) /\
    forall s3, timer_step Expire s2 = Some s3 -> exists s4, timer_step (Leave t) s3 = Some s4 /\ done_of s4 !! t = None) /\
  (forall es u d s2 s3, forallb (fun e => negb (is_sleep e)) es = true -> Expire ∉ es -> run es s1 = Some s2 ->
    timer_step (Sleep u d) s2 = Some s3 ->
    forall s4, rtc step s3 s4 -> done_of s4 !! t = Some false /\ timer_step (Leave t) s4 = None).
Proof.
  intros H due. assert (Ha : armed t due s1).
  { cbn in H. destruct (bool_decide _ && _); simplify_eq. split; cbn; [by rewrite lookup_insert_eq|]. unfold due. do 2 f_equal. lia. }
  split; [done|]. split.
  - intros es s2 Hes Hne H2. destruct (run_armed t due es s1 s2 Ha Hes H2 Hne) as [Hd Ht]. split; [done|]. cbn [timer_step]. rewrite Ht. split.
    + destruct (Z.leb_spec due (now s2)); split; intros; [done|lia|lia|done].
    + intros s3. destruct (due <=? now s2); [|done]. intros [= <-]. cbn. rewrite lookup_insert_eq, bool_decide_true by done.
      eexists. split; [reflexivity|]. cbn. by rewrite lookup_delete_eq.
  - intros es u d s2 s3 Hes Hne H2 H3 s4 Hr. pose proof (run_armed t due es s1 s2 Ha Hes H2 Hne) as Ha2.
    destruct (step_armed t due s2 _ s3 H3 Ha2) as [_ Hs]. assert (starved t s4) as [Hd _].
    { clear H3. induction Hr as [|x y z Hxy _ IH]; [done|]. apply IH. by apply (step_starved t x y). }
    split; [done|]. cbn. by rewrite Hd.
Qed.

(** Two threads sleep 1 ms and 2 ms: only the second one wakes up. *)
Definition two_sleepers : list timer_event := [Sleep 1 1000000; Tick 5000; Sleep 2 2000000; Tick 50000; Expire; Leave 2].

Example first_sleeper_lost : (s ← run two_sleepers timer_created; Some (map_to_list (done_of s), timer s)) = Some ([(1, false)], None).
Proof. vm_compute. reflexivity. Qed.

Lemma sleepers_share_timer_witness : exists s1 s2 s3,
  timer_step (Sleep 1 1000000) timer_created = Some s1 /\ run [Tick 5000] s1 = Some s2 /\ timer_step (Sleep 2 2000000) s2 = Some s3 /\
  forall s4, rtc step s3 s4 -> done_of s4 !! 1 = Some false.
Proof.
  destruct (timer_step (Sleep 1 1000000) timer_created) as [s1|] eqn:E1; [|vm_compute in E1; discriminate].
  pose proof (sleepers_share_timer 1 1000000 timer_created s1 E1) as (_ & _ & H).
  assert (E1' := E1). vm_compute in E1'. injection E1' as E1'.
  destruct (run [Tick 5000] s1) as [s2|] eqn:E2; [|subst s1; vm_compute in E2; discriminate].
  destruct (timer_step (Sleep 2 2000000) s2) as [s3|] eqn:E3.
  2: { assert (E2' := E2). rewrite <- E1' in E2'. vm_compute in E2'. injection E2' as E2'. rewrite <- E2' in E3. vm_compute in E3. discriminate. }
  exists s1, s2, s3. split; [done|]. split; [done|]. split; [done|]. intros s4 Hr.
  eapply (H [Tick 5000] 2 2000000 s2 s3); [reflexivity|intros Hx; by repeat (apply elem_of_cons in Hx as [Hx|Hx]; [done|]); by apply elem_of_nil in Hx|exact E2|exact E3|exact Hr].
Defined.
