(* ===== verification/Win32Calls.v ===== *)
(** * Small parts of the Windows variants

    The initialisation of the clocks ([clock-win32.c], with doubles as in [ProfileReport]), the slots of the thread local storage and the two passes of the conversions of
    strings ([utils-win32.h], [utils-win32.c]), the owner of the process, the reparse data of a file ([file-win32.c]) and the memory of the configuration of a child
    ([process-win32.c]).  The calls of Windows are classes; what is opened or allocated is released on each path. *)

From S2P Require Import Prelude CStr Effects Time ProfileReport.

(** ** Clocks *)

(** [(int)((1.0 / freq) * 1.0e9)]: the product is rounded to 53 bits, and cut. *)
Definition init_qpc (freq : Z) : Z * Z :=
  let '(m, e) := double_div 1 freq in
  let p := double_of_int (m * NS_IN_SEC) in
  (freq, Z.quot (p * 2 ^ Z.max 0 e) (2 ^ Z.max 0 (- e))).

(** [MM_CONSTRUCTOR(init_clocks_win32)] *)
Definition init_clocks_win32 (MaxMhz freq edx_extended edx_tsc : Z) : clock_config :=
  let cycle := determine_cpu_cycle_rate MaxMhz in
  let qpc := init_qpc freq in
  mk_clock_config cycle.1 cycle.2 qpc.1 qpc.2 (init_monotonic_clock edx_extended edx_tsc).

Definition getres_thread_w32 (cfg : clock_config) : mm_timespec := getres_tsc cfg.
Definition getres_process_w32 (cfg : clock_config) : mm_timespec := getres_tsc cfg.

Example qpc_ticks : map (fun f => (init_qpc f).2) [10000000; 3579545; 14318180; 2000000000] = [100; 279; 69; 0].
Proof. vm_compute. reflexivity. Qed.

(** A counter of 3.58 MHz: the clock loses 1.3 ms, and gets it back all at once at the end of each second. *)
Example qpc_clock_jumps :
  let cfg := init_clocks_win32 2000 3579545 0 0 in
  gettimespec_qpc cfg 3579544 = Some (mk_ts 0 998692776) /\ gettimespec_qpc cfg 3579545 = Some (mk_ts 1 0).
Proof. split; vm_compute; reflexivity. Qed.

(** A counter of more than 1 GHz has only the seconds, and a resolution of 0. *)
Example fast_qpc_has_no_nanoseconds :
  let cfg := init_clocks_win32 2000 2000000000 0 0 in gettimespec_qpc cfg 3999999999 = Some (mk_ts 1 0) /\ getres_qpc cfg = mk_ts 0 0.
Proof. split; vm_compute; reflexivity. Qed.

(** ** Thread local storage *)

(** The slots in the block of the thread, and those of the expansion when there is one. *)
Record teb := mk_teb { TlsSlots : list Z; TlsExpansionSlots : option (list Z) }.

Definition NUM_TLS_SLOTS : Z := 64.
Definition NUM_EXPANSION_SLOTS : Z := 1024.

(** It is undefined that the index is not one of [TlsAlloc]. *)
Definition tls_get_value (t : teb) (index : Z) : option Z :=
  if index <? NUM_TLS_SLOTS then (if index <? 0 then None else TlsSlots t !! Z.to_nat index)
  else match TlsExpansionSlots t with None => Some 0 | Some slots => slots !! Z.to_nat (index - NUM_TLS_SLOTS) end.

(** What [TlsSetValue] of Windows does to the block of the thread. *)
Definition TlsSetValue (t : teb) (index v : Z) : teb :=
  if index <? NUM_TLS_SLOTS then mk_teb (<[Z.to_nat index := v]> (TlsSlots t)) (TlsExpansionSlots t)
  else mk_teb (TlsSlots t)
    (Some (<[Z.to_nat (index - NUM_TLS_SLOTS) := v]> (default (replicate (Z.to_nat NUM_EXPANSION_SLOTS) 0) (TlsExpansionSlots t)))).

Definition teb_wf (t : teb) : Prop :=
  length (TlsSlots t) = Z.to_nat NUM_TLS_SLOTS /\
  match TlsExpansionSlots t with Some l => length l = Z.to_nat NUM_EXPANSION_SLOTS | None => True end.

(** What was set is read back, by the thread that has set it, and the other slots are kept. *)
Lemma tls_get_set t index other v :
  teb_wf t -> 0 <= index < NUM_TLS_SLOTS + NUM_EXPANSION_SLOTS -> 0 <= other < NUM_TLS_SLOTS + NUM_EXPANSION_SLOTS ->
  teb_wf (TlsSetValue t index v) /\
  tls_get_value (TlsSetValue t index v) other = if other =? index then Some v else tls_get_value t other.
Proof.
  intros [H1 H2] Hi Ho. assert (Hwf : teb_wf (TlsSetValue t index v)).
  { unfold TlsSetValue. destruct (index <? NUM_TLS_SLOTS); split; cbn [TlsSlots TlsExpansionSlots]; rewrite ?length_insert; try done.
    destruct (TlsExpansionSlots t); cbn [default from_option id]; [done|by rewrite length_replicate]. }
  split; [done|]. unfold tls_get_value, TlsSetValue, NUM_TLS_SLOTS, NUM_EXPANSION_SLOTS in *.
  destruct (Z.ltb_spec index 64); destruct (Z.ltb_spec other 64); cbn [TlsSlots TlsExpansionSlots];
    destruct (Z.eqb_spec other index) as [->|Hne]; try lia; try done.
  - destruct (Z.ltb_spec index 0); [lia|]. apply list_lookup_insert_eq. lia.
  - destruct (Z.ltb_spec other 0); [lia|]. apply list_lookup_insert_ne. lia.
  - apply list_lookup_insert_eq. destruct (TlsExpansionSlots t); cbn [default from_option id]; rewrite ?length_replicate; lia.
  - rewrite list_lookup_insert_ne by lia. destruct (TlsExpansionSlots t); [done|]. cbn [default from_option id].
    rewrite lookup_replicate_2 by lia. done.
Qed.

(** ** Conversions of strings *)

(** The conversions of Windows: the length needed when the size is 0, and otherwise the length written, with the null character; 0 is a failure. *)
Class CodePage := {
  decode : cstr -> option (list Z);
  encode : list Z -> option cstr;
  MultiByteToWideChar : cstr -> Z -> Z * list Z;
  WideCharToMultiByte : list Z -> Z -> Z * cstr
}.

(** As documented. *)
Class CodePageLaws `{!CodePage} : Prop := {
  law_wide s size : 0 <= size ->
    match decode s with
    | None => (MultiByteToWideChar s size).1 = 0
    | Some w => let n := Z.of_nat (length w) + 1 in
        (size = 0 -> (MultiByteToWideChar s size).1 = n) /\ (n <= size -> MultiByteToWideChar s size = (n, w ++ [0])) /\
        (0 < size < n -> (MultiByteToWideChar s size).1 = 0)
    end;
  law_multi w size : 0 <= size ->
    match encode w with
    | None => (WideCharToMultiByte w size).1 = 0
    | Some s => let n := Z.of_nat (length s) + 1 in
        (size = 0 -> (WideCharToMultiByte w size).1 = n) /\ (n <= size -> WideCharToMultiByte w size = (n, s ++ [NUL])) /\
        (0 < size < n -> (WideCharToMultiByte w size).1 = 0)
    end
}.

Section Conversions.

Context {cp : CodePage}.

Definition or_minus_one (len : Z) : Z := if len =? 0 then -1 else len.

Definition get_utf16_buffer_len_from_utf8 (utf8_str : cstr) : Z := or_minus_one (MultiByteToWideChar utf8_str 0).1.
Definition conv_utf8_to_utf16 (utf16_len : Z) (utf8_str : cstr) : Z * list Z :=
  let '(len, buf) := MultiByteToWideChar utf8_str utf16_len in (or_minus_one len, buf).
Definition get_utf8_buffer_len_from_utf16 (utf16_str : list Z) : Z := or_minus_one (WideCharToMultiByte utf16_str 0).1.
Definition conv_utf16_to_utf8 (utf8_len : Z) (utf16_str : list Z) : Z * cstr :=
  let '(len, buf) := WideCharToMultiByte utf16_str utf8_len in (or_minus_one len, buf).

Context {cpl : CodePageLaws}.

(** The two passes of the callers: the length found is enough, and the string converted is terminated. *)
Lemma conversion_fits s :
  let len := get_utf16_buffer_len_from_utf8 s in
  match decode s with
  | None => len = -1
  | Some w => len = Z.of_nat (length w) + 1 /\ conv_utf8_to_utf16 len s = (len, w ++ [0])
  end.
Proof.
  unfold get_utf16_buffer_len_from_utf8, conv_utf8_to_utf16, or_minus_one. pose proof (law_wide s 0 ltac:(lia)) as H0. destruct (decode s) as [w|] eqn:E.
  - destruct H0 as [H0 _]. rewrite (H0 eq_refl). destruct (Z.eqb_spec (Z.of_nat (length w) + 1) 0); [lia|]. split; [done|].
    pose proof (law_wide s (Z.of_nat (length w) + 1) ltac:(lia)) as H1. rewrite E in H1. destruct H1 as (_ & H1 & _). rewrite H1 by lia.
    destruct (Z.eqb_spec (Z.of_nat (length w) + 1) 0); [lia|done].
  - by rewrite H0.
Qed.

Lemma conversion_back_fits w :
  let len := get_utf8_buffer_len_from_utf16 w in
  match encode w with
  | None => len = -1
  | Some s => len = Z.of_nat (length s) + 1 /\ conv_utf16_to_utf8 len w = (len, s ++ [NUL])
  end.
Proof.
  unfold get_utf8_buffer_len_from_utf16, conv_utf16_to_utf8, or_minus_one. pose proof (law_multi w 0 ltac:(lia)) as H0. destruct (encode w) as [s|] eqn:E.
  - destruct H0 as [H0 _]. rewrite (H0 eq_refl). destruct (Z.eqb_spec (Z.of_nat (length s) + 1) 0); [lia|]. split; [done|].
    pose proof (law_multi w (Z.of_nat (length s) + 1) ltac:(lia)) as H1. rewrite E in H1. destruct H1 as (_ & H1 & _). rewrite H1 by lia.
    destruct (Z.eqb_spec (Z.of_nat (length s) + 1) 0); [lia|done].
  - by rewrite H0.
Qed.

End Conversions.

(** ** Owner of the process *)

Definition SECURITY_MAX_SID_SIZE : nat := 68.

Inductive token_information := TokenOwner | TokenPrimaryGroup.

Class TokenOs (OS : Type) := {
  OpenProcessToken : OS -> option Z * OS;
  GetTokenInformation : Z -> token_information -> OS -> option (list Z) * OS;    (* the SID *)
  CloseHandle : Z -> OS -> OS
}.

Section Token.

Context {OS : Type} `{!TokenOs OS}.

Abbreviation M := (ST OS).

Definition safe_closehandle (hnd : option Z) : M unit := match hnd with None => mret tt | Some hnd => st_modify (CloseHandle hnd) end.

(** One of the informations, if it is asked for: [None] is a failure. *)
Definition token_sid (htoken : Z) (want : bool) (class : token_information) : M (option (option (list Z))) :=
  if want then
    sid ← st_call (GetTokenInformation htoken class);
    mret (match sid with None => None | Some sid => Some (Some (take SECURITY_MAX_SID_SIZE sid)) end)
  else mret (Some None).

(** The SIDs that are asked for. *)
Definition get_caller_sids (owner primary_group : bool) : M (Z * option (list Z) * option (list Z)) :=
  htoken ← st_call OpenProcessToken;
  match htoken with
  | None => safe_closehandle None;; mret (-1, None, None)
  | Some hnd =>
      o ← token_sid hnd owner TokenOwner;
      match o with
      | None => safe_closehandle htoken;; mret (-1, None, None)
      | Some o =>
          g ← token_sid hnd primary_group TokenPrimaryGroup;
          safe_closehandle htoken;;
          mret (match g with None => (-1, o, None) | Some g => (0, o, g) end)
      end
  end.

(** The handles that are open, and the SIDs of the token. *)
Context (handles : OS -> gset Z) (sid_of : token_information -> list Z).

Class TokenLaws : Prop := {
  law_open_token s : match OpenProcessToken s with
                     | (Some h, s') => h ∉ handles s /\ handles s' = {[ h ]} ∪ handles s
                     | (None, s') => handles s' = handles s
                     end;
  law_token_information h c s : match GetTokenInformation h c s with
                                | (Some sid, s') => sid = sid_of c /\ handles s' = handles s
                                | (None, s') => handles s' = handles s
                                end;
  law_close_token h s : handles (CloseHandle h s) = handles s ∖ {[ h ]};
  law_sid_size c : (length (sid_of c) <= SECURITY_MAX_SID_SIZE)%nat
}.

Context {token_laws : TokenLaws}.

Lemma token_sid_spec h want c s :
  exists r s', token_sid h want c s = Some (r, s') /\ handles s' = handles s /\
    forall x, r = Some x -> x = if want then Some (sid_of c) else None.
Proof.
  unfold token_sid. destruct want; [|exists (Some None), s; split_and!; [done|done|by intros x [= <-]]].
  pose proof (law_token_information h c s) as Hl. unfold mbind, st_bind, st_call, mret, st_ret.
  destruct (GetTokenInformation h c s) as [[sid|] s1].
  - destruct Hl as [-> Hh]. eexists _, s1. split_and!; [done|done|]. intros x [= <-]. by rewrite take_ge by apply law_sid_size.
  - exists None, s1. by split_and!.
Qed.

(** The token is closed on each path, and a success gives what is asked for. *)
Lemma caller_sids_spec owner primary_group s :
  exists rv o g s', get_caller_sids owner primary_group s = Some ((rv, o, g), s') /\ handles s' = handles s /\
    (rv = -1 \/ rv = 0 /\ o = (if owner then Some (sid_of TokenOwner) else None)
                /\ g = if primary_group then Some (sid_of TokenPrimaryGroup) else None).
Proof.
  unfold get_caller_sids. pose proof (law_open_token s) as Ho. destruct (OpenProcessToken s) as [[h|] s1] eqn:E.
  2: { do 3 eexists. exists s1. assert (E' : st_call OpenProcessToken s = Some (None, s1)) by (unfold st_call; by rewrite E).
       rewrite (st_bind_Some _ _ _ _ _ E'). split; [reflexivity|]. split; [done|by left]. }
  destruct Ho as [Hnew Hh]. assert (E' : st_call OpenProcessToken s = Some (Some h, s1)) by (unfold st_call; by rewrite E). rewrite (st_bind_Some _ _ _ _ _ E').
  assert (Hc : forall s', handles s' = handles s1 -> handles (CloseHandle h s') = handles s) by (intros s' Hs'; rewrite law_close_token, Hs', Hh; set_solver).
  destruct (token_sid_spec h owner TokenOwner s1) as (o & s2 & E2 & H2 & Ho). rewrite (st_bind_Some _ _ _ _ _ E2). destruct o as [o|].
  2: { do 3 eexists. exists (CloseHandle h s2). split; [reflexivity|]. split; [by apply Hc|by left]. }
  destruct (token_sid_spec h primary_group TokenPrimaryGroup s2) as (g & s3 & E3 & H3 & Hg). rewrite (st_bind_Some _ _ _ _ _ E3).
  destruct g as [g|]; do 3 eexists; exists (CloseHandle h s3); (split; [reflexivity|]); (split; [apply Hc; congruence|]); [|by left].
  right. split; [done|]. split; [by apply Ho|by apply Hg].
Qed.

End Token.

(** ** Reparse data *)

Section Reparse.

Context {OS rep : Type} (malloc : OS -> option Z * OS) (DeviceIoControl : Z -> OS -> option rep * OS) (free : Z -> OS -> OS).

(** The block and its contents; a block that could not be filled is freed. *)
Definition get_reparse_data (hnd : Z) : ST OS (option (Z * rep)) :=
  block ← st_call malloc;
  match block with
  | None => mret None
  | Some block =>
      data ← st_call (DeviceIoControl hnd);
      match data with None => st_modify (free block);; mret None | Some data => mret (Some (block, data)) end
  end.

End Reparse.

(** ** Memory of the configuration of a child *)

(** The blocks of the configuration, null at first. *)
Record config_blocks := mk_blocks { crt_block : option Z; inherited_block : option Z; attr_block : option Z; is_attr_init : bool }.

Class AttrOs (OS : Type) := {
  calloc : Z -> OS -> option Z * OS;
  dealloc : Z -> OS -> OS;
  attr_list_size : Z;                                           (* what the first call of [InitializeProcThreadAttributeList] gives *)
  InitializeProcThreadAttributeList : Z -> OS -> bool * OS;
  DeleteProcThreadAttributeList : Z -> OS -> OS
}.

Section Internals.

Context {OS : Type} `{!AttrOs OS}.

Abbreviation M := (ST OS).

Definition free_block (b : option Z) : M unit := match b with None => mret tt | Some b => st_modify (dealloc b) end.

(** [crt_size] and [num_fd] are those of the configuration. *)
Definition startup_config_allocate_internals (crt_size num_fd : Z) : M (Z * config_blocks) :=
  let max_num_hnd := num_fd + 1 in
  crt ← st_call (calloc crt_size);
  match crt with
  | None => mret (-1, mk_blocks None None None false)
  | Some _ =>
      inh ← st_call (calloc (max_num_hnd * 8));
      attr ← st_call (calloc attr_list_size);
      match inh, attr with
      | Some _, Some a =>
          ok ← st_call (InitializeProcThreadAttributeList a);
          mret (if ok : bool then (0, mk_blocks crt inh attr true) else (-1, mk_blocks crt inh attr false))
      | _, _ => mret (-1, mk_blocks crt inh attr false)
      end
  end.

(** The blocks freed by [startup_config_deinit]. *)
Definition release_blocks (c : config_blocks) : M unit :=
  (match is_attr_init c, attr_block c with true, Some a => st_modify (DeleteProcThreadAttributeList a) | _, _ => mret tt end);;
  free_block (crt_block c);; free_block (inherited_block c);; free_block (attr_block c).

(** The blocks of the heap, and the attribute lists that are initialised. *)
Context (heap lists : OS -> gset Z).

Class AttrLaws : Prop := {
  law_calloc n s : match calloc n s with
                   | (Some b, s') => b ∉ heap s /\ heap s' = {[ b ]} ∪ heap s /\ lists s' = lists s
                   | (None, s') => heap s' = heap s /\ lists s' = lists s
                   end;
  law_dealloc b s : heap (dealloc b s) = heap s ∖ {[ b ]} /\ lists (dealloc b s) = lists s;
  law_init_list a s : let '(ok, s') := InitializeProcThreadAttributeList a s in
                      heap s' = heap s /\ lists s' = if ok then {[ a ]} ∪ lists s else lists s;
  law_delete_list a s : heap (DeleteProcThreadAttributeList a s) = heap s /\ lists (DeleteProcThreadAttributeList a s) = lists s ∖ {[ a ]}
}.

Context {attr_laws : AttrLaws}.

Lemma free_block_spec b s : exists s', free_block b s = Some (tt, s') /\ lists s' = lists s /\
  heap s' = heap s ∖ (match b with Some b => {[ b ]} | None => ∅ end).
Proof.
  destruct b as [b|]; cbn; [|exists s; split_and!; [done|done|set_solver]].
  eexists. split; [reflexivity|]. destruct (law_dealloc b s) as [H1 H2]. by split.
Qed.

Definition set_of (b : option Z) : gset Z := match b with Some b => {[ b ]} | None => ∅ end.
Definition blocks_of (c : config_blocks) : gset Z := set_of (crt_block c) ∪ set_of (inherited_block c) ∪ set_of (attr_block c).

Lemma calloc_spec n s : exists b s', st_call (calloc n) s = Some (b, s') /\ lists s' = lists s /\ heap s' = set_of b ∪ heap s /\ set_of b ## heap s.
Proof.
  pose proof (law_calloc n s) as H. unfold st_call. destruct (calloc n s) as [[b|] s'].
  - destruct H as (Hn & Hh & Hl). exists (Some b), s'. split_and!; try done. cbn. set_solver.
  - destruct H as (Hh & Hl). exists None, s'. split_and!; try done; cbn; set_solver.
Qed.

Lemma release_spec c s : (is_attr_init c = true -> exists a, attr_block c = Some a) ->
  exists s', release_blocks c s = Some (tt, s') /\ heap s' = heap s ∖ blocks_of c /\
    lists s' = lists s ∖ (if is_attr_init c then set_of (attr_block c) else ∅).
Proof.
  intros Ha. unfold release_blocks.
  assert (exists s1, (match is_attr_init c, attr_block c with true, Some a => st_modify (DeleteProcThreadAttributeList a) | _, _ => mret tt end) s
    = Some (tt, s1) /\ heap s1 = heap s /\ lists s1 = lists s ∖ (if is_attr_init c then set_of (attr_block c) else ∅)) as (s1 & E1 & H1 & L1).
  { destruct (is_attr_init c); [destruct (Ha eq_refl) as [a ->]|].
    - eexists. split; [reflexivity|]. apply law_delete_list.
    - exists s. split_and!; [done|done|set_solver]. }
  rewrite (st_bind_Some _ _ _ _ _ E1).
  destruct (free_block_spec (crt_block c) s1) as (s2 & E2 & L2 & H2). rewrite (st_bind_Some _ _ _ _ _ E2).
  destruct (free_block_spec (inherited_block c) s2) as (s3 & E3 & L3 & H3). rewrite (st_bind_Some _ _ _ _ _ E3).
  destruct (free_block_spec (attr_block c) s3) as (s4 & E4 & L4 & H4). exists s4. split; [exact E4|].
  split; [|congruence]. rewrite H4, H3, H2, H1. unfold blocks_of, set_of. set_solver.
Qed.

(** Whatever fails, the memory and the list are released by the end of the configuration, and a success has all the blocks. *)
Lemma internals_released crt_size num_fd s :
  exists rv c s1, startup_config_allocate_internals crt_size num_fd s = Some ((rv, c), s1) /\
    (rv = 0 /\ is_attr_init c = true /\ is_Some (crt_block c) /\ is_Some (inherited_block c) \/ rv = -1) /\
    exists s2, release_blocks c s1 = Some (tt, s2) /\ heap s2 = heap s /\ (lists s ## heap s1 ∖ heap s -> lists s2 = lists s).
Proof.
  unfold startup_config_allocate_internals. destruct (calloc_spec crt_size s) as (crt & s1 & E1 & L1 & H1 & D1). rewrite (st_bind_Some _ _ _ _ _ E1).
  assert (Hend : forall rv c s', (is_attr_init c = true -> exists a, attr_block c = Some a) ->
    (rv = 0 /\ is_attr_init c = true /\ is_Some (crt_block c) /\ is_Some (inherited_block c) \/ rv = -1) -> heap s' = blocks_of c ∪ heap s -> blocks_of c ## heap s ->
    lists s' = (if is_attr_init c then set_of (attr_block c) else ∅) ∪ lists s ->
    exists s2, release_blocks c s' = Some (tt, s2) /\ heap s2 = heap s /\ (lists s ## heap s' ∖ heap s -> lists s2 = lists s)).
  { intros rv c s' Ha _ Hh Hd Hl. destruct (release_spec c s' Ha) as (s2 & E & Hh2 & Hl2). exists s2. split; [done|]. split; [rewrite Hh2, Hh; clear -Hd; set_solver|].
    intros Hdl. rewrite Hl2, Hl. rewrite Hh in Hdl. destruct (is_attr_init c); [|set_solver]. unfold blocks_of in *. set_solver. }
  destruct crt as [crt|].
  2: { exists (-1), (mk_blocks None None None false), s1. split; [done|]. split; [by right|]. apply (Hend (-1)); cbn in *; [done|by right|set_solver|set_solver|set_solver]. }
  destruct (calloc_spec ((num_fd + 1) * 8) s1) as (inh & s2 & E2 & L2 & H2 & D2). rewrite (st_bind_Some _ _ _ _ _ E2).
  destruct (calloc_spec attr_list_size s2) as (attr & s3 & E3 & L3 & H3 & D3). rewrite (st_bind_Some _ _ _ _ _ E3).
  assert (Hh : forall i, heap s3 = blocks_of (mk_blocks (Some crt) inh attr i) ∪ heap s /\ blocks_of (mk_blocks (Some crt) inh attr i) ## heap s).
  { intros i. unfold blocks_of. cbn. cbn in H1, D1. split; [rewrite H3, H2, H1; set_solver|]. rewrite H2, H1 in D3. rewrite H1 in D2. set_solver. }
  assert (Hfail : exists c s', Some ((-1, mk_blocks (Some crt) inh attr false), s3) = Some ((-1, c), s') /\
     exists s4, release_blocks c s' = Some (tt, s4) /\ heap s4 = heap s /\ (lists s ## heap s' ∖ heap s -> lists s4 = lists s)).
  { exists (mk_blocks (Some crt) inh attr false), s3. split; [done|]. destruct (Hh false). apply (Hend (-1)); cbn; [done|by right|done|done|]. rewrite L3, L2, L1. set_solver. }
  destruct inh as [inh|]; [destruct attr as [attr|]|].
  2,3: destruct Hfail as (c & s' & E & Hr); exists (-1), c, s'; split; [exact E|]; by split; [right|].
  pose proof (law_init_list attr s3) as Hi. assert (Ei : exists ok s4, InitializeProcThreadAttributeList attr s3 = (ok, s4)) by (destruct (InitializeProcThreadAttributeList attr s3); eauto).
  destruct Ei as (ok & s4 & Ei). rewrite Ei in Hi. destruct Hi as [Hi1 Hi2].
  assert (E4 : st_call (InitializeProcThreadAttributeList attr) s3 = Some (ok, s4)) by (unfold st_call; by rewrite Ei). rewrite (st_bind_Some _ _ _ _ _ E4).
  destruct (Hh ok) as [Hh1 Hh2]. rewrite <- Hi1 in Hh1. destruct ok.
  - exists 0, (mk_blocks (Some crt) (Some inh) (Some attr) true), s4. split; [done|]. split; [left; cbn; split_and!; eauto|].
    apply (Hend 0); cbn; [eauto|left; split_and!; eauto|done|done|]. rewrite Hi2, L3, L2, L1. done.
  - exists (-1), (mk_blocks (Some crt) (Some inh) (Some attr) false), s4. split; [done|]. split; [by right|].
    apply (Hend (-1)); cbn; [done|by right|done|done|]. rewrite Hi2, L3, L2, L1. set_solver.
Qed.

End Internals.
