(* ===== verification/ErrorPrint.v ===== *)
(** * Error reports

    The rest of [error.c]: the error of each thread and its printing; and the errors of Windows of [utils-win32.c], whose message is made of the description
    of the caller and of the message of the system.  Raising itself is in [ErrorState]. *)

From stdpp Require Import pretty.
From S2P Require Import Prelude CStr Effects ErrorState FdTable.

Definition TAB : ascii := "009".

Section Reports.

Context {OS : Type} (write : Z -> cstr -> OS -> (Z + nat) * OS) (timestamp : OS -> cstr) (strerror : Z -> cstr) (tr : cstr -> cstr).

Abbreviation M := (ST (err_world (OS := OS))).
Abbreviation raise := (mm_raise_error_vfull write timestamp strerror).

(** The variable of each thread, zero before its first use. *)
Definition get_thread_last_error (infos : gmap Z error_info) (self : Z) : error_info := default initial_info (infos !! self).

(** [text] is the description once formatted. *)
Definition mm_raise_error_full (fuel : nat) (num : Z) (mdl func srcfile : option cstr) (srcline : Z) (extid : option cstr) (text : cstr) : M Z :=
  raise fuel num mdl func srcfile srcline extid text.

(** What is printed on the standard output; [info] is formatted. *)
Definition mm_print_lasterror (info : option cstr) (last_error : error_info) (errno : Z) : cstr :=
  (match info with Some info => info ++ [LF] | None => [] end) ++
  (if errnum last_error =? 0 then
     if errno =? 0 then cs "No error found in the state" ++ [LF]
     else cs "Error only found in errno: " ++ cs (pretty errno) ++ cs ", " ++ mm_strerror tr strerror errno ++ [LF]
   else
     cs "Last error reported:" ++ [LF] ++
     TAB :: cs "errnum=" ++ cs (pretty (errnum last_error)) ++ cs " : " ++ mm_strerror tr strerror (errnum last_error) ++ [LF] ++
     TAB :: cs "module: " ++ buf_str (module last_error) ++ [LF] ++
     TAB :: cs "location: " ++ buf_str (location last_error) ++ [LF] ++
     TAB :: cs "description: " ++ buf_str (desc last_error) ++ [LF] ++
     TAB :: cs "extented_id: " ++ buf_str (extended_id last_error) ++ [LF]).

(** ** Errors of Windows *)

Definition ERRMSG_SIZE : nat := 512.

(** The buffer [errmsg]: [snprintf] gives the length of the whole text.  A longer description makes the size left wrap, and the message is written after the
    end of the buffer. *)
Definition w32_errmsg (desc : cstr) (format_message : nat -> cstr) : option cstr :=
  let text := desc ++ cs " : " in
  let len := length text in
  if (ERRMSG_SIZE <? len)%nat then None
  else Some (take (ERRMSG_SIZE - 1) text ++ match write_w32err_msg format_message (ERRMSG_SIZE - len) with Some msg => msg | None => [] end).

(** [errcode] is that of the error; [vformat] formats the message with the arguments. *)
Definition mm_raise_from_w32err_full (fuel : nat) (errcode : Z) (format_message : nat -> cstr) (mdl func srcfile : option cstr) (srcline : Z)
    (vformat : cstr -> cstr) (desc : cstr) : M Z :=
  errmsg ← st_option (w32_errmsg desc format_message);
  raise fuel errcode mdl func srcfile srcline None (vformat errmsg).

End Reports.

(** ** Reports of what was raised *)

Lemma record_strings num mdl func srcfile srcline extid text i :
  info_wf i -> NUL ∉ text -> NUL ∉ mdl -> NUL ∉ extid ->
  let i' := record_error num mdl func srcfile srcline extid text i in
  errnum i' = num /\ buf_str (desc i') = take 255 text /\ buf_str (module i') = take 31 mdl /\ buf_str (extended_id i') = take 63 extid.
Proof.
  intros (B1 & B2 & B3 & B4) H1 H2 H3. cbn. split_and!; [done| | |].
  - by apply (snprintf_buffer DESC_SIZE).
  - by apply (strncpy_buffer 31).
  - by apply (strncpy_buffer 63).
Qed.

(** The report of an error that was recorded has its number, its description and its module, cut to their buffers. *)
Lemma print_recorded strerror tr num mdl func srcfile srcline extid text i errno :
  info_wf i -> num <> 0 -> NUL ∉ text -> NUL ∉ mdl -> NUL ∉ extid ->
  exists location, mm_print_lasterror strerror tr None (record_error num mdl func srcfile srcline extid text i) errno =
    cs "Last error reported:" ++ [LF] ++ TAB :: cs "errnum=" ++ cs (pretty num) ++ cs " : " ++ mm_strerror tr strerror num ++ [LF] ++
    TAB :: cs "module: " ++ take 31 mdl ++ [LF] ++ TAB :: cs "location: " ++ location ++ [LF] ++
    TAB :: cs "description: " ++ take 255 text ++ [LF] ++ TAB :: cs "extented_id: " ++ take 63 extid ++ [LF].
Proof.
  intros Hwf Hn H1 H2 H3. destruct (record_strings num mdl func srcfile srcline extid text i Hwf H1 H2 H3) as (E1 & E2 & E3 & E4).
  set (i' := record_error _ _ _ _ _ _ _ _) in *. exists (buf_str (location i')). unfold mm_print_lasterror. rewrite E1, E2, E3, E4.
  destruct (Z.eqb_spec num 0); done.
Qed.

Lemma clean_percent_no_format s : "%"%char ∉ clean_percent s.
Proof. unfold clean_percent. intros (c & H & _)%list_elem_of_fmap. by case_bool_decide. Qed.

(** The message of the system is cut to the room left after the description, and brings no conversion to the format. *)
Lemma w32_errmsg_spec desc fm :
  (forall n, length (fm n) <= n)%nat -> (length desc + 3 <= ERRMSG_SIZE - 1)%nat ->
  exists msg, w32_errmsg desc fm = Some (desc ++ cs " : " ++ msg) /\ "%"%char ∉ msg /\ (length (desc ++ cs " : " ++ msg) < ERRMSG_SIZE)%nat.
Proof.
  intros Hfm Hd. unfold w32_errmsg. assert (Hl : length (desc ++ cs " : ") = (length desc + 3)%nat) by by rewrite length_app. rewrite Hl.
  unfold ERRMSG_SIZE in *. destruct (Nat.ltb_spec 512 (length desc + 3)); [lia|]. rewrite take_ge by lia.
  destruct (512 - (length desc + 3))%nat as [|n] eqn:E; [lia|]. cbn [write_w32err_msg]. exists (clean_percent (fm n)). rewrite <- app_assoc. split_and!; [done| |].
  - apply clean_percent_no_format.
  - rewrite !length_app. unfold clean_percent. rewrite length_map. specialize (Hfm n). cbn [length cs list_ascii_of_string]. lia.
Qed.

(** A description that is too long is written out of the buffer. *)
Example long_description_overflows : w32_errmsg (replicate 510 "x"%char) (fun _ => []) = None.
Proof. vm_compute. reflexivity. Qed.

Example report :
  mm_print_lasterror (fun _ => cs "Bad file descriptor") (fun s => s) (Some (cs "while saving")) initial_info 9
  = cs "while saving" ++ [LF] ++ cs "Error only found in errno: 9, Bad file descriptor" ++ [LF].
Proof. vm_compute. reflexivity. Qed.
