(* ===== verification/SpawnedChild.v ===== *)
(** * A process spawned on Windows, from its parent to its options

    [mm_spawn] of [process-win32.c] in the parent, [startup-win32.c] and the constructor of the descriptors in the child,
    [argparse.c] in its [main]: what the child gets is what the parent gave.  The system is between them: it keeps the
    command line and the startup information of the processes it creates, with the objects of the handles that they inherit. *)

From S2P Require Import Prelude CStr Bytes CmdLine Effects Errcode FilePosix TextMode FdTable FdWin32 IpcWin32 VolumeWin32 FileWin32 SpawnWin32 ProcessWin32 StartupWin32 Argparse.

(** ** What the system keeps *)

Record started_process (obj_t : Type) := mk_started {
  st_path : list Z;
  st_cmdline : list Z;                          (* GetCommandLineW *)
  st_info : Z * list Z * (Z * Z * Z);           (* GetStartupInfoW: size and bytes reserved to the runtime, standard handles *)
  st_objs : Z -> option obj_t
}.
Arguments mk_started {obj_t}.
Arguments st_path {obj_t}.
Arguments st_cmdline {obj_t}.
Arguments st_info {obj_t}.
Arguments st_objs {obj_t}.

(** A process starts with what it was created with, the other calls start none.  The conversions of the system between UTF-8
    and UTF-16 are made character by character and undo each other. *)
Class W32StartLaws (OS : Type) `{!W32File OS, !W32Proc OS, !W32Child OS} {obj_t : Type} (obj : OS -> Z -> option obj_t)
    (started : OS -> list (started_process obj_t)) : Prop := {
  law_create_started path cmdline envp info os :
    match CreateProcessW path cmdline envp info os with
    | (inr _, os') => started os' = started os ++ [mk_started path cmdline info (obj os)]
    | (inl _, os') => started os' = started os
    end;
  law_duplicate_started hnd os : started (DuplicateHandle hnd os).2 = started os;
  law_close_started hnd os : started (CloseHandle hnd os) = started os;
  law_convert_app a b x y : utf8_to_utf16 a = Some x -> utf8_to_utf16 b = Some y -> utf8_to_utf16 (a ++ b) = Some (x ++ y);
  law_convert_space : utf8_to_utf16 [SPACE] = Some [code SPACE];
  law_convert_back s x : utf8_to_utf16 s = Some x -> utf16_to_utf8 x = Some s
}.

Section Spawned.

Context {OS : Type} `{!W32File OS, !W32Pipe OS, !W32Volume OS, !W32Meta OS, !W32Proc OS, !W32Child OS}.
Context (crt_fds : OS -> gmap Z Z) `{!W32Laws OS crt_fds} {obj_t : Type} (obj : OS -> Z -> option obj_t) `{!W32ProcLaws OS crt_fds obj, !ChildLaws OS crt_fds}.
Context (started : OS -> list (started_process obj_t)) `{!W32StartLaws OS obj started}.

Abbreviation world := (proc_world OS).
Abbreviation table w := (fw_fd (pw_files w)).

Definition started_fd (w : fd_world (OS := OS)) := started (fd_os w).
Definition started_file (w : file_world OS) := started_fd (fw_fd w).
Definition started_of (w : world) := started_file (pw_files w).

(** ** The calls that start no process *)

Lemma keeps_call {A} (f : OS -> A * OS) : (forall os, started (f os).2 = started os) -> st_keeps started_fd (call f).
Proof.
  intros H w a w'. unfold call, st_zoom. specialize (H (fd_os w)). destruct (f (fd_os w)) as [a1 os]. by intros [= <- <-].
Qed.

Lemma keeps_raise e : st_keeps started_fd (raise e).
Proof. unfold raise. keep. by apply keeps_modify. Qed.

Lemma keeps_lift {A} (m : ST (fd_world (OS := OS)) A) : st_keeps started_fd m -> st_keeps started_file (lift m).
Proof. intros H w a w'. unfold lift. destruct (m _) as [[a1 fd]|] eqn:E; [|done]. intros [= <- <-]. exact (H _ _ _ E). Qed.

Lemma keeps_liftp {A} (m : ST (file_world OS) A) : st_keeps started_file m -> st_keeps started_of (liftp m).
Proof. intros H w a w'. unfold liftp. destruct (m _) as [[a1 f]|] eqn:E; [|done]. intros [= <- <-]. exact (H _ _ _ E). Qed.

Lemma keeps_close hnd : st_keeps started_of (liftp (runw (CloseHandle hnd))).
Proof. apply keeps_liftp, keeps_lift, (keeps_call (fun os => (tt, CloseHandle hnd os))). intros os. apply law_close_started. Qed.

Lemma keeps_ask {A} (f : OS -> A) : st_keeps started_fd (ask f).
Proof. apply keeps_gets. Qed.

Lemma keeps_fd_info fd : st_keeps started_fd (get_fd_info fd).
Proof. intros w a w'. unfold get_fd_info. destruct (fd <? 0); [done|]. destruct (fd_infos w !! _); cbn; [by intros [= <- <-]|done]. Qed.

Hint Resolve keeps_raise keeps_ask keeps_fd_info keeps_lift keeps_liftp keeps_close : keeps.

Lemma keeps_setup fd_map cfg : st_keeps started_fd (startup_config_setup_mappings fd_map cfg).
Proof.
  revert cfg. induction fd_map as [|m fd_map IH]; intros cfg; cbn [startup_config_setup_mappings]; keep; apply IH.
Qed.

Lemma keeps_dup n i cfg : st_keeps started_fd (dup_loop n i cfg).
Proof.
  revert i cfg. induction n as [|n IH]; intros i cfg; cbn [dup_loop]; unfold raise_w32; keep; try apply IH.
  apply keeps_call. apply law_duplicate_started.
Qed.

Lemma keeps_close_handles hnds : st_keeps started_fd (close_handles hnds).
Proof.
  induction hnds as [|h hnds IH]; cbn [close_handles]; keep. apply keeps_call. intros os. apply law_close_started.
Qed.

Hint Resolve keeps_setup keeps_dup keeps_close_handles : keeps.

Lemma keeps_config_init fd_map : st_keeps started_fd (startup_config_init fd_map).
Proof. unfold startup_config_init, startup_config_dup_inherited_hnds, startup_config_deinit, raise_w32. keep. Qed.

Lemma keeps_add_child pid hnd : st_keeps started_of (add_to_children_list pid hnd).
Proof. unfold add_to_children_list, raisep, raisew, askw. keep. all: by apply keeps_modify. Qed.


Lemma add_child_total pid hnd (w : world) : add_to_children_list pid hnd w <> None.
Proof.
  unfold add_to_children_list. unfold mbind at 1, st_bind at 1, st_gets at 1. destruct (_ <=? _)%nat; [|done].
  unfold mbind at 1, st_bind at 1. rewrite askp_spec. by destruct (realloc_entries _ _).
Qed.

(** ** The command line *)

Lemma escaped_u16 (l : list cstr) (sep : bool) :
  l <> [] -> forallb (fun s => bool_decide (is_Some (utf8_to_utf16 s))) l = true ->
  utf8_to_utf16 (concat_loop (fun s => s) l SPACE sep)
  = Some (concat_loop (fun s => default [] (utf8_to_utf16 s)) l (code SPACE) sep).
Proof.
  revert sep. induction l as [|s l IH]; intros sep Hne Hl; [done|]. cbn [forallb] in Hl.
  apply andb_true_iff in Hl as [[x Hx]%bool_decide_eq_true Hl].
  assert (Hrest : utf8_to_utf16 (s ++ concat_loop (fun s => s) l SPACE false)
                  = Some (x ++ concat_loop (fun s => default [] (utf8_to_utf16 s)) l (code SPACE) false)).
  { destruct l as [|s2 l]; [cbn; by rewrite !app_nil_r|]. apply law_convert_app; [done|]. by apply IH. }
  cbn [concat_loop]. rewrite Hx. cbn [default]. destruct sep; cbn [app]; [done|].
  apply (law_convert_app [SPACE] _ [code SPACE]); [apply law_convert_space|done].
Qed.

(** The child reads the arguments in the command line. *)
Lemma cmdline_read (arg0 : cstr) (args : list cstr) cmdline :
  concat_utf16 (Some (map escape_cmd_str (arg0 :: args))) (code SPACE) = Some cmdline ->
  getmainargs (utf16_to_utf8 cmdline) = Some (0, Some (Z.of_nat (length (arg0 :: args)), arg0 :: args)).
Proof.
  unfold concat_utf16. cbn [mbind option_bind]. destruct (forallb _ _) eqn:Hl; [|done].
  pose proof (escaped_u16 (map escape_cmd_str (arg0 :: args)) true ltac:(discriminate) Hl) as E. unfold concat_strv. intros H.
  rewrite (law_convert_back (concat_loop (fun s => s) (map escape_cmd_str (arg0 :: args)) SPACE true)) by exact (eq_trans E H). unfold getmainargs. by rewrite startup_reads.
Qed.

(** ** The process created *)

Lemma create_started path cmdline envp info (w w' : world) r :
  liftp (callw (CreateProcessW path cmdline envp info)) w = Some (r, w') ->
  match r with
  | inr _ => started_of w' = started_of w ++ [mk_started path cmdline info (obj (fd_os (table w)))]
  | inl _ => started_of w' = started_of w
  end.
Proof.
  unfold liftp, callw, lift, call, st_zoom. pose proof (law_create_started path cmdline envp info (fd_os (table w))) as L.
  destruct (CreateProcessW _ _ _ _ _) as [[e|p] os]; cbn; intros [= <- <-]; exact L.
Qed.

(** What a spawn of [argv] with the mappings [fd_map] starts. *)
Definition starts_as_asked (w : world) (path : cstr) (fd_map : list mm_remap_fd) (argv : list cstr) (c : started_process obj_t) : Prop :=
  utf8_to_utf16 path = Some (st_path c) /\
  concat_utf16 (Some argv) (code SPACE) = Some (st_cmdline c) /\
  exists n, reads_fds crt_fds obj (table w) (std_fd_mappings ++ fd_map) (st_objs c) (st_info c).1.2 (st_info c).1.1 n.

Lemma spawn_process_started path fd_map argv envp (w w' : world) r :
  described crt_fds (in_u 8) (table w) -> (forall fd, 0 <= fd < 3 -> usable crt_fds obj (table w) fd) ->
  Forall (fun m => mapping_valid crt_fds obj (table w) m /\ child_fd m < 2044) fd_map ->
  spawn_process path fd_map argv envp w = Some (r, w') ->
  match r with
  | None => started_of w' = started_of w
  | Some _ => exists c, started_of w' = started_of w ++ [c] /\ starts_as_asked w path fd_map argv c
  end.
Proof.
  intros Hw Hstd Hmap. unfold spawn_process.
  assert (Hbad : forall e (w1 w2 : world) (r : option (Z * Z)), (_ ← raisep_w32 e; mret None) w1 = Some (r, w2) -> started_of w2 = started_of w1 /\ r = None).
  { intros e w1 w2 r0 H. split; [|by apply st_bind_inv in H as (? & ? & _ & [= <- _])].
    refine ((_ : st_keeps started_of _) _ _ _ H). unfold raisep_w32, raisew_w32, raise_w32. keep. }
  destruct (utf8_to_utf16 path) as [path_u16|] eqn:Hp; [|by intros [? ->]%Hbad].
  destruct (concat_utf16 (Some argv) (code SPACE)) as [cmdline|] eqn:Hc; [|by intros [? ->]%Hbad].
  destruct (_ && _); [by intros [? ->]%Hbad|].
  destruct (startup_config_init_spec crt_fds obj (table w) fd_map Hw Hstd Hmap) as (r1 & fd1 & H1 & _ & Hva & Hr).
  intros (r1' & w1 & W1 & H)%st_bind_inv. pose proof (keeps_liftp _ (keeps_lift _ (keeps_config_init fd_map)) _ _ _ W1) as E1.
  unfold liftp, lift in W1. rewrite H1 in W1. cbn in W1. injection W1 as <- <-.
  destruct r1 as [cfg|]; [|by injection H as <- <-].
  destruct Hr as (cfg0 & Hm & Hvb & Hn3 & Hn & Hl & Hd).
  destruct (config_reads crt_fds obj _ _ _ _ _ Hm Hva Hvb Hn3 Hn Hl Hd) as (size & std & n & Hi & Hf).
  apply st_bind_inv in H as (info & w2 & W2 & H). unfold st_option in W2. rewrite Hi in W2. cbn in W2. injection W2 as <- <-.
  apply st_bind_inv in H as (res & w3 & W3 & H). apply create_started in W3. cbn [table pw_files fw_fd] in W3.
  apply st_bind_inv in H as (u & w4 & W4 & H).
  pose proof (keeps_liftp _ (keeps_lift _ (keeps_close_handles (inherited_hnds cfg))) _ _ _ W4) as E4.
  destruct res as [e|p].
  - destruct (Hbad _ _ _ _ H) as [E5 ->]. congruence.
  - apply st_bind_inv in H as (u2 & w5 & W5 & [= <- <-]). pose proof (keeps_close _ _ _ _ W5) as E5.
    eexists. split; [rewrite E5, E4, W3, E1; reflexivity|]. split; [exact Hp|]. split; [exact Hc|]. exists n. exact Hf.
Qed.

(** What the child of a spawn finds: the arguments of its [main], the descriptors of its C runtime and their information. *)
Definition child_finds (w : world) (path : cstr) (fd_map : list mm_remap_fd) (argv : list cstr) (c : started_process obj_t) : Prop :=
  utf8_to_utf16 path = Some (st_path c) /\
  getmainargs (utf16_to_utf8 (st_cmdline c)) = Some (0, Some (Z.of_nat (length argv), argv)) /\
  exists n, reads_fds crt_fds obj (table w) (std_fd_mappings ++ fd_map) (st_objs c) (st_info c).1.2 (st_info c).1.1 n.


(** *** The options of the child *)

(** The settings that the parent gives to the child as options are those that it performs when it parses its arguments. *)
Corollary spawned_settings (w : world) (path : cstr) (fd_map : list mm_remap_fd) (c : started_process obj_t)
    (parser : mm_arg_parser) (prog : cstr) (ss : list setting) (sep : bool) (rest : list cstr) :
  child_finds w path fd_map (prog :: (concat (map render ss) ++ sep_args sep) ++ rest) c ->
  Forall option_ok (optv parser) -> names_terminated (optv parser) -> accepting parser -> is_completing parser = false ->
  Forall (setting_ok parser) ss -> (sep = false -> match rest with [] => True | a :: _ => ~ option_like a end) ->
  exists argv, getmainargs (utf16_to_utf8 (st_cmdline c)) = Some (0, Some (Z.of_nat (length argv), argv)) /\
    mm_arg_parse parser argv
    = Some (concat (map (setting_events parser) ss), Return (Z.of_nat (1 + length (concat (map render ss) ++ sep_args sep)))).
Proof. intros (_ & H & _) Hok Hz Hcb Hn Hs Hr. eexists. split; [exact H|]. by apply settings_parsed. Qed.

End Spawned.

(** ** A system *)

Module ChildDemo.
Import FdTable.Demo.

Definition started (o : os) : list (started_process Z) :=
  map (fun p => mk_started p.1.1 p.1.2 p.2 (SpawnDemo.obj o)) (processes o).

#[global] Instance start_laws : W32StartLaws os SpawnDemo.obj started.
Proof.
  split; try done.
  - intros path cmdline envp info o. cbn. unfold started. cbn. by rewrite map_app.
  - intros a b x y. cbn. intros [= <-] [= <-]. by rewrite map_app.
  - intros s x. cbn. intros [= <-]. f_equal. rewrite map_map. rewrite <- (map_id s) at 2. apply map_ext. intros c.
    unfold byte_char, code. by rewrite N2Z.id, ascii_N_embedding.
Qed.

Definition argv : list cstr := [cs "my prog"; cs "--number=0x10"; cs "a b\"; []].

End ChildDemo.

